(* ===== verification/_CoqProject ===== *)
-Q . S2P
Prelude.v
PyText.v
Dates.v
Sha256.v
PyNum.v
PyRandom.v
Policy.v
Events.v
SimState.v
Soql.v
Catalog.v
Compaction.v
QueryPlan.v
Cursors.v
Jobs.v
BulkQuery.v
Ingest.v
Planners.v
OpsApply.v
Reconcile.v
Erp.v
Runs.v
Migrate.v
AuditBackfill.v
HistoryBackfill.v
Admission.v
Gateway.v
Endpoints.v
Load.v
Crm.v
CrmStore.v
CrmFacts.v
CrmHistory.v
CrmDay.v
CrmCycle.v
CrmRun.v
Registry.v
NumPy.v
GenCalendar.v
GenCustomers.v
GenCrm.v
GenOps.v
GenOpsFacts.v
GenErp.v
Files.v
Sources.v
Compactor.v
Settings.v
Bootstrap.v
Storage.v
Deadline.v
Daemon.v
Artifacts.v
Engine.v
