(* ===== verification/Prelude.v ===== *)
(** * Northwind Systems: verification library

    Northwind is a synthetic B2B company in four cooperating systems: a CRM behind FakeForce, a
    Salesforce-like API over Parquet files ([src/fakeforce]); an operations and a finance database
    in PostgreSQL; and a daily simulator ([src/simulator]) that advances all three, one business
    date at a time. [src/generator] makes, loads, migrates and backfills the baseline. This library
    models the logic of these programs as executable definitions and proves what they promise. This
    file is the shared prelude; each other file models one component and opens with its own account.

    ** How the parts interact

    The scheduler asks the control state for the due dates and runs CRM, Operations and Finance in
    that order for each. Every runner claims the date, plans its events as a function of what it
    reads, records the plan in the control state, applies it to its own store and marks its source as
    applied; the Finance runner reconciles the day and completes it, which moves the watermark. The
    CRM applies its events by publishing delta partitions beside the immutable seed; FakeForce
    serves seed and deltas as one latest view, over REST queries with cursors and over bulk jobs that
    run in workers behind admission control; compaction replaces seed and deltas by one file.

    ** Modelling conventions

    A stateful operation is a function in the monad [io S A := S -> S * res A] below: the state it
    leaves is kept on errors too, as Python keeps its side effects; [transaction] gives a database's
    rollback. An exception is a value [exn] with the class the code raises and, where the code
    reads it, its message. What survives a crash is modelled by the prefixes of the durable writes of
    an operation, in the order of the code. Dates are proleptic Gregorian ordinals, timestamps
    integers (seconds or microseconds, as the file says), [NUMERIC] columns integers in their scale,
    [float] values the Standard Library's [spec_float] in binary64, [Decimal] values coefficient and
    exponent in the 28-digit context. SHA-256, SHA-1, ISO calendar, [str(int)], [int(str)] and the
    Mersenne Twister are computed, not assumed. Code outside [src] is a parameter: DuckDB's and
    PostgreSQL's choices ([pick], [run], collations, [TRY_CAST]), clocks and random
    identifiers; where a theorem relies on documented behaviour of it, it is a hypothesis or a class
    ([Ranking], [Random]) with a concrete instance in the theorem's witness.

    ** Foundations

    - [Prelude] (this file): results, the [io] monad with [preserves] and its hint database [nw],
      sorting, association lists as Python dictionaries, ranges and list lemmas.
    - [PyText], [Dates], [Sha256], [PyNum], [PyRandom]: the parts of Python the source uses.

    ** The simulator

    - [Policy], [Events] ([policy.py], [events.py]): windows, rates, the weekly breach day, events
      with their canonical JSON and identifier.
    - [SimState] ([state.py]): the control tables, one definition per method, every statement
      committing on its own. The watermark means that everything up to it is applied; an interrupted
      day can always be replayed; and two defects: a crash inside [claim_run] wedges its date, an
      unclaimed date can be completed.
    - [Crm], [CrmStore], [CrmHistory], [CrmRun] ([crm.py], [crm_storage.py] and [crm_snapshot.py],
      [crm_history.py], [crm_run.py]), with the proofs in [CrmFacts], [CrmDay], [CrmCycle]: planning
      over the interface [Random], publication as durable writes, the reads, the validation and the
      run. From any store built day by day the next day publishes, validates and leaves such a store;
      the run is restart-safe between its steps and, a defect, not inside the publication.
    - [Planners], [OpsApply] ([ops.py], [fulfillment.py], [support.py], [ops_apply.py]): eligibility
      and delays; the applier over tables with their constraints. Status histories stay consistent
      and applying twice changes nothing.
    - [Erp] ([erp.py], [erp_apply.py]): postings, windows, conversion; the ledger only grows.
    - [Reconcile], [Runs] ([reconciliation.py], [ops_run.py], [erp_run.py],
      [scheduler.py]): the runners as instances of the class [DailySourceRun], against which catch-up
      is proved ordered, complete and resumable; [CrmRun.simulate_through] composes all of them.
    - [Settings], [Bootstrap], [Daemon] ([config.py] of both programs, [bootstrap.py], [daemon.py] and the
      entry point of [scheduler.py]): the environment, the gate that opens with the first complete
      baseline, and the loop in explicit time: whichever attempts fail, a success leaves every date
      up to the local one completed.

    ** FakeForce

    - [Soql], [Catalog], [QueryPlan], [Cursors] ([soql.py], [catalog.py] and [engine.py],
      [query_service.py], [app.py] with [state.py] and [cursor_artifacts.py]): parsing round trip,
      plans that bind every literal, paging that returns each record once.
    - [Jobs], [BulkQuery], [Ingest] ([bulk/], [state.py]): the job state machine, workers that resume
      after any crash with each row exactly once.
    - [Compaction] ([compaction.py]): compaction, interrupted anywhere and run beside publications,
      refines the identity on the latest view.
    - [Files], [Sources] ([catalog.py]): paths, inodes, directories and glob; which files make up an
      object, and the caches of that answer and of the snapshot identifier. [Sources.fs_step] says
      what the programs beside FakeForce do to the files; under it cached answers are linearizable
      and the identifier is exact.
    - [Compactor] ([compaction.py]): the same compaction through the file system, with its errors;
      it keeps to [Sources.fs_step], and leaves the object with one file.
    - [Storage] ([storage.py]): files on a disk that loses what was not synchronised; the atomic writer
      leaves the old file or the complete new one, wherever the power goes.
    - [Engine], [Artifacts] ([engine.py]; [results.py] and [ingest.py]): sessions that are closed in any
      case, mutable tables that survive restarts; deleting a job's files stays inside its root.
    - [Deadline] ([deadline.py]): the caller of a query and its worker thread; the caller is never kept
      longer than the deadline and a quarter of a second.
    - [Admission] ([runtime.py]): the semaphore under every interleaving: bounds and drainage.
    - [Gateway], [Endpoints] ([app.py]): sessions, chaos and rate limit; authentication of every data
      endpoint, the resources of bulk jobs, a bulk query from the request to its result.

    ** Generator and data lifecycle

    - [Migrate] ([migrate.py]), [Load] ([load.py]): pending migrations run once and in order; loading
      a seed without audit columns agrees with the backfill.
    - [AuditBackfill], [HistoryBackfill] ([audit_backfill.py], [history_backfill.py]): batches that
      complete after any interruption with the result of one pass; inferred histories are chains of
      allowed transitions.
    - [Registry] ([metadata_registry.py]): contract versions of the source tables; a synchronisation
      records every new contract once, keeps the history and is idempotent.
    - [NumPy], [GenCalendar], [GenCustomers], [GenCrm], [GenOps], [GenOpsFacts], [GenErp]
      ([generate.py]): the rows of every generated table as functions of the draws, each draw in the
      range its call asks for. Whatever is drawn, the operational and finance rows satisfy the
      constraints of their schemas, every credit note is the exact opposite of an invoice, and the
      CRM files are a state from which the simulator's first day runs ([generated_baseline_simulates],
      which meets [CrmCycle] on the other side).

    ** Fuel and bounds

    [Soql] runs its loops on the length of the input, and [parse_soql_errors] shows that the fuel
    never runs out; the batches of the backfills run on a fuel above the number of rows, and the
    theorems [audit_backfill_completes] and [history_backfill_completes] show that it is enough. [PyRandom.redraws] and
    [MT19937.attempts] bound loops that CPython leaves to chance: after 4096 rejected draws in a row
    the model takes the least free value, so that the theorems hold for every generator. Event
    numbers are bounded where DuckDB reads them as BIGINT ([2^63]). Dates stay before year 10000.

    ** Not modelled

    - The distributions the generator draws from, the amounts that are only a rounded draw, the sizes
      derived from [--scale], and its files and printed manifest.
    - Operator reports ([generator/profile.py], [generator/source_status.py],
      [generator/history_validate.py], [fakeforce/benchmark.py], [scripts/]), process metrics and the
      health and index pages of the API: they read and print.
    - Connections, PRAGMAs, schema creation, signal handling, logging, argument parsing.
    - Symbolic links, and two changes of a directory within one tick of the file system's clock; a
      glob reads the tree in one step.
    - What DuckDB, PostgreSQL, Arrow and the csv module do with the statements and values the code
      hands them, beyond the relational meaning the models state; NULL is [None] or an absent entry.
    - Concurrency inside one process other than in [Admission], [Deadline], [Sources] and the interleavings
      of [Endpoints]: the simulator and the workers are sequential. *)

From stdpp Require Import prelude gmap strings list sorting.
From Stdlib Require Import ZArith Lia Ascii.

#[global] Set Default Goal Selector "!".

(** ** Python exceptions *)

(** The exception classes the modelled code raises or catches. *)
Inductive exn_class :=
| ValueError
| KeyError
| RuntimeError
| AssertionError
| TypeError
| FileNotFoundError
| SoqlSyntaxError
| QueryValidationError
| QueryOptionError
| QueryDeadlineExceeded
| InvalidJobTransition
| InvalidBulkLocator
| IngestValidationError
| IngestUploadTooLarge
| IngestFileError
| SimulationStateError
| ReconciliationError
| MigrationError
| CrmDeltaError
| CatalogError
| CompactionError
| IntegrityError
| AttributeError
| OverflowError
| InvalidOperation
| DataError
| InsufficientDiskSpaceError
| SalesforceAuthenticationError
| HTTPException
| JSONDecodeError
| IndexError
| PermissionError
| OSError
| TimeoutError
| SystemExit
| ArgumentTypeError.

#[export] Instance exn_class_eq_dec : EqDecision exn_class.
Proof. solve_decision. Defined.

(** An exception value: its class, its message and, for the classes that carry
    one, the [code] attribute. *)
Record exn := Exn { exn_cls : exn_class; exn_code : string; exn_msg : string }.

#[export] Instance exn_eq_dec : EqDecision exn.
Proof. solve_decision. Defined.

(** The classes below [ValueError] in the source: [except ValueError] catches them. *)
Definition is_value_error (c : exn_class) : bool :=
  match c with
  | ValueError | SoqlSyntaxError | QueryValidationError | QueryOptionError
  | InvalidJobTransition | InvalidBulkLocator | IngestValidationError
  | IngestUploadTooLarge | IngestFileError | CatalogError | JSONDecodeError => true
  | _ => false
  end.

(** ** The result and state monads *)

Inductive res (A : Type) :=
| Ok (a : A)
| Err (e : exn).
Arguments Ok {A} _.
Arguments Err {A} _.

Definition res_bind {A B} (m : res A) (k : A → res B) : res B :=
  match m with
  | Ok a => k a
  | Err e => Err e
  end.

Definition raise {A} (c : exn_class) (msg : string) : res A := Err (Exn c "" msg).
Definition raise_code {A} (c : exn_class) (code msg : string) : res A := Err (Exn c code msg).

Definition is_ok {A} (r : res A) : bool :=
  match r with Ok _ => true | Err _ => false end.

(** A stateful computation: an exception keeps the state reached so far, as in Python;
    transactions that roll back are written with [transaction] below. *)
Definition io (S A : Type) : Type := S → S * res A.

Definition io_ret {S A} (a : A) : io S A := λ s, (s, Ok a).
Definition io_bind {S A B} (m : io S A) (k : A → io S B) : io S B :=
  λ s, match m s with
       | (s', Ok a) => k a s'
       | (s', Err e) => (s', Err e)
       end.
Definition io_raise {S A} (c : exn_class) (msg : string) : io S A := λ s, (s, raise c msg).
Definition io_get {S} : io S S := λ s, (s, Ok s).
Definition io_modify {S} (f : S → S) : io S unit := λ s, (f s, Ok tt).
Definition io_lift {S A} (r : res A) : io S A := λ s, (s, r).

(** [BEGIN ... COMMIT], with [ROLLBACK] and re-raise on any exception. *)
Definition transaction {S A} (m : io S A) : io S A :=
  λ s, match m s with
       | (s', Ok a) => (s', Ok a)
       | (_, Err e) => (s, Err e)
       end.

(** Running a computation on a component of a larger state. *)
Definition io_zoom {S T A} (get : S → T) (set : T → S → S) (m : io T A) : io S A :=
  λ s, let '(t, r) := m (get s) in (set t s, r).

Declare Scope nw_scope.
Delimit Scope nw_scope with nw.
Notation "'let!' x ':=' m 'in' k" := (res_bind m (λ x, k))
  (at level 10, x pattern, m at level 100, k at level 200) : nw_scope.
Notation "'let*' x ':=' m 'in' k" := (io_bind m (λ x, k))
  (at level 10, x pattern, m at level 100, k at level 200) : nw_scope.
Notation "m ;;; k" := (io_bind m (λ _, k))
  (at level 199, k at level 200, right associativity) : nw_scope.

(** [if b: raise c(msg)] *)
Definition raise_if {S} (b : bool) (c : exn_class) (msg : string) : io S unit :=
  if b then io_raise c msg else io_ret tt.

Open Scope nw_scope.

(** [try: m except ...]: the handler takes the exceptions it names. *)
Definition io_try {S A} (m : io S A) (handler : exn → option (io S A)) : io S A :=
  λ s, match m s with
       | (s', Err e) => match handler e with Some k => k s' | None => (s', Err e) end
       | r => r
       end.

(** [for x in l: body], threading an accumulator. *)
Fixpoint io_fold {S A B} (f : B → A → io S B) (l : list A) (b : B) : io S B :=
  match l with
  | [] => io_ret b
  | x :: l => let* b' := f b x in io_fold f l b'
  end.

Definition io_iter {S A} (f : A → io S unit) (l : list A) : io S unit :=
  io_fold (λ _ x, f x) l tt.

(** [[f(x) for x in l]] *)
Fixpoint io_map {S A B} (f : A → io S B) (l : list A) : io S (list B) :=
  match l with
  | [] => io_ret []
  | x :: l => let* y := f x in let* ys := io_map f l in io_ret (y :: ys)
  end.

Fixpoint res_map {A B} (f : A → res B) (l : list A) : res (list B) :=
  match l with
  | [] => Ok []
  | x :: l => let! y := f x in let! ys := res_map f l in Ok (y :: ys)
  end.

(** The values [f] gives for the elements of a list, without the [None]s. *)
Fixpoint res_omap {A B} (f : A → res (option B)) (l : list A) : res (list B) :=
  match l with
  | [] => Ok []
  | x :: l => let! y := f x in let! ys := res_omap f l in Ok (match y with Some y => y :: ys | None => ys end)
  end.

Lemma res_omap_ok {A B} (f : A → res (option B)) l ys :
  res_omap f l = Ok ys → (∀ y, y ∈ ys ↔ ∃ x, x ∈ l ∧ f x = Ok (Some y)) ∧ ∀ x, x ∈ l → is_ok (f x) = true.
Proof.
  revert ys. induction l as [|x l IH]; intros ys; simpl.
  - intros [= <-]. set_solver.
  - destruct (f x) as [o|] eqn:E; simpl; [|done]. destruct (res_omap f l) as [zs|]; simpl; [|done].
    destruct (IH zs eq_refl) as [H1 H2]. intros [= <-]. split.
    + intros y. destruct o as [y'|]; [rewrite elem_of_cons|]; rewrite H1; split.
      * intros [->|(x' & ? & ?)]; [exists x|exists x']; split; set_solver.
      * intros (x' & [->|Hx]%elem_of_cons & Hf); [left; congruence|right; eauto].
      * intros (x' & ? & ?). exists x'. set_solver.
      * intros (x' & [->|Hx]%elem_of_cons & Hf); [congruence|eauto].
    + intros x' [->|Hx]%elem_of_cons; [by rewrite E|by apply H2].
Qed.

Lemma res_omap_pure {A B} (f : A → res (option B)) (g : A → option B) l :
  (∀ x, x ∈ l → f x = Ok (g x)) → res_omap f l = Ok (omap g l).
Proof.
  induction l as [|x l IH]; intros Hf; [done|]. cbn [res_omap omap list_omap].
  rewrite Hf by set_solver. simpl. rewrite IH by set_solver. simpl. by destruct (g x).
Qed.

Lemma res_omap_total {A B} (f : A → res (option B)) l :
  (∀ x, x ∈ l → is_ok (f x) = true) → ∃ ys, res_omap f l = Ok ys.
Proof.
  induction l as [|x l IH]; intros Hf; simpl; [by exists []|].
  destruct (f x) as [o|] eqn:E; [|exfalso; specialize (Hf x ltac:(set_solver)); by rewrite E in Hf].
  destruct IH as [ys ->]; [set_solver|]. simpl. eauto.
Qed.

(** A list with the same elements gives the same elements. *)
Lemma res_omap_same {A B} (f : A → res (option B)) l l' ys :
  res_omap f l = Ok ys → (∀ x, x ∈ l' ↔ x ∈ l) →
  ∃ ys', res_omap f l' = Ok ys' ∧ ∀ y, y ∈ ys' ↔ y ∈ ys.
Proof.
  intros H Hl. apply res_omap_ok in H as [H Hok].
  destruct (res_omap_total f l') as [ys' E]; [intros x Hx; apply Hok; by apply Hl|].
  exists ys'. split; [done|]. apply res_omap_ok in E as [E _]. intros y. rewrite E, H.
  by setoid_rewrite Hl.
Qed.

Lemma res_map_pure {A B} (f : A → res B) (g : A → B) l :
  (∀ x, x ∈ l → f x = Ok (g x)) → res_map f l = Ok (g <$> l).
Proof.
  induction l as [|x l IH]; intros Hf; cbn [res_map]; [done|].
  rewrite Hf by left. cbn [res_bind]. rewrite IH by (intros; apply Hf; by right). done.
Qed.

Lemma res_map_Forall2 {A B} (f : A → res B) l ys :
  res_map f l = Ok ys → Forall2 (λ x y, f x = Ok y) l ys.
Proof.
  revert ys. induction l as [|x l IH]; intros ys; simpl; [intros [= <-]; constructor|].
  destruct (f x) as [y|] eqn:E; simpl; [|done]. destruct (res_map f l) as [zs|]; simpl; [|done].
  intros [= <-]. constructor; [done|by apply IH].
Qed.

(** ** Reasoning about stateful computations *)

Section Io.
Context {S : Type}.

(** [preserves I m]: [I] holds after [m], whether [m] returns or raises. *)
Definition preserves {A} (I : S → Prop) (m : io S A) : Prop :=
  ∀ s, I s → I (m s).1.

Lemma preserves_ret {A} (I : S → Prop) (a : A) : preserves I (io_ret a).
Proof. by intros s. Qed.

Lemma preserves_raise {A} (I : S → Prop) c msg : preserves I (io_raise (A:=A) c msg).
Proof. by intros s. Qed.

Lemma preserves_get (I : S → Prop) : preserves I io_get.
Proof. by intros s. Qed.

Lemma preserves_lift {A} (I : S → Prop) (r : res A) : preserves I (io_lift r).
Proof. by intros s. Qed.

Lemma preserves_modify (I : S → Prop) f :
  (∀ s, I s → I (f s)) → preserves I (io_modify f).
Proof. intros H s Hs. by apply H. Qed.

Lemma preserves_bind {A B} (I : S → Prop) (m : io S A) (k : A → io S B) :
  preserves I m → (∀ a, preserves I (k a)) → preserves I (io_bind m k).
Proof.
  intros Hm Hk s Hs. unfold io_bind. specialize (Hm s Hs).
  destruct (m s) as [s' [a|e]]; simpl in *; [by apply Hk | done].
Qed.

Lemma preserves_try {A} (I : S → Prop) (m : io S A) handler :
  preserves I m → (∀ e k, handler e = Some k → preserves I k) → preserves I (io_try m handler).
Proof.
  intros Hm Hk s Hs. unfold io_try. specialize (Hm s Hs). destruct (m s) as [s' [a|e]]; simpl in *; [done|].
  destruct (handler e) as [k|] eqn:E; [by eapply Hk|done].
Qed.

Lemma preserves_fold {A B} (I : S → Prop) (f : B → A → io S B) l b :
  (∀ b x, x ∈ l → preserves I (f b x)) → preserves I (io_fold f l b).
Proof.
  revert b. induction l as [|x l IH]; intros b Hf; simpl.
  - apply preserves_ret.
  - apply preserves_bind; [apply Hf; set_solver|].
    intros b'. apply IH. intros b'' y Hy. apply Hf. set_solver.
Qed.

Lemma preserves_transaction {A} (I : S → Prop) (m : io S A) :
  preserves I m → preserves I (transaction m).
Proof.
  intros Hm s Hs. unfold transaction. specialize (Hm s Hs).
  destruct (m s) as [s' [a|e]]; done.
Qed.

(** A computation run in a transaction leaves no trace of a failure. *)
Lemma transaction_err {A} (m : io S A) s s' e :
  transaction m s = (s', Err e) → s' = s.
Proof. unfold transaction. destruct (m s) as [? [?|?]]; congruence. Qed.

Lemma transaction_ok {A} (m : io S A) s s' a :
  transaction m s = (s', Ok a) ↔ m s = (s', Ok a).
Proof. unfold transaction. destruct (m s) as [? [?|?]]; split; congruence. Qed.

Lemma io_bind_ok {A B} (m : io S A) (k : A → io S B) s s' b :
  io_bind m k s = (s', Ok b) ↔ ∃ s1 a, m s = (s1, Ok a) ∧ k a s1 = (s', Ok b).
Proof.
  unfold io_bind. destruct (m s) as [s1 [a|e]]; split.
  - intros H. by exists s1, a.
  - intros (s2 & a2 & [= <- <-] & H). done.
  - intros [=].
  - intros (? & ? & [=] & _).
Qed.

Lemma io_bind_run {A B} (m : io S A) (k : A → io S B) s s1 a : m s = (s1, Ok a) → io_bind m k s = k a s1.
Proof. unfold io_bind. by intros ->. Qed.

Lemma io_bind_err {A B} (m : io S A) (k : A → io S B) s s1 e : m s = (s1, Err e) → io_bind m k s = (s1, Err e).
Proof. unfold io_bind. by intros ->. Qed.

Lemma io_map_ok {A B} (f : A → io S B) (R : A → B → Prop) l :
  (∀ x s, x ∈ l → ∃ s' y, f x s = (s', Ok y) ∧ R x y) →
  ∀ s, ∃ s' ys, io_map f l s = (s', Ok ys) ∧ Forall2 R l ys.
Proof.
  induction l as [|x l IH]; intros Hf s; cbn [io_map]; [by exists s, []|].
  destruct (Hf x s ltac:(left)) as (s1 & y & E & HR). destruct (IH ltac:(intros; apply Hf; by right) s1) as (s2 & ys & E2 & H2).
  exists s2, (y :: ys). split; [|by constructor]. rewrite (io_bind_run _ _ _ _ _ E), (io_bind_run _ _ _ _ _ E2). done.
Qed.

Lemma io_fold_app {A B} (f : B → A → io S B) l1 l2 b s :
  io_fold f (l1 ++ l2) b s = io_bind (io_fold f l1 b) (io_fold f l2) s.
Proof.
  revert b s. induction l1 as [|x l1 IH]; intros b s; [done|].
  cbn [app io_fold]. unfold io_bind at 1 2 3.
  destruct (f b x s) as [s1 [b1|e]]; [apply IH | done].
Qed.

Lemma io_fold_cons {A B} (f : B → A → io S B) x l b s :
  io_fold f (x :: l) b s = io_bind (f b x) (io_fold f l) s.
Proof. done. Qed.
End Io.

Lemma res_bind_ok {A B} (m : res A) (k : A → res B) b :
  res_bind m k = Ok b ↔ ∃ a, m = Ok a ∧ k a = Ok b.
Proof.
  destruct m as [a|e]; simpl; split.
  - intros H. by exists a.
  - by intros (? & [= <-] & H).
  - intros [=].
  - by intros (? & [=] & _).
Qed.

Create HintDb nw.
#[export] Hint Resolve preserves_ret preserves_raise preserves_get preserves_lift
  preserves_modify preserves_bind preserves_fold preserves_transaction preserves_try : nw.

(** Split every [match] and [if] in sight, closing the contradictory branches. *)
Ltac case_all :=
  repeat (case_match || case_decide; simplify_eq/=; try done).

(** Run the state monad's combinators. *)
Ltac io_simpl :=
  repeat (progress unfold io_bind, io_get, io_ret, io_modify, io_lift, io_raise, raise_if in *;
          simpl in *).

(** Invert one step of a monadic computation that returned normally. *)
Ltac inv_ok H :=
  match type of H with
  | io_bind _ _ _ = (_, Ok _) =>
      let s1 := fresh "s" in let a := fresh "a" in let H1 := fresh "Hm" in
      apply io_bind_ok in H as (s1 & a & H1 & H)
  | res_bind _ _ = Ok _ =>
      let a := fresh "a" in let H1 := fresh "Hm" in
      apply res_bind_ok in H as (a & H1 & H)
  end.

Lemma io_lift_ok {S A} (r : res A) (s s' : S) a : io_lift r s = (s', Ok a) → s' = s ∧ r = Ok a.
Proof. by intros [= -> ->]. Qed.
Lemma io_get_ok {S} (s s' a : S) : io_get s = (s', Ok a) → s' = s ∧ a = s.
Proof. by intros [= -> ->]. Qed.
Lemma io_ret_ok {S A} (s s' : S) (a b : A) : io_ret a s = (s', Ok b) → s' = s ∧ b = a.
Proof. by intros [= -> ->]. Qed.
Lemma io_modify_ok {S} (f : S → S) s s' u : io_modify f s = (s', Ok u) → s' = f s.
Proof. by intros [= ->]. Qed.
Lemma raise_if_ok {S} b c msg (s s' : S) u : raise_if b c msg s = (s', Ok u) → s' = s ∧ b = false.
Proof. destruct b; [done|]. by intros [= ->]. Qed.

(** Invert a computation that returned normally, step by step. *)
Ltac io_inv :=
  repeat match goal with
  | H : io_bind _ _ _ = (_, Ok _) |- _ => inv_ok H
  | H : io_lift _ _ = (_, Ok _) |- _ => apply io_lift_ok in H as [-> H]
  | H : io_get _ = (_, Ok _) |- _ => apply io_get_ok in H as [-> ->]
  | H : io_ret _ _ = (_, Ok _) |- _ => apply io_ret_ok in H as [-> ->]
  | H : io_modify _ _ = (_, Ok _) |- _ => apply io_modify_ok in H as ->
  | H : raise_if _ _ _ _ = (_, Ok _) |- _ => apply raise_if_ok in H as [-> H]
  | H : io_raise _ _ _ = (_, Ok _) |- _ => discriminate H
  end.

(** ** Sorting *)

(** Python's [sorted]: a stable sort by a total preorder given as a boolean. *)
Section SortBy.
Context {A : Type} (le : A → A → bool).

Fixpoint insert_by (x : A) (l : list A) : list A :=
  match l with
  | [] => [x]
  | y :: l' => if le x y then x :: l else y :: insert_by x l'
  end.

Fixpoint sort_by (l : list A) : list A :=
  match l with
  | [] => []
  | x :: l => insert_by x (sort_by l)
  end.

Lemma insert_by_perm x l : insert_by x l ≡ₚ x :: l.
Proof.
  induction l as [|y l IH]; simpl; [done|].
  destruct (le x y); [done|]. rewrite IH. by apply Permutation_swap.
Qed.

Lemma sort_by_perm l : sort_by l ≡ₚ l.
Proof. induction l as [|x l IH]; simpl; [done|]. by rewrite insert_by_perm, IH. Qed.

Lemma elem_of_sort_by x l : x ∈ sort_by l ↔ x ∈ l.
Proof. by rewrite sort_by_perm. Qed.

Lemma length_sort_by l : length (sort_by l) = length l.
Proof. by rewrite sort_by_perm. Qed.

Lemma NoDup_sort_by l : NoDup (sort_by l) ↔ NoDup l.
Proof. by rewrite sort_by_perm. Qed.

Context (le_total : ∀ x y, le x y = true ∨ le y x = true).
Context (le_trans : ∀ x y z, le x y = true → le y z = true → le x z = true).

Lemma insert_by_sorted x l :
  StronglySorted (λ a b, le a b = true) l →
  StronglySorted (λ a b, le a b = true) (insert_by x l).
Proof.
  induction 1 as [|y l Hl IH Hy]; simpl; [by repeat constructor|].
  destruct (le x y) eqn:E.
  - constructor; [by constructor|]. constructor; [done|].
    eapply Forall_impl; [exact Hy|]. eauto.
  - constructor; [done|]. rewrite insert_by_perm. constructor; [|done].
    destruct (le_total x y); congruence.
Qed.

Lemma sort_by_sorted l : StronglySorted (λ a b, le a b = true) (sort_by l).
Proof. induction l; simpl; [constructor | by apply insert_by_sorted]. Qed.

Lemma insert_by_head x l :
  Forall (λ y, le x y = true) l → insert_by x l = x :: l.
Proof. destruct 1 as [|y l Hy _]; simpl; [done|]. by rewrite Hy. Qed.

Lemma sort_by_id l : StronglySorted (λ a b, le a b = true) l → sort_by l = l.
Proof.
  induction 1 as [|x l Hl IH Hx]; simpl; [done|]. rewrite IH. by apply insert_by_head.
Qed.

Lemma sort_by_Permutation
    (le_antisym : ∀ x y, le x y = true → le y x = true → x = y) l1 l2 :
  l1 ≡ₚ l2 → sort_by l1 = sort_by l2.
Proof.
  intros Hp. assert (AntiSymm (=) (λ a b, le a b = true)) by (intros x y; eauto).
  eapply (StronglySorted_unique (λ a b, le a b = true)); try apply sort_by_sorted.
  by rewrite !sort_by_perm.
Qed.
End SortBy.

(** The order of Python's [str]: lexicographic by code point. *)
Abbreviation str_le := String.leb.

Lemma ascii_compare_lt_trans a b c :
  Ascii.compare a b = Lt → Ascii.compare b c = Lt → Ascii.compare a c = Lt.
Proof.
  unfold Ascii.compare. rewrite !N.compare_lt_iff. lia.
Qed.

Lemma string_compare_lt_trans a : ∀ b c,
  String.compare a b = Lt → String.compare b c = Lt → String.compare a c = Lt.
Proof.
  induction a as [|x a IH]; intros [|y b] [|z c]; simpl; try done.
  destruct (Ascii.compare x y) eqn:E1; try done;
  destruct (Ascii.compare y z) eqn:E2; try done; intros H1 H2.
  - apply Ascii.compare_eq_iff in E1, E2. subst.
    unfold Ascii.compare. rewrite N.compare_refl. eauto.
  - apply Ascii.compare_eq_iff in E1. subst. by rewrite E2.
  - apply Ascii.compare_eq_iff in E2. subst. by rewrite E1.
  - by rewrite (ascii_compare_lt_trans _ _ _ E1 E2).
Qed.

Lemma str_le_total a b : str_le a b = true ∨ str_le b a = true.
Proof. apply String.leb_total. Qed.

Lemma str_le_antisym a b : str_le a b = true → str_le b a = true → a = b.
Proof. apply String.leb_antisym. Qed.

Lemma string_compare_refl a : String.compare a a = Eq.
Proof.
  induction a as [|x a IH]; simpl; [done|].
  unfold Ascii.compare. by rewrite N.compare_refl.
Qed.

Lemma str_le_trans a b c : str_le a b = true → str_le b c = true → str_le a c = true.
Proof.
  unfold String.leb.
  destruct (String.compare a b) eqn:E1; try done;
  destruct (String.compare b c) eqn:E2; try done; intros _ _.
  - apply String.compare_eq_iff in E1, E2. subst. by rewrite string_compare_refl.
  - apply String.compare_eq_iff in E1. subst. by rewrite E2.
  - apply String.compare_eq_iff in E2. subst. by rewrite E1.
  - by rewrite (string_compare_lt_trans _ _ _ E1 E2).
Qed.

Lemma str_le_refl a : str_le a a = true.
Proof. unfold String.leb. by rewrite string_compare_refl. Qed.

(** Sorting by a string key. *)
Section SortOn.
Context {A : Type} (key : A → string).

Definition le_on (x y : A) : bool := str_le (key x) (key y).
Definition sort_on : list A → list A := sort_by le_on.

Lemma le_on_total x y : le_on x y = true ∨ le_on y x = true.
Proof. apply str_le_total. Qed.

Lemma le_on_trans x y z : le_on x y = true → le_on y z = true → le_on x z = true.
Proof. apply str_le_trans. Qed.

Lemma elem_of_sort_on x l : x ∈ sort_on l ↔ x ∈ l.
Proof. apply elem_of_sort_by. Qed.

Lemma sort_on_perm l : sort_on l ≡ₚ l.
Proof. apply sort_by_perm. Qed.
End SortOn.

(** Sorting by keys that are distinct does not depend on the order of the list. *)
Lemma sort_on_Permutation {A} (key : A → string) l1 l2 :
  l1 ≡ₚ l2 → NoDup (key <$> l1) → sort_on key l1 = sort_on key l2.
Proof.
  intros Hp Hnd.
  assert (∀ k1 k2, StronglySorted (λ a b, le_on key a b = true) k1 →
                   StronglySorted (λ a b, le_on key a b = true) k2 →
                   k1 ≡ₚ k2 → NoDup (key <$> k1) → k1 = k2) as H.
  { clear. induction k1 as [|x k1 IH]; intros k2 H1 H2 Hp Hnd.
    { by apply Permutation_nil_l in Hp. }
    destruct k2 as [|y k2]; [by apply Permutation_nil_r in Hp|].
    inversion H1 as [|? ? H1' Hx]; inversion H2 as [|? ? H2' Hy]; subst.
    inversion Hnd as [|? ? Hxk Hnd']; subst. rewrite Forall_forall in Hx, Hy.
    assert (x = y) as ->; [|f_equal; apply IH; try done; by apply Permutation_cons_inv in Hp].
    assert (y ∈ x :: k1) as [->|Hin]%elem_of_cons by (rewrite Hp; set_solver); [done|].
    assert (x ∈ y :: k2) as [->|Hin']%elem_of_cons by (rewrite <- Hp; set_solver); [done|].
    exfalso. apply Hxk. rewrite (str_le_antisym (key x) (key y)); [by apply list_elem_of_fmap_2|by apply Hx|by apply Hy]. }
  apply H.
  - apply sort_by_sorted; [apply le_on_total|apply le_on_trans].
  - apply sort_by_sorted; [apply le_on_total|apply le_on_trans].
  - by rewrite !sort_on_perm.
  - by rewrite sort_on_perm.
Qed.

(** ** Lists *)

(** [max(l, default=d)] over integers. *)
Definition zmax (d : Z) (l : list Z) : Z := foldr Z.max d l.

Lemma zmax_ge d l x : x ∈ l → (x ≤ zmax d l)%Z.
Proof.
  induction l as [|y l IH]; [set_solver|].
  intros [->|Hx]%elem_of_cons; simpl; [lia|]. specialize (IH Hx). unfold zmax in *. lia.
Qed.

Lemma zmax_base d l : (d ≤ zmax d l)%Z.
Proof. induction l as [|y l IH]; simpl; [done|]. unfold zmax in *. lia. Qed.

Lemma zmax_in d l : zmax d l = d ∨ zmax d l ∈ l.
Proof.
  induction l as [|y l IH]; simpl; [by left|].
  destruct (Z.max_spec y (zmax d l)) as [[_ ->]|[_ ->]]; [|by right; left].
  destruct IH as [->|]; [by left | right; by right].
Qed.

(** A Python [dict] with string keys, in insertion order. *)
Section Dict.
Context {V : Type}.

Fixpoint aget (k : string) (d : list (string * V)) : option V :=
  match d with
  | [] => None
  | (k', v) :: d => if String.eqb k k' then Some v else aget k d
  end.

(** [d[k] = v]: an existing key keeps its place. *)
Fixpoint aset (k : string) (v : V) (d : list (string * V)) : list (string * V) :=
  match d with
  | [] => [(k, v)]
  | (k', v') :: d => if String.eqb k k' then (k, v) :: d else (k', v') :: aset k v d
  end.

(** [d.pop(k)], without the value *)
Definition adel (k : string) (d : list (string * V)) : list (string * V) :=
  filter (λ kv, negb (String.eqb k kv.1) = true) d.

Definition dict_of (l : list (string * V)) : list (string * V) :=
  foldl (λ d kv, aset kv.1 kv.2 d) [] l.

Lemma aget_aset k v d k' :
  aget k' (aset k v d) = if String.eqb k' k then Some v else aget k' d.
Proof.
  induction d as [|[k0 v0] d IH]; simpl; [done|].
  destruct (String.eqb_spec k k0) as [->|]; simpl.
  - by destruct (String.eqb k' k0).
  - destruct (String.eqb_spec k' k0) as [->|]; [|done].
    destruct (String.eqb_spec k0 k); [congruence|done].
Qed.

Lemma aset_fst k v d k' : k' ∈ (aset k v d).*1 ↔ k' = k ∨ k' ∈ d.*1.
Proof.
  induction d as [|[k0 v0] d IH]; simpl; [set_solver|].
  destruct (String.eqb_spec k k0) as [->|]; simpl; set_solver.
Qed.

Lemma aset_new k v d : k ∉ d.*1 → aset k v d = d ++ [(k, v)].
Proof.
  induction d as [|[k0 v0] d IH]; simpl; [done|]. intros Hk.
  destruct (String.eqb_spec k k0) as [->|]; [set_solver|]. rewrite IH; set_solver.
Qed.

Lemma aget_Some k d v : aget k d = Some v → (k, v) ∈ d.
Proof.
  induction d as [|[k0 v0] d IH]; simpl; [done|].
  destruct (String.eqb_spec k k0) as [->|]; [intros [= ->]; set_solver|set_solver].
Qed.

Lemma aget_None k d : aget k d = None ↔ k ∉ d.*1.
Proof.
  induction d as [|[k0 v0] d IH]; simpl; [set_solver|].
  destruct (String.eqb_spec k k0) as [->|]; set_solver.
Qed.

Lemma NoDup_aset k v d : NoDup d.*1 → NoDup (aset k v d).*1.
Proof.
  induction d as [|[k0 v0] d IH]; simpl.
  - intros _. by repeat constructor; set_solver.
  - intros Hd. inversion Hd; subst. destruct (String.eqb_spec k k0) as [->|]; simpl; [done|].
    constructor; [|by apply IH]. rewrite aset_fst. naive_solver.
Qed.

Lemma length_aset k v d : (length (aset k v d) ≤ S (length d))%nat.
Proof. induction d as [|[k0 v0] d IH]; simpl; [done|]. case_match; simpl; lia. Qed.

Lemma dict_of_nodup l : NoDup l.*1 → dict_of l = l.
Proof.
  intros Hl. unfold dict_of.
  enough (∀ d, NoDup (d ++ l).*1 → foldl (λ d kv, aset kv.1 kv.2 d) d l = d ++ l) as H
    by (by rewrite H).
  induction l as [|[k v] l IH]; intros d Hd; simpl; [by rewrite app_nil_r|].
  rewrite fmap_app in Hd. simpl in *. inversion Hl; subst.
  rewrite aset_new, IH; [by rewrite <- app_assoc|done| |].
  - rewrite <- app_assoc. by rewrite fmap_app.
  - apply NoDup_app in Hd as (_ & Hd & _). set_solver.
Qed.

Lemma aget_NoDup k v d : NoDup d.*1 → (k, v) ∈ d → aget k d = Some v.
Proof.
  induction d as [|[k0 v0] d IH]; simpl; intros Hd Hin; [by apply elem_of_nil in Hin|].
  inversion Hd as [|? ? Hk0 Hd']; subst. apply elem_of_cons in Hin as [[= -> ->]|Hin].
  - by rewrite String.eqb_refl.
  - destruct (String.eqb_spec k k0) as [->|]; [|by apply IH].
    by apply (list_elem_of_fmap_2 fst) in Hin.
Qed.

Lemma elem_of_aset k v d kv : kv ∈ aset k v d → kv = (k, v) ∨ kv ∈ d.
Proof.
  induction d as [|[k0 v0] d IH]; simpl; [set_solver|].
  destruct (String.eqb_spec k k0); set_solver.
Qed.

Lemma foldl_aset_spec l d :
  NoDup d.*1 →
  NoDup (foldl (λ d kv, aset kv.1 kv.2 d) d l).*1 ∧
  (∀ k, k ∈ (foldl (λ d kv, aset kv.1 kv.2 d) d l).*1 ↔ k ∈ d.*1 ∨ k ∈ l.*1) ∧
  (∀ kv, kv ∈ foldl (λ d kv, aset kv.1 kv.2 d) d l → kv ∈ d ∨ kv ∈ l) ∧
  (length (foldl (λ d kv, aset kv.1 kv.2 d) d l) ≤ length d + length l)%nat ∧
  (length (foldl (λ d kv, aset kv.1 kv.2 d) d l) = length d + length l →
   NoDup (d ++ l).*1)%nat.
Proof.
  revert d. induction l as [|[k v] l IH]; intros d Hd; simpl.
  - rewrite app_nil_r. repeat split; try done; try set_solver; lia.
  - destruct (IH (aset k v d) (NoDup_aset k v d Hd)) as (H1 & H2 & H3 & H4 & H5).
    pose proof (length_aset k v d) as Hl. split; [done|]. split; [|split; [|split]].
    + intros k'. rewrite H2, aset_fst. set_solver.
    + intros kv Hkv. destruct (H3 kv Hkv) as [[->|?]%elem_of_aset|?]; set_solver.
    + lia.
    + intros Hlen. specialize (H5 ltac:(lia)).
      destruct (decide (k ∈ d.*1)) as [Hin|Hin].
      * exfalso. assert (length (aset k v d) = length d) as E; [|lia].
        clear -Hin. induction d as [|[k0 v0] d IH]; simpl in *; [by apply elem_of_nil in Hin|].
        destruct (String.eqb_spec k k0); simpl; [done|]. f_equal. apply IH. set_solver.
      * rewrite aset_new in H5 by done. by rewrite <- app_assoc in H5.
Qed.
End Dict.

(** [enumerate(l, start)] *)
Fixpoint enumerate_from {A} (n : Z) (l : list A) : list (Z * A) :=
  match l with
  | [] => []
  | x :: l => (n, x) :: enumerate_from (n + 1) l
  end.

Lemma enumerate_from_snd {A} n (l : list A) : (enumerate_from n l).*2 = l.
Proof. revert n. induction l as [|x l IH]; intros n; simpl; [done|]. by rewrite IH. Qed.

Lemma enumerate_from_lookup {A} n (l : list A) (i : nat) x :
  l !! i = Some x → enumerate_from n l !! i = Some ((n + Z.of_nat i)%Z, x).
Proof.
  revert n i. induction l as [|y l IH]; intros n [|i]; simpl; try done.
  - intros [= ->]. by rewrite Z.add_0_r.
  - intros H. rewrite (IH (n + 1)%Z i H). do 2 f_equal. lia.
Qed.

Lemma elem_of_enumerate_from {A} n (l : list A) k x :
  (k, x) ∈ enumerate_from n l → (n ≤ k < n + Z.of_nat (length l))%Z ∧ x ∈ l.
Proof.
  revert n. induction l as [|y l IH]; intros n; simpl; [set_solver|].
  intros [[= -> ->]|H]%elem_of_cons; [split; [lia|set_solver]|].
  apply IH in H as [? ?]. split; [lia|set_solver].
Qed.

Lemma NoDup_enumerate_fst {A} n (l : list A) : NoDup (enumerate_from n l).*1.
Proof.
  revert n. induction l as [|y l IH]; intros n; simpl; constructor; [|apply IH].
  rewrite list_elem_of_fmap. intros ([k x] & Hk & H).
  apply elem_of_enumerate_from in H as [? _]. simpl in *. lia.
Qed.

Lemma length_enumerate_from {A} n (l : list A) : length (enumerate_from n l) = length l.
Proof. revert n. induction l as [|y l IH]; intros n; simpl; [done|]. by rewrite IH. Qed.

Lemma elem_of_enumerate_fst {A} n (l : list A) k :
  k ∈ (enumerate_from n l).*1 ↔ (n ≤ k < n + Z.of_nat (length l))%Z.
Proof.
  revert n. induction l as [|y l IH]; intros n; simpl; [set_solver by lia|].
  rewrite elem_of_cons, IH. lia.
Qed.

(** ** Integer ranges *)

(** [list(range(first, last + 1))] *)
Definition z_range (first last : Z) : list Z :=
  (λ i, (first + Z.of_nat i)%Z) <$> seq 0 (Z.to_nat (last - first + 1)).

Lemma elem_of_z_range a b x : x ∈ z_range a b ↔ (a ≤ x ≤ b)%Z.
Proof.
  unfold z_range. rewrite list_elem_of_fmap. setoid_rewrite elem_of_seq. split.
  - intros (i & -> & Hi). lia.
  - intros Hx. exists (Z.to_nat (x - a)). lia.
Qed.

Lemma z_range_nil a b : (b < a)%Z → z_range a b = [].
Proof. intros H. unfold z_range. by replace (Z.to_nat (b - a + 1)) with 0%nat by lia. Qed.

Lemma z_range_cons a b : (a ≤ b)%Z → z_range a b = a :: z_range (a + 1) b.
Proof.
  intros H. unfold z_range. replace (Z.to_nat (b - a + 1)) with (S (Z.to_nat (b - (a + 1) + 1))) by lia.
  cbn [seq fmap list_fmap]. f_equal; [lia|]. rewrite <- fmap_S_seq, <- list_fmap_compose.
  apply list_fmap_ext. intros i x _. simpl. lia.
Qed.

Lemma NoDup_z_range a b : NoDup (z_range a b).
Proof. apply NoDup_fmap_2; [intros x y ?; lia|apply NoDup_seq]. Qed.

Lemma z_range_app a n b : (a ≤ n + 1)%Z → (n ≤ b)%Z → z_range a b = z_range a n ++ z_range (n + 1) b.
Proof.
  intros Ha Hb. remember (Z.to_nat (n + 1 - a)) as k eqn:Hk. revert a Ha Hk. induction k as [|k IH]; intros a Ha Hk.
  - assert (a = n + 1)%Z as -> by lia. by rewrite (z_range_nil (n + 1) n) by lia.
  - rewrite (z_range_cons a b), (z_range_cons a n) by lia. simpl. f_equal. apply IH; lia.
Qed.

Lemma filter_all {A} (P : A → Prop) `{∀ x, Decision (P x)} (l : list A) : (∀ x, x ∈ l → P x) → filter P l = l.
Proof.
  induction l as [|x l IH]; intros Hl; [done|]. rewrite filter_cons_True by (apply Hl; by left).
  f_equal. apply IH. intros y Hy. apply Hl. by right.
Qed.

Lemma filter_none {A} (P : A → Prop) `{∀ x, Decision (P x)} (l : list A) : (∀ x, x ∈ l → ¬ P x) → filter P l = [].
Proof.
  induction l as [|x l IH]; intros Hl; [done|]. rewrite filter_cons_False by (apply Hl; by left).
  apply IH. intros y Hy. apply Hl. by right.
Qed.

Lemma filter_iff_in {A} (P Q : A → Prop) `{∀ x, Decision (P x), ∀ x, Decision (Q x)} (l : list A) :
  (∀ x, x ∈ l → P x ↔ Q x) → filter P l = filter Q l.
Proof.
  induction l as [|x l IH]; intros H'; [done|]. rewrite !filter_cons, IH by (intros; apply H'; by right).
  assert (P x ↔ Q x) by (apply H'; by left). do 2 case_decide; tauto.
Qed.

Lemma fmap_eq_in {A B} (g h : A → B) (l : list A) : g <$> l = h <$> l → ∀ x, x ∈ l → g x = h x.
Proof.
  induction l as [|y l IH]; intros E x Hx; [by apply elem_of_nil in Hx|]. injection E as E1 E2.
  apply elem_of_cons in Hx as [->|Hx]; auto.
Qed.

Lemma NoDup_key_inj {A B} (key : A → B) (l : list A) x y :
  NoDup (key <$> l) → x ∈ l → y ∈ l → key x = key y → x = y.
Proof.
  induction l as [|z l IH]; [by intros _ ?%elem_of_nil|]. intros Hnd Hx Hy Hk.
  inversion Hnd as [|? ? Hz Hnd']; subst. apply elem_of_cons in Hx as [->|Hx], Hy as [->|Hy]; try done.
  - exfalso. apply Hz. rewrite Hk. by apply list_elem_of_fmap_2.
  - exfalso. apply Hz. rewrite <- Hk. by apply list_elem_of_fmap_2.
  - by apply IH.
Qed.
