(* ===== verification/PyText.v ===== *)
(** * Python text and integers

    The operations of [str] and [int] the source uses, on strings whose
    characters are code points below 256 (one [ascii] each). *)

From stdpp Require Import prelude gmap strings list.
From Stdlib Require Import ZArith Lia Ascii.
From S2P Require Import Prelude.

Open Scope Z_scope.

(** ** Characters *)

Definition code (c : ascii) : Z := Z.of_N (N_of_ascii c).
Definition chr (z : Z) : ascii := ascii_of_N (Z.to_N z).
Definition in_range (lo hi : Z) (c : ascii) : bool := (lo <=? code c) && (code c <=? hi).

Lemma code_range c : 0 ≤ code c < 256.
Proof. unfold code. pose proof (N_ascii_bounded c). lia. Qed.

Lemma code_chr z : 0 ≤ z < 256 → code (chr z) = z.
Proof. intros H. unfold code, chr. rewrite N_ascii_embedding; lia. Qed.

Lemma chr_code c : chr (code c) = c.
Proof. unfold code, chr. by rewrite N2Z.id, ascii_N_embedding. Qed.

(** [str.isspace] on one character. *)
Definition is_space (c : ascii) : bool :=
  in_range 9 13 c || in_range 28 32 c || (code c =? 133) || (code c =? 160).

(** The characters [0]..[9]: [str.isdecimal] and the regular expression [\d]. *)
Definition is_decimal (c : ascii) : bool := in_range 48 57 c.

(** [str.isdigit] also accepts the superscripts. *)
Definition is_digit (c : ascii) : bool :=
  is_decimal c || (code c =? 178) || (code c =? 179) || (code c =? 185).

Definition digit_value (c : ascii) : Z := code c - 48.
Definition digit_char (d : Z) : ascii := chr (48 + d).

(** [str.upper] restricted to the letters whose upper case is below 256 and one
    character long; the others are left alone ([upper] of any of them contains a
    character of no keyword of the grammar). *)
Definition upper_char (c : ascii) : ascii :=
  if in_range 97 122 c || (in_range 224 254 c && negb (code c =? 247)) then chr (code c - 32) else c.

(** [str.casefold] on one character; sharp s folds to two characters. *)
Definition casefold_char (c : ascii) : list ascii :=
  if in_range 65 90 c || (in_range 192 222 c && negb (code c =? 215)) then [chr (code c + 32)]
  else if code c =? 223 then ["s"%char; "s"%char] else [c].

(** [str.lower] on one character. *)
Definition lower_char (c : ascii) : ascii :=
  if in_range 65 90 c || (in_range 192 222 c && negb (code c =? 215)) then chr (code c + 32) else c.

(** ** Strings as lists of characters *)

Definition chars (s : string) : list ascii := String.list_ascii_of_string s.
Definition str (l : list ascii) : string := String.string_of_list_ascii l.

Lemma str_chars s : str (chars s) = s.
Proof. apply String.string_of_list_ascii_of_string. Qed.

Lemma chars_str l : chars (str l) = l.
Proof. apply String.list_ascii_of_string_of_list_ascii. Qed.

Lemma chars_app a b : chars (a +:+ b) = chars a ++ chars b.
Proof. induction a as [|c a IH]; simpl; [done|]. by rewrite IH. Qed.

Lemma str_app a b : str (a ++ b) = str a +:+ str b.
Proof. induction a as [|c a IH]; simpl; [done|]. by rewrite IH. Qed.

Lemma chars_inj a b : chars a = chars b → a = b.
Proof. intros H. by rewrite <- (str_chars a), <- (str_chars b), H. Qed.

Definition upper (s : string) : string := str (upper_char <$> chars s).
Definition lower (s : string) : string := str (lower_char <$> chars s).
Definition casefold (s : string) : string := str (chars s ≫= casefold_char).

Fixpoint drop_while (p : ascii → bool) (l : list ascii) : list ascii :=
  match l with
  | c :: l' => if p c then drop_while p l' else l
  | [] => []
  end.

Definition strip_list (l : list ascii) : list ascii :=
  rev (drop_while is_space (rev (drop_while is_space l))).
Definition strip (s : string) : string := str (strip_list (chars s)).

Definition all_chars (p : ascii → bool) (s : string) : bool :=
  match chars s with [] => false | l => forallb p l end.
Definition isdigit : string → bool := all_chars is_digit.
Definition isdecimal : string → bool := all_chars is_decimal.

Definition starts_with (p s : string) : bool := String.prefix p s.
Definition str_drop (n : nat) (s : string) : string := str (drop n (chars s)).
Definition ends_with (p s : string) : bool :=
  String.prefix (str (rev (chars p))) (str (rev (chars s))).

(** [", ".join(l)] *)
Fixpoint join (sep : string) (l : list string) : string :=
  match l with
  | [] => ""
  | [x] => x
  | x :: l => x +:+ sep +:+ join sep l
  end.

(** [s.replace(c, r)] for a one-character [c] *)
Definition replace_char (c : ascii) (r : string) (s : string) : string :=
  str (chars s ≫= λ x, if bool_decide (x = c) then chars r else [x]).

(** ** Integers *)

(** [str(n)] for an integer *)
Fixpoint dec_go (fuel : nat) (n : Z) (acc : list ascii) : list ascii :=
  match fuel with
  | O => acc
  | S fuel =>
    let acc := digit_char (n mod 10) :: acc in
    if n <? 10 then acc else dec_go fuel (n / 10) acc
  end.
Definition dec_digits (n : Z) : list ascii := dec_go (S (Z.to_nat (Z.log2 n))) n [].
Definition str_of_Z (n : Z) : string :=
  if n <? 0 then str ("-"%char :: dec_digits (- n)) else str (dec_digits n).

(** [f"{n:0kd}"] for a non-negative [n] *)
Definition zpad (k : nat) (n : Z) : string :=
  let d := dec_digits n in str (replicate (k - length d) "0"%char ++ d).

(** The value of a string of decimal digits. *)
Fixpoint digits_value (acc : Z) (l : list ascii) : option Z :=
  match l with
  | [] => Some acc
  | c :: l => if is_decimal c then digits_value (acc * 10 + digit_value c) l else None
  end.

(** [int(s)] in base ten: surrounding blanks, a sign, digits with single
    underscores between them. [None] is the [ValueError]. *)
Fixpoint digits_us (acc : Z) (l : list ascii) : option Z :=
  match l with
  | [] => None
  | c :: l =>
    if is_decimal c then
      let acc := acc * 10 + digit_value c in
      match l with
      | [] => Some acc
      | u :: l' => if bool_decide (u = "_"%char) then digits_us acc l' else digits_us acc l
      end
    else None
  end.
Definition int_list (l : list ascii) : option Z :=
  match strip_list l with
  | [] => None
  | c :: l' =>
    if bool_decide (c = "-"%char) then Z.opp <$> digits_us 0 l'
    else if bool_decide (c = "+"%char) then digits_us 0 l'
    else digits_us 0 (c :: l')
  end.
Definition py_int (s : string) : option Z := int_list (chars s).

(** [sys.get_int_max_str_digits()] *)
Definition max_str_digits : Z := 4300.

(** [int(s)], with the limit of 4300 digits *)
Definition int_of_text (s : string) : option Z :=
  if max_str_digits <? Z.of_nat (length (filter (λ c, is_decimal c = true) (chars s))) then None
  else py_int s.

(** ** Printing and reading decimal integers *)

Lemma digit_char_decimal d : 0 ≤ d < 10 → is_decimal (digit_char d) = true.
Proof.
  intros H. unfold is_decimal, in_range, digit_char. rewrite code_chr by lia.
  apply andb_true_iff. split; apply Z.leb_le; lia.
Qed.

Lemma digit_value_char d : 0 ≤ d < 10 → digit_value (digit_char d) = d.
Proof. intros H. unfold digit_value, digit_char. rewrite code_chr; lia. Qed.

Lemma digit_value_range c : is_decimal c = true → 0 ≤ digit_value c < 10.
Proof.
  unfold is_decimal, in_range, digit_value.
  rewrite andb_true_iff, !Z.leb_le. lia.
Qed.

Lemma dec_go_app fuel n acc : dec_go fuel n acc = dec_go fuel n [] ++ acc.
Proof.
  revert n acc. induction fuel as [|f IH]; intros n acc; simpl; [done|].
  case_match; [done|]. rewrite IH, (IH _ [_]), <- app_assoc. done.
Qed.

Lemma digits_value_app a l1 l2 :
  digits_value a (l1 ++ l2) = digits_value a l1 ≫= λ v, digits_value v l2.
Proof.
  revert a. induction l1 as [|c l1 IH]; intros a; simpl; [done|].
  by case_match.
Qed.

Lemma dec_go_spec fuel n :
  0 ≤ n < 10 ^ Z.of_nat fuel → (0 < fuel)%nat →
  digits_value 0 (dec_go fuel n []) = Some n ∧
  Forall (λ c, is_decimal c = true) (dec_go fuel n []) ∧ dec_go fuel n [] ≠ [].
Proof.
  revert n. induction fuel as [|f IH]; intros n Hn Hf; [lia|].
  cbn [dec_go]. pose proof (Z.mod_pos_bound n 10 ltac:(lia)) as Hm.
  destruct (Z.ltb_spec n 10) as [Hlt|Hge].
  - rewrite Z.mod_small by lia. simpl. rewrite digit_char_decimal by lia.
    rewrite digit_value_char by lia. split_and!; [done| |done].
    repeat constructor. apply digit_char_decimal. lia.
  - destruct f as [|f']; [simpl in Hn; lia|].
    rewrite Nat2Z.inj_succ, Z.pow_succ_r in Hn by lia.
    destruct (IH (n / 10)) as (H1 & H2 & H3).
    { split; [apply Z.div_pos; lia|]. apply Z.div_lt_upper_bound; lia. }
    { lia. }
    rewrite dec_go_app, digits_value_app, H1. cbn [mbind option_bind digits_value].
    rewrite digit_char_decimal, digit_value_char by lia.
    split; [f_equal; pose proof (Z.div_mod n 10); lia|]. split.
    + apply Forall_app. split; [done|]. repeat constructor. by apply digit_char_decimal.
    + intros [? _]%app_nil. done.
Qed.

Lemma dec_digits_spec n :
  0 ≤ n →
  digits_value 0 (dec_digits n) = Some n ∧
  Forall (λ c, is_decimal c = true) (dec_digits n) ∧ dec_digits n ≠ [].
Proof.
  intros Hn. apply dec_go_spec; [|lia]. split; [done|].
  rewrite Nat2Z.inj_succ, Z2Nat.id by apply Z.log2_nonneg.
  destruct (Z.eq_dec n 0) as [->|]; [reflexivity|].
  apply Z.lt_le_trans with (2 ^ Z.succ (Z.log2 n)).
  - apply Z.log2_spec. lia.
  - apply Z.pow_le_mono_l. pose proof (Z.log2_nonneg n). lia.
Qed.

Lemma decimal_not_space c : is_decimal c = true → is_space c = false.
Proof.
  unfold is_decimal, is_space, in_range. rewrite andb_true_iff, !Z.leb_le. intros [? ?].
  rewrite !orb_false_iff, !andb_false_iff, !Z.leb_gt, !Z.eqb_neq. lia.
Qed.

Lemma drop_while_none p l : Forall (λ c, p c = false) l → drop_while p l = l.
Proof. destruct 1 as [|c l Hc _]; simpl; [done|]. by rewrite Hc. Qed.

Lemma strip_list_none l : Forall (λ c, is_space c = false) l → strip_list l = l.
Proof.
  intros H. unfold strip_list. rewrite (drop_while_none _ l) by done.
  rewrite drop_while_none; [apply rev_involutive|]. by apply Forall_rev.
Qed.

Lemma decimal_us_neq c : is_decimal c = true → c ≠ "_"%char ∧ c ≠ "-"%char ∧ c ≠ "+"%char.
Proof. intros H. split_and!; intros ->; discriminate H. Qed.

Lemma digits_us_decimal l a :
  l ≠ [] → Forall (λ c, is_decimal c = true) l → digits_us a l = digits_value a l.
Proof.
  intros Hne Hl. revert a Hne. induction Hl as [|c l Hc Hl IH]; intros a Hne; [done|].
  cbn [digits_us digits_value]. rewrite Hc. destruct l as [|u l']; [done|].
  inversion Hl as [|? ? Hu Hl']; subst. destruct (decimal_us_neq u Hu) as [Hu' _].
  rewrite bool_decide_eq_false_2 by done. by apply IH.
Qed.

Lemma int_list_decimal l n :
  l ≠ [] → Forall (λ c, is_decimal c = true) l → digits_value 0 l = Some n →
  int_list l = Some n.
Proof.
  intros Hne Hl Hv. unfold int_list. rewrite strip_list_none.
  - destruct l as [|c l]; [done|]. inversion Hl as [|? ? Hc Hl']; subst.
    destruct (decimal_us_neq c Hc) as (_ & Hm & Hp).
    rewrite !bool_decide_eq_false_2 by done. by rewrite digits_us_decimal.
  - eapply Forall_impl; [exact Hl|]. apply decimal_not_space.
Qed.

(** [int(str(n)) == n] *)
Lemma py_int_str_of_Z n : py_int (str_of_Z n) = Some n.
Proof.
  unfold py_int, str_of_Z. destruct (Z.ltb_spec n 0).
  - rewrite chars_str. destruct (dec_digits_spec (- n)) as (H1 & H2 & H3); [lia|].
    unfold int_list. rewrite strip_list_none.
    + rewrite bool_decide_eq_true_2 by done. rewrite digits_us_decimal, H1 by done.
      simpl. f_equal. lia.
    + constructor; [done|]. eapply Forall_impl; [exact H2|]. apply decimal_not_space.
  - rewrite chars_str. destruct (dec_digits_spec n) as (H1 & H2 & H3); [lia|].
    by apply int_list_decimal.
Qed.

Lemma str_of_Z_inj m n : str_of_Z m = str_of_Z n → m = n.
Proof. intros H. apply (f_equal py_int) in H. rewrite !py_int_str_of_Z in H. congruence. Qed.

#[export] Instance str_of_Z_Inj : Inj (=) (=) str_of_Z.
Proof. exact str_of_Z_inj. Qed.

Lemma digits_value_zeros k l : digits_value 0 (replicate k "0"%char ++ l) = digits_value 0 l.
Proof. induction k as [|k IH]; simpl; done. Qed.

Lemma zpad_value k n : 0 ≤ n → digits_value 0 (chars (zpad k n)) = Some n.
Proof.
  intros Hn. unfold zpad. rewrite chars_str, digits_value_zeros. by apply dec_digits_spec.
Qed.

Lemma zpad_inj k a b : 0 ≤ a → 0 ≤ b → zpad k a = zpad k b → a = b.
Proof.
  intros Ha Hb E. apply (f_equal (λ s, digits_value 0 (chars s))) in E.
  rewrite !zpad_value in E by done. congruence.
Qed.

Lemma zpad_decimal k n : 0 ≤ n → Forall (λ c, is_decimal c = true) (chars (zpad k n)).
Proof.
  intros Hn. unfold zpad. rewrite chars_str. apply Forall_app. split.
  - by apply Forall_replicate.
  - by apply dec_digits_spec.
Qed.

Lemma dec_go_length fuel n k :
  0 ≤ n < 10 ^ Z.of_nat k → (0 < k)%nat → (length (dec_go fuel n []) ≤ k)%nat.
Proof.
  revert n k. induction fuel as [|f IH]; intros n k Hn Hk; simpl; [lia|].
  destruct (Z.ltb_spec n 10); [simpl; lia|].
  destruct k as [|k]; [lia|]. rewrite Nat2Z.inj_succ, Z.pow_succ_r in Hn by lia.
  rewrite dec_go_app, length_app. simpl.
  destruct k as [|k]; [simpl in Hn; lia|].
  assert (length (dec_go f (n / 10) []) ≤ S k)%nat; [|lia].
  apply IH; [|lia]. split; [apply Z.div_pos; lia|]. apply Z.div_lt_upper_bound; lia.
Qed.

Lemma zpad_length k n :
  0 ≤ n < 10 ^ Z.of_nat k → (0 < k)%nat → length (chars (zpad k n)) = k.
Proof.
  intros Hn Hk. unfold zpad. rewrite chars_str, length_app, length_replicate.
  pose proof (dec_go_length (S (Z.to_nat (Z.log2 n))) n k Hn Hk) as H.
  unfold dec_digits. lia.
Qed.

Lemma prefix_app p q : starts_with p (p +:+ q) = true.
Proof.
  unfold starts_with. induction p as [|c p IH]; simpl; [by destruct q|].
  destruct (ascii_dec c c); [done|congruence].
Qed.

Lemma string_app_assoc (a b c : string) : a +:+ (b +:+ c) = (a +:+ b) +:+ c.
Proof. apply chars_inj. by rewrite !chars_app, app_assoc. Qed.

Lemma string_app_nil_r (a : string) : a +:+ "" = a.
Proof. apply chars_inj. by rewrite chars_app, app_nil_r. Qed.
