(* ===== verification/Dates.v ===== *)
(** * Calendar dates

    Python's [datetime.date] as proleptic Gregorian ordinals ([date.toordinal]),
    with the conversions the source relies on: [isoformat], [fromisoformat] on the
    [YYYY-MM-DD] form, [isocalendar] and [isoweekday]. The [OverflowError] of dates
    after year 9999 is not modelled. *)

From stdpp Require Import prelude gmap strings list.
From Stdlib Require Import ZArith Lia Ascii.
From S2P Require Import Prelude PyText.

Open Scope Z_scope.

Abbreviation date := Z (only parsing).

Definition is_leap (y : Z) : bool :=
  (y mod 4 =? 0) && (negb (y mod 100 =? 0) || (y mod 400 =? 0)).

Definition days_before_year (year : Z) : Z :=
  let y := year - 1 in y * 365 + y / 4 - y / 100 + y / 400.

(** Days before the first of each month in a common year. *)
Definition common_before_month (m : Z) : Z :=
  nth (Z.to_nat m) [0; 0; 31; 59; 90; 120; 151; 181; 212; 243; 273; 304; 334] 365.

Definition days_before_month (leap : bool) (m : Z) : Z :=
  common_before_month m + (if (2 <? m) && leap then 1 else 0).

Definition ymd2ord (y m d : Z) : date := days_before_year y + days_before_month (is_leap y) m + d.

(** The month and day of the [n]-th day (from 0) of a year. *)
Definition month_day (leap : bool) (n : Z) : Z * Z :=
  let month := (n + 50) / 32 in
  let preceding := days_before_month leap month in
  if n <? preceding then (month - 1, n - days_before_month leap (month - 1) + 1)
  else (month, n - preceding + 1).

Definition ord2ymd (ord : date) : Z * Z * Z :=
  let n := ord - 1 in
  let n400 := n / 146097 in let n := n mod 146097 in
  let n100 := n / 36524 in let n := n mod 36524 in
  let n4 := n / 1461 in let n := n mod 1461 in
  let n1 := n / 365 in let n := n mod 365 in
  let year := n400 * 400 + 1 + n100 * 100 + n4 * 4 + n1 in
  if (n1 =? 4) || (n100 =? 4) then (year - 1, 12, 31)
  else
    let leap := (n1 =? 3) && (negb (n4 =? 24) || (n100 =? 3)) in
    let '(m, d) := month_day leap n in (year, m, d).

Definition year_of (ord : date) : Z := (ord2ymd ord).1.1.

Definition isoformat (ord : date) : string :=
  let '(y, m, d) := ord2ymd ord in
  zpad 4 y +:+ "-" +:+ zpad 2 m +:+ "-" +:+ zpad 2 d.

(** [date.fromisoformat] on [YYYY-MM-DD]; [None] is the [ValueError]. *)
Definition days_in_month (leap : bool) (m : Z) : Z :=
  days_before_month leap (m + 1) - days_before_month leap m.

Definition fromisoformat (s : string) : option date :=
  match chars s with
  | [y1; y2; y3; y4; s1; m1; m2; s2; d1; d2] =>
    if bool_decide (s1 = "-"%char) && bool_decide (s2 = "-"%char) then
      y ← digits_value 0 [y1; y2; y3; y4];
      m ← digits_value 0 [m1; m2];
      d ← digits_value 0 [d1; d2];
      if (1 <=? y) && (1 <=? m) && (m <=? 12) && (1 <=? d) && (d <=? days_in_month (is_leap y) m)
      then Some (ymd2ord y m d) else None
    else None
  | _ => None
  end.

(** ** Years *)

Lemma div_cycle a b c d :
  0 ≤ b < 4 → 0 ≤ c ≤ 24 → 0 ≤ d < 4 →
  let y := 400 * a + 100 * b + 4 * c + d in
  y / 4 = 100 * a + 25 * b + c ∧ y / 100 = 4 * a + b ∧ y / 400 = a.
Proof.
  intros Hb Hc Hd y. split_and!.
  - symmetry. apply (Z.div_unique y 4 _ d); lia.
  - symmetry. apply (Z.div_unique y 100 _ (4 * c + d)); lia.
  - symmetry. apply (Z.div_unique y 400 _ (100 * b + 4 * c + d)); lia.
Qed.

(** The decomposition of an ordinal that [ord2ymd] computes. *)
Lemma ord_split n :
  ∃ a b c d e,
    n / 146097 = a ∧ n mod 146097 / 36524 = b ∧ n mod 146097 mod 36524 / 1461 = c ∧
    n mod 146097 mod 36524 mod 1461 / 365 = d ∧
    n mod 146097 mod 36524 mod 1461 mod 365 = e ∧
    n = 146097 * a + 36524 * b + 1461 * c + 365 * d + e ∧
    0 ≤ b ≤ 4 ∧ 0 ≤ c ≤ 24 ∧ 0 ≤ d ≤ 4 ∧ 0 ≤ e < 365 ∧
    (b = 4 → c = 0 ∧ d = 0 ∧ e = 0) ∧ (d = 4 → e = 0) ∧
    (c = 24 → b ≠ 4 → 365 * d + e < 1460).
Proof.
  do 5 eexists. repeat (split; [reflexivity|]).
  pose proof (Z.div_mod n 146097 ltac:(lia)). pose proof (Z.mod_pos_bound n 146097 ltac:(lia)).
  set (r1 := n mod 146097) in *. set (a := n / 146097) in *.
  pose proof (Z.div_mod r1 36524 ltac:(lia)). pose proof (Z.mod_pos_bound r1 36524 ltac:(lia)).
  set (r2 := r1 mod 36524) in *. set (b := r1 / 36524) in *.
  pose proof (Z.div_mod r2 1461 ltac:(lia)). pose proof (Z.mod_pos_bound r2 1461 ltac:(lia)).
  set (r3 := r2 mod 1461) in *. set (c := r2 / 1461) in *.
  pose proof (Z.div_mod r3 365 ltac:(lia)). pose proof (Z.mod_pos_bound r3 365 ltac:(lia)).
  set (e := r3 mod 365) in *. set (d := r3 / 365) in *.
  lia.
Qed.

Definition month_day_ok (leap : bool) (k : nat) : bool :=
  let '(m, d) := month_day leap (Z.of_nat k) in
  (1 <=? m) && (m <=? 12) && (1 <=? d) && (d <=? days_in_month leap m) &&
  (days_before_month leap m + d =? Z.of_nat k + 1).

Lemma month_day_all leap : forallb (month_day_ok leap) (seq 0 (365 + (if leap then 1 else 0))) = true.
Proof. destruct leap; vm_compute; reflexivity. Qed.

Lemma month_day_spec leap n :
  0 ≤ n < 365 + Z.b2z leap →
  let '(m, d) := month_day leap n in
  1 ≤ m ≤ 12 ∧ 1 ≤ d ≤ days_in_month leap m ∧ days_before_month leap m + d = n + 1.
Proof.
  intros Hn. pose proof (month_day_all leap) as H.
  rewrite forallb_forall in H. specialize (H (Z.to_nat n)). unfold month_day_ok in H.
  rewrite Z2Nat.id in H by lia. destruct (month_day leap n) as [m d].
  rewrite !andb_true_iff, !Z.leb_le, Z.eqb_eq in H.
  destruct H as [[[[? ?] ?] ?] ?]; [|lia].
  apply in_seq. destruct leap; simpl in Hn |- *; lia.
Qed.

Lemma is_leap_cycle a b c d :
  0 ≤ b < 4 → 0 ≤ c ≤ 24 → 0 ≤ d < 4 →
  is_leap (400 * a + 100 * b + 4 * c + d + 1) = (d =? 3) && (negb (c =? 24) || (b =? 3)).
Proof.
  intros Hb Hc Hd. unfold is_leap. set (y := _ + 1).
  assert (y mod 4 = (d + 1) mod 4) as ->.
  { unfold y. rewrite <- (Z.mod_add (d + 1) (100 * a + 25 * b + c) 4) by lia. f_equal. lia. }
  assert (y mod 100 = (4 * c + d + 1) mod 100) as ->.
  { unfold y. rewrite <- (Z.mod_add (4 * c + d + 1) (4 * a + b) 100) by lia. f_equal. lia. }
  assert (y mod 400 = (100 * b + 4 * c + d + 1) mod 400) as ->.
  { unfold y. rewrite <- (Z.mod_add (100 * b + 4 * c + d + 1) a 400) by lia. f_equal. lia. }
  destruct (Z.eq_dec d 3) as [->|Hd3].
  - change ((3 + 1) mod 4 =? 0) with true. change (3 =? 3) with true. cbn [andb].
    destruct (Z.eq_dec c 24) as [->|].
    + change ((4 * 24 + 3 + 1) mod 100 =? 0) with true. change (24 =? 24) with true. cbn [negb orb].
      assert (b = 0 ∨ b = 1 ∨ b = 2 ∨ b = 3) as [->|[->|[->| ->]]] by lia; reflexivity.
    + rewrite (Z.mod_small (4 * c + 3 + 1) 100) by lia.
      replace (4 * c + 3 + 1 =? 0) with false by (symmetry; apply Z.eqb_neq; lia).
      replace (c =? 24) with false by (symmetry; by apply Z.eqb_neq). done.
  - rewrite (Z.mod_small (d + 1) 4) by lia.
    replace (d + 1 =? 0) with false by (symmetry; apply Z.eqb_neq; lia).
    replace (d =? 3) with false by (symmetry; by apply Z.eqb_neq). done.
Qed.

(** The year of an ordinal, and the ordinal recovered from its calendar fields. *)
Lemma ord2ymd_spec ord :
  let '(y, m, d) := ord2ymd ord in
  ymd2ord y m d = ord ∧ 1 ≤ m ≤ 12 ∧ 1 ≤ d ≤ days_in_month (is_leap y) m ∧
  days_before_year y < ord ≤ days_before_year (y + 1).
Proof.
  unfold ord2ymd.
  destruct (ord_split (ord - 1)) as (a & b & c & d & e & -> & -> & -> & -> & -> & Hn & Hb & Hc & Hd & He & H1 & H2 & H3).
  destruct (Z.eq_dec d 4) as [->|Hd4].
  { (* the last day of a leap year *)
    change (4 =? 4) with true. cbn [orb]. specialize (H2 eq_refl). subst e.
    assert (b ≠ 4) by (intros ->; lia).
    assert (c = 24 → False) by (intros ->; lia).
    replace (a * 400 + 1 + b * 100 + c * 4 + 4 - 1) with (400 * a + 100 * b + 4 * c + 3 + 1) by lia.
    unfold ymd2ord. rewrite is_leap_cycle by lia.
    replace (c =? 24) with false by (symmetry; apply Z.eqb_neq; lia). cbn [Z.eqb Pos.eqb andb negb orb].
    destruct (div_cycle a b c 3) as (E1 & E2 & E3); [lia..|].
    unfold days_before_year at 1 2. rewrite Z.add_simpl_r, E1, E2, E3.
    unfold days_before_year.
    replace (400 * a + 100 * b + 4 * c + 3 + 1 + 1 - 1) with (400 * a + 100 * b + 4 * (c + 1) + 0) by lia.
    destruct (div_cycle a b (c + 1) 0) as (F1 & F2 & F3); [lia..|]. rewrite F1, F2, F3.
    change (days_before_month true 12) with 335. change (days_in_month true 12) with 31. lia. }
  destruct (Z.eq_dec b 4) as [->|Hb4].
  { (* the last day of a 400-year cycle *)
    rewrite orb_true_r. destruct (H1 eq_refl) as (-> & -> & ->).
    replace (a * 400 + 1 + 4 * 100 + 0 * 4 + 0 - 1) with (400 * a + 100 * 3 + 4 * 24 + 3 + 1) by lia.
    unfold ymd2ord. rewrite is_leap_cycle by lia. cbn [Z.eqb Pos.eqb andb negb orb].
    destruct (div_cycle a 3 24 3) as (E1 & E2 & E3); [lia..|].
    unfold days_before_year at 1 2. rewrite Z.add_simpl_r, E1, E2, E3.
    unfold days_before_year.
    replace (400 * a + 100 * 3 + 4 * 24 + 3 + 1 + 1 - 1) with (400 * (a + 1) + 100 * 0 + 4 * 0 + 0) by lia.
    destruct (div_cycle (a + 1) 0 0 0) as (F1 & F2 & F3); [lia..|]. rewrite F1, F2, F3.
    change (days_before_month true 12) with 335. change (days_in_month true 12) with 31. lia. }
  replace (d =? 4) with false by (symmetry; by apply Z.eqb_neq).
  replace (b =? 4) with false by (symmetry; by apply Z.eqb_neq). cbn [orb].
  replace (a * 400 + 1 + b * 100 + c * 4 + d) with (400 * a + 100 * b + 4 * c + d + 1) by lia.
  rewrite <- (is_leap_cycle a b c d) by lia. set (y := 400 * a + 100 * b + 4 * c + d + 1) in *.
  pose proof (month_day_spec (is_leap y) e) as Hmd.
  destruct (month_day (is_leap y) e) as [m dd].
  destruct Hmd as (Hm & Hdd & Heq); [destruct (is_leap y); simpl; lia|].
  unfold ymd2ord. destruct (div_cycle a b c d) as (E1 & E2 & E3); [lia..|].
  unfold days_before_year, y in *. rewrite Z.add_simpl_r, E1, E2, E3.
  split_and!; try lia.
  replace (400 * a + 100 * b + 4 * c + d + 1 + 1 - 1) with (400 * a + 100 * b + 4 * c + (d + 1)) by lia.
  destruct (Z.eq_dec d 3) as [->|].
  - destruct (Z.eq_dec c 24) as [->|].
    + destruct (Z.eq_dec b 3) as [->|].
      * destruct (div_cycle (a + 1) 0 0 0) as (F1 & F2 & F3); [lia..|].
        replace (400 * a + 100 * 3 + 4 * 24 + (3 + 1)) with (400 * (a + 1) + 100 * 0 + 4 * 0 + 0) by lia.
        rewrite F1, F2, F3. lia.
      * destruct (div_cycle a (b + 1) 0 0) as (F1 & F2 & F3); [lia..|].
        replace (400 * a + 100 * b + 4 * 24 + (3 + 1)) with (400 * a + 100 * (b + 1) + 4 * 0 + 0) by lia.
        rewrite F1, F2, F3. lia.
    + destruct (div_cycle a b (c + 1) 0) as (F1 & F2 & F3); [lia..|].
      replace (400 * a + 100 * b + 4 * c + (3 + 1)) with (400 * a + 100 * b + 4 * (c + 1) + 0) by lia.
      rewrite F1, F2, F3. lia.
  - destruct (div_cycle a b c (d + 1)) as (F1 & F2 & F3); [lia..|]. rewrite F1, F2, F3. lia.
Qed.

(** ** ISO text *)

Definition date_max : date := 3652059.

Lemma ord2ymd_year_range ord :
  1 ≤ ord ≤ date_max → 1 ≤ (ord2ymd ord).1.1 ≤ 9999.
Proof.
  intros H. pose proof (ord2ymd_spec ord) as Hs. destruct (ord2ymd ord) as [[y m] d].
  destruct Hs as (_ & _ & _ & Hy1 & Hy2). simpl.
  unfold days_before_year, date_max in *.
  split.
  - destruct (Z.le_gt_cases 1 y); [done|exfalso].
    assert (y + 1 - 1 ≤ 0) as Hy by lia. revert Hy2 Hy.
    generalize (y + 1 - 1). intros z Hz Hle.
    pose proof (Z.div_mod z 4 ltac:(lia)). pose proof (Z.mod_pos_bound z 4 ltac:(lia)).
    pose proof (Z.div_mod z 100 ltac:(lia)). pose proof (Z.mod_pos_bound z 100 ltac:(lia)).
    pose proof (Z.div_mod z 400 ltac:(lia)). pose proof (Z.mod_pos_bound z 400 ltac:(lia)). lia.
  - destruct (Z.le_gt_cases y 9999); [done|exfalso].
    assert (9999 ≤ y - 1) as Hy by lia. revert Hy1 Hy.
    generalize (y - 1). intros z Hz Hle.
    pose proof (Z.div_mod z 4 ltac:(lia)). pose proof (Z.mod_pos_bound z 4 ltac:(lia)).
    pose proof (Z.div_mod z 100 ltac:(lia)). pose proof (Z.mod_pos_bound z 100 ltac:(lia)).
    pose proof (Z.div_mod z 400 ltac:(lia)). pose proof (Z.mod_pos_bound z 400 ltac:(lia)). lia.
Qed.

Lemma days_in_month_le leap m : 1 ≤ m ≤ 12 → days_in_month leap m ≤ 31.
Proof.
  intros H.
  assert (m = 1 ∨ m = 2 ∨ m = 3 ∨ m = 4 ∨ m = 5 ∨ m = 6 ∨ m = 7 ∨ m = 8 ∨ m = 9 ∨ m = 10 ∨ m = 11 ∨ m = 12)
    as Hm by lia.
  destruct leap; destruct_or! Hm; subst; vm_compute; congruence.
Qed.

Lemma list_len2 {A} (l : list A) : length l = 2%nat → ∃ a b, l = [a; b].
Proof. destruct l as [|a [|b [|]]]; simpl; try lia. by exists a, b. Qed.

Lemma list_len4 {A} (l : list A) : length l = 4%nat → ∃ a b c d, l = [a; b; c; d].
Proof. destruct l as [|a [|b [|c [|d [|]]]]]; simpl; try lia. by exists a, b, c, d. Qed.

(** [date.fromisoformat(d.isoformat()) == d] *)
Lemma fromisoformat_isoformat ord :
  1 ≤ ord ≤ date_max → fromisoformat (isoformat ord) = Some ord.
Proof.
  intros H. pose proof (ord2ymd_year_range ord H) as Hy.
  unfold isoformat. pose proof (ord2ymd_spec ord) as Hs.
  destruct (ord2ymd ord) as [[y m] d]. simpl in Hy.
  destruct Hs as (Hord & Hm & Hd & _). pose proof (days_in_month_le (is_leap y) m Hm).
  unfold fromisoformat. rewrite !chars_app.
  pose proof (zpad_value 4 y ltac:(lia)) as Vy. pose proof (zpad_value 2 m ltac:(lia)) as Vm.
  pose proof (zpad_value 2 d ltac:(lia)) as Vd.
  destruct (list_len4 _ (zpad_length 4 y ltac:(simpl; lia) ltac:(lia))) as (y1 & y2 & y3 & y4 & Ey).
  destruct (list_len2 _ (zpad_length 2 m ltac:(simpl; lia) ltac:(lia))) as (m1 & m2 & Em).
  destruct (list_len2 _ (zpad_length 2 d ltac:(simpl; lia) ltac:(lia))) as (d1 & d2 & Ed).
  rewrite Ey, Em, Ed in *. cbn [chars String.list_ascii_of_string app].
  rewrite !bool_decide_eq_true_2 by done. rewrite Vy, Vm, Vd. cbn [andb mbind option_bind].
  repeat match goal with |- context [?a <=? ?b] =>
    replace (a <=? b) with true by (symmetry; apply Z.leb_le; lia) end.
  cbn [andb]. congruence.
Qed.

Lemma isoformat_inj d1 d2 :
  1 ≤ d1 ≤ date_max → 1 ≤ d2 ≤ date_max → isoformat d1 = isoformat d2 → d1 = d2.
Proof.
  intros H1 H2 H. apply (f_equal fromisoformat) in H.
  rewrite !fromisoformat_isoformat in H by done. congruence.
Qed.

(** ** ISO weeks *)

(** [date.isoweekday], Monday = 1 *)
Definition isoweekday (d : date) : Z := if d mod 7 =? 0 then 7 else d mod 7.

Definition isoweek1monday (year : Z) : date :=
  let firstday := ymd2ord year 1 1 in
  let firstweekday := (firstday + 6) mod 7 in
  let week1monday := firstday - firstweekday in
  if 3 <? firstweekday then week1monday + 7 else week1monday.

(** [date.isocalendar]: (year, week, weekday) *)
Definition isocalendar (d : date) : Z * Z * Z :=
  let year := year_of d in
  let week := (d - isoweek1monday year) / 7 in
  let day := (d - isoweek1monday year) mod 7 in
  if week <? 0 then
    let m := isoweek1monday (year - 1) in (year - 1, (d - m) / 7 + 1, (d - m) mod 7 + 1)
  else if (52 <=? week) && (isoweek1monday (year + 1) <=? d) then (year + 1, 1, day + 1)
  else (year, week + 1, day + 1).

Lemma isoweek1monday_spec y :
  isoweek1monday y mod 7 = 1 ∧
  days_before_year y - 2 ≤ isoweek1monday y ≤ days_before_year y + 4.
Proof.
  unfold isoweek1monday, ymd2ord.
  replace (days_before_month (is_leap y) 1) with 0 by reflexivity.
  set (f := days_before_year y + 0 + 1).
  pose proof (Z.mod_pos_bound (f + 6) 7 ltac:(lia)) as Hb.
  pose proof (Z.div_mod (f + 6) 7 ltac:(lia)) as Hd.
  set (w := (f + 6) mod 7) in *. set (q := (f + 6) / 7) in *.
  destruct (Z.ltb_spec 3 w); (split; [|lia]).
  - symmetry. apply (Z.mod_unique _ 7 q 1); lia.
  - symmetry. apply (Z.mod_unique _ 7 (q - 1) 1); lia.
Qed.

Lemma days_before_year_step y : 365 ≤ days_before_year (y + 1) - days_before_year y ≤ 366.
Proof.
  unfold days_before_year. rewrite Z.add_simpl_r.
  remember (y - 1) as z eqn:Ez. replace y with (z + 1) by lia. clear Ez.
  pose proof (Z.div_mod z 4 ltac:(lia)). pose proof (Z.mod_pos_bound z 4 ltac:(lia)).
  pose proof (Z.div_mod z 100 ltac:(lia)). pose proof (Z.mod_pos_bound z 100 ltac:(lia)).
  pose proof (Z.div_mod z 400 ltac:(lia)). pose proof (Z.mod_pos_bound z 400 ltac:(lia)).
  pose proof (Z.div_mod (z + 1) 4 ltac:(lia)). pose proof (Z.mod_pos_bound (z + 1) 4 ltac:(lia)).
  pose proof (Z.div_mod (z + 1) 100 ltac:(lia)). pose proof (Z.mod_pos_bound (z + 1) 100 ltac:(lia)).
  pose proof (Z.div_mod (z + 1) 400 ltac:(lia)). pose proof (Z.mod_pos_bound (z + 1) 400 ltac:(lia)).
  set (a := z / 4) in *. set (b := z / 100) in *. set (c := z / 400) in *.
  set (a' := (z + 1) / 4) in *. set (b' := (z + 1) / 100) in *. set (c' := (z + 1) / 400) in *.
  assert (0 ≤ a' - b' + c' - (a - b + c) ≤ 1); [|lia].
  clearbody a b c a' b' c'. lia.
Qed.

Lemma year_of_spec d : days_before_year (year_of d) < d ≤ days_before_year (year_of d + 1).
Proof.
  unfold year_of. pose proof (ord2ymd_spec d) as H.
  destruct (ord2ymd d) as [[y m] dd]. simpl. tauto.
Qed.

Lemma isoweek1monday_step y :
  isoweek1monday (y + 1) = isoweek1monday y + 364 ∨ isoweek1monday (y + 1) = isoweek1monday y + 371.
Proof.
  pose proof (isoweek1monday_spec y) as [H1 H2]. pose proof (isoweek1monday_spec (y + 1)) as [H3 H4].
  pose proof (days_before_year_step y).
  pose proof (Z.div_mod (isoweek1monday y) 7 ltac:(lia)).
  pose proof (Z.div_mod (isoweek1monday (y + 1)) 7 ltac:(lia)). lia.
Qed.

(** [isocalendar] finds the ISO year whose weeks contain the date. *)
Lemma isocalendar_spec d :
  let '(y, w, k) := isocalendar d in
  isoweek1monday y ≤ d < isoweek1monday (y + 1) ∧ w = (d - isoweek1monday y) / 7 + 1 ∧
  k = (d - isoweek1monday y) mod 7 + 1.
Proof.
  unfold isocalendar. pose proof (year_of_spec d) as Hy. set (y := year_of d) in *.
  pose proof (isoweek1monday_spec y) as [M1 B1].
  pose proof (isoweek1monday_spec (y + 1)) as [M2 B2].
  pose proof (isoweek1monday_spec (y - 1)) as [M0 B0].
  pose proof (days_before_year_step y) as S1.
  pose proof (days_before_year_step (y - 1)) as S0. rewrite Z.sub_add in S0.
  pose proof (days_before_year_step (y + 1)) as S2.
  pose proof (isoweek1monday_step (y + 1)) as T2.
  pose proof (isoweek1monday_step y) as T1.
  pose proof (Z.div_mod (d - isoweek1monday y) 7 ltac:(lia)) as D.
  pose proof (Z.mod_pos_bound (d - isoweek1monday y) 7 ltac:(lia)) as R.
  destruct (Z.ltb_spec ((d - isoweek1monday y) / 7) 0).
  - rewrite Z.sub_add. lia.
  - destruct (Z.leb_spec 52 ((d - isoweek1monday y) / 7)); cbn [andb].
    + destruct (Z.leb_spec (isoweek1monday (y + 1)) d); [|lia].
      split; [lia|].
      assert ((d - isoweek1monday (y + 1)) / 7 = 0) as E.
      { apply Z.div_small. lia. }
      split; [lia|].
      assert ((d - isoweek1monday (y + 1)) mod 7 = (d - isoweek1monday y) mod 7); [|lia].
      destruct T1 as [->| ->].
      * replace (d - isoweek1monday y) with (d - (isoweek1monday y + 364) + 52 * 7) by lia.
        by rewrite Z.mod_add.
      * replace (d - isoweek1monday y) with (d - (isoweek1monday y + 371) + 53 * 7) by lia.
        by rewrite Z.mod_add.
    + lia.
Qed.

Lemma isoweekday_range d : 1 ≤ isoweekday d ≤ 7.
Proof.
  unfold isoweekday. pose proof (Z.mod_pos_bound d 7 ltac:(lia)).
  destruct (Z.eqb_spec (d mod 7) 0); lia.
Qed.

Lemma isoweek1monday_mono y y' : y ≤ y' → isoweek1monday y ≤ isoweek1monday y'.
Proof.
  intros H. replace y' with (y + Z.of_nat (Z.to_nat (y' - y))) by lia.
  generalize (Z.to_nat (y' - y)). intros n. induction n as [|n IH]; [by rewrite Z.add_0_r|].
  rewrite Nat2Z.inj_succ. replace (y + Z.succ (Z.of_nat n)) with (y + Z.of_nat n + 1) by lia.
  pose proof (isoweek1monday_step (y + Z.of_nat n)). lia.
Qed.

(** The seven days from a Monday share their ISO year and week. *)
Lemma isocalendar_week m k :
  m mod 7 = 1 → 0 ≤ k < 7 → (isocalendar (m + k)).1 = (isocalendar m).1.
Proof.
  intros Hm Hk. pose proof (isocalendar_spec m) as Hs. pose proof (isocalendar_spec (m + k)) as Hs'.
  destruct (isocalendar m) as [[y w] j], (isocalendar (m + k)) as [[y' w'] j']. simpl.
  destruct Hs as (Hy & -> & _), Hs' as (Hy' & -> & _).
  pose proof (isoweek1monday_spec y) as [M1 _]. pose proof (isoweek1monday_spec (y + 1)) as [M2 _].
  pose proof (isoweek1monday_spec y') as [M3 _].
  pose proof (Z.div_mod m 7 ltac:(lia)). pose proof (Z.div_mod (isoweek1monday y) 7 ltac:(lia)).
  pose proof (Z.div_mod (isoweek1monday (y + 1)) 7 ltac:(lia)).
  assert (y' = y) as ->.
  { destruct (Z.lt_trichotomy y' y) as [Hlt|[->|Hlt]]; [exfalso|done|exfalso].
    - pose proof (isoweek1monday_mono (y' + 1) y ltac:(lia)). lia.
    - pose proof (isoweek1monday_mono (y + 1) y' ltac:(lia)). lia. }
  f_equal. f_equal.
  replace (m + k - isoweek1monday y) with (k + (m / 7 - isoweek1monday y / 7) * 7) by lia.
  replace (m - isoweek1monday y) with (0 + (m / 7 - isoweek1monday y / 7) * 7) by lia.
  rewrite !Z.div_add by lia. rewrite (Z.div_small k 7), (Z.div_small 0 7) by lia. done.
Qed.

Lemma isoweekday_week m k : m mod 7 = 1 → 0 ≤ k < 7 → isoweekday (m + k) = k + 1.
Proof.
  intros Hm Hk. unfold isoweekday.
  assert ((m + k) mod 7 = (1 + k) mod 7) as ->.
  { rewrite <- Zplus_mod_idemp_l, Hm. done. }
  destruct (Z.eq_dec k 6) as [->|]; [reflexivity|].
  rewrite Z.mod_small by lia. destruct (Z.eqb_spec (1 + k) 0); lia.
Qed.

(** [d + timedelta(days=n)] *)
Definition add_days (d : date) (n : Z) : res date :=
  if (1 <=? d + n) && (d + n <=? date_max) then Ok (d + n)
  else raise OverflowError "date value out of range".

(** ** The order of ISO dates *)

Lemma digits_value_bounds l : ∀ a v, digits_value a l = Some v → 0 ≤ a →
  a * 10 ^ Z.of_nat (length l) ≤ v < (a + 1) * 10 ^ Z.of_nat (length l).
Proof.
  induction l as [|c l IH]; intros a v; cbn [digits_value length]; [intros [= <-]; simpl; lia|].
  destruct (is_decimal c) eqn:Hc; [|done]. intros H Ha. apply digit_value_range in Hc.
  apply IH in H; [|lia]. rewrite Nat2Z.inj_succ, Z.pow_succ_r by lia.
  assert (0 < 10 ^ Z.of_nat (length l)) by (apply Z.pow_pos_nonneg; lia). nia.
Qed.

Lemma ascii_compare_code c1 c2 : Ascii.compare c1 c2 = (code c1 ?= code c2).
Proof. unfold Ascii.compare, code. by rewrite N2Z.inj_compare. Qed.

Lemma compare_head c a b : String.compare (String c a) (String c b) = String.compare a b.
Proof. cbn [String.compare]. by rewrite ascii_compare_code, Z.compare_refl. Qed.

(** Texts that start with as many digits are in the order of the numbers they start with. *)
Lemma digits_compare l1 : ∀ l2 a v1 v2 s t,
  length l1 = length l2 → 0 ≤ a → digits_value a l1 = Some v1 → digits_value a l2 = Some v2 →
  String.compare (str l1 +:+ s) (str l2 +:+ t) = match v1 ?= v2 with Eq => String.compare s t | c => c end.
Proof.
  induction l1 as [|c1 l1 IH]; intros [|c2 l2] a v1 v2 s t Hl Ha; cbn [digits_value length] in *; try done.
  { intros [= <-] [= <-]. by rewrite Z.compare_refl. }
  destruct (is_decimal c1) eqn:H1; [|done]. destruct (is_decimal c2) eqn:H2; [|done].
  apply digit_value_range in H1, H2. intros E1 E2.
  change (str (?c :: ?l) +:+ ?s) with (String c (str l +:+ s)).
  change (String.compare (String c1 (str l1 +:+ s)) (String c2 (str l2 +:+ t))
    = match v1 ?= v2 with Eq => String.compare s t | c => c end).
  cbn [String.compare]. rewrite ascii_compare_code.
  destruct (Z.compare_spec (code c1) (code c2)) as [Hc|Hc|Hc].
  - unfold digit_value in *. rewrite Hc in *. apply (IH l2 (a * 10 + (code c2 - 48))); [lia|lia|done|done].
  - apply digits_value_bounds in E1, E2; unfold digit_value in *; try lia. injection Hl as Hl. rewrite Hl in E1.
    assert (0 < 10 ^ Z.of_nat (length l2)) by (apply Z.pow_pos_nonneg; lia).
    assert (v1 < v2) as Hv by nia. by rewrite (proj2 (Z.compare_lt_iff _ _) Hv).
  - apply digits_value_bounds in E1, E2; unfold digit_value in *; try lia. injection Hl as Hl. rewrite Hl in E1.
    assert (0 < 10 ^ Z.of_nat (length l2)) by (apply Z.pow_pos_nonneg; lia).
    assert (v2 < v1) as Hv by nia. by rewrite (proj2 (Z.compare_gt_iff _ _) Hv).
Qed.

Lemma zpad_compare k a b s t :
  (0 < k)%nat → 0 ≤ a < 10 ^ Z.of_nat k → 0 ≤ b < 10 ^ Z.of_nat k →
  String.compare (zpad k a +:+ s) (zpad k b +:+ t) = match a ?= b with Eq => String.compare s t | c => c end.
Proof.
  intros Hk Ha Hb. rewrite <- (str_chars (zpad k a)), <- (str_chars (zpad k b)).
  apply (digits_compare _ _ 0); [by rewrite !zpad_length|lia|apply zpad_value; lia..].
Qed.

Lemma days_before_year_mono y y' : y ≤ y' → days_before_year y ≤ days_before_year y'.
Proof.
  intros H. replace y' with (y + Z.of_nat (Z.to_nat (y' - y))) by lia. generalize (Z.to_nat (y' - y)). intros n.
  induction n as [|n IH]; [by rewrite Z.add_0_r|].
  pose proof (days_before_year_step (y + Z.of_nat n)). replace (y + Z.of_nat (S n)) with (y + Z.of_nat n + 1) by lia. lia.
Qed.

Lemma days_before_month_mono leap m m' : 1 ≤ m < m' → m' ≤ 12 →
  days_before_month leap m + days_in_month leap m ≤ days_before_month leap m'.
Proof.
  intros H H'.
  assert (forallb (λ i, forallb (λ j, (j <=? i) || (days_before_month leap i + days_in_month leap i <=? days_before_month leap j))
    (z_range 1 12)) (z_range 1 12) = true) as Hall by (destruct leap; vm_compute; reflexivity).
  rewrite forallb_forall in Hall. specialize (Hall m ltac:(apply list_elem_of_In, elem_of_z_range; lia)).
  rewrite forallb_forall in Hall. specialize (Hall m' ltac:(apply list_elem_of_In, elem_of_z_range; lia)). lia.
Qed.

(** ISO dates sort as the dates do. *)
Lemma isoformat_compare d1 d2 s t :
  1 ≤ d1 < d2 → d2 ≤ date_max → String.compare (isoformat d1 +:+ s) (isoformat d2 +:+ t) = Lt.
Proof.
  intros H H'. unfold isoformat.
  pose proof (ord2ymd_spec d1) as S1. pose proof (ord2ymd_spec d2) as S2.
  pose proof (ord2ymd_year_range d1 ltac:(lia)) as Y1. pose proof (ord2ymd_year_range d2 ltac:(lia)) as Y2.
  destruct (ord2ymd d1) as [[y1 m1] e1], (ord2ymd d2) as [[y2 m2] e2]. cbn [fst] in *.
  destruct S1 as (O1 & M1 & E1 & B1 & C1), S2 as (O2 & M2 & E2 & B2 & C2).
  pose proof (days_in_month_le (is_leap y1) m1 M1). pose proof (days_in_month_le (is_leap y2) m2 M2).
  rewrite <- !string_app_assoc. rewrite (zpad_compare 4) by (simpl; lia).
  destruct (Z.compare_spec y1 y2) as [Hy|Hy|Hy]; [|done|].
  - subst y2. assert (∀ a b, String.compare ("-" +:+ a) ("-" +:+ b) = String.compare a b) as -> by (intros; apply compare_head).
    rewrite (zpad_compare 2) by (simpl; lia). unfold ymd2ord in *.
    destruct (Z.compare_spec m1 m2) as [Hm|Hm|Hm]; [|done|].
    + subst m2. assert (∀ a b, String.compare ("-" +:+ a) ("-" +:+ b) = String.compare a b) as -> by (intros; apply compare_head).
      rewrite (zpad_compare 2) by (simpl; lia). by rewrite (proj2 (Z.compare_lt_iff e1 e2)) by lia.
    + pose proof (days_before_month_mono (is_leap y1) m2 m1 ltac:(lia) ltac:(lia)). lia.
  - pose proof (days_before_year_mono (y2 + 1) y1 ltac:(lia)). lia.
Qed.
