(* ===== verification/PyNum.v ===== *)
(** * Python floats and decimals

    Binary64 floats as the Standard Library's [spec_float] (rounding to nearest,
    ties to even), and [decimal.Decimal] in the default context (28 digits). *)

From stdpp Require Import prelude gmap strings list.
From Stdlib Require Import ZArith Lia Ascii Floats.SpecFloat.
From S2P Require Import Prelude PyText.

Open Scope Z_scope.

(** ** Binary64 *)

Abbreviation f64 := spec_float.
Definition f64_prec : Z := 53.
Definition f64_emax : Z := 1024.

Definition f64_exact (z : Z) : f64 :=
  match z with
  | Z0 => S754_zero false
  | Zpos p => S754_finite false p 0
  | Zneg p => S754_finite true p 0
  end.

(** [float(n)] *)
Definition f64_of_Z (n : Z) : f64 := binary_normalize f64_prec f64_emax n 0 false.

(** The correctly rounded quotient of two integers: [a / b], and every decimal literal. *)
Definition f64_ratio (a b : Z) : f64 := SFdiv f64_prec f64_emax (f64_exact a) (f64_exact b).

Definition f64_mul : f64 → f64 → f64 := SFmul f64_prec f64_emax.
Definition f64_div : f64 → f64 → f64 := SFdiv f64_prec f64_emax.
Definition f64_ltb : f64 → f64 → bool := SFltb.
Definition f64_leb : f64 → f64 → bool := SFleb.

(** The literal [m * 10^e], correctly rounded. *)
Definition f64_literal (m e : Z) : f64 :=
  if 0 <=? e then f64_of_Z (m * 10 ^ e) else f64_ratio m (10 ^ (- e)).

(** Nearest integer to [a / b], ties to even ([0 < b]). *)
Definition div_half_even (a b : Z) : Z :=
  let q := a / b in let r := a mod b in
  if 2 * r <? b then q else if b <? 2 * r then q + 1 else if Z.even q then q else q + 1.

(** [round(x)] of a finite float *)
Definition f64_round (x : f64) : Z :=
  match x with
  | S754_finite s m e =>
    let z := if s then Zneg m else Zpos m in
    if 0 <=? e then z * 2 ^ e else div_half_even z (2 ^ (- e))
  | _ => 0
  end.

Example round_half_even : f64_round (f64_ratio 5 2) = 2 ∧ f64_round (f64_ratio 7 2) = 4.
Proof. vm_compute. done. Qed.

(** ** Decimal *)

(** [Decimal]: [coef * 10^exp]. *)
Record decimal := Decimal { d_coef : Z; d_exp : Z }.

#[export] Instance decimal_eq_dec : EqDecision decimal.
Proof. solve_decision. Defined.

Definition context_prec : Z := 28.

Definition n_digits (z : Z) : Z := Z.of_nat (length (dec_digits (Z.abs z))).

Definition div_half_even_signed (a b : Z) : Z :=
  if a <? 0 then - div_half_even (- a) b else div_half_even a b.

(** Rounding a result to the context precision, half even. *)
Definition dec_fix (d : decimal) : decimal :=
  let k := n_digits (d_coef d) - context_prec in
  if k <=? 0 then d
  else
    let c := div_half_even_signed (d_coef d) (10 ^ k) in
    if n_digits c <=? context_prec then Decimal c (d_exp d + k)
    else Decimal (c / 10) (d_exp d + k + 1).

Definition dec_mul (a b : decimal) : decimal :=
  dec_fix (Decimal (d_coef a * d_coef b) (d_exp a + d_exp b)).

(** Dropping trailing zeros of an exact quotient down to the ideal exponent. *)
Fixpoint dec_strip (fuel : nat) (ideal : Z) (d : decimal) : decimal :=
  match fuel with
  | O => d
  | S fuel =>
    if (d_exp d <? ideal) && (d_coef d mod 10 =? 0)
    then dec_strip fuel ideal (Decimal (d_coef d / 10) (d_exp d + 1)) else d
  end.

(** [a / b] for positive [b], as the [decimal] module computes it. *)
Definition dec_div (a b : decimal) : decimal :=
  if d_coef a =? 0 then Decimal 0 (d_exp a - d_exp b)
  else
    let shift := n_digits (d_coef b) - n_digits (d_coef a) + context_prec + 1 in
    let exp := d_exp a - d_exp b - shift in
    let op1 := if 0 <=? shift then Z.abs (d_coef a) * 10 ^ shift else Z.abs (d_coef a) in
    let op2 := if 0 <=? shift then d_coef b else d_coef b * 10 ^ (- shift) in
    let coef := op1 / op2 in let rest := op1 mod op2 in
    let sgn := Z.sgn (d_coef a) in
    if negb (rest =? 0) then
      (* a sticky digit so that the final rounding sees the remainder *)
      dec_fix (Decimal (sgn * (if coef mod 5 =? 0 then coef + 1 else coef)) exp)
    else
      dec_fix (dec_strip (Z.to_nat (n_digits coef)) (d_exp a - d_exp b) (Decimal (sgn * coef) exp)).

(** [quantize(Decimal("0.01"), rounding=ROUND_HALF_UP)] *)
Definition div_half_up (a b : Z) : Z := Z.sgn a * ((2 * Z.abs a + b) / (2 * b)).
Definition dec_cents (d : decimal) : decimal :=
  if -2 <=? d_exp d then Decimal (d_coef d * 10 ^ (d_exp d + 2)) (-2)
  else Decimal (div_half_up (d_coef d) (10 ^ (- d_exp d - 2))) (-2).

(** [str(d)] *)
Definition str_of_decimal (d : decimal) : string :=
  let sign := if d_coef d <? 0 then "-" else "" in
  let ds := dec_digits (Z.abs (d_coef d)) in
  let left := d_exp d + Z.of_nat (length ds) in
  let place := if (d_exp d <=? 0) && (-6 <? left) then left else 1 in
  let body :=
    if place <=? 0 then "0." +:+ str (replicate (Z.to_nat (- place)) "0"%char ++ ds)
    else if Z.of_nat (length ds) <=? place then
      str (ds ++ replicate (Z.to_nat (place - Z.of_nat (length ds))) "0"%char)
    else str (take (Z.to_nat place) ds) +:+ "." +:+ str (drop (Z.to_nat place) ds) in
  let e := left - place in
  sign +:+ body +:+
  (if e =? 0 then "" else "E" +:+ (if 0 <? e then "+" else "") +:+ str_of_Z e).

Example str_decimal_ex :
  str_of_decimal (Decimal 123450 (-2)) = "1234.50" ∧ str_of_decimal (Decimal 5 (-2)) = "0.05".
Proof. vm_compute. done. Qed.

Lemma div_half_up_bounds a b :
  0 < b → 0 ≤ a → 2 * a - b ≤ 2 * b * div_half_up a b ≤ 2 * a + b.
Proof.
  intros Hb Ha. unfold div_half_up. rewrite (Z.abs_eq a) by done.
  destruct (Z.eq_dec a 0) as [->|]; [simpl; lia|].
  rewrite Z.sgn_pos by lia.
  pose proof (Z.div_mod (2 * a + b) (2 * b) ltac:(lia)).
  pose proof (Z.mod_pos_bound (2 * a + b) (2 * b) ltac:(lia)). lia.
Qed.
