(* ===== verification/PyRandom.v ===== *)
(** * Python's [random.Random]

    The generator the CRM planner draws from: an interface with what its clients rely on, the
    methods [choice], [randrange] and [sample] over it, and the Mersenne Twister that CPython seeds
    with an integer. *)

From stdpp Require Import prelude gmap strings list.
From Stdlib Require Import ZArith Lia Ascii.
From S2P Require Import Prelude.

Open Scope Z_scope.

(** A generator seeded with an integer that draws integers below a bound. *)
Class Random (R : Type) := {
  seeded : Z → R;
  _randbelow : Z → R → R * Z;
  randbelow_range : ∀ n r, 0 < n → 0 ≤ (_randbelow n r).2 < n }.

Section Methods.
Context {R : Type} `{Random R}.

Definition below (n : Z) : io R Z := λ r, let '(r', x) := _randbelow n r in (r', Ok x).

Definition choice {A} (seq : list A) : io R A :=
  match seq with
  | [] => io_raise IndexError "Cannot choose from an empty sequence"
  | x :: _ => let* j := below (Z.of_nat (length seq)) in io_ret (nth (Z.to_nat j) seq x)
  end.

Definition randrange (start stop : Z) : io R Z :=
  if start <? stop then let* j := below (stop - start) in io_ret (start + j)
  else io_raise ValueError "empty range in randrange".

(** [setsize]: 21, and for more than 5 elements the least power of 4 from [3 * k] on besides. *)
Fixpoint pow4_from (fuel : nat) (p x : Z) : Z :=
  match fuel with O => p | S fuel => if x <=? p then p else pow4_from fuel (4 * p) x end.
Definition setsize (k : Z) : Z := if 5 <? k then 21 + pow4_from (S (Z.to_nat (Z.log2 (3 * k)))) 1 (3 * k) else 21.

(** The branch of [sample] over a pool of the elements not drawn yet: [pool[j] = pool[n - i - 1]]. *)
Fixpoint sample_pool {A} (k : nat) (pool : list A) : io R (list A) :=
  match k, pool with
  | S k, x :: _ =>
    let n := Z.of_nat (length pool) in
    let* j := below n in
    let j := Z.to_nat j in
    let drawn := nth j pool x in
    let moved := nth (length pool - 1) pool x in
    let* rest := sample_pool k (take (length pool - 1) (<[j := moved]> pool)) in
    io_ret (drawn :: rest)
  | _, _ => io_ret []
  end.

(** The branch over a set of drawn indices. An index is drawn again while it is in the set; after
    [redraws] failures in a row, which a generator that is random at all does not produce, the
    least free index stands in. *)
Definition redraws : nat := 4096.

Fixpoint draw_free (fuel : nat) (n : Z) (selected : list Z) : io R Z :=
  match fuel with
  | O => io_ret (default 0 (head (filter (λ i, i ∉ selected) (z_range 0 (n - 1)))))
  | S fuel => let* j := below n in if bool_decide (j ∈ selected) then draw_free fuel n selected else io_ret j
  end.

Fixpoint sample_set (k : nat) (n : Z) (selected : list Z) : io R (list Z) :=
  match k with
  | O => io_ret []
  | S k => let* j := draw_free redraws n selected in
           let* rest := sample_set k n (j :: selected) in io_ret (j :: rest)
  end.

Definition sample {A} (population : list A) (k : Z) : io R (list A) :=
  let n := Z.of_nat (length population) in
  if (k <? 0) || (n <? k) then io_raise ValueError "Sample larger than population or is negative"
  else if n <=? setsize k then sample_pool (Z.to_nat k) population
  else
    let* js := sample_set (Z.to_nat k) n [] in
    io_ret (omap (λ j, population !! Z.to_nat j) js).

(** ** What the methods return *)

Lemma below_spec n r : 0 < n → ∃ r' j, below n r = (r', Ok j) ∧ 0 ≤ j < n.
Proof.
  intros Hn. unfold below. pose proof (randbelow_range n r Hn). destruct (_randbelow n r) as [r' j]. by exists r', j.
Qed.

Lemma choice_spec {A} (l : list A) r : l ≠ [] → ∃ r' x, choice l r = (r', Ok x) ∧ x ∈ l.
Proof.
  destruct l as [|x l]; [done|]. intros _. unfold choice.
  destruct (below_spec (Z.of_nat (length (x :: l))) r) as (r' & j & E & Hj); [cbn [length]; lia|].
  exists r', (nth (Z.to_nat j) (x :: l) x). rewrite (io_bind_run _ _ _ _ _ E). split; [done|].
  apply list_elem_of_In, nth_In. lia.
Qed.

Lemma randrange_spec a b r : a < b → ∃ r' x, randrange a b r = (r', Ok x) ∧ a ≤ x < b.
Proof.
  intros Hab. unfold randrange. destruct (Z.ltb_spec a b); [|lia].
  destruct (below_spec (b - a) r) as (r' & j & E & Hj); [lia|].
  exists r', (a + j). rewrite (io_bind_run _ _ _ _ _ E). split; [done|]. lia.
Qed.

(** Drawing one element and closing the gap with the last one leaves the others. *)
Lemma pool_draw {A} (pool : list A) x j :
  (j < length pool)%nat →
  nth j pool x :: take (length pool - 1) (<[j := nth (length pool - 1) pool x]> pool) ≡ₚ pool.
Proof.
  intros Hj. destruct pool as [|y pool' _] using rev_ind; [simpl in Hj; lia|].
  rewrite length_app in *. simpl in *. replace (length pool' + 1 - 1)%nat with (length pool') in * by lia.
  assert (nth (length pool') (pool' ++ [y]) x = y) as -> by (rewrite app_nth2, Nat.sub_diag by lia; done).
  destruct (decide (j = length pool')) as [->|Hne].
  - rewrite app_nth2, Nat.sub_diag by lia. cbn [nth].
    rewrite insert_app_r_alt, Nat.sub_diag by lia. cbn. rewrite take_app_length. apply Permutation_cons_append.
  - assert (j < length pool')%nat as Hj' by lia. rewrite app_nth1 by done. rewrite insert_app_l by done.
    rewrite take_app_length' by (by rewrite length_insert).
    destruct (lookup_lt_is_Some_2 pool' j Hj') as [z Hz]. rewrite (nth_lookup_Some _ _ x z Hz).
    rewrite insert_take_drop by done. rewrite <- (take_drop_middle pool' j z Hz) at 3.
    rewrite <- app_assoc. cbn. rewrite Permutation_middle. apply Permutation_app_head.
    rewrite (Permutation_cons_append (drop (S j) pool')). cbn. by constructor.
Qed.

Lemma sample_pool_spec {A} k : ∀ (pool : list A) r, (k ≤ length pool)%nat →
  ∃ r' xs rest, sample_pool k pool r = (r', Ok xs) ∧ length xs = k ∧ xs ++ rest ≡ₚ pool.
Proof.
  induction k as [|k IH]; intros pool r Hk; cbn [sample_pool]; [by exists r, [], pool|].
  destruct pool as [|x pool']; [simpl in Hk; lia|]. cbv zeta. set (pool := x :: pool') in *.
  destruct (below_spec (Z.of_nat (length pool)) r) as (r1 & j & E & Hj); [unfold pool in *; cbn [length] in *; lia|].
  pose proof (pool_draw pool x (Z.to_nat j) ltac:(lia)) as Hp.
  set (left := take (length pool - 1) (<[Z.to_nat j := nth (length pool - 1) pool x]> pool)) in *.
  assert (S (length left) = length pool) as Hl by (by rewrite <- (Permutation_length Hp)).
  destruct (IH left r1) as (r2 & xs & rest & E2 & Hlen & Hperm); [lia|].
  exists r2, (nth (Z.to_nat j) pool x :: xs), rest.
  rewrite (io_bind_run _ _ _ _ _ E), (io_bind_run _ _ _ _ _ E2). split; [done|]. split; [simpl; lia|].
  etrans; [|exact Hp]. simpl. by constructor.
Qed.

Lemma draw_free_spec fuel n selected r :
  0 < n → NoDup selected → Z.of_nat (length selected) < n → Forall (λ i, 0 ≤ i < n) selected →
  ∃ r' j, draw_free fuel n selected r = (r', Ok j) ∧ 0 ≤ j < n ∧ j ∉ selected.
Proof.
  intros Hn Hnd Hl Hs. revert r. induction fuel as [|fuel IH]; intros r; cbn [draw_free].
  - destruct (filter (λ i, i ∉ selected) (z_range 0 (n - 1))) as [|j l] eqn:E.
    + exfalso. assert (z_range 0 (n - 1) ⊆+ selected) as Hsub.
      { apply NoDup_submseteq; [apply NoDup_z_range|]. intros i Hi. destruct (decide (i ∈ selected)); [done|].
        exfalso. by eapply (filter_nil_not_elem_of _ _ i E). }
      apply submseteq_length in Hsub. unfold z_range in Hsub. rewrite length_fmap, length_seq in Hsub. lia.
    + exists r, j. split; [done|]. assert (j ∈ filter (λ i, i ∉ selected) (z_range 0 (n - 1))) as Hj by (rewrite E; left).
      apply list_elem_of_filter in Hj as [Hj Hr]. apply elem_of_z_range in Hr. split; [lia|done].
  - destruct (below_spec n r Hn) as (r' & j & E & Hj). rewrite (io_bind_run _ _ _ _ _ E).
    case_bool_decide; [apply IH|]. by exists r', j.
Qed.

Lemma sample_set_spec k n : ∀ selected r,
  0 < n → NoDup selected → Z.of_nat (length selected + k) ≤ n → Forall (λ i, 0 ≤ i < n) selected →
  ∃ r' js, sample_set k n selected r = (r', Ok js) ∧ length js = k ∧ NoDup js ∧
    Forall (λ i, 0 ≤ i < n ∧ i ∉ selected) js.
Proof.
  induction k as [|k IH]; intros selected r Hn Hnd Hl Hs; cbn [sample_set].
  { exists r, []. split; [done|]. split; [done|]. split; constructor. }
  destruct (draw_free_spec redraws n selected r) as (r1 & j & E & Hj & Hjs); [done|done|lia|done|].
  destruct (IH (j :: selected) r1) as (r2 & js & E2 & Hlen & Hnd2 & Hall);
    [done|by constructor|cbn [length]; lia|by constructor|].
  exists r2, (j :: js). rewrite (io_bind_run _ _ _ _ _ E), (io_bind_run _ _ _ _ _ E2). rewrite Forall_forall in *.
  split; [done|]. split; [simpl; lia|]. split.
  - constructor; [|done]. intros Hin. destruct (Hall j Hin) as [_ Hn']. apply Hn'. by left.
  - intros i [->|Hi]%elem_of_cons; [done|]. destruct (Hall i Hi) as [Hi1 Hi2]. split; [done|].
    intros Hi3. apply Hi2. by right.
Qed.

Lemma omap_fmap {A B C} (f : A → B) (g : B → option C) (l : list A) : omap g (f <$> l) = omap (λ x, g (f x)) l.
Proof. induction l as [|x l IH]; [done|]. cbn [fmap list_fmap omap list_omap]. destruct (g (f x)); [f_equal|]; exact IH. Qed.

Lemma omap_lookup_seq {A} (l : list A) : omap (λ i, l !! i) (seq 0 (length l)) = l.
Proof.
  induction l as [|x l IH]; [done|]. cbn [length seq omap list_omap lookup list_lookup]. f_equal.
  rewrite <- fmap_S_seq, omap_fmap. exact IH.
Qed.

(** A sample has the size asked for and takes no element twice. *)
Lemma sample_spec {A} (population : list A) k r :
  0 ≤ k ≤ Z.of_nat (length population) →
  ∃ r' xs rest, sample population k r = (r', Ok xs) ∧ Z.of_nat (length xs) = k ∧ xs ++ rest ≡ₚ population.
Proof.
  intros Hk. unfold sample. destruct (Z.ltb_spec k 0), (Z.ltb_spec (Z.of_nat (length population)) k); try lia.
  cbn [orb]. destruct (Z.leb_spec (Z.of_nat (length population)) (setsize k)) as [_|Hbig].
  - destruct (sample_pool_spec (Z.to_nat k) population r) as (r' & xs & rest & E & Hl & Hp); [lia|].
    exists r', xs, rest. split_and!; [done|lia|done].
  - assert (0 < Z.of_nat (length population)) as Hpos.
    { destruct population; [|simpl; lia]. cbn [length] in Hbig. unfold setsize in Hbig. simpl in Hbig.
      destruct (Z.ltb_spec 5 k); [simpl in Hk; lia|lia]. }
    destruct (sample_set_spec (Z.to_nat k) (Z.of_nat (length population)) [] r) as (r' & js & E & Hl & Hnd & Hall);
      [done|constructor|simpl; lia|constructor|].
    rewrite (io_bind_run _ _ _ _ _ E). rewrite Forall_forall in Hall.
    assert (Z.to_nat <$> js ⊆+ seq 0 (length population)) as [rest Hp]%submseteq_Permutation.
    { apply NoDup_submseteq.
      - apply NoDup_fmap_2_strong; [|done]. intros x y Hx%Hall Hy%Hall Hxy. lia.
      - intros i (j & -> & Hj%Hall)%list_elem_of_fmap. apply elem_of_seq. lia. }
    exists r', (omap (λ j, population !! Z.to_nat j) js), (omap (λ i, population !! i) rest). split; [done|].
    rewrite <- (omap_fmap Z.to_nat (λ i, population !! i)). split.
    + assert (length (omap (λ i, population !! i) (Z.to_nat <$> js)) = length js) as ->; [|lia].
      clear -Hall. induction js as [|j js IH]; [done|]. cbn [fmap list_fmap omap list_omap].
      destruct (lookup_lt_is_Some_2 population (Z.to_nat j)) as [x Hx].
      { destruct (Hall j ltac:(left)). lia. }
      change (list_lookup (Z.to_nat j) population) with (population !! Z.to_nat j) in *.
      rewrite Hx. simpl. f_equal. apply IH. intros i Hi. apply Hall. by right.
    + rewrite <- omap_app, <- Hp. by rewrite omap_lookup_seq.
Qed.
End Methods.

(** ** The Mersenne Twister *)

Module MT19937.
Definition N : nat := 624.
Definition w32 (z : Z) : Z := Z.land z 0xFFFFFFFF.

(** The words of the state and the position of the next one. *)
Record state := mkState { words : list Z; index : nat }.

Definition word (mt : list Z) (i : nat) : Z := nth i mt 0.

Fixpoint init_words (n : nat) (i prev : Z) : list Z :=
  match n with
  | O => []
  | S n => let w := w32 (1812433253 * Z.lxor prev (Z.shiftr prev 30) + i) in w :: init_words n (i + 1) w
  end.
Definition init_genrand (s : Z) : list Z := w32 s :: init_words (N - 1) 1 (w32 s).

(** The wrap of the position: [if (i >= N) { mt[0] = mt[N-1]; i = 1; }]. *)
Definition wrap (mt : list Z) (i : nat) : list Z * nat :=
  if (N <=? i)%nat then (<[0%nat := word mt (N - 1)]> mt, 1%nat) else (mt, i).

Definition mix (mt : list Z) (i : nat) (factor : Z) : Z :=
  let prev := word mt (i - 1) in Z.lxor (word mt i) (w32 (Z.lxor prev (Z.shiftr prev 30) * factor)).

Fixpoint init_key (k : nat) (key : list Z) (mt : list Z) (i j : nat) : list Z * nat :=
  match k with
  | O => (mt, i)
  | S k =>
    let v := w32 (mix mt i 1664525 + nth j key 0 + Z.of_nat j) in
    let '(mt, i) := wrap (<[i := v]> mt) (S i) in
    init_key k key mt i (if (length key <=? S j)%nat then 0%nat else S j)
  end.

Fixpoint init_rest (k : nat) (mt : list Z) (i : nat) : list Z :=
  match k with
  | O => mt
  | S k =>
    let v := w32 (mix mt i 1566083941 - Z.of_nat i) in
    let '(mt, i) := wrap (<[i := v]> mt) (S i) in
    init_rest k mt i
  end.

Definition init_by_array (key : list Z) : state :=
  let '(mt, i) := init_key (Nat.max N (length key)) key (init_genrand 19650218) 1 0 in
  mkState (<[0%nat := 0x80000000]> (init_rest (N - 1) mt i)) N.

(** The 32-bit words of an integer, least significant first. *)
Fixpoint key_words (fuel : nat) (z : Z) : list Z :=
  match fuel with
  | O => []
  | S fuel => w32 z :: (if z <? 2 ^ 32 then [] else key_words fuel (Z.shiftr z 32))
  end.

(** [Random(seed)] for an integer: the key is its absolute value. *)
Definition seed (z : Z) : state :=
  init_by_array (key_words (S (Z.to_nat (Z.log2 (Z.abs z)))) (Z.abs z)).

Fixpoint twist (n : nat) (kk : nat) (mt : list Z) : list Z :=
  match n with
  | O => mt
  | S n =>
    let y := Z.lor (Z.land (word mt kk) 0x80000000) (Z.land (word mt (S kk mod N)) 0x7FFFFFFF) in
    let mag := if Z.testbit y 0 then 0x9908B0DF else 0 in
    twist n (S kk) (<[kk := Z.lxor (Z.lxor (word mt ((kk + 397) mod N)) (Z.shiftr y 1)) mag]> mt)
  end.

Definition temper (y : Z) : Z :=
  let y := Z.lxor y (Z.shiftr y 11) in
  let y := Z.lxor y (Z.land (Z.shiftl y 7) 0x9D2C5680) in
  let y := Z.lxor y (Z.land (Z.shiftl y 15) 0xEFC60000) in
  Z.lxor y (Z.shiftr y 18).

Definition genrand (s : state) : state * Z :=
  let s := if (N <=? index s)%nat then mkState (twist N 0 (words s)) 0 else s in
  (mkState (words s) (S (index s)), temper (word (words s) (index s))).

(** The words of [getrandbits(k)], least significant first, the last one cut to the bits left. *)
Fixpoint getrandbits (fuel : nat) (k : Z) (s : state) : state * Z :=
  match fuel with
  | O => (s, 0)
  | S fuel =>
    if k <=? 0 then (s, 0)
    else
      let '(s, r) := genrand s in
      if k <=? 32 then (s, Z.shiftr r (32 - k))
      else let '(s, high) := getrandbits fuel (k - 32) s in (s, r + Z.shiftl high 32)
  end.

(** [_randbelow_with_getrandbits]: words are drawn until one is below [n]. Each is with a chance of
    more than one half; after [attempts] failures in a row 0 stands in. *)
Definition attempts : nat := 4096.
Fixpoint reject (fuel : nat) (n k : Z) (s : state) : state * Z :=
  match fuel with
  | O => (s, 0)
  | S fuel =>
    let '(s, r) := getrandbits (S (Z.to_nat k)) k s in
    if (0 <=? r) && (r <? n) then (s, r) else reject fuel n k s
  end.

Definition randbelow (n : Z) (s : state) : state * Z := reject attempts n (Z.log2 n + 1) s.

Lemma reject_range fuel n k : ∀ s, 0 < n → 0 ≤ (reject fuel n k s).2 < n.
Proof.
  induction fuel as [|fuel IH]; intros s Hn; cbn [reject]; [simpl; lia|].
  destruct (getrandbits _ k s) as [s' r].
  destruct (Z.leb_spec 0 r), (Z.ltb_spec r n); cbn [andb snd]; try lia; by apply IH.
Qed.
End MT19937.

(** [random.Random] *)
#[export] Instance mersenne_twister : Random MT19937.state.
Proof.
  refine {| seeded := MT19937.seed; _randbelow := MT19937.randbelow |}.
  intros n r. apply MT19937.reject_range.
Defined.

(** What CPython draws from [Random(42)] and [Random(2**63 + 12345)]. *)
Example mersenne_42 :
  ((let* a := below 4294967295 in let* b := below 4294967295 in let* c := randrange 500 50000 in
    let* d := sample (z_range 0 29) 4 in let* e := sample (z_range 0 99) 7 in let* f := choice ["a"; "b"; "c"] in
    io_ret ([a; b; c], d, e, f)) (seeded 42)).2
  = Ok ([2746317213; 478163327; 2139], [23; 8; 7; 4], [94; 13; 86; 69; 11; 75; 54], "a").
Proof. vm_compute. reflexivity. Qed.

Example mersenne_wide :
  ((let* a := below (2 ^ 40) in let* b := below (2 ^ 40) in io_ret [a; b]) (seeded (2 ^ 63 + 12345))).2
  = Ok [851712522067; 340214805616].
Proof. vm_compute. reflexivity. Qed.
