(* ===== verification/Policy.v ===== *)
(** * Simulation policy: [simulator/policy.py]

    The timing windows, the anomaly rates and the weekly breach day of the daily
    simulation. *)

From stdpp Require Import prelude gmap strings list.
From Stdlib Require Import ZArith Lia Ascii Floats.SpecFloat.
From S2P Require Import Prelude PyText Dates Sha256 PyNum.

Open Scope Z_scope.

Record DayWindow := mkDayWindow { minimum : Z; maximum : Z }.

Definition DayWindow_post_init (w : DayWindow) : res DayWindow :=
  if (minimum w <? 0) || (maximum w <? minimum w)
  then raise ValueError "day windows must be non-negative and ordered" else Ok w.

Record AnomalyRates := mkAnomalyRates {
  stalled_opportunity : f64;
  delayed_crm_to_ops : f64;
  stalled_shipment : f64;
  delayed_erp_posting : f64 }.

Definition rate_ok (v : f64) : bool := f64_leb (S754_zero false) v && f64_leb v (f64_literal 5 (-2)).

Definition AnomalyRates_post_init (r : AnomalyRates) : res AnomalyRates :=
  if forallb rate_ok [stalled_opportunity r; delayed_crm_to_ops r; stalled_shipment r; delayed_erp_posting r]
  then Ok r else raise ValueError "anomaly rates must be between 0 and 0.05".

Definition default_rates : AnomalyRates :=
  mkAnomalyRates (f64_literal 6 (-3)) (f64_literal 4 (-3)) (f64_literal 8 (-3)) (f64_literal 4 (-3)).

Record SimulationPolicy := mkSimulationPolicy {
  timezone : string;
  run_at : Z * Z;
  annual_growth_rate : f64;
  crm_to_ops : DayWindow;
  order_to_shipment : DayWindow;
  shipment_to_delivery : DayWindow;
  shipment_to_invoice : DayWindow;
  invoice_to_erp : DayWindow;
  weekly_sla_breach_days : Z;
  anomalies : AnomalyRates }.

Definition default_policy : SimulationPolicy :=
  mkSimulationPolicy "America/Los_Angeles" (0, 0) (f64_literal 8 (-2))
    (mkDayWindow 1 3) (mkDayWindow 1 5) (mkDayWindow 1 5) (mkDayWindow 0 3) (mkDayWindow 1 2)
    1 default_rates.

Definition SimulationPolicy_post_init (p : SimulationPolicy) : res SimulationPolicy :=
  if negb (f64_ltb (S754_zero false) (annual_growth_rate p) && f64_leb (annual_growth_rate p) (f64_of_Z 1))
  then raise ValueError "annual growth rate must be between 0 and 1"
  else if weekly_sla_breach_days p <? 1
  then raise ValueError "weekly SLA breach duration must be positive"
  else Ok p.

Definition proportional_daily_volume (p : SimulationPolicy) (current_population : Z) : res Z :=
  if current_population <? 0 then raise ValueError "current population cannot be negative"
  else Ok (Z.max 1 (f64_round (f64_div (f64_mul (f64_of_Z current_population) (annual_growth_rate p))
                                 (f64_of_Z 365)))).

(** The ISO weekday the digest selects for an ISO week. *)
Definition breach_weekday (seed iso_year iso_week : Z) : Z :=
  digest_byte (str_of_Z seed +:+ ":" +:+ str_of_Z iso_year +:+ ":" +:+ str_of_Z iso_week) 0 mod 7 + 1.

Definition is_weekly_sla_breach_date (run_date : date) (seed : Z) : bool :=
  let '(iso_year, iso_week, _) := isocalendar run_date in
  isoweekday run_date =? breach_weekday seed iso_year iso_week.

(** ** Windows *)

(** A policy whose records passed their [__post_init__]. *)
Definition window_wf (w : DayWindow) : Prop := 0 ≤ minimum w ≤ maximum w.
Record policy_wf (p : SimulationPolicy) : Prop := {
  wf_crm_to_ops : window_wf (crm_to_ops p);
  wf_order_to_shipment : window_wf (order_to_shipment p);
  wf_shipment_to_delivery : window_wf (shipment_to_delivery p);
  wf_shipment_to_invoice : window_wf (shipment_to_invoice p);
  wf_invoice_to_erp : window_wf (invoice_to_erp p) }.

Lemma DayWindow_post_init_wf w w' : DayWindow_post_init w = Ok w' → window_wf w'.
Proof.
  unfold DayWindow_post_init, window_wf.
  destruct (Z.ltb_spec (minimum w) 0), (Z.ltb_spec (maximum w) (minimum w)); simpl; try done.
  intros [= <-]. lia.
Qed.

Lemma default_policy_wf : policy_wf default_policy.
Proof. split; unfold window_wf; simpl; lia. Qed.

(** The delay drawn from a window by one digest byte. *)
Definition window_delay (w : DayWindow) (byte : Z) : Z :=
  minimum w + byte mod (maximum w - minimum w + 1).

Lemma window_delay_range w byte :
  window_wf w → minimum w ≤ window_delay w byte ≤ maximum w.
Proof.
  unfold window_wf, window_delay. intros H.
  pose proof (Z.mod_pos_bound byte (maximum w - minimum w + 1) ltac:(lia)). lia.
Qed.

Lemma breach_weekday_range seed y w : 1 ≤ breach_weekday seed y w ≤ 7.
Proof.
  unfold breach_weekday. pose proof (Z.mod_pos_bound
    (digest_byte (str_of_Z seed +:+ ":" +:+ str_of_Z y +:+ ":" +:+ str_of_Z w) 0) 7 ltac:(lia)). lia.
Qed.

(** The breach day of the week that starts on a given Monday. *)
Lemma breach_in_week m seed k :
  m mod 7 = 1 → 0 ≤ k < 7 →
  is_weekly_sla_breach_date (m + k) seed = true ↔
  k = breach_weekday seed (isocalendar m).1.1 (isocalendar m).1.2 - 1.
Proof.
  intros Hm Hk. unfold is_weekly_sla_breach_date.
  pose proof (isocalendar_week m k Hm Hk) as Hw.
  destruct (isocalendar m) as [[y w] ?], (isocalendar (m + k)) as [[y' w'] ?].
  simpl in *. injection Hw as -> ->.
  rewrite isoweekday_week by done. rewrite Z.eqb_eq. lia.
Qed.

(** every ISO week has exactly one breach day, whatever the seed. *)
Theorem weekly_breach_exactly_once m seed :
  m mod 7 = 1 →
  exists ! d, m ≤ d < m + 7 ∧ is_weekly_sla_breach_date d seed = true.
Proof.
  intros Hm.
  set (k := breach_weekday seed (isocalendar m).1.1 (isocalendar m).1.2 - 1).
  assert (0 ≤ k < 7) as Hk.
  { pose proof (breach_weekday_range seed (isocalendar m).1.1 (isocalendar m).1.2). lia. }
  exists (m + k). split.
  - split; [lia|]. by apply breach_in_week.
  - intros d [Hd Hb]. replace d with (m + (d - m)) in Hb by lia.
    apply breach_in_week in Hb; [|done|lia]. lia.
Qed.

Lemma weekly_breach_exactly_once_witness :
  739089 mod 7 = 1 ∧ exists ! d, 739089 ≤ d < 739089 + 7 ∧ is_weekly_sla_breach_date d 42 = true.
Proof. split; [reflexivity|]. apply weekly_breach_exactly_once. reflexivity. Defined.

(** The daily volume is at least one, and only a negative population is an error. *)
Theorem daily_volume_total p n :
  match proportional_daily_volume p n with
  | Ok v => 0 ≤ n ∧ 1 ≤ v
  | Err e => n < 0 ∧ exn_cls e = ValueError
  end.
Proof.
  unfold proportional_daily_volume. destruct (Z.ltb_spec n 0); simpl; [done|lia].
Qed.
