(* ===== verification/Events.v ===== *)
(** * Source events: [simulator/events.py]

    The serialisable business events the planners produce, with their JSON text and
    their SHA-256 identifier. *)

From stdpp Require Import prelude gmap strings list.
From Stdlib Require Import ZArith Lia Ascii.
From S2P Require Import Prelude PyText Dates Sha256 PyNum.

Open Scope Z_scope.

Inductive SourceSystem := crm | ops | erp.

#[export] Instance source_eq_dec : EqDecision SourceSystem.
Proof. solve_decision. Defined.
#[export] Instance source_countable : Countable SourceSystem.
Proof.
  refine (inj_countable' (λ s, match s with crm => 0 | ops => 1 | erp => 2 end)
    (λ n, match n with 0 => crm | 1 => ops | _ => erp end) _). by intros [].
Defined.

Definition source_name (s : SourceSystem) : string :=
  match s with crm => "crm" | ops => "ops" | erp => "erp" end.

(** The payload values the planners build. [PFloat z] is a float with the integral
    value [z], below [10^16] in absolute value. *)
Inductive pyval :=
| PNone
| PBool (b : bool)
| PInt (z : Z)
| PFloat (z : Z)
| PStr (s : string)
| PDec (d : decimal).

#[export] Instance pyval_eq_dec : EqDecision pyval.
Proof. solve_decision. Defined.

(** ** [json.dumps(payload, sort_keys=True, separators=(",", ":"), default=str)] *)

Definition hex4 (n : Z) : list ascii :=
  "\"%char :: "u"%char :: "0"%char :: "0"%char :: [hex_digit (n / 16); hex_digit (n mod 16)].

Definition json_char (c : ascii) : list ascii :=
  let n := code c in
  if n =? 34 then ["\"%char; c] else if n =? 92 then ["\"%char; c]
  else if n =? 8 then chars "\b" else if n =? 9 then chars "\t" else if n =? 10 then chars "\n"
  else if n =? 12 then chars "\f" else if n =? 13 then chars "\r"
  else if in_range 32 126 c then [c] else hex4 n.

Definition quote_char : string := String (chr 34) "".

Definition json_str (s : string) : string :=
  quote_char +:+ str (chars s ≫= json_char) +:+ quote_char.

Definition json_val (v : pyval) : string :=
  match v with
  | PNone => "null"
  | PBool true => "true"
  | PBool false => "false"
  | PInt z => str_of_Z z
  | PFloat z => str_of_Z z +:+ ".0"
  | PStr s => json_str s
  | PDec d => json_str (str_of_decimal d)
  end.

Definition payload_map := gmap string pyval.

Definition json_dumps (p : payload_map) : string :=
  "{" +:+ join "," ((λ kv : string * pyval, json_str kv.1 +:+ ":" +:+ json_val kv.2)
    <$> sort_on fst (map_to_list p)) +:+ "}".

(** [json.loads] of that text: decimals come back as the text [default=str] wrote. *)
Definition json_reload_val (v : pyval) : pyval :=
  match v with PDec d => PStr (str_of_decimal d) | v => v end.
Definition json_reload (p : payload_map) : payload_map := json_reload_val <$> p.

(** ** Events *)

Record SourceEvent := mkEvent {
  event_id : string;
  business_date : date;
  source_system : SourceSystem;
  event_type : string;
  entity_id : string;
  payload : payload_map;
  available_on : date;
  anomaly_type : option string }.

#[export] Instance event_eq_dec : EqDecision SourceEvent.
Proof. solve_decision. Defined.

Definition payload_json (e : SourceEvent) : string := json_dumps (payload e).

Definition event_text (d : date) (sys : SourceSystem) (ty ent stable_payload : string) : string :=
  isoformat d +:+ "|" +:+ source_name sys +:+ "|" +:+ ty +:+ "|" +:+ ent +:+ "|" +:+ stable_payload.

(** [SourceEvent.create]; [available] is the optional [available_on]. *)
Definition create (d : date) (sys : SourceSystem) (ty ent : string) (p : payload_map)
    (available : option date) (anomaly : option string) : SourceEvent :=
  mkEvent (sha256_hex (event_text d sys ty ent (json_dumps p)))
    d sys ty ent p (default d available) anomaly.

(** ** Reading payload fields *)

(** [payload[key]] *)
Definition payload_get (e : SourceEvent) (key : string) : res pyval :=
  match payload e !! key with
  | Some v => Ok v
  | None => raise KeyError key
  end.

(** [int(v)] *)
Definition to_int (v : pyval) : res Z :=
  match v with
  | PInt z | PFloat z => Ok z
  | PBool b => Ok (Z.b2z b)
  | PStr s => match int_of_text s with
              | Some z => Ok z
              | None => raise ValueError "invalid literal for int()"
              end
  | PDec d => Ok (if 0 <=? d_exp d then d_coef d * 10 ^ d_exp d
                  else Z.quot (d_coef d) (10 ^ (- d_exp d)))
  | PNone => raise TypeError "int() argument must be a string or a real number"
  end.

(** [str(v)] *)
Definition to_str (v : pyval) : string :=
  match v with
  | PNone => "None"
  | PBool true => "True"
  | PBool false => "False"
  | PInt z => str_of_Z z
  | PFloat z => str_of_Z z +:+ ".0"
  | PStr s => s
  | PDec d => str_of_decimal d
  end.

(** [int(payload[key])] *)
Definition payload_int (e : SourceEvent) (key : string) : res Z :=
  let! v := payload_get e key in to_int v.

Lemma payload_int_lookup e key z : payload e !! key = Some (PInt z) → payload_int e key = Ok z.
Proof. unfold payload_int, payload_get. by intros ->. Qed.

Lemma json_reload_lookup p k : json_reload p !! k = json_reload_val <$> p !! k.
Proof. apply lookup_fmap. Qed.

Lemma json_reload_idemp p : json_reload (json_reload p) = json_reload p.
Proof.
  apply map_eq. intros k. rewrite !json_reload_lookup. destruct (p !! k) as [[]|]; done.
Qed.
