(* ===== verification/SimState.v ===== *)
(** * Simulation control state: [simulator/state.py]

    The DuckDB tables of [SimulationStateStore] and one definition per method. Every
    statement commits on its own, as DuckDB does outside [BEGIN]; the timestamps
    ([started_at], [applied_at], [completed_at]) are not modelled. *)

From stdpp Require Import prelude gmap strings list.
From Stdlib Require Import ZArith Lia Ascii.
From S2P Require Import Prelude PyText Dates PyNum Policy Events.

Open Scope Z_scope.

Inductive run_state := run_in_progress | run_completed.
Inductive source_state := source_pending | source_applied.

#[export] Instance run_state_eq_dec : EqDecision run_state.
Proof. solve_decision. Defined.
#[export] Instance source_state_eq_dec : EqDecision source_state.
Proof. solve_decision. Defined.

(** A row of [simulation_runs]. *)
Record sim_run := mkRun { r_state : run_state; r_breach : bool; r_failure : option string }.
(** A row of [simulation_source_runs]. *)
Record source_run := mkSourceRun { sr_state : source_state; sr_generated : Z; sr_applied : Z }.

Record sim_state := mkSim {
  s_metadata : gmap string string;
  s_runs : gmap date sim_run;
  s_sources : gmap (date * SourceSystem) source_run;
  s_events : gmap string SourceEvent }.

Definition set_metadata m s := mkSim m (s_runs s) (s_sources s) (s_events s).
Definition set_runs r s := mkSim (s_metadata s) r (s_sources s) (s_events s).
Definition set_sources r s := mkSim (s_metadata s) (s_runs s) r (s_events s).
Definition set_events e s := mkSim (s_metadata s) (s_runs s) (s_sources s) e.

Definition empty_sim : sim_state := mkSim ∅ ∅ ∅ ∅.

Definition SOURCES : list SourceSystem := [crm; ops; erp].
Definition BASELINE_DATE_KEY : string := "baseline_completed_date".
Definition LAST_COMPLETED_DATE_KEY : string := "last_completed_date".

(** [SOURCES.index(source)] *)
Definition source_index (s : SourceSystem) : nat := match s with crm => 0 | ops => 1 | erp => 2 end.

(** [date.fromordinal] *)
Definition fromordinal (n : Z) : res date :=
  if (1 <=? n) && (n <=? date_max) then Ok n else raise ValueError "ordinal must be a date".

(** [initialize] (the [CREATE TABLE IF NOT EXISTS] statements leave the tables as they are). *)
Definition initialize (baseline : date) : io sim_state unit :=
  let* s := io_get in
  let old_baseline := s_metadata s !! BASELINE_DATE_KEY in
  let* _ := match s_metadata s !! LAST_COMPLETED_DATE_KEY with
            | None => io_modify (λ s, set_metadata
                        (<[LAST_COMPLETED_DATE_KEY := isoformat baseline]> (s_metadata s)) s)
            | Some _ => io_ret tt
            end in
  match old_baseline with
  | None => io_modify (λ s, set_metadata
              (<[BASELINE_DATE_KEY := isoformat baseline]> (s_metadata s)) s)
  | Some b => raise_if (negb (bool_decide (b = isoformat baseline))) SimulationStateError
                "simulation state already belongs to a different baseline date"
  end.

(** Reading one metadata date; [missing] is the exception when there is no row. *)
Definition read_date (key : string) (missing : exn) (s : sim_state) : res date :=
  match s_metadata s !! key with
  | None => Err missing
  | Some v => match fromisoformat v with
              | Some d => Ok d
              | None => raise ValueError "Invalid isoformat string"
              end
  end.

Definition not_initialized : exn :=
  Exn SimulationStateError "" "simulation state has not been initialized".
(** [fetchone()[0]] on a missing row *)
Definition not_subscriptable : exn := Exn TypeError "" "'NoneType' object is not subscriptable".

Definition baseline_completed_date : io sim_state date :=
  λ s, (s, read_date BASELINE_DATE_KEY not_initialized s).
Definition last_completed_date : io sim_state date :=
  λ s, (s, read_date LAST_COMPLETED_DATE_KEY not_initialized s).

Definition date_range (first last : date) : list date :=
  (λ i, first + Z.of_nat i) <$> seq 0 (Z.to_nat (last - first + 1)).

Definition due_dates (through_date : date) : io sim_state (list date) :=
  let* current := last_completed_date in
  if through_date <=? current then io_ret [] else io_ret (date_range (current + 1) through_date).

(** The two [INSERT]s of [claim_run] for a date that has no row yet; a primary key that
    is already present refuses the second. *)
Definition insert_run (run_date : date) (breach : bool) : io sim_state unit :=
  io_modify (λ s, set_runs (<[run_date := mkRun run_in_progress breach None]> (s_runs s)) s).

Definition insert_source (run_date : date) (src : SourceSystem) : io sim_state unit :=
  let* s := io_get in
  match s_sources s !! (run_date, src) with
  | Some _ => io_raise IntegrityError "Constraint Error: Duplicate key"
  | None => io_modify (λ s, set_sources
              (<[(run_date, src) := mkSourceRun source_pending 0 0]> (s_sources s)) s)
  end.

(** The first [1 + n] [INSERT]s of [claim_run]: every statement commits on its own, so this
    is what a process that dies after them leaves behind. *)
Definition claim_inserts (n : nat) (run_date : date) (seed : Z) : io sim_state unit :=
  insert_run run_date (is_weekly_sla_breach_date run_date seed) ;;;
  io_iter (insert_source run_date) (take n SOURCES).

Definition claim_run (run_date : date) (seed : Z) : io sim_state bool :=
  let* s := io_get in
  let* last_completed := io_lift (read_date LAST_COMPLETED_DATE_KEY not_subscriptable s) in
  let* next := io_lift (fromordinal (last_completed + 1)) in
  let* _ := raise_if (next <? run_date) SimulationStateError "simulation dates must be claimed in order" in
  match s_runs s !! run_date with
  | Some row =>
    if decide (r_state row = run_completed) then io_ret false
    else
      let* _ := io_modify (λ s, set_runs
        (<[run_date := mkRun run_in_progress (r_breach row) None]> (s_runs s)) s) in
      io_ret true
  | None =>
    let* _ := claim_inserts (length SOURCES) run_date seed in io_ret true
  end.

(** [state != 'applied'] on the row of a source; a missing row is not counted. *)
Definition unapplied (run_date : date) (s : sim_state) (src : SourceSystem) : bool :=
  match s_sources s !! (run_date, src) with
  | Some row => negb (bool_decide (sr_state row = source_applied))
  | None => false
  end.

Definition mark_source_applied (run_date : date) (source : SourceSystem)
    (records_generated records_applied : Z) : io sim_state unit :=
  let* _ := raise_if ((records_generated <? 0) || (records_applied <? 0)) ValueError
              "record counts cannot be negative" in
  let* s := io_get in
  match s_sources s !! (run_date, source) with
  | None => io_raise SimulationStateError "source run has not been claimed"
  | Some _ =>
    let preceding := existsb (unapplied run_date s) (take (source_index source) SOURCES) in
    let* _ := raise_if preceding SimulationStateError
                "source systems must apply in CRM, Ops, ERP order" in
    io_modify (λ s, set_sources
      (<[(run_date, source) := mkSourceRun source_applied records_generated records_applied]> (s_sources s)) s)
  end.

(** Whether a source of the date still has to apply. *)
Definition pending_sources (run_date : date) (s : sim_state) : bool :=
  existsb (unapplied run_date s) SOURCES.

Definition complete_run (run_date : date) : io sim_state unit :=
  let* s := io_get in
  let* last_completed := io_lift (read_date LAST_COMPLETED_DATE_KEY not_subscriptable s) in
  let* next := io_lift (fromordinal (last_completed + 1)) in
  let* _ := raise_if (negb (run_date =? next)) SimulationStateError
              "simulation dates must complete in order" in
  let* _ := raise_if (pending_sources run_date s) SimulationStateError
              "all source systems must apply before completion" in
  let* _ := io_modify (λ s, set_runs
    (alter (λ row, mkRun run_completed (r_breach row) (r_failure row)) run_date (s_runs s)) s) in
  io_modify (λ s, set_metadata
    (<[LAST_COMPLETED_DATE_KEY := isoformat run_date]> (s_metadata s)) s).

Definition source_run_state (run_date : date) (source : SourceSystem) : io sim_state source_state :=
  let* s := io_get in
  match s_sources s !! (run_date, source) with
  | None => io_raise SimulationStateError "source run has not been claimed"
  | Some row => io_ret (sr_state row)
  end.

Record sim_status := mkStatus {
  st_baseline : string;
  st_last : string;
  st_completed : nat;
  st_in_progress : nat;
  st_incomplete : option (date * run_state * option string) }.

Definition count_runs (st : run_state) (s : sim_state) : nat :=
  length (filter (λ kv : date * sim_run, r_state kv.2 = st) (map_to_list (s_runs s))).

Definition incomplete_runs (s : sim_state) : list (date * sim_run) :=
  sort_by (λ a b, a.1 <=? b.1)
    (filter (λ kv : date * sim_run, r_state kv.2 ≠ run_completed) (map_to_list (s_runs s))).

Definition status_snapshot : io sim_state sim_status :=
  let* s := io_get in
  let* baseline := baseline_completed_date in
  let* last := last_completed_date in
  io_ret (mkStatus (isoformat baseline) (isoformat last)
    (count_runs run_completed s) (count_runs run_in_progress s)
    ((λ kv : date * sim_run, (kv.1, r_state kv.2, r_failure kv.2)) <$> head (incomplete_runs s))).

(** The row [record_events] stores and the event read back from it. *)
Definition stored (e : SourceEvent) : SourceEvent :=
  mkEvent (event_id e) (business_date e) (source_system e) (event_type e) (entity_id e)
    (json_reload (payload e)) (available_on e) (anomaly_type e).

Definition record_event (e : SourceEvent) : io sim_state unit :=
  let* s := io_get in
  match s_sources s !! (business_date e, source_system e) with
  | None => io_raise SimulationStateError "events may be recorded only for a claimed source run"
  | Some _ =>
    (* ON CONFLICT (event_id) DO NOTHING *)
    match s_events s !! event_id e with
    | Some _ => io_ret tt
    | None => io_modify (λ s, set_events (<[event_id e := stored e]> (s_events s)) s)
    end
  end.

Definition record_events (events : list SourceEvent) : io sim_state unit :=
  io_iter record_event events.

Definition event_count (run_date : date) (source : SourceSystem) : io sim_state Z :=
  let* s := io_get in
  io_ret (Z.of_nat (length (filter (λ kv : string * SourceEvent,
    business_date kv.2 = run_date ∧ source_system kv.2 = source) (map_to_list (s_events s))))).

(** The date test of [events_through]: [business_date =] or [<=] the given date. *)
Definition date_matches (exact_date : bool) (d through : date) : bool :=
  if exact_date then d =? through else d <=? through.

(** [events_through]; [exact_date] selects the one date. *)
Definition select_events (through : date) (source : SourceSystem) (exact_date : bool) (s : sim_state)
    : list SourceEvent :=
  sort_on event_id
    (filter (λ e, date_matches exact_date (business_date e) through = true ∧ source_system e = source)
       (map_to_list (s_events s)).*2).

Definition events_through (through : date) (source : SourceSystem) (exact_date : bool)
    : io sim_state (list SourceEvent) :=
  λ s, (s, Ok (select_events through source exact_date s)).
Definition events_for (run_date : date) (source : SourceSystem) : io sim_state (list SourceEvent) :=
  events_through run_date source true.

(** ** The invariant of the control state *)

(** [w] is the completion watermark of a state whose baseline is [b]. *)
Record sim_inv (b w : date) (s : sim_state) : Prop := {
  inv_dates : 1 ≤ b ≤ w ∧ w ≤ date_max;
  inv_baseline : s_metadata s !! BASELINE_DATE_KEY = Some (isoformat b);
  inv_watermark : s_metadata s !! LAST_COMPLETED_DATE_KEY = Some (isoformat w);
  inv_runs_bound : ∀ d r, s_runs s !! d = Some r → d ≤ w + 1;
  inv_completed : ∀ d r, s_runs s !! d = Some r → (r_state r = run_completed ↔ b < d ≤ w);
  inv_no_gap : ∀ d, b < d ≤ w → is_Some (s_runs s !! d);
  inv_sources : ∀ d src, is_Some (s_sources s !! (d, src)) ↔ is_Some (s_runs s !! d);
  inv_order : ∀ d src src' row row',
    s_sources s !! (d, src) = Some row → s_sources s !! (d, src') = Some row' →
    (source_index src ≤ source_index src')%nat →
    sr_state row' = source_applied → sr_state row = source_applied;
  inv_applied : ∀ d src row, b < d ≤ w → s_sources s !! (d, src) = Some row →
    sr_state row = source_applied;
  inv_events : ∀ id e, s_events s !! id = Some e →
    event_id e = id ∧ is_Some (s_sources s !! (business_date e, source_system e)) }.

Lemma read_date_inv b w s missing :
  sim_inv b w s → read_date LAST_COMPLETED_DATE_KEY missing s = Ok w.
Proof.
  intros H. unfold read_date. rewrite (inv_watermark _ _ _ H).
  pose proof (inv_dates _ _ _ H). rewrite fromisoformat_isoformat by lia. done.
Qed.

Lemma initialize_inv b :
  1 ≤ b ≤ date_max → sim_inv b b (initialize b empty_sim).1.
Proof.
  intros Hb. split; simpl; try (intros; simplify_map_eq; done); try lia.
  intros d src. split; intros [? ?]; simplify_map_eq.
Qed.

(** The state after the [INSERT]s of [claim_run] on a date with no rows. *)
Definition claimed (d : date) (breach : bool) (s : sim_state) : sim_state :=
  let row := mkSourceRun source_pending 0 0 in
  set_sources (<[(d, erp) := row]> (<[(d, ops) := row]> (<[(d, crm) := row]> (s_sources s))))
    (set_runs (<[d := mkRun run_in_progress breach None]> (s_runs s)) s).

Lemma claimed_sources d breach s d' src :
  s_sources (claimed d breach s) !! (d', src) =
    if decide (d' = d) then Some (mkSourceRun source_pending 0 0) else s_sources s !! (d', src).
Proof.
  simpl. destruct (decide (d' = d)) as [->|N].
  - by destruct src; simplify_map_eq.
  - by rewrite !lookup_insert_ne by congruence.
Qed.

Lemma insert_source_fresh d src s :
  s_sources s !! (d, src) = None →
  insert_source d src s
  = (set_sources (<[(d, src) := mkSourceRun source_pending 0 0]> (s_sources s)) s, Ok tt).
Proof. intros H. unfold insert_source, io_bind, io_get. by rewrite H. Qed.

Lemma claim_inserts_fresh d seed s :
  (∀ src, s_sources s !! (d, src) = None) →
  claim_inserts (length SOURCES) d seed s
  = (claimed d (is_weekly_sla_breach_date d seed) s, Ok tt).
Proof.
  intros Hfree. unfold claim_inserts, insert_run, io_iter, SOURCES. simpl.
  unfold io_bind, io_modify. repeat (rewrite insert_source_fresh; simpl).
  all: by rewrite ?lookup_insert_ne by congruence.
Qed.

(** What [claim_run] does from a state whose watermark is [w]. *)
Definition claim_result (w d : date) (seed : Z) (s : sim_state) : sim_state * res bool :=
  if date_max <? w + 1 then (s, raise ValueError "ordinal must be a date")
  else if w + 1 <? d then (s, raise SimulationStateError "simulation dates must be claimed in order")
  else match s_runs s !! d with
       | Some row =>
           if decide (r_state row = run_completed) then (s, Ok false)
           else (set_runs (<[d := mkRun run_in_progress (r_breach row) None]> (s_runs s)) s, Ok true)
       | None => (claimed d (is_weekly_sla_breach_date d seed) s, Ok true)
       end.

Lemma fromordinal_next w :
  1 <= w <= date_max →
  fromordinal (w + 1) = if date_max <? w + 1 then raise ValueError "ordinal must be a date" else Ok (w + 1).
Proof.
  intros Hw. unfold fromordinal. rewrite (Z.leb_antisym date_max).
  destruct (Z.leb_spec 1 (w + 1)); [|lia]. by destruct (date_max <? w + 1).
Qed.

Lemma claim_run_spec b w s d seed :
  sim_inv b w s → claim_run d seed s = claim_result w d seed s.
Proof.
  intros H. unfold claim_run, claim_result. io_simpl.
  pose proof (inv_dates _ _ _ H). rewrite (read_date_inv b w), fromordinal_next by (done || lia).
  destruct (date_max <? w + 1); [done|]. simpl. destruct (w + 1 <? d); [done|]. io_simpl.
  destruct (s_runs s !! d) as [row|] eqn:Hrow.
  - by case_decide.
  - rewrite claim_inserts_fresh; [done|]. intros src. apply eq_None_not_Some.
    rewrite (inv_sources _ _ _ H), Hrow. by intros [? ?].
Qed.

Lemma claim_fresh_inv b w s d breach :
  sim_inv b w s → s_runs s !! d = None → d <= w + 1 → sim_inv b w (claimed d breach s).
Proof.
  intros H Hd Hle. pose proof H as [? ? ? Hb Hc Hg Hs Ho Ha He].
  assert (¬ (b < d <= w)) as Hnot.
  { intros Hr. destruct (Hg d Hr). congruence. }
  split; try done.
  - intros d' r. simpl. destruct (decide (d' = d)) as [->|]; simplify_map_eq; eauto.
  - intros d' r. simpl. destruct (decide (d' = d)) as [->|]; simplify_map_eq; [|eauto].
    intros [= <-]. simpl. split; [done|]. tauto.
  - intros d' Hr. simpl. destruct (decide (d' = d)) as [->|]; simplify_map_eq; eauto.
  - intros d' src. rewrite claimed_sources. simpl.
    case_decide; subst; simplify_map_eq; [split; eauto|apply Hs].
  - intros d' src src' row row'. rewrite !claimed_sources.
    case_decide; subst; [intros [= <-] [= <-] _; done|apply Ho].
  - intros d' src row Hr. rewrite claimed_sources. case_decide; subst; [tauto|by apply Ha].
  - intros id e Hid. destruct (He id e Hid) as [? Hsrc]. split; [done|].
    rewrite claimed_sources. case_decide; eauto.
Qed.

Lemma claim_run_inv b w d seed :
  preserves (sim_inv b w) (claim_run d seed).
Proof.
  intros s H. rewrite (claim_run_spec b w) by done. unfold claim_result.
  destruct (date_max <? w + 1); [done|]. destruct (Z.ltb_spec (w + 1) d); [done|].
  destruct (s_runs s !! d) as [row|] eqn:Hrow.
  - case_decide; [done|]. simpl. pose proof H as [? ? ? Hb Hc Hg Hs Ho Ha He].
    split; try done; simpl.
    + intros d' r. destruct (decide (d' = d)) as [->|]; simplify_map_eq; eauto.
    + intros d' r. destruct (decide (d' = d)) as [->|]; simplify_map_eq; [|eauto].
      intros [= <-]. simpl. rewrite <- (Hc _ _ Hrow). split; [done|congruence].
    + intros d' Hr. destruct (decide (d' = d)) as [->|]; simplify_map_eq; eauto.
    + intros d' src. rewrite Hs.
      destruct (decide (d' = d)) as [->|]; simplify_map_eq; [|done]. split; eauto.
  - by apply claim_fresh_inv.
Qed.

(** [mark_source_applied] succeeds only when every earlier source has applied. *)
Lemma existsb_unapplied d s l :
  existsb (unapplied d s) l = false →
  ∀ src row, src ∈ l → s_sources s !! (d, src) = Some row → sr_state row = source_applied.
Proof.
  intros Hex src row Hin Hrow. destruct (sr_state row) eqn:E; [exfalso|done].
  assert (existsb (unapplied d s) l = true) as Ht; [|congruence].
  apply existsb_exists. exists src. rewrite <- list_elem_of_In. split; [done|].
  unfold unapplied. rewrite Hrow, E. done.
Qed.

Lemma mark_inv b w d src g a :
  preserves (sim_inv b w) (mark_source_applied d src g a).
Proof.
  intros s H. unfold mark_source_applied, raise_if.
  destruct ((g <? 0) || (a <? 0)); [done|]. io_simpl. destruct (s_sources s !! (d, src)) as [old|] eqn:Hold; [|done].
  destruct (existsb _ _) eqn:Hex; [done|]. simpl.
  pose proof H as [? ? ? Hb Hc Hg Hs Ho Ha He]. split; try done; simpl.
  - intros d' src'. rewrite <- Hs. destruct (decide ((d, src) = (d', src'))); simplify_map_eq; [|done].
    split; eauto.
  - intros d' s1 s2 row1 row2 H1 H2 Hle Happ.
    destruct (decide ((d, src) = (d', s1))) as [|N1]; simplify_map_eq; [done|].
    destruct (decide ((d, src) = (d', s2))) as [|N2]; simplify_map_eq; [|eauto].
    eapply (existsb_unapplied _ _ _ Hex); [|done].
    destruct s1, s2; simpl in *; try lia; try congruence; set_solver.
  - intros d' s1 row Hr Hl. destruct (decide ((d, src) = (d', s1))); simplify_map_eq; eauto.
  - intros id e Hid. destruct (He id e Hid) as [? Hsrc]. split; [done|].
    destruct (decide ((d, src) = (business_date e, source_system e))) as [Heq|];
      [rewrite <- Heq|]; simplify_map_eq; eauto.
Qed.

(** The protocol the scheduler follows: a date is claimed before it is completed. *)
Lemma complete_run_spec b w s d :
  sim_inv b w s →
  complete_run d s =
    if date_max <? w + 1 then (s, raise ValueError "ordinal must be a date")
    else if negb (d =? w + 1) then
      (s, raise SimulationStateError "simulation dates must complete in order")
    else if pending_sources d s then
      (s, raise SimulationStateError "all source systems must apply before completion")
    else (set_metadata (<[LAST_COMPLETED_DATE_KEY := isoformat d]> (s_metadata s))
           (set_runs (alter (λ row, mkRun run_completed (r_breach row) (r_failure row)) d (s_runs s)) s),
          Ok tt).
Proof.
  intros H. unfold complete_run. io_simpl. pose proof (inv_dates _ _ _ H).
  rewrite (read_date_inv b w), fromordinal_next by (done || lia).
  destruct (date_max <? w + 1); [done|]. simpl. destruct (negb _); [done|]. simpl.
  by destruct (pending_sources d s).
Qed.

Lemma complete_inv b w s d s' :
  sim_inv b w s → is_Some (s_runs s !! d) → complete_run d s = (s', Ok tt) →
  d = w + 1 ∧ sim_inv b d s'.
Proof.
  intros H [row Hrow]. rewrite (complete_run_spec b w) by done.
  destruct (Z.ltb_spec date_max (w + 1)); [done|].
  destruct (Z.eqb_spec d (w + 1)) as [Hd|]; [|done]. simpl.
  destruct (pending_sources d s) eqn:Hp; [done|]. intros [= <-]. split; [done|].
  pose proof (existsb_unapplied _ _ _ Hp) as Happ.
  pose proof H as [? ? ? Hb Hc Hg Hs Ho Ha He].
  split; try done; simpl.
  - lia.
  - by simplify_map_eq.
  - by simplify_map_eq.
  - intros d' r Hr.
    destruct (decide (d' = d)) as [->|]; [lia|]. rewrite lookup_alter_ne in Hr by done.
    specialize (Hb _ _ Hr). lia.
  - intros d' r Hr. destruct (decide (d' = d)) as [->|].
    + rewrite lookup_alter_eq, Hrow in Hr. simplify_eq/=. split; [lia|done].
    + rewrite lookup_alter_ne in Hr by done. rewrite (Hc _ _ Hr). lia.
  - intros d' Hr. destruct (decide (d' = d)) as [->|].
    + rewrite lookup_alter_eq, Hrow. eauto.
    + rewrite lookup_alter_ne by done. apply Hg. lia.
  - intros d' src. rewrite Hs. destruct (decide (d' = d)) as [->|].
    + rewrite lookup_alter_eq, Hrow. split; eauto.
    + by rewrite lookup_alter_ne.
  - intros d' src r Hr Hl. destruct (decide (d' = d)) as [->|].
    + eapply Happ; [|exact Hl]. destruct src; unfold SOURCES; set_solver.
    + eapply Ha; [|exact Hl]. lia.
Qed.

Lemma record_event_inv b w e : preserves (sim_inv b w) (record_event e).
Proof.
  intros s H. unfold record_event. io_simpl.
  destruct (s_sources s !! (business_date e, source_system e)) as [row|] eqn:Hrow; [|done].
  destruct (s_events s !! event_id e) eqn:Hev; [done|]. simpl.
  pose proof H as [? ? ? Hb Hc Hg Hs Ho Ha He]. split; try done; simpl.
  intros id e'. destruct (decide (event_id e = id)) as [<-|]; simplify_map_eq; [|eauto].
  intros [= <-]. simpl. split; [done|]. rewrite Hrow. eauto.
Qed.

Lemma record_events_inv b w es : preserves (sim_inv b w) (record_events es).
Proof. apply preserves_fold. intros _ e _. apply record_event_inv. Qed.

(** ** The store as a transition system *)

(** One call of the store by the daily runners; a call that raises is a step too, and leaves
    the state as the exception finds it. [complete_run] is called for claimed dates only. *)
Inductive sim_step : sim_state → sim_state → Prop :=
| step_claim d seed s : sim_step s (claim_run d seed s).1
| step_mark d src g a s : sim_step s (mark_source_applied d src g a s).1
| step_record es s : sim_step s (record_events es s).1
| step_complete d s : is_Some (s_runs s !! d) → sim_step s (complete_run d s).1.

Lemma sim_step_inv b w s s' :
  sim_inv b w s → sim_step s s' → ∃ w', w ≤ w' ≤ w + 1 ∧ sim_inv b w' s'.
Proof.
  intros H. destruct 1 as [d seed s|d src g a s|es s|d s Hd].
  - exists w. split; [lia|]. by apply claim_run_inv.
  - exists w. split; [lia|]. by apply mark_inv.
  - exists w. split; [lia|]. by apply record_events_inv.
  - destruct (complete_run d s) as [s' [[]|e]] eqn:E; simpl.
    + destruct (complete_inv b w s d s') as [-> ?]; try done.
      exists (w + 1). split; [lia|done].
    + exists w. split; [lia|]. rewrite (complete_run_spec b w) in E by done.
      by repeat case_match; simplify_eq.
Qed.

Lemma sim_reach_inv b w s s' :
  sim_inv b w s → rtc sim_step s s' → ∃ w', w ≤ w' ∧ sim_inv b w' s'.
Proof.
  intros H Hr. revert w H. induction Hr as [s|s s1 s2 Hst Hr IH]; intros w H.
  - exists w. split; [lia|done].
  - destruct (sim_step_inv b w s s1) as (w1 & ? & H1); try done.
    destruct (IH w1 H1) as (w2 & ? & ?). exists w2. split; [lia|done].
Qed.

Lemma rtc_preserves {A} (R : relation A) (P : A → Prop) x y :
  (∀ x y, P x → R x y → P y) → P x → rtc R x y → P y.
Proof. intros Hstep Hx Hr. induction Hr; eauto. Qed.

(** C1: From a fresh store, whatever calls the runners make and in whatever order, retried or
    failing (but completing claimed dates only), the recorded watermark [w] never falls below the baseline, every business date
    after the baseline up to [w] has a completed run whose three sources have all applied, no
    date past [w + 1] has been claimed, and no date past [w] is recorded as completed. *)
Theorem watermark_means_applied (b : date) (s : sim_state) :
  1 ≤ b ≤ date_max →
  rtc sim_step (initialize b empty_sim).1 s →
  ∃ w, last_completed_date s = (s, Ok w) ∧ b ≤ w ∧
    baseline_completed_date s = (s, Ok b) ∧
    (∀ d, b < d ≤ w → ∃ r, s_runs s !! d = Some r ∧ r_state r = run_completed ∧
       ∀ src, ∃ row, s_sources s !! (d, src) = Some row ∧ sr_state row = source_applied) ∧
    (∀ d r, s_runs s !! d = Some r → d ≤ w + 1 ∧ (r_state r = run_completed → d ≤ w)).
Proof.
  intros Hb Hr. destruct (sim_reach_inv b b _ _ (initialize_inv b Hb) Hr) as (w & Hw & H).
  exists w. pose proof H as [? Hbase ? Hbound Hc Hg Hs Ho Ha He].
  split; [by unfold last_completed_date; rewrite (read_date_inv b w)|]. split; [done|].
  split.
  { unfold baseline_completed_date, read_date. by rewrite Hbase, fromisoformat_isoformat. }
  split.
  - intros d Hd. destruct (Hg d Hd) as [r Hr']. exists r. split; [done|]. split; [by apply (Hc d r)|].
    intros src. destruct (proj2 (Hs d src)) as [row Hrow]; [eauto|]. eauto.
  - intros d r Hd. split; [eauto|]. intros Hst. apply (Hc d r) in Hst; [lia|done].
Qed.

(** The calls the scheduler makes for one date. *)
Definition day_protocol (d : date) (seed : Z) (counts : SourceSystem → Z * Z) : io sim_state unit :=
  claim_run d seed ;;;
  io_iter (λ src, mark_source_applied d src (counts src).1 (counts src).2) SOURCES ;;;
  complete_run d.

Lemma mark_ok s d src g a row :
  0 ≤ g → 0 ≤ a → s_sources s !! (d, src) = Some row →
  existsb (unapplied d s) (take (source_index src) SOURCES) = false →
  mark_source_applied d src g a s
  = (set_sources (<[(d, src) := mkSourceRun source_applied g a]> (s_sources s)) s, Ok tt).
Proof.
  intros Hg Ha Hrow Hex. unfold mark_source_applied.
  destruct (Z.ltb_spec g 0), (Z.ltb_spec a 0); try lia. simpl. io_simpl. by rewrite Hrow, Hex.
Qed.

(** Marking the three sources in order applies them all. *)
Definition marked (d : date) (counts : SourceSystem → Z * Z) (s : sim_state) : sim_state :=
  let row src := mkSourceRun source_applied (counts src).1 (counts src).2 in
  set_sources (<[(d, erp) := row erp]> (<[(d, ops) := row ops]>
    (<[(d, crm) := row crm]> (s_sources s)))) s.

Lemma mark_all_ok s d counts :
  (∀ src, 0 ≤ (counts src).1 ∧ 0 ≤ (counts src).2) →
  (∀ src, is_Some (s_sources s !! (d, src))) →
  io_iter (λ src, mark_source_applied d src (counts src).1 (counts src).2) SOURCES s
  = (marked d counts s, Ok tt).
Proof.
  intros Hc Hrow.
  destruct (Hrow crm) as [r1 H1], (Hrow ops) as [r2 H2], (Hrow erp) as [r3 H3].
  unfold io_iter, SOURCES. cbn [io_fold]. unfold io_bind.
  rewrite (mark_ok _ _ crm _ _ r1) by (done || apply Hc).
  rewrite (mark_ok _ _ ops _ _ r2); try apply Hc; simpl.
  - rewrite (mark_ok _ _ erp _ _ r3); try apply Hc; simpl; [done| |].
    + by rewrite !lookup_insert_ne by congruence.
    + unfold unapplied; simpl. by simplify_map_eq.
  - by rewrite !lookup_insert_ne by congruence.
  - unfold unapplied; simpl. by simplify_map_eq.
Qed.

Lemma marked_pending d counts s : pending_sources d (marked d counts s) = false.
Proof. unfold pending_sources, unapplied, SOURCES, marked. simpl. by simplify_map_eq. Qed.

Lemma claim_ok b w s seed :
  sim_inv b w s → w < date_max →
  ∃ s', claim_run (w + 1) seed s = (s', Ok true) ∧ sim_inv b w s' ∧ is_Some (s_runs s' !! (w + 1)).
Proof.
  intros H Hw. pose proof (claim_run_inv b w (w + 1) seed s H) as Hinv.
  rewrite (claim_run_spec b w) in * by done. unfold claim_result in *.
  destruct (Z.ltb_spec date_max (w + 1)); [lia|]. rewrite Z.ltb_irrefl in *.
  destruct (s_runs s !! (w + 1)) as [row|] eqn:Hrow.
  - case_decide as Hst.
    + apply (inv_completed _ _ _ H _ _ Hrow) in Hst. lia.
    + eexists. split; [done|]. split; [done|]. simpl. by simplify_map_eq.
  - eexists. split; [done|]. split; [done|]. simpl. by simplify_map_eq.
Qed.

Lemma day_protocol_ok b w s seed counts :
  sim_inv b w s → w < date_max →
  (∀ src, 0 ≤ (counts src).1 ∧ 0 ≤ (counts src).2) →
  ∃ s', day_protocol (w + 1) seed counts s = (s', Ok tt) ∧ sim_inv b (w + 1) s' ∧
    ∀ src, s_sources s' !! (w + 1, src)
           = Some (mkSourceRun source_applied (counts src).1 (counts src).2).
Proof.
  intros H Hw Hc. destruct (claim_ok b w s seed H Hw) as (s1 & E1 & H1 & Hrun).
  assert (∀ src, is_Some (s_sources s1 !! (w + 1, src))) as Hsrc.
  { intros src. by apply (inv_sources _ _ _ H1). }
  pose proof (mark_all_ok s1 (w + 1) counts Hc Hsrc) as E2.
  assert (sim_inv b w (marked (w + 1) counts s1)) as H2.
  { replace (marked (w + 1) counts s1) with
      (io_iter (λ src, mark_source_applied (w + 1) src (counts src).1 (counts src).2) SOURCES s1).1
      by by rewrite E2.
    apply (preserves_fold (sim_inv b w)); [|done]. intros _ src _. apply mark_inv. }
  unfold day_protocol, io_bind at 1 2. rewrite E1, E2.
  destruct (complete_run (w + 1) (marked (w + 1) counts s1)) as [s' r] eqn:E3.
  pose proof E3 as E3'. rewrite (complete_run_spec b w), marked_pending in E3' by done.
  destruct (Z.ltb_spec date_max (w + 1)); [lia|]. rewrite Z.eqb_refl in E3'. simpl in E3'.
  injection E3' as Hs' Hr. subst r. exists s'. split; [done|]. split.
  - by eapply (complete_inv b w (marked (w + 1) counts s1)).
  - rewrite <- Hs'. intros src. simpl. by destruct src; simplify_map_eq.
Qed.

(** C20: A partial day can always be replayed. Whatever the runners did before, from any reachable
    state with watermark [w] the date [w + 1] can be claimed again, its sources marked in the
    order CRM, Ops, ERP and the date completed: no call fails, the watermark becomes [w + 1]
    and the counts recorded are those of the replay. *)
Theorem partial_day_replays (b : date) (s : sim_state) (seed : Z) (counts : SourceSystem → Z * Z) :
  1 ≤ b ≤ date_max →
  rtc sim_step (initialize b empty_sim).1 s →
  (∀ src, 0 ≤ (counts src).1 ∧ 0 ≤ (counts src).2) →
  ∃ w, last_completed_date s = (s, Ok w) ∧
    (w < date_max → ∃ s', day_protocol (w + 1) seed counts s = (s', Ok tt) ∧
       last_completed_date s' = (s', Ok (w + 1)) ∧
       ∀ src, s_sources s' !! (w + 1, src)
              = Some (mkSourceRun source_applied (counts src).1 (counts src).2)).
Proof.
  intros Hb Hr Hc. destruct (sim_reach_inv b b _ _ (initialize_inv b Hb) Hr) as (w & Hw & H).
  exists w. unfold last_completed_date. rewrite (read_date_inv b w) by done. split; [done|].
  intros Hlt. destruct (day_protocol_ok b w s seed counts H Hlt Hc) as (s' & E & H' & Hsrc).
  exists s'. by rewrite (read_date_inv b (w + 1)).
Qed.

(** An instance of the two theorems: one date applied from the baseline 2024-01-01, with a
    rejected out-of-order mark on the way. *)
Definition witness_state : sim_state :=
  let s0 := (initialize 738886 empty_sim).1 in
  let s1 := (claim_run 738887 42 s0).1 in
  let s2 := (mark_source_applied 738887 erp 1 1 s1).1 in
  (mark_source_applied 738887 crm 3 3 s2).1.

Lemma watermark_means_applied_witness :
  ∃ w, last_completed_date witness_state = (witness_state, Ok w) ∧ 738886 ≤ w.
Proof.
  destruct (watermark_means_applied 738886 witness_state) as (w & H1 & H2 & _).
  - split; vm_compute; discriminate.
  - unfold witness_state. eapply rtc_l; [apply (step_claim 738887 42)|].
    eapply rtc_l; [apply (step_mark 738887 erp 1 1)|].
    eapply rtc_l; [apply (step_mark 738887 crm 3 3)|]. reflexivity.
  - exists w. split; [exact H1|exact H2].
Defined.

Lemma partial_day_replays_witness :
  ∃ w, last_completed_date witness_state = (witness_state, Ok w) ∧
    (w < date_max → ∃ s', day_protocol (w + 1) 7 (λ _, (5, 4)) witness_state = (s', Ok tt) ∧
       last_completed_date s' = (s', Ok (w + 1)) ∧
       ∀ src, s_sources s' !! (w + 1, src) = Some (mkSourceRun source_applied 5 4)).
Proof.
  apply (partial_day_replays 738886 witness_state 7 (λ _, (5, 4))).
  - split; vm_compute; discriminate.
  - unfold witness_state. eapply rtc_l; [apply (step_claim 738887 42)|].
    eapply rtc_l; [apply (step_mark 738887 erp 1 1)|].
    eapply rtc_l; [apply (step_mark 738887 crm 3 3)|]. reflexivity.
  - intros src. split; vm_compute; discriminate.
Defined.

(** A date with a run row but without the row of [src] stays that way. *)
Lemma insert_source_frame d src d' src' s :
  (d, src) ≠ (d', src') →
  s_sources (insert_source d' src' s).1 !! (d, src) = s_sources s !! (d, src).
Proof.
  intros N. unfold insert_source. io_simpl.
  destruct (s_sources s !! (d', src')); simpl; [done|]. by rewrite lookup_insert_ne.
Qed.

Lemma insert_source_runs d' src' s : s_runs (insert_source d' src' s).1 = s_runs s.
Proof. unfold insert_source. io_simpl. by destruct (s_sources s !! (d', src')). Qed.

Definition stuck (d : date) (src : SourceSystem) (s : sim_state) : Prop :=
  is_Some (s_runs s !! d) ∧ s_sources s !! (d, src) = None.

Lemma inserts_stuck d src d' l :
  (d ≠ d' ∨ src ∉ l) → preserves (stuck d src) (io_iter (insert_source d') l).
Proof.
  intros Hd. apply preserves_fold. intros _ src' Hin s [Hr Hs]. split.
  - by rewrite insert_source_runs.
  - rewrite insert_source_frame; [done|]. intros [= -> ->]. naive_solver.
Qed.

Lemma claim_stuck d src d' seed : preserves (stuck d src) (claim_run d' seed).
Proof.
  intros s Hst. unfold claim_run. unfold io_bind at 1, io_get at 1. unfold io_bind at 1, io_lift at 1.
  destruct (read_date _ _ s) as [lc|e]; [|done]. unfold io_bind at 1, io_lift at 1.
  destruct (fromordinal (lc + 1)) as [next|e]; [|done]. unfold raise_if.
  destruct (next <? d'); [done|]. unfold io_bind at 1, io_ret at 1.
  destruct (s_runs s !! d') as [row|] eqn:Hrow.
  - case_decide; [done|]. destruct Hst as [Hr Hs]. split; [|done]. simpl.
    destruct (decide (d' = d)) as [->|]; simplify_map_eq; eauto.
  - assert (d ≠ d') as N by (intros ->; destruct Hst as [[? ?] _]; congruence).
    apply (preserves_bind (stuck d src)); [|intros; apply preserves_ret|done].
    apply preserves_bind; [|intros; by apply inserts_stuck; left].
    apply preserves_modify. intros t [Hr Hs]. split; [|done]. simpl. by simplify_map_eq.
Qed.

Lemma mark_stuck d src d' src' g a : preserves (stuck d src) (mark_source_applied d' src' g a).
Proof.
  intros s Hst. unfold mark_source_applied, raise_if.
  destruct ((g <? 0) || (a <? 0)); [done|]. io_simpl.
  destruct (s_sources s !! (d', src')) as [old|] eqn:Hold; [|done].
  destruct (existsb _ _); [done|]. destruct Hst as [Hr Hs]. split; [done|]. simpl.
  destruct (decide ((d', src') = (d, src))); simplify_map_eq; done.
Qed.

Lemma complete_stuck d src d' : preserves (stuck d src) (complete_run d').
Proof.
  intros s Hst. unfold complete_run, raise_if. io_simpl.
  destruct (read_date _ _ s) as [lc|e]; [|done]. simpl.
  destruct (fromordinal (lc + 1)) as [next|e]; [|done]. simpl.
  destruct (negb _); [done|]. simpl. destruct (pending_sources _ _); [done|]. simpl.
  destruct Hst as [Hr Hs]. split; [|done]. simpl.
  destruct (decide (d' = d)) as [->|].
  - rewrite lookup_alter_eq. by apply fmap_is_Some.
  - by rewrite lookup_alter_ne.
Qed.

Lemma record_stuck d src es : preserves (stuck d src) (record_events es).
Proof.
  apply preserves_fold. intros _ e _ s Hst. unfold record_event. io_simpl.
  destruct (s_sources s !! _); [|done]. by destruct (s_events s !! _).
Qed.

Lemma stuck_step d src s s' : stuck d src s → sim_step s s' → stuck d src s'.
Proof.
  intros Hst. destruct 1; [by apply claim_stuck | by apply mark_stuck |
    by apply record_stuck | by apply complete_stuck].
Qed.

Lemma source_index_take n src : src ∈ take n SOURCES → (source_index src < n)%nat.
Proof. destruct n as [|[|[|n]]]; destruct src; simpl; try lia; set_solver. Qed.

Lemma crashed_stuck d seed n src s :
  (∀ src, s_sources s !! (d, src) = None) → (n ≤ source_index src)%nat →
  stuck d src (claim_inserts n d seed s).1.
Proof.
  intros Hfree Hn. unfold claim_inserts, io_bind, insert_run, io_modify.
  apply (inserts_stuck d src d).
  - right. intros Hin%source_index_take. lia.
  - split; [|by apply Hfree]. simpl. by simplify_map_eq.
Qed.

(** A process that dies between the [INSERT]s of [claim_run] wedges the date for good: after
    the first [1 + n] of the four statements, no sequence of calls ever makes
    [mark_source_applied] accept a source whose row was not inserted, since [claim_run] only
    inserts the rows of a date that has no run row. *)
Theorem claim_crash_wedges_date (d : date) (seed : Z) (n : nat) (src : SourceSystem)
    (s s' : sim_state) (g a : Z) :
  (∀ src, s_sources s !! (d, src) = None) →
  (n ≤ source_index src)%nat → 0 ≤ g → 0 ≤ a →
  rtc sim_step (claim_inserts n d seed s).1 s' →
  mark_source_applied d src g a s'
  = (s', raise SimulationStateError "source run has not been claimed").
Proof.
  intros Hfree Hn Hg Ha Hr.
  assert (stuck d src s') as [_ Hnone].
  { eapply (rtc_preserves _ (stuck d src)); [|by apply crashed_stuck|exact Hr].
    intros x y. apply stuck_step. }
  unfold mark_source_applied. destruct (Z.ltb_spec g 0), (Z.ltb_spec a 0); try lia.
  simpl. io_simpl. by rewrite Hnone.
Qed.

Lemma claim_crash_wedges_date_witness :
  mark_source_applied 738887 ops 1 1 (claim_run 738887 42 (claim_inserts 1 738887 42
    (initialize 738886 empty_sim).1).1).1
  = ((claim_run 738887 42 (claim_inserts 1 738887 42 (initialize 738886 empty_sim).1).1).1,
     raise SimulationStateError "source run has not been claimed").
Proof.
  apply (claim_crash_wedges_date 738887 42 1 ops (initialize 738886 empty_sim).1).
  - intros src. reflexivity.
  - simpl. lia.
  - lia.
  - lia.
  - eapply rtc_l; [apply (step_claim 738887 42)|]. reflexivity.
Defined.

(** [mark_source_applied] on a claimed date enforces the CRM, Ops, ERP order: it either
    finds every earlier source applied and changes exactly the row it names, or raises and
    leaves the state as it was. *)
Theorem mark_enforces_order (b w d : date) (src : SourceSystem) (g a : Z) (s : sim_state) :
  sim_inv b w s → is_Some (s_runs s !! d) → 0 ≤ g → 0 ≤ a →
  (∀ src', (source_index src' < source_index src)%nat →
     ∃ row, s_sources s !! (d, src') = Some row ∧ sr_state row = source_applied) ∧
  mark_source_applied d src g a s
    = (set_sources (<[(d, src) := mkSourceRun source_applied g a]> (s_sources s)) s, Ok tt)
  ∨
  (∃ src' row, (source_index src' < source_index src)%nat ∧
     s_sources s !! (d, src') = Some row ∧ sr_state row = source_pending) ∧
  mark_source_applied d src g a s
    = (s, raise SimulationStateError "source systems must apply in CRM, Ops, ERP order").
Proof.
  intros H Hrun Hg Ha.
  assert (∀ src', is_Some (s_sources s !! (d, src'))) as Hrows
    by (intros; by apply (inv_sources _ _ _ H)).
  destruct (Hrows src) as [row Hrow].
  destruct (existsb (unapplied d s) (take (source_index src) SOURCES)) eqn:Hex.
  - right. split.
    + apply existsb_exists in Hex as (src' & Hin & Hun). rewrite <- list_elem_of_In in Hin.
      apply source_index_take in Hin. unfold unapplied in Hun.
      destruct (s_sources s !! (d, src')) as [row'|] eqn:Hrow'; [|done].
      exists src', row'. repeat split; try done.
      by destruct (sr_state row').
    + unfold mark_source_applied. destruct (Z.ltb_spec g 0), (Z.ltb_spec a 0); try lia.
      simpl. io_simpl. by rewrite Hrow, Hex.
  - left. split.
    + intros src' Hlt. destruct (Hrows src') as [row' Hrow']. exists row'. split; [done|].
      eapply (existsb_unapplied _ _ _ Hex); [|done].
      destruct src, src'; simpl in *; try lia; set_solver.
    + by eapply mark_ok.
Qed.

Lemma mark_enforces_order_witness :
  mark_source_applied 738886 erp 1 1 (initialize 738886 empty_sim).1
    = ((initialize 738886 empty_sim).1, raise SimulationStateError "source run has not been claimed") ∧
  (let s := (claim_run 738887 42 (initialize 738886 empty_sim).1).1 in
   (∀ src', (source_index src' < 2)%nat →
      ∃ row, s_sources s !! (738887, src') = Some row ∧ sr_state row = source_applied) ∧
   mark_source_applied 738887 erp 1 1 s
     = (set_sources (<[(738887, erp) := mkSourceRun source_applied 1 1]> (s_sources s)) s, Ok tt)
   ∨
   (∃ src' row, (source_index src' < 2)%nat ∧
      s_sources s !! (738887, src') = Some row ∧ sr_state row = source_pending) ∧
   mark_source_applied 738887 erp 1 1 s
     = (s, raise SimulationStateError "source systems must apply in CRM, Ops, ERP order")).
Proof.
  split; [reflexivity|].
  apply (mark_enforces_order 738886 738886 738887 erp 1 1).
  - apply claim_run_inv. apply initialize_inv. split; vm_compute; discriminate.
  - exists (mkRun run_in_progress (is_weekly_sla_breach_date 738887 42) None). vm_compute. reflexivity.
  - lia.
  - lia.
Defined.

(** ** Recording events *)

Lemma record_event_ok s e s' :
  record_event e s = (s', Ok tt) →
  is_Some (s_sources s !! (business_date e, source_system e)) ∧
  s_sources s' = s_sources s ∧ s_events s ⊆ s_events s' ∧ is_Some (s_events s' !! event_id e).
Proof.
  unfold record_event. io_simpl. destruct (s_sources s !! _) as [row|]; [|done].
  destruct (s_events s !! event_id e) as [old|] eqn:Hold; intros [= <-]; simpl.
  - by rewrite Hold.
  - repeat split; eauto; [by apply insert_subseteq|]. by simplify_map_eq.
Qed.

Lemma record_events_ok es s s' :
  record_events es s = (s', Ok tt) →
  s_sources s' = s_sources s ∧ s_events s ⊆ s_events s' ∧
  ∀ e, e ∈ es → is_Some (s_sources s !! (business_date e, source_system e)) ∧
                is_Some (s_events s' !! event_id e).
Proof.
  revert s. induction es as [|e es IH]; intros s H.
  - injection H as <-. split; [done|]. split; [done|]. intros e He. by apply elem_of_nil in He.
  - unfold record_events, io_iter in H. cbn [io_fold] in H. inv_ok H. destruct a.
    apply record_event_ok in Hm as (Hrow & Hs & Hsub & Hid).
    destruct (IH _ H) as (Hs' & Hsub' & Hall). split; [congruence|]. split; [by etrans|].
    intros x [->|Hx]%elem_of_cons; [|rewrite <- Hs; by apply Hall].
    split; [done|]. destruct Hid as [v Hv]. exists v. by eapply lookup_weaken.
Qed.

Lemma record_events_present es s :
  (∀ e, e ∈ es → is_Some (s_sources s !! (business_date e, source_system e)) ∧
                 is_Some (s_events s !! event_id e)) →
  record_events es s = (s, Ok tt).
Proof.
  induction es as [|e es IH]; intros Hall; [done|].
  unfold record_events, io_iter. cbn [io_fold]. unfold io_bind, record_event at 1. io_simpl.
  destruct (Hall e) as [[row ->] [old ->]]; [set_solver|].
  apply IH. intros x Hx. apply Hall. set_solver.
Qed.

(** Recording events is idempotent and never overwrites: when a call of [record_events]
    returns, all its events are stored, the events stored before are unchanged, and repeating
    the call (a retry after a crash) or any part of it returns with the state unchanged. *)
Theorem record_events_idempotent (es es' : list SourceEvent) (s s' : sim_state) :
  record_events es s = (s', Ok tt) → es' ⊆ es →
  s_events s ⊆ s_events s' ∧ (∀ e, e ∈ es → is_Some (s_events s' !! event_id e)) ∧
  record_events es' s' = (s', Ok tt).
Proof.
  intros H Hsub. apply record_events_ok in H as (Hs & Hev & Hall).
  split; [done|]. split; [intros e He; by apply Hall|].
  apply record_events_present. intros e He. rewrite Hs. by apply Hall, Hsub.
Qed.

Definition witness_event : SourceEvent :=
  mkEvent "crm-1" 738887 crm "customer_created" "CUST-1" ∅ 738887 None.
Definition witness_claimed : sim_state := (claim_run 738887 42 (initialize 738886 empty_sim).1).1.

Lemma record_events_idempotent_witness :
  record_events [witness_event] (record_events [witness_event] witness_claimed).1
  = ((record_events [witness_event] witness_claimed).1, Ok tt).
Proof.
  apply (record_events_idempotent [witness_event] [witness_event] witness_claimed).
  - reflexivity.
  - intros x Hx. exact Hx.
Defined.

(** ** Due dates *)

Lemma date_range_lookup first last i :
  (i < Z.to_nat (last - first + 1))%nat → date_range first last !! i = Some (first + Z.of_nat i).
Proof. intros Hi. unfold date_range. by rewrite list_lookup_fmap, lookup_seq_lt. Qed.

Lemma date_range_cons first last :
  first ≤ last → date_range first last = first :: date_range (first + 1) last.
Proof.
  intros H. unfold date_range.
  replace (Z.to_nat (last - first + 1)) with (S (Z.to_nat (last - (first + 1) + 1))) by lia.
  cbn [seq fmap list_fmap]. f_equal; [lia|].
  apply list_eq. intros i. rewrite !list_lookup_fmap.
  destruct (decide (i < Z.to_nat (last - (first + 1) + 1))%nat).
  - rewrite !lookup_seq_lt by done. simpl. f_equal. lia.
  - rewrite !lookup_seq_ge by lia. done.
Qed.

Lemma date_range_nil first last : last < first → date_range first last = [].
Proof. intros H. unfold date_range. by replace (Z.to_nat (last - first + 1)) with 0%nat by lia. Qed.

Lemma elem_of_date_range first last d : d ∈ date_range first last ↔ first ≤ d ≤ last.
Proof.
  unfold date_range. rewrite list_elem_of_fmap. split.
  - intros (i & -> & Hi%elem_of_seq). lia.
  - intros Hd. exists (Z.to_nat (d - first)). split; [lia|]. apply elem_of_seq. lia.
Qed.

Lemma due_dates_spec b w s through :
  sim_inv b w s → due_dates through s = (s, Ok (date_range (w + 1) through)).
Proof.
  intros H. unfold due_dates, last_completed_date. io_simpl. rewrite (read_date_inv b w) by done.
  destruct (Z.leb_spec through w); simpl; [|done]. by rewrite date_range_nil by lia.
Qed.

(** Claiming a date, marking its sources and completing it for each due date in turn. *)
Definition run_due (through : date) (seed : Z) (counts : date → SourceSystem → Z * Z)
    : io sim_state unit :=
  let* due := due_dates through in
  io_iter (λ d, day_protocol d seed (counts d)) due.

Lemma run_range_ok b last seed counts :
  (∀ d src, 0 ≤ (counts d src).1 ∧ 0 ≤ (counts d src).2) →
  ∀ n w s, sim_inv b w s → w + Z.of_nat n = last → last ≤ date_max →
  ∃ s', io_iter (λ d, day_protocol d seed (counts d)) (date_range (w + 1) last) s = (s', Ok tt) ∧
        sim_inv b last s'.
Proof.
  intros Hc n. induction n as [|n IH]; intros w s H Hn Hmax.
  - rewrite date_range_nil by lia. exists s. split; [done|]. by replace last with w by lia.
  - rewrite date_range_cons by lia. unfold io_iter. cbn [io_fold].
    destruct (day_protocol_ok b w s seed (counts (w + 1)) H) as (s1 & E & H1 & _);
      [lia|apply Hc|].
    destruct (IH (w + 1) s1 H1) as (s' & E' & H'); [lia|done|].
    exists s'. split; [|done]. unfold io_bind. by rewrite E.
Qed.

(** Catching up is complete and in order: from any reachable state the due dates are exactly
    the dates after the watermark up to [through_date], and running the daily protocol for
    them raises nothing and leaves the watermark at [through_date] (where it was, when there
    is nothing due). *)
Theorem due_dates_catch_up (b through_date : date) (seed : Z) (counts : date → SourceSystem → Z * Z)
    (s : sim_state) :
  1 ≤ b ≤ date_max → through_date ≤ date_max →
  rtc sim_step (initialize b empty_sim).1 s →
  (∀ d src, 0 ≤ (counts d src).1 ∧ 0 ≤ (counts d src).2) →
  ∃ w due, last_completed_date s = (s, Ok w) ∧ due_dates through_date s = (s, Ok due) ∧
    (∀ d, d ∈ due ↔ w < d ≤ through_date) ∧
    (∀ i d d', due !! i = Some d → due !! S i = Some d' → d' = d + 1) ∧
    ∃ s', run_due through_date seed counts s = (s', Ok tt) ∧
          last_completed_date s' = (s', Ok (Z.max w through_date)).
Proof.
  intros Hb Hmax Hr Hc. destruct (sim_reach_inv b b _ _ (initialize_inv b Hb) Hr) as (w & _ & H).
  exists w, (date_range (w + 1) through_date). rewrite (due_dates_spec b w) by done.
  split; [by unfold last_completed_date; rewrite (read_date_inv b w)|]. split; [done|].
  split; [intros d; rewrite elem_of_date_range; lia|]. split.
  - intros i d d' Hi Hi'.
    assert (S i < Z.to_nat (through_date - (w + 1) + 1))%nat as Hlt.
    { apply lookup_lt_Some in Hi'. unfold date_range in Hi'.
      by rewrite length_fmap, length_seq in Hi'. }
    rewrite date_range_lookup in Hi, Hi' by lia. simplify_eq. lia.
  - destruct (run_range_ok b (Z.max w through_date) seed counts Hc
      (Z.to_nat (Z.max w through_date - w)) w s H) as (s' & E & H'); [lia| |].
    { pose proof (inv_dates _ _ _ H). lia. }
    exists s'. unfold last_completed_date, run_due, io_bind. rewrite (due_dates_spec b w) by done.
    rewrite (read_date_inv b (Z.max w through_date)) by done. split; [|done].
    destruct (Z.max_spec w through_date) as [[? Hm]|[? Hm]]; rewrite Hm in E; [done|].
    rewrite date_range_nil in E |- * by lia. done.
Qed.

Lemma due_dates_catch_up_witness :
  ∃ w due, last_completed_date witness_claimed = (witness_claimed, Ok w) ∧
    due_dates 738890 witness_claimed = (witness_claimed, Ok due) ∧
    (∀ d, d ∈ due ↔ w < d ≤ 738890) ∧
    (∀ i d d', due !! i = Some d → due !! S i = Some d' → d' = d + 1) ∧
    ∃ s', run_due 738890 42 (λ _ _, (1, 1)) witness_claimed = (s', Ok tt) ∧
          last_completed_date s' = (s', Ok (Z.max w 738890)).
Proof.
  apply (due_dates_catch_up 738886 738890 42 (λ _ _, (1, 1)) witness_claimed).
  - split; vm_compute; discriminate.
  - vm_compute. discriminate.
  - eapply rtc_l; [apply (step_claim 738887 42)|]. reflexivity.
  - intros d src. split; vm_compute; discriminate.
Defined.

(** [complete_run] itself does not ask that the date was claimed: on the next date with no
    rows it succeeds and moves the watermark past a date to which no source applied anything. *)
Theorem complete_run_unclaimed (b w : date) (s : sim_state) :
  sim_inv b w s → w < date_max → s_runs s !! (w + 1) = None →
  ∃ s', complete_run (w + 1) s = (s', Ok tt) ∧
    last_completed_date s' = (s', Ok (w + 1)) ∧
    s_runs s' !! (w + 1) = None ∧ ∀ src, s_sources s' !! (w + 1, src) = None.
Proof.
  intros H Hw Hrun. pose proof (inv_dates _ _ _ H).
  assert (∀ src, s_sources s !! (w + 1, src) = None) as Hnone.
  { intros src. apply eq_None_not_Some. rewrite (inv_sources _ _ _ H), Hrun. by intros [? ?]. }
  rewrite (complete_run_spec b w) by done.
  destruct (Z.ltb_spec date_max (w + 1)); [lia|]. rewrite Z.eqb_refl. simpl.
  unfold pending_sources, unapplied, SOURCES. simpl. rewrite !Hnone. simpl.
  eexists. split; [done|]. unfold last_completed_date, read_date. simpl.
  rewrite lookup_insert_eq, fromisoformat_isoformat by lia.
  split; [done|]. by rewrite lookup_alter_eq, Hrun.
Qed.

Lemma complete_run_unclaimed_witness :
  let s := (initialize 738886 empty_sim).1 in
  ∃ s', complete_run 738887 s = (s', Ok tt) ∧
    last_completed_date s' = (s', Ok 738887) ∧
    s_runs s' !! 738887 = None ∧ ∀ src, s_sources s' !! (738887, src) = None.
Proof.
  apply (complete_run_unclaimed 738886 738886).
  - apply initialize_inv. split; vm_compute; discriminate.
  - reflexivity.
  - reflexivity.
Defined.
