(* ===== verification/Soql.v ===== *)
(** * The SOQL parser: [fakeforce/soql.py]

    Tokenizer, syntax tree and recursive-descent parser, with the exceptions and their
    messages. A parser state is the list of the tokens not yet consumed ([tokens[index:]]).
    The loops of the code run here on fuel that the input's length bounds;
    [parse_soql_errors] shows that it never runs out. A printer gives the round trip. *)

From stdpp Require Import prelude gmap strings list.
From Stdlib Require Import ZArith Lia Ascii Floats.SpecFloat.
From S2P Require Import Prelude PyText PyNum.

Open Scope Z_scope.

(** ** Python's [repr] of a string *)

Definition dquote : ascii := chr 34.

Definition repr_char (q c : ascii) : list ascii :=
  let n := code c in
  if bool_decide (c = q) || (n =? 92) then ["\"%char; c]
  else if n =? 9 then chars "\t" else if n =? 10 then chars "\n" else if n =? 13 then chars "\r"
  else if in_range 32 126 c || (in_range 161 255 c && negb (n =? 173)) then [c]
  else "\"%char :: "x"%char :: (let hex d := if d <? 10 then chr (48 + d) else chr (87 + d) in
                                [hex (n / 16); hex (n mod 16)]).

Definition py_repr (s : string) : string :=
  let q := if existsb (λ c, bool_decide (c = "'"%char)) (chars s)
              && negb (existsb (λ c, bool_decide (c = dquote)) (chars s))
           then dquote else "'"%char in
  str (q :: (chars s ≫= repr_char q) ++ [q]).

(** ** Syntax *)

(** A literal value: [None], a [bool], an [int], a [float] or a [str]. *)
Inductive literal :=
| LNull
| LBool (b : bool)
| LInt (z : Z)
| LFloat (f : f64)
| LStr (s : string).

Inductive cmp_operator := OpEq | OpNe | OpGt | OpGe | OpLt | OpLe | OpLike.

#[export] Instance cmp_operator_eq_dec : EqDecision cmp_operator.
Proof. solve_decision. Defined.

Definition operator_text (o : cmp_operator) : string :=
  match o with
  | OpEq => "=" | OpNe => "!=" | OpGt => ">" | OpGe => ">=" | OpLt => "<" | OpLe => "<="
  | OpLike => "LIKE"
  end.

Inductive predicate :=
| Comparison (field : string) (operator : cmp_operator) (value : literal)
| InComparison (field : string) (values : list literal).

Record OrderBy := mkOrderBy { ob_field : string; ob_direction : string; ob_nulls : string }.

Record SelectQuery := mkQuery {
  q_fields : list string;
  q_object : string;
  q_predicates : list predicate;
  q_order_by : option OrderBy;
  q_limit : option Z;
  q_offset : Z }.

(** ** Tokens *)

Inductive token_kind :=
| STRING | COMMA | LPAREN | RPAREN | STAR | OPERATOR | KEYWORD | WORD.

#[export] Instance token_kind_eq_dec : EqDecision token_kind.
Proof. solve_decision. Defined.

Definition kind_name (k : token_kind) : string :=
  match k with
  | STRING => "STRING" | COMMA => "COMMA" | LPAREN => "LPAREN" | RPAREN => "RPAREN"
  | STAR => "STAR" | OPERATOR => "OPERATOR" | KEYWORD => "KEYWORD" | WORD => "WORD"
  end.

Record Token := mkToken { t_kind : token_kind; t_value : string; t_position : Z }.

Definition KEYWORDS : list string :=
  ["SELECT"; "FROM"; "WHERE"; "AND"; "IN"; "LIKE"; "ORDER"; "BY"; "ASC"; "DESC";
   "NULLS"; "FIRST"; "LAST"; "LIMIT"; "OFFSET"].

Definition is_keyword (s : string) : bool := existsb (String.eqb s) KEYWORDS.

Definition punctuation (c : ascii) : option token_kind :=
  if bool_decide (c = ","%char) then Some COMMA
  else if bool_decide (c = "("%char) then Some LPAREN
  else if bool_decide (c = ")"%char) then Some RPAREN
  else if bool_decide (c = "*"%char) then Some STAR
  else None.

Definition member (c : ascii) (s : string) : bool := existsb (λ x, bool_decide (c = x)) (chars s).

Definition is_operator_char (c : ascii) : bool := member c "<>=!".

(** The characters of an unquoted word. *)
Definition is_word_char (c : ascii) : bool := negb (is_space c) && negb (member c "',()*<>=!").

Definition operator_of (s : string) : option cmp_operator :=
  if String.eqb s "=" then Some OpEq
  else if String.eqb s "!=" then Some OpNe
  else if String.eqb s ">" then Some OpGt
  else if String.eqb s ">=" then Some OpGe
  else if String.eqb s "<" then Some OpLt
  else if String.eqb s "<=" then Some OpLe
  else None.

(** The inner loop on a string literal, from the character after the opening quote: its
    value, what follows the closing quote, and how many characters were consumed. *)
Fixpoint scan_string (l : list ascii) : option (list ascii * list ascii * Z) :=
  match l with
  | [] => None
  | c :: l1 =>
    if bool_decide (c = "'"%char) then
      match l1 with
      | c' :: l2 =>
        if bool_decide (c' = "'"%char) then
          match scan_string l2 with
          | Some (v, rest, n) => Some ("'"%char :: v, rest, n + 2)
          | None => None
          end
        else Some ([], l1, 1)
      | [] => Some ([], [], 1)
      end
    else match scan_string l1 with
         | Some (v, rest, n) => Some (c :: v, rest, n + 1)
         | None => None
         end
  end.

Fixpoint scan_word (l : list ascii) : list ascii * list ascii :=
  match l with
  | c :: l' => if is_word_char c then let '(w, rest) := scan_word l' in (c :: w, rest) else ([], l)
  | [] => ([], [])
  end.

Definition word_token (value : string) (start : Z) : Token :=
  if is_keyword (upper value) then mkToken KEYWORD (upper value) start else mkToken WORD value start.

Definition out_of_fuel {A} : res A := raise AssertionError "out of fuel".

(** One iteration of the loop of [tokenize]: the token found, if any, the rest of the
    source and the index of the rest. *)
Definition next_token (index : Z) (c : ascii) (l : list ascii)
    : res (option Token * list ascii * Z) :=
  if is_space c then Ok (None, l, index + 1)
  else if bool_decide (c = "'"%char) then
    match scan_string l with
    | Some (v, rest, n) => Ok (Some (mkToken STRING (str v) index), rest, index + 1 + n)
    | None => raise SoqlSyntaxError ("unterminated string at position " +:+ str_of_Z index)
    end
  else match punctuation c with
  | Some k => Ok (Some (mkToken k (str [c]) index), l, index + 1)
  | None =>
    if is_operator_char c then
      let eq := match l with c' :: _ => bool_decide (c' = "="%char) | [] => false end in
      let operator := str (if eq then [c; "="%char] else [c]) in
      match operator_of operator with
      | Some _ => Ok (Some (mkToken OPERATOR operator index),
                      if eq then tail l else l, index + (if eq then 2 else 1))
      | None => raise SoqlSyntaxError ("invalid operator " +:+ py_repr operator
                                       +:+ " at position " +:+ str_of_Z index)
      end
    else
      let '(w, rest) := scan_word (c :: l) in
      match w with
      | [] => raise SoqlSyntaxError ("unexpected character " +:+ py_repr (str [c])
                                     +:+ " at position " +:+ str_of_Z index)
      | _ => Ok (Some (word_token (str w) index), rest, index + Z.of_nat (length w))
      end
  end.

Fixpoint tokenize_loop (fuel : nat) (index : Z) (l : list ascii) : res (list Token) :=
  match l with
  | [] => Ok []
  | c :: l' =>
    match fuel with
    | O => out_of_fuel
    | S fuel =>
      let! (t, rest, index') := next_token index c l' in
      let! ts := tokenize_loop fuel index' rest in
      Ok (match t with Some t => t :: ts | None => ts end)
    end
  end.

Definition tokenize (source : string) : res (list Token) :=
  tokenize_loop (length (chars source)) 0 (chars source).

(** ** The parser *)

Abbreviation parser := (io (list Token)).

Definition at_position (t : option Token) : string :=
  match t with
  | None => "end of query"
  | Some t => "position " +:+ str_of_Z (t_position t)
  end.

Definition syntax_error {A} (msg : string) : parser A := io_raise SoqlSyntaxError msg.

Definition _peek : parser (option Token) := λ ts, (ts, Ok (head ts)).
Definition _advance : parser (option Token) := λ ts, (tail ts, Ok (head ts)).

Definition keyword_is (value : string) (t : option Token) : bool :=
  match t with
  | Some t => bool_decide (t_kind t = KEYWORD) && String.eqb (t_value t) value
  | None => false
  end.
Definition kind_is (k : token_kind) (t : option Token) : bool :=
  match t with
  | Some t => bool_decide (t_kind t = k)
  | None => false
  end.

Definition _peek_keyword (value : string) : parser bool :=
  let* t := _peek in io_ret (keyword_is value t).

Definition _accept_keyword (value : string) : parser bool :=
  let* b := _peek_keyword value in
  if b then let* _ := _advance in io_ret true else io_ret false.

Definition _accept (kind : token_kind) : parser bool :=
  let* t := _peek in
  if kind_is kind t then let* _ := _advance in io_ret true else io_ret false.

Definition _expect_keyword (values : list string) : parser Token :=
  let* t := _advance in
  match t with
  | Some tok => if existsb (λ v, keyword_is v t) values then io_ret tok
                else syntax_error ("expected " +:+ join " or " values +:+ " at " +:+ at_position t)
  | None => syntax_error ("expected " +:+ join " or " values +:+ " at " +:+ at_position t)
  end.

Definition _expect (kind : token_kind) : parser Token :=
  let* t := _advance in
  match t with
  | Some tok => if kind_is kind t then io_ret tok
                else syntax_error ("expected " +:+ kind_name kind +:+ " at " +:+ at_position t)
  | None => syntax_error ("expected " +:+ kind_name kind +:+ " at " +:+ at_position t)
  end.

Definition _identifier : parser string :=
  let* t := _expect WORD in io_ret (t_value t).

(** ** Literals *)

Fixpoint span_digits (l : list ascii) : list ascii * list ascii :=
  match l with
  | c :: l' => if is_decimal c then let '(d, rest) := span_digits l' in (c :: d, rest) else ([], l)
  | [] => ([], [])
  end.

(** The parts of a text that [_NUMERIC_LITERAL] matches in full: sign, integer digits, the
    digits after a point, and the exponent. *)
Record numeral := mkNumeral {
  n_negative : bool;
  n_integer : list ascii;
  n_fraction : option (list ascii);
  n_exponent : option Z }.

Definition exponent_part (l : list ascii) : option (option Z) :=
  match l with
  | [] => Some None
  | c :: l =>
    if bool_decide (c = "e"%char) || bool_decide (c = "E"%char) then
      let '(neg, l) := match l with
                       | s :: l' => if bool_decide (s = "-"%char) then (true, l')
                                    else if bool_decide (s = "+"%char) then (false, l') else (false, l)
                       | [] => (false, [])
                       end in
      let '(d, rest) := span_digits l in
      match d, rest with
      | _ :: _, [] => match digits_value 0 d with
                      | Some e => Some (Some (if neg then - e else e))
                      | None => None
                      end
      | _, _ => None
      end
    else None
  end.

Definition numeric_literal (s : string) : option numeral :=
  let l := chars s in
  let '(neg, l) := match l with
                   | c :: l' => if bool_decide (c = "-"%char) then (true, l') else (false, l)
                   | [] => (false, [])
                   end in
  let '(ip, l) := span_digits l in
  let '(fp, l) := match l with
                  | c :: l' => if bool_decide (c = "."%char)
                               then let '(d, rest) := span_digits l' in (Some d, rest) else (None, l)
                  | [] => (None, [])
                  end in
  if bool_decide (ip = []) && bool_decide (default [] fp = []) then None
  else match exponent_part l with
       | Some e => Some (mkNumeral neg ip fp e)
       | None => None
       end.

Definition int_literal (neg : bool) (digits : list ascii) : res literal :=
  let n := Z.of_nat (length digits) in
  if max_str_digits <? n then
    raise ValueError ("Exceeds the limit (4300 digits) for integer string conversion: value has "
      +:+ str_of_Z n +:+ " digits; use sys.set_int_max_str_digits() to increase the limit")
  else let v := default 0 (digits_value 0 digits) in Ok (LInt (if neg then - v else v)).

Definition float_literal (n : numeral) : f64 :=
  let fp := default [] (n_fraction n) in
  let m := default 0 (digits_value 0 (n_integer n ++ fp)) in
  let x := f64_literal m (default 0 (n_exponent n) - Z.of_nat (length fp)) in
  if n_negative n then SFopp x else x.

(** The value of an unquoted word. *)
Definition word_literal (value : string) : res literal :=
  let u := upper value in
  if String.eqb u "NULL" then Ok LNull
  else if String.eqb u "TRUE" then Ok (LBool true)
  else if String.eqb u "FALSE" then Ok (LBool false)
  else match numeric_literal value with
       | Some n => match n_fraction n, n_exponent n with
                   | None, None => int_literal (n_negative n) (n_integer n)
                   | _, _ => Ok (LFloat (float_literal n))
                   end
       | None => Ok (LStr value)
       end.

Definition _literal : parser literal :=
  let* t := _advance in
  match t with
  | None => syntax_error "expected literal at end of query"
  | Some t =>
    if decide (t_kind t = STRING) then io_ret (LStr (t_value t))
    else if decide (t_kind t = WORD) then io_lift (word_literal (t_value t))
    else syntax_error ("expected literal at position " +:+ str_of_Z (t_position t))
  end.

Definition _integer (clause : string) : parser Z :=
  let* v := _literal in
  match v with
  | LInt z => if z <? 0 then syntax_error (clause +:+ " requires a non-negative integer")
              else io_ret z
  | _ => syntax_error (clause +:+ " requires a non-negative integer")
  end.

(** ** Clauses *)

(** [while accept: append(item)]; each iteration consumes a token. *)
Fixpoint more {A} (fuel : nat) (accept : parser bool) (item : parser A) : parser (list A) :=
  match fuel with
  | O => io_lift out_of_fuel
  | S fuel =>
    let* b := accept in
    if b then let* x := item in let* xs := more fuel accept item in io_ret (x :: xs)
    else io_ret []
  end.

Definition more_of {A} (accept : parser bool) (item : parser A) : parser (list A) :=
  let* ts := io_get in more (S (length ts)) accept item.

Definition _fields : parser (list string) :=
  let* star := _accept STAR in
  if star then io_ret ["*"]
  else let* f := _identifier in
       let* fs := more_of (_accept COMMA) _identifier in
       io_ret (f :: fs).

Definition comparison_operator (s : string) : cmp_operator := default OpEq (operator_of s).

Definition _predicate : parser predicate :=
  let* field := _identifier in
  let* is_in := _accept_keyword "IN" in
  if is_in then
    let* _ := _expect LPAREN in
    let* v := _literal in
    let* vs := more_of (_accept COMMA) _literal in
    let* _ := _expect RPAREN in
    io_ret (InComparison field (v :: vs))
  else
    let* is_like := _accept_keyword "LIKE" in
    if is_like then let* v := _literal in io_ret (Comparison field OpLike v)
    else
      let* t := _expect OPERATOR in
      let* v := _literal in
      io_ret (Comparison field (comparison_operator (t_value t)) v).

Definition where_clause : parser (list predicate) :=
  let* b := _accept_keyword "WHERE" in
  if b then
    let* p := _predicate in
    let* ps := more_of (_accept_keyword "AND") _predicate in
    io_ret (p :: ps)
  else io_ret [].

(** [_advance().value] after one of the two keywords was seen; [None] is not reached there. *)
Definition order_direction : parser string :=
  let* asc := _peek_keyword "ASC" in
  let* desc := _peek_keyword "DESC" in
  if asc || desc then let* t := _advance in io_ret (default "" (t_value <$> t))
  else io_ret "ASC".

Definition order_clause : parser (option OrderBy) :=
  let* b := _accept_keyword "ORDER" in
  if b then
    let* _ := _expect_keyword ["BY"] in
    let* field := _identifier in
    let* direction := order_direction in
    let* b := _accept_keyword "NULLS" in
    let* nulls := if b then let* t := _expect_keyword ["FIRST"; "LAST"] in io_ret (t_value t)
                  else io_ret "LAST" in
    io_ret (Some (mkOrderBy field direction nulls))
  else io_ret None.

Definition limit_clause : parser (option Z) :=
  let* b := _accept_keyword "LIMIT" in
  if b then let* n := _integer "LIMIT" in io_ret (Some n) else io_ret None.

Definition offset_clause : parser Z :=
  let* b := _accept_keyword "OFFSET" in
  if b then _integer "OFFSET" else io_ret 0.

Definition at_end : parser unit :=
  let* t := _peek in
  match t with
  | None => io_ret tt
  | Some t => syntax_error ("unexpected " +:+ py_repr (t_value t) +:+ " at position "
                            +:+ str_of_Z (t_position t))
  end.

(** [_Parser.parse] *)
Definition parse : parser SelectQuery :=
  let* _ := _expect_keyword ["SELECT"] in
  let* fields := _fields in
  let* _ := _expect_keyword ["FROM"] in
  let* object_name := _identifier in
  let* predicates := where_clause in
  let* order_by := order_clause in
  let* limit := limit_clause in
  let* offset := offset_clause in
  let* _ := at_end in
  io_ret (mkQuery fields object_name predicates order_by limit offset).

Definition parse_soql (source : string) : res SelectQuery :=
  let! ts := tokenize source in (parse ts).2.

Example parse_ex :
  parse_soql "select Id, Name from account where Name like 'O''%' and Type in (A, 3, null) order by Id desc nulls first limit 5 offset 2"
  = Ok (mkQuery ["Id"; "Name"] "account"
      [Comparison "Name" OpLike (LStr "O'%"); InComparison "Type" [LStr "A"; LInt 3; LNull]]
      (Some (mkOrderBy "Id" "DESC" "FIRST")) (Some 5) 2).
Proof. vm_compute. reflexivity. Qed.

Example parse_error_ex :
  parse_soql "select Id from account limit -1"
  = raise SoqlSyntaxError "LIMIT requires a non-negative integer" ∧
  parse_soql "select Id from account where Name ! 'a'"
  = raise SoqlSyntaxError "invalid operator '!' at position 34" ∧
  parse_soql "select Id from account where X = 1.5e1 "
  = Ok (mkQuery ["Id"] "account" [Comparison "X" OpEq (LFloat (f64_of_Z 15))] None None 0).
Proof. vm_compute. done. Qed.

(** ** Well-formed queries *)

(** What the tokenizer accepts as a [WORD] token. *)
Definition wf_word (s : string) : Prop :=
  chars s ≠ [] ∧ Forall (λ c, is_word_char c = true) (chars s) ∧ is_keyword (upper s) = false.

Definition wf_int (z : Z) : Prop := Z.of_nat (length (dec_digits (Z.abs z))) ≤ max_str_digits.

Definition wf_literal (l : literal) : Prop :=
  match l with LInt z => wf_int z | _ => True end.

Definition wf_predicate (p : predicate) : Prop :=
  match p with
  | Comparison f _ v => wf_word f ∧ wf_literal v
  | InComparison f vs => wf_word f ∧ vs ≠ [] ∧ Forall wf_literal vs
  end.

Definition wf_order (o : OrderBy) : Prop :=
  wf_word (ob_field o) ∧ (ob_direction o = "ASC" ∨ ob_direction o = "DESC") ∧
  (ob_nulls o = "FIRST" ∨ ob_nulls o = "LAST").

Definition wf_count (n : Z) : Prop := 0 ≤ n ∧ wf_int n.

Record wf_query (q : SelectQuery) : Prop := {
  wf_fields : q_fields q = ["*"] ∨ q_fields q ≠ [] ∧ Forall wf_word (q_fields q);
  wf_object : wf_word (q_object q);
  wf_predicates : Forall wf_predicate (q_predicates q);
  wf_order_by : ∀ o, q_order_by q = Some o → wf_order o;
  wf_limit : ∀ n, q_limit q = Some n → wf_count n;
  wf_offset : wf_count (q_offset q) }.

(** The exceptions [parse_soql] raises: its own, and the [ValueError] of [int] on an integer
    literal of more than 4300 digits. *)
Definition soql_error (e : exn) : Prop := exn_cls e = SoqlSyntaxError ∨ exn_cls e = ValueError.

(** ** The tokenizer's fuel suffices *)

Definition tok_wf (t : Token) : Prop :=
  match t_kind t with
  | WORD => wf_word (t_value t)
  | KEYWORD => is_keyword (t_value t) = true
  | OPERATOR => is_Some (operator_of (t_value t))
  | _ => True
  end.

Lemma scan_string_length l v rest n :
  scan_string l = Some (v, rest, n) → (length rest ≤ length l)%nat.
Proof.
  revert v rest n.
  induction l as [l IH] using (well_founded_induction (well_founded_ltof _ (@length ascii))).
  intros v rest n. destruct l as [|c l1]; [done|]. simpl. case_bool_decide.
  - destruct l1 as [|c' l2]; [intros [= <- <- <-]; simpl; lia|]. case_bool_decide.
    + destruct (scan_string l2) as [[[v' rest'] n']|] eqn:E; [|done].
      intros [= <- <- <-]. apply IH in E; [simpl; lia|]. unfold ltof. simpl. lia.
    + intros [= <- <- <-]. simpl. lia.
  - destruct (scan_string l1) as [[[v' rest'] n']|] eqn:E; [|done].
    intros [= <- <- <-]. apply IH in E; [simpl; lia|]. unfold ltof. simpl. lia.
Qed.

Lemma scan_word_spec l w rest :
  scan_word l = (w, rest) → l = w ++ rest ∧ Forall (λ c, is_word_char c = true) w.
Proof.
  revert w rest. induction l as [|c l IH]; intros w rest; simpl.
  - intros [= <- <-]. done.
  - destruct (is_word_char c) eqn:Hc; [|intros [= <- <-]; done].
    destruct (scan_word l) as [w' rest'] eqn:E. intros [= <- <-].
    destruct (IH _ _ eq_refl) as [-> ?]. split; [done|]. by constructor.
Qed.

Lemma next_token_ok i c l t rest i' :
  next_token i c l = Ok (t, rest, i') →
  (length rest ≤ length l)%nat ∧ match t with Some t => tok_wf t | None => True end.
Proof.
  unfold next_token. destruct (is_space c) eqn:Hsp; [intros [= <- <- <-]; done|].
  case_bool_decide.
  { destruct (scan_string l) as [[[v r] n]|] eqn:E; [|done].
    intros [= <- <- <-]. split; [by eapply scan_string_length|done]. }
  destruct (punctuation c) as [k|] eqn:Hp.
  { intros [= <- <- <-]. split; [done|]. unfold punctuation in Hp. unfold tok_wf.
    repeat case_bool_decide; simplify_eq/=; done. }
  destruct (is_operator_char c).
  { destruct (operator_of _) eqn:Ho; [|done]. intros [= <- <- <-]. split.
    - case_match; [|done]. destruct l; simpl; lia.
    - unfold tok_wf. simpl. by rewrite Ho. }
  destruct (scan_word (c :: l)) as [w r] eqn:E. apply scan_word_spec in E as [E Hw].
  destruct w as [|c' w]; [done|]. intros [= <- <- <-]. injection E as -> ->. split.
  - rewrite length_app. lia.
  - unfold word_token. destruct (is_keyword _) eqn:Hk; unfold tok_wf; cbn [t_kind t_value]; [done|].
    unfold wf_word. change (String c' (str w)) with (str (c' :: w)). by rewrite chars_str.
Qed.

Lemma next_token_err i c l e : next_token i c l = Err e → exn_cls e = SoqlSyntaxError.
Proof.
  unfold next_token, raise. intros H.
  repeat (case_match || case_bool_decide); simplify_eq/=; done.
Qed.

Lemma tokenize_loop_spec fuel i l :
  (length l ≤ fuel)%nat →
  match tokenize_loop fuel i l with
  | Ok ts => Forall tok_wf ts
  | Err e => exn_cls e = SoqlSyntaxError
  end.
Proof.
  revert i l. induction fuel as [|f IH]; intros i [|c l] Hl; simpl in *; try done; [lia|].
  destruct (next_token i c l) as [[[t rest] i']|e] eqn:E; simpl.
  - apply next_token_ok in E as [Hlen Ht]. specialize (IH i' rest ltac:(lia)).
    destruct (tokenize_loop f i' rest) as [ts|e]; simpl; [|done].
    destruct t; [by constructor|done].
  - by eapply next_token_err.
Qed.

Lemma tokenize_spec s :
  match tokenize s with
  | Ok ts => Forall tok_wf ts
  | Err e => exn_cls e = SoqlSyntaxError
  end.
Proof. by apply tokenize_loop_spec. Qed.

(** ** What the parser returns and raises *)

(** [m] consumes tokens, returns a value in [Q] or raises a SOQL error. *)
Definition parses_in {A} (Q : A → Prop) (m : parser A) : Prop :=
  ∀ ts, Forall tok_wf ts →
    (length (m ts).1 ≤ length ts)%nat ∧ Forall tok_wf (m ts).1 ∧
    match (m ts).2 with Ok a => Q a | Err e => soql_error e end.

Lemma parses_ret {A} (Q : A → Prop) a : Q a → parses_in Q (io_ret a).
Proof. intros H ts Hts. done. Qed.

Lemma parses_error {A} (Q : A → Prop) msg : parses_in Q (syntax_error msg).
Proof. intros ts Hts. split; [done|]. split; [done|]. by left. Qed.

Lemma parses_bind {A B} (P : A → Prop) (Q : B → Prop) (m : parser A) (k : A → parser B) :
  parses_in P m → (∀ a, P a → parses_in Q (k a)) → parses_in Q (io_bind m k).
Proof.
  intros Hm Hk ts Hts. unfold io_bind. specialize (Hm ts Hts).
  destruct (m ts) as [ts' [a|e]]; simpl in *; destruct Hm as (Hl & Hw & Hp); [|done].
  destruct (Hk a Hp ts' Hw) as (? & ? & ?). split; [lia|done].
Qed.

Lemma parses_weaken {A} (P Q : A → Prop) (m : parser A) :
  (∀ a, P a → Q a) → parses_in P m → parses_in Q m.
Proof.
  intros HPQ Hm ts Hts. destruct (Hm ts Hts) as (? & ? & Hp). split; [done|]. split; [done|].
  destruct (m ts).2; [by apply HPQ|done].
Qed.

(** The token at the head of the list. *)
Definition opt_wf (t : option Token) : Prop := match t with Some t => tok_wf t | None => True end.

Lemma parses_peek : parses_in opt_wf _peek.
Proof. intros [|t ts] Hts; [done|]. inversion Hts; subst. done. Qed.

Lemma parses_advance : parses_in opt_wf _advance.
Proof. intros [|t ts] Hts; [done|]. inversion Hts; subst. simpl. split; [lia|done]. Qed.

Lemma parses_peek_keyword v : parses_in (λ _, True) (_peek_keyword v).
Proof. eapply parses_bind; [apply parses_peek|]. intros t _. by apply parses_ret. Qed.

Lemma parses_accept_keyword v : parses_in (λ _, True) (_accept_keyword v).
Proof.
  eapply parses_bind; [apply parses_peek_keyword|]. intros [] _; [|by apply parses_ret].
  eapply parses_bind; [apply parses_advance|]. intros t _. by apply parses_ret.
Qed.

Lemma parses_accept k : parses_in (λ _, True) (_accept k).
Proof.
  eapply parses_bind; [apply parses_peek|]. intros t _. destruct (kind_is k t); [|by apply parses_ret].
  eapply parses_bind; [apply parses_advance|]. intros t' _. by apply parses_ret.
Qed.

Lemma parses_expect k : parses_in (λ t, tok_wf t ∧ t_kind t = k) (_expect k).
Proof.
  eapply parses_bind; [apply parses_advance|]. intros [t|] Ht; [|apply parses_error].
  destruct (kind_is k (Some t)) eqn:E; [|apply parses_error].
  apply parses_ret. split; [done|]. by apply bool_decide_eq_true in E.
Qed.

Lemma parses_expect_keyword vs :
  parses_in (λ t, t_value t ∈ vs) (_expect_keyword vs).
Proof.
  eapply parses_bind; [apply parses_advance|]. intros [t|] Ht; [|apply parses_error].
  destruct (existsb _ vs) eqn:E; [|apply parses_error].
  apply parses_ret. apply existsb_exists in E as (v & Hv & E). rewrite <- list_elem_of_In in Hv.
  unfold keyword_is in E. apply andb_true_iff in E as [_ E%String.eqb_eq]. by subst.
Qed.

Lemma parses_identifier : parses_in wf_word _identifier.
Proof.
  eapply parses_bind; [apply parses_expect|]. intros t [Ht Hk]. apply parses_ret.
  unfold tok_wf in Ht. by rewrite Hk in Ht.
Qed.

Lemma digits_value_bound l a n :
  0 ≤ a → digits_value a l = Some n → 0 ≤ n < (a + 1) * 10 ^ Z.of_nat (length l).
Proof.
  revert a. induction l as [|c l IH]; intros a Ha; simpl.
  - intros [= <-]. lia.
  - destruct (is_decimal c) eqn:Hc; [|done]. pose proof (digit_value_range c Hc) as Hd.
    intros Hv%IH; [|lia]. rewrite Nat2Z.inj_succ, Z.pow_succ_r by lia. nia.
Qed.

Lemma dec_digits_length n k :
  0 ≤ n < 10 ^ Z.of_nat k → (0 < k)%nat → (length (dec_digits n) ≤ k)%nat.
Proof. apply dec_go_length. Qed.

Lemma int_literal_wf neg l v : int_literal neg l = Ok v → wf_literal v.
Proof.
  unfold int_literal. destruct (Z.ltb_spec max_str_digits (Z.of_nat (length l))); [done|].
  intros [= <-]. unfold wf_literal, wf_int.
  set (n := default 0 (digits_value 0 l)).
  assert (0 ≤ n < 10 ^ Z.of_nat (length l)) as Hn.
  { unfold n. destruct (digits_value 0 l) as [n'|] eqn:E; simpl; [|lia].
    apply digits_value_bound in E; lia. }
  replace (Z.abs (if neg then - n else n)) with n by (destruct neg; lia).
  assert (length (dec_digits n) ≤ length l ∨ length (dec_digits n) ≤ 1)%nat as Hle.
  { destruct (length l) as [|k] eqn:Hk.
    - right. apply dec_digits_length; [simpl in *; lia|lia].
    - left. apply dec_digits_length; [done|lia]. }
  unfold max_str_digits in *. lia.
Qed.

Lemma word_literal_spec s :
  match word_literal s with Ok v => wf_literal v | Err e => soql_error e end.
Proof.
  unfold word_literal.
  destruct (String.eqb _ "NULL"); [done|]. destruct (String.eqb _ "TRUE"); [done|].
  destruct (String.eqb _ "FALSE"); [done|]. destruct (numeric_literal s) as [n|]; [|done].
  destruct (n_fraction n), (n_exponent n); try done.
  destruct (int_literal _ _) as [v|e] eqn:E; [by eapply int_literal_wf|].
  unfold int_literal, raise in E. destruct (max_str_digits <? _); simplify_eq. by right.
Qed.

Lemma parses_literal : parses_in wf_literal _literal.
Proof.
  eapply parses_bind; [apply parses_advance|]. intros [t|] Ht; [|apply parses_error].
  repeat case_decide; [by apply parses_ret| |apply parses_error].
  intros ts Hts. split; [done|]. split; [done|]. apply word_literal_spec.
Qed.

Lemma parses_integer c : parses_in wf_count (_integer c).
Proof.
  eapply parses_bind; [apply parses_literal|]. intros v Hv.
  destruct v as [| |z| |]; try apply parses_error.
  destruct (Z.ltb_spec z 0); [apply parses_error|by apply parses_ret].
Qed.

(** ** Loops consume tokens *)

Definition consumes (accept : parser bool) : Prop :=
  ∀ ts ts', accept ts = (ts', Ok true) → (length ts' < length ts)%nat.

Lemma consumes_accept k : consumes (_accept k).
Proof.
  intros [|t ts] ts'; unfold _accept, _peek, _advance, kind_is; io_simpl; [done|].
  case_match; simpl; [|done]. intros [= <-]. lia.
Qed.

Lemma consumes_accept_keyword v : consumes (_accept_keyword v).
Proof.
  intros [|t ts] ts'; unfold _accept_keyword, _peek_keyword, _peek, _advance, keyword_is;
    io_simpl; [done|].
  case_match; simpl; [|done]. intros [= <-]. lia.
Qed.

Lemma parses_more {A} (Q : A → Prop) accept (item : parser A) fuel :
  consumes accept → parses_in (λ _, True) accept → parses_in Q item →
  ∀ ts, (length ts < fuel)%nat → Forall tok_wf ts →
    (length (more fuel accept item ts).1 ≤ length ts)%nat ∧
    Forall tok_wf (more fuel accept item ts).1 ∧
    match (more fuel accept item ts).2 with Ok l => Forall Q l | Err e => soql_error e end.
Proof.
  intros Hc Ha Hi. induction fuel as [|f IH]; intros ts Hf Hts; [lia|]. cbn [more].
  unfold io_bind. specialize (Ha ts Hts). specialize (Hc ts).
  destruct (accept ts) as [ts1 [[]|e]]; simpl in *; destruct Ha as (Hl1 & Hw1 & He); try done.
  specialize (Hc ts1 eq_refl). specialize (Hi ts1 Hw1).
  destruct (item ts1) as [ts2 [x|e]]; simpl in *; destruct Hi as (Hl2 & Hw2 & Hx).
  - destruct (IH ts2 ltac:(lia) Hw2) as (Hl3 & Hw3 & Hr).
    destruct (more f accept item ts2) as [ts3 [xs|e]]; simpl in *.
    + split; [lia|]. split; [done|]. by constructor.
    + split; [lia|done].
  - split; [lia|done].
Qed.

Lemma parses_more_of {A} (Q : A → Prop) accept (item : parser A) :
  consumes accept → parses_in (λ _, True) accept → parses_in Q item →
  parses_in (Forall Q) (more_of accept item).
Proof.
  intros Hc Ha Hi ts Hts. unfold more_of, io_bind, io_get.
  apply (parses_more Q accept item (S (length ts))); try done. lia.
Qed.

Create HintDb soql.
#[export] Hint Resolve parses_error parses_peek_keyword parses_accept_keyword parses_accept
  parses_identifier parses_literal parses_integer consumes_accept consumes_accept_keyword
  parses_more_of parses_advance parses_peek parses_expect parses_expect_keyword : soql.

(** Step through a sequence of parsers. *)
Ltac parser_step :=
  match goal with
  | |- parses_in _ (io_bind _ _) => eapply parses_bind; [eauto with soql|intros ? ?]
  | |- parses_in _ (if ?b then _ else _) => destruct b
  | |- parses_in _ (io_ret _) => apply parses_ret
  | |- parses_in _ (syntax_error _) => apply parses_error
  end.

Lemma parses_fields : parses_in (λ fs, fs = ["*"] ∨ fs ≠ [] ∧ Forall wf_word fs) _fields.
Proof. unfold _fields. repeat parser_step; [by left|]. right. split; [done|]. by constructor. Qed.

Lemma parses_predicate : parses_in wf_predicate _predicate.
Proof.
  unfold _predicate. repeat parser_step; simpl; try done.
  split; [done|]. split; [done|]. by constructor.
Qed.
#[export] Hint Resolve parses_fields parses_predicate : soql.

Lemma parses_where : parses_in (Forall wf_predicate) where_clause.
Proof. unfold where_clause. repeat parser_step; [by constructor|done]. Qed.

Lemma parses_direction : parses_in (λ d, d = "ASC" ∨ d = "DESC") order_direction.
Proof.
  intros [|t ts] Hts; [split; [done|split; [done|by left]]|].
  inversion Hts as [|? ? Ht Hts']; subst.
  unfold order_direction, _peek_keyword, _peek, _advance, keyword_is. io_simpl.
  destruct (bool_decide (t_kind t = KEYWORD)); simpl; [|split; [done|split; [done|by left]]].
  destruct (String.eqb_spec (t_value t) "ASC"), (String.eqb_spec (t_value t) "DESC"); simpl;
    (split; [lia|split; [done|auto]]).
Qed.

Lemma parses_order : parses_in (λ o, ∀ x, o = Some x → wf_order x) order_clause.
Proof.
  unfold order_clause. parser_step. parser_step; [|by parser_step].
  parser_step. parser_step. eapply parses_bind; [apply parses_direction|].
  intros d Hd. parser_step.
  eapply (parses_bind (λ n, n = "FIRST" ∨ n = "LAST")).
  { parser_step; [|apply parses_ret; by right].
    eapply parses_bind; [apply parses_expect_keyword|]. intros t Ht. apply parses_ret. set_solver. }
  intros n Hn. apply parses_ret. intros x [= <-]. done.
Qed.

Lemma parses_limit : parses_in (λ l, ∀ n, l = Some n → wf_count n) limit_clause.
Proof. unfold limit_clause. repeat parser_step; [by intros n [= <-]|done]. Qed.

Lemma parses_offset : parses_in wf_count offset_clause.
Proof.
  unfold offset_clause. parser_step. parser_step; [eauto with soql|].
  parser_step. by vm_compute.
Qed.

Lemma parses_at_end : parses_in (λ _, True) at_end.
Proof.
  unfold at_end. eapply parses_bind; [apply parses_peek|]. intros [t|] _; parser_step. done.
Qed.
#[export] Hint Resolve parses_where parses_order parses_limit parses_offset parses_at_end : soql.

Lemma parses_parse : parses_in wf_query parse.
Proof. unfold parse. repeat parser_step. by constructor. Qed.

Lemma parse_soql_spec s :
  match parse_soql s with Ok q => wf_query q | Err e => soql_error e end.
Proof.
  unfold parse_soql. pose proof (tokenize_spec s) as Ht.
  destruct (tokenize s) as [ts|e]; simpl; [by apply parses_parse|by left].
Qed.

(** [parse_soql] is total: on every text it either returns a query or raises
    [SoqlSyntaxError], or [ValueError] for an integer literal of more than 4300 digits; the
    loops of tokenizer and parser terminate. *)
Theorem parse_soql_errors (source : string) (e : exn) :
  parse_soql source = Err e → exn_cls e = SoqlSyntaxError ∨ exn_cls e = ValueError.
Proof. intros H. pose proof (parse_soql_spec source) as Hs. by rewrite H in Hs. Qed.

Lemma parse_soql_errors_witness :
  parse_soql "select Id from account limit 'x'"
  = raise SoqlSyntaxError "LIMIT requires a non-negative integer" ∧
  (SoqlSyntaxError = SoqlSyntaxError ∨ SoqlSyntaxError = ValueError).
Proof.
  split; [vm_compute; reflexivity|].
  apply (parse_soql_errors "select Id from account limit 'x'"
    (Exn SoqlSyntaxError "" "LIMIT requires a non-negative integer")).
  vm_compute. reflexivity.
Defined.

(** C40: Every query [parse_soql] returns is well formed: it selects [*] or a non-empty list of
    identifiers, identifiers are non-empty words free of blanks, quotes, operators and
    punctuation and are not keywords, [IN] lists are not empty, the direction is [ASC] or
    [DESC], [NULLS] is [FIRST] or [LAST], and [LIMIT] and [OFFSET] are not negative. *)
Theorem parse_soql_wf (source : string) (q : SelectQuery) :
  parse_soql source = Ok q → wf_query q.
Proof. intros H. pose proof (parse_soql_spec source) as Hs. by rewrite H in Hs. Qed.

Definition witness_source : string :=
  "select Id, Name from account where Name like 'O''%' and Type in (A, 3, null) order by Id desc nulls first limit 5 offset 2".
Definition witness_query : SelectQuery :=
  mkQuery ["Id"; "Name"] "account"
    [Comparison "Name" OpLike (LStr "O'%"); InComparison "Type" [LStr "A"; LInt 3; LNull]]
    (Some (mkOrderBy "Id" "DESC" "FIRST")) (Some 5) 2.

Lemma parse_soql_wf_witness : wf_query witness_query.
Proof. apply (parse_soql_wf witness_source). vm_compute. reflexivity. Defined.

(** ** Printing queries *)

(** A lexeme: the kind and value of a token, without its position. *)
Definition lexeme : Type := token_kind * string.

Definition kw (s : string) : lexeme := (KEYWORD, s).
Definition word (s : string) : lexeme := (WORD, s).

Definition escape_quotes (l : list ascii) : list ascii :=
  l ≫= λ c, if bool_decide (c = "'"%char) then ["'"%char; "'"%char] else [c].

(** The source text of a lexeme: string literals are quoted, their quotes doubled. *)
Definition lexeme_text (x : lexeme) : list ascii :=
  match x.1 with
  | STRING => "'"%char :: escape_quotes (chars x.2) ++ ["'"%char]
  | _ => chars x.2
  end.

Definition lex_literal (l : literal) : lexeme :=
  match l with
  | LNull | LFloat _ => word "NULL"
  | LBool true => word "TRUE"
  | LBool false => word "FALSE"
  | LInt z => word (str_of_Z z)
  | LStr s => (STRING, s)
  end.

(** Each further element after a separator. *)
Definition lex_more {A} (sep : lexeme) (f : A → list lexeme) (l : list A) : list lexeme :=
  l ≫= λ x, sep :: f x.

Definition lex_fields (fs : list string) : list lexeme :=
  match fs with
  | [] => []
  | f :: fs => if String.eqb f "*" then [(STAR, "*")]
               else word f :: lex_more (COMMA, ",") (λ g, [word g]) fs
  end.

Definition lex_predicate (p : predicate) : list lexeme :=
  match p with
  | Comparison f OpLike v => [word f; kw "LIKE"; lex_literal v]
  | Comparison f o v => [word f; (OPERATOR, operator_text o); lex_literal v]
  | InComparison f [] => []
  | InComparison f (v :: vs) =>
      word f :: kw "IN" :: (LPAREN, "(") :: lex_literal v ::
      lex_more (COMMA, ",") (λ v, [lex_literal v]) vs ++ [(RPAREN, ")")]
  end.

Definition lex_where (ps : list predicate) : list lexeme :=
  match ps with
  | [] => []
  | p :: ps => kw "WHERE" :: lex_predicate p ++ lex_more (kw "AND") lex_predicate ps
  end.

Definition lex_order (o : option OrderBy) : list lexeme :=
  match o with
  | None => []
  | Some o => [kw "ORDER"; kw "BY"; word (ob_field o); kw (ob_direction o); kw "NULLS"; kw (ob_nulls o)]
  end.

Definition lex_count (keyword : string) (n : option Z) : list lexeme :=
  match n with
  | None => []
  | Some n => [kw keyword; word (str_of_Z n)]
  end.

Definition lex_query (q : SelectQuery) : list lexeme :=
  kw "SELECT" :: lex_fields (q_fields q) ++ kw "FROM" :: word (q_object q) ::
  lex_where (q_predicates q) ++ lex_order (q_order_by q) ++
  lex_count "LIMIT" (q_limit q) ++ lex_count "OFFSET" (Some (q_offset q)).

Definition lexemes_text (xs : list lexeme) : list ascii :=
  xs ≫= λ x, lexeme_text x ++ [" "%char].

Definition print_query (q : SelectQuery) : string := str (lexemes_text (lex_query q)).

Definition literal_float_free (l : literal) : bool :=
  match l with LFloat _ => false | _ => true end.

(** Queries without [float] literals. *)
Definition float_free (q : SelectQuery) : bool :=
  forallb (λ p, match p with
                | Comparison _ _ v => literal_float_free v
                | InComparison _ vs => forallb literal_float_free vs
                end) (q_predicates q).

(** ** Tokenizing printed text *)

Definition wf_lexeme (x : lexeme) : Prop :=
  match x.1 with
  | STRING => True
  | WORD => wf_word x.2
  | KEYWORD => is_keyword x.2 = true
  | OPERATOR => is_Some (operator_of x.2)
  | COMMA => x.2 = "," | LPAREN => x.2 = "(" | RPAREN => x.2 = ")" | STAR => x.2 = "*"
  end.

Lemma scan_string_escaped l rest :
  (match rest with c :: _ => c ≠ "'"%char | [] => True end) →
  scan_string (escape_quotes l ++ "'"%char :: rest)
  = Some (l, rest, Z.of_nat (length (escape_quotes l)) + 1).
Proof.
  intros Hr. induction l as [|c l IH]; simpl.
  - destruct rest as [|c rest]; [done|]. by rewrite bool_decide_eq_false_2.
  - case_bool_decide as Hc; simpl.
    + rewrite IH, Hc. do 2 f_equal. all: try done; lia.
    + rewrite bool_decide_eq_false_2 by done. rewrite IH. do 2 f_equal. all: try done; lia.
Qed.

Lemma scan_word_app w rest :
  Forall (λ c, is_word_char c = true) w →
  (match rest with c :: _ => is_word_char c = false | [] => True end) →
  scan_word (w ++ rest) = (w, rest).
Proof.
  intros Hw Hr. induction Hw as [|c w Hc Hw IH]; simpl.
  - destruct rest as [|c rest]; [done|]. simpl. by rewrite Hr.
  - by rewrite Hc, IH.
Qed.

Lemma word_char_facts c :
  is_word_char c = true →
  is_space c = false ∧ c ≠ "'"%char ∧ punctuation c = None ∧ is_operator_char c = false.
Proof.
  unfold is_word_char. rewrite andb_true_iff, !negb_true_iff. intros [Hs Hm].
  split; [done|].
  assert (∀ x, x ∈ chars "',()*<>=!" → c ≠ x) as Hne.
  { intros x Hx ->. assert (member x "',()*<>=!" = true) as Ht; [|congruence].
    apply existsb_exists. exists x. rewrite <- list_elem_of_In. split; [done|].
    by apply bool_decide_eq_true. }
  split; [apply Hne; simpl; set_solver|]. split.
  - unfold punctuation. repeat (rewrite bool_decide_eq_false_2 by (apply Hne; simpl; set_solver)).
    done.
  - unfold is_operator_char, member. simpl.
    repeat (rewrite bool_decide_eq_false_2 by (apply Hne; simpl; set_solver)). done.
Qed.

Lemma next_word i c w rest :
  Forall (λ c, is_word_char c = true) (c :: w) →
  next_token i c (w ++ " "%char :: rest)
  = Ok (Some (word_token (str (c :: w)) i), " "%char :: rest, i + Z.of_nat (length (c :: w))).
Proof.
  intros Hw. inversion Hw as [|? ? Hc Hw']; subst.
  destruct (word_char_facts c Hc) as (H1 & H2 & H3 & H4). unfold next_token.
  rewrite H1, bool_decide_eq_false_2, H3, H4 by done.
  rewrite app_comm_cons, (scan_word_app (c :: w)) by done. done.
Qed.

Lemma keyword_chars s :
  is_keyword s = true →
  Forall (λ c, is_word_char c = true) (chars s) ∧ upper s = s ∧ chars s ≠ [].
Proof.
  intros H. apply existsb_exists in H as (k & Hk & ->%String.eqb_eq).
  rewrite <- list_elem_of_In in Hk. unfold KEYWORDS in Hk.
  repeat (apply elem_of_cons in Hk as [->|Hk]; [by repeat constructor|]).
  by apply elem_of_nil in Hk.
Qed.

Lemma operator_of_text o op : operator_of o = Some op → o = operator_text op ∧ op ≠ OpLike.
Proof.
  unfold operator_of. intros H.
  repeat match type of H with context [String.eqb o ?x] =>
    destruct (String.eqb_spec o x) as [->|]; [injection H as <-; split; done|] end.
  done.
Qed.

Definition lexeme_token (x : lexeme) (i : Z) : Token := mkToken x.1 x.2 i.

Lemma next_lexeme x i rest :
  wf_lexeme x → ∃ c l, lexeme_text x ++ " "%char :: rest = c :: l ∧
    next_token i c l
    = Ok (Some (lexeme_token x i), " "%char :: rest, i + Z.of_nat (length (lexeme_text x))).
Proof.
  destruct x as [k v]. unfold wf_lexeme, lexeme_text, lexeme_token. cbn [fst snd].
  destruct k; intros Hwf; try (subst v; do 2 eexists; split; [reflexivity|reflexivity]).
  - exists "'"%char, (escape_quotes (chars v) ++ "'"%char :: " "%char :: rest).
    split; [by rewrite <- !app_comm_cons, <- app_assoc|].
    unfold next_token. change (is_space "'"%char) with false. cbn match.
    rewrite bool_decide_eq_true_2 by done.
    rewrite scan_string_escaped by done. rewrite str_chars.
    rewrite length_cons, length_app. simpl. do 2 f_equal. lia.
  - destruct Hwf as [op Hop]. apply operator_of_text in Hop as [-> Hop].
    destruct op; try done; do 2 eexists; (split; [reflexivity|]); vm_compute; reflexivity || (cbv - [Z.add]; reflexivity).
  - destruct (keyword_chars v Hwf) as (Hw & Hu & Hne).
    destruct (chars v) as [|c w] eqn:E; [done|]. exists c, (w ++ " "%char :: rest).
    split; [done|]. rewrite next_word by done. unfold word_token.
    rewrite <- E, str_chars, Hu, Hwf. done.
  - destruct Hwf as (Hne & Hw & Hk).
    destruct (chars v) as [|c w] eqn:E; [done|]. exists c, (w ++ " "%char :: rest).
    split; [done|]. rewrite next_word by done. unfold word_token.
    rewrite <- E, str_chars, Hk. done.
Qed.

(** The tokens of a printed text, each at its position. *)
Fixpoint place (i : Z) (xs : list lexeme) : list Token :=
  match xs with
  | [] => []
  | x :: xs => lexeme_token x i :: place (i + Z.of_nat (length (lexeme_text x)) + 1) xs
  end.

Lemma lexemes_text_cons x xs :
  lexemes_text (x :: xs) = lexeme_text x ++ " "%char :: lexemes_text xs.
Proof. unfold lexemes_text. simpl. by rewrite <- app_assoc. Qed.

Lemma tokenize_lexemes fuel i xs :
  Forall wf_lexeme xs → (length (lexemes_text xs) ≤ fuel)%nat →
  tokenize_loop fuel i (lexemes_text xs) = Ok (place i xs).
Proof.
  intros Hxs. revert fuel i. induction Hxs as [|x xs Hx Hxs IH]; intros fuel i Hf; [by destruct fuel|].
  rewrite lexemes_text_cons in *.
  destruct (next_lexeme x i (lexemes_text xs) Hx) as (c & l & E & Hn).
  assert (length (c :: l) = length (lexeme_text x) + S (length (lexemes_text xs)))%nat as Hlen
    by (rewrite <- E, length_app; done).
  rewrite E in Hf |- *. simpl in Hf, Hlen.
  assert (length (lexeme_text x) ≠ 0)%nat as Hpos.
  { destruct (lexeme_text x); [|done]. simpl in E. injection E as <- <-. done. }
  destruct fuel as [|[|fuel]]; [lia|lia|].
  cbn [tokenize_loop]. rewrite Hn. cbn [res_bind tokenize_loop].
  change (next_token (i + Z.of_nat (length (lexeme_text x))) " "%char (lexemes_text xs))
    with (Ok (None : option Token, lexemes_text xs, i + Z.of_nat (length (lexeme_text x)) + 1)).
  cbn [res_bind]. rewrite IH by lia. done.
Qed.

(** ** Parsing printed tokens *)

Definition erase (ts : list Token) : list lexeme := (λ t, (t_kind t, t_value t)) <$> ts.

Lemma erase_place i xs : erase (place i xs) = xs.
Proof. revert i. induction xs as [|[k v] xs IH]; intros i; simpl; [done|]. by rewrite IH. Qed.

(** On tokens that spell [zs], [m] returns [a] and leaves tokens that spell [rest]. *)
Definition reads {A} (m : parser A) (zs : list lexeme) (a : A) (rest : list lexeme) : Prop :=
  ∀ ts, erase ts = zs → ∃ ts', erase ts' = rest ∧ m ts = (ts', Ok a).

Lemma reads_ret {A} (a : A) rest : reads (io_ret a) rest a rest.
Proof. intros ts H. by exists ts. Qed.

Lemma reads_bind {A B} (m : parser A) (k : A → parser B) zs a mid b rest :
  reads m zs a mid → reads (k a) mid b rest → reads (io_bind m k) zs b rest.
Proof.
  intros Hm Hk ts H. destruct (Hm ts H) as (ts1 & H1 & E1).
  destruct (Hk ts1 H1) as (ts2 & H2 & E2). exists ts2. unfold io_bind. by rewrite E1.
Qed.

Lemma erase_cons ts k v rest :
  erase ts = (k, v) :: rest → ∃ p ts', ts = mkToken k v p :: ts' ∧ erase ts' = rest.
Proof. destruct ts as [|[k' v' p] ts]; [done|]. intros [= -> -> <-]. eauto. Qed.

Lemma reads_keyword v rest : reads (_accept_keyword v) (kw v :: rest) true rest.
Proof.
  intros ts (p & ts' & -> & H)%erase_cons. exists ts'. split; [done|].
  unfold _accept_keyword, _peek_keyword, _peek, _advance, keyword_is. io_simpl.
  by rewrite String.eqb_refl.
Qed.

Definition head_is (x : lexeme) (zs : list lexeme) : Prop := head zs = Some x.

Lemma reads_no_keyword v rest : ¬ head_is (kw v) rest → reads (_accept_keyword v) rest false rest.
Proof.
  intros Hn ts H. exists ts. split; [done|].
  unfold _accept_keyword, _peek_keyword, _peek, keyword_is. io_simpl.
  destruct ts as [|[k v' p] ts]; [done|]. simpl. subst rest.
  case_bool_decide; [|done]. subst. destruct (String.eqb_spec v' v); [|done]. by subst.
Qed.

Lemma reads_accept k v rest : reads (_accept k) ((k, v) :: rest) true rest.
Proof.
  intros ts (p & ts' & -> & H)%erase_cons. exists ts'. split; [done|].
  unfold _accept, _peek, _advance, kind_is. io_simpl. by rewrite bool_decide_eq_true_2.
Qed.

Lemma reads_no_accept k rest :
  (∀ v, ¬ head_is (k, v) rest) → reads (_accept k) rest false rest.
Proof.
  intros Hn ts H. exists ts. split; [done|]. unfold _accept, _peek, kind_is. io_simpl.
  destruct ts as [|[k' v' p] ts]; [done|]. simpl. subst rest.
  case_bool_decide; [|done]. subst. by destruct (Hn v').
Qed.

Lemma reads_expect_bind {B} k v (f : Token → parser B) b mid rest :
  (∀ p, reads (f (mkToken k v p)) mid b rest) → reads (io_bind (_expect k) f) ((k, v) :: mid) b rest.
Proof.
  intros Hf ts (p & ts' & -> & H)%erase_cons. destruct (Hf p ts' H) as (ts'' & H' & E).
  exists ts''. split; [done|]. unfold _expect, _advance, kind_is. io_simpl.
  by rewrite bool_decide_eq_true_2.
Qed.

Lemma reads_expect_keyword_bind {B} vs v (f : Token → parser B) b mid rest :
  v ∈ vs → (∀ p, reads (f (mkToken KEYWORD v p)) mid b rest) →
  reads (io_bind (_expect_keyword vs) f) (kw v :: mid) b rest.
Proof.
  intros Hv Hf ts (p & ts' & -> & H)%erase_cons. destruct (Hf p ts' H) as (ts'' & H' & E).
  exists ts''. split; [done|]. unfold _expect_keyword, _advance. io_simpl.
  assert (existsb (λ v', String.eqb v v') vs = true) as ->; [|done].
  apply existsb_exists. exists v. rewrite <- list_elem_of_In. by rewrite String.eqb_refl.
Qed.

Lemma reads_identifier s rest : reads _identifier (word s :: rest) s rest.
Proof. apply reads_expect_bind. intros p. apply reads_ret. Qed.

Lemma span_digits_all l :
  Forall (λ c, is_decimal c = true) l → span_digits l = (l, []).
Proof. induction 1 as [|c l Hc Hl IH]; simpl; [done|]. by rewrite Hc, IH. Qed.

Lemma numeric_literal_int z :
  ∃ n, numeric_literal (str_of_Z z) = Some n ∧ n_fraction n = None ∧ n_exponent n = None ∧
    n_negative n = (z <? 0) ∧ n_integer n = dec_digits (Z.abs z).
Proof.
  destruct (dec_digits_spec (Z.abs z)) as (_ & Hd & Hne); [lia|].
  unfold numeric_literal, str_of_Z. destruct (Z.ltb_spec z 0).
  - rewrite chars_str. rewrite bool_decide_eq_true_2 by done.
    replace (- z) with (Z.abs z) by lia. rewrite span_digits_all by done. simpl.
    rewrite bool_decide_eq_false_2 by done. simpl. eexists. split; [done|]. done.
  - rewrite chars_str. replace (dec_digits z) with (dec_digits (Z.abs z)) by (f_equal; lia).
    destruct (dec_digits (Z.abs z)) as [|c l] eqn:E; [done|].
    inversion Hd as [|? ? Hc Hl]; subst.
    rewrite (bool_decide_eq_false_2 (c = "-"%char)) by by apply decimal_us_neq.
    rewrite span_digits_all by done. simpl. eexists. split; [done|]. done.
Qed.

Lemma upper_int_neq z s :
  s = "NULL" ∨ s = "TRUE" ∨ s = "FALSE" → upper (str_of_Z z) ≠ s.
Proof.
  intros Hs H. apply (f_equal chars) in H. unfold upper in H. rewrite chars_str in H.
  assert (∃ c, c ∈ chars (str_of_Z z) ∧ (is_decimal c = true)) as (c & Hin & Hc).
  { destruct (dec_digits_spec (Z.abs z)) as (_ & Hd & Hne); [lia|].
    unfold str_of_Z. destruct (Z.ltb_spec z 0); rewrite chars_str.
    - replace (- z) with (Z.abs z) by lia. destruct (dec_digits (Z.abs z)) as [|c l]; [done|].
      inversion Hd; subst. exists c. split; [set_solver|done].
    - replace (dec_digits z) with (dec_digits (Z.abs z)) by (f_equal; lia).
      destruct (dec_digits (Z.abs z)) as [|c l]; [done|].
      inversion Hd; subst. exists c. split; [set_solver|done]. }
  assert (upper_char c ∈ chars s) as Hin' by (rewrite <- H; by apply list_elem_of_fmap_2).
  assert (upper_char c = c) as Hup.
  { unfold upper_char. unfold is_decimal, in_range in Hc |- *. apply andb_true_iff in Hc.
    rewrite !Z.leb_le in Hc.
    destruct (Z.leb_spec 97 (code c)), (Z.leb_spec 224 (code c)); simpl; try lia; done. }
  rewrite Hup in Hin'.
  assert (∀ s, s = "NULL" ∨ s = "TRUE" ∨ s = "FALSE" →
            forallb (λ c, negb (is_decimal c)) (chars s) = true) as Hall
    by (intros ? [->|[->| ->]]; reflexivity).
  specialize (Hall s Hs). rewrite forallb_forall in Hall. specialize (Hall c).
  rewrite <- list_elem_of_In, Hc in Hall. by specialize (Hall Hin').
Qed.

Lemma word_literal_int z : wf_int z → word_literal (str_of_Z z) = Ok (LInt z).
Proof.
  intros Hz. unfold word_literal.
  rewrite !(proj2 (String.eqb_neq _ _)) by (apply upper_int_neq; auto).
  destruct (numeric_literal_int z) as (n & -> & -> & -> & -> & ->).
  unfold int_literal, wf_int in *. destruct (Z.ltb_spec max_str_digits (Z.of_nat (length (dec_digits (Z.abs z))))); [lia|].
  destruct (dec_digits_spec (Z.abs z)) as (-> & _ & _); [lia|]. simpl.
  do 2 f_equal. destruct (Z.ltb_spec z 0); lia.
Qed.

Lemma reads_literal l rest :
  wf_literal l → literal_float_free l = true → reads _literal (lex_literal l :: rest) l rest.
Proof.
  intros Hw Hf ts H. assert (∃ k v, lex_literal l = (k, v)) as (k & v & El) by (destruct (lex_literal l); eauto).
  rewrite El in H. apply erase_cons in H as (p & ts' & -> & H). exists ts'. split; [done|].
  unfold _literal, _advance. io_simpl.
  destruct l as [|[]|z| |s]; try done; injection El as <- <-; simpl; try done.
  unfold io_lift. by rewrite word_literal_int.
Qed.

Lemma reads_integer c n rest :
  wf_count n → reads (_integer c) (word (str_of_Z n) :: rest) n rest.
Proof.
  intros [Hn Hw]. eapply reads_bind; [by apply (reads_literal (LInt n))|]. simpl.
  destruct (Z.ltb_spec n 0); [lia|]. apply reads_ret.
Qed.

Lemma lex_more_cons {A} sep (f : A → list lexeme) x l rest :
  lex_more sep f (x :: l) ++ rest = sep :: f x ++ (lex_more sep f l ++ rest).
Proof. unfold lex_more. simpl. by rewrite <- app_assoc. Qed.

(** A loop over separated elements reads them all. *)
Lemma reads_more {A} (accept : parser bool) (item : parser A) sep f (l : list A) rest :
  (∀ rest, reads accept (sep :: rest) true rest) → reads accept rest false rest →
  (∀ x rest, x ∈ l → reads item (f x ++ rest) x rest) →
  ∀ fuel, (length l < fuel)%nat → reads (more fuel accept item) (lex_more sep f l ++ rest) l rest.
Proof.
  intros Hyes Hno Hitem. induction l as [|x l IH]; intros [|fuel] Hf; try (simpl in Hf; lia).
  - cbn [more]. eapply reads_bind; [exact Hno|apply reads_ret].
  - cbn [more]. rewrite lex_more_cons.
    eapply reads_bind; [apply Hyes|]. cbn match.
    eapply reads_bind; [apply Hitem; set_solver|].
    eapply reads_bind; [apply IH|apply reads_ret].
    + intros y rest' Hy. apply Hitem. set_solver.
    + simpl in Hf. lia.
Qed.

Lemma length_lex_more {A} sep (f : A → list lexeme) l :
  (length l ≤ length (lex_more sep f l))%nat.
Proof.
  induction l as [|x l IH]; simpl; [done|]. unfold lex_more in *. rewrite length_app. lia.
Qed.

Lemma reads_more_of {A} (accept : parser bool) (item : parser A) sep f (l : list A) rest :
  (∀ rest, reads accept (sep :: rest) true rest) → reads accept rest false rest →
  (∀ x rest, x ∈ l → reads item (f x ++ rest) x rest) →
  reads (more_of accept item) (lex_more sep f l ++ rest) l rest.
Proof.
  intros Hyes Hno Hitem ts H. unfold more_of, io_bind, io_get.
  apply (reads_more accept item sep f l rest); try done.
  apply (f_equal length) in H. unfold erase in H. rewrite length_fmap, length_app in H.
  pose proof (length_lex_more sep f l). lia.
Qed.

Lemma reads_fields fs rest :
  (fs = ["*"] ∨ fs ≠ [] ∧ Forall wf_word fs) → (∀ v, ¬ head_is (COMMA, v) rest) →
  reads _fields (lex_fields fs ++ rest) fs rest.
Proof.
  unfold _fields. intros [->|[Hne Hw]] Hr.
  - eapply reads_bind; [apply (reads_accept STAR "*")|apply reads_ret].
  - destruct fs as [|f fs]; [done|]. inversion Hw as [|? ? (Hf & Hc & _) _]; subst.
    unfold lex_fields. destruct (String.eqb_spec f "*") as [->|]; [by inversion Hc|].
    eapply reads_bind; [by apply reads_no_accept|]. cbn match.
    eapply reads_bind; [apply reads_identifier|].
    eapply reads_bind; [|apply reads_ret]. apply reads_more_of.
    + intros. apply reads_accept.
    + by apply reads_no_accept.
    + intros x rest' _. apply reads_identifier.
Qed.

Definition predicate_float_free (p : predicate) : bool :=
  match p with
  | Comparison _ _ v => literal_float_free v
  | InComparison _ vs => forallb literal_float_free vs
  end.

Lemma reads_predicate p rest :
  wf_predicate p → predicate_float_free p = true →
  reads _predicate (lex_predicate p ++ rest) p rest.
Proof.
  intros Hw Hf. unfold _predicate. destruct p as [f o v|f vs]; simpl in Hw, Hf.
  - destruct Hw as [_ Hv]. destruct (decide (o = OpLike)) as [->|Ho].
    + eapply reads_bind; [apply reads_identifier|].
      eapply reads_bind; [by apply reads_no_keyword|]. cbn match.
      eapply reads_bind; [apply reads_keyword|]. cbn match.
      eapply reads_bind; [by apply reads_literal|]. apply reads_ret.
    + replace (lex_predicate (Comparison f o v) ++ rest)
        with (word f :: (OPERATOR, operator_text o) :: lex_literal v :: rest) by by destruct o.
      eapply reads_bind; [apply reads_identifier|].
      eapply reads_bind; [by apply reads_no_keyword|]. cbn match.
      eapply reads_bind; [by apply reads_no_keyword|]. cbn match.
      apply reads_expect_bind. intros p.
      eapply reads_bind; [by apply reads_literal|].
      replace (comparison_operator _) with o by by destruct o. apply reads_ret.
  - destruct Hw as (_ & Hne & Hvs). destruct vs as [|v vs]; [done|].
    inversion Hvs as [|? ? Hv Hvs']; subst. simpl in Hf. apply andb_true_iff in Hf as [Hfv Hfvs].
    rewrite forallb_forall in Hfvs. rewrite Forall_forall in Hvs'.
    change (lex_predicate (InComparison f (v :: vs)) ++ rest)
      with (word f :: kw "IN" :: (LPAREN, "(") :: lex_literal v ::
            ((lex_more (COMMA, ",") (λ v, [lex_literal v]) vs ++ [(RPAREN, ")")]) ++ rest)).
    rewrite <- app_assoc.
    eapply reads_bind; [apply reads_identifier|].
    eapply reads_bind; [apply reads_keyword|]. cbn match.
    apply reads_expect_bind. intros p.
    eapply reads_bind; [by apply reads_literal|].
    eapply reads_bind; [apply reads_more_of|].
    + intros. apply reads_accept.
    + apply reads_no_accept. by intros x [=].
    + intros x rest' Hx. apply reads_literal; [by apply Hvs'|]. apply Hfvs. by rewrite <- list_elem_of_In.
    + apply reads_expect_bind. intros p'. apply reads_ret.
Qed.

Lemma reads_where ps rest :
  Forall wf_predicate ps → forallb predicate_float_free ps = true →
  ¬ head_is (kw "WHERE") rest → ¬ head_is (kw "AND") rest →
  reads where_clause (lex_where ps ++ rest) ps rest.
Proof.
  intros Hw Hf Hr1 Hr2. unfold where_clause. rewrite Forall_forall in Hw.
  rewrite forallb_forall in Hf. setoid_rewrite <- list_elem_of_In in Hf.
  destruct ps as [|p ps].
  - eapply reads_bind; [by apply reads_no_keyword|]. apply reads_ret.
  - change (lex_where (p :: ps) ++ rest)
      with (kw "WHERE" :: ((lex_predicate p ++ lex_more (kw "AND") lex_predicate ps) ++ rest)).
    rewrite <- app_assoc.
    eapply reads_bind; [apply reads_keyword|]. cbn match.
    eapply reads_bind; [apply reads_predicate; [apply Hw|apply Hf]; set_solver|].
    eapply reads_bind; [apply reads_more_of|apply reads_ret].
    + intros. apply reads_keyword.
    + by apply reads_no_keyword.
    + intros x rest' Hx. apply reads_predicate; [apply Hw|apply Hf]; set_solver.
Qed.

Lemma reads_direction v rest :
  v = "ASC" ∨ v = "DESC" → reads order_direction (kw v :: rest) v rest.
Proof.
  intros Hv ts (p & ts' & -> & H)%erase_cons. exists ts'. split; [done|].
  by destruct Hv as [->| ->].
Qed.

Lemma reads_order o rest :
  (∀ x, o = Some x → wf_order x) → ¬ head_is (kw "ORDER") rest →
  reads order_clause (lex_order o ++ rest) o rest.
Proof.
  intros Hw Hr. unfold order_clause. destruct o as [[f d n]|].
  - destruct (Hw _ eq_refl) as (_ & Hd & Hn). simpl in Hd, Hn.
    eapply reads_bind; [apply reads_keyword|]. cbn match.
    apply reads_expect_keyword_bind; [set_solver|]. intros p.
    eapply reads_bind; [apply reads_identifier|].
    eapply reads_bind; [by apply reads_direction|].
    eapply reads_bind; [apply reads_keyword|]. cbn match.
    eapply reads_bind; [|apply reads_ret].
    apply reads_expect_keyword_bind; [destruct Hn as [->| ->]; set_solver|]. intros p'. apply reads_ret.
  - eapply reads_bind; [by apply reads_no_keyword|]. apply reads_ret.
Qed.

Lemma reads_limit n rest :
  (∀ x, n = Some x → wf_count x) → ¬ head_is (kw "LIMIT") rest →
  reads limit_clause (lex_count "LIMIT" n ++ rest) n rest.
Proof.
  intros Hw Hr. unfold limit_clause. destruct n as [n|].
  - eapply reads_bind; [apply reads_keyword|]. cbn match.
    eapply reads_bind; [by apply reads_integer, Hw|]. apply reads_ret.
  - eapply reads_bind; [by apply reads_no_keyword|]. apply reads_ret.
Qed.

Lemma reads_offset n rest :
  wf_count n → reads offset_clause (lex_count "OFFSET" (Some n) ++ rest) n rest.
Proof.
  intros Hw. unfold offset_clause.
  eapply reads_bind; [apply reads_keyword|]. by apply reads_integer.
Qed.

(** No clause starts with the keyword of an earlier one. *)
Ltac no_head :=
  unfold head_is; intros;
  try match goal with |- context [lex_where ?x] => destruct x; [|done] end;
  try match goal with |- context [lex_order ?x] => destruct x; [done|] end;
  try match goal with |- context [lex_count "LIMIT" ?x] => destruct x; [done|] end;
  done.

Lemma reads_parse q : wf_query q → float_free q = true → reads parse (lex_query q) q [].
Proof.
  intros [Hfs Ho Hps Hob Hl Hoff] Hff. unfold parse, lex_query.
  apply reads_expect_keyword_bind; [set_solver|]. intros p.
  eapply reads_bind; [apply reads_fields; [done|no_head]|].
  apply reads_expect_keyword_bind; [set_solver|]. intros p'.
  eapply reads_bind; [apply reads_identifier|].
  eapply reads_bind; [apply reads_where; [done|done|no_head|no_head]|].
  eapply reads_bind; [apply reads_order; [done|no_head]|].
  eapply reads_bind; [apply reads_limit; [done|no_head]|].
  rewrite <- (app_nil_r (lex_count "OFFSET" _)).
  eapply reads_bind; [by apply reads_offset|].
  eapply reads_bind; [|destruct q; apply reads_ret].
  intros ts H. exists ts. split; [done|]. by destruct ts.
Qed.

(** The lexemes of a well-formed query are well formed. *)
Lemma wf_word_lexeme s : wf_word s → wf_lexeme (word s).
Proof. done. Qed.

Lemma wf_int_word z : wf_word (str_of_Z z).
Proof.
  assert (∃ l, chars (str_of_Z z) = l ∧ l ≠ [] ∧
    Forall (λ c, is_decimal c = true ∨ c = "-"%char) l) as (l & E & Hne & Hl).
  { destruct (dec_digits_spec (Z.abs z)) as (_ & Hd & Hne); [lia|]. eexists. split; [done|].
    unfold str_of_Z. destruct (Z.ltb_spec z 0); rewrite chars_str.
    - split; [done|]. constructor; [by right|]. replace (- z) with (Z.abs z) by lia.
      eapply Forall_impl; [exact Hd|]. by left.
    - replace z with (Z.abs z) by lia. split; [done|]. eapply Forall_impl; [exact Hd|]. by left. }
  unfold wf_word. rewrite E. split; [done|].
  assert (Forall (λ c, is_word_char c = true ∧ (upper_char c = c)) l) as Hw.
  { eapply Forall_impl; [exact Hl|]. intros c [Hc| ->]; [|done].
    unfold is_decimal, in_range in Hc. apply andb_true_iff in Hc. rewrite !Z.leb_le in Hc.
    rewrite <- (chr_code c). assert (code c ∈ seqZ 48 10) as Hin by (apply elem_of_seqZ; lia).
    repeat (apply elem_of_cons in Hin as [->|Hin]; [done|]). by apply elem_of_nil in Hin. }
  split; [eapply Forall_impl; [exact Hw|]; by intros c [? _]|].
  assert (upper (str_of_Z z) = str_of_Z z) as ->.
  { unfold upper. apply chars_inj. rewrite chars_str, E.
    clear E Hne Hl. induction Hw as [|c l [_ Hc] _ IH]; simpl; [done|]. rewrite Hc. f_equal. exact IH. }
  destruct (is_keyword (str_of_Z z)) eqn:Hk; [exfalso|done].
  assert (forallb (λ k, negb (existsb (λ c, is_decimal c || bool_decide (c = "-"%char)) (chars k)))
            KEYWORDS = true) as Hall by (vm_compute; reflexivity).
  rewrite forallb_forall in Hall.
  apply existsb_exists in Hk as (k & Hin & Heq%String.eqb_eq). specialize (Hall k Hin).
  rewrite <- Heq, E in Hall. destruct Hl as [|c l Hc Hl]; [done|]. simpl in Hall.
  destruct Hc as [Hc| ->]; [by rewrite Hc in Hall|done].
Qed.

Lemma wf_lex_literal l : wf_lexeme (lex_literal l).
Proof.
  destruct l as [|[]|z| |s]; try done; try (by repeat constructor; discriminate).
  apply wf_int_word.
Qed.

Lemma wf_lex_more {A} sep (f : A → list lexeme) l :
  wf_lexeme sep → (∀ x, x ∈ l → Forall wf_lexeme (f x)) → Forall wf_lexeme (lex_more sep f l).
Proof.
  intros Hs Hf. induction l as [|x l IH]; [constructor|].
  rewrite <- (app_nil_r (lex_more _ _ _)), lex_more_cons, app_nil_r.
  constructor; [done|]. apply Forall_app. split; [apply Hf; set_solver|].
  apply IH. intros y Hy. apply Hf. set_solver.
Qed.

Lemma wf_lex_predicate p : wf_predicate p → Forall wf_lexeme (lex_predicate p).
Proof.
  destruct p as [f o v|f vs]; simpl.
  - intros [Hf _]. destruct o; repeat (constructor; [first [done|apply wf_lex_literal|by eexists]|]); constructor.
  - intros (Hf & _ & _). destruct vs as [|v vs]; [constructor|].
    repeat (constructor; [first [done|apply wf_lex_literal]|]).
    apply Forall_app. split; [|by repeat constructor].
    apply wf_lex_more; [done|]. intros x _. constructor; [apply wf_lex_literal|constructor].
Qed.

Lemma wf_lex_query q : wf_query q → Forall wf_lexeme (lex_query q).
Proof.
  intros [Hfs Ho Hps Hob Hl Hoff]. unfold lex_query.
  constructor; [done|]. apply Forall_app. split.
  { destruct Hfs as [->|[Hne Hfs]]; [by repeat constructor|].
    destruct Hfs as [|f fs Hf Hfs]; [done|]. unfold lex_fields.
    destruct (String.eqb f "*"); [by repeat constructor|]. constructor; [done|].
    rewrite Forall_forall in Hfs.
    apply wf_lex_more; [done|]. intros x Hx. constructor; [by apply Hfs|constructor]. }
  constructor; [done|]. constructor; [done|]. apply Forall_app. split.
  { destruct Hps as [|p ps Hp Hps]; [constructor|]. constructor; [done|].
    apply Forall_app. split; [by apply wf_lex_predicate|]. rewrite Forall_forall in Hps.
    apply wf_lex_more; [done|]. intros x Hx. by apply wf_lex_predicate, Hps. }
  apply Forall_app. split.
  { destruct (q_order_by q) as [[f d n]|]; [|constructor].
    destruct (Hob _ eq_refl) as (Hf & Hd & Hn). simpl in *.
    destruct Hd as [->| ->], Hn as [->| ->];
      repeat (apply Forall_cons_2; [done|]); apply Forall_nil_2. }
  apply Forall_app. split.
  - destruct (q_limit q); [|constructor]. constructor; [done|]. constructor; [apply wf_int_word|constructor].
  - constructor; [done|]. constructor; [apply wf_int_word|constructor].
Qed.

(** C19: Parsing is a left inverse of printing: the canonical text of a well-formed query
    without [float] literals, its string literals quoted with every quote doubled, parses back
    to that query. *)
Theorem parse_print_query (q : SelectQuery) :
  wf_query q → float_free q = true → parse_soql (print_query q) = Ok q.
Proof.
  intros Hw Hf. unfold parse_soql, print_query, tokenize. rewrite chars_str.
  rewrite tokenize_lexemes; [|by apply wf_lex_query|done]. cbn [res_bind].
  destruct (reads_parse q Hw Hf (place 0 (lex_query q))) as (ts' & _ & E); [apply erase_place|].
  by rewrite E.
Qed.

Lemma parse_print_query_witness : parse_soql (print_query witness_query) = Ok witness_query.
Proof.
  apply (parse_print_query witness_query); [|vm_compute; reflexivity].
  assert (parse_soql witness_source = Ok witness_query) as E by (vm_compute; reflexivity).
  pose proof (parse_soql_spec witness_source) as H. rewrite E in H. exact H.
Defined.
