(* ===== verification/Catalog.v ===== *)
(** * The source catalog and the read views: [fakeforce/catalog.py], [fakeforce/engine.py]

    Dataset specifications as [_parse_object] builds them from the catalog's JSON, name
    resolution, the resolution cache, the virtual [EntityDefinition] and [FieldDefinition]
    objects, and the SQL of the views. The file system (globbing, reading a schema, file
    signatures) is given by arguments. *)

From stdpp Require Import prelude gmap strings list.
From Stdlib Require Import ZArith Lia Ascii.
From S2P Require Import Prelude PyText Soql.

Open Scope Z_scope.

(** ** Data *)

(** The Arrow types the code distinguishes. *)
Inductive field_type :=
| TString | TLargeString | TBool | TInteger | TFloating | TDate | TTimestamp (tz : bool) | TOther.

#[export] Instance field_type_eq_dec : EqDecision field_type.
Proof. solve_decision. Defined.

(** An Arrow schema: its fields in order. *)
Definition schema := list (string * field_type).

(** The rows of a table computed at catalog load. *)
Inductive cell := CNone | CBool (b : bool) | CInt (z : Z) | CText (s : string).

Record DatasetSpec := mkSpec {
  object_name : string;
  sources : list string;
  id_field : string;
  soft_delete_field : option string;
  mode : string;
  spec_schema : schema;
  delta_patterns : list string;
  version_field : option string;
  compatibility_aliases : list (string * string);
  computed_table : option (list (list cell));
  supports_limit : bool;
  supports_ne : bool;
  required_filter_fields : list string }.

(** A parsed JSON document; a float carries its text. *)
Inductive json :=
| JNull
| JBool (b : bool)
| JInt (z : Z)
| JFloat (text : string)
| JStr (s : string)
| JArr (l : list json)
| JObj (l : list (string * json)).

Fixpoint json_repr (j : json) : string :=
  match j with
  | JNull => "None"
  | JBool true => "True"
  | JBool false => "False"
  | JInt z => str_of_Z z
  | JFloat t => t
  | JStr s => py_repr s
  | JArr l => "[" +:+ join ", " (map json_repr l) +:+ "]"
  | JObj l => "{" +:+ join ", " (map (λ kv, py_repr kv.1 +:+ ": " +:+ json_repr kv.2) l) +:+ "}"
  end.

(** [entry.get(key, default)] *)
Definition jget (key : string) (d : list (string * json)) (dflt : json) : json :=
  default dflt (aget key d).

(** ** Parsing one catalog entry *)

Definition is_letter (c : ascii) : bool := in_range 65 90 c || in_range 97 122 c.
(** [_OBJECT_NAME.fullmatch] *)
Definition object_name_ok (s : string) : bool :=
  match chars s with
  | [] => false
  | c :: l => is_letter c && forallb (λ c, is_letter c || is_decimal c || bool_decide (c = "_"%char)) l
  end.

Definition DECLARED_FIELD_TYPES : list (string * field_type) :=
  [("string", TString); ("boolean", TBool); ("integer", TInteger); ("number", TFloating);
   ("date", TDate); ("timestamp", TTimestamp true)].

Definition declared_field (name : string) (kv : string * json) : res (string * field_type) :=
  if String.eqb kv.1 "" then raise CatalogError (name +:+ ": schema field names must be non-empty strings")
  else
    let unsupported := raise CatalogError (name +:+ ": unsupported schema type " +:+ json_repr kv.2
      +:+ "; use one of " +:+ join ", " (sort_on id DECLARED_FIELD_TYPES.*1)) in
    match kv.2 with
    | JStr t => match aget t DECLARED_FIELD_TYPES with
                | Some ty => Ok (kv.1, ty)
                | None => unsupported
                end
    | _ => unsupported
    end.

Definition _declared_schema (value : json) (name : string) : res (option schema) :=
  match value with
  | JNull => Ok None
  | JObj (kv :: l) => let! fields := res_map (declared_field name) (kv :: l) in Ok (Some fields)
  | _ => raise CatalogError (name +:+ ": schema must be a non-empty field/type mapping")
  end.

Definition raise_when (b : bool) (msg : string) : res unit :=
  if b then raise CatalogError msg else Ok tt.

Definition jstr (j : json) : option string := match j with JStr s => Some s | _ => None end.
Definition nonempty_str (j : json) : bool :=
  match j with JStr s => negb (String.eqb s "") | _ => false end.
(** [all(isinstance(x, str) for x in l)] and the strings *)
Definition jstrs (l : list json) : option (list string) := mapM jstr l.

Section Files.
(** [_expand_source] on one pattern, and the schema of a file. *)
Context (expand_source : string → res (list string)) (read_schema : string → res schema).

Definition expand_configured (name : string) (declared : option schema) (j : json)
    : res (list string) :=
  match j with
  | JStr configured =>
    let! matches := expand_source configured in
    let! _ := raise_when (bool_decide (matches = []) && bool_decide (declared = None))
                (name +:+ ": source does not match a file: " +:+ configured) in
    Ok matches
  | _ => raise CatalogError (name +:+ ": source paths must be strings")
  end.

(** The loop over the configured aliases: the schema and the aliases so far. *)
Definition add_alias (name : string) (source_schema : schema) (acc : schema * list (string * string))
    (kv : string * string) : res (schema * list (string * string)) :=
  match aget kv.2 source_schema with
  | None => raise CatalogError (name +:+ ": compatibility alias source " +:+ py_repr kv.2
                                +:+ " is absent from source schema")
  | Some ty =>
    match aget kv.1 source_schema with
    | Some _ => Ok acc
    | None => Ok (acc.1 ++ [(kv.1, ty)], acc.2 ++ [kv])
    end
  end.

Fixpoint add_aliases (name : string) (source_schema : schema) (acc : schema * list (string * string))
    (l : list (string * string)) : res (schema * list (string * string)) :=
  match l with
  | [] => Ok acc
  | kv :: l => let! acc := add_alias name source_schema acc kv in
               add_aliases name source_schema acc l
  end.

(** [alias: source] pairs of non-empty strings *)
Definition alias_pairs (j : json) : option (list (string * string)) :=
  match j with
  | JObj l => mapM (λ kv : string * json,
      match kv.2 with
      | JStr s => if String.eqb kv.1 "" || String.eqb s "" then None else Some (kv.1, s)
      | _ => None
      end) l
  | _ => None
  end.

Definition absent (field : string) (s : schema) : bool := bool_decide (aget field s = None).

(** The entry's options after its sources are resolved, checked in the code's order. *)
Definition parse_options (name : string) (entry : list (string * json)) (source_paths : list string)
    (declared : option schema) : res DatasetSpec :=
  let id_field := jget "id_field" entry (JStr "Id") in
  let soft_delete_field := jget "soft_delete_field" entry (JStr "IsDeleted") in
  let mode := jget "mode" entry (JStr "read_only") in
  let configured_deltas := jget "delta_patterns" entry (JArr []) in
  let version_field := jget "version_field" entry JNull in
  let configured_aliases := jget "compatibility_aliases" entry (JObj []) in
  let! _ := raise_when (negb (nonempty_str id_field))
              (name +:+ ": id_field must be a non-empty string") in
  let! soft := match soft_delete_field with
               | JNull => Ok None
               | JStr s => Ok (Some s)
               | _ => raise CatalogError (name +:+ ": soft_delete_field must be a string or null")
               end in
  let! md := match mode with
             | JStr s => if String.eqb s "read_only" || String.eqb s "mutable" then Ok s
                         else raise CatalogError (name +:+ ": mode must be read_only or mutable")
             | JArr _ | JObj _ => raise TypeError "unhashable type"
             | _ => raise CatalogError (name +:+ ": mode must be read_only or mutable")
             end in
  let! deltas := match configured_deltas with
                 | JArr l => match jstrs l with
                             | Some ps => Ok ps
                             | None => raise CatalogError (name +:+ ": delta_patterns must be a list of strings")
                             end
                 | _ => raise CatalogError (name +:+ ": delta_patterns must be a list of strings")
                 end in
  let! version := match version_field with
                  | JNull => Ok None
                  | JStr s => if String.eqb s "" then raise CatalogError (name +:+ ": version_field must be a non-empty string")
                              else Ok (Some s)
                  | _ => raise CatalogError (name +:+ ": version_field must be a non-empty string")
                  end in
  let! aliases := match alias_pairs configured_aliases with
                  | Some l => Ok l
                  | None => raise CatalogError (name +:+ ": compatibility_aliases must map field names to source fields")
                  end in
  let! _ := raise_when (negb (bool_decide (deltas = [])) && bool_decide (version = None))
              (name +:+ ": delta_patterns require version_field") in
  let! _ := raise_when (negb (bool_decide (deltas = [])) && negb (bool_decide (source_paths = []))
                        && negb (forallb (ends_with ".parquet") source_paths))
              (name +:+ ": Parquet delta patterns require Parquet base sources") in
  let! source_schema := match source_paths, declared with
                        | p :: _, _ => read_schema p
                        | [], Some s => Ok s
                        | [], None => raise AssertionError ""
                        end in
  let id := default "" (jstr id_field) in
  let! _ := raise_when (absent id source_schema)
              (name +:+ ": id field " +:+ py_repr id +:+ " is absent from source schema") in
  let! _ := match soft with
            | Some f => raise_when (absent f source_schema)
                (name +:+ ": soft-delete field " +:+ py_repr f +:+ " is absent from source schema")
            | None => Ok tt
            end in
  let! acc := add_aliases name source_schema (source_schema, []) aliases in
  let! _ := match version with
            | Some f => raise_when (absent f acc.1)
                (name +:+ ": version field " +:+ py_repr f +:+ " is absent from source schema")
            | None => Ok tt
            end in
  Ok (mkSpec name source_paths id soft md acc.1 deltas version acc.2 None true true []).

Definition _parse_object (entry : json) : res DatasetSpec :=
  match entry with
  | JObj entry =>
    match jget "name" entry JNull with
    | JStr name =>
      if object_name_ok name then
        match jget "sources" entry JNull with
        | JArr (s :: l) =>
          let! declared := _declared_schema (jget "schema" entry JNull) name in
          let! paths := res_map (expand_configured name declared) (s :: l) in
          let source_paths := concat paths in
          let! _ := raise_when (bool_decide (source_paths = []) && bool_decide (declared = None))
                      (name +:+ ": source does not match a file: " +:+ default "" (jstr s)) in
          parse_options name entry source_paths declared
        | _ => raise CatalogError (name +:+ ": sources must be a non-empty list")
        end
      else raise CatalogError ("invalid object name: " +:+ py_repr name)
    | j => raise CatalogError ("invalid object name: " +:+ json_repr j)
    end
  | _ => raise CatalogError "catalog object entries must be objects"
  end.
End Files.

(** ** The catalog *)

Record DatasetCatalog := mkCatalog {
  c_objects : list (string * DatasetSpec);
  c_by_casefold : list (string * DatasetSpec) }.

(** [DatasetCatalog.__init__] *)
Definition catalog_init (objects : list DatasetSpec) : res DatasetCatalog :=
  let named := dict_of ((λ o, (object_name o, o)) <$> objects) in
  if bool_decide (named.*1 = []) then raise CatalogError "catalog must expose at least one object"
  else
    let folded := dict_of ((λ kv, (casefold kv.1, kv.2)) <$> named) in
    if negb (Nat.eqb (length folded) (length named))
    then raise CatalogError "catalog object names must be unique without regard to case"
    else Ok (mkCatalog named folded).

Definition object_names (c : DatasetCatalog) : list string := (c_objects c).*1.

Definition get (c : DatasetCatalog) (name : string) : option DatasetSpec :=
  aget (casefold name) (c_by_casefold c).

(** ** SQL text of the views *)

(** [_quote_identifier] *)
Definition _quote_identifier (value : string) : string :=
  str [dquote] +:+ replace_char dquote (str [dquote; dquote]) value +:+ str [dquote].

(** [_quote_literal] *)
Definition _quote_literal (value : string) : string :=
  "'" +:+ replace_char "'" "''" value +:+ "'".

Definition relation_name (c : DatasetCatalog) (name : string) : res string :=
  match get c name with
  | None => raise KeyError ("unknown configured object: " +:+ name)
  | Some _ => Ok ("ff_source_" +:+ name)
  end.

Definition _duckdb_type (t : field_type) : res string :=
  match t with
  | TString | TLargeString => Ok "VARCHAR"
  | TBool => Ok "BOOLEAN"
  | TInteger => Ok "BIGINT"
  | TFloating => Ok "DOUBLE"
  | TDate => Ok "DATE"
  | TTimestamp tz => Ok (if tz then "TIMESTAMPTZ" else "TIMESTAMP")
  | TOther => raise ValueError "unsupported declared Arrow type"
  end.

Definition _source_reader (source_paths : list string) (sch : option schema) : res string :=
  match source_paths with
  | [] =>
    match sch with
    | None => raise ValueError "an empty source set requires a declared schema"
    | Some fields =>
      let! projection := res_map (λ f : string * field_type,
        let! t := _duckdb_type f.2 in
        Ok ("CAST(NULL AS " +:+ t +:+ ") AS " +:+ _quote_identifier f.1)) fields in
      Ok ("(SELECT " +:+ join ", " projection +:+ " WHERE FALSE)")
    end
  | _ =>
    let paths := join ", " (_quote_literal <$> source_paths) in
    if forallb (ends_with ".parquet") source_paths
    then Ok ("read_parquet([" +:+ paths +:+ "], union_by_name = true)")
    else if forallb (λ p, ends_with ".csv" p || ends_with ".csv.gz" p) source_paths
    then Ok ("read_csv_auto([" +:+ paths +:+ "], header = true, union_by_name = true)")
    else raise ValueError "all configured sources must share a supported format"
  end.

Definition _aliased_reader (spec : DatasetSpec) (paths : list string) : res string :=
  let! reader := _source_reader paths (Some (spec_schema spec)) in
  if negb (bool_decide (paths = [])) && negb (bool_decide (compatibility_aliases spec = [])) then
    let aliases := join ", " ((λ kv : string * string,
      _quote_identifier kv.2 +:+ " AS " +:+ _quote_identifier kv.1) <$> compatibility_aliases spec) in
    Ok ("(SELECT *, " +:+ aliases +:+ " FROM " +:+ reader +:+ ")")
  else Ok reader.

Definition VERSION_RANK : string := "__fakeforce_version_rank".
Definition LATEST_DELTA : string := "__fakeforce_latest_delta".
Definition BASE : string := "__fakeforce_base".

Definition _newest_per_id_sql (spec : DatasetSpec) (version reader : string) : string :=
  "SELECT * EXCLUDE (" +:+ VERSION_RANK +:+ ") FROM ("
  +:+ "SELECT *, row_number() OVER (PARTITION BY " +:+ _quote_identifier (id_field spec)
  +:+ " ORDER BY " +:+ _quote_identifier version +:+ " DESC) AS " +:+ VERSION_RANK
  +:+ " FROM " +:+ reader +:+ ") WHERE " +:+ VERSION_RANK +:+ " = 1".

(** How [_latest_version_sql] splits the current sources: the base files and the deltas. *)
Definition split_sources (current effective_base : list string) : list string * list string :=
  (filter (λ p, existsb (String.eqb p) effective_base = true) current,
   filter (λ p, existsb (String.eqb p) effective_base = false) current).

Definition _latest_version_sql (spec : DatasetSpec) (current effective_base : list string)
    : res string :=
  match version_field spec with
  | None => let! r := _aliased_reader spec current in Ok ("SELECT * FROM " +:+ r)
  | Some version =>
    let '(base_paths, delta_paths) := split_sources current effective_base in
    match delta_paths with
    | [] => let! r := _aliased_reader spec base_paths in Ok ("SELECT * FROM " +:+ r)
    | _ =>
      let! dr := _aliased_reader spec delta_paths in
      let latest := _newest_per_id_sql spec version dr in
      match base_paths with
      | [] => Ok latest
      | _ =>
        let! br := _aliased_reader spec base_paths in
        let id := _quote_identifier (id_field spec) in
        Ok ("WITH " +:+ LATEST_DELTA +:+ " AS MATERIALIZED (" +:+ latest +:+ ") "
            +:+ "SELECT * FROM " +:+ br +:+ " AS " +:+ BASE +:+ " "
            +:+ "WHERE NOT EXISTS (SELECT 1 FROM " +:+ LATEST_DELTA +:+ " "
            +:+ "WHERE " +:+ LATEST_DELTA +:+ "." +:+ id +:+ " = " +:+ BASE +:+ "." +:+ id +:+ ") "
            +:+ "UNION ALL BY NAME SELECT * FROM " +:+ LATEST_DELTA)
      end
    end
  end.

(** ** The metadata objects *)

Definition str_take_back (n : nat) (s : string) : string :=
  str (take (length (chars s) - n) (chars s)).

(** [(DataType, ValueTypeId, Length, Precision, Scale, ReferenceTo)] *)
Record type_info := mkInfo {
  ti_data_type : string; ti_value_type : string; ti_length : option Z;
  ti_precision : option Z; ti_scale : option Z; ti_reference : option string }.

Definition _field_type_info (f : string * field_type) (spec : DatasetSpec) (names : list string)
    : type_info :=
  let name := f.1 in
  let candidate := str_take_back 2 name in
  if String.eqb name (id_field spec) then mkInfo "Id" "xsd:string" (Some 18) None None None
  else if ends_with "Id" name && existsb (String.eqb candidate) names then
    mkInfo ("Lookup(" +:+ candidate +:+ ")") "xsd:string" (Some 18) None None (Some candidate)
  else match f.2 with
  | TBool => mkInfo "Checkbox" "xsd:boolean" None None None None
  | TInteger => mkInfo "Number(18, 0)" "xsd:int" None (Some 18) (Some 0) None
  | TFloating => mkInfo "Number(18, 2)" "xsd:double" None (Some 18) (Some 2) None
  | TDate => mkInfo "Date" "xsd:date" None None None None
  | TTimestamp _ => mkInfo "Date/Time" "xsd:dateTime" None None None None
  | TString | TLargeString | TOther => mkInfo "Text(255)" "xsd:string" (Some 255) None None None
  end.

Definition _FIELD_DEFINITION_SCHEMA : schema :=
  [("DurableId", TString); ("EntityDefinitionId", TString);
   ("EntityDefinition.QualifiedApiName", TString); ("QualifiedApiName", TString);
   ("Label", TString); ("DataType", TString); ("ValueTypeId", TString); ("Length", TInteger);
   ("Precision", TInteger); ("Scale", TInteger); ("IsNillable", TBool); ("IsNameField", TBool);
   ("IsIndexed", TBool); ("IsApiFilterable", TBool); ("IsApiSortable", TBool);
   ("IsApiGroupable", TBool); ("ReferenceTo", TString); ("RelationshipName", TString)].

Definition _ENTITY_DEFINITION_SCHEMA : schema :=
  [("DurableId", TString); ("QualifiedApiName", TString); ("DeveloperName", TString);
   ("Label", TString); ("PluralLabel", TString); ("MasterLabel", TString); ("KeyPrefix", TString);
   ("IsQueryable", TBool); ("IsRetrieveable", TBool); ("IsIdEnabled", TBool);
   ("IsEverCreatable", TBool); ("IsEverUpdatable", TBool); ("IsEverDeletable", TBool);
   ("NamespacePrefix", TString); ("LastModifiedDate", TTimestamp true)].

Definition ocell {A} (f : A → cell) (o : option A) : cell := from_option f CNone o.

Definition field_definition_row (names : list string) (spec : DatasetSpec) (entity_id : string)
    (f : string * field_type) : list cell :=
  let name := f.1 in
  let i := _field_type_info f spec names in
  let indexed := String.eqb name (id_field spec) || bool_decide (soft_delete_field spec = Some name)
                 || bool_decide (version_field spec = Some name) in
  [CText (entity_id +:+ "." +:+ name); CText entity_id; CText (object_name spec); CText name;
   CText name; CText (ti_data_type i); CText (ti_value_type i); ocell CInt (ti_length i);
   ocell CInt (ti_precision i); ocell CInt (ti_scale i);
   CBool (negb (String.eqb name (id_field spec))); CBool (String.eqb name "Name"); CBool indexed;
   CBool true; CBool true; CBool true; ocell CText (ti_reference i); ocell CText (ti_reference i)].

Definition computed_spec (name : string) (sch : schema) (rows : list (list cell))
    (required : list string) : DatasetSpec :=
  mkSpec name [] "DurableId" None "computed" sch [] None [] (Some rows) false false required.

Section Metadata.
(** [_sample_id_prefix] of an object and the modification time of its first source. *)
Context (id_prefix modified : DatasetSpec → string).

Definition _field_definition_spec (objects : list DatasetSpec) : DatasetSpec :=
  let names := object_name <$> objects in
  computed_spec "FieldDefinition" _FIELD_DEFINITION_SCHEMA
    (objects ≫= λ spec, field_definition_row names spec (id_prefix spec) <$> spec_schema spec)
    ["EntityDefinition.QualifiedApiName"; "EntityDefinitionId"].

Definition entity_definition_row (spec : DatasetSpec) : list cell :=
  let name := object_name spec in
  let developer_name := if ends_with "__c" name then str_take_back 3 name else name in
  let mutable := String.eqb (mode spec) "mutable" in
  [CText (id_prefix spec); CText name; CText developer_name; CText name; CText (name +:+ "s");
   CText name; CText (id_prefix spec); CBool true; CBool true; CBool true;
   CBool mutable; CBool mutable; CBool mutable; CNone; CText (modified spec)].

Definition _entity_definition_spec (objects : list DatasetSpec) : DatasetSpec :=
  computed_spec "EntityDefinition" _ENTITY_DEFINITION_SCHEMA (entity_definition_row <$> objects) [].

Definition _metadata_catalog_specs (objects : list DatasetSpec) : list DatasetSpec :=
  [_entity_definition_spec objects; _field_definition_spec objects].

(** [raw.get("version") != 1]: [True] and [1.0] equal [1] too. *)
Definition is_version_1 (j : json) : bool :=
  match j with
  | JInt z => z =? 1
  | JBool b => b
  | JFloat t => String.eqb t "1.0"
  | _ => false
  end.

(** [DatasetCatalog.from_file] from the parsed document on. *)
Definition from_document (expand_source : string → res (list string))
    (read_schema : string → res schema) (roots : list string) (raw : list (string * json))
    : res DatasetCatalog :=
  let! _ := raise_when (negb (is_version_1 (jget "version" raw JNull))) "catalog version must be 1" in
  match jget "objects" raw JNull with
  | JArr entries =>
    let! _ := raise_when (bool_decide (roots = [])) "at least one allowed data root is required" in
    let! objects := res_map (_parse_object expand_source read_schema) entries in
    let! _ := raise_when (negb (bool_decide (NoDup (object_name <$> objects))))
                "catalog object names must be unique" in
    catalog_init (objects ++ _metadata_catalog_specs objects)
  | _ => raise CatalogError "catalog objects must be a list"
  end.
End Metadata.

(** ** Well-formed specifications *)

(** What a query may rely on. *)
Record spec_wf (s : DatasetSpec) : Prop := {
  wf_id : id_field s ∈ (spec_schema s).*1;
  wf_soft_delete : ∀ f, soft_delete_field s = Some f → f ∈ (spec_schema s).*1;
  wf_version : ∀ f, version_field s = Some f → f ∈ (spec_schema s).*1;
  wf_deltas : delta_patterns s ≠ [] → is_Some (version_field s);
  wf_aliases : ∀ a f, (a, f) ∈ compatibility_aliases s →
    a ∈ (spec_schema s).*1 ∧ f ∈ (spec_schema s).*1;
  wf_required : ∀ f, f ∈ required_filter_fields s → f ∈ (spec_schema s).*1 }.

Lemma raise_when_ok b msg : raise_when b msg = Ok tt → b = false.
Proof. by destruct b. Qed.

Lemma absent_false f s : absent f s = false → f ∈ s.*1.
Proof.
  unfold absent. rewrite bool_decide_eq_false. intros H.
  destruct (aget f s) as [t|] eqn:E; [|done]. apply aget_Some in E.
  by apply (list_elem_of_fmap_2 fst) in E.
Qed.

Lemma absent_true f s : absent f s = true → aget f s = None.
Proof. unfold absent. by rewrite bool_decide_eq_true. Qed.

(** The aliases extend the source schema by the alias names and nothing else. *)
Lemma add_aliases_spec name src l acc acc' :
  add_aliases name src acc l = Ok acc' →
  (∃ ext, acc.1 = src ++ ext) →
  (∀ a f, (a, f) ∈ acc.2 → a ∈ acc.1.*1 ∧ f ∈ src.*1) →
  (∃ ext, acc'.1 = src ++ ext) ∧ (∀ a f, (a, f) ∈ acc'.2 → a ∈ acc'.1.*1 ∧ f ∈ src.*1).
Proof.
  revert acc. induction l as [|[a f] l IH]; intros acc H Hext Hal; simpl in H.
  - injection H as <-. done.
  - apply res_bind_ok in H as (acc1 & H1 & H). apply (IH acc1); [done| |].
    + unfold add_alias in H1. simpl in H1. destruct (aget f src) as [ty|]; [|done].
      destruct (aget a src); injection H1 as <-; [done|].
      destruct Hext as [ext ->]. exists (ext ++ [(a, ty)]). simpl. by rewrite app_assoc.
    + unfold add_alias in H1. simpl in H1. destruct (aget f src) as [ty|] eqn:Ef; [|done].
      destruct (aget a src); injection H1 as <-; [done|]. simpl.
      intros a' f'. rewrite elem_of_app, fmap_app, list_elem_of_singleton.
      intros [Hin|[= -> ->]].
      * destruct (Hal _ _ Hin). split; [set_solver|done].
      * split; [set_solver|]. apply aget_Some in Ef. by apply (list_elem_of_fmap_2 fst) in Ef.
Qed.

Ltac unbind H x E := apply res_bind_ok in H as (x & E & H).

Lemma parse_options_wf read_schema name entry paths declared s :
  parse_options read_schema name entry paths declared = Ok s → spec_wf s ∧ object_name s = name.
Proof.
  unfold parse_options. intros H.
  unbind H u1 E1. unbind H soft E2. unbind H md E3. unbind H deltas E4. unbind H version E5.
  unbind H aliases E6. unbind H u7 E7. unbind H u8 E8. unbind H src E9. unbind H u10 E10.
  unbind H u11 E11. unbind H acc E12. unbind H u13 E13.
  destruct u7, u10, u11, u13. apply raise_when_ok, absent_false in E10.
  apply add_aliases_spec in E12 as [[ext Hext] Hal];
    [|by exists []; rewrite app_nil_r|by intros ? ? Hn%elem_of_nil].
  injection H as <-. split; [|done].
  split; simpl.
  - rewrite Hext, fmap_app. set_solver.
  - intros f ->. apply raise_when_ok, absent_false in E11. rewrite Hext, fmap_app. set_solver.
  - intros f ->. by apply raise_when_ok, absent_false in E13.
  - intros Hd. apply raise_when_ok in E7. rewrite bool_decide_eq_false_2 in E7 by done. simpl in E7.
    destruct version; [eauto|]. by rewrite bool_decide_eq_true_2 in E7.
  - intros a f Hin. destruct (Hal a f Hin) as [Ha Hf]. split; [done|].
    rewrite Hext, fmap_app. set_solver.
  - by intros f Hn%elem_of_nil.
Qed.

Lemma parse_object_spec expand read_schema entry s :
  _parse_object expand read_schema entry = Ok s → spec_wf s ∧ object_name_ok (object_name s) = true.
Proof.
  unfold _parse_object. destruct entry as [| | | | | |entry]; try done.
  destruct (jget "name" entry JNull) as [| | | |name| |]; try done.
  destruct (object_name_ok name) eqn:Hn; [|done].
  destruct (jget "sources" entry JNull) as [| | | | |[|s0 l]|]; try done. intros H.
  unbind H declared E1. unbind H paths E2. unbind H u3 E3.
  apply parse_options_wf in H as [? ->]. done.
Qed.

Lemma metadata_specs_wf id_prefix modified objects s :
  s ∈ _metadata_catalog_specs id_prefix modified objects → spec_wf s.
Proof.
  unfold _metadata_catalog_specs. rewrite !elem_of_cons, elem_of_nil.
  intros [->|[->|[]]]; split; simpl; try done; try set_solver.
Qed.

(** ** Name resolution *)

Lemma res_map_ok {A B} (f : A → res B) l ys y :
  res_map f l = Ok ys → y ∈ ys → ∃ x, x ∈ l ∧ f x = Ok y.
Proof.
  revert ys. induction l as [|x l IH]; intros ys H Hy; simpl in H.
  - injection H as <-. by apply elem_of_nil in Hy.
  - apply res_bind_ok in H as (y0 & E0 & H). apply res_bind_ok in H as (ys' & E & [= <-]).
    apply elem_of_cons in Hy as [->|Hy]; [exists x; set_solver|].
    destruct (IH ys' E Hy) as (x' & ? & ?). exists x'. set_solver.
Qed.

Lemma catalog_init_get objects c :
  catalog_init objects = Ok c →
  (∀ n o, get c n = Some o → o ∈ objects ∧ casefold (object_name o) = casefold n) ∧
  (∀ o, o ∈ objects → ∃ o', get c (object_name o) = Some o' ∧ object_name o' = object_name o).
Proof.
  unfold catalog_init. set (pairs := (λ o, (object_name o, o)) <$> objects).
  case_bool_decide; [done|].
  destruct (foldl_aset_spec pairs []) as (Hnd & Hkeys & Hels & _); [constructor|].
  change (foldl (λ d kv, aset kv.1 kv.2 d) [] pairs) with (dict_of pairs) in *.
  set (named := dict_of pairs) in *.
  set (folds := (λ kv : string * DatasetSpec, (casefold kv.1, kv.2)) <$> named) in *.
  destruct (foldl_aset_spec folds []) as (Hnd' & _ & _ & _ & Hlen); [constructor|].
  change (foldl (λ d kv, aset kv.1 kv.2 d) [] folds) with (dict_of folds) in *.
  destruct (Nat.eqb_spec (length (dict_of folds)) (length named)) as [E|]; [|done].
  intros [= <-]. simpl in Hlen. unfold folds in Hlen at 2. rewrite length_fmap in Hlen.
  specialize (Hlen E). unfold get. cbn [c_by_casefold].
  rewrite (dict_of_nodup folds) by done.
  assert (∀ k o, (k, o) ∈ named → k = object_name o ∧ o ∈ objects) as Hnamed.
  { intros k o Hin. destruct (Hels _ Hin) as [Hn|Hp]; [by apply elem_of_nil in Hn|].
    unfold pairs in Hp. apply list_elem_of_fmap in Hp as (o' & [= -> ->] & Ho). done. }
  split.
  - intros n o Hg%aget_Some. apply list_elem_of_fmap in Hg as ([k o'] & [= En ->] & Hin).
    apply Hnamed in Hin as [-> Hin]. done.
  - intros o Ho.
    assert (object_name o ∈ named.*1) as Hk.
    { apply Hkeys. right. unfold pairs. rewrite <- list_fmap_compose. by apply list_elem_of_fmap_2. }
    apply list_elem_of_fmap in Hk as ([k o'] & E' & Hin). simpl in E'. exists o'.
    destruct (Hnamed _ _ Hin) as [Ek _]. split; [|congruence]. apply aget_NoDup; [done|].
    apply list_elem_of_fmap. exists (k, o'). simpl. by rewrite E'.
Qed.

(** Whatever the catalog's JSON and the files are, every object of a catalog that loads is
    well formed: its id, soft-delete and version fields exist in its schema, deltas come with a
    version field, alias names and their sources exist in the schema, and so do the fields a
    query must filter on. *)
Theorem from_document_wf (id_prefix modified : DatasetSpec → string)
    (expand : string → res (list string)) (read_schema : string → res schema)
    (roots : list string) (raw : list (string * json)) (c : DatasetCatalog) (name : string)
    (s : DatasetSpec) :
  from_document id_prefix modified expand read_schema roots raw = Ok c →
  get c name = Some s →
  spec_wf s ∧ casefold (object_name s) = casefold name.
Proof.
  unfold from_document. intros H Hget. unbind H u1 E1.
  destruct (jget "objects" raw JNull) as [| | | | |entries|]; try done.
  unbind H u2 E2. unbind H objects E3. unbind H u4 E4.
  destruct (catalog_init_get _ _ H) as [Hin _]. apply Hin in Hget as [Hs Hc]. split; [|done].
  apply elem_of_app in Hs as [Hs|Hs]; [|by eapply metadata_specs_wf].
  destruct (res_map_ok _ _ _ _ E3 Hs) as (e & _ & He). by eapply parse_object_spec.
Qed.

(** Object names resolve without regard to case: in a catalog that was accepted two spellings
    with the same case folding name the same object, every object is found under its own name,
    and the object found carries the canonical spelling. *)
Theorem catalog_resolution (objects : list DatasetSpec) (c : DatasetCatalog) :
  catalog_init objects = Ok c →
  (∀ n n', casefold n = casefold n' → get c n = get c n') ∧
  (∀ n o, get c n = Some o → o ∈ objects ∧ casefold (object_name o) = casefold n) ∧
  (∀ o, o ∈ objects → ∃ o', get c (object_name o) = Some o' ∧ object_name o' = object_name o).
Proof.
  intros H. split; [|by apply catalog_init_get].
  intros n n' E. unfold get. by rewrite E.
Qed.

Definition witness_spec : DatasetSpec :=
  mkSpec "Account" ["/data/account.parquet"] "Id" (Some "IsDeleted") "read_only"
    [("Id", TString); ("Name", TString); ("IsDeleted", TBool); ("SystemModstamp", TTimestamp true)]
    ["account/date=*/*.parquet"] (Some "SystemModstamp") [] None true true [].

Lemma catalog_resolution_witness :
  let c := mkCatalog [("Account", witness_spec)] [("account", witness_spec)] in
  (∀ n n', casefold n = casefold n' → get c n = get c n') ∧
  (∀ n o, get c n = Some o → o ∈ [witness_spec] ∧ casefold (object_name o) = casefold n) ∧
  (∀ o, o ∈ [witness_spec] → ∃ o', get c (object_name o) = Some o' ∧ object_name o' = object_name o).
Proof. apply (catalog_resolution [witness_spec]). vm_compute. reflexivity. Defined.

Definition witness_document : list (string * json) :=
  [("version", JInt 1);
   ("objects", JArr [JObj [("name", JStr "Account"); ("sources", JArr [JStr "account.parquet"]);
                           ("version_field", JStr "Modified");
                           ("compatibility_aliases", JObj [("Modified", JStr "SystemModstamp")])]])].
Definition witness_read_schema (p : string) : res schema :=
  Ok [("Id", TString); ("IsDeleted", TBool); ("SystemModstamp", TTimestamp true)].

Lemma from_document_wf_witness :
  ∃ c s, from_document (λ _, "001") (λ _, "2024") (λ p, Ok [p]) witness_read_schema ["/data"]
           witness_document = Ok c ∧ get c "ACCOUNT" = Some s ∧ spec_wf s ∧
         casefold (object_name s) = casefold "ACCOUNT".
Proof.
  destruct (from_document (λ _, "001") (λ _, "2024") (λ p, Ok [p]) witness_read_schema ["/data"]
             witness_document) as [c|] eqn:E; [|vm_compute in E; discriminate].
  destruct (get c "ACCOUNT") as [s|] eqn:Eg;
    [|vm_compute in E; injection E as <-; vm_compute in Eg; discriminate].
  exists c, s. split; [reflexivity|]. split; [exact Eg|].
  exact (from_document_wf _ _ _ _ _ _ c "ACCOUNT" s E Eg).
Defined.
