(* ===== verification/Compaction.v ===== *)
(** * Versions and compaction: [fakeforce/engine.py], [fakeforce/compaction.py]

    What the SQL of [_latest_version_sql] and [_write_merged] computes on rows, and the
    compaction of published delta partitions as a sequence of durable steps that may be cut
    short anywhere. *)

From stdpp Require Import prelude gmap strings list.
From Stdlib Require Import ZArith Lia Ascii.
From S2P Require Import Prelude PyText Soql Catalog.

Open Scope Z_scope.

Section Rows.
Context {R : Type} `{EqDecision R} (rid : R → string) (ver : R → Z).

(** ** The relational operations of the SQL *)

Definition has_id (i : string) (r : R) : bool := String.eqb (rid r) i.

(** [ORDER BY version DESC] *)
Definition newer (a b : R) : bool := ver b <=? ver a.

(** [row_number() OVER (PARTITION BY id ORDER BY version DESC) = 1]: one row per id. *)
Definition newest_per_id (rows : list R) : list R :=
  omap (λ i, head (sort_by newer (filter (λ r, has_id i r = true) rows)))
    (remove_dups (rid <$> rows)).

(** [WHERE NOT EXISTS (... delta.id = base.id)] *)
Definition not_superseded (latest : list R) (b : R) : bool :=
  negb (existsb (has_id (rid b)) latest).

(** The view of [_latest_version_sql]: the base rows no delta supersedes, then the newest
    delta row of each id; with no deltas or no base it is the other part. *)
Definition latest_version (versioned : bool) (base deltas : list R) : list R :=
  if versioned then
    match deltas, base with
    | [], _ => base
    | _, [] => newest_per_id deltas
    | _, _ => filter (λ b, not_superseded (newest_per_id deltas) b = true) base
              ++ newest_per_id deltas
    end
  else base ++ deltas.

(** ** The published store of one object *)

Record store := mkStore {
  st_base : list R;
  st_parts : list (string * list R) }.

Definition delta_rows (ps : list (string * list R)) : list R := concat ps.*2.

Definition view (s : store) : list R := latest_version true (st_base s) (delta_rows (st_parts s)).

Definition is_worthwhile (partitions : list (string * list R)) : bool :=
  (0 <? Z.of_nat (length partitions)).

(** [_write_merged]: base and partitions are ranked together and replace the base. *)
Definition write_merged (planned : list (string * list R)) (s : store) : store :=
  mkStore (newest_per_id (st_base s ++ delta_rows planned)) (st_parts s).

(** [path.unlink()]; a missing file is skipped. *)
Definition unlink (path : string) (s : store) : store :=
  mkStore (st_base s) (filter (λ p, String.eqb p.1 path = false) (st_parts s)).

(** [_remove] on the paths of the plan, in order. *)
Definition remove (paths : list string) (s : store) : store := foldl (λ s p, unlink p s) s paths.

(** [compact] *)
Definition compact (s : store) : store :=
  if is_worthwhile (st_parts s)
  then remove ((st_parts s).*1) (write_merged (st_parts s) s) else s.

(** [compact] interrupted: the plan was taken on [s]; [published] is what appeared since, and
    [k] is how many of the planned partitions were removed before the process died. *)
Definition compact_upto (k : nat) (published : list (string * list R)) (s : store) : store :=
  let s' := mkStore (st_base s) (st_parts s ++ published) in
  remove (take k (st_parts s).*1) (write_merged (st_parts s) s').

(** ** Ranking *)

Lemma newer_total a b : newer a b = true ∨ newer b a = true.
Proof. unfold newer. rewrite !Z.leb_le. lia. Qed.

Lemma newer_trans a b c : newer a b = true → newer b c = true → newer a c = true.
Proof. unfold newer. rewrite !Z.leb_le. lia. Qed.

(** Distinct rows of one id have distinct versions. *)
Definition versions_distinct (l : list R) : Prop :=
  ∀ a b, a ∈ l → b ∈ l → rid a = rid b → ver a = ver b → a = b.

(** [r] is the newest row of its id in [l]. *)
Definition newest_in (l : list R) (r : R) : Prop :=
  r ∈ l ∧ ∀ r', r' ∈ l → rid r' = rid r → ver r' ≤ ver r.

Lemma head_newest l r : head (sort_by newer l) = Some r → r ∈ l ∧ ∀ r', r' ∈ l → ver r' ≤ ver r.
Proof.
  pose proof (sort_by_sorted newer newer_total newer_trans l) as Hs.
  destruct (sort_by newer l) as [|x xs] eqn:E; [done|]. intros [= <-].
  assert (x ∈ l) as Hx by (rewrite <- (elem_of_sort_by newer), E; set_solver).
  split; [done|]. intros r' Hr'. rewrite <- (elem_of_sort_by newer), E in Hr'.
  inversion Hs as [|? ? _ Hall]; subst. rewrite Forall_forall in Hall.
  apply elem_of_cons in Hr' as [->|Hr']; [lia|].
  specialize (Hall r' Hr'). unfold newer in Hall. by apply Z.leb_le in Hall.
Qed.

Lemma newest_per_id_in l r : r ∈ newest_per_id l → newest_in l r.
Proof.
  unfold newest_per_id. rewrite list_elem_of_omap. intros (i & _ & H).
  apply head_newest in H as [Hin Hmax]. apply list_elem_of_filter in Hin as [Hid Hin].
  unfold has_id in Hid. apply String.eqb_eq in Hid. split; [done|].
  intros r' Hr' Hi. apply Hmax. apply list_elem_of_filter. unfold has_id.
  rewrite Hi, Hid, String.eqb_refl. done.
Qed.

Lemma newest_per_id_covers l r : r ∈ l → ∃ r', r' ∈ newest_per_id l ∧ rid r' = rid r.
Proof.
  intros Hr.
  assert (r ∈ sort_by newer (filter (λ r0, has_id (rid r) r0 = true) l)) as Hin.
  { rewrite elem_of_sort_by, list_elem_of_filter. unfold has_id. by rewrite String.eqb_refl. }
  destruct (sort_by newer (filter (λ r0, has_id (rid r) r0 = true) l)) as [|x xs] eqn:E;
    [by apply elem_of_nil in Hin|].
  assert (x ∈ filter (λ r0, has_id (rid r) r0 = true) l) as Hx
    by (rewrite <- (elem_of_sort_by newer), E; set_solver).
  apply list_elem_of_filter in Hx as [Hid Hx]. unfold has_id in Hid. apply String.eqb_eq in Hid.
  exists x. split; [|done]. unfold newest_per_id. apply list_elem_of_omap.
  exists (rid r). rewrite E. split; [|done]. apply elem_of_remove_dups. by apply list_elem_of_fmap_2.
Qed.

Lemma newest_per_id_rids l : NoDup (rid <$> newest_per_id l).
Proof.
  unfold newest_per_id.
  assert (∀ ids, NoDup ids → (∀ i, i ∈ ids → i ∈ rid <$> l) →
    NoDup (rid <$> omap (λ i, head (sort_by newer (filter (λ r, has_id i r = true) l))) ids)) as H.
  { induction 1 as [|i ids Hi Hnd IH]; intros Hin; simpl; [constructor|].
    destruct (head _) as [x|] eqn:E; simpl; [|apply IH; set_solver].
    constructor; [|apply IH; set_solver].
    apply head_newest in E as [E _]. apply list_elem_of_filter in E as [E _].
    unfold has_id in E. apply String.eqb_eq in E. rewrite E.
    intros (y & Ey & Hy)%list_elem_of_fmap. apply list_elem_of_omap in Hy as (j & Hj & Hy).
    apply head_newest in Hy as [Hy _]. apply list_elem_of_filter in Hy as [Hy _].
    unfold has_id in Hy. apply String.eqb_eq in Hy. congruence. }
  apply H; [apply NoDup_remove_dups|]. intros i. by rewrite elem_of_remove_dups.
Qed.

Lemma NoDup_rid l : NoDup (rid <$> l) → NoDup l.
Proof. apply NoDup_fmap_1. Qed.

(** With distinct versions, ranking selects exactly the newest rows. *)
Lemma elem_of_newest_per_id l r :
  versions_distinct l → (r ∈ newest_per_id l ↔ newest_in l r).
Proof.
  intros Hd. split; [apply newest_per_id_in|]. intros [Hr Hmax].
  destruct (newest_per_id_covers l r Hr) as (r' & Hr' & Hid).
  pose proof (newest_per_id_in l r' Hr') as [Hin Hmax'].
  assert (r' = r) as <-; [|done]. apply Hd; try done.
  specialize (Hmax r' Hin Hid). specialize (Hmax' r Hr (eq_sym Hid)). lia.
Qed.

(** The base holds one row per id and no delta is older than the base row of its id. *)
Record deltas_newer (base deltas : list R) : Prop := {
  dn_base : NoDup (rid <$> base);
  dn_distinct : versions_distinct (base ++ deltas);
  dn_newer : ∀ b d, b ∈ base → d ∈ deltas → rid b = rid d → ver b ≤ ver d }.

Lemma existsb_has_id i l : existsb (has_id i) l = true ↔ ∃ r, r ∈ l ∧ rid r = i.
Proof.
  rewrite existsb_exists. setoid_rewrite <- list_elem_of_In. unfold has_id.
  setoid_rewrite String.eqb_eq. done.
Qed.

(** The rows of the view: base rows without a delta, and newest deltas. *)
Lemma elem_of_view base deltas r :
  versions_distinct deltas →
  (r ∈ latest_version true base deltas ↔
   (r ∈ base ∧ ∀ d, d ∈ deltas → rid d ≠ rid r) ∨ newest_in deltas r).
Proof.
  intros Hdd. unfold latest_version. destruct deltas as [|d0 ds]; [|destruct base as [|b0 bs]].
  - split; [left; split; [done|by intros d ?%elem_of_nil]|].
    intros [[? _]|[?%elem_of_nil _]]; done.
  - rewrite elem_of_newest_per_id by done. split; [by right|].
    intros [[?%elem_of_nil _]|?]; done.
  - rewrite elem_of_app, elem_of_newest_per_id by done. f_equiv.
    rewrite list_elem_of_filter. unfold not_superseded. rewrite negb_true_iff.
    rewrite <- not_true_iff_false, existsb_has_id. split; intros [H1 H2].
    + split; [done|]. intros d Hdin Hid. apply H1.
      destruct (newest_per_id_covers (d0 :: ds) d Hdin) as (d' & ? & ?). exists d'. split; congruence.
    + split; [|done]. intros (d & Hin & Hid). apply newest_per_id_in in Hin as [Hin _].
      by apply (H2 d).
Qed.

Lemma elem_of_latest_version base deltas r :
  deltas_newer base deltas →
  (r ∈ latest_version true base deltas ↔ newest_in (base ++ deltas) r).
Proof.
  intros [Hb Hd Hn]. rewrite elem_of_view by (intros a b ? ?; apply Hd; set_solver).
  unfold newest_in. split.
  - intros [[Hr Hno]|[Hr Hmax]].
    + split; [set_solver|]. intros r' [Hr'|Hr']%elem_of_app Hid; [|by destruct (Hno r')].
      assert (r' = r) as ->; [|lia]. clear -Hb Hr Hr' Hid.
      apply list_elem_of_lookup in Hr as [i Hi]. apply list_elem_of_lookup in Hr' as [j Hj].
      assert (i = j) as ->; [|congruence].
      eapply (NoDup_lookup (rid <$> base)); [done| |]; rewrite list_lookup_fmap;
        [by rewrite Hi|by rewrite Hj, <- Hid].
    + split; [set_solver|]. intros r' [Hr'|Hr']%elem_of_app Hid; [by apply (Hn r' r)|by apply Hmax].
  - intros [[Hr|Hr]%elem_of_app Hmax]; [|right; split; [done|]; intros; apply Hmax; set_solver].
    destruct (decide (Exists (λ d, rid d = rid r) deltas)) as [Hex|Hno].
    + right. apply Exists_exists in Hex as (d & Hdin & Hid).
      assert (r = d) as ->; [|split; [done|]; intros; apply Hmax; set_solver].
      apply Hd; [set_solver|set_solver|done|].
      specialize (Hmax d ltac:(set_solver) Hid). specialize (Hn r d Hr Hdin (eq_sym Hid)). lia.
    + left. split; [done|]. intros d Hdin Hid. apply Hno, Exists_exists. eauto.
Qed.

Lemma NoDup_latest_version base deltas :
  NoDup (rid <$> base) → NoDup (rid <$> latest_version true base deltas).
Proof.
  intros Hb. unfold latest_version. destruct deltas as [|d0 ds]; [done|].
  destruct base as [|b0 bs]; [apply newest_per_id_rids|].
  rewrite fmap_app. apply NoDup_app. split; [|split; [|apply newest_per_id_rids]].
  - eapply sublist_NoDup; [exact Hb|]. apply fmap_sublist. apply sublist_filter.
  - intros i Hi Hi'. apply list_elem_of_fmap in Hi as (b & -> & Hb').
    apply list_elem_of_fmap in Hi' as (d & Hid & Hd).
    apply list_elem_of_filter in Hb' as [Hno _]. unfold not_superseded in Hno.
    apply negb_true_iff, not_true_iff_false in Hno. apply Hno, existsb_has_id. eauto.
Qed.

(** Ranking base and deltas together gives the same rows as the split form of the view. *)
Lemma latest_version_ranked base deltas :
  deltas_newer base deltas →
  latest_version true base deltas ≡ₚ newest_per_id (base ++ deltas).
Proof.
  intros H. apply NoDup_Permutation.
  - apply NoDup_rid, NoDup_latest_version, H.
  - apply NoDup_rid, newest_per_id_rids.
  - intros r. rewrite elem_of_latest_version by done.
    rewrite elem_of_newest_per_id; [done|apply H].
Qed.

(** ** Compaction *)

(** Each partition is newer than the base and the partitions listed before it. *)
Definition before (l : list R) (l' : list R) : Prop :=
  ∀ a b, a ∈ l → b ∈ l' → rid a = rid b → ver a < ver b.

Record store_wf (s : store) : Prop := {
  sw_base : NoDup (rid <$> st_base s);
  sw_distinct : versions_distinct (st_base s ++ delta_rows (st_parts s));
  sw_paths : NoDup (st_parts s).*1;
  sw_newer : before (st_base s) (delta_rows (st_parts s));
  sw_order : ∀ ps qs, st_parts s = ps ++ qs → before (delta_rows ps) (delta_rows qs) }.

Lemma delta_rows_app ps qs : delta_rows (ps ++ qs) = delta_rows ps ++ delta_rows qs.
Proof. unfold delta_rows. by rewrite fmap_app, concat_app. Qed.

Lemma elem_of_delta_rows ps r : r ∈ delta_rows ps ↔ ∃ p, p ∈ ps ∧ r ∈ p.2.
Proof.
  unfold delta_rows. rewrite list_elem_of_In, in_concat. setoid_rewrite <- list_elem_of_In.
  split.
  - intros (l & Hl & Hr). apply list_elem_of_fmap in Hl as (p & -> & Hp). eauto.
  - intros (p & Hp & Hr). exists p.2. split; [by apply list_elem_of_fmap_2|done].
Qed.

Lemma remove_base paths s : st_base (remove paths s) = st_base s.
Proof. unfold remove. revert s. induction paths as [|p l IH]; intros s; simpl; [done|]. by rewrite IH. Qed.

Lemma filter_app_paths (path : string) (ps : list (string * list R)) :
  path ∉ ps.*1 → filter (λ p, String.eqb p.1 path = false) ps = ps.
Proof.
  induction ps as [|[q rs] ps IH]; intros Hp; [done|].
  simpl in Hp. rewrite filter_cons. case_decide as Hq; [by rewrite IH by set_solver|].
  exfalso. apply Hq. apply String.eqb_neq. simpl. set_solver.
Qed.

(** Removing the first [k] paths of the plan leaves the others and what was published. *)
Lemma remove_take k ps published base :
  NoDup (ps ++ published).*1 →
  st_parts (remove (take k ps.*1) (mkStore base (ps ++ published))) = drop k ps ++ published.
Proof.
  revert k. induction ps as [|[p rs] ps IH]; intros [|k] Hnd; simpl; try done.
  simpl in Hnd. inversion Hnd as [|? ? Hp Hnd']; subst.
  change (remove (p :: take k ps.*1) (mkStore base ((p, rs) :: ps ++ published)))
    with (remove (take k ps.*1) (unlink p (mkStore base ((p, rs) :: ps ++ published)))).
  assert (unlink p (mkStore base ((p, rs) :: ps ++ published)) = mkStore base (ps ++ published)) as ->.
  { unfold unlink. cbn [st_base st_parts]. rewrite filter_cons, decide_False
      by (simpl; by rewrite String.eqb_refl). by rewrite filter_app_paths. }
  by apply IH.
Qed.

Lemma newest_exists l r : r ∈ l → ∃ r', newest_in l r' ∧ rid r' = rid r.
Proof.
  intros Hr. destruct (newest_per_id_covers l r Hr) as (r' & Hr' & Hid).
  exists r'. split; [by apply newest_per_id_in|done].
Qed.

Lemma compact_upto_parts k published s :
  NoDup (st_parts s ++ published).*1 →
  st_parts (compact_upto k published s) = drop k (st_parts s) ++ published ∧
  st_base (compact_upto k published s) = newest_per_id (st_base s ++ delta_rows (st_parts s)).
Proof.
  intros Hnd. unfold compact_upto, write_merged. rewrite remove_base. cbn [st_base st_parts].
  split; [|done]. by apply remove_take.
Qed.

Lemma wf_deltas_newer s : store_wf s → deltas_newer (st_base s) (delta_rows (st_parts s)).
Proof.
  intros [H1 H2 H3 H4 H5]. split; [done|done|]. intros b d Hb Hd Hid.
  specialize (H4 b d Hb Hd Hid). lia.
Qed.

Lemma compact_upto_view k published s r :
  store_wf (mkStore (st_base s) (st_parts s ++ published)) →
  (r ∈ view (compact_upto k published s) ↔
   newest_in (st_base s ++ delta_rows (st_parts s ++ published)) r).
Proof.
  intros [Hb Hd Hp Hn Ho]. cbn [st_base st_parts] in *.
  destruct (compact_upto_parts k published s Hp) as [Eparts Ebase].
  unfold view. rewrite Eparts, Ebase. set (kept := drop k (st_parts s) ++ published).
  assert (st_parts s ++ published = take k (st_parts s) ++ kept) as Eall
    by (unfold kept; by rewrite app_assoc, take_drop).
  assert (versions_distinct (st_base s ++ delta_rows (st_parts s))) as Hd1.
  { intros a b Ha Hb'. apply Hd; rewrite delta_rows_app; set_solver. }
  pose proof (Ho _ _ Eall) as Hold. pose proof (Ho _ _ eq_refl) as Hpub.
  rewrite elem_of_view.
  2:{ intros a b Ha Hb'. apply Hd; rewrite Eall, delta_rows_app; set_solver. }
  rewrite elem_of_newest_per_id by done. unfold newest_in. rewrite Eall.
  rewrite !delta_rows_app. rewrite Eall, delta_rows_app in Hn. split.
  - intros [[[Hr Hmax] Hno]|[Hr Hmax]].
    + assert (r ∈ st_base s ++ delta_rows (take k (st_parts s)) ++ delta_rows kept) as Hr'.
      { rewrite <- delta_rows_app, <- Eall, delta_rows_app. set_solver. }
      split; [done|]. intros r' [Hr1|[Hr1|Hr1]%elem_of_app]%elem_of_app Hid.
      * apply Hmax; set_solver.
      * apply Hmax; [|done]. rewrite <- (take_drop k (st_parts s)), delta_rows_app. set_solver.
      * by destruct (Hno r' Hr1).
    + split; [set_solver|]. intros r' [Hr1|[Hr1|Hr1]%elem_of_app]%elem_of_app Hid.
      * specialize (Hn r' r Hr1 ltac:(set_solver) Hid). lia.
      * specialize (Hold r' r Hr1 Hr Hid). lia.
      * by apply Hmax.
  - intros [Hr Hmax]. destruct (decide (r ∈ delta_rows kept)) as [Hk|Hk].
    + right. split; [done|]. intros r' Hr' Hid. apply Hmax; [|done].
      rewrite !elem_of_app. by right; right.
    + left. split.
      * split.
        -- rewrite !elem_of_app in Hr. rewrite elem_of_app. destruct Hr as [?|[?|?]]; [by left| |done].
           right. rewrite <- (take_drop k (st_parts s)), delta_rows_app. set_solver.
        -- intros r' Hr' Hid. apply Hmax; [|done]. rewrite <- delta_rows_app, <- Eall, delta_rows_app.
           set_solver.
      * intros d Hdin Hid. pose proof (Hmax d ltac:(rewrite !elem_of_app; tauto) Hid).
        rewrite !elem_of_app in Hr. destruct Hr as [Hr|[Hr|Hr]]; [| |done].
        -- specialize (Hn r d Hr ltac:(set_solver) (eq_sym Hid)). lia.
        -- specialize (Hold r d Hr Hdin (eq_sym Hid)). lia.
Qed.

(** The three-shape SQL of a versioned object answers like the obvious one: when the base
    holds one row per id and no delta is older than the base row of its id, the view (base
    rows that no delta supersedes plus the newest delta of each id) has exactly the rows that
    ranking base and deltas together keeps, one per id. *)
Theorem latest_version_equiv (base deltas : list R) :
  NoDup (rid <$> base) → versions_distinct (base ++ deltas) →
  (∀ b d, b ∈ base → d ∈ deltas → rid b = rid d → ver b ≤ ver d) →
  latest_version true base deltas ≡ₚ newest_per_id (base ++ deltas) ∧
  NoDup (rid <$> latest_version true base deltas) ∧
  (∀ r, r ∈ base ++ deltas → ∃ r', r' ∈ latest_version true base deltas ∧ rid r' = rid r ∧ ver r ≤ ver r').
Proof.
  intros Hb Hd Hn. assert (deltas_newer base deltas) as H by (by split).
  pose proof (latest_version_ranked base deltas H) as Hperm. split; [done|].
  split; [by apply NoDup_latest_version|]. intros r Hr.
  destruct (newest_per_id_covers _ _ Hr) as (r' & Hr' & Hid). exists r'.
  rewrite Hperm. split; [done|]. split; [done|]. apply newest_per_id_in in Hr' as [_ Hmax].
  by apply Hmax.
Qed.

End Rows.

(** ** An instance: rows of an id and a version *)

Definition version_row : Type := string * Z.
Definition witness_base : list version_row := [("a", 1); ("b", 1)].
Definition witness_parts : list (string * list version_row) :=
  [("date=2024-01-02/part.parquet", [("a", 2); ("c", 2)]); ("date=2024-01-03/part.parquet", [("a", 3)])].
Definition witness_published : list (string * list version_row) :=
  [("date=2024-01-04/part.parquet", [("b", 4)])].

Lemma witness_distinct :
  versions_distinct fst snd (witness_base ++ concat (witness_parts ++ witness_published).*2).
Proof.
  intros a b _ _ H1 H2. destruct a, b. simpl in *. congruence.
Qed.

Lemma latest_version_equiv_witness :
  let deltas := concat (witness_parts ++ witness_published).*2 in
  latest_version fst snd true witness_base deltas ≡ₚ newest_per_id fst snd (witness_base ++ deltas) ∧
  NoDup (fst <$> latest_version fst snd true witness_base deltas) ∧
  (∀ r, r ∈ witness_base ++ deltas →
     ∃ r', r' ∈ latest_version fst snd true witness_base deltas ∧ r'.1 = r.1 ∧ r.2 ≤ r'.2).
Proof.
  apply (latest_version_equiv fst snd).
  - by apply (bool_decide_unpack _).
  - exact witness_distinct.
  - intros b d Hb Hd _.
    assert (Forall (λ b : version_row, b.2 ≤ 1) witness_base) as H1 by (repeat constructor; simpl; lia).
    assert (Forall (λ d : version_row, 1 ≤ d.2) (concat (witness_parts ++ witness_published).*2)) as H2
      by (repeat constructor; simpl; lia).
    rewrite Forall_forall in H1, H2. specialize (H1 b Hb). specialize (H2 d Hd). lia.
Defined.

Lemma before_bound (l l' : list version_row) (n : Z) :
  Forall (λ r, r.2 < n) l → Forall (λ r, n ≤ r.2) l' → before fst snd l l'.
Proof.
  rewrite !Forall_forall. intros H1 H2 a b Ha Hb _. specialize (H1 a Ha). specialize (H2 b Hb). lia.
Qed.

