(* ===== verification/QueryPlan.v ===== *)
(** * Query planning and paging: [fakeforce/query_service.py], [fakeforce/cursor_artifacts.py]

    The plan of a parsed query against the catalog (SQL text and bound parameters, with the
    errors in the code's order), the batch-size header, and the two ways a page of records is
    served: by offset and through a cursor's id index. What DuckDB returns for the plan's own
    SQL is given by the argument [run]; the statements the code wraps around it ([LIMIT]/[OFFSET],
    [count], [IN (ids)], the index file) are modelled. *)

From stdpp Require Import prelude gmap strings list sorting.
From Stdlib Require Import ZArith Lia Ascii.
From S2P Require Import Prelude PyText PyNum Soql Catalog.

Open Scope Z_scope.

Definition MAX_OFFSET : Z := 2000.
Definition DEFAULT_QUERY_BATCH_SIZE : Z := 2000.
Definition MIN_QUERY_BATCH_SIZE : Z := 200.
Definition MAX_QUERY_BATCH_SIZE : Z := 2000.
Definition INTERNAL_ID_FIELD : string := "__fakeforce_record_id".

(** ** The batch-size header *)

(** [s.split(sep)] *)
Fixpoint split_list (sep : ascii) (l : list ascii) (cur : list ascii) : list string :=
  match l with
  | [] => [str (rev cur)]
  | c :: l => if bool_decide (c = sep) then str (rev cur) :: split_list sep l []
              else split_list sep l (c :: cur)
  end.
Definition split (sep : ascii) (s : string) : list string := split_list sep (chars s) [].

(** [s.partition(sep)]: before, whether found, after *)
Fixpoint partition_list (sep : ascii) (l cur : list ascii) : string * bool * string :=
  match l with
  | [] => (str (rev cur), false, "")
  | c :: l => if bool_decide (c = sep) then (str (rev cur), true, str l)
              else partition_list sep l (c :: cur)
  end.
Definition partition (sep : ascii) (s : string) : string * bool * string :=
  partition_list sep (chars s) [].

Lemma partition_list_spec sep l cur :
  (sep ∉ l → partition_list sep l cur = (str (rev cur ++ l), false, "")) ∧
  (∀ l1 l2, l = l1 ++ sep :: l2 → sep ∉ l1 →
     partition_list sep l cur = (str (rev cur ++ l1), true, str l2)).
Proof.
  revert cur. induction l as [|c l IH]; intros cur; split; simpl.
  - intros _. by rewrite app_nil_r.
  - by intros [] ?.
  - intros Hn. rewrite bool_decide_eq_false_2 by set_solver.
    rewrite (proj1 (IH (c :: cur))) by set_solver. simpl. by rewrite <- app_assoc.
  - intros [|c' l1] l2 E Hn; simpl in E; injection E as -> ->.
    + rewrite bool_decide_eq_true_2 by done. by rewrite app_nil_r.
    + rewrite bool_decide_eq_false_2 by set_solver.
      rewrite (proj2 (IH (c' :: cur)) l1 l2) by set_solver. simpl. by rewrite <- app_assoc.
Qed.

Definition blank (s : string) : bool := String.eqb (strip s) "".

Definition query_option (opts : list (string * string)) (part : string)
    : res (list (string * string)) :=
  let '(key, separator, value) := partition "="%char part in
  if negb separator || blank key || blank value
  then raise QueryOptionError "Sforce-Query-Options must use batchSize=<integer>"
  else Ok (aset (lower (strip key)) (strip value) opts).

Fixpoint query_options (opts : list (string * string)) (parts : list string)
    : res (list (string * string)) :=
  match parts with
  | [] => Ok opts
  | p :: parts => let! opts := query_option opts p in query_options opts parts
  end.

Definition parse_query_batch_size (header : option string) : res Z :=
  match header with
  | None => Ok DEFAULT_QUERY_BATCH_SIZE
  | Some h =>
    if blank h then Ok DEFAULT_QUERY_BATCH_SIZE
    else
      let! options := query_options [] (split ";"%char h) in
      match options with
      | [(key, value)] =>
        if String.eqb key "batchsize" then
          match int_of_text value with
          | None => raise QueryOptionError "batchSize must be an integer"
          | Some n =>
            if (MIN_QUERY_BATCH_SIZE <=? n) && (n <=? MAX_QUERY_BATCH_SIZE) then Ok n
            else raise QueryOptionError "batchSize must be between 200 and 2000"
          end
        else raise QueryOptionError "Sforce-Query-Options only supports batchSize"
      | _ => raise QueryOptionError "Sforce-Query-Options only supports batchSize"
      end
  end.

Example batch_size_ex :
  parse_query_batch_size (Some " batchSize = 500 ") = Ok 500 ∧
  parse_query_batch_size (Some "batchSize=1;BATCHSIZE=250") = Ok 250 ∧
  parse_query_batch_size (Some "batchSize=199")
  = raise QueryOptionError "batchSize must be between 200 and 2000".
Proof. vm_compute. done. Qed.

(** ** Plans *)

Record QueryPlan := mkPlan {
  p_object_name : string;
  p_fields : list string;
  p_id_field : string;
  p_source_sql : string;
  p_sql : string;
  p_parameters : list literal;
  p_has_order_by : bool }.

Definition invalid {A} (code msg : string) : res A := raise_code QueryValidationError code msg.

(** [{name.casefold(): name for name in schema.names}] *)
Definition canonical_fields (spec : DatasetSpec) : list (string * string) :=
  dict_of ((λ f : string * field_type, (casefold f.1, f.1)) <$> spec_schema spec).

Definition _field_name (field : string) (spec : DatasetSpec) : res string :=
  match aget (casefold field) (canonical_fields spec) with
  | Some name => Ok name
  | None => invalid "INVALID_FIELD" ("No such column '" +:+ field +:+ "' on entity")
  end.

Definition is_star (fs : list string) : bool := bool_decide (fs = ["*"]).

Definition _fields (ast : SelectQuery) (spec : DatasetSpec) : res (list string) :=
  if is_star (q_fields ast) then Ok ["*"]
  else res_map (λ f, _field_name f spec) (q_fields ast).

(** [any(... for predicate in predicates)]: evaluated in order, stopping at the first. *)
Fixpoint _has_required_filter (ps : list predicate) (spec : DatasetSpec) : res bool :=
  match ps with
  | [] => Ok false
  | Comparison f OpEq _ :: ps =>
    let! name := _field_name f spec in
    if existsb (String.eqb name) (required_filter_fields spec) then Ok true
    else _has_required_filter ps spec
  | _ :: ps => _has_required_filter ps spec
  end.

Definition _is_text_field (field : string) (spec : DatasetSpec) : bool :=
  match aget field (spec_schema spec) with
  | Some TString | Some TLargeString => true
  | _ => false
  end.

Definition is_text (v : literal) : bool := match v with LStr _ => true | _ => false end.

Definition placeholders (text : string) (n : nat) : string := join ", " (replicate n text).

(** One iteration of the loop of [_where]: the clause and its parameters. *)
Definition where_clause_of (spec : DatasetSpec) (p : predicate) : res (string * list literal) :=
  match p with
  | InComparison f values =>
    let! field := _field_name f spec in
    let quoted := _quote_identifier field in
    let clause :=
      if _is_text_field field spec && forallb is_text values
      then "lower(" +:+ quoted +:+ ") IN (" +:+ placeholders "lower(?)" (length values) +:+ ")"
      else quoted +:+ " IN (" +:+ placeholders "?" (length values) +:+ ")" in
    Ok (clause, values)
  | Comparison f o value =>
    if bool_decide (o = OpNe) && negb (supports_ne spec)
    then invalid "MALFORMED_QUERY" "Only equals comparisons permitted"
    else
      let! field := _field_name f spec in
      let quoted := _quote_identifier field in
      match value with
      | LNull =>
        match o with
        | OpEq => Ok (quoted +:+ " IS NULL", [])
        | OpNe => Ok (quoted +:+ " IS NOT NULL", [])
        | _ => invalid "MALFORMED_QUERY" "NULL only supports = or !="
        end
      | _ =>
        let plain := quoted +:+ " " +:+ operator_text o +:+ " ?" in
        let clause :=
          if _is_text_field field spec && is_text value then
            match o with
            | OpLike => quoted +:+ " ILIKE ?"
            | OpEq | OpNe => "lower(" +:+ quoted +:+ ") " +:+ operator_text o +:+ " lower(?)"
            | _ => plain
            end
          else plain in
        Ok (clause, [value])
      end
  end.

Definition _where (ps : list predicate) (spec : DatasetSpec) : res (list string * list literal) :=
  let! l := res_map (where_clause_of spec) ps in
  Ok (l.*1, concat l.*2).

Definition order_text (spec : DatasetSpec) (o : option OrderBy) : res string :=
  match o with
  | None => Ok ""
  | Some o =>
    let! f := _field_name (ob_field o) spec in
    Ok (" ORDER BY " +:+ _quote_identifier f +:+ " " +:+ ob_direction o +:+ " NULLS " +:+ ob_nulls o)
  end.

(** The plan of a parsed query against the object's specification. *)
Definition plan_for (spec : DatasetSpec) (relation : string) (ast : SelectQuery) (include_deleted : bool)
    : res QueryPlan :=
  let name := object_name spec in
  let! filtered := match required_filter_fields spec with
                   | [] => Ok true
                   | _ => _has_required_filter (q_predicates ast) spec
                   end in
  if negb filtered then
    invalid "MALFORMED_QUERY"
      (name +:+ " requires a filter on " +:+ join " or " (required_filter_fields spec))
  else
    let! fields := _fields ast spec in
    let deleted := match soft_delete_field spec with
                   | Some f => if include_deleted then [] else ["NOT " +:+ _quote_identifier f]
                   | None => []
                   end in
    let! w := _where (q_predicates ast) spec in
    let clauses := deleted ++ w.1 in
    let public := if is_star fields then "*" else join ", " (_quote_identifier <$> fields) in
    let projection := public +:+ ", " +:+ _quote_identifier (id_field spec) +:+ " AS "
                      +:+ _quote_identifier INTERNAL_ID_FIELD in
    let selected := "SELECT " +:+ projection +:+ " FROM " +:+ _quote_identifier relation in
    let filtered_sql := if bool_decide (clauses = []) then selected
      else selected +:+ " WHERE " +:+ join " AND " ((λ c, "(" +:+ c +:+ ")") <$> clauses) in
    let! order := order_text spec (q_order_by ast) in
    let source_sql := filtered_sql +:+ order in
    let has_order := bool_decide (is_Some (q_order_by ast)) in
    if negb (supports_limit spec) then
      Ok (mkPlan name fields (id_field spec) source_sql source_sql w.2 has_order)
    else if MAX_OFFSET <? q_offset ast then
      invalid "NUMBER_OUTSIDE_VALID_RANGE" "maximum SOQL offset allowed is 2000"
    else
      let limit := match q_limit ast with Some n => " LIMIT " +:+ str_of_Z n | None => "" end in
      let offset := if q_offset ast =? 0 then "" else " OFFSET " +:+ str_of_Z (q_offset ast) in
      Ok (mkPlan name fields (id_field spec) source_sql (source_sql +:+ limit +:+ offset) w.2 has_order).

Definition plan_ast (c : DatasetCatalog) (ast : SelectQuery) (include_deleted : bool) : res QueryPlan :=
  match get c (q_object ast) with
  | None => invalid "INVALID_TYPE" ("sObject type '" +:+ q_object ast +:+ "' is not supported")
  | Some spec => plan_for spec ("ff_source_" +:+ object_name spec) ast include_deleted
  end.

(** [LazyQueryService.plan]; only [SoqlSyntaxError] becomes a validation error. *)
Definition plan (c : DatasetCatalog) (query : string) (include_deleted : bool) : res QueryPlan :=
  match parse_soql query with
  | Err e => if decide (exn_cls e = SoqlSyntaxError) then invalid "MALFORMED_QUERY" (exn_msg e) else Err e
  | Ok ast => plan_ast c ast include_deleted
  end.

(** ** What a plan contains *)

(** The literals of a query that its plan binds as parameters, in order. *)
Definition bound_literals (ps : list predicate) : list literal :=
  ps ≫= λ p, match p with
             | Comparison _ _ LNull => []
             | Comparison _ _ v => [v]
             | InComparison _ vs => vs
             end.

(** The shape of a literal: whether it is [NULL], a string or another value. *)
Inductive same_shape : literal → literal → Prop :=
| shape_null : same_shape LNull LNull
| shape_text s s' : same_shape (LStr s) (LStr s')
| shape_value v v' : v ≠ LNull → v' ≠ LNull → is_text v = false → is_text v' = false →
                     same_shape v v'.

Inductive same_shape_pred : predicate → predicate → Prop :=
| shape_cmp f o v v' : same_shape v v' → same_shape_pred (Comparison f o v) (Comparison f o v')
| shape_in f vs vs' : Forall2 same_shape vs vs' → same_shape_pred (InComparison f vs) (InComparison f vs').

(** Queries that differ in their literals only. *)
Record same_query (q q' : SelectQuery) : Prop := {
  sq_fields : q_fields q = q_fields q';
  sq_object : q_object q = q_object q';
  sq_predicates : Forall2 same_shape_pred (q_predicates q) (q_predicates q');
  sq_order : q_order_by q = q_order_by q';
  sq_limit : q_limit q = q_limit q';
  sq_offset : q_offset q = q_offset q' }.

Lemma same_shape_text v v' : same_shape v v' → is_text v = is_text v'.
Proof. destruct 1; simpl; congruence. Qed.

Lemma same_shape_texts vs vs' :
  Forall2 same_shape vs vs' → forallb is_text vs = forallb is_text vs' ∧ length vs = length vs'.
Proof.
  induction 1 as [|v v' vs vs' Hv _ [IH1 IH2]]; simpl; [done|].
  by rewrite (same_shape_text _ _ Hv), IH1, IH2.
Qed.

Definition clause_of (r : res (string * list literal)) : res string :=
  match r with Ok c => Ok c.1 | Err e => Err e end.

Lemma where_clause_shape spec p p' :
  same_shape_pred p p' → clause_of (where_clause_of spec p) = clause_of (where_clause_of spec p').
Proof.
  destruct 1 as [f o v v' Hv|f vs vs' Hvs]; simpl.
  - destruct (bool_decide (o = OpNe) && negb (supports_ne spec)); [done|].
    destruct (_field_name f spec) as [name|e]; simpl; [|done].
    destruct Hv as [|s s'|v v' Hn Hn' Ht Ht']; [by destruct o|done|].
    destruct v; try done; destruct v'; try done.
  - destruct (_field_name f spec) as [name|e]; simpl; [|done].
    destruct (same_shape_texts _ _ Hvs) as [-> ->]. done.
Qed.

Lemma where_clause_literals spec p c :
  where_clause_of spec p = Ok c → c.2 = bound_literals [p].
Proof.
  unfold where_clause_of, bound_literals. destruct p as [f o v|f vs].
  - destruct (bool_decide (o = OpNe) && negb (supports_ne spec)); [done|].
    destruct (_field_name f spec); simpl; [|done].
    destruct v; simpl; try (by intros [= <-]). destruct o; try done; by intros [= <-].
  - destruct (_field_name f spec); simpl; [|done]. intros [= <-]. simpl. by rewrite app_nil_r.
Qed.

Lemma where_shape spec ps ps' r r' :
  Forall2 same_shape_pred ps ps' →
  _where ps spec = r → _where ps' spec = r' →
  match r, r' with
  | Ok w, Ok w' => w.1 = w'.1 ∧ w.2 = bound_literals ps ∧ w'.2 = bound_literals ps'
  | Err e, Err e' => e = e'
  | _, _ => False
  end.
Proof.
  intros H. revert r r'. unfold _where. induction H as [|p p' ps ps' Hp _ IH]; intros r r' <- <-.
  - done.
  - cbn [res_map]. pose proof (where_clause_shape spec p p' Hp) as Hc.
    pose proof (where_clause_literals spec p) as Hl. pose proof (where_clause_literals spec p') as Hl'.
    destruct (where_clause_of spec p) as [c|e], (where_clause_of spec p') as [c'|e'];
      simpl in Hc; simplify_eq; cbn [res_bind]; [|done].
    specialize (Hl c eq_refl). specialize (Hl' c' eq_refl). specialize (IH _ _ eq_refl eq_refl).
    destruct (res_map (where_clause_of spec) ps) as [l|e], (res_map (where_clause_of spec) ps') as [l'|e'];
      cbn [res_bind] in *; try done.
    destruct IH as (H1 & H2 & H3). cbn [fst snd] in *. rewrite !fmap_cons. cbn [concat].
    rewrite H1, H2, H3, Hl, Hl', Hc. unfold bound_literals. cbn [mbind list_bind].
    by rewrite !app_nil_r.
Qed.

Lemma required_shape spec ps ps' :
  Forall2 same_shape_pred ps ps' → _has_required_filter ps spec = _has_required_filter ps' spec.
Proof.
  induction 1 as [|p p' ps ps' Hp _ IH]; [done|].
  destruct Hp as [f o v v' _|f vs vs' _]; simpl; [|done].
  destruct o; try done. destruct (_field_name f spec); simpl; [|done]. by rewrite IH.
Qed.

(** The two plans agree but for their parameters. *)
Definition plan_shape (r r' : res QueryPlan) (q q' : SelectQuery) : Prop :=
  match r, r' with
  | Ok p, Ok p' =>
      p_sql p = p_sql p' ∧ p_source_sql p = p_source_sql p' ∧ p_fields p = p_fields p' ∧
      p_parameters p = bound_literals (q_predicates q) ∧
      p_parameters p' = bound_literals (q_predicates q')
  | Err e, Err e' => e = e'
  | _, _ => False
  end.

Lemma plan_for_shape spec relation q q' d :
  same_query q q' → plan_shape (plan_for spec relation q d) (plan_for spec relation q' d) q q'.
Proof.
  intros [Hf Ho Hp Hor Hl Hof]. unfold plan_for, _fields.
  rewrite <- Hf, <- Hor, <- Hl, <- Hof, <- (required_shape spec _ _ Hp).
  destruct (match required_filter_fields spec with [] => Ok true | _ => _ end) as [flt|e];
    cbn [res_bind]; [|done].
  destruct (negb flt); [done|].
  destruct (if is_star (q_fields q) then Ok ["*"] else _) as [fields|e]; cbn [res_bind]; [|done].
  pose proof (where_shape spec _ _ _ _ Hp eq_refl eq_refl) as Hw.
  destruct (_where (q_predicates q) spec) as [w|e], (_where (q_predicates q') spec) as [w'|e'];
    cbn [res_bind]; try done.
  destruct Hw as (Hw1 & Hw2 & Hw3). rewrite <- Hw1.
  destruct (order_text spec (q_order_by q)) as [order|e]; cbn [res_bind]; [|done].
  destruct (negb (supports_limit spec)); [done|].
  by destruct (MAX_OFFSET <? q_offset q).
Qed.

(** C18: Literals never reach the SQL text. For two queries that differ in their literal values
    only (not in which are [NULL] or strings), planning gives the same error or the same SQL and
    the same columns, and the parameters bound are exactly the literals of each query, in order. *)
Theorem plan_binds_literals (c : DatasetCatalog) (q q' : SelectQuery) (include_deleted : bool) :
  same_query q q' →
  plan_shape (plan_ast c q include_deleted) (plan_ast c q' include_deleted) q q'.
Proof.
  intros H. unfold plan_ast. pose proof (sq_object _ _ H) as <-.
  destruct (get c (q_object q)) as [spec|]; [by apply plan_for_shape|done].
Qed.

Definition witness_query_with (v : string) : SelectQuery :=
  mkQuery ["id"] "Account" [Comparison "name" OpEq (LStr v)] None (Some 5) 0.

Lemma plan_binds_literals_witness :
  plan_shape (plan_ast (mkCatalog [] [("account", witness_spec)]) (witness_query_with "x") false)
    (plan_ast (mkCatalog [] [("account", witness_spec)]) (witness_query_with "' OR 1=1 --") false)
    (witness_query_with "x") (witness_query_with "' OR 1=1 --").
Proof. apply plan_binds_literals. by repeat constructor. Defined.

Lemma canonical_field_spec spec f name :
  _field_name f spec = Ok name → name ∈ (spec_schema spec).*1 ∧ casefold name = casefold f.
Proof.
  unfold _field_name. destruct (aget _ _) as [n|] eqn:E; [|done]. intros [= <-].
  apply aget_Some in E. unfold canonical_fields, dict_of in E.
  destruct (foldl_aset_spec ((λ f0 : string * field_type, (casefold f0.1, f0.1)) <$> spec_schema spec) [])
    as (_ & _ & Hel & _); [constructor|].
  destruct (Hel _ E) as [Hn|Hin]; [by apply elem_of_nil in Hn|].
  apply list_elem_of_fmap in Hin as ([a b] & [= E1 E2] & Hin). subst n. split; [|done].
  by apply (list_elem_of_fmap_2 fst) in Hin.
Qed.

Lemma fields_spec q spec fields :
  _fields q spec = Ok fields →
  fields = ["*"] ∧ q_fields q = ["*"] ∨
  Forall2 (λ name f, name ∈ (spec_schema spec).*1 ∧ casefold name = casefold f) fields (q_fields q).
Proof.
  unfold _fields, is_star. case_bool_decide; [intros [= <-]; by left|]. intros H0. right.
  revert fields H0. induction (q_fields q) as [|f fs IH]; intros fields Hr; simpl in Hr.
  - by injection Hr as <-.
  - apply res_bind_ok in Hr as (n & Hn & Hr). apply res_bind_ok in Hr as (ns & Hns & [= <-]).
    constructor; [by apply canonical_field_spec|].
    destruct (decide (fs = ["*"])) as [->|Hne]; [|by apply IH].
    simpl in Hns. apply res_bind_ok in Hns as (n' & Hn' & [= <-]). constructor; [|constructor].
    by apply canonical_field_spec.
Qed.

(** A plan that succeeds is for a catalog object under its canonical name and id field, and
    selects either [*] or, for each requested field in order, the schema column it names up to
    case; its SQL extends the unlimited SQL by the [LIMIT] and [OFFSET] of the query, unless the
    object ignores them, and an accepted [OFFSET] of another object is at most 2000. *)
Theorem plan_canonical (c : DatasetCatalog) (q : SelectQuery) (include_deleted : bool) (p : QueryPlan) :
  plan_ast c q include_deleted = Ok p →
  ∃ spec, get c (q_object q) = Some spec ∧ p_object_name p = object_name spec ∧
    p_id_field p = id_field spec ∧
    (p_fields p = ["*"] ∧ q_fields q = ["*"] ∨
     Forall2 (λ name f, name ∈ (spec_schema spec).*1 ∧ casefold name = casefold f)
       (p_fields p) (q_fields q)) ∧
    p_sql p = p_source_sql p +:+
      (if supports_limit spec then
         (match q_limit q with Some n => " LIMIT " +:+ str_of_Z n | None => "" end) +:+
         (if q_offset q =? 0 then "" else " OFFSET " +:+ str_of_Z (q_offset q))
       else "") ∧
    (supports_limit spec = true → q_offset q ≤ MAX_OFFSET).
Proof.
  unfold plan_ast. destruct (get c (q_object q)) as [spec|]; [|done]. intros H. exists spec.
  split; [done|]. unfold plan_for in H.
  apply res_bind_ok in H as (flt & _ & H). destruct (negb flt); [done|].
  apply res_bind_ok in H as (fields & Hf & H). apply fields_spec in Hf.
  apply res_bind_ok in H as (w & _ & H). apply res_bind_ok in H as (order & _ & H).
  destruct (supports_limit spec); cbn [negb] in H.
  - destruct (Z.ltb_spec MAX_OFFSET (q_offset q)); [done|]. injection H as <-. simpl.
    repeat split; done.
  - injection H as <-. simpl. repeat split; try done. by rewrite string_app_nil_r.
Qed.

Lemma plan_canonical_witness :
  ∃ p spec, plan_ast (mkCatalog [] [("account", witness_spec)]) (witness_query_with "x") false = Ok p ∧
    get (mkCatalog [] [("account", witness_spec)]) "Account" = Some spec ∧
    p_object_name p = object_name spec ∧ p_fields p = ["Id"].
Proof.
  destruct (plan_ast (mkCatalog [] [("account", witness_spec)]) (witness_query_with "x") false)
    as [p|] eqn:E; [|vm_compute in E; discriminate].
  destruct (plan_canonical _ _ _ p E) as (spec & Hg & Hn & _).
  exists p, spec. split; [reflexivity|]. split; [exact Hg|]. split; [exact Hn|].
  vm_compute in E. injection E as <-. reflexivity.
Defined.

(** The planner passes a [ValueError] on: an integer literal of more than 4300 digits is not
    reported as a malformed query, while every other unparsable text is. *)
Theorem plan_parse_errors (c : DatasetCatalog) (query : string) (include_deleted : bool) (e : exn) :
  parse_soql query = Err e →
  (exn_cls e = SoqlSyntaxError ∧
   plan c query include_deleted = raise_code QueryValidationError "MALFORMED_QUERY" (exn_msg e)) ∨
  (exn_cls e = ValueError ∧ plan c query include_deleted = Err e).
Proof.
  intros H. pose proof (parse_soql_spec query) as Hs. rewrite H in Hs. unfold plan. rewrite H.
  destruct Hs as [Hc|Hc]; rewrite Hc; [left|right]; (split; [done|]);
    [by rewrite decide_True|by rewrite decide_False].
Qed.

Definition long_integer_query : string :=
  "select Id from Account limit " +:+ str (replicate 4301 "1"%char).

Lemma plan_parse_errors_witness :
  plan (mkCatalog [] []) long_integer_query false
  = raise ValueError "Exceeds the limit (4300 digits) for integer string conversion: value has 4301 digits; use sys.set_int_max_str_digits() to increase the limit".
Proof.
  destruct (plan_parse_errors (mkCatalog [] []) long_integer_query false
    (Exn ValueError "" "Exceeds the limit (4300 digits) for integer string conversion: value has 4301 digits; use sys.set_int_max_str_digits() to increase the limit"))
    as [[Hc _]|[_ Hp]].
  - vm_compute. reflexivity.
  - discriminate Hc.
  - exact Hp.
Defined.

(** The batch size of a request is always between 200 and 2000: the default without the
    header, otherwise the integer [n] of [batchSize=n], for every [n] of that range and no other. *)
Theorem batch_size_bounds (header : option string) (n : Z) :
  parse_query_batch_size header = Ok n →
  MIN_QUERY_BATCH_SIZE ≤ n ≤ MAX_QUERY_BATCH_SIZE.
Proof.
  unfold parse_query_batch_size, DEFAULT_QUERY_BATCH_SIZE, MIN_QUERY_BATCH_SIZE, MAX_QUERY_BATCH_SIZE.
  destruct header as [h|]; [|intros [= <-]; lia]. destruct (blank h); [intros [= <-]; lia|].
  intros H. apply res_bind_ok in H as (opts & _ & H).
  destruct opts as [|[k v] [|? ?]]; try done. destruct (String.eqb k "batchsize"); [|done].
  destruct (int_of_text v) as [m|]; [|done].
  destruct (Z.leb_spec 200 m), (Z.leb_spec m 2000); simpl in H; try done. by injection H as <-.
Qed.

Lemma batch_size_bounds_witness :
  parse_query_batch_size (Some "batchSize=500") = Ok 500 ∧ 200 ≤ 500 ≤ 2000.
Proof.
  split; [vm_compute; reflexivity|].
  apply (batch_size_bounds (Some "batchSize=500")). vm_compute. reflexivity.
Defined.

(** ** Executing plans *)

(** What the service needs of DuckDB: the rows of a statement with its parameters bound, in the
    order they are returned, and the order in which a scan without [ORDER BY] returns rows. *)
Class Engine (V : Type) := {
  run : string → list literal → list (list (string * V));
  scan : list (list (string * V)) → list (list (string * V)) }.

Section Service.
Context {V : Type} `{EqDecision V} `{Engine V} (id_text : V → string).
Context (API_VERSION : string) (catalog : DatasetCatalog).

Abbreviation row := (list (string * V)).

(** A record of the response: its [attributes] and its columns. *)
Record api_record := mkRecord { a_type : string; a_url : string; a_fields : row }.

Record QueryPage := mkPage { pg_object : string; pg_total : Z; pg_records : list api_record }.

Definition rows_of (p : QueryPlan) : list row := run (p_sql p) (p_parameters p).
Definition source_rows_of (p : QueryPlan) : list row := run (p_source_sql p) (p_parameters p).

(** [record.pop(_INTERNAL_ID_FIELD)] *)
Definition row_id (r : row) : res V :=
  match aget INTERNAL_ID_FIELD r with
  | Some v => Ok v
  | None => raise KeyError INTERNAL_ID_FIELD
  end.

(** One iteration of [_records], with the record's internal id. *)
Definition record_of (p : QueryPlan) (r : row) : res (V * api_record) :=
  let! id := row_id r in
  Ok (id, mkRecord (p_object_name p)
            ("/services/data/" +:+ API_VERSION +:+ "/sobjects/" +:+ p_object_name p +:+ "/" +:+ id_text id)
            (adel INTERNAL_ID_FIELD r)).

Definition _records (p : QueryPlan) (rows : list row) : res (list (V * api_record)) :=
  res_map (record_of p) rows.

(** [SELECT * FROM (sql) LIMIT size OFFSET offset] *)
Definition window {A} (size offset : Z) (l : list A) : list A :=
  take (Z.to_nat size) (drop (Z.to_nat offset) l).

Definition _execute_page (p : QueryPlan) (page_size page_offset : Z) : res QueryPage :=
  let! recs := _records p (window page_size page_offset (rows_of p)) in
  Ok (mkPage (p_object_name p) (Z.of_nat (length (rows_of p))) recs.*2).

Definition check_page (page_size page_offset : Z) : res unit :=
  if (page_size <=? 0) || (page_offset <? 0)
  then raise ValueError "page size and page offset must be non-negative" else Ok tt.

Definition fetch_page (query : string) (include_deleted : bool) (page_size page_offset : Z)
    : res QueryPage :=
  let! _ := check_page page_size page_offset in
  let! p := plan catalog query include_deleted in
  _execute_page p page_size page_offset.

(** [CursorArtifactStore.write_index]: the sequence numbers and ids of the whole result. *)
Definition write_index (p : QueryPlan) : res (list (Z * V)) :=
  let! ids := res_map row_id (rows_of p) in Ok (enumerate_from 0 ids).

(** [read_page_ids]: [WHERE sequence_number >= ? AND sequence_number < ? ORDER BY ...] *)
Definition read_page_ids (index : list (Z * V)) (offset size : Z) : list V :=
  (sort_by (λ a b, a.1 <=? b.1)
    (filter (λ kv, (offset <=? kv.1) && (kv.1 <? offset + size) = true) index)).*2.

Definition fetch_page_with_cursor_index (query : string) (include_deleted : bool)
    (page_size page_offset : Z) : res (QueryPage * option (list (Z * V))) :=
  let! _ := check_page page_size page_offset in
  let! p := plan catalog query include_deleted in
  let! page := _execute_page p page_size page_offset in
  if pg_total page <=? page_offset + Z.of_nat (length (pg_records page)) then Ok (page, None)
  else let! index := write_index p in Ok (page, Some index).

(** [WHERE id IN (ids)] over the source rows, in scan order. *)
Definition matching (p : QueryPlan) (ids : list V) : list row :=
  filter (λ r, match aget INTERNAL_ID_FIELD r with
               | Some v => bool_decide (v ∈ ids)
               | None => false
               end = true) (scan (source_rows_of p)).

(** The last record with an id: [records_by_id] keeps the last one. *)
Definition by_id (recs : list (V * api_record)) (id : V) : option (V * api_record) :=
  last (filter (λ kv, bool_decide (kv.1 = id) = true) recs).

(** The internal id is popped from each record: a record listed twice lacks it the second time. *)
Definition _execute_records_by_ids (p : QueryPlan) (ids : list V) : res (list api_record) :=
  let! recs := _records p (matching p ids) in
  let ordered := omap (by_id recs) ids in
  if bool_decide (NoDup ordered.*1) then Ok ordered.*2 else raise KeyError INTERNAL_ID_FIELD.

Definition fetch_records_by_ids (query : string) (include_deleted : bool) (ids : list V)
    : res (list api_record) :=
  match ids with
  | [] => Ok []
  | _ => let! p := plan catalog query include_deleted in _execute_records_by_ids p ids
  end.

Definition fetch_records_for_locator (query : string) (include_deleted : bool)
    (index : list (Z * V)) (page_offset batch_size : Z) : res (list api_record) :=
  let! p := plan catalog query include_deleted in
  match read_page_ids index page_offset batch_size with
  | [] => Ok []
  | ids => _execute_records_by_ids p ids
  end.

(** ** Lemmas on slices *)

Lemma filter_range (n : Z) (l : list V) (offset size : Z) :
  filter (λ kv, (offset <=? kv.1) && (kv.1 <? offset + size) = true) (enumerate_from n l)
  = enumerate_from (Z.max n offset)
      (take (Z.to_nat (offset + size - Z.max n offset)) (drop (Z.to_nat (offset - n)) l)).
Proof.
  revert n. induction l as [|x l IH]; intros n.
  - simpl. by rewrite drop_nil, take_nil.
  - simpl enumerate_from at 1. rewrite filter_cons. cbn [fst].
    destruct (Z.leb_spec offset n) as [Ho|Ho]; cbn [andb].
    + replace (Z.to_nat (offset - n)) with 0%nat by lia. rewrite drop_0.
      rewrite (Z.max_l n offset) by lia.
      destruct (Z.ltb_spec n (offset + size)) as [Hs|Hs].
      * rewrite decide_True by done. rewrite IH, (Z.max_l (n + 1) offset) by lia.
        replace (Z.to_nat (offset - (n + 1))) with 0%nat by lia. rewrite drop_0.
        replace (Z.to_nat (offset + size - n)) with (S (Z.to_nat (offset + size - (n + 1)))) by lia.
        done.
      * rewrite decide_False by done. rewrite IH.
        replace (Z.to_nat (offset + size - n)) with 0%nat by lia.
        replace (Z.to_nat (offset + size - Z.max (n + 1) offset)) with 0%nat by lia. done.
    + rewrite decide_False by done. rewrite IH.
      replace (Z.to_nat (offset - n)) with (S (Z.to_nat (offset - (n + 1)))) by lia.
      replace (Z.max (n + 1) offset) with offset by lia.
      replace (Z.max n offset) with offset by lia. done.
Qed.

Lemma enumerate_sorted {A} n (l : list A) :
  StronglySorted (λ a b, (a.1 <=? b.1) = true) (enumerate_from n l).
Proof.
  revert n. induction l as [|x l IH]; intros n; simpl; constructor; [apply IH|].
  apply Forall_forall. intros [k y] Hk. apply elem_of_enumerate_from in Hk as [? _].
  simpl. apply Z.leb_le. lia.
Qed.

(** Reading a page of the index gives that slice of the ids. *)
Lemma read_page_ids_slice (ids : list V) offset size :
  0 ≤ offset →
  read_page_ids (enumerate_from 0 ids) offset size = window size offset ids.
Proof.
  intros Ho. unfold read_page_ids. rewrite filter_range, sort_by_id by apply enumerate_sorted.
  rewrite enumerate_from_snd. unfold window. by replace (Z.max 0 offset) with offset by lia;
    replace (offset + size - offset) with size by lia; rewrite Z.sub_0_r.
Qed.

(** ** Rehydrating a page *)

Context (scan_perm : ∀ l : list row, scan l ≡ₚ l).

(** The result of a plan, with its ids: every source row carries an id, no two the same, and
    the limited result consists of source rows. *)
Record plan_rows (p : QueryPlan) (kvs : list (V * api_record)) : Prop := {
  pr_records : _records p (rows_of p) = Ok kvs;
  pr_source : ∀ r, r ∈ rows_of p → r ∈ source_rows_of p;
  pr_ids : ∀ r, r ∈ source_rows_of p → is_Some (aget INTERNAL_ID_FIELD r);
  pr_unique : NoDup ((λ r : row, aget INTERNAL_ID_FIELD r) <$> source_rows_of p);
  pr_nodup : NoDup kvs.*1 }.

Definition rec_of (p : QueryPlan) (r : row) (id : V) : api_record :=
  mkRecord (p_object_name p)
    ("/services/data/" +:+ API_VERSION +:+ "/sobjects/" +:+ p_object_name p +:+ "/" +:+ id_text id)
    (adel INTERNAL_ID_FIELD r).

Lemma record_of_ok p r id : aget INTERNAL_ID_FIELD r = Some id → record_of p r = Ok (id, rec_of p r id).
Proof. intros E. unfold record_of, row_id. by rewrite E. Qed.

Lemma records_ok p rows :
  (∀ r, r ∈ rows → is_Some (aget INTERNAL_ID_FIELD r)) →
  ∃ kvs, _records p rows = Ok kvs ∧
    Forall2 (λ r kv, aget INTERNAL_ID_FIELD r = Some kv.1 ∧ kv.2 = rec_of p r kv.1) rows kvs.
Proof.
  induction rows as [|r rows IH]; intros Hid; [by exists []|].
  destruct (Hid r ltac:(set_solver)) as [id E].
  destruct IH as (kvs & Ek & Hk); [set_solver|].
  exists ((id, rec_of p r id) :: kvs). unfold _records in *. simpl.
  rewrite (record_of_ok _ _ _ E). simpl. rewrite Ek. split; [done|]. by constructor.
Qed.

Lemma source_row_unique p kvs r r' :
  plan_rows p kvs → r ∈ source_rows_of p → r' ∈ source_rows_of p →
  aget INTERNAL_ID_FIELD r = aget INTERNAL_ID_FIELD r' → r = r'.
Proof.
  intros Hp [i Hi]%list_elem_of_lookup [j Hj]%list_elem_of_lookup E.
  assert (i = j) as ->; [|congruence].
  eapply (NoDup_lookup _ _ _ _ (pr_unique _ _ Hp)); rewrite list_lookup_fmap;
    [by rewrite Hi|by rewrite Hj; simpl; rewrite <- E].
Qed.

Lemma last_all_eq {A} (x : A) l : x ∈ l → (∀ y, y ∈ l → y = x) → last l = Some x.
Proof.
  intros Hx Hall. destruct (last l) as [y|] eqn:E.
  - f_equal. apply Hall. by apply last_Some_elem_of.
  - apply last_None in E. subst. by apply elem_of_nil in Hx.
Qed.

Lemma by_id_found p kvs ids recs kv :
  plan_rows p kvs → _records p (matching p ids) = Ok recs →
  kv ∈ kvs → kv.1 ∈ ids → by_id recs kv.1 = Some kv.
Proof.
  intros Hp Hrecs Hkv Hin.
  assert (∀ r, r ∈ matching p ids ↔ r ∈ source_rows_of p ∧
           ∃ v, aget INTERNAL_ID_FIELD r = Some v ∧ v ∈ ids) as Hm.
  { intros r. unfold matching. rewrite list_elem_of_filter, scan_perm.
    destruct (aget INTERNAL_ID_FIELD r) as [v|]; [rewrite bool_decide_eq_true|]; naive_solver. }
  destruct (records_ok p (rows_of p)) as (kvs' & E' & Hall).
  { intros r Hr. by apply (pr_ids _ _ Hp), (pr_source _ _ Hp). }
  rewrite (pr_records _ _ Hp) in E'. injection E' as <-.
  destruct (records_ok p (matching p ids)) as (recs' & E' & Hall').
  { intros r Hr. by apply (pr_ids _ _ Hp), Hm. }
  rewrite Hrecs in E'. injection E' as <-.
  apply list_elem_of_lookup in Hkv as [i Hi].
  destruct (Forall2_lookup_r _ _ _ _ _ Hall Hi) as (r & Hr & Eid & Erec).
  apply list_elem_of_lookup_2 in Hr. apply (pr_source _ _ Hp) in Hr.
  apply last_all_eq.
  - apply list_elem_of_filter. split; [by apply bool_decide_eq_true|].
    assert (r ∈ matching p ids) as [j Hj]%list_elem_of_lookup by (apply Hm; eauto).
    destruct (Forall2_lookup_l _ _ _ _ _ Hall' Hj) as ([id rc] & Hk & Eid' & Erec').
    simpl in *. rewrite Eid in Eid'. injection Eid' as <-.
    destruct kv as [id rc0]. simpl in *. subst. by eapply list_elem_of_lookup_2.
  - intros [id rc] [Hid Hk]%list_elem_of_filter. apply bool_decide_eq_true in Hid. simpl in Hid.
    apply list_elem_of_lookup in Hk as [j Hj].
    destruct (Forall2_lookup_r _ _ _ _ _ Hall' Hj) as (r' & Hr' & Eid' & Erec').
    apply list_elem_of_lookup_2 in Hr'. apply Hm in Hr' as [Hr' _]. simpl in *.
    assert (r' = r) as -> by (eapply (source_row_unique p kvs); [done..|congruence]).
    destruct kv as [id0 rc0]. simpl in *. by subst.
Qed.

Lemma omap_fst {A B} (f : A → option (A * B)) (l : list (A * B)) :
  (∀ kv, kv ∈ l → f kv.1 = Some kv) → omap f l.*1 = l.
Proof.
  induction l as [|kv l IH]; intros Hf; simpl; [done|].
  rewrite (Hf kv) by set_solver. simpl. f_equal. apply IH. set_solver.
Qed.

Lemma window_fmap {A B} (f : A → B) n o l : window n o (f <$> l) = f <$> window n o l.
Proof. unfold window. by rewrite fmap_take, fmap_drop. Qed.

Lemma elem_of_window {A} n o (l : list A) x : x ∈ window n o l → x ∈ l.
Proof.
  unfold window. intros [i Hi]%list_elem_of_lookup. apply lookup_take_Some in Hi as [Hi _].
  rewrite lookup_drop in Hi. by eapply list_elem_of_lookup_2.
Qed.

Lemma NoDup_window {A} n o (l : list A) : NoDup l → NoDup (window n o l).
Proof.
  intros Hl. unfold window. eapply sublist_NoDup; [exact Hl|].
  etrans; [apply sublist_take|apply sublist_drop].
Qed.

Lemma records_by_ids_window p kvs n o :
  plan_rows p kvs →
  _execute_records_by_ids p (window n o kvs.*1) = Ok (window n o kvs.*2).
Proof.
  intros Hp. unfold _execute_records_by_ids.
  destruct (records_ok p (matching p (window n o kvs.*1))) as (recs & E & _).
  { intros r Hr. apply (pr_ids _ _ Hp). unfold matching in Hr.
    apply list_elem_of_filter in Hr as [_ Hr]. by rewrite scan_perm in Hr. }
  rewrite E. cbn [res_bind]. rewrite !window_fmap.
  rewrite omap_fst.
  - rewrite bool_decide_eq_true_2; [done|]. rewrite <- window_fmap. by apply NoDup_window, Hp.
  - intros kv Hkv. eapply (by_id_found p kvs (window n o kvs.*1) recs); [done|done| |].
    + by eapply elem_of_window.
    + rewrite window_fmap. by apply list_elem_of_fmap_2.
Qed.

Lemma row_ids_ok p kvs : plan_rows p kvs → res_map row_id (rows_of p) = Ok kvs.*1.
Proof.
  intros [E _ _ _ _]. revert kvs E. generalize (rows_of p) as rows.
  induction rows as [|r rows IH]; intros kvs E; [by injection E as <-|].
  unfold _records in E. cbn [res_map] in E |- *. unfold record_of at 1 in E.
  destruct (row_id r) as [id|e]; [|done]. cbn [res_bind] in *.
  apply res_bind_ok in E as (kvs' & E & [= <-]). by rewrite (IH _ E).
Qed.

(** A page served through the id index is the slice of the result it names. *)
Lemma locator_page p kvs query include_deleted offset size :
  plan catalog query include_deleted = Ok p → plan_rows p kvs → 0 ≤ offset →
  ∃ index, write_index p = Ok index ∧
    fetch_records_for_locator query include_deleted index offset size
    = Ok (window size offset kvs.*2).
Proof.
  intros Hplan Hp Ho. unfold write_index. rewrite (row_ids_ok p kvs Hp). eexists. split; [done|].
  unfold fetch_records_for_locator. rewrite Hplan. cbn [res_bind].
  rewrite read_page_ids_slice by done.
  destruct (window size offset kvs.*1) as [|id ids] eqn:Ew.
  - rewrite window_fmap in Ew. rewrite window_fmap. by destruct (window size offset kvs).
  - rewrite <- Ew. by apply records_by_ids_window.
Qed.

Lemma execute_page_window p kvs offset size :
  plan_rows p kvs →
  _execute_page p size offset
  = Ok (mkPage (p_object_name p) (Z.of_nat (length kvs)) (window size offset kvs.*2)).
Proof.
  intros Hp. unfold _execute_page.
  assert (_records p (window size offset (rows_of p)) = Ok (window size offset kvs)) as ->.
  { pose proof (pr_records _ _ Hp) as E. revert E. generalize (rows_of p) as rows. clear.
    unfold window. intros rows.
    assert (∀ rows kvs n, _records p rows = Ok kvs → _records p (take n rows) = Ok (take n kvs)) as Ht.
    { clear. induction rows as [|r rows IH]; intros kvs n E; [injection E as <-; by rewrite !take_nil|].
      destruct n; [done|]. unfold _records in *. cbn [res_map take] in *.
      apply res_bind_ok in E as (kv & Ek & E). apply res_bind_ok in E as (kvs' & E & [= <-]).
      rewrite Ek. cbn [res_bind]. by rewrite (IH _ n E). }
    assert (∀ rows kvs n, _records p rows = Ok kvs → _records p (drop n rows) = Ok (drop n kvs)) as Hd.
    { clear. induction rows as [|r rows IH]; intros kvs n E; [injection E as <-; by rewrite !drop_nil|].
      destruct n; [done|]. unfold _records in *. cbn [res_map drop] in *.
      apply res_bind_ok in E as (kv & Ek & E). apply res_bind_ok in E as (kvs' & E & [= <-]).
      exact (IH _ n E). }
    intros E. apply Ht, Hd, E. }
  cbn [res_bind]. rewrite window_fmap. do 3 f_equal.
  pose proof (row_ids_ok p kvs Hp) as E. revert E. generalize (rows_of p). clear.
  intros rows. revert kvs. induction rows as [|r rows IH]; intros kvs E.
  - simpl in E. injection E as E. by destruct kvs.
  - cbn [res_map] in E. apply res_bind_ok in E as (v & _ & E).
    apply res_bind_ok in E as (vs & E & [= Ev]). destruct kvs as [|kv kvs]; [done|].
    simpl in Ev. injection Ev as _ Ev. simpl. f_equal. apply IH. by rewrite E, Ev.
Qed.
End Service.
