(* ===== verification/Cursors.v ===== *)
(** * REST query cursors: [fakeforce/app.py], [fakeforce/state.py], [fakeforce/cursor_artifacts.py]

    The first page of a query, the cursor row and id index it leaves behind, the pages served
    from them, expiry and reconciliation. The cursor table and the artifact directory are the
    state; the clock, the locator drawn and the catalog's snapshot id are arguments. *)

From stdpp Require Import prelude gmap strings list.
From Stdlib Require Import ZArith Lia Ascii.
From S2P Require Import Prelude PyText Soql Catalog QueryPlan.

Open Scope Z_scope.

Section Cursors.
Context {V : Type} `{EqDecision V} `{Engine V} (id_text : V → string).
Context (API_VERSION : string) (catalog : DatasetCatalog) (root : string).

Abbreviation record := (api_record (V:=V)).

(** A row of [cursors]. *)
Record StoredCursor := mkCursor {
  cu_query : string;
  cu_api_version : string;
  cu_offset : Z;
  cu_batch_size : Z;
  cu_total_size : Z;
  cu_artifact : string;
  cu_snapshot : string;
  cu_open : bool;
  cu_expires : Z }.

(** The cursor table and the index files, by path. *)
Record rest_state := mkRest {
  rs_cursors : gmap string StoredCursor;
  rs_artifacts : gmap string (list (Z * V)) }.

Definition set_cursors m s := mkRest m (rs_artifacts s).
Definition set_artifacts m s := mkRest (rs_cursors s) m.

Definition create_cursor (locator : string) (c : StoredCursor) : io rest_state unit :=
  let* s := io_get in
  match rs_cursors s !! locator with
  | Some _ => io_raise IntegrityError "Constraint Error: Duplicate key"
  | None => io_modify (λ s, set_cursors (<[locator := c]> (rs_cursors s)) s)
  end.

Definition cursor_live (now : Z) (c : StoredCursor) : bool := cu_open c && (now <? cu_expires c).

Definition get_cursor (now : Z) (locator : string) (s : rest_state) : option StoredCursor :=
  match rs_cursors s !! locator with
  | Some c => if cursor_live now c then Some c else None
  | None => None
  end.

Definition count_open_cursors (now : Z) (s : rest_state) : Z :=
  Z.of_nat (length (filter (λ kv : string * StoredCursor, cursor_live now kv.2 = true)
    (map_to_list (rs_cursors s)))).

(** [expire_cursors]: the artifact paths of the expired cursors, which are deleted. *)
Definition expire_cursors (now : Z) : io rest_state (list string) :=
  let* s := io_get in
  let expired := filter (λ kv : string * StoredCursor, (cu_expires kv.2 <=? now) = true)
                   (map_to_list (rs_cursors s)) in
  let* _ := io_modify (λ s, set_cursors
    (filter (λ kv : string * StoredCursor, (cu_expires kv.2 <=? now) = false) (rs_cursors s)) s) in
  io_ret ((λ kv : string * StoredCursor, cu_artifact kv.2) <$> expired).

Definition active_cursor_artifacts (now : Z) (s : rest_state) : list string :=
  (λ kv : string * StoredCursor, cu_artifact kv.2) <$>
    filter (λ kv : string * StoredCursor, cursor_live now kv.2 = true) (map_to_list (rs_cursors s)).

(** [CursorArtifactStore.remove]: only files of this store's directory are removed. *)
Definition remove_artifact (path : string) (s : rest_state) : rest_state :=
  if starts_with (root +:+ "/") path then set_artifacts (delete path (rs_artifacts s)) s else s.

(** [CursorArtifactStore.reconcile] *)
Definition reconcile (expired active : list string) (s : rest_state) : rest_state :=
  let s := foldl (λ s p, remove_artifact p s) s expired in
  foldl (λ s p, if existsb (String.eqb p) active then s else remove_artifact p s) s
    (map_to_list (rs_artifacts s)).*1.

(** The cleanup at startup and on each retention sweep. *)
Definition sweep (now : Z) : io rest_state unit :=
  let* expired := expire_cursors now in
  let* s := io_get in
  io_modify (reconcile expired (active_cursor_artifacts now s)).

(** ** Responses *)

Inductive response :=
| RPage (total_size : Z) (done : bool) (records : list record) (next : option string)
| RError (status : Z) (code message : string).

Definition invalid_locator : response := RError 400 "INVALID_QUERY_LOCATOR" "invalid query locator".

(** [f"{locator}-{offset}"], the last part of [nextRecordsUrl]. *)
Definition next_locator (locator : string) (offset : Z) : string :=
  locator +:+ "-" +:+ str_of_Z offset.

Definition version_tag (include_deleted : bool) : string :=
  API_VERSION +:+ ":" +:+ (if include_deleted then "queryAll" else "query").

Definition artifact_path (locator : string) : string := root +:+ "/" +:+ locator +:+ ".parquet".

Definition two_days : Z := 2 * 86400.

(** [_page] for the first page ([page_offset] is [0] at its only call). *)
Definition _page (now : Z) (snapshot locator : string) (q : string) (include_deleted : bool)
    (page_offset size : Z) : io rest_state response :=
  let* r := io_lift (fetch_page_with_cursor_index id_text API_VERSION catalog q include_deleted
                       size page_offset) in
  let page := r.1 in
  let next := page_offset + Z.of_nat (length (pg_records page)) in
  let* _ := match r.2 with
            | Some index => io_modify (λ s, set_artifacts
                              (<[artifact_path locator := index]> (rs_artifacts s)) s)
            | None => io_ret tt
            end in
  if pg_total page <=? next then io_ret (RPage (pg_total page) true (pg_records page) None)
  else
    let* _ := create_cursor locator
      (mkCursor q (version_tag include_deleted) 0 size (pg_total page) (artifact_path locator)
         snapshot true (now + two_days)) in
    io_ret (RPage (pg_total page) false (pg_records page) (Some (next_locator locator next))).

(** [except QueryOptionError ... QueryValidationError] *)
Definition error_response (m : io rest_state response) : io rest_state response := λ s,
  match m s with
  | (s', Err e) =>
    match exn_cls e with
    | QueryOptionError => (s', Ok (RError 400 "MALFORMED_QUERY" (exn_msg e)))
    | QueryDeadlineExceeded => (s', Ok (RError 500 "QUERY_TIMEOUT" "query timeout"))
    | QueryValidationError => (s', Ok (RError 400 (exn_code e) (exn_msg e)))
    | _ => (s', Err e)
    end
  | r => r
  end.

(** [_run_query]; [page_size] is the configured chaos page size. *)
Definition _run_query (now : Z) (snapshot locator : string) (page_size : Z) (q : string)
    (include_deleted : bool) (options : option string) : io rest_state response :=
  error_response
    (let* requested := io_lift (parse_query_batch_size options) in
     _page now snapshot locator q include_deleted 0 (Z.min page_size requested)).

(** [locator.rpartition("-")] *)
Definition rpartition_dash (s : string) : string * bool * string :=
  let '(after, found, before) := partition "-"%char (str (rev (chars s))) in
  if found then (str (rev (chars before)), true, str (rev (chars after)))
  else ("", false, s).

(** [query_more] *)
Definition query_more (now : Z) (snapshot : string) (locator : string) (s : rest_state)
    : res response :=
  let '(locator_id, separator, offset_text) := rpartition_dash locator in
  if negb separator || negb (isdecimal offset_text) then Ok invalid_locator
  else match get_cursor now locator_id s with
  | None => Ok invalid_locator
  | Some cur =>
    match rs_artifacts s !! cu_artifact cur with
    | None => Ok invalid_locator
    | Some index =>
      if negb (String.eqb (cu_snapshot cur) snapshot) then Ok invalid_locator
      else match int_of_text offset_text with
      | None => raise ValueError "Exceeds the limit (4300 digits) for integer string conversion"
      | Some page_offset =>
        if (page_offset <? 0) || (cu_total_size cur <=? page_offset) then Ok invalid_locator
        else
          match fetch_records_for_locator id_text API_VERSION catalog (cu_query cur)
                  (String.eqb (cu_api_version cur) (version_tag true)) index page_offset
                  (cu_batch_size cur) with
          | Ok records =>
            let next := page_offset + Z.of_nat (length records) in
            if cu_total_size cur <=? next then Ok (RPage (cu_total_size cur) true records None)
            else Ok (RPage (cu_total_size cur) false records (Some (next_locator locator_id next)))
          | Err e =>
            match exn_cls e with
            | QueryValidationError => Ok (RError 400 (exn_code e) (exn_msg e))
            | QueryDeadlineExceeded => Ok (RError 500 "QUERY_TIMEOUT" "query timeout")
            | _ => Err e
            end
          end
      end
    end
  end.

(** A client that follows [nextRecordsUrl] until [done], for at most [fuel] requests: the
    pages it received and whether it saw the end. *)
Fixpoint follow (fuel : nat) (now : Z) (snapshot : string) (next : option string) (s : rest_state)
    : list (list record) * bool :=
  match next with
  | None => ([], true)
  | Some locator =>
    match fuel with
    | O => ([], false)
    | S fuel =>
      match query_more now snapshot locator s with
      | Ok (RPage _ _ records next) =>
        let '(pages, ended) := follow fuel now snapshot next s in (records :: pages, ended)
      | _ => ([], false)
      end
    end
  end.

(** ** Locators *)

Lemma rpartition_next locator n :
  0 ≤ n → rpartition_dash (next_locator locator n) = (locator, true, str_of_Z n).
Proof.
  intros Hn. unfold rpartition_dash, next_locator, partition. rewrite chars_str, !chars_app.
  rewrite !rev_app_distr. simpl (rev (chars "-")). rewrite <- app_assoc. simpl.
  rewrite (proj2 (partition_list_spec "-"%char _ []) (rev (chars (str_of_Z n))) (rev (chars locator)));
    [|done|].
  - simpl. rewrite !chars_str, !rev_involutive, !str_chars. done.
  - intros Hin. rewrite list_elem_of_In, <- in_rev, <- list_elem_of_In in Hin.
    unfold str_of_Z in Hin. destruct (Z.ltb_spec n 0); [lia|]. rewrite chars_str in Hin.
    destruct (dec_digits_spec n Hn) as (_ & Hd & _). rewrite Forall_forall in Hd.
    by specialize (Hd _ Hin).
Qed.

Lemma isdecimal_nat n : 0 ≤ n → isdecimal (str_of_Z n) = true.
Proof.
  intros Hn. unfold isdecimal, all_chars, str_of_Z. destruct (Z.ltb_spec n 0); [lia|].
  rewrite chars_str. destruct (dec_digits_spec n Hn) as (_ & Hd & Hne).
  destruct (dec_digits n) as [|c l]; [done|]. apply forallb_forall. intros x Hx.
  rewrite Forall_forall in Hd. apply Hd. by apply list_elem_of_In.
Qed.

(** Offsets short enough for [int]. *)
Lemma int_of_text_nat n : 0 ≤ n < 10 ^ max_str_digits → int_of_text (str_of_Z n) = Some n.
Proof.
  intros Hn. unfold int_of_text.
  destruct (Z.ltb_spec max_str_digits
    (Z.of_nat (length (filter (λ c, is_decimal c = true) (chars (str_of_Z n)))))) as [Hlt|];
    [exfalso|by apply py_int_str_of_Z].
  unfold str_of_Z in Hlt. destruct (Z.ltb_spec n 0); [lia|]. rewrite chars_str in Hlt.
  pose proof (length_filter (λ c, is_decimal c = true) (dec_digits n)).
  pose proof (dec_digits_length n (Z.to_nat max_str_digits)) as Hlen.
  rewrite Z2Nat.id in Hlen by done. specialize (Hlen Hn ltac:(unfold max_str_digits; lia)).
  unfold max_str_digits in *. lia.
Qed.

(** ** Following a cursor *)

Context (scan_perm : ∀ l : list (list (string * V)), scan l ≡ₚ l).

Lemma length_window {A} n o (l : list A) :
  0 ≤ o → 0 ≤ n → Z.of_nat (length (window n o l)) = Z.max 0 (Z.min n (Z.of_nat (length l) - o)).
Proof. intros Ho Hn. unfold window. rewrite length_take, length_drop. lia. Qed.

Lemma window_drop {A} n o (l : list A) :
  0 ≤ o → 0 ≤ n → window n o l ++ drop (Z.to_nat (o + n)) l = drop (Z.to_nat o) l.
Proof.
  intros Ho Hn. unfold window.
  replace (Z.to_nat (o + n)) with (Z.to_nat n + Z.to_nat o)%nat by lia.
  rewrite Nat.add_comm, <- drop_drop. apply take_drop.
Qed.

(** What a live cursor over the rows of a plan looks like in the state. *)
Record cursor_ok (now : Z) (snapshot locator q : string) (include_deleted : bool) (n : Z)
    (p : QueryPlan) (kvs : list (V * record)) (s : rest_state) : Prop := {
  co_plan : plan catalog q include_deleted = Ok p;
  co_rows : plan_rows id_text API_VERSION p kvs;
  co_size : 0 < n;
  co_total : Z.of_nat (length kvs) < 10 ^ max_str_digits;
  co_cursor : rs_cursors s !! locator
    = Some (mkCursor q (version_tag include_deleted) 0 n (Z.of_nat (length kvs))
              (artifact_path locator) snapshot true (now + two_days));
  co_artifact : rs_artifacts s !! artifact_path locator = Some (enumerate_from 0 kvs.*1) }.

Lemma version_tag_query b : String.eqb (version_tag b) (version_tag true) = b.
Proof.
  destruct b; [apply String.eqb_refl|]. apply String.eqb_neq. unfold version_tag. intros E.
  apply (f_equal (λ s, length (chars s))) in E. rewrite !chars_app, !length_app in E.
  simpl in E. lia.
Qed.

Lemma query_more_page now now' snapshot locator q d n p kvs s off :
  cursor_ok now snapshot locator q d n p kvs s → now' < now + two_days →
  0 ≤ off < Z.of_nat (length kvs) →
  query_more now' snapshot (next_locator locator off) s
  = let next := off + Z.of_nat (length (window n off kvs.*2)) in
    Ok (if Z.of_nat (length kvs) <=? next
        then RPage (Z.of_nat (length kvs)) true (window n off kvs.*2) None
        else RPage (Z.of_nat (length kvs)) false (window n off kvs.*2) (Some (next_locator locator next))).
Proof.
  intros [Hplan Hrows Hn Htot Hc Ha] Hnow Hoff. unfold query_more.
  rewrite rpartition_next, isdecimal_nat by lia. simpl.
  unfold get_cursor. rewrite Hc. unfold cursor_live. simpl.
  destruct (Z.ltb_spec now' (now + two_days)); [|lia]. simpl. rewrite Ha.
  rewrite String.eqb_refl. cbn [negb]. rewrite int_of_text_nat by lia.
  destruct (Z.ltb_spec off 0); [lia|].
  destruct (Z.leb_spec (Z.of_nat (length kvs)) off); [lia|]. cbn [orb].
  rewrite version_tag_query.
  destruct (locator_page id_text API_VERSION catalog scan_perm p kvs q d off n Hplan Hrows)
    as (index & Hi & Hf); [lia|].
  unfold write_index in Hi. rewrite (row_ids_ok id_text API_VERSION p kvs Hrows) in Hi.
  injection Hi as <-. rewrite Hf. by destruct (_ <=? _).
Qed.

Lemma follow_pages now now' snapshot locator q d n p kvs s :
  cursor_ok now snapshot locator q d n p kvs s → now' < now + two_days →
  ∀ fuel off, 0 ≤ off → (Z.to_nat (Z.of_nat (length kvs) - off) ≤ fuel)%nat →
  ∃ pages,
    follow fuel now' snapshot
      (if Z.of_nat (length kvs) <=? off then None else Some (next_locator locator off)) s
    = (pages, true) ∧
    concat pages = drop (Z.to_nat off) kvs.*2 ∧
    (∀ pg, pg ∈ pages → pg ≠ [] ∧ Z.of_nat (length pg) ≤ n) ∧
    (∀ i pg, S i < length pages → pages !! i = Some pg → Z.of_nat (length pg) = n)%nat.
Proof.
  intros Hok Hnow fuel. pose proof Hok as [_ _ Hn _ _ _].
  induction fuel as [|fuel IH]; intros off Hoff Hf.
  - destruct (Z.leb_spec (Z.of_nat (length kvs)) off); [|lia]. exists []. simpl.
    rewrite drop_ge by (rewrite length_fmap; lia). split; [done|]. split; [done|].
    split; [by intros pg Hpg%elem_of_nil|]. intros i pg Hi. simpl in Hi. lia.
  - destruct (Z.leb_spec (Z.of_nat (length kvs)) off).
    + exists []. rewrite drop_ge by (rewrite length_fmap; lia). split; [done|]. split; [done|].
      split; [by intros pg Hpg%elem_of_nil|]. intros i pg Hi. simpl in Hi. lia.
    + cbn [follow]. rewrite (query_more_page now now' _ _ _ _ _ _ _ _ _ Hok) by (done || lia).
      cbv zeta. pose proof (length_window n off kvs.*2 Hoff ltac:(lia)) as Hlen.
      rewrite length_fmap in Hlen. set (w := window n off kvs.*2) in *.
      destruct (IH (off + Z.of_nat (length w))) as (pages & E & Hcat & Hall & Hfull); [lia|lia|].
      exists (w :: pages). split; [|split; [|split]].
      * destruct (Z.of_nat (length kvs) <=? off + Z.of_nat (length w)); by rewrite E.
      * simpl. rewrite Hcat. destruct (decide (off + n ≤ Z.of_nat (length kvs))).
        -- replace (Z.of_nat (length w)) with n by lia. apply window_drop; lia.
        -- rewrite drop_ge, app_nil_r by (rewrite length_fmap; lia). unfold w, window.
           rewrite take_ge; [done|]. rewrite length_drop, length_fmap. lia.
      * intros pg [->|Hpg]%elem_of_cons; [|by apply Hall]. split; [|lia].
        intros ->. simpl in Hlen. lia.
      * intros [|i] pg Hi Hl; simpl in *; [|apply (Hfull i); [lia|done]].
        injection Hl as <-. destruct pages as [|pg' pages]; [simpl in Hi; lia|].
        destruct (Hall pg') as [Hne _]; [set_solver|].
        destruct (Z.leb_spec (off + n) (Z.of_nat (length kvs))); [lia|].
        exfalso. assert (concat (pg' :: pages) = []) as Hc.
        { rewrite Hcat. apply drop_ge. rewrite length_fmap. lia. }
        simpl in Hc. by apply app_nil in Hc as [-> _].
Qed.

End Cursors.

(** ** An instance: three rows, pages of two, scans in reverse order *)

Definition witness_row (id name : string) : list (string * string) :=
  [("Name", name); (INTERNAL_ID_FIELD, id)].
Definition witness_rows : list (list (string * string)) :=
  [witness_row "001A" "Ada"; witness_row "001B" "Bob"; witness_row "001C" "Cyd"].

#[export] Instance witness_engine : Engine string :=
  {| run _ _ := witness_rows; scan l := rev l |}.

Definition witness_catalog : DatasetCatalog :=
  mkCatalog [("Account", witness_spec)] [("account", witness_spec)].
Definition witness_plan : QueryPlan :=
  match plan witness_catalog "select Name from account" false with
  | Ok p => p
  | Err _ => mkPlan "" [] "" "" "" [] false
  end.
Definition witness_recs : list (string * api_record) :=
  match _records id "v60.0" witness_plan witness_rows with Ok l => l | Err _ => [] end.

