(* ===== verification/Jobs.v ===== *)
(** * Bulk jobs and operational state: [fakeforce/bulk/jobs.py], [fakeforce/state.py]

    The job state machine and the job, checkpoint, row-result and usage tables of [StateStore];
    the clock is the argument [now] (in seconds). *)

From stdpp Require Import prelude gmap strings list.
From Stdlib Require Import ZArith Lia Ascii.
From S2P Require Import Prelude PyText.

Open Scope Z_scope.

Inductive BulkJobType := QUERY | INGEST.
Inductive BulkJobState := OPEN | UPLOAD_COMPLETE | IN_PROGRESS | JOB_COMPLETE | FAILED | ABORTED.

#[export] Instance job_type_eq_dec : EqDecision BulkJobType.
Proof. solve_decision. Defined.
#[export] Instance job_state_eq_dec : EqDecision BulkJobState.
Proof. solve_decision. Defined.

Definition state_text (s : BulkJobState) : string :=
  match s with
  | OPEN => "Open" | UPLOAD_COMPLETE => "UploadComplete" | IN_PROGRESS => "InProgress"
  | JOB_COMPLETE => "JobComplete" | FAILED => "Failed" | ABORTED => "Aborted"
  end.

Record BulkJob := mkJob {
  job_id : string;
  job_type : BulkJobType;
  api_version : string;
  job_state : BulkJobState;
  job_object_name : option string;
  operation : option string;
  query_text : option string;
  dataset_snapshot_id : option string;
  error_code : option string;
  error_message : option string;
  expires_at : option Z;
  options : list (string * string) }.

Definition ALLOWED_TRANSITIONS (s : BulkJobState) : list BulkJobState :=
  match s with
  | OPEN => [UPLOAD_COMPLETE; ABORTED]
  | UPLOAD_COMPLETE => [IN_PROGRESS; ABORTED]
  | IN_PROGRESS => [JOB_COMPLETE; FAILED; ABORTED]
  | JOB_COMPLETE | FAILED | ABORTED => []
  end.

Definition validate_transition (current next_state : BulkJobState) : res unit :=
  if bool_decide (next_state ∈ ALLOWED_TRANSITIONS current) then Ok tt
  else raise InvalidJobTransition ("cannot transition bulk job from " +:+ state_text current
                                   +:+ " to " +:+ state_text next_state).

(** ** The tables *)

(** A row of [job_checkpoints]; its number is its key. *)
Record checkpoint := mkCheckpoint {
  cp_records_processed : Z;
  cp_records_failed : Z;
  cp_bytes_written : Z;
  cp_csv_row_number : option Z;
  cp_artifact_path : option string }.

(** A row of [job_row_results]. *)
Record row_result := mkRowResult {
  rr_status : string;
  rr_record_id : option string;
  rr_error_message : option string;
  rr_source_values : list (string * option string) }.

Record store := mkState {
  st_jobs : gmap string BulkJob;
  st_checkpoints : gmap (string * Z) checkpoint;
  st_row_results : gmap (string * Z) row_result;
  st_usage : list Z }.

Definition set_jobs j s := mkState j (st_checkpoints s) (st_row_results s) (st_usage s).
Definition set_checkpoints c s := mkState (st_jobs s) c (st_row_results s) (st_usage s).
Definition set_row_results r s := mkState (st_jobs s) (st_checkpoints s) r (st_usage s).
Definition set_usage u s := mkState (st_jobs s) (st_checkpoints s) (st_row_results s) u.

Definition empty_store : store := mkState ∅ ∅ ∅ [].

(** ** Operations *)

Definition create_job (job : BulkJob) : io store unit :=
  let* s := io_get in
  match st_jobs s !! job_id job with
  | Some _ => io_raise IntegrityError "Constraint Error: Duplicate key"
  | None => io_modify (λ s, set_jobs (<[job_id job := job]> (st_jobs s)) s)
  end.

(** [expires_at IS NULL OR expires_at > current_timestamp] *)
Definition unexpired (now : Z) (j : BulkJob) : bool :=
  match expires_at j with None => true | Some e => now <? e end.

(** The row read back; the expiry is not among the columns selected. *)
Definition read_back (j : BulkJob) : BulkJob :=
  mkJob (job_id j) (job_type j) (api_version j) (job_state j) (job_object_name j) (operation j)
    (query_text j) (dataset_snapshot_id j) (error_code j) (error_message j) None (options j).

Definition get_job (now : Z) (id : string) (s : store) : option BulkJob :=
  match st_jobs s !! id with
  | Some j => if unexpired now j then Some (read_back j) else None
  | None => None
  end.

Definition with_state (st : BulkJobState) (code msg : option string) (j : BulkJob) : BulkJob :=
  mkJob (job_id j) (job_type j) (api_version j) st (job_object_name j) (operation j)
    (query_text j) (dataset_snapshot_id j) code msg (expires_at j) (options j).

(** The transaction of [transition_job]. *)
Definition update_state (id : string) (next : BulkJobState) (code msg : option string) : io store unit :=
  transaction
    (let* s := io_get in
     match st_jobs s !! id with
     | None => io_raise KeyError id
     | Some j =>
       let* _ := io_lift (validate_transition (job_state j) next) in
       io_modify (λ s, set_jobs (<[id := with_state next code msg j]> (st_jobs s)) s)
     end).

Definition transition_job (now : Z) (id : string) (next : BulkJobState) (code msg : option string)
    : io store BulkJob :=
  let* _ := update_state id next code msg in
  let* s := io_get in
  match get_job now id s with
  | Some j => io_ret j
  | None => io_raise AssertionError ""
  end.

(** The checkpoints of a job, by number. *)
Definition checkpoints_of (id : string) (s : store) : list (Z * checkpoint) :=
  (λ kv : (string * Z) * checkpoint, (kv.1.2, kv.2)) <$>
    filter (λ kv : (string * Z) * checkpoint, kv.1.1 = id) (map_to_list (st_checkpoints s)).

(** [coalesce(max(checkpoint_number), -1) + 1] *)
Definition next_checkpoint (id : string) (s : store) : Z :=
  zmax (-1) (checkpoints_of id s).*1 + 1.

Definition add_job_checkpoint (id : string) (cp : checkpoint) : io store unit :=
  let* s := io_get in
  io_modify (λ s, set_checkpoints (<[(id, next_checkpoint id s) := cp]> (st_checkpoints s)) s).

(** [coalesce(max(records_processed), 0)]; the maximum of no rows is [NULL]. *)
Definition latest_job_checkpoint_records (id : string) (s : store) : Z :=
  match (λ kv, cp_records_processed kv.2) <$> checkpoints_of id s with
  | [] => 0
  | n :: ns => zmax n ns
  end.

Record IngestProgress := mkProgress {
  ip_records_processed : Z; ip_records_failed : Z; ip_csv_row_number : Z }.

(** [ORDER BY checkpoint_number DESC LIMIT 1] *)
Definition ingest_progress (id : string) (s : store) : IngestProgress :=
  match head (sort_by (λ a b, b.1 <=? a.1) (checkpoints_of id s)) with
  | Some (_, cp) => mkProgress (cp_records_processed cp) (cp_records_failed cp)
                      (default 0 (cp_csv_row_number cp))
  | None => mkProgress 0 0 0
  end.

Definition results_of (id status : string) (s : store) : list (Z * row_result) :=
  (λ kv : (string * Z) * row_result, (kv.1.2, kv.2)) <$>
    filter (λ kv : (string * Z) * row_result, kv.1.1 = id ∧ rr_status kv.2 = status)
      (map_to_list (st_row_results s)).

Definition ingest_result_count (id status : string) (s : store) : Z :=
  Z.of_nat (length (results_of id status s)).

(** The rows of [stream_ingest_results], header first; the CSV encoding is the library's. *)
Definition result_header (status : string) (source_fields : list string) : list string :=
  if String.eqb status "success" then ["sf__Id"; "sf__Created"; "sf__Error"]
  else "sf__Id" :: "sf__Error" :: source_fields.

Definition result_row (status : string) (source_fields : list string) (r : row_result) : list string :=
  if String.eqb status "success" then [default "" (rr_record_id r); "true"; ""]
  else default "" (rr_record_id r) :: default "" (rr_error_message r) ::
       ((λ f, default "" (mjoin (aget f (rr_source_values r)))) <$> source_fields).

Definition stream_ingest_results (id status : string) (source_fields : list string) (s : store)
    : list (list string) :=
  result_header status source_fields ::
  ((λ kv, result_row status source_fields kv.2) <$>
    sort_by (λ a b : Z * row_result, a.1 <=? b.1) (results_of id status s)).

Definition resumable (ty : BulkJobType) (now : Z) (j : BulkJob) : bool :=
  bool_decide (job_type j = ty) &&
  (bool_decide (job_state j = UPLOAD_COMPLETE) || bool_decide (job_state j = IN_PROGRESS)) &&
  unexpired now j.

Definition resumable_jobs (ty : BulkJobType) (now : Z) (s : store) : list string :=
  (filter (λ kv : string * BulkJob, resumable ty now kv.2 = true) (map_to_list (st_jobs s))).*1.
Definition resumable_query_jobs : Z → store → list string := resumable_jobs QUERY.
Definition resumable_ingest_jobs : Z → store → list string := resumable_jobs INGEST.

(** [expires_at <= current_timestamp]: not true of a missing expiry. *)
Definition expired (now : Z) (j : BulkJob) : bool :=
  match expires_at j with None => false | Some e => e <=? now end.

(** [expire_jobs]: one transaction; the [artifacts] table has no other writer. *)
Definition expire_jobs (now : Z) : io store (list string) :=
  let* s := io_get in
  let ids := (filter (λ kv : string * BulkJob, expired now kv.2 = true) (map_to_list (st_jobs s))).*1 in
  let* _ := io_modify (λ s, set_jobs
    (filter (λ kv : string * BulkJob, kv.1 ∉ ids) (st_jobs s))
    (set_checkpoints (filter (λ kv : (string * Z) * checkpoint, kv.1.1 ∉ ids) (st_checkpoints s)) s)) in
  io_ret ids.

Definition day_seconds : Z := 86400.

(** [record_api_usage] *)
Definition record_api_usage (now : Z) : io store Z :=
  let* _ := io_modify (λ s, set_usage
    (now :: filter (λ t, (t <=? now - day_seconds) = false) (st_usage s)) s) in
  let* s := io_get in io_ret (Z.of_nat (length (st_usage s))).

Definition api_usage_last_24_hours (now : Z) (s : store) : Z :=
  Z.of_nat (length (filter (λ t, (now - day_seconds <? t) = true) (st_usage s))).

(** ** The dispatcher's guard: [BulkQueryDispatcher._run], [BulkIngestDispatcher._run] *)

Definition should_run (now : Z) (id : string) (s : store) : bool :=
  match get_job now id s with
  | Some j => bool_decide (job_state j = UPLOAD_COMPLETE) || bool_decide (job_state j = IN_PROGRESS)
  | None => false
  end.

(** ** The state machine *)

Definition terminal (s : BulkJobState) : bool :=
  match s with JOB_COMPLETE | FAILED | ABORTED => true | _ => false end.

(** How far a job has come; every transition increases it. *)
Definition rank (s : BulkJobState) : nat :=
  match s with OPEN => 0 | UPLOAD_COMPLETE => 1 | IN_PROGRESS => 2 | _ => 3 end.

Lemma transition_rank s t : t ∈ ALLOWED_TRANSITIONS s → (rank s < rank t)%nat.
Proof. destruct s; simpl; rewrite ?elem_of_cons, elem_of_nil; intros H; destruct_or?; subst; simpl; lia. Qed.

Lemma terminal_allowed s : terminal s = true ↔ ALLOWED_TRANSITIONS s = [].
Proof. by destruct s. Qed.

Lemma update_state_spec id next code msg s :
  update_state id next code msg s =
    match st_jobs s !! id with
    | None => (s, raise KeyError id)
    | Some j =>
      if bool_decide (next ∈ ALLOWED_TRANSITIONS (job_state j))
      then (set_jobs (<[id := with_state next code msg j]> (st_jobs s)) s, Ok tt)
      else (s, raise InvalidJobTransition ("cannot transition bulk job from "
              +:+ state_text (job_state j) +:+ " to " +:+ state_text next))
    end.
Proof.
  unfold update_state, transaction, validate_transition. io_simpl.
  destruct (st_jobs s !! id) as [j|] eqn:E; [|done].
  by destruct (bool_decide (next ∈ ALLOWED_TRANSITIONS (job_state j))).
Qed.

(** A sequence of attempted transitions of any jobs. *)
Definition attempt : Type := string * BulkJobState * option string * option string.
Definition attempts (l : list attempt) (s : store) : store :=
  foldl (λ s '(id, next, code, msg), (update_state id next code msg s).1) s l.

Definition state_of (id : string) (s : store) : option BulkJobState := job_state <$> st_jobs s !! id.

(** The states a job goes through, without repetitions, along a sequence of attempts. *)
Fixpoint trace (id : string) (l : list attempt) (s : store) : list BulkJobState :=
  match l with
  | [] => []
  | (i, next, code, msg) :: l =>
    let s' := (update_state i next code msg s).1 in
    if decide (state_of id s' = state_of id s) then trace id l s'
    else match state_of id s' with Some st => st :: trace id l s' | None => trace id l s' end
  end.

Lemma update_state_frame i next code msg s id :
  id ≠ i → st_jobs (update_state i next code msg s).1 !! id = st_jobs s !! id.
Proof.
  intros N. rewrite update_state_spec. destruct (st_jobs s !! i); [|done].
  case_match; [|done]. simpl. by rewrite lookup_insert_ne.
Qed.

(** One attempt leaves a job's state as it is or takes an allowed transition. *)
Lemma update_state_step i next code msg s id st :
  state_of id s = Some st →
  state_of id (update_state i next code msg s).1 = Some st ∨
  ∃ st', st' ∈ ALLOWED_TRANSITIONS st ∧ state_of id (update_state i next code msg s).1 = Some st'.
Proof.
  unfold state_of. intros H. destruct (decide (id = i)) as [->|N].
  - rewrite update_state_spec. destruct (st_jobs s !! i) as [j|] eqn:E; [|done].
    simpl in H. injection H as <-. case_bool_decide; simpl.
    + right. exists next. split; [done|]. by rewrite lookup_insert_eq.
    + left. by rewrite E.
  - left. by rewrite update_state_frame.
Qed.

Fixpoint chain (st : BulkJobState) (l : list BulkJobState) : Prop :=
  match l with
  | [] => True
  | st' :: l => st' ∈ ALLOWED_TRANSITIONS st ∧ chain st' l
  end.

Lemma trace_chain id l s st :
  state_of id s = Some st →
  chain st (trace id l s) ∧ (length (trace id l s) + rank st ≤ 3)%nat ∧
  state_of id (attempts l s) = Some (List.last (trace id l s) st).
Proof.
  revert s st. induction l as [|[[[i next] code] msg] l IH]; intros s st H.
  - simpl. split; [done|]. split; [|done]. destruct st; simpl; lia.
  - cbn [trace]. cbv zeta.
    change (attempts ((i, next, code, msg) :: l) s)
      with (attempts l (update_state i next code msg s).1).
    destruct (update_state_step i next code msg s id st H) as [E|(st' & Hin & E)].
    + rewrite decide_True by congruence. by apply IH.
    + pose proof (transition_rank _ _ Hin). rewrite decide_False.
      * rewrite E. destruct (IH _ _ E) as (Hc & Hl & Hlast). split; [done|]. split; [simpl; lia|].
        rewrite Hlast. cbn [List.last]. destruct (trace id l _) as [|x xs] eqn:Et; [done|].
        f_equal. clear. revert x st st'. induction xs as [|y xs IH]; intros x st st'; [done|].
        cbn [List.last]. apply (IH y).
      * rewrite E, H. intros [= ->]. lia.
Qed.

(** Job life cycles are bounded and final. Along any sequence of attempted transitions of any
    jobs, the states a job goes through form a chain of allowed transitions, at most three of
    them succeed, and once the job is complete, failed or aborted every further attempt raises
    [InvalidJobTransition] and changes nothing. *)
Theorem job_life_cycle (l : list attempt) (s : store) (id : string) (st : BulkJobState) :
  state_of id s = Some st →
  chain st (trace id l s) ∧ (length (trace id l s) ≤ 3)%nat ∧
  (terminal st = true → trace id l s = [] ∧ state_of id (attempts l s) = Some st ∧
     ∀ next code msg, update_state id next code msg s
       = (s, raise InvalidJobTransition ("cannot transition bulk job from " +:+ state_text st
               +:+ " to " +:+ state_text next))).
Proof.
  intros H. destruct (trace_chain id l s st H) as (Hc & Hl & Hlast).
  split; [done|]. split; [lia|]. intros Ht. apply terminal_allowed in Ht.
  assert (trace id l s = []) as Et.
  { destruct (trace id l s) as [|st' ?]; [done|]. destruct Hc as [Hin _]. rewrite Ht in Hin.
    by apply elem_of_nil in Hin. }
  split; [done|]. split; [by rewrite Hlast, Et|]. intros next code msg. rewrite update_state_spec.
  unfold state_of in H. destruct (st_jobs s !! id) as [j|]; [|done]. injection H as <-.
  rewrite Ht. by rewrite bool_decide_eq_false_2 by apply not_elem_of_nil.
Qed.

Definition witness_job : BulkJob :=
  mkJob "750a" QUERY "v60.0" UPLOAD_COMPLETE None (Some "query") (Some "select Id from Account")
    (Some "snap") None None (Some 1000) [].
Definition witness_store : store := mkState {["750a" := witness_job]} ∅ ∅ [].
Definition witness_attempts : list attempt :=
  [("750a", IN_PROGRESS, None, None); ("750a", OPEN, None, None); ("750a", JOB_COMPLETE, None, None);
   ("750a", ABORTED, None, None)].

Lemma job_life_cycle_witness :
  trace "750a" witness_attempts witness_store = [IN_PROGRESS; JOB_COMPLETE] ∧
  chain UPLOAD_COMPLETE (trace "750a" witness_attempts witness_store).
Proof.
  split; [vm_compute; reflexivity|].
  apply (job_life_cycle witness_attempts witness_store "750a" UPLOAD_COMPLETE). reflexivity.
Defined.

(** [transition_job] on a job whose retention has ended commits the transition and then raises
    [AssertionError]: the state is changed although the call fails. *)
Theorem transition_expired_job (now : Z) (id : string) (next : BulkJobState) (code msg : option string)
    (s : store) (j : BulkJob) :
  st_jobs s !! id = Some j → expired now j = true → next ∈ ALLOWED_TRANSITIONS (job_state j) →
  transition_job now id next code msg s
  = (set_jobs (<[id := with_state next code msg j]> (st_jobs s)) s, raise AssertionError "").
Proof.
  intros Hj He Hn. unfold transition_job, io_bind. rewrite update_state_spec, Hj.
  rewrite bool_decide_eq_true_2 by done. unfold io_get, get_job. cbn [st_jobs set_jobs].
  rewrite lookup_insert_eq. unfold unexpired, expired in *. cbn [expires_at with_state].
  destruct (expires_at j) as [e|]; [|done]. apply Z.leb_le in He.
  destruct (Z.ltb_spec now e); [lia|done].
Qed.

Lemma transition_expired_job_witness :
  transition_job 1000 "750a" ABORTED None None witness_store
  = (set_jobs (<["750a" := with_state ABORTED None None witness_job]> (st_jobs witness_store)) witness_store,
     raise AssertionError "").
Proof.
  apply transition_expired_job; [reflexivity|reflexivity|].
  apply (bool_decide_unpack _). vm_compute. exact I.
Defined.

(** ** Expiry *)

Lemma expired_unexpired now j : expired now j = negb (unexpired now j).
Proof.
  unfold expired, unexpired. destruct (expires_at j) as [e|]; [|done].
  destruct (Z.leb_spec e now), (Z.ltb_spec now e); simpl; try done; lia.
Qed.

Lemma expire_jobs_spec now s s' ids :
  expire_jobs now s = (s', Ok ids) →
  (∀ id, id ∈ ids ↔ ∃ j, st_jobs s !! id = Some j ∧ expired now j = true) ∧
  (∀ id, st_jobs s' !! id = if bool_decide (id ∈ ids) then None else st_jobs s !! id) ∧
  (∀ id n, st_checkpoints s' !! (id, n) = if bool_decide (id ∈ ids) then None else st_checkpoints s !! (id, n)) ∧
  st_row_results s' = st_row_results s ∧ st_usage s' = st_usage s.
Proof.
  unfold expire_jobs, io_bind, io_get, io_modify, io_ret. intros [= <- <-].
  set (ids := (filter _ _).*1). split; [|split; [|split; [|done]]].
  - intros id. unfold ids. rewrite list_elem_of_fmap. split.
    + intros ([id' j] & -> & Hin). apply list_elem_of_filter in Hin as [He Hin].
      apply elem_of_map_to_list in Hin. eauto.
    + intros (j & Hj & He). exists (id, j). split; [done|]. apply list_elem_of_filter.
      split; [done|]. by apply elem_of_map_to_list.
  - intros id. cbn [st_jobs set_jobs set_checkpoints]. case_bool_decide.
    + apply map_lookup_filter_None. right. intros j Hj. simpl. naive_solver.
    + destruct (st_jobs s !! id) as [j|] eqn:E.
      * apply map_lookup_filter_Some. done.
      * apply map_lookup_filter_None. by left.
  - intros id n. cbn [st_checkpoints set_jobs set_checkpoints]. case_bool_decide.
    + apply map_lookup_filter_None. right. intros j Hj. simpl. naive_solver.
    + destruct (st_checkpoints s !! (id, n)) as [j|] eqn:E.
      * apply map_lookup_filter_Some. done.
      * apply map_lookup_filter_None. by left.
Qed.

(** Expiry removes exactly what readers no longer see. [expire_jobs] deletes every job that
    [get_job] already hides, with its checkpoints, returns their ids, keeps every other job and
    its checkpoints, and a second sweep at the same time finds nothing; but the rows such jobs
    left in [job_row_results] stay behind. *)
Theorem expire_jobs_exact (now : Z) (s s' : store) (ids : list string) :
  expire_jobs now s = (s', Ok ids) →
  (∀ id, get_job now id s' = get_job now id s) ∧
  (∀ id, id ∈ ids ↔ is_Some (st_jobs s !! id) ∧ get_job now id s = None) ∧
  (∀ id, is_Some (st_jobs s' !! id) ↔ is_Some (get_job now id s)) ∧
  (∀ id n, st_checkpoints s' !! (id, n)
           = if bool_decide (id ∈ ids) then None else st_checkpoints s !! (id, n)) ∧
  expire_jobs now s' = (s', Ok []) ∧
  st_row_results s' = st_row_results s.
Proof.
  intros H. pose proof (expire_jobs_spec _ _ _ _ H) as (Hids & Hjobs & Hcps & Hrr & Hus).
  assert (∀ id, id ∈ ids ↔ is_Some (st_jobs s !! id) ∧ get_job now id s = None) as Hids'.
  { intros id. rewrite Hids. unfold get_job. split.
    - intros (j & -> & He). rewrite expired_unexpired, negb_true_iff in He. rewrite He. eauto.
    - intros [[j Hj] Hg]. rewrite Hj in Hg. exists j. split; [done|].
      rewrite expired_unexpired. by destruct (unexpired now j). }
  assert (∀ id, is_Some (st_jobs s' !! id) ↔ is_Some (get_job now id s)) as Hlive.
  { intros id. rewrite Hjobs. case_bool_decide as Hin.
    - apply Hids' in Hin as [_ ->]. split; by intros [? ?].
    - rewrite Hids' in Hin. unfold get_job in *. destruct (st_jobs s !! id) as [j|]; [|done].
      destruct (unexpired now j); [by split; eauto|]. exfalso. apply Hin. eauto. }
  split; [|split; [done|split; [done|split; [done|split; [|done]]]]].
  - intros id. unfold get_job at 1. rewrite Hjobs. case_bool_decide as Hin; [|done].
    by apply Hids' in Hin as [_ ->].
  - pose proof (expire_jobs_spec now s') as Hs.
    destruct (expire_jobs now s') as [s2 [ids2|e]] eqn:E2; [|done].
    destruct (Hs _ _ eq_refl) as (Hids2 & Hjobs2 & Hcps2 & Hrr2 & Hus2).
    assert (∀ id, id ∉ ids2) as Hno.
    { intros id Hin. apply Hids2 in Hin as (j & Hj & He).
      pose proof (proj1 (Hlive id) (ex_intro _ j Hj)) as [j' Hj'].
      unfold get_job in Hj'. rewrite Hjobs in Hj. case_bool_decide; [done|]. rewrite Hj in Hj'.
      rewrite expired_unexpired in He. by destruct (unexpired now j). }
    assert (ids2 = []) as ->.
    { destruct ids2 as [|id ?]; [done|]. exfalso. apply (Hno id). set_solver. }
    f_equal. destruct s' as [a b c d], s2 as [a' b' c' d']. cbn [st_jobs st_checkpoints st_row_results st_usage] in *.
    subst c' d'. f_equal; apply map_eq.
    + intros id. rewrite Hjobs2. by rewrite bool_decide_eq_false_2 by apply not_elem_of_nil.
    + intros [id n]. rewrite Hcps2. by rewrite bool_decide_eq_false_2 by apply not_elem_of_nil.
Qed.

Lemma expire_jobs_exact_witness :
  let s := mkState {["750a" := witness_job]} {[("750a", 0) := mkCheckpoint 5 0 10 None None]}
             {[("750a", 1) := mkRowResult "success" (Some "001") None []]} [] in
  (∀ id, get_job 1000 id (expire_jobs 1000 s).1 = get_job 1000 id s) ∧
  st_row_results (expire_jobs 1000 s).1 !! ("750a", 1) = Some (mkRowResult "success" (Some "001") None []).
Proof.
  intros s. destruct (expire_jobs_exact 1000 s (expire_jobs 1000 s).1 ["750a"]) as (H1 & _ & _ & _ & _ & H6).
  - vm_compute. reflexivity.
  - split; [exact H1|]. rewrite H6. reflexivity.
Defined.

(** ** API usage *)

Definition recent (now t : Z) : bool := now - day_seconds <? t.

Definition count_recent (now : Z) (l : list Z) : Z :=
  Z.of_nat (length (filter (λ t, recent now t = true) l)).

(** The calls made at the given times, one after the other. *)
Definition record_all (times : list Z) (s : store) : store :=
  foldl (λ s t, (record_api_usage t s).1) s times.

Lemma filter_filter_recent now t (l : list Z) :
  t ≤ now →
  filter (λ t, recent now t = true) (filter (λ u, (u <=? t - day_seconds) = false) l)
  = filter (λ t, recent now t = true) l.
Proof.
  intros Ht. induction l as [|u l IH]; [done|]. rewrite !(filter_cons _ u l).
  destruct (Z.leb_spec u (t - day_seconds)).
  - rewrite decide_False by done. rewrite (decide_False (P:=recent now u = true)); [done|].
    unfold recent. destruct (Z.ltb_spec (now - day_seconds) u); [lia|done].
  - rewrite decide_True by done. rewrite filter_cons. by rewrite IH.
Qed.

Lemma usage_after now times s :
  (∀ t, t ∈ times → t ≤ now) →
  count_recent now (st_usage (record_all times s)) = count_recent now times + count_recent now (st_usage s).
Proof.
  revert s. induction times as [|t times IH]; intros s Hle; [done|].
  unfold record_all. cbn [foldl]. fold (record_all times (record_api_usage t s).1).
  rewrite IH by set_solver. unfold record_api_usage, io_bind, io_modify, io_get, io_ret.
  cbn [fst st_usage set_usage]. unfold count_recent. rewrite !(filter_cons _ t).
  rewrite filter_filter_recent by set_solver. case_decide; simpl; lia.
Qed.

(** The usage figure is exact: whatever the times of the earlier calls (none in the future),
    [record_api_usage] returns the number of calls within the last 24 hours, this one included,
    and [api_usage_last_24_hours] reports the same calls without recording one. *)
Theorem api_usage_exact (times : list Z) (now : Z) :
  (∀ t, t ∈ times → t ≤ now) →
  (record_api_usage now (record_all times empty_store)).2
  = Ok (1 + count_recent now times) ∧
  api_usage_last_24_hours now (record_all times empty_store) = count_recent now times.
Proof.
  intros Hle. pose proof (usage_after now times empty_store Hle) as H.
  assert (count_recent now (st_usage empty_store) = 0) as H0 by done. rewrite H0, Z.add_0_r in H.
  split; [|exact H].
  unfold record_api_usage, io_bind, io_modify, io_get, io_ret. cbn [snd st_usage set_usage].
  f_equal. rewrite <- H. unfold count_recent. cbn [length].
  assert (∀ l : list Z, filter (λ t, (t <=? now - day_seconds) = false) l = filter (λ t, recent now t = true) l) as ->.
  { induction l as [|u l IH]; [done|]. rewrite !filter_cons, IH. unfold recent.
    destruct (Z.leb_spec u (now - day_seconds)), (Z.ltb_spec (now - day_seconds) u); try lia;
      repeat case_decide; done. }
  lia.
Qed.

Lemma api_usage_exact_witness :
  (record_api_usage 200000 (record_all [100; 113600; 113601; 200000] empty_store)).2 = Ok (1 + 2) ∧
  api_usage_last_24_hours 200000 (record_all [100; 113600; 113601; 200000] empty_store) = 2.
Proof.
  apply (api_usage_exact [100; 113600; 113601; 200000] 200000).
  intros t Ht. repeat (apply elem_of_cons in Ht as [->|Ht]; [lia|]). by apply elem_of_nil in Ht.
Defined.

(** ** Checkpoints *)

Lemma elem_of_checkpoints id s m c :
  (m, c) ∈ checkpoints_of id s ↔ st_checkpoints s !! (id, m) = Some c.
Proof.
  unfold checkpoints_of. rewrite list_elem_of_fmap. split.
  - intros ([[j m'] c'] & E & H). simpl in E. injection E as -> ->.
    apply list_elem_of_filter in H as [Hj H]. simpl in Hj. subst. by apply elem_of_map_to_list in H.
  - intros H. exists ((id, m), c). split; [done|]. apply list_elem_of_filter. split; [done|].
    by apply elem_of_map_to_list.
Qed.

(** The progress of a job is that of the checkpoint added last. *)
Lemma ingest_progress_add id cp s :
  ingest_progress id (add_job_checkpoint id cp s).1
  = mkProgress (cp_records_processed cp) (cp_records_failed cp) (default 0 (cp_csv_row_number cp)).
Proof.
  unfold add_job_checkpoint. cbn. set (n := next_checkpoint id s).
  set (s' := set_checkpoints _ s). unfold ingest_progress.
  assert (∀ m c, (m, c) ∈ checkpoints_of id s' → (m, c) = (n, cp) ∨ m < n) as Hmax.
  { intros m c. rewrite elem_of_checkpoints. unfold s'. cbn [st_checkpoints set_checkpoints].
    destruct (decide (m = n)) as [->|N]; [rewrite lookup_insert_eq; intros [= ->]; by left|].
    rewrite lookup_insert_ne by (by intros [= ->]). intros H. right.
    apply elem_of_checkpoints in H. apply (list_elem_of_fmap_2 fst) in H.
    apply (zmax_ge (-1)) in H. unfold n, next_checkpoint. simpl in H. lia. }
  assert ((n, cp) ∈ checkpoints_of id s') as Hin.
  { apply elem_of_checkpoints. unfold s'. cbn [st_checkpoints set_checkpoints]. apply lookup_insert_eq. }
  pose proof (sort_by_sorted (λ a b : Z * checkpoint, b.1 <=? a.1) ltac:(cbn; intros; lia) ltac:(cbn; intros; lia)
    (checkpoints_of id s')) as Hsorted.
  setoid_rewrite <- (elem_of_sort_by (λ a b : Z * checkpoint, b.1 <=? a.1)) in Hmax.
  rewrite <- (elem_of_sort_by (λ a b : Z * checkpoint, b.1 <=? a.1)) in Hin.
  destruct (sort_by _ (checkpoints_of id s')) as [|[m c] l]; [by apply elem_of_nil in Hin|].
  simpl. destruct (Hmax m c ltac:(by left)) as [[= -> ->]|Hlt]; [done|].
  apply elem_of_cons in Hin as [[= <- <-]|Hin]; [done|].
  inversion Hsorted as [|? ? _ Hall]; subst. rewrite Forall_forall in Hall.
  specialize (Hall _ Hin). simpl in Hall. lia.
Qed.
