(* ===== verification/BulkQuery.v ===== *)
(** * The bulk query worker and its results: [fakeforce/bulk/query.py], [fakeforce/bulk/results.py]

    One job's output directory (CSV parts and the manifest) and its checkpoints. The worker is
    the list of its durable writes in order: a process that dies leaves a prefix of them behind,
    and the next attempt starts from there. The rows of the execution SQL are given (the query is
    ordered by a unique id, so every attempt sees the same rows). *)

From stdpp Require Import prelude gmap strings list.
From Stdlib Require Import ZArith Lia Ascii.
From S2P Require Import Prelude PyText Soql Catalog QueryPlan Jobs.

Open Scope Z_scope.

(** The SQL the worker executes: the plan's, ordered by the internal id when it has no order. *)
Definition execution_sql (p : QueryPlan) : string :=
  let suffix := str_drop (length (chars (p_source_sql p))) (p_sql p) in
  p_source_sql p
  +:+ (if p_has_order_by p then "" else " ORDER BY " +:+ _quote_identifier INTERNAL_ID_FIELD)
  +:+ suffix.

Section Worker.
(** A row's public columns; [part_bytes] is the size and checksum of an encoded part. *)
Context {R : Type} (part_bytes : list R → Z * string).
(** [bulk_result_part_records], and the rows of the execution SQL. *)
Context (part_records : Z).

Record part := mkPart {
  pt_part : Z;
  pt_path : string;
  pt_start_record : Z;
  pt_end_record : Z;
  pt_record_count : Z;
  pt_byte_size : Z;
  pt_checksum : string }.

(** The job's directory: the part files and the manifest, and its durable checkpoints (the
    number of records of each). *)
Record output := mkOutput {
  o_files : gmap string (list R);
  o_manifest : option (list part);
  o_checkpoints : list Z }.

Definition set_files f o := mkOutput f (o_manifest o) (o_checkpoints o).

Definition part_path (n : Z) : string := "part-" +:+ zpad 5 n +:+ ".csv".

Definition manifest_parts (o : output) : list part := default [] (o_manifest o).

(** [_load_manifest] *)
Definition _load_manifest (o : output) : res (list part) :=
  let parts := manifest_parts o in
  match head (filter (λ p, o_files o !! pt_path p = None) parts) with
  | Some p => raise RuntimeError ("committed bulk result part is missing: " +:+ pt_path p)
  | None => Ok parts
  end.

Definition committed (parts : list part) (path : string) : bool :=
  existsb (λ p, String.eqb (pt_path p) path) parts.

(** [_discard_uncommitted_parts]: the files [part-*.csv] not in the manifest, unlinked one by one. *)
Definition is_part_file (path : string) : bool := starts_with "part-" path && ends_with ".csv" path.
Definition discards (parts : list part) (o : output) : list (output → output) :=
  (λ path o, set_files (delete path (o_files o)) o) <$>
    filter (λ path, is_part_file path && negb (committed parts path) = true) (map_to_list (o_files o)).*1.

Definition make_part (number : Z) (rows : list R) (start_record : Z) : part :=
  mkPart number (part_path number) start_record (start_record + Z.of_nat (length rows) - 1)
    (Z.of_nat (length rows)) (part_bytes rows).1 (part_bytes rows).2.

(** [_write_part] then [_commit_part]: the durable writes for one part. *)
Definition write_part (number : Z) (rows : list R) : output → output :=
  λ o, set_files (<[part_path number := rows]> (o_files o)) o.
Definition write_manifest (parts : list part) : output → output :=
  λ o, mkOutput (o_files o) (Some parts) (o_checkpoints o).
Definition add_checkpoint (records : Z) : output → output :=
  λ o, mkOutput (o_files o) (o_manifest o) (o_checkpoints o ++ [records]).

Definition part_writes (number : Z) (rows : list R) (parts : list part) (processed : Z)
    : list (output → output) :=
  [write_part number rows; write_manifest (parts ++ [make_part number rows processed]);
   add_checkpoint (processed + Z.of_nat (length rows))].

(** The loop over the rows not yet delivered: [part_rows] is reversed. It returns the writes
    and the final count of records and of parts written. *)
Fixpoint stream_loop (rows part_rows : list R) (number : Z) (parts : list part) (processed written : Z)
    : list (output → output) * Z * Z :=
  match rows with
  | [] =>
    match part_rows with
    | [] => ([], processed, written)
    | _ => let rs := rev part_rows in
           (part_writes number rs parts processed, processed + Z.of_nat (length rs), written + 1)
    end
  | r :: rows =>
    let part_rows := r :: part_rows in
    if part_records <=? Z.of_nat (length part_rows) then
      let rs := rev part_rows in
      let '(ws, n, w) := stream_loop rows [] (number + 1) (parts ++ [make_part number rs processed])
                           (processed + Z.of_nat (length rs)) (written + 1) in
      (part_writes number rs parts processed ++ ws, n, w)
    else stream_loop rows part_rows number parts processed written
  end.

Definition record_total (parts : list part) : Z := foldr Z.add 0 (pt_record_count <$> parts).
Definition latest_records (o : output) : Z :=
  match o_checkpoints o with [] => 0 | n :: ns => zmax n ns end.

(** [_stream]: the durable writes of one attempt, with its result. *)
Definition stream_plan (rows : list R) (o : output) : res (list (output → output) * (Z * Z)) :=
  let! parts := _load_manifest o in
  let resume := record_total parts in
  if resume <? latest_records o
  then raise RuntimeError "bulk query checkpoint has no committed result part"
  else
    let number := zmax (-1) (pt_part <$> parts) + 1 in
    let '(ws, n, w) := stream_loop (drop (Z.to_nat resume) rows) [] number parts resume 0 in
    Ok (discards parts o ++ ws, (n, w)).

Definition apply_writes (ws : list (output → output)) (o : output) : output := foldl (λ o f, f o) o ws.

(** An attempt that runs to the end, and one that dies after [k] durable writes. *)
Definition _stream (rows : list R) : io output (Z * Z) := λ o,
  match stream_plan rows o with
  | Ok (ws, result) => (apply_writes ws o, Ok result)
  | Err e => (o, Err e)
  end.
Definition crashed (rows : list R) (k : nat) (o : output) : output :=
  match stream_plan rows o with
  | Ok (ws, _) => apply_writes (take k ws) o
  | Err _ => o
  end.

(** ** The invariant *)

(** The parts a list of row blocks gives, numbered from [number] and starting at [start]. *)
Fixpoint parts_of (number start : Z) (blocks : list (list R)) : list part :=
  match blocks with
  | [] => []
  | b :: bs => make_part number b start :: parts_of (number + 1) (start + Z.of_nat (length b)) bs
  end.

(** The manifest lists the blocks delivered so far, a prefix of the rows; their files are there;
    no checkpoint is ahead of the manifest. *)
Record output_inv (rows : list R) (o : output) (blocks : list (list R)) : Prop := {
  oi_manifest : manifest_parts o = parts_of 0 0 blocks;
  oi_prefix : concat blocks `prefix_of` rows;
  oi_nonempty : Forall (λ b, b ≠ []) blocks;
  oi_files : ∀ i b, blocks !! i = Some b → o_files o !! part_path (Z.of_nat i) = Some b;
  oi_checkpoints : Forall (λ n, n ≤ Z.of_nat (length (concat blocks))) (o_checkpoints o) }.

Lemma parts_of_app n st bs cs :
  parts_of n st (bs ++ cs)
  = parts_of n st bs ++ parts_of (n + Z.of_nat (length bs)) (st + Z.of_nat (length (concat bs))) cs.
Proof.
  revert n st. induction bs as [|b bs IH]; intros n st; simpl.
  - by rewrite !Z.add_0_r.
  - rewrite IH, length_app. do 3 f_equal; lia.
Qed.

Lemma record_total_parts n st bs : record_total (parts_of n st bs) = Z.of_nat (length (concat bs)).
Proof.
  revert n st. unfold record_total. induction bs as [|b bs IH]; intros n st; [done|].
  cbn [parts_of fmap list_fmap foldr concat]. rewrite length_app.
  specialize (IH (n + 1) (st + Z.of_nat (length b))). cbn [fmap list_fmap] in IH. rewrite IH.
  simpl. lia.
Qed.

Lemma parts_of_lookup n st bs i p :
  parts_of n st bs !! i = Some p →
  pt_part p = n + Z.of_nat i ∧ pt_path p = part_path (n + Z.of_nat i).
Proof.
  revert n st i. induction bs as [|b bs IH]; intros n st [|i]; simpl; try done.
  - intros [= <-]. simpl. by rewrite Z.add_0_r.
  - intros H. apply IH in H as [-> ->]. split; [lia|]. f_equal. lia.
Qed.

Lemma length_parts_of n st bs : length (parts_of n st bs) = length bs.
Proof. revert n st. induction bs as [|b bs IH]; intros; simpl; [done|]. by rewrite IH. Qed.

Lemma next_number bs : zmax (-1) (pt_part <$> parts_of 0 0 bs) + 1 = Z.of_nat (length bs).
Proof.
  assert (∀ n st, 0 ≤ n → zmax (-1) (pt_part <$> parts_of n st bs)
           = if decide (bs = []) then -1 else n + Z.of_nat (length bs) - 1) as H.
  { induction bs as [|b bs IH]; intros n st Hn; [done|]. cbn [parts_of fmap list_fmap].
    unfold zmax in *. cbn [foldr pt_part make_part]. specialize (IH (n + 1) (st + Z.of_nat (length b))).
    cbn [fmap list_fmap] in IH. rewrite IH by lia.
    destruct bs as [|? ?]; simpl; lia. }
  rewrite H by lia. case_decide; [by subst|]. lia.
Qed.

Lemma part_path_inj a b : 0 ≤ a → 0 ≤ b → part_path a = part_path b → a = b.
Proof.
  intros Ha Hb E. unfold part_path in E. apply (f_equal chars) in E. rewrite !chars_app in E.
  apply app_inv_head, app_inv_tail in E. apply chars_inj in E. by eapply zpad_inj.
Qed.

Lemma path_not_committed bs i :
  (length bs ≤ i)%nat → committed (parts_of 0 0 bs) (part_path (Z.of_nat i)) = false.
Proof.
  intros Hi. apply not_true_iff_false. intros Hc. unfold committed in Hc.
  apply existsb_exists in Hc as (p & Hp & E%String.eqb_eq). rewrite <- list_elem_of_In in Hp.
  apply list_elem_of_lookup in Hp as [j Hj]. pose proof (lookup_lt_Some _ _ _ Hj) as Hlt.
  rewrite length_parts_of in Hlt. apply parts_of_lookup in Hj as [_ Hpath].
  rewrite Hpath in E. apply part_path_inj in E; lia.
Qed.

Lemma committed_path bs i :
  (i < length bs)%nat → committed (parts_of 0 0 bs) (part_path (Z.of_nat i)) = true.
Proof.
  intros Hi. unfold committed. apply existsb_exists.
  destruct (lookup_lt_is_Some_2 (parts_of 0 0 bs) i) as [p Hp]; [by rewrite length_parts_of|].
  exists p. split; [apply list_elem_of_In; by eapply list_elem_of_lookup_2|].
  apply String.eqb_eq. apply parts_of_lookup in Hp as [_ ->]. by rewrite Z.add_0_l.
Qed.

Lemma load_manifest_ok rows o bs :
  output_inv rows o bs → _load_manifest o = Ok (parts_of 0 0 bs).
Proof.
  intros [Hm _ _ Hf _]. unfold _load_manifest. rewrite Hm.
  destruct (head _) as [p|] eqn:E; [exfalso|done].
  assert (p ∈ filter (λ p, o_files o !! pt_path p = None) (parts_of 0 0 bs)) as Hp.
  { destruct (filter _ _); [done|]. injection E as ->. set_solver. }
  apply list_elem_of_filter in Hp as [Hnone Hp]. apply list_elem_of_lookup in Hp as [i Hi].
  pose proof (lookup_lt_Some _ _ _ Hi) as Hlt. rewrite length_parts_of in Hlt.
  apply parts_of_lookup in Hi as [_ Hpath]. rewrite Hpath, Z.add_0_l in Hnone.
  destruct (lookup_lt_is_Some_2 bs i Hlt) as [b Hb]. rewrite (Hf i b Hb) in Hnone. done.
Qed.

Lemma latest_records_le rows o bs :
  output_inv rows o bs → latest_records o ≤ Z.of_nat (length (concat bs)).
Proof.
  intros [_ _ _ _ Hc]. unfold latest_records. destruct (o_checkpoints o) as [|n ns]; [lia|].
  rewrite Forall_forall in Hc.
  destruct (zmax_in n ns) as [->|Hin]; apply Hc; set_solver.
Qed.

(** Deleting an uncommitted file keeps the invariant. *)
Lemma discard_inv rows o bs path :
  output_inv rows o bs → committed (parts_of 0 0 bs) path = false →
  output_inv rows (set_files (delete path (o_files o)) o) bs.
Proof.
  intros [Hm Hp Hne Hf Hc] Hpath. split; try done. intros i b Hb. simpl.
  rewrite lookup_delete_ne; [by apply Hf|]. intros ->.
  rewrite committed_path in Hpath; [done|]. by eapply lookup_lt_Some.
Qed.

Lemma discards_inv rows o bs o' ws k :
  output_inv rows o bs → ws = discards (parts_of 0 0 bs) o' →
  output_inv rows (apply_writes (take k ws) o) bs.
Proof.
  intros H ->. unfold discards. set (paths := filter _ _).
  assert (∀ path, path ∈ paths → committed (parts_of 0 0 bs) path = false) as Hall.
  { intros path Hin. apply list_elem_of_filter in Hin as [E _].
    by apply andb_true_iff in E as [_ E%negb_true_iff]. }
  clearbody paths. revert o k H. induction paths as [|path paths IH]; intros o [|k] H; try done.
  cbn [fmap list_fmap take]. unfold apply_writes. cbn [foldl]. apply IH.
  - set_solver.
  - apply discard_inv; [done|]. apply Hall. set_solver.
Qed.
Lemma apply_writes_app ws ws' o : apply_writes (ws ++ ws') o = apply_writes ws' (apply_writes ws o).
Proof. unfold apply_writes. by rewrite foldl_app. Qed.

Lemma parts_of_snoc bs b :
  parts_of 0 0 (bs ++ [b])
  = parts_of 0 0 bs ++ [make_part (Z.of_nat (length bs)) b (Z.of_nat (length (concat bs)))].
Proof. rewrite parts_of_app. simpl. by rewrite !Z.add_0_l. Qed.

(** The three writes of a part, complete or cut short. *)
Lemma part_writes_inv rows o bs b k :
  output_inv rows o bs → b ≠ [] → (concat bs ++ b) `prefix_of` rows →
  let ws := part_writes (Z.of_nat (length bs)) b (parts_of 0 0 bs) (Z.of_nat (length (concat bs))) in
  output_inv rows (apply_writes (take k ws) o) bs ∨
  output_inv rows (apply_writes (take k ws) o) (bs ++ [b]) ∧ (2 ≤ k)%nat.
Proof.
  intros [Hm Hp Hne Hf Hc] Hb Hpre ws.
  assert (output_inv rows (write_part (Z.of_nat (length bs)) b o) bs) as H1.
  { split; try done. intros i b' Hi. simpl. rewrite lookup_insert_ne; [by apply Hf|].
    intros E. apply part_path_inj in E; [|lia|lia]. apply lookup_lt_Some in Hi. lia. }
  destruct k as [|[|k]]; [by left|by left|right; split; [|lia]].
  assert (output_inv rows (write_manifest (parts_of 0 0 bs ++
      [make_part (Z.of_nat (length bs)) b (Z.of_nat (length (concat bs)))])
      (write_part (Z.of_nat (length bs)) b o)) (bs ++ [b])) as H2.
  { split; simpl.
    - by rewrite parts_of_snoc.
    - by rewrite concat_app, concat_cons, concat_nil, app_nil_r.
    - apply Forall_app. split; [done|]. by constructor.
    - intros i b' Hi. apply lookup_app_Some in Hi as [Hi|[Hi Hi']].
      + apply lookup_lt_Some in Hi as Hlt. rewrite lookup_insert_ne; [by apply Hf|].
        intros E. apply part_path_inj in E; lia.
      + apply list_lookup_singleton_Some in Hi' as [Hi0 <-].
        replace i with (length bs) by lia. by rewrite lookup_insert_eq.
    - eapply Forall_impl; [exact Hc|]. intros n Hn. simpl in Hn.
      rewrite concat_app, length_app. lia. }
  destruct k as [|k]; [exact H2|].
  replace (take (S (S (S k))) ws) with ws by (by destruct k).
  unfold ws, part_writes, apply_writes. cbn [foldl].
  destruct H2 as [Hm2 Hp2 Hne2 Hf2 Hc2]. split; try done. simpl in *.
  apply Forall_app. split; [done|]. constructor; [|constructor].
  rewrite concat_app, length_app. simpl. rewrite app_nil_r. lia.
Qed.

Lemma part_writes_full rows o bs b :
  output_inv rows o bs → b ≠ [] → (concat bs ++ b) `prefix_of` rows →
  output_inv rows (apply_writes (part_writes (Z.of_nat (length bs)) b (parts_of 0 0 bs)
    (Z.of_nat (length (concat bs)))) o) (bs ++ [b]).
Proof.
  intros H Hb Hp. destruct (part_writes_inv rows o bs b 3 H Hb Hp) as [H'|[H' _]]; [|done].
  exfalso. destruct H' as [Hm _ _ _ _]. apply (f_equal length) in Hm.
  unfold manifest_parts in Hm. simpl in Hm. rewrite length_app in Hm. simpl in Hm. lia.
Qed.

(** The loop delivers the remaining rows; cut short anywhere it keeps the invariant. *)
Lemma stream_loop_inv rows rest : ∀ acc bs o ws n w written,
  output_inv rows o bs → concat bs ++ rev acc ++ rest = rows →
  stream_loop rest acc (Z.of_nat (length bs)) (parts_of 0 0 bs)
    (Z.of_nat (length (concat bs))) written = (ws, n, w) →
  (∀ k, ∃ bs', output_inv rows (apply_writes (take k ws) o) bs') ∧
  (∃ bs', output_inv rows (apply_writes ws o) bs' ∧ concat bs' = rows) ∧
  n = Z.of_nat (length rows).
Proof.
  assert (∀ acc, rev acc = [] → acc = @nil R) as Hrev.
  { intros [|x acc]; [done|]. simpl. by intros [_ ?]%app_nil. }
  assert (∀ acc bs o ws, output_inv rows o bs → acc ≠ [] → concat bs ++ rev acc `prefix_of` rows →
    ws = part_writes (Z.of_nat (length bs)) (rev acc) (parts_of 0 0 bs) (Z.of_nat (length (concat bs))) →
    ∀ k, ∃ bs', output_inv rows (apply_writes (take k ws) o) bs') as Hpart.
  { intros acc bs o ws H Hne Hp -> k.
    destruct (part_writes_inv rows o bs (rev acc) k H) as [?|[? _]]; eauto. }
  induction rest as [|r rest IH]; intros acc bs o ws n w written H Hcat E; cbn [stream_loop] in E; cbv zeta in E.
  - rewrite app_nil_r in Hcat. destruct acc as [|x acc].
    + injection E as <- <- <-. simpl in Hcat. rewrite app_nil_r in Hcat.
      split; [intros k; exists bs; by destruct k|]. split; [by exists bs|by rewrite Hcat].
    + injection E as <- <- <-. assert (concat bs ++ rev (x :: acc) `prefix_of` rows) as Hp by (by rewrite <- Hcat).
      split; [apply (Hpart (x :: acc) bs o _ H); done|]. split.
      * exists (bs ++ [rev (x :: acc)]). split.
        -- apply part_writes_full; [done| |done]. intros ?%Hrev. done.
        -- by rewrite concat_app, concat_cons, concat_nil, app_nil_r.
      * rewrite <- Hcat. simpl rev. rewrite !length_app. lia.
  - destruct (part_records <=? Z.of_nat (length (r :: acc))) eqn:Hsz.
    + destruct (stream_loop rest [] _ _ _ _) as [[ws' n'] w'] eqn:Eloop.
      set (pw := part_writes (Z.of_nat (length bs)) (rev (r :: acc)) (parts_of 0 0 bs)
                   (Z.of_nat (length (concat bs)))) in E.
      assert (length pw = 3%nat) as Hpw by reflexivity.
      assert (concat bs ++ rev (r :: acc) `prefix_of` rows) as Hp.
      { exists rest. rewrite <- Hcat. simpl. by rewrite <- !app_assoc. }
      pose proof (part_writes_full rows o bs (rev (r :: acc)) H) as Hfull.
      specialize (Hfull ltac:(by intros ?%Hrev) Hp). fold pw in Hfull.
      assert (∀ k, ∃ bs', output_inv rows (apply_writes (take k pw) o) bs') as Hcut
        by (by apply (Hpart (r :: acc) bs o pw H)).
      clearbody pw. injection E as <- <- <-.
      destruct (IH [] (bs ++ [rev (r :: acc)]) _ ws' n' w' (written + 1) Hfull) as (Hk & Hdone & Hn).
      { rewrite <- Hcat. simpl. by rewrite concat_app, concat_cons, concat_nil, app_nil_r, <- !app_assoc. }
      { rewrite parts_of_snoc. simpl rev in *. rewrite <- Eloop. f_equal.
        - rewrite length_app. simpl. lia.
        - rewrite concat_app, length_app. simpl. rewrite app_nil_r. lia. }
      split; [|split; [|done]].
      * intros k. rewrite take_app, Hpw.
        destruct (le_lt_dec 3 k) as [Hle|Hlt].
        -- rewrite apply_writes_app, (take_ge pw) by lia. apply Hk.
        -- replace (k - 3)%nat with 0%nat by lia. rewrite take_0, app_nil_r.
           apply Hcut.
      * destruct Hdone as (bs' & Hinv & Hrows). exists bs'. by rewrite apply_writes_app.
    + apply (IH (r :: acc) bs o ws n w written H); [|done].
      rewrite <- Hcat. simpl. by rewrite <- !app_assoc.
Qed.

Lemma stream_plan_inv rows o bs :
  output_inv rows o bs →
  ∃ ws w, stream_plan rows o = Ok (ws, (Z.of_nat (length rows), w)) ∧
    (∀ k, ∃ bs', output_inv rows (apply_writes (take k ws) o) bs') ∧
    ∃ bs', output_inv rows (apply_writes ws o) bs' ∧ concat bs' = rows.
Proof.
  intros H. unfold stream_plan. rewrite (load_manifest_ok rows o bs H). cbn [res_bind].
  rewrite record_total_parts, next_number. pose proof (latest_records_le rows o bs H).
  destruct (Z.ltb_spec (Z.of_nat (length (concat bs))) (latest_records o)); [lia|].
  rewrite Nat2Z.id. set (ds := discards (parts_of 0 0 bs) o).
  assert (output_inv rows (apply_writes ds o) bs) as Hd.
  { rewrite <- (take_ge ds (length ds)) by done. by eapply discards_inv. }
  destruct (stream_loop _ _ _ _ _ _) as [[ws n] w] eqn:E.
  destruct (oi_prefix _ _ _ H) as [rest Hrest].
  destruct (stream_loop_inv rows (drop (length (concat bs)) rows) [] bs (apply_writes ds o) ws n w 0 Hd)
    as (Hk & Hdone & ->); [|done|].
  { simpl. rewrite Hrest at 1. by rewrite drop_app_length, <- Hrest. }
  exists (ds ++ ws), w. split; [done|]. split.
  - intros k. rewrite take_app. destruct (le_lt_dec (length ds) k) as [Hle|Hlt].
    + rewrite apply_writes_app, (take_ge ds) by done. apply Hk.
    + replace (k - length ds)%nat with 0%nat by lia. rewrite take_0, app_nil_r.
      exists bs. by eapply discards_inv.
  - destruct Hdone as (bs' & Hinv & Hcat). exists bs'. by rewrite apply_writes_app.
Qed.

(** ** Reading results: [BulkQueryResultStore] *)

Record BulkResultPage := mkResultPage { rp_path : string; rp_count : Z; rp_next : option string }.

Definition bad_locator {A} : res A := raise InvalidBulkLocator "invalid bulk result locator".

(** [page] *)
Definition page (id : string) (o : output) (locator : option string) : res BulkResultPage :=
  let! index := match locator with
                | None => Ok 0
                | Some l => match int_of_text l with Some n => Ok n | None => bad_locator end
                end in
  if index <? 0 then bad_locator
  else match o_manifest o with
  | None => raise FileNotFoundError id
  | Some parts =>
    match parts !! Z.to_nat index with
    | None => bad_locator
    | Some p =>
      match o_files o !! pt_path p with
      | None => raise FileNotFoundError (pt_path p)
      | Some _ => Ok (mkResultPage (pt_path p) (pt_record_count p)
                        (if index + 1 <? Z.of_nat (length parts) then Some (str_of_Z (index + 1)) else None))
      end
    end
  end.

(** [locator.removeprefix("r:")] *)
Definition remove_r (l : string) : string := if starts_with "r:" l then str_drop 2 l else l.

(** [window] *)
Definition result_window (id : string) (o : output) (locator : option string) (max_records : Z)
    : res BulkResultPage :=
  if max_records <=? 0 then raise InvalidBulkLocator "maxRecords must be positive"
  else
    let! offset := match locator with
                   | None => Ok 0
                   | Some l => match int_of_text (remove_r l) with Some n => Ok n | None => bad_locator end
                   end in
    if match locator with Some l => negb (starts_with "r:" l) | None => false end then bad_locator
    else match o_manifest o with
    | None => raise FileNotFoundError id
    | Some parts =>
      let total := record_total parts in
      if (offset <? 0) || (total <=? offset) then bad_locator
      else
        let count := Z.min max_records (total - offset) in
        Ok (mkResultPage "manifest.json" count
              (if offset + count <? total then Some ("r:" +:+ str_of_Z (offset + count)) else None))
    end.

(** [stream_window] after its header: rows are skipped up to the offset and emitted up to the
    count, part after part. *)
Fixpoint emit_rows (rows : list R) (offset count skipped emitted : Z) : list R * Z * Z * bool :=
  match rows with
  | [] => ([], skipped, emitted, false)
  | r :: rows =>
    if skipped <? offset then emit_rows rows offset count (skipped + 1) emitted
    else if count <=? emitted then ([], skipped, emitted, true)
    else let '(out, s, e, stop) := emit_rows rows offset count skipped (emitted + 1) in
         (r :: out, s, e, stop)
  end.

Fixpoint emit_parts (files : list (list R)) (offset count skipped emitted : Z) : list R :=
  match files with
  | [] => []
  | rows :: files =>
    let '(out, s, e, stop) := emit_rows rows offset count skipped emitted in
    if stop then out else out ++ emit_parts files offset count s e
  end.

Definition stream_window (o : output) (offset count : Z) : list R :=
  emit_parts (omap (λ p, o_files o !! pt_path p) (manifest_parts o)) offset count 0 0.

Lemma emit_rows_spec rows offset count skipped emitted :
  0 ≤ skipped ≤ offset → 0 ≤ emitted ≤ count → (skipped < offset → emitted = 0) →
  let k := Z.to_nat (offset - skipped) in
  let m := Z.to_nat (count - emitted) in
  let '(out, s, e, stop) := emit_rows rows offset count skipped emitted in
  out = take m (drop k rows) ∧
  s = Z.min offset (skipped + Z.of_nat (length rows)) ∧
  e = emitted + Z.of_nat (length out) ∧
  (stop = true → e = count) ∧ (stop = false → length out = length (drop k rows)).
Proof.
  revert skipped emitted. induction rows as [|r rows IH]; intros skipped emitted Hs He Hse; simpl.
  - rewrite drop_nil, take_nil. simpl. split_and!; try done; lia.
  - destruct (Z.ltb_spec skipped offset) as [Hlt|Hge].
    + specialize (IH (skipped + 1) emitted ltac:(lia) He ltac:(lia)). cbv zeta in IH.
      destruct (emit_rows rows offset count (skipped + 1) emitted) as [[[out s] e] stop].
      replace (Z.to_nat (offset - skipped)) with (S (Z.to_nat (offset - (skipped + 1)))) by lia.
      cbn [drop]. destruct IH as (H1 & H2 & H3 & H4 & H5). simpl length. split_and!; try done; lia.
    + replace (Z.to_nat (offset - skipped)) with 0%nat by lia. rewrite drop_0.
      destruct (Z.leb_spec count emitted) as [Hle|Hlt'].
      * replace (Z.to_nat (count - emitted)) with 0%nat by lia. simpl. split_and!; try done; lia.
      * specialize (IH skipped (emitted + 1) ltac:(lia) ltac:(lia) ltac:(lia)). cbv zeta in IH.
        destruct (emit_rows rows offset count skipped (emitted + 1)) as [[[out s] e] stop].
        replace (Z.to_nat (offset - skipped)) with 0%nat in IH by lia. rewrite drop_0 in IH.
        destruct IH as (H1 & H2 & H3 & H4 & H5).
        replace (Z.to_nat (count - emitted)) with (S (Z.to_nat (count - (emitted + 1)))) by lia.
        simpl. split_and!; try done; try lia; [by rewrite <- H1|]. intros Hf. by rewrite H5.
Qed.

Lemma emit_parts_spec files offset count skipped emitted :
  0 ≤ skipped ≤ offset → 0 ≤ emitted ≤ count → (skipped < offset → emitted = 0) →
  emit_parts files offset count skipped emitted
  = take (Z.to_nat (count - emitted)) (drop (Z.to_nat (offset - skipped)) (concat files)).
Proof.
  revert skipped emitted. induction files as [|rows files IH]; intros skipped emitted Hs He Hse; simpl.
  - by rewrite drop_nil, take_nil.
  - pose proof (emit_rows_spec rows offset count skipped emitted Hs He Hse) as H. cbv zeta in H.
    destruct (emit_rows rows offset count skipped emitted) as [[[out s] e] stop].
    destruct H as (H1 & H2 & H3 & H4 & H5).
    rewrite drop_app, take_app, <- H1.
    destruct stop.
    + specialize (H4 eq_refl). rewrite length_drop.
      assert (length out ≤ length rows - Z.to_nat (offset - skipped))%nat as Hlen.
      { rewrite H1, length_take, length_drop. lia. }
      replace (Z.to_nat (count - emitted) - (length rows - Z.to_nat (offset - skipped)))%nat with 0%nat by lia.
      by rewrite take_0, app_nil_r.
    + specialize (H5 eq_refl). f_equal. rewrite length_drop in *.
      assert (length out ≤ Z.to_nat (count - emitted))%nat by (rewrite H1, length_take; lia).
      rewrite IH; [|lia|lia|lia]. f_equal; [lia|]. f_equal. lia.
Qed.

Lemma inv_files rows o bs :
  output_inv rows o bs → omap (λ p, o_files o !! pt_path p) (manifest_parts o) = bs.
Proof.
  intros [Hm _ _ Hf _]. rewrite Hm.
  assert (∀ n st cs, (∀ i b, cs !! i = Some b → o_files o !! part_path (n + Z.of_nat i) = Some b) →
            omap (λ p, o_files o !! pt_path p) (parts_of n st cs) = cs) as H.
  { intros n st cs. revert n st. induction cs as [|c cs IH]; intros n st Hl; [done|].
    cbn [parts_of omap list_omap]. simpl. pose proof (Hl 0%nat c eq_refl) as H0.
    rewrite Z.add_0_r in H0. rewrite H0. f_equal. apply IH. intros i b Hi.
    rewrite <- (Hl (S i) b Hi). f_equal. f_equal. lia. }
  apply H. intros i b Hi. rewrite Z.add_0_l. by apply Hf.
Qed.

Definition empty_output : output := mkOutput ∅ None [].

Lemma empty_inv rows : output_inv rows empty_output [].
Proof. split; try done. apply prefix_nil. Qed.

Lemma crashed_inv rows o bs k :
  output_inv rows o bs → ∃ bs', output_inv rows (crashed rows k o) bs'.
Proof.
  intros H. destruct (stream_plan_inv rows o bs H) as (ws & w & E & Hk & _).
  unfold crashed. rewrite E. apply Hk.
Qed.

Lemma crashes_inv rows ks o bs :
  output_inv rows o bs → ∃ bs', output_inv rows (foldl (λ o k, crashed rows k o) o ks) bs'.
Proof.
  revert o bs. induction ks as [|k ks IH]; intros o bs H; [by exists bs|].
  destruct (crashed_inv rows o bs k H) as [bs1 H1]. by apply (IH _ bs1).
Qed.


Lemma length_nonempty_concat rows o bs : output_inv rows o bs → concat bs = [] → bs = [].
Proof.
  intros [_ _ Hne _ _] E. destruct bs as [|b bs]; [done|]. inversion Hne; subst.
  simpl in E. by apply app_nil in E as [-> _].
Qed.

Lemma r_locator n : 0 ≤ n < 10 ^ max_str_digits → int_of_text (remove_r ("r:" +:+ str_of_Z n)) = Some n.
Proof.
  intros Hn. unfold remove_r. replace (starts_with "r:" ("r:" +:+ str_of_Z n)) with true.
  - unfold str_drop. rewrite chars_app. change (drop 2 (chars "r:" ++ chars (str_of_Z n))) with (chars (str_of_Z n)).
    rewrite str_chars. unfold int_of_text.
    destruct (Z.ltb_spec max_str_digits
      (Z.of_nat (length (filter (λ c, is_decimal c = true) (chars (str_of_Z n)))))) as [Hlt|];
      [exfalso|by apply py_int_str_of_Z].
    unfold str_of_Z in Hlt. destruct (Z.ltb_spec n 0); [lia|]. rewrite chars_str in Hlt.
    pose proof (length_filter (λ c, is_decimal c = true) (dec_digits n)).
    pose proof (dec_digits_length n (Z.to_nat max_str_digits)) as Hlen.
    rewrite Z2Nat.id in Hlen by done. specialize (Hlen Hn ltac:(unfold max_str_digits; lia)).
    unfold max_str_digits in *. lia.
  - unfold starts_with. simpl. by destruct (str_of_Z n).
Qed.

(** The locator of a row offset: none at the start. *)
Definition locator_of (offset : Z) : option string :=
  if offset =? 0 then None else Some ("r:" +:+ str_of_Z offset).

(** A result window is a slice of the result. Over a finished job's output, for every offset
    inside the result and every positive [maxRecords], the page found through the offset's
    locator announces the number of rows left or [maxRecords], streams exactly those rows, in
    order and across part boundaries, and carries the locator of the next offset exactly when
    rows remain. *)
Lemma result_window_slice (rows : list R) (o : output) (blocks : list (list R)) (id : string)
    (offset max_records : Z) :
  output_inv rows o blocks → concat blocks = rows → Z.of_nat (length rows) < 10 ^ max_str_digits →
  0 ≤ offset < Z.of_nat (length rows) → 0 < max_records →
  let count := Z.min max_records (Z.of_nat (length rows) - offset) in
  result_window id o (locator_of offset) max_records
      = Ok (mkResultPage "manifest.json" count
              (if offset + count <? Z.of_nat (length rows) then locator_of (offset + count) else None)) ∧
    stream_window o offset count = take (Z.to_nat count) (drop (Z.to_nat offset) rows).
Proof.
  intros H Hcat Hlen Hoff Hmax count. unfold count. clear count.
  assert (∀ count, 0 ≤ count → stream_window o offset count
            = take (Z.to_nat count) (drop (Z.to_nat offset) rows)) as Hslice.
  { intros count Hcount. unfold stream_window. rewrite (inv_files rows o blocks H).
    rewrite emit_parts_spec by lia. by rewrite Hcat, !Z.sub_0_r. }
  split.
  - unfold result_window, locator_of. destruct (Z.leb_spec max_records 0); [lia|].
    assert (o_manifest o = Some (parts_of 0 0 blocks)) as Hm.
    { pose proof (oi_manifest _ _ _ H) as Hm. unfold manifest_parts in Hm.
      destruct (o_manifest o) as [ps|]; [by simpl in Hm; subst|]. simpl in Hm.
      destruct blocks as [|b bs]; [simpl in Hcat; subst; simpl in *; lia|done]. }
    rewrite Hm, record_total_parts, Hcat.
    assert (offset + Z.min max_records (Z.of_nat (length rows) - offset) =? 0 = false) as Hz
      by (apply Z.eqb_neq; lia).
    destruct (Z.eqb_spec offset 0) as [->|Hne]; cbn [res_bind].
    + destruct (Z.leb_spec (Z.of_nat (length rows)) 0); [lia|]. cbn [orb].
      change (0 <? 0) with false. cbv iota. by rewrite Hz.
    + rewrite r_locator by lia. cbn [res_bind].
      replace (starts_with "r:" ("r:" +:+ str_of_Z offset)) with true
        by (unfold starts_with; simpl; by destruct (str_of_Z offset)).
      cbn [negb]. destruct (Z.ltb_spec offset 0); [lia|].
      destruct (Z.leb_spec (Z.of_nat (length rows)) offset); [lia|]. cbn [orb]. by rewrite Hz.
  - apply Hslice. lia.
Qed.

(** A query without rows leaves no manifest: the job completes, but both ways of reading its
    results raise [FileNotFoundError], which the API reports as an invalid locator. *)
Theorem empty_result_unreadable (id : string) (max_records : Z) :
  _stream [] empty_output = (empty_output, Ok (0, 0)) ∧
  page id empty_output None = raise FileNotFoundError id ∧
  (0 < max_records → result_window id empty_output None max_records = raise FileNotFoundError id).
Proof.
  split; [reflexivity|]. split; [reflexivity|]. intros H. unfold result_window.
  destruct (Z.leb_spec max_records 0); [lia|reflexivity].
Qed.

(** ** The job around the stream: [BulkQueryWorker.run] *)

Definition worker_state : Type := store * output.
Definition on_store {A} (m : io store A) : io worker_state A := io_zoom fst (λ t s, (t, s.2)) m.
Definition on_output {A} (m : io output A) : io worker_state A := io_zoom snd (λ t s, (s.1, t)) m.

Definition run_job (now : Z) (id : string) (rows : list R) : io worker_state (Z * Z) :=
  let* s := io_get in
  match get_job now id s.1 with
  | Some job =>
    if negb (bool_decide (job_type job = QUERY)) || bool_decide (query_text job = None)
    then io_raise KeyError id
    else
      let* _ := if decide (job_state job = UPLOAD_COMPLETE)
                then (on_store (transition_job now id IN_PROGRESS None None) ;;; io_ret tt)
                else raise_if (negb (bool_decide (job_state job = IN_PROGRESS))) ValueError
                       ("job " +:+ id +:+ " is not ready to run") in
      let* result := λ s, match on_output (_stream rows) s with
                          | (s', Ok r) => (s', Ok r)
                          | (s', Err e) =>
                            (on_store (transition_job now id FAILED (Some "BULK_PROCESSING_ERROR")
                               (Some "Bulk query processing failed")) ;;; (λ s, (s, Err e))) s'
                          end in
      let* _ := on_store (transition_job now id JOB_COMPLETE None None) in
      io_ret result
  | None => io_raise KeyError id
  end.

Lemma transition_ok now id next s j :
  st_jobs s !! id = Some j → unexpired now j = true → next ∈ ALLOWED_TRANSITIONS (job_state j) →
  transition_job now id next None None s
  = (set_jobs (<[id := with_state next None None j]> (st_jobs s)) s,
     Ok (read_back (with_state next None None j))).
Proof.
  intros Hj Hu Hn. unfold transition_job, io_bind. rewrite update_state_spec, Hj.
  rewrite bool_decide_eq_true_2 by done. unfold io_get, get_job. cbn [st_jobs set_jobs].
  rewrite lookup_insert_eq. unfold unexpired in *. cbn [expires_at with_state].
  by rewrite Hu.
Qed.

(** Resuming a job completes it: an unexpired bulk query job that is uploaded or was left in
    progress, over whatever output its killed attempts left, is run to [JobComplete] with all
    the rows reported. *)
Lemma run_job_completes (now : Z) (id : string) (rows : list R) (ks : list nat) (s : store) (j : BulkJob) :
  st_jobs s !! id = Some j → unexpired now j = true → job_type j = QUERY → is_Some (query_text j) →
  (job_state j = UPLOAD_COMPLETE ∨ job_state j = IN_PROGRESS) →
  ∃ s' o' written, run_job now id rows (s, foldl (λ o k, crashed rows k o) empty_output ks)
    = ((s', o'), Ok (Z.of_nat (length rows), written)) ∧
    st_jobs s' !! id = Some (with_state JOB_COMPLETE None None j) ∧
    ∃ blocks, output_inv rows o' blocks ∧ concat blocks = rows.
Proof.
  intros Hj Hu Hty [q Hq] Hst. set (o := foldl _ _ ks).
  destruct (crashes_inv rows ks empty_output [] (empty_inv rows)) as [bs H]. fold o in H.
  destruct (stream_plan_inv rows o bs H) as (ws & w & E & _ & bs' & H' & Hcat).
  assert (_stream rows o = (apply_writes ws o, Ok (Z.of_nat (length rows), w))) as Es
    by (unfold _stream; by rewrite E).
  set (s1 := if decide (job_state j = UPLOAD_COMPLETE)
             then set_jobs (<[id := with_state IN_PROGRESS None None j]> (st_jobs s)) s else s).
  assert (∃ j1, st_jobs s1 !! id = Some j1 ∧ unexpired now j1 = true ∧ job_state j1 = IN_PROGRESS ∧
                with_state JOB_COMPLETE None None j1 = with_state JOB_COMPLETE None None j)
    as (j1 & Hj1 & Hu1 & Hst1 & Hj1j).
  { unfold s1. case_decide as Hd; [|exists j; destruct Hst; done].
    exists (with_state IN_PROGRESS None None j). simpl. rewrite lookup_insert_eq. done. }
  exists (set_jobs (<[id := with_state JOB_COMPLETE None None j1]> (st_jobs s1)) s1),
    (apply_writes ws o), w.
  split; [|split].
  - unfold run_job. unfold io_bind at 1, io_get at 1. cbn [fst]. unfold get_job. rewrite Hj, Hu.
    cbn [job_type query_text job_state read_back]. rewrite Hty, Hq. cbn [negb orb].
    rewrite bool_decide_eq_true_2, bool_decide_eq_false_2 by done. cbn [negb orb].
    unfold io_bind at 1.
    assert ((if decide (job_state j = UPLOAD_COMPLETE)
             then (on_store (transition_job now id IN_PROGRESS None None) ;;; io_ret tt)
             else raise_if (negb (bool_decide (job_state j = IN_PROGRESS))) ValueError
                    ("job " +:+ id +:+ " is not ready to run")) (s, o) = ((s1, o), Ok tt)) as ->.
    { unfold s1. case_decide as Hd.
      - unfold io_bind, on_store, io_zoom, io_ret. cbn [fst snd].
        rewrite (transition_ok _ _ _ _ j); [done|done|done|]. rewrite Hd. simpl. set_solver.
      - destruct Hst as [|Hst]; [done|]. rewrite Hst. done. }
    unfold io_bind at 1, on_output, io_zoom at 1. cbn [fst snd]. rewrite Es.
    unfold io_bind, on_store, io_zoom, io_ret. cbn [fst snd].
    rewrite (transition_ok _ _ _ _ j1); [done|done|done|]. rewrite Hst1. simpl. set_solver.
  - cbn. by rewrite lookup_insert_eq, Hj1j.
  - by exists bs'.
Qed.
End Worker.

(** ** An instance: five rows in parts of two, killed three times *)

Definition witness_bytes (rows : list Z) : Z * string := (Z.of_nat (length rows), "").
Definition witness_numbers : list Z := [11; 22; 33; 44; 55].
Definition witness_output : output :=
  foldl (λ o k, crashed witness_bytes 2 witness_numbers k o) empty_output [1; 4; 2]%nat.
Example witness_killed :
  manifest_parts witness_output = parts_of witness_bytes 0 0 [[11; 22]; [33; 44]] ∧
  o_checkpoints witness_output = [2].
Proof. vm_compute. done. Qed.

Lemma empty_result_unreadable_witness :
  result_window (R:=Z) "750a" empty_output None 100 = raise FileNotFoundError "750a".
Proof. apply (empty_result_unreadable witness_bytes 2 "750a" 100). lia. Defined.
