(* ===== verification/Ingest.v ===== *)
(** * Bulk ingest: [fakeforce/bulk/ingest.py]

    Job validation, row coercion, the batches applied to a mutable object's table together with
    their row results and checkpoint in one transaction, and the worker that resumes after the
    last checkpoint. The CSV file is given as the lists of values [csv.reader] yields. *)

From stdpp Require Import prelude gmap strings list.
From Stdlib Require Import ZArith Lia Ascii.
From S2P Require Import Prelude PyText PyNum Sha256 Soql Catalog QueryPlan Jobs.

Open Scope Z_scope.

(** ** [hashlib.sha1(text.encode()).hexdigest()] *)

Definition rotl (k x : Z) : Z := rotr (32 - k) x.

Fixpoint sha1_schedule (n : nat) (w : list Z) : list Z :=
  match n with
  | O => w
  | S n =>
    let at_ k := nth k w 0 in
    sha1_schedule n (rotl 1 (Z.lxor (Z.lxor (at_ 2%nat) (at_ 7%nat)) (Z.lxor (at_ 13%nat) (at_ 15%nat))) :: w)
  end.

Definition sha1_round (st : list Z) (iw : nat * Z) : list Z :=
  match st with
  | [a; b; c; d; e] =>
    let i := Z.of_nat iw.1 in
    let '(f, k) :=
      if i <? 20 then (Z.lor (Z.land b c) (Z.land (Z.lxor b 4294967295) d), 1518500249)
      else if i <? 40 then (Z.lxor b (Z.lxor c d), 1859775393)
      else if i <? 60 then (Z.lor (Z.land b c) (Z.lor (Z.land b d) (Z.land c d)), 2400959708)
      else (Z.lxor b (Z.lxor c d), 3395469782) in
    [add32 (add32 (add32 (rotl 5 a) f) (add32 e k)) iw.2; a; rotl 30 b; c; d]
  | _ => st
  end.

Definition sha1_compress (st block : list Z) : list Z :=
  let w := rev (sha1_schedule 64 (rev block)) in
  zip_with add32 st (fold_left sha1_round (zip (seq 0 80) w) st).

Fixpoint sha1_blocks (n : nat) (st l : list Z) : list Z :=
  match n with
  | O => st
  | S n => sha1_blocks n (sha1_compress st (words 16 l)) (drop 64 l)
  end.

Definition sha1_hex (text : string) : string :=
  let data := encode text in
  let l := data ++ padding (length data) in
  hex (sha1_blocks (length l / 64) [1732584193; 4023233417; 2562383102; 271733878; 3285377520] l
       ≫= be_bytes 4).

Example sha1_abc : sha1_hex "abc" = "a9993e364706816aba3e25717850c26c9cd0d89d".
Proof. vm_compute. reflexivity. Qed.

(** ** Creating a job *)

Record IngestConfiguration := mkIngest {
  ic_object : string; ic_operation : string; ic_content_type : string;
  ic_line_ending : string; ic_delimiter : string }.

Definition invalid_ingest {A} (code msg : string) : res A := raise_code IngestValidationError code msg.

Definition json_is (s : string) (j : json) : bool :=
  match j with JStr t => String.eqb t s | _ => false end.

(** [value not in {...}]: a list or an object cannot be hashed. *)
Definition one_of (l : list string) (j : json) : res bool :=
  match j with
  | JArr _ | JObj _ => raise TypeError "unhashable type"
  | JStr t => Ok (existsb (String.eqb t) l)
  | _ => Ok false
  end.

Definition validate_ingest_create (payload : list (string * json)) (c : DatasetCatalog)
    : res IngestConfiguration :=
  match jget "object" payload JNull with
  | JStr name =>
    if String.eqb name "" then invalid_ingest "INVALIDJOB" "Bulk ingest jobs require an object"
    else match get c name with
    | None => invalid_ingest "NOT_FOUND" ("Unknown configured object: " +:+ name)
    | Some spec =>
      if negb (String.eqb (mode spec) "mutable")
      then invalid_ingest "INVALIDJOB" (name +:+ " is not configured for ingest")
      else if negb (json_is "insert" (jget "operation" payload JNull))
      then invalid_ingest "INVALIDJOB" "only insert ingest operation is currently supported"
      else if negb (json_is "CSV" (jget "contentType" payload (JStr "CSV")))
      then invalid_ingest "INVALIDJOB" "only CSV ingest content is currently supported"
      else
        let line_ending := jget "lineEnding" payload (JStr "LF") in
        let delimiter := jget "columnDelimiter" payload (JStr "COMMA") in
        let! b := one_of ["LF"; "CRLF"] line_ending in
        if negb b then invalid_ingest "INVALIDJOB" "unsupported CSV line ending"
        else
          let! b := one_of ["COMMA"; "TAB"; "PIPE"; "SEMICOLON"] delimiter in
          if negb b then invalid_ingest "INVALIDJOB" "unsupported CSV column delimiter"
          else Ok (mkIngest name "insert" "CSV" (default "" (jstr line_ending)) (default "" (jstr delimiter)))
    end
  | _ => invalid_ingest "INVALIDJOB" "Bulk ingest jobs require an object"
  end.

(** ** Rows *)

(** A stored value. *)
Inductive value :=
| VNone | VBool (b : bool) | VInt (z : Z) | VFloat (f : f64) | VDate (d : Z) | VTimestamp (t : Z)
| VText (s : string).

(** A row as [csv.DictReader] yields it: fields without a value are [None]; [extra] is whether
    there are values under the key [None]. *)
Record csv_row := mkCsv { cr_fields : list (string * option string); cr_extra : bool }.

Fixpoint zip_fields (names values : list string) : list (string * option string) :=
  match names, values with
  | [], _ => []
  | n :: names, [] => (n, None) :: zip_fields names []
  | n :: names, v :: values => (n, Some v) :: zip_fields names values
  end.

Definition dict_row (names values : list string) : csv_row :=
  mkCsv (dict_of (zip_fields names values)) (Nat.ltb (length names) (length values)).

(** [csv.DictReader] skips empty rows. *)
Definition dict_rows (names : list string) (rows : list (list string)) : list csv_row :=
  dict_row names <$> filter (λ r, r ≠ []) rows.

Record RowOutcome := mkOutcome {
  ro_number : Z;
  ro_status : string;
  ro_record_id : option string;
  ro_error : option string;
  ro_source : list (string * option string);
  ro_values : option (list value) }.

Section Ingest.
(** [float], [date.fromisoformat] and [datetime.fromisoformat] on a text; the message of their
    [ValueError] is the exception's. *)
Context (py_float : string → res f64) (py_date py_timestamp : string → res Z).
Context (spec : DatasetSpec).
(** DuckDB's conversion of a row's values to the columns' types. *)
Context (convert_row : list value → res unit).

(** [except ValueError as error: raise ValueError(f"{field.name}: {error}")] *)
Definition named {A} (name : string) (r : res A) : res A :=
  match r with
  | Err e => if is_value_error (exn_cls e) then raise ValueError (name +:+ ": " +:+ exn_msg e) else Err e
  | r => r
  end.

Definition _coerce (field : string * field_type) (v : option string) : res value :=
  let text := default "" v in
  if String.eqb text "" then
    Ok (if String.eqb field.1 "IsDeleted" then VBool false else VNone)
  else named field.1
    match field.2 with
    | TBool =>
      let l := lower text in
      if String.eqb l "true" || String.eqb l "1" then Ok (VBool true)
      else if String.eqb l "false" || String.eqb l "0" then Ok (VBool false)
      else raise ValueError "must be a boolean"
    | TInteger => match int_of_text text with
                  | Some z => Ok (VInt z)
                  | None => raise ValueError ("invalid literal for int() with base 10: " +:+ py_repr text)
                  end
    | TFloating => let! f := py_float text in Ok (VFloat f)
    | TDate => let! d := py_date text in Ok (VDate d)
    | TTimestamp _ => let! t := py_timestamp (replace_char "Z" "+00:00" text) in Ok (VTimestamp t)
    | TString | TLargeString | TOther => Ok (VText text)
    end.

Definition _generated_id (id : string) (row_number : Z) : string :=
  "001" +:+ str (take 15 (chars (sha1_hex (id +:+ ":" +:+ str_of_Z row_number)))).

(** [row.get(name)] *)
Definition field_of (row : csv_row) (name : string) : option string := mjoin (aget name (cr_fields row)).

Definition _prepare_row (job : string) (row_number : Z) (row : csv_row) : res RowOutcome :=
  let given := default "" (field_of row (id_field spec)) in
  let record_id := if String.eqb given "" then _generated_id job row_number else given in
  match res_map (λ f : string * field_type,
                   if String.eqb f.1 (id_field spec) then Ok (VText record_id)
                   else _coerce f (field_of row f.1)) (spec_schema spec) with
  | Ok values => Ok (mkOutcome row_number "success" (Some record_id) None (cr_fields row) (Some values))
  | Err e => if is_value_error (exn_cls e)
             then Ok (mkOutcome row_number "failed" None (Some (exn_msg e)) (cr_fields row) None)
             else Err e
  end.

Definition _as_duplicate (o : RowOutcome) : RowOutcome :=
  mkOutcome (ro_number o) "failed" (ro_record_id o) (Some "DUPLICATE_VALUE: Id already exists")
    (ro_source o) None.

(** ** State: the object's table by record id, and the operational tables *)

Record ingest_state := mkIngestState {
  is_table : gmap string (list value);
  is_store : store }.

Definition set_table t s := mkIngestState t (is_store s).
Definition set_store t s := mkIngestState (is_table s) t.

(** The ids that more than one outcome of the batch carries. *)
Definition duplicate_ids (ids : list string) : list string :=
  filter (λ i, (1 < count_occ (λ x y, decide (x = y)) ids i)%nat) ids.

Definition record_ids (outcomes : list RowOutcome) : list string :=
  omap (λ o, match ro_values o with Some _ => ro_record_id o | None => None end) outcomes.

(** The outcomes after the duplicate checks of [_apply_batch]. *)
Definition check_duplicates (table : gmap string (list value)) (outcomes : list RowOutcome)
    : list RowOutcome :=
  let dups := duplicate_ids (record_ids outcomes) in
  (λ o, match ro_record_id o with
        | Some i => if bool_decide (i ∈ dups) || bool_decide (is_Some (table !! i))
                    then _as_duplicate o else o
        | None => o
        end) <$> outcomes.

Definition is_success (o : RowOutcome) : bool := String.eqb (ro_status o) "success".
Definition succeeded (outcomes : list RowOutcome) : Z :=
  Z.of_nat (length (filter (λ o, is_success o = true) outcomes)).

(** The two [INSERT]s of one outcome; a unique index refuses a second row. *)
Definition insert_outcome (job : string) (o : RowOutcome) : io ingest_state unit :=
  let* s := io_get in
  let* _ := match ro_values o, ro_record_id o with
            | Some values, Some i =>
              let* _ := io_lift (convert_row values) in
              if bool_decide (is_Some (is_table s !! i))
              then io_raise IntegrityError "Constraint Error: Duplicate key"
              else io_modify (λ s, set_table (<[i := values]> (is_table s)) s)
            | _, _ => io_ret tt
            end in
  if bool_decide (is_Some (st_row_results (is_store s) !! (job, ro_number o)))
  then io_raise IntegrityError "Constraint Error: Duplicate key"
  else io_modify (λ s, set_store
    (set_row_results (<[(job, ro_number o) :=
        mkRowResult (ro_status o) (ro_record_id o) (ro_error o) (ro_source o)]>
      (st_row_results (is_store s))) (is_store s)) s).

Definition _commit_batch (job : string) (outcomes : list RowOutcome) (processed failed input_bytes : Z)
    : io ingest_state unit :=
  transaction
    (io_iter (insert_outcome job) outcomes ;;;
     io_zoom is_store set_store (add_job_checkpoint job
       (mkCheckpoint (processed + succeeded outcomes)
          (failed + Z.of_nat (length outcomes) - succeeded outcomes) input_bytes
          (ro_number <$> last outcomes) None))).

Definition _apply_batch (job : string) (input_bytes : Z) (batch : list (Z * csv_row))
    (counts : Z * Z) : io ingest_state (Z * Z) :=
  let* outcomes := io_lift (res_map (λ nr, _prepare_row job nr.1 nr.2) batch) in
  let* s := io_get in
  let outcomes := check_duplicates (is_table s) outcomes in
  let* _ := _commit_batch job outcomes counts.1 counts.2 input_bytes in
  io_ret (counts.1 + succeeded outcomes,
          counts.2 + Z.of_nat (length outcomes) - succeeded outcomes).

(** The loop over the remaining rows; [batch] is reversed. *)
Fixpoint batch_loop (size : Z) (job : string) (input_bytes : Z) (rows : list (Z * csv_row))
    (batch : list (Z * csv_row)) (counts : Z * Z) : io ingest_state (Z * Z) :=
  match rows with
  | [] => match batch with
          | [] => io_ret counts
          | _ => _apply_batch job input_bytes (rev batch) counts
          end
  | nr :: rows =>
    if cr_extra nr.2 then
      io_raise IngestFileError ("row " +:+ str_of_Z nr.1 +:+ " has more values than the CSV header")
    else
      let batch := nr :: batch in
      if size <=? Z.of_nat (length batch) then
        let* counts := _apply_batch job input_bytes (rev batch) counts in
        batch_loop size job input_bytes rows [] counts
      else batch_loop size job input_bytes rows batch counts
  end.

Definition _validate_header (fieldnames : option (list string)) : res unit :=
  match fieldnames with
  | None | Some [] => raise IngestFileError "CSV upload must have a valid header"
  | Some names =>
    if existsb (String.eqb "") names then raise IngestFileError "CSV upload must have a valid header"
    else
      let unknown := filter (λ n, absent n (spec_schema spec) = true) (remove_dups names) in
      if bool_decide (unknown = []) then Ok tt
      else raise IngestFileError ("CSV header has unknown fields: " +:+ join ", " (sort_on id unknown))
  end.

(** The rows after the last checkpoint, with their numbers. *)
Definition pending (p : IngestProgress) (rows : list csv_row) : list (Z * csv_row) :=
  filter (λ nr : Z * csv_row, (nr.1 <=? ip_csv_row_number p) = false) (enumerate_from 1 rows).

(** [_stream] on an upload: its header (if any), its rows and its size in bytes. *)
Definition _stream (size : Z) (job : string) (fieldnames : option (list string))
    (rows : list (list string)) (input_bytes : Z) : io ingest_state (Z * Z) :=
  if negb (String.eqb (mode spec) "mutable")
  then io_raise IngestFileError (object_name spec +:+ " is not configured for ingest")
  else
    let* s := io_get in
    let progress := ingest_progress job (is_store s) in
    let* _ := io_lift (_validate_header fieldnames) in
    batch_loop size job input_bytes (pending progress (dict_rows (default [] fieldnames) rows)) []
      (ip_records_processed progress, ip_records_failed progress).

(** [BulkIngestWorker.run] *)
Definition on_jobs {A} (m : io store A) : io ingest_state A := io_zoom is_store set_store m.

Definition run_ingest (now size : Z) (job : string) (upload : option (option (list string) * list (list string)))
    (input_bytes : Z) : io ingest_state (Z * Z) :=
  let* s := io_get in
  match get_job now job (is_store s) with
  | Some j =>
    if negb (bool_decide (job_type j = INGEST)) || bool_decide (job_object_name j = None)
    then io_raise KeyError job
    else
      let* _ := if decide (job_state j = UPLOAD_COMPLETE)
                then (on_jobs (transition_job now job IN_PROGRESS None None) ;;; io_ret tt)
                else raise_if (negb (bool_decide (job_state j = IN_PROGRESS))) ValueError
                       ("job " +:+ job +:+ " is not ready to run") in
      let stream := match upload with
                    | Some (fieldnames, rows) => _stream size job fieldnames rows input_bytes
                    | None => io_raise IngestFileError "CSV upload is missing"
                    end in
      let* result := (λ s, match stream s with
        | (s', Ok r) => (s', Ok r)
        | (s', Err e) =>
          let '(code, msg) := if decide (exn_cls e = IngestFileError) then ("INVALID_CSV", exn_msg e)
                              else ("BULK_PROCESSING_ERROR", "Bulk ingest processing failed") in
          (on_jobs (transition_job now job FAILED (Some code) (Some msg)) ;;; (λ s, (s, Err e))) s'
        end) in
      let* _ := on_jobs (transition_job now job JOB_COMPLETE None None) in
      io_ret result
  | None => io_raise KeyError job
  end.

(** ** Crashes

    Every batch is one transaction, so a killed worker leaves the state of one of the batches it
    committed. [batch_states] lists those states of [batch_loop], [stream_states] of [_stream]. *)

Fixpoint batch_states (size : Z) (job : string) (input_bytes : Z) (rows : list (Z * csv_row))
    (batch : list (Z * csv_row)) (counts : Z * Z) (s : ingest_state) : list ingest_state :=
  match rows with
  | [] => match batch with
          | [] => []
          | _ => [(_apply_batch job input_bytes (rev batch) counts s).1]
          end
  | nr :: rows =>
    if cr_extra nr.2 then []
    else
      let batch := nr :: batch in
      if size <=? Z.of_nat (length batch) then
        match _apply_batch job input_bytes (rev batch) counts s with
        | (s', Ok counts) => s' :: batch_states size job input_bytes rows [] counts s'
        | (s', Err _) => [s']
        end
      else batch_states size job input_bytes rows batch counts s
  end.

Definition stream_states (size : Z) (job : string) (fieldnames : option (list string))
    (rows : list (list string)) (input_bytes : Z) (s : ingest_state) : list ingest_state :=
  let p := ingest_progress job (is_store s) in
  if String.eqb (mode spec) "mutable" && is_ok (_validate_header fieldnames) then
    batch_states size job input_bytes (pending p (dict_rows (default [] fieldnames) rows)) []
      (ip_records_processed p, ip_records_failed p) s
  else [].

(** The worker was killed once, in state [s], and left [s']. *)
Definition killed size job fieldnames rows input_bytes (s s' : ingest_state) : Prop :=
  s' ∈ stream_states size job fieldnames rows input_bytes s.

(** ** One batch *)

(** The parsers raise [ValueError]s only. *)
Context (float_errors : ∀ t e, py_float t = Err e → is_value_error (exn_cls e) = true).
Context (date_errors : ∀ t e, py_date t = Err e → is_value_error (exn_cls e) = true).
Context (timestamp_errors : ∀ t e, py_timestamp t = Err e → is_value_error (exn_cls e) = true).

(** What an outcome looks like before and after the duplicate check. *)
Definition outcome_wf (o : RowOutcome) : Prop :=
  (ro_status o = "success" ∧ is_Some (ro_record_id o) ∧ is_Some (ro_values o)) ∨
  (ro_status o = "failed" ∧ ro_values o = None).

Lemma named_error {A} name (r : res A) e :
  (∀ e, r = Err e → is_value_error (exn_cls e) = true) →
  named name r = Err e → is_value_error (exn_cls e) = true.
Proof.
  intros Hr. unfold named. destruct r as [x|e0]; [done|].
  rewrite (Hr e0 eq_refl). by intros [= <-].
Qed.

Lemma coerce_error f v e : _coerce f v = Err e → is_value_error (exn_cls e) = true.
Proof.
  unfold _coerce. destruct (String.eqb _ ""); [done|]. apply named_error. clear e. intros e.
  destruct f.2; try done.
  - destruct (String.eqb _ "true" || _); [done|]. destruct (_ || _); [done|]. by intros [= <-].
  - destruct (int_of_text _); [done|]. by intros [= <-].
  - destruct (py_float _) eqn:E; simpl; [done|]. intros [= <-]. eauto.
  - destruct (py_date _) eqn:E; simpl; [done|]. intros [= <-]. eauto.
  - destruct (py_timestamp _) eqn:E; simpl; [done|]. intros [= <-]. eauto.
Qed.

Lemma res_map_error {A B} (P : exn → Prop) (f : A → res B) l e :
  (∀ x e, f x = Err e → P e) → res_map f l = Err e → P e.
Proof.
  intros Hf. induction l as [|x l IH]; simpl; [done|].
  destruct (f x) eqn:E; simpl; [|intros [= <-]; eauto].
  destruct (res_map f l); simpl; [done|]. intros [= <-]. by apply IH.
Qed.

Lemma prepare_row_ok job n row :
  ∃ o, _prepare_row job n row = Ok o ∧ outcome_wf o ∧ ro_number o = n ∧
       (ro_values o = None → ro_record_id o = None).
Proof.
  unfold _prepare_row. destruct (res_map _ _) as [values|e] eqn:E.
  - eexists. split; [done|]. split; [left; simpl; eauto|done].
  - assert (is_value_error (exn_cls e) = true) as ->.
    { apply (res_map_error (λ e, is_value_error (exn_cls e) = true)) in E; [done|].
      intros f e' He. destruct (String.eqb f.1 (id_field spec)); [done|]. by eapply coerce_error. }
    eexists. split; [done|]. split; [right; done|done].
Qed.

Lemma prepare_batch_ok job (batch : list (Z * csv_row)) :
  ∃ os, res_map (λ nr, _prepare_row job nr.1 nr.2) batch = Ok os ∧
    Forall outcome_wf os ∧ ro_number <$> os = batch.*1.
Proof.
  induction batch as [|[n r] batch (os & E & Hwf & Hn)]; [by exists []|].
  destruct (prepare_row_ok job n r) as (o & Eo & Ho & Hno & _).
  exists (o :: os). simpl. rewrite Eo. simpl. rewrite E. split; [done|].
  split; [by constructor|]. simpl. f_equal; done.
Qed.

Lemma check_duplicates_wf table os :
  Forall outcome_wf os →
  Forall outcome_wf (check_duplicates table os) ∧
  ro_number <$> check_duplicates table os = ro_number <$> os.
Proof.
  unfold check_duplicates. generalize (duplicate_ids (record_ids os)) as dups. intros dups H.
  induction H as [|o os Ho _ [IH1 IH2]]; [done|]. simpl. split.
  - constructor; [|done]. destruct (ro_record_id o) as [i|]; [|done].
    destruct (_ || _); [by right|done].
  - f_equal; [|done]. destruct (ro_record_id o) as [i|]; [|done]. by destruct (_ || _).
Qed.

(** The ids that are inserted. *)
Lemma record_ids_checked (table : gmap string (list value)) (dups : list string) os :
  record_ids ((λ o, match ro_record_id o with
                    | Some i => if bool_decide (i ∈ dups) || bool_decide (is_Some (table !! i))
                                then _as_duplicate o else o
                    | None => o
                    end) <$> os)
  = filter (λ i, i ∉ dups ∧ table !! i = None) (record_ids os).
Proof.
  unfold record_ids. induction os as [|o os IH]; [done|]. cbn [fmap list_fmap omap list_omap].
  destruct (ro_record_id o) as [i|] eqn:Ei.
  - destruct (bool_decide (i ∈ dups) || bool_decide (is_Some (table !! i))) eqn:Eb.
    + simpl. rewrite IH. destruct (ro_values o); [|done]. rewrite filter_cons, decide_False; [done|].
      intros [H1 H2]. apply orb_true_iff in Eb as [Eb|Eb]; apply bool_decide_eq_true in Eb; [done|].
      rewrite H2 in Eb. by destruct Eb.
    + rewrite Ei. destruct (ro_values o); [|by rewrite IH]. rewrite filter_cons, decide_True; [by rewrite IH|].
      apply orb_false_iff in Eb as [E1 E2]. apply bool_decide_eq_false in E1, E2.
      split; [done|]. by apply eq_None_not_Some.
  - rewrite Ei. destruct (ro_values o); by rewrite IH.
Qed.

Lemma count_occ_filter P `{∀ x : string, Decision (P x)} l x :
  (count_occ (λ x y, decide (x = y)) (filter P l) x ≤ count_occ (λ x y, decide (x = y)) l x)%nat.
Proof.
  induction l as [|y l IH]; [done|]. rewrite filter_cons. simpl.
  case_decide; simpl; destruct (decide (y = x)); lia.
Qed.

Lemma NoDup_not_duplicate (table : gmap string (list value)) ids :
  NoDup (filter (λ i, i ∉ duplicate_ids ids ∧ table !! i = None) ids).
Proof.
  apply NoDup_ListNoDup. apply (NoDup_count_occ (λ x y, decide (x = y))). intros i.
  destruct (decide (i ∈ filter (λ i, i ∉ duplicate_ids ids ∧ table !! i = None) ids)) as [Hin|Hin].
  - etrans; [apply count_occ_filter|].
    apply list_elem_of_filter in Hin as [[Hd _] Hin]. unfold duplicate_ids in Hd.
    destruct (le_lt_dec (count_occ (λ x y, decide (x = y)) ids i) 1) as [|Hlt]; [done|].
    exfalso. apply Hd. by apply list_elem_of_filter.
  - rewrite list_elem_of_In in Hin. apply (count_occ_not_In (λ x y, decide (x = y))) in Hin. lia.
Qed.

(** The state changes of a batch's [INSERT]s. *)
Definition add_record (t : gmap string (list value)) (o : RowOutcome) : gmap string (list value) :=
  match ro_values o, ro_record_id o with
  | Some v, Some i => <[i := v]> t
  | _, _ => t
  end.
Definition add_result (job : string) (r : gmap (string * Z) row_result) (o : RowOutcome) :=
  <[(job, ro_number o) := mkRowResult (ro_status o) (ro_record_id o) (ro_error o) (ro_source o)]> r.

Definition inserted (job : string) (os : list RowOutcome) (s : ingest_state) : ingest_state :=
  mkIngestState (foldl add_record (is_table s) os)
    (set_row_results (foldl (add_result job) (st_row_results (is_store s)) os) (is_store s)).

Lemma insert_outcome_ok job o s :
  st_row_results (is_store s) !! (job, ro_number o) = None →
  (∀ v i, ro_values o = Some v → ro_record_id o = Some i → is_table s !! i = None) →
  (∀ v, ro_values o = Some v → convert_row v = Ok tt) →
  insert_outcome job o s
  = (mkIngestState (add_record (is_table s) o)
       (set_row_results (add_result job (st_row_results (is_store s)) o) (is_store s)), Ok tt).
Proof.
  intros Hres Hnew Hconv. unfold insert_outcome, io_lift, add_record, io_bind, io_get, io_ret.
  destruct s as [t st], o as [n status rid err src vals].
  cbn [is_table is_store ro_number ro_values ro_record_id] in *.
  assert (bool_decide (is_Some (st_row_results st !! (job, n))) = false) as E
    by (apply bool_decide_eq_false_2; rewrite Hres; by intros [? ?]).
  destruct vals as [v|]; [destruct rid as [i|]|].
  - rewrite (Hconv v) by done. rewrite bool_decide_eq_false_2 by (rewrite (Hnew v i) by done; by intros [? ?]).
    cbn. by rewrite E.
  - cbn. by rewrite E.
  - cbn. by rewrite E.
Qed.

Lemma insert_all_ok job os s :
  NoDup (ro_number <$> os) →
  (∀ n, n ∈ ro_number <$> os → st_row_results (is_store s) !! (job, n) = None) →
  NoDup (record_ids os) → (∀ i, i ∈ record_ids os → is_table s !! i = None) →
  Forall (λ o, ∀ v, ro_values o = Some v → convert_row v = Ok tt) os →
  io_iter (insert_outcome job) os s = (inserted job os s, Ok tt).
Proof.
  unfold io_iter. revert s. induction os as [|o os IH]; intros s Hn Hfree Hi Hnew Hconv.
  - by destruct s as [t [a b c d]].
  - cbn [io_fold]. simpl in Hn. inversion Hn as [|? ? Hno Hn']; inversion Hconv; subst.
    unfold io_bind at 1.
    set (s1 := mkIngestState (add_record (is_table s) o)
                 (set_row_results (add_result job (st_row_results (is_store s)) o) (is_store s))).
    assert (insert_outcome job o s = (s1, Ok tt)) as ->.
    { apply insert_outcome_ok; [apply Hfree; simpl; set_solver| |done]. intros v i Hv Hid. apply Hnew.
      unfold record_ids. cbn [omap list_omap]. rewrite Hv, Hid. set_solver. }
    rewrite IH.
    + done.
    + done.
    + intros n Hin. unfold s1, add_result. cbn [is_store st_row_results set_row_results].
      rewrite lookup_insert_ne by (intros [= <-]; done). apply Hfree. simpl. set_solver.
    + unfold record_ids in *. cbn [omap list_omap] in Hi.
      destruct (ro_values o); [|done]. destruct (ro_record_id o); [|done]. by inversion Hi.
    + intros i Hin. unfold s1, add_record. cbn [is_table].
      unfold record_ids in Hi, Hnew. cbn [omap list_omap] in Hi, Hnew.
      destruct (ro_values o) as [v|]; [|by apply Hnew]. destruct (ro_record_id o) as [i'|]; [|by apply Hnew].
      inversion Hi; subst. rewrite lookup_insert_ne; [apply Hnew; set_solver|]. by intros ->.
    + done.
Qed.

Lemma succeeded_cons o os : succeeded (o :: os) = (if is_success o then 1 else 0) + succeeded os.
Proof. unfold succeeded. rewrite filter_cons. case_decide; destruct (is_success o); simpl; done || lia. Qed.

Lemma add_records_spec os t :
  Forall outcome_wf os → NoDup (record_ids os) → (∀ i, i ∈ record_ids os → t !! i = None) →
  t ⊆ foldl add_record t os ∧
  Z.of_nat (size (foldl add_record t os)) = Z.of_nat (size t) + succeeded os.
Proof.
  revert t. induction os as [|o os IH]; intros t Hwf Hi Hnew; simpl.
  - split; [done|]. unfold succeeded. simpl. lia.
  - inversion Hwf as [|? ? Ho Hwf']; subst.
    unfold record_ids in Hi, Hnew. cbn [omap list_omap] in Hi, Hnew.
    rewrite succeeded_cons. unfold is_success at 1.
    destruct Ho as [(Hs & [i Hid] & [v Hv])|[Hs Hv]]; rewrite Hs; cbn [String.eqb Ascii.eqb Bool.eqb].
    + rewrite Hv, Hid in Hi, Hnew. inversion Hi as [|? ? Hni Hi']; subst.
      assert (add_record t o = <[i:=v]> t) as -> by (unfold add_record; by rewrite Hv, Hid).
      pose proof (Hnew i ltac:(set_solver)) as Hti.
      destruct (IH (<[i:=v]> t)) as [H1 H2]; [done|done| |].
      { intros i' Hin. rewrite lookup_insert_ne; [apply Hnew; set_solver|]. intros ->. contradiction. }
      split; [etrans; [by apply insert_subseteq|exact H1]|].
      rewrite H2, map_size_insert_None by done. lia.
    + rewrite Hv in Hi, Hnew.
      assert (add_record t o = t) as -> by (unfold add_record; by rewrite Hv).
      by apply IH.
Qed.

Lemma add_results_spec job os r j n :
  is_Some (foldl (add_result job) r os !! (j, n)) ↔
  is_Some (r !! (j, n)) ∨ (j = job ∧ n ∈ ro_number <$> os).
Proof.
  revert r. induction os as [|o os IH]; intros r; simpl; [set_solver|].
  rewrite IH. unfold add_result at 1. destruct (decide ((job, ro_number o) = (j, n))) as [[= -> ->]|N].
  - rewrite lookup_insert_eq. split; [|eauto]. intros _. right. set_solver.
  - rewrite lookup_insert_ne by done. split; intros [?|[-> ?]]; try (by left); right; split; set_solver.
Qed.

(** ** Resuming *)

(** Rows numbered consecutively from [n]. *)
Fixpoint numbered (n : Z) (rows : list (Z * csv_row)) : Prop :=
  match rows with
  | [] => True
  | nr :: rows => nr.1 = n ∧ numbered (n + 1) rows
  end.

Lemma numbered_enumerate n (rows : list csv_row) : numbered n (enumerate_from n rows).
Proof. revert n. induction rows as [|r rows IH]; intros n; simpl; [done|]. split; [done|apply IH]. Qed.

Lemma numbered_app n a b : numbered n (a ++ b) ↔ numbered n a ∧ numbered (n + Z.of_nat (length a)) b.
Proof.
  revert n. induction a as [|x a IH]; intros n; simpl.
  - rewrite Z.add_0_r. tauto.
  - rewrite IH. replace (n + 1 + Z.of_nat (length a)) with (n + Z.of_nat (S (length a))) by lia. tauto.
Qed.

Lemma numbered_above n rows k :
  numbered n rows → k < n → filter (λ nr : Z * csv_row, (nr.1 <=? k) = false) rows = rows.
Proof.
  revert n. induction rows as [|r rows IH]; intros n Hr Hk; [done|]. destruct Hr as [Hr1 Hr].
  rewrite filter_cons, decide_True by (apply Z.leb_gt; lia). f_equal. apply (IH (n + 1)); [done|lia].
Qed.

Lemma numbered_below n rows k :
  numbered n rows → n + Z.of_nat (length rows) ≤ k + 1 →
  filter (λ nr : Z * csv_row, (nr.1 <=? k) = false) rows = [].
Proof.
  revert n. induction rows as [|r rows IH]; intros n Hr Hk; [done|]. destruct Hr as [Hr1 Hr].
  simpl in Hk. rewrite filter_cons, decide_False by (rewrite not_false_iff_true; apply Z.leb_le; lia).
  apply (IH (n + 1)); [done|lia].
Qed.

Lemma numbered_last n rows : numbered n rows → rows ≠ [] →
  last rows.*1 = Some (n + Z.of_nat (length rows) - 1).
Proof.
  intros Hr Hn. destruct (exists_last Hn) as (rows' & r & ->).
  apply numbered_app in Hr as [_ [Hr _]]. rewrite fmap_app.
  change (fst <$> [r]) with [r.1]. rewrite last_snoc, length_app. simpl.
  f_equal. lia.
Qed.

Lemma io_zoom_checkpoint job cp s :
  io_zoom is_store set_store (add_job_checkpoint job cp) s
  = (set_store (add_job_checkpoint job cp (is_store s)).1 s, Ok tt).
Proof. done. Qed.

Lemma check_duplicates_number table os : ro_number <$> check_duplicates table os = ro_number <$> os.
Proof.
  unfold check_duplicates. generalize (duplicate_ids (record_ids os)) as dups. intros dups.
  induction os as [|o os IH]; [done|]. simpl. f_equal; [|done].
  destruct (ro_record_id o) as [i|]; [|done]. by destruct (_ || _).
Qed.

Lemma prepare_number job n row o : _prepare_row job n row = Ok o → ro_number o = n.
Proof.
  unfold _prepare_row. destruct (res_map _ _) as [v|e]; [by intros [= <-]|].
  destruct (is_value_error _); [by intros [= <-]|done].
Qed.

Lemma prepare_numbers job (batch : list (Z * csv_row)) os :
  res_map (λ nr, _prepare_row job nr.1 nr.2) batch = Ok os → ro_number <$> os = batch.*1.
Proof.
  revert os. induction batch as [|[n r] batch IH]; intros os; simpl; [by intros [= <-]|].
  destruct (_prepare_row job n r) as [o|] eqn:E; simpl; [|done].
  destruct (res_map _ batch) as [os'|]; simpl; [|done]. intros [= <-]. simpl.
  f_equal; [by eapply prepare_number|by apply IH].
Qed.

(** A committed batch leaves the progress of its last row; a failed one leaves no trace. *)
Lemma apply_batch_cases job ib batch c s :
  match _apply_batch job ib batch c s with
  | (s', Ok c') => ingest_progress job (is_store s')
                   = mkProgress c'.1 c'.2 (default 0 (last batch.*1))
  | (s', Err _) => s' = s
  end.
Proof.
  unfold _apply_batch, io_bind at 1, io_lift.
  destruct (res_map _ batch) as [os|e] eqn:Eos; [|done].
  unfold io_bind, io_get, io_ret, _commit_batch.
  apply prepare_numbers in Eos. rewrite <- (check_duplicates_number (is_table s)) in Eos.
  revert Eos. generalize (check_duplicates (is_table s) os). clear os. intros os Eos.
  destruct (transaction _ s) as [s' [[]|e]] eqn:E; [|by apply transaction_err in E].
  apply transaction_ok, io_bind_ok in E as (s1 & a & _ & E).
  rewrite io_zoom_checkpoint in E. apply (f_equal fst) in E. cbn [fst] in E. subst s'.
  etrans; [apply ingest_progress_add|]. cbn [cp_records_processed cp_records_failed cp_csv_row_number fst snd].
  by rewrite <- fmap_last, Eos.
Qed.

Definition above (k : Z) (rows : list (Z * csv_row)) : list (Z * csv_row) :=
  filter (λ nr : Z * csv_row, (nr.1 <=? k) = false) rows.

Lemma above_app k a b : above k (a ++ b) = above k a ++ above k b.
Proof. apply filter_app. Qed.

Lemma above_above k k' rows : k ≤ k' → above k' (above k rows) = above k' rows.
Proof.
  intros Hk. unfold above. induction rows as [|r rows IH]; [done|].
  rewrite !filter_cons. destruct (r.1 <=? k) eqn:E.
  - rewrite decide_False by done. rewrite decide_False, IH; [done|].
    rewrite not_false_iff_true. lia.
  - rewrite decide_True by done. rewrite filter_cons, IH. done.
Qed.

Lemma above_numbered k m rows : numbered m rows → ∃ n, k < n ∧ numbered n (above k rows).
Proof.
  revert m. induction rows as [|r rows IH]; intros m; [exists (k + 1); split; [lia|done]|].
  intros [Hr Hrows]. destruct (decide (k < m)) as [Hk|Hk].
  - exists m. split; [done|]. unfold above. rewrite (numbered_above m); done.
  - destruct (IH (m + 1) Hrows) as (n & Hn & H). exists n. split; [done|].
    unfold above. rewrite filter_cons, decide_False; [done|]. rewrite not_false_iff_true. lia.
Qed.

(** The rows of an unfinished batch can be read again. *)
Lemma batch_loop_refill size job ib b1 : ∀ rows b0 c,
  Forall (λ nr : Z * csv_row, cr_extra nr.2 = false) b1 → Z.of_nat (length (b1 ++ b0)) < size →
  batch_loop size job ib (rev b1 ++ rows) b0 c = batch_loop size job ib rows (b1 ++ b0) c.
Proof.
  induction b1 as [|x b1 IH]; intros rows b0 c Hx Hlen; [done|].
  inversion Hx as [|? ? Hx1 Hx2]; subst. simpl length in Hlen. cbn [rev].
  rewrite <- app_assoc. rewrite IH by (done || lia). cbn [app batch_loop]. rewrite Hx1.
  destruct (Z.leb_spec size (Z.of_nat (length (x :: b1 ++ b0)))); [simpl in *; lia|done].
Qed.

(** What the worker that starts in [s'] has left to do is what the one in [s] had. *)
Lemma batch_states_resume size job ib rows : ∀ batch c s s' n k0,
  numbered n (rev batch ++ rows) → k0 < n → 1 ≤ size →
  Forall (λ nr : Z * csv_row, cr_extra nr.2 = false) batch → Z.of_nat (length batch) < size →
  ingest_progress job (is_store s) = mkProgress c.1 c.2 k0 →
  s' ∈ batch_states size job ib rows batch c s →
  ∃ c' k, ingest_progress job (is_store s') = mkProgress c'.1 c'.2 k ∧ k0 ≤ k ∧
    batch_loop size job ib (above k (rev batch ++ rows)) [] c' s'
    = batch_loop size job ib rows batch c s.
Proof.
  induction rows as [|nr rows IH]; intros batch c s s' n k0 Hnum Hk0 Hsize Hx Hlen Hp Hin.
  - rewrite app_nil_r in *. cbn [batch_states batch_loop] in *.
    destruct batch as [|b0 batch0] eqn:Eb; [by apply elem_of_nil in Hin|]. rewrite <- Eb in *.
    apply list_elem_of_singleton in Hin as ->.
    pose proof (apply_batch_cases job ib (rev batch) c s) as Hcases.
    destruct (_apply_batch job ib (rev batch) c s) as [s1 [c1|e]] eqn:E; cbn [fst].
    + assert (rev batch ≠ []) as Hne by (rewrite Eb; simpl; by destruct (rev batch0)).
      rewrite (numbered_last n) in Hcases by done. simpl in Hcases.
      exists c1, (n + Z.of_nat (length (rev batch)) - 1). split; [done|]. split.
      { rewrite length_rev, Eb. simpl. lia. }
      unfold above. rewrite (numbered_below n); [done|done|lia].
    + subst s1. exists c, k0. split; [done|]. split; [lia|].
      unfold above. rewrite (numbered_above n) by done.
      pose proof (batch_loop_refill size job ib batch [] [] c Hx) as H. rewrite !app_nil_r in H.
      rewrite H by done. rewrite Eb. rewrite <- Eb. cbn [batch_loop]. rewrite Eb in *. done.
  - cbn [batch_states batch_loop] in *. destruct (cr_extra nr.2) eqn:Ex; [by apply elem_of_nil in Hin|].
    assert (rev batch ++ nr :: rows = rev (nr :: batch) ++ rows) as Erev
      by (cbn [rev]; by rewrite <- app_assoc).
    rewrite Erev in *. set (batch' := nr :: batch) in *.
    assert (Forall (λ nr : Z * csv_row, cr_extra nr.2 = false) batch') as Hx' by by constructor.
    destruct (Z.leb_spec size (Z.of_nat (length batch'))) as [Hfull|Hfull];
      [|by apply (IH batch' c s s' n k0)].
    pose proof (apply_batch_cases job ib (rev batch') c s) as Hcases.
    unfold io_bind.
    destruct (_apply_batch job ib (rev batch') c s) as [s1 [c1|e]] eqn:E.
    + pose proof Hnum as Hnum'. apply numbered_app in Hnum as [Hn1 Hn2].
      assert (rev batch' ≠ []) as Hne by (unfold batch'; simpl; by destruct (rev batch)).
      rewrite (numbered_last n) in Hcases by done. simpl default in Hcases.
      set (k1 := n + Z.of_nat (length (rev batch')) - 1) in *.
      assert (k0 ≤ k1) as Hk1 by (unfold k1, batch'; rewrite length_rev; simpl; lia).
      apply elem_of_cons in Hin as [->|Hin].
      * exists c1, k1. split; [done|]. split; [done|]. rewrite above_app. unfold above.
        rewrite (numbered_below n), (numbered_above (n + Z.of_nat (length (rev batch'))));
          [done|done|lia|done|lia].
      * destruct (IH [] c1 s1 s' (k1 + 1) k1) as (c' & k & Hp' & Hk & El); [|lia|done|constructor| |done|done|].
        { simpl. unfold k1. replace (n + _ - 1 + 1) with (n + Z.of_nat (length (rev batch'))) by lia. done. }
        { simpl. lia. }
        exists c', k. split; [done|]. split; [lia|]. rewrite above_app. unfold above at 1.
        rewrite (numbered_below n); [exact El|done|lia].
    + subst s1. apply list_elem_of_singleton in Hin as ->. exists c, k0. split; [done|]. split; [lia|].
      unfold above. rewrite (numbered_above n) by done.
      rewrite <- Erev. rewrite (batch_loop_refill size job ib batch (nr :: rows) [] c) by (rewrite ?app_nil_r; done).
      rewrite app_nil_r. cbn [batch_loop]. rewrite Ex.
      destruct (Z.leb_spec size (Z.of_nat (length (nr :: batch)))) as [_|?]; [|unfold batch' in Hfull; lia].
      unfold io_bind. fold batch'. by rewrite E.
Qed.

(** A single crash. *)
Lemma stream_resume size job fieldnames rows ib s s' : 1 ≤ size →
  killed size job fieldnames rows ib s s' →
  _stream size job fieldnames rows ib s' = _stream size job fieldnames rows ib s.
Proof.
  intros Hsize. unfold killed, stream_states, _stream.
  destruct (String.eqb (mode spec) "mutable"); [|by intros ?%elem_of_nil].
  destruct (_validate_header fieldnames) as [[]|]; [|by intros ?%elem_of_nil].
  cbn [negb andb is_ok]. set (all := dict_rows (default [] fieldnames) rows).
  destruct (ingest_progress job (is_store s)) as [p f k0] eqn:Ep. cbn [ip_records_processed ip_records_failed].
  intros Hin. unfold pending in Hin. cbn [ip_csv_row_number] in Hin.
  destruct (above_numbered k0 1 (enumerate_from 1 all) (numbered_enumerate 1 all)) as (n & Hn & Hnum).
  destruct (batch_states_resume size job ib (above k0 (enumerate_from 1 all)) [] (p, f) s s' n k0)
    as (c' & k & Hp & Hk & E); try done; [simpl; lia|].
  unfold io_bind, io_get, io_lift. rewrite Hp, Ep. cbn [ip_records_processed ip_records_failed].
  unfold pending. cbn [ip_csv_row_number]. simpl in E. rewrite above_above in E by done.
  rewrite <- surjective_pairing. exact E.
Qed.

(** ** Totals *)

(** DuckDB can store the values of a row, if it has any. *)
Definition storable (job : string) (nr : Z * csv_row) : Prop :=
  ∀ o v, _prepare_row job nr.1 nr.2 = Ok o → ro_values o = Some v → convert_row v = Ok tt.

(** What [_apply_batch] and the loop do to the state when nothing fails: [n] rows with numbers
    [ns] get their results, and the table grows by the rows that succeeded. *)
Definition ingested (job : string) (ns : list Z) (c c' : Z * Z) (s s' : ingest_state) : Prop :=
  is_table s ⊆ is_table s' ∧
  Z.of_nat (size (is_table s')) = Z.of_nat (size (is_table s)) + (c'.1 - c.1) ∧
  c'.1 + c'.2 = c.1 + c.2 + Z.of_nat (length ns) ∧
  (∀ j n, is_Some (st_row_results (is_store s') !! (j, n)) ↔
          is_Some (st_row_results (is_store s) !! (j, n)) ∨ (j = job ∧ n ∈ ns)).

Lemma ingested_app job ns1 ns2 c c1 c2 s s1 s2 :
  ingested job ns1 c c1 s s1 → ingested job ns2 c1 c2 s1 s2 → ingested job (ns1 ++ ns2) c c2 s s2.
Proof.
  intros (A1 & A2 & A3 & A4) (B1 & B2 & B3 & B4). split; [by etrans|]. split; [lia|].
  split; [rewrite length_app; lia|]. intros j n. rewrite B4, A4. set_solver.
Qed.

Lemma batch_storable job batch os :
  Forall (storable job) batch → res_map (λ nr, _prepare_row job nr.1 nr.2) batch = Ok os →
  Forall (λ o, ∀ v, ro_values o = Some v → convert_row v = Ok tt) os.
Proof.
  intros Hb. revert os. induction Hb as [|[n r] batch Hr _ IH]; intros os; simpl; [by intros [= <-]|].
  destruct (_prepare_row job n r) as [o|] eqn:E; simpl; [|done].
  destruct (res_map _ batch) as [os'|]; simpl; [|done]. intros [= <-].
  constructor; [|by apply IH]. intros v Hv. by apply (Hr o).
Qed.

Lemma check_storable table os (P : RowOutcome → Prop) :
  (∀ o, ro_values o = None → P o) → Forall P os → Forall P (check_duplicates table os).
Proof.
  intros HP. unfold check_duplicates. generalize (duplicate_ids (record_ids os)) as dups. intros dups H.
  induction H as [|o os Ho _ IH]; [constructor|]. simpl. constructor; [|done].
  destruct (ro_record_id o); [|done]. destruct (_ || _); [by apply HP|done].
Qed.

Lemma apply_batch_ok job ib batch c s :
  NoDup batch.*1 → Forall (storable job) batch →
  (∀ n, n ∈ batch.*1 → st_row_results (is_store s) !! (job, n) = None) →
  ∃ s' c', _apply_batch job ib batch c s = (s', Ok c') ∧ ingested job batch.*1 c c' s s'.
Proof.
  intros Hnd Hst Hfree. destruct (prepare_batch_ok job batch) as (os0 & Eos & Hwf0 & Hnum0).
  pose proof (batch_storable job batch os0 Hst Eos) as Hconv0.
  destruct (check_duplicates_wf (is_table s) os0 Hwf0) as [Hwf Hnum].
  pose proof (check_storable (is_table s) os0 (λ o, ∀ v, ro_values o = Some v → convert_row v = Ok tt)
    ltac:(intros; congruence) Hconv0) as Hconv.
  assert (record_ids (check_duplicates (is_table s) os0)
    = filter (λ i, i ∉ duplicate_ids (record_ids os0) ∧ is_table s !! i = None) (record_ids os0)) as Eids
    by exact (record_ids_checked (is_table s) (duplicate_ids (record_ids os0)) os0).
  unfold _apply_batch, io_bind at 1, io_lift. rewrite Eos.
  set (os := check_duplicates (is_table s) os0) in *. rewrite Hnum0 in Hnum.
  assert (NoDup (record_ids os)) as Hids by (rewrite Eids; apply NoDup_not_duplicate).
  assert (∀ i, i ∈ record_ids os → is_table s !! i = None) as Hnew.
  { intros i. rewrite Eids. intros [[_ ?] _]%list_elem_of_filter. done. }
  pose proof (insert_all_ok job os s ltac:(by rewrite Hnum) ltac:(by rewrite Hnum) Hids Hnew Hconv) as Hins.
  destruct (add_records_spec os (is_table s) Hwf Hids Hnew) as [Hsub Hsize].
  unfold io_bind at 1, io_get. fold os. unfold io_bind at 1, _commit_batch, transaction.
  unfold io_bind at 1. rewrite Hins, io_zoom_checkpoint. eexists _, _. split; [reflexivity|].
  unfold ingested. cbn [fst snd]. split; [exact Hsub|]. split.
  { etrans; [exact Hsize|]. lia. }
  split.
  { rewrite <- Hnum, length_fmap. lia. }
  intros j n. rewrite <- Hnum. apply (add_results_spec job os (st_row_results (is_store s)) j n).
Qed.

Lemma batch_loop_ok size job ib rows : ∀ batch c s,
  Forall (λ nr : Z * csv_row, cr_extra nr.2 = false) rows →
  NoDup (rev batch ++ rows).*1 → Forall (storable job) (rev batch ++ rows) →
  (∀ n, n ∈ (rev batch ++ rows).*1 → st_row_results (is_store s) !! (job, n) = None) →
  ∃ s' c', batch_loop size job ib rows batch c s = (s', Ok c') ∧
           ingested job (rev batch ++ rows).*1 c c' s s'.
Proof.
  induction rows as [|nr rows IH]; intros batch c s Hx Hnd Hst Hfree.
  - rewrite app_nil_r in *. cbn [batch_loop]. destruct batch as [|b batch]; [|by apply apply_batch_ok].
    exists s, c. split; [done|]. split; [done|]. simpl. split; [lia|]. split; [lia|]. set_solver.
  - inversion Hx as [|? ? Hx1 Hx2]; subst. cbn [batch_loop]. rewrite Hx1.
    assert (rev batch ++ nr :: rows = rev (nr :: batch) ++ rows) as Erev
      by (cbn [rev]; by rewrite <- app_assoc).
    rewrite Erev in *. set (batch' := nr :: batch) in *.
    destruct (size <=? Z.of_nat (length batch')); [|by apply IH].
    rewrite fmap_app in *. apply NoDup_app in Hnd as (Hnd1 & Hdis & Hnd2).
    apply Forall_app in Hst as [Hst1 Hst2].
    destruct (apply_batch_ok job ib (rev batch') c s) as (s1 & c1 & E1 & H1); [done|done|set_solver|].
    destruct (IH [] c1 s1) as (s2 & c2 & E2 & H2); [done|done|done| |].
    + intros n Hn. simpl in Hn. apply eq_None_not_Some. destruct H1 as (_ & _ & _ & H1). rewrite H1.
      intros [[? Hsome]|[_ Hn1]]; [|by apply (Hdis n)].
      rewrite Hfree in Hsome by set_solver. done.
    + exists s2, c2. unfold io_bind. rewrite E1. split; [done|]. by eapply ingested_app.
Qed.

(** C5: A killed ingest loses and repeats nothing. Kill the worker any number of times, each time
    after any batch it committed: a worker started in the state it left behaves exactly like one
    that was never killed, ending in the same table, row results and checkpoints, with the same
    counts or the same error. *)
Theorem ingest_resume size job fieldnames rows ib s s' : 1 ≤ size →
  rtc (killed size job fieldnames rows ib) s s' →
  _stream size job fieldnames rows ib s' = _stream size job fieldnames rows ib s.
Proof.
  intros Hsize. induction 1 as [s|s1 s2 s3 Hkill _ IH]; [done|]. rewrite IH. by apply stream_resume.
Qed.

(** An upload with a valid header and no surplus values is ingested completely: [_stream]
    raises nothing; its processed and failed counts add up to the number of rows; each row has
    exactly one durable result and no other row gets one; no stored record is lost or changed and
    the table grows by the processed rows (generated, given and colliding ids alike). *)
Theorem ingest_totals limit job fieldnames rows ib s :
  let all := dict_rows (default [] fieldnames) rows in
  mode spec = "mutable" → _validate_header fieldnames = Ok tt →
  Forall (λ r, cr_extra r = false) all → Forall (storable job) (enumerate_from 1 all) →
  ingest_progress job (is_store s) = mkProgress 0 0 0 →
  (∀ n, st_row_results (is_store s) !! (job, n) = None) →
  ∃ s' p f, _stream limit job fieldnames rows ib s = (s', Ok (p, f)) ∧
    p + f = Z.of_nat (length all) ∧
    is_table s ⊆ is_table s' ∧ Z.of_nat (size (is_table s')) = Z.of_nat (size (is_table s)) + p ∧
    (∀ j n, is_Some (st_row_results (is_store s') !! (j, n)) ↔
            is_Some (st_row_results (is_store s) !! (j, n)) ∨
            (j = job ∧ 1 ≤ n ≤ Z.of_nat (length all))).
Proof.
  intros all Hmode Hhead Hx Hst Hp Hfree. unfold _stream. rewrite Hmode.
  cbn [String.eqb Ascii.eqb Bool.eqb negb].
  unfold io_bind, io_get, io_lift. rewrite Hhead, Hp. fold all.
  unfold pending. cbn [ip_csv_row_number ip_records_processed ip_records_failed].
  rewrite (numbered_above 1) by (apply numbered_enumerate || lia).
  destruct (batch_loop_ok limit job ib (enumerate_from 1 all) [] (0, 0) s) as (s' & [p f] & E & H1 & H2 & H3 & H4).
  - apply Forall_forall. intros [n r] Hin. apply elem_of_enumerate_from in Hin as [_ Hin].
    rewrite Forall_forall in Hx. by apply Hx.
  - apply NoDup_enumerate_fst.
  - done.
  - done.
  - exists s', p, f. split; [done|]. simpl in H2, H3. rewrite length_fmap, length_enumerate_from in H3.
    split; [lia|]. split; [done|]. split; [lia|]. intros j n. rewrite H4. cbn [rev app].
    rewrite elem_of_enumerate_fst. split; (intros [?|[? ?]]; [by left|right; split; [done|lia]]).
Qed.
End Ingest.

(** A mutable object with a text, an integer and a flag; four rows in batches of two: a generated
    id, a bad integer, a colliding id and a short row. *)
Definition witness_mutable : DatasetSpec :=
  mkSpec "Note" [] "Id" (Some "IsDeleted") "mutable"
    [("Id", TString); ("Rank", TInteger); ("IsDeleted", TBool)] [] None [] None false false [].
Definition witness_upload : list (list string) :=
  [["7"; ""]; ["x"; "n2"]; []; ["8"; "n1"]; ["9"]].
Definition witness_ingest_state : ingest_state :=
  mkIngestState {["n1" := [VText "n1"; VInt 1; VBool false]]} empty_store.

Abbreviation witness_stream :=
  (_stream (λ _, raise ValueError "float") (λ _, raise ValueError "date") (λ _, raise ValueError "time")
     witness_mutable (λ _, Ok tt) 2 "750i" (Some ["Rank"; "Id"]) witness_upload 40).
Abbreviation witness_states :=
  (stream_states (λ _, raise ValueError "float") (λ _, raise ValueError "date") (λ _, raise ValueError "time")
     witness_mutable (λ _, Ok tt) 2 "750i" (Some ["Rank"; "Id"]) witness_upload 40).

Example witness_stream_counts :
  match witness_stream witness_ingest_state with
  | (_, Ok c) => c
  | _ => (-1, -1)
  end = (2, 2) ∧ length (witness_states witness_ingest_state) = 2%nat.
Proof. vm_compute. split; reflexivity. Qed.

Lemma ingest_resume_witness :
  ∃ s', head (witness_states witness_ingest_state) = Some s' ∧
        witness_stream s' = witness_stream witness_ingest_state.
Proof.
  destruct (witness_states witness_ingest_state) as [|s' l] eqn:E; [vm_compute in E; discriminate|].
  exists s'. split; [reflexivity|].
  apply (ingest_resume _ _ _ witness_mutable _ 2 "750i" (Some ["Rank"; "Id"]) witness_upload 40); [lia|].
  apply rtc_once. unfold killed. rewrite E. by left.
Defined.

Lemma ingest_totals_witness :
  ∃ s' p f, witness_stream witness_ingest_state = (s', Ok (p, f)) ∧ p + f = 4 ∧
    is_table witness_ingest_state ⊆ is_table s' ∧ Z.of_nat (size (is_table s')) = 1 + p.
Proof.
  destruct (ingest_totals (λ _, raise ValueError "float") (λ _, raise ValueError "date")
      (λ _, raise ValueError "time") witness_mutable (λ _, Ok tt)
      ltac:(by intros ? ? [= <-]) ltac:(by intros ? ? [= <-]) ltac:(by intros ? ? [= <-])
      2 "750i" (Some ["Rank"; "Id"]) witness_upload 40 witness_ingest_state)
    as (s' & p & f & E & H1 & H2 & H3 & _).
  - reflexivity.
  - vm_compute. reflexivity.
  - vm_compute. repeat constructor.
  - apply Forall_forall. intros nr _ o v _ _. reflexivity.
  - vm_compute. reflexivity.
  - intros n. apply lookup_empty.
  - exists s', p, f. split; [exact E|]. split; [exact H1|]. split; [exact H2|]. exact H3.
Defined.
