(* ===== verification/Planners.v ===== *)
(** * Ops planners: [simulator/ops.py], [simulator/fulfillment.py], [simulator/support.py]

    The events of one business date as functions of the events recorded so far, of what the Ops
    database already holds and of its next identifiers. Delays come from SHA-256 digests of the
    event ids. *)

From stdpp Require Import prelude gmap strings list sorting.
From Stdlib Require Import ZArith Lia Ascii Floats.SpecFloat.
From S2P Require Import Prelude PyText Dates Sha256 PyNum Policy Events.

Open Scope Z_scope.

(** A digest byte as a fraction of 255, compared with a rate. *)
Definition below_rate (byte : Z) (rate : f64) : bool := f64_ltb (f64_ratio byte 255) rate.

(** [enumerate(l)] added to a first identifier *)
Definition number_from {A} (first : Z) (l : list A) : list (Z * A) := enumerate_from first l.

(** [{"k": v, ...}] *)
Definition payload_of (kvs : list (string * pyval)) : payload_map := list_to_map kvs.

Definition is_type (ty : string) (e : SourceEvent) : bool := String.eqb (event_type e) ty.

(** Whether [event.business_date + timedelta(days=delay) <= run_date]. *)
Definition due (e : SourceEvent) (delay : Z) (run_date : date) : res bool :=
  let! d := add_days (business_date e) delay in Ok (d <=? run_date).

(** ** Orders *)

Definition closed_won (e : SourceEvent) : bool :=
  is_type "opportunity_stage_changed" e &&
  bool_decide (payload e !! "StageName" = Some (PStr "Closed Won")).

Definition _conversion_delay (p : SimulationPolicy) (e : SourceEvent) : Z * option string :=
  let text := "ops:" +:+ event_id e in
  let delay := window_delay (crm_to_ops p) (digest_byte text 0) in
  if below_rate (digest_byte text 1) (delayed_crm_to_ops (anomalies p))
  then (maximum (crm_to_ops p) + 1, Some "delayed_crm_to_ops") else (delay, None).

(** An eligible event with its delay and anomaly. *)
Definition eligible : Type := SourceEvent * (Z * option string).

Definition order_eligible (p : SimulationPolicy) (run_date : date) (converted : gset string)
    (e : SourceEvent) : res (option eligible) :=
  if negb (closed_won e) || bool_decide (entity_id e ∈ converted) then Ok None
  else
    let da := _conversion_delay p e in
    let! b := due e da.1 run_date in
    Ok (if b then Some (e, da) else None).

Definition account_of (e : SourceEvent) : string := to_str (default (PStr "") (payload e !! "AccountId")).

Definition account_ok (e : SourceEvent) : bool :=
  starts_with "001" (account_of e) && isdigit (str_drop 3 (account_of e)).

Definition make_order (run_date : date) (order_id customer_id : Z) (el : eligible) : SourceEvent :=
  create run_date ops "order_created" (str_of_Z order_id)
    (payload_of
       [("order_id", PInt order_id); ("customer_id", PInt customer_id);
        ("opportunity_ref", PStr (entity_id el.1)); ("order_date", PStr (isoformat run_date));
        ("status", PStr "PENDING"); ("sales_channel", PStr "DIRECT");
        ("crm_closed_won_date", PStr (isoformat (business_date el.1)));
        ("crm_to_ops_delay_days", PInt el.2.1)])
    None el.2.2.

Definition plan_order (run_date : date) (numbered : Z * eligible) : res (option SourceEvent) :=
  let el := numbered.2 in
  if account_ok el.1 then
    let! customer := to_int (PStr (str_drop 3 (account_of el.1))) in
    Ok (Some (make_order run_date numbered.1 customer el))
  else Ok None.

Definition sort_eligible : list eligible → list eligible := sort_on (λ el, event_id el.1).

(** [OpsDailyPlanner.plan] *)
Definition plan_orders (p : SimulationPolicy) (run_date : date) (crm_events : list SourceEvent)
    (converted : gset string) (next_order_id : Z) : res (list SourceEvent) :=
  let! els := res_omap (order_eligible p run_date converted) crm_events in
  res_omap (plan_order run_date) (number_from next_order_id (sort_eligible els)).

(** ** Fulfillment *)

Definition _shipment_delay (p : SimulationPolicy) (e : SourceEvent) : Z * option string :=
  let text := "shipment:" +:+ event_id e in
  let delay := window_delay (order_to_shipment p) (digest_byte text 0) in
  if below_rate (digest_byte text 1) (stalled_shipment (anomalies p))
  then (maximum (order_to_shipment p) + 3, Some "stalled_shipment") else (delay, None).

Definition _invoice_delay (p : SimulationPolicy) (e : SourceEvent) : Z :=
  window_delay (shipment_to_invoice p) (digest_byte ("invoice:" +:+ event_id e) 0).

Definition _delivery_delay (p : SimulationPolicy) (e : SourceEvent) : Z :=
  window_delay (shipment_to_delivery p) (digest_byte ("delivery:" +:+ event_id e) 0).

Definition shipment_eligible (p : SimulationPolicy) (run_date : date) (shipped : gset Z)
    (e : SourceEvent) : res (option eligible) :=
  if negb (is_type "order_created" e) then Ok None
  else
    let! order_id := payload_int e "order_id" in
    if bool_decide (order_id ∈ shipped) then Ok None
    else
      let da := _shipment_delay p e in
      let! b := due e da.1 run_date in
      Ok (if b then Some (e, da) else None).

Definition make_shipment (run_date : date) (numbered : Z * eligible) : res SourceEvent :=
  let el := numbered.2 in
  let! order_id := payload_int el.1 "order_id" in
  Ok (create run_date ops "shipment_created" (str_of_Z numbered.1)
    (payload_of
       [("shipment_id", PInt numbered.1); ("order_id", PInt order_id);
        ("order_created_date", PStr (isoformat (business_date el.1)));
        ("order_to_shipment_delay_days", PInt el.2.1)])
    None el.2.2).

Definition _shipments (p : SimulationPolicy) (run_date : date) (events : list SourceEvent)
    (shipped : gset Z) (next_shipment_id : Z) : res (list SourceEvent) :=
  let! els := res_omap (shipment_eligible p run_date shipped) events in
  res_map (make_shipment run_date) (number_from next_shipment_id (sort_eligible els)).

Definition shipments_among (events : list SourceEvent) : list SourceEvent :=
  sort_on event_id (filter (λ e, is_type "shipment_created" e = true) events).

Definition plan_invoice (p : SimulationPolicy) (run_date : date) (invoiced : gset Z)
    (shipment : SourceEvent) : res (option SourceEvent) :=
  let! order_id := payload_int shipment "order_id" in
  if bool_decide (order_id ∈ invoiced) then Ok None
  else
    let delay := _invoice_delay p shipment in
    let! b := due shipment delay run_date in
    if negb b then Ok None
    else
      let! shipment_id := payload_int shipment "shipment_id" in
      Ok (Some (create run_date ops "invoice_created" (str_of_Z order_id)
        (payload_of
           [("order_id", PInt order_id); ("shipment_id", PInt shipment_id);
            ("shipment_date", PStr (isoformat (business_date shipment)));
            ("shipment_to_invoice_delay_days", PInt delay)])
        None None)).

Definition _invoices (p : SimulationPolicy) (run_date : date) (existing new_shipments : list SourceEvent)
    (invoiced : gset Z) : res (list SourceEvent) :=
  res_omap (plan_invoice p run_date invoiced) (shipments_among (existing ++ new_shipments)).

Definition plan_delivery (p : SimulationPolicy) (run_date : date) (delivered : gset Z)
    (shipment : SourceEvent) : res (option SourceEvent) :=
  let! shipment_id := payload_int shipment "shipment_id" in
  if bool_decide (shipment_id ∈ delivered) then Ok None
  else
    let delay := _delivery_delay p shipment in
    let! b := due shipment delay run_date in
    if negb b then Ok None
    else
      let! order_id := payload_int shipment "order_id" in
      Ok (Some (create run_date ops "shipment_delivered" (str_of_Z shipment_id)
        (payload_of
           [("shipment_id", PInt shipment_id); ("order_id", PInt order_id);
            ("shipment_date", PStr (isoformat (business_date shipment)));
            ("shipment_to_delivery_delay_days", PInt delay)])
        None None)).

Definition _deliveries (p : SimulationPolicy) (run_date : date) (events : list SourceEvent)
    (delivered : gset Z) : res (list SourceEvent) :=
  res_omap (plan_delivery p run_date delivered) (shipments_among events).

(** [FulfillmentPlanner.plan] *)
Definition plan_fulfillment (p : SimulationPolicy) (run_date : date) (events : list SourceEvent)
    (shipped invoiced delivered : gset Z) (next_shipment_id : Z) : res (list SourceEvent) :=
  let! shipments := _shipments p run_date events shipped next_shipment_id in
  let! invoices := _invoices p run_date events shipments invoiced in
  let! deliveries := _deliveries p run_date (events ++ shipments) delivered in
  Ok (shipments ++ invoices ++ deliveries).

(** ** Support cases *)

Definition _opens_case (e : SourceEvent) : bool :=
  below_rate (digest_byte ("support:" +:+ event_id e) 0) (f64_literal 2 (-2)).
Definition _opening_delay (e : SourceEvent) : Z :=
  1 + digest_byte ("support-delay:" +:+ event_id e) 0 mod 7.
Definition _resolution_delay (e : SourceEvent) : Z :=
  1 + digest_byte ("support-resolution:" +:+ event_id e) 0 mod 3.
Definition _closure_delay (e : SourceEvent) : Z :=
  1 + digest_byte ("support-close:" +:+ event_id e) 0 mod 2.

(** [{int(event.payload[key]) for event in events if event.event_type == ty}] *)
Definition ids_of (ty key : string) (events : list SourceEvent) : res (list Z) :=
  res_map (λ e, payload_int e key) (filter (λ e, is_type ty e = true) events).

Definition opening_eligible (run_date : date) (opened : list Z) (e : SourceEvent)
    : res (option SourceEvent) :=
  if negb (is_type "shipment_delivered" e) then Ok None
  else
    let! shipment_id := payload_int e "shipment_id" in
    if bool_decide (shipment_id ∈ opened) then Ok None
    else if negb (_opens_case e) then Ok None
    else
      let! b := due e (_opening_delay e) run_date in
      Ok (if b then Some e else None).

Definition make_opening (run_date : date) (numbered : Z * SourceEvent) : res SourceEvent :=
  let delivery := numbered.2 in
  let! shipment_id := payload_int delivery "shipment_id" in
  let! order_id := payload_int delivery "order_id" in
  Ok (create run_date ops "support_case_opened" (str_of_Z numbered.1)
    (payload_of
       [("case_id", PInt numbered.1); ("shipment_id", PInt shipment_id);
        ("order_id", PInt order_id); ("priority", PStr "P3")])
    None None).

(** The next step of a case: [from] is the type of the event it follows. *)
Definition case_step (run_date : date) (from to : string) (delay : SourceEvent → Z) (done_ids : list Z)
    (e : SourceEvent) : res (option SourceEvent) :=
  if negb (is_type from e) then Ok None
  else
    let! case_id := payload_int e "case_id" in
    if bool_decide (case_id ∈ done_ids) then Ok None
    else
      let! b := due e (delay e) run_date in
      if negb b then Ok None
      else
        let! priority := payload_get e "priority" in
        Ok (Some (create run_date ops to (str_of_Z case_id)
          (payload_of [("case_id", PInt case_id); ("priority", priority)]) None None)).

(** [SupportCasePlanner.plan] *)
Definition plan_support (run_date : date) (events : list SourceEvent) (next_case_id : Z)
    : res (list SourceEvent) :=
  let! opened := ids_of "support_case_opened" "shipment_id" events in
  let! els := res_omap (opening_eligible run_date opened) events in
  let! openings := res_map (make_opening run_date) (number_from next_case_id (sort_on event_id els)) in
  let! resolved := ids_of "support_case_resolved" "case_id" events in
  let! resolutions := res_omap (case_step run_date "support_case_opened" "support_case_resolved"
                                  _resolution_delay resolved) (events ++ openings) in
  let! closed := ids_of "support_case_closed" "case_id" events in
  let! closures := res_omap (case_step run_date "support_case_resolved" "support_case_closed"
                               _closure_delay closed) events in
  Ok (openings ++ resolutions ++ closures).

(** ** Lemmas *)

Lemma due_spec e delay d b : due e delay d = Ok b → b = (business_date e + delay <=? d).
Proof. unfold due, add_days. destruct (_ && _); simpl; [|done]. by intros [= <-]. Qed.

Lemma due_past e delay d :
  1 ≤ business_date e + delay ≤ date_max → due e delay d = Ok (business_date e + delay <=? d).
Proof.
  intros H. unfold due, add_days. destruct (Z.leb_spec 1 (business_date e + delay)),
    (Z.leb_spec (business_date e + delay) date_max); done || lia.
Qed.

Lemma elem_of_sort_eligible el els : el ∈ sort_eligible els ↔ el ∈ els.
Proof. unfold sort_eligible. by rewrite elem_of_sort_on. Qed.

(** Numbering the elements of a list gives each result a number of its own. *)
Lemma res_omap_numbers {A B K} (f : Z * A → res (option B)) (key : B → K) (mk : Z → K) n l ys :
  (∀ a b, mk a = mk b → a = b) →
  (∀ k x y, f (k, x) = Ok (Some y) → key y = mk k) →
  res_omap f (number_from n l) = Ok ys →
  NoDup (key <$> ys) ∧ ∀ y, y ∈ ys → ∃ k, n ≤ k < n + Z.of_nat (length l) ∧ key y = mk k.
Proof.
  intros Hinj Hkey. unfold number_from. revert n ys.
  induction l as [|x l IH]; intros n ys; simpl.
  - intros [= <-]. split; [constructor|]. by intros y ?%elem_of_nil.
  - destruct (f (n, x)) as [o|] eqn:E; simpl; [|done].
    destruct (res_omap f (enumerate_from (n + 1) l)) as [zs|] eqn:Ez; simpl; [|done].
    destruct (IH (n + 1) zs Ez) as [H1 H2]. intros [= <-]. destruct o as [y|].
    + split.
      * simpl. constructor; [|done]. rewrite (Hkey n x y E). intros Hin.
        apply list_elem_of_fmap in Hin as (z & Hz & Hin). destruct (H2 z Hin) as (k & Hk & Ek).
        rewrite Ek in Hz. apply Hinj in Hz. lia.
      * intros y' [->|Hin]%elem_of_cons; [exists n; split; [lia|by eapply Hkey]|].
        destruct (H2 y' Hin) as (k & Hk & Ek). exists k. split; [lia|done].
    + split; [done|]. intros y' Hin. destruct (H2 y' Hin) as (k & Hk & Ek). exists k. split; [lia|done].
Qed.

Lemma elem_of_number_from {A} n (l : list A) x :
  x ∈ l → ∃ k, (k, x) ∈ number_from n l.
Proof.
  intros [i Hi]%list_elem_of_lookup. exists (n + Z.of_nat i).
  eapply list_elem_of_lookup_2. by apply enumerate_from_lookup.
Qed.

(** ** Orders *)

Lemma conversion_delay_sla p e : policy_wf p →
  let '(d, a) := _conversion_delay p e in
  (a = None ∧ minimum (crm_to_ops p) ≤ d ≤ maximum (crm_to_ops p)) ∨
  (a = Some "delayed_crm_to_ops" ∧ d = maximum (crm_to_ops p) + 1).
Proof.
  intros H. unfold _conversion_delay. destruct (below_rate _ _); [by right|left].
  split; [done|]. apply window_delay_range, H.
Qed.

Lemma order_eligible_spec p d converted e el :
  order_eligible p d converted e = Ok (Some el) →
  closed_won e = true ∧ entity_id e ∉ converted ∧ el = (e, _conversion_delay p e) ∧
  business_date e + (_conversion_delay p e).1 ≤ d.
Proof.
  unfold order_eligible. destruct (closed_won e); [|done]. cbn [negb orb].
  destruct (bool_decide (entity_id e ∈ converted)) eqn:Ec; [done|].
  apply bool_decide_eq_false in Ec. destruct (due e _ d) as [[]|] eqn:E; simpl; try done.
  intros [= <-]. apply due_spec in E. split_and!; try done. lia.
Qed.

Lemma order_eligible_complete p d converted e :
  is_ok (order_eligible p d converted e) = true →
  closed_won e = true → entity_id e ∉ converted →
  business_date e + (_conversion_delay p e).1 ≤ d →
  order_eligible p d converted e = Ok (Some (e, _conversion_delay p e)).
Proof.
  unfold order_eligible. intros Hok Hw Hc Hd. rewrite Hw in Hok |- *. cbn [negb orb] in *.
  rewrite (bool_decide_eq_false_2 _ Hc) in Hok |- *.
  destruct (due e _ d) as [b|] eqn:E; simpl in *; [|done]. apply due_spec in E as ->.
  by rewrite (proj2 (Z.leb_le _ _) Hd).
Qed.

Lemma plan_order_spec d k el o :
  plan_order d (k, el) = Ok (Some o) →
  account_ok el.1 = true ∧ ∃ c, to_int (PStr (str_drop 3 (account_of el.1))) = Ok c ∧ o = make_order d k c el.
Proof.
  unfold plan_order. cbn [fst snd]. destruct (account_ok el.1); [|done]. unfold res_bind.
  destruct (to_int _) as [c|]; [|done]. intros [= <-]. eauto.
Qed.

(** C35: Orders keep the CRM-to-Ops promise. Whenever planning a day succeeds, every order it creates
    comes from a closed-won opportunity that has no order yet, whose recorded delay has run out;
    that delay lies in the policy's window, except one day past it for the orders flagged as
    delayed; the order ids are distinct and not below the first free one; and every such opportunity
    whose delay has run out and that has a usable account gets an order. *)
Theorem ops_plan_sla p d crm_events converted next orders :
  policy_wf p → plan_orders p d crm_events converted next = Ok orders →
  (∀ o, o ∈ orders → ∃ e delay, e ∈ crm_events ∧ closed_won e = true ∧ entity_id e ∉ converted ∧
     business_date o = d ∧ event_type o = "order_created" ∧
     payload o !! "opportunity_ref" = Some (PStr (entity_id e)) ∧
     payload o !! "crm_to_ops_delay_days" = Some (PInt delay) ∧ business_date e + delay ≤ d ∧
     (anomaly_type o = None ∧ minimum (crm_to_ops p) ≤ delay ≤ maximum (crm_to_ops p) ∨
      anomaly_type o = Some "delayed_crm_to_ops" ∧ delay = maximum (crm_to_ops p) + 1)) ∧
  NoDup ((λ o, payload o !! "order_id") <$> orders) ∧
  (∀ o, o ∈ orders → ∃ k, next ≤ k ∧ payload o !! "order_id" = Some (PInt k)) ∧
  (∀ e, e ∈ crm_events → closed_won e = true → entity_id e ∉ converted → account_ok e = true →
     business_date e + (_conversion_delay p e).1 ≤ d →
     ∃ o, o ∈ orders ∧ payload o !! "opportunity_ref" = Some (PStr (entity_id e))).
Proof.
  intros Hp H. unfold plan_orders in H. inv_ok H.
  pose proof (res_omap_ok _ _ _ Hm) as [Hel Helok]. pose proof (res_omap_ok _ _ _ H) as [Ho Hook].
  destruct (res_omap_numbers (plan_order d) (λ o, payload o !! "order_id") (λ k, Some (PInt k))
              next (sort_eligible a) orders) as [Hnd Hnum]; [by intros ? ? [= ->]| |exact H|].
  { intros k el o (_ & c & _ & ->)%plan_order_spec. reflexivity. }
  split; [|split; [exact Hnd|split]].
  - intros o ([k el] & Hin & Hpo)%Ho. apply plan_order_spec in Hpo as (_ & c & _ & ->).
    apply elem_of_enumerate_from in Hin as [_ Hin]. apply elem_of_sort_eligible, Hel in Hin.
    destruct Hin as (e & He & Helig). apply order_eligible_spec in Helig as (H1 & H2 & -> & H3).
    pose proof (conversion_delay_sla p e Hp) as Hsla. exists e, (_conversion_delay p e).1.
    destruct (_conversion_delay p e) as [delay anomaly]. split_and!; try done.
  - intros o Hin. destruct (Hnum o Hin) as (k & Hk & Ek). exists k. split; [lia|done].
  - intros e He Hc Hconv Hacc Hd.
    assert ((e, _conversion_delay p e) ∈ a) as Hea.
    { apply Hel. exists e. split; [done|]. apply order_eligible_complete; try done. by apply Helok. }
    apply elem_of_sort_eligible, (elem_of_number_from next) in Hea as [k Hk].
    pose proof (Hook _ Hk) as Hkok. unfold plan_order in Hkok. cbn [fst snd] in Hkok. rewrite Hacc in Hkok.
    destruct (to_int (PStr (str_drop 3 (account_of e)))) as [c|] eqn:Ec; [|done].
    exists (make_order d k c (e, _conversion_delay p e)). split; [|reflexivity].
    apply Ho. eexists. split; [exact Hk|]. unfold plan_order. cbn [fst snd]. by rewrite Hacc, Ec.
Qed.

(** ** Replanning *)

(** What replanning reads: the events of the first attempt, those it recorded included, each once. *)
Definition replay_of (events es events' : list SourceEvent) : Prop :=
  NoDup (event_id <$> events') ∧ ∀ e, e ∈ events' ↔ e ∈ events ∨ e ∈ es.

Lemma res_omap_filter {A B} (f : A → res (option B)) (P : A → bool) l :
  (∀ x, P x = false → f x = Ok None) → res_omap f l = res_omap f (filter (λ x, P x = true) l).
Proof.
  intros Hf. induction l as [|x l IH]; [done|]. rewrite filter_cons. destruct (P x) eqn:E.
  - rewrite decide_True by done. cbn [res_omap]. by rewrite IH.
  - rewrite decide_False by done. cbn [res_omap]. rewrite Hf by done. rewrite <- IH. by destruct (res_omap f l).
Qed.

Lemma res_omap_Permutation {A B} (f : A → res (option B)) l l' ys :
  l ≡ₚ l' → res_omap f l = Ok ys → ∃ ys', res_omap f l' = Ok ys' ∧ ys ≡ₚ ys'.
Proof.
  intros Hp. revert ys. induction Hp as [|x l l' _ IH|x y l|l1 l2 l3 _ IH1 _ IH2]; intros ys; simpl.
  - intros [= <-]. by exists [].
  - destruct (f x) as [o|]; simpl; [|done]. destruct (res_omap f l) as [zs|]; simpl; [|done].
    destruct (IH zs eq_refl) as (zs' & -> & Hz). intros [= <-]. simpl. eexists. split; [done|].
    destruct o; [by constructor|done].
  - destruct (f y) as [o1|]; simpl; [|done]. destruct (f x) as [o2|]; simpl; [|done].
    destruct (res_omap f l) as [zs|]; simpl; [|done]. intros [= <-]. eexists. split; [done|].
    destruct o1, o2; done || constructor.
  - intros H. destruct (IH1 ys H) as (ys1 & H1 & Hp1). destruct (IH2 ys1 H1) as (ys2 & H2 & Hp2).
    exists ys2. split; [done|by etrans].
Qed.

(** Two lists of distinct events with the same elements of a type. *)
Lemma filter_replay (P : SourceEvent → bool) l l' :
  NoDup (event_id <$> l) → NoDup (event_id <$> l') →
  (∀ e, P e = true → e ∈ l' ↔ e ∈ l) →
  filter (λ e, P e = true) l ≡ₚ filter (λ e, P e = true) l'.
Proof.
  intros H1 H2 H. apply NoDup_Permutation.
  - apply NoDup_filter. by apply NoDup_fmap_1 in H1.
  - apply NoDup_filter. by apply NoDup_fmap_1 in H2.
  - intros e. rewrite !list_elem_of_filter. split; intros [? ?]; (split; [done|]); by apply H.
Qed.

Lemma shipment_eligible_other p d shipped e :
  is_type "order_created" e = false → shipment_eligible p d shipped e = Ok None.
Proof. unfold shipment_eligible. by intros ->. Qed.

Lemma shipment_eligible_fst p d shipped e el :
  shipment_eligible p d shipped e = Ok (Some el) → el.1 = e.
Proof.
  unfold shipment_eligible. destruct (is_type _ e); [|done]. cbn [negb]. unfold res_bind.
  destruct (payload_int e "order_id"); [|done]. destruct (bool_decide _); [done|].
  destruct (due _ _ _) as [[]|]; try done. by intros [= <-].
Qed.

Lemma res_omap_NoDup {A B} (f : A → res (option B)) (kA : A → string) (kB : B → string) l ys :
  (∀ x y, f x = Ok (Some y) → kB y = kA x) → res_omap f l = Ok ys →
  NoDup (kA <$> l) → NoDup (kB <$> ys).
Proof.
  intros Hk. revert ys. induction l as [|x l IH]; intros ys; simpl; [intros [= <-]; constructor|].
  destruct (f x) as [o|] eqn:E; simpl; [|done]. destruct (res_omap f l) as [zs|] eqn:Ez; simpl; [|done].
  intros [= <-] Hnd. inversion Hnd as [|? ? Hx Hnd']; subst. specialize (IH zs eq_refl Hnd').
  destruct o as [y|]; [|done]. simpl. constructor; [|done]. rewrite (Hk x y E).
  intros (z & Hz & Hin)%list_elem_of_fmap. apply Hx. apply res_omap_ok in Ez as [Ez _].
  apply Ez in Hin as (x' & Hx' & Hf). rewrite Hz, (Hk x' z Hf). by apply list_elem_of_fmap_2.
Qed.

(** Planning shipments looks at the order events only, in any order. *)
Lemma shipments_replay p d events events' shipped n ss :
  NoDup (event_id <$> events) → NoDup (event_id <$> events') →
  (∀ e, is_type "order_created" e = true → e ∈ events' ↔ e ∈ events) →
  _shipments p d events shipped n = Ok ss → _shipments p d events' shipped n = Ok ss.
Proof.
  intros H1 H2 Hsame H. unfold _shipments in *. inv_ok H.
  pose proof (λ l, res_omap_filter _ (is_type "order_created") l (shipment_eligible_other p d shipped)) as Hf.
  rewrite Hf in Hm |- *.
  pose proof (filter_replay (is_type "order_created") events events' H1 H2 Hsame) as Hp.
  destruct (res_omap_Permutation _ _ _ _ Hp Hm) as (a' & Ha' & Hpa).
  rewrite Ha'. cbn [res_bind]. 
  assert (sort_eligible a = sort_eligible a') as <-; [|done]. apply sort_on_Permutation; [done|].
  eapply (res_omap_NoDup _ event_id); [|exact Hm|].
  - intros e el Hel. by apply shipment_eligible_fst in Hel as ->.
  - eapply sublist_NoDup; [exact H1|]. apply fmap_sublist, sublist_filter.
Qed.

Lemma plan_invoice_type p d invoiced s o : plan_invoice p d invoiced s = Ok (Some o) →
  event_type o = "invoice_created" ∧ business_date o = d.
Proof.
  unfold plan_invoice, res_bind. destruct (payload_int s "order_id"); [|done].
  destruct (bool_decide _); [done|]. destruct (due _ _ _) as [[]|]; [|done|done]. simpl.
  destruct (payload_int s "shipment_id"); [|done]. by intros [= <-].
Qed.

Lemma plan_delivery_type p d delivered s o : plan_delivery p d delivered s = Ok (Some o) →
  event_type o = "shipment_delivered" ∧ business_date o = d.
Proof.
  unfold plan_delivery, res_bind. destruct (payload_int s "shipment_id"); [|done].
  destruct (bool_decide _); [done|]. destruct (due _ _ _) as [[]|]; [|done|done]. simpl.
  destruct (payload_int s "order_id"); [|done]. by intros [= <-].
Qed.

Lemma shipments_type p d events shipped n ss s :
  _shipments p d events shipped n = Ok ss → s ∈ ss → event_type s = "shipment_created" ∧ business_date s = d.
Proof.
  unfold _shipments. intros H Hs. inv_ok H. apply res_map_Forall2 in H.
  apply list_elem_of_lookup in Hs as [i Hi]. destruct (Forall2_lookup_r _ _ _ _ _ H Hi) as ([k el] & _ & E).
  unfold make_shipment, res_bind in E. destruct (payload_int _ _); [|done]. by injection E as <-.
Qed.

Lemma elem_of_shipments_among e l : e ∈ shipments_among l ↔ is_type "shipment_created" e = true ∧ e ∈ l.
Proof. unfold shipments_among. by rewrite elem_of_sort_on, list_elem_of_filter. Qed.

(** The parts of a fulfillment plan. *)
Lemma plan_fulfillment_ok p d events shipped invoiced delivered n es :
  plan_fulfillment p d events shipped invoiced delivered n = Ok es ↔
  ∃ ss iv ds, _shipments p d events shipped n = Ok ss ∧ _invoices p d events ss invoiced = Ok iv ∧
    _deliveries p d (events ++ ss) delivered = Ok ds ∧ es = ss ++ iv ++ ds.
Proof.
  unfold plan_fulfillment. rewrite res_bind_ok. setoid_rewrite res_bind_ok. setoid_rewrite res_bind_ok.
  split.
  - intros (ss & H1 & iv & H2 & ds & H3 & [= <-]). by exists ss, iv, ds.
  - intros (ss & iv & ds & H1 & H2 & H3 & ->). exists ss. split; [done|]. exists iv. split; [done|].
    by exists ds.
Qed.

(** Planning fulfillment again after a crash finds the same events. If an attempt planned and
    recorded the events [es] but died before they were applied, the next attempt, which reads the
    events back together with the older ones, in whatever order, and finds the Ops database
    unchanged, plans exactly the same events: recording them again adds nothing. *)
Theorem fulfillment_replan p d events events' shipped invoiced delivered n es :
  NoDup (event_id <$> events) → replay_of events es events' →
  plan_fulfillment p d events shipped invoiced delivered n = Ok es →
  ∃ es', plan_fulfillment p d events' shipped invoiced delivered n = Ok es' ∧ ∀ e, e ∈ es' ↔ e ∈ es.
Proof.
  intros Hnd [Hnd' Hsame] (ss & iv & ds & Hss & His & Hds & ->)%plan_fulfillment_ok.
  pose proof (λ s, shipments_type p d events shipped n ss s Hss) as Tss.
  pose proof His as Tis. apply res_omap_ok in Tis as [Tis _].
  pose proof Hds as Tds. apply res_omap_ok in Tds as [Tds _].
  assert (∀ e, e ∈ iv → event_type e = "invoice_created") as Tis'
    by (intros e (s & _ & Hs)%Tis; by apply plan_invoice_type in Hs as [? _]).
  assert (∀ e, e ∈ ds → event_type e = "shipment_delivered") as Tds'
    by (intros e (s & _ & Hs)%Tds; by apply plan_delivery_type in Hs as [? _]).
  assert (∀ e, e ∈ events' ↔ e ∈ events ∨ e ∈ ss ∨ e ∈ iv ∨ e ∈ ds) as Hev.
  { intros e. rewrite Hsame, !elem_of_app. done. }
  assert (∀ ty e, is_type ty e = true → event_type e = ty) as Hty by (intros ty e; apply String.eqb_eq).
  assert (_shipments p d events' shipped n = Ok ss) as Hss'.
  { apply (shipments_replay p d events); try done. intros e He%Hty. rewrite Hev. split; [|by left].
    intros [?|[H|[H|H]]]; [done|apply Tss in H as [H _]|apply Tis' in H|apply Tds' in H]; congruence. }
  assert (∀ l e, e ∈ shipments_among (events' ++ l) ↔
            is_type "shipment_created" e = true ∧ (e ∈ events ∨ e ∈ ss ∨ e ∈ l)) as Hship.
  { intros l e. rewrite elem_of_shipments_among, elem_of_app, Hev. split; [|tauto].
    intros [He Hin]. split; [done|]. apply Hty in He.
    destruct Hin as [[?|[?|[H|H]]]|?]; try tauto; [apply Tis' in H|apply Tds' in H]; congruence. }
  destruct (res_omap_same (plan_invoice p d invoiced) _ (shipments_among (events' ++ ss)) iv His)
    as (iv2 & Eis & Hsis).
  { intros e. rewrite Hship, elem_of_shipments_among, elem_of_app. tauto. }
  destruct (res_omap_same (plan_delivery p d delivered) _ (shipments_among (events' ++ ss)) ds Hds)
    as (ds' & Eds & Hsds).
  { intros e. rewrite Hship, elem_of_shipments_among, elem_of_app. tauto. }
  exists (ss ++ iv2 ++ ds'). split; [apply plan_fulfillment_ok; by exists ss, iv2, ds'|].
  intros e. rewrite !elem_of_app, Hsis, Hsds. done.
Qed.

(** ** Support cases *)

Lemma plan_support_ok d events n es :
  plan_support d events n = Ok es ↔
  ∃ opened els os resolved rs closed cs,
    ids_of "support_case_opened" "shipment_id" events = Ok opened ∧
    res_omap (opening_eligible d opened) events = Ok els ∧
    res_map (make_opening d) (number_from n (sort_on event_id els)) = Ok os ∧
    ids_of "support_case_resolved" "case_id" events = Ok resolved ∧
    res_omap (case_step d "support_case_opened" "support_case_resolved" _resolution_delay resolved)
      (events ++ os) = Ok rs ∧
    ids_of "support_case_closed" "case_id" events = Ok closed ∧
    res_omap (case_step d "support_case_resolved" "support_case_closed" _closure_delay closed) events = Ok cs ∧
    es = os ++ rs ++ cs.
Proof.
  unfold plan_support. split.
  - intros H. do 7 inv_ok H. injection H as <-. by eexists _, _, _, _, _, _, _.
  - intros (opened & els & os & resolved & rs & closed & cs & H1 & H2 & H3 & H4 & H5 & H6 & H7 & ->).
    rewrite H1. cbn [res_bind]. rewrite H2. cbn [res_bind]. rewrite H3. cbn [res_bind]. rewrite H4. cbn [res_bind].
    rewrite H5. cbn [res_bind]. rewrite H6. cbn [res_bind]. by rewrite H7.
Qed.

Lemma is_type_spec ty e : is_type ty e = true ↔ event_type e = ty.
Proof. apply String.eqb_eq. Qed.

Lemma ids_of_ok ty key events ids :
  ids_of ty key events = Ok ids →
  (∀ i, i ∈ ids ↔ ∃ e, e ∈ events ∧ event_type e = ty ∧ payload_int e key = Ok i) ∧
  (∀ e, e ∈ events → event_type e = ty → is_ok (payload_int e key) = true).
Proof.
  unfold ids_of. intros H%res_map_Forall2. split.
  - intros i. split.
    + intros [k Hk]%list_elem_of_lookup. destruct (Forall2_lookup_r _ _ _ _ _ H Hk) as (e & He & E).
      apply list_elem_of_lookup_2, list_elem_of_filter in He as [Ht He]. exists e.
      by rewrite is_type_spec in Ht.
    + intros (e & He & Ht & E). apply is_type_spec in Ht.
      assert (e ∈ filter (λ e, is_type ty e = true) events) as [k Hk]%list_elem_of_lookup
        by by apply list_elem_of_filter.
      destruct (Forall2_lookup_l _ _ _ _ _ H Hk) as (j & Hj & Ej). rewrite E in Ej. injection Ej as ->.
      by apply list_elem_of_lookup_2 in Hj.
  - intros e He Ht. apply is_type_spec in Ht.
    assert (e ∈ filter (λ e, is_type ty e = true) events) as [k Hk]%list_elem_of_lookup
      by by apply list_elem_of_filter.
    destruct (Forall2_lookup_l _ _ _ _ _ H Hk) as (j & Hj & ->). done.
Qed.

Lemma ids_of_total ty key events :
  (∀ e, e ∈ events → event_type e = ty → is_ok (payload_int e key) = true) →
  ∃ ids, ids_of ty key events = Ok ids.
Proof.
  intros H. unfold ids_of. induction events as [|e events IH]; [by exists []|].
  rewrite filter_cons. destruct IH as [ids IH]; [set_solver|]. case_decide as Ht; [|by exists ids].
  apply is_type_spec in Ht. specialize (H e ltac:(set_solver) Ht).
  destruct (payload_int e key) as [i|] eqn:E; [|done]. exists (i :: ids). cbn [res_map]. rewrite E. simpl.
  by rewrite IH.
Qed.

Lemma res_omap_nil {A B} (f : A → res (option B)) l :
  (∀ x, x ∈ l → f x = Ok None) → res_omap f l = Ok [].
Proof.
  induction l as [|x l IH]; intros Hf; [done|]. cbn [res_omap]. rewrite Hf by set_solver. simpl.
  rewrite IH by set_solver. done.
Qed.

(** What an opening and a case step look like. *)
Lemma opening_spec d k del o :
  make_opening d (k, del) = Ok o →
  event_type o = "support_case_opened" ∧ business_date o = d ∧ payload_int o "case_id" = Ok k ∧
  payload_int o "shipment_id" = payload_int del "shipment_id" ∧
  is_ok (payload_int del "shipment_id") = true ∧ is_ok (payload_get o "priority") = true.
Proof.
  unfold make_opening. cbn [fst snd]. destruct (payload_int del "shipment_id") as [sid|]; [|done].
  cbn [res_bind]. destruct (payload_int del "order_id"); [|done]. by intros [= <-].
Qed.

Lemma case_step_spec d ty ty' delay ids e o :
  case_step d ty ty' delay ids e = Ok (Some o) →
  event_type e = ty ∧ event_type o = ty' ∧ business_date o = d ∧
  ∃ i, payload_int e "case_id" = Ok i ∧ payload_int o "case_id" = Ok i ∧ i ∉ ids ∧
       business_date e + delay e ≤ d.
Proof.
  unfold case_step. destruct (is_type ty e) eqn:Et; [|done]. apply is_type_spec in Et. cbn [negb].
  destruct (payload_int e "case_id") as [i|] eqn:Ei; [|done]. cbn [res_bind].
  destruct (bool_decide (i ∈ ids)) eqn:Eb; [done|]. apply bool_decide_eq_false in Eb.
  destruct (due e (delay e) d) as [[]|] eqn:Ed; [|done|done]. cbn [res_bind negb].
  destruct (payload_get e "priority"); [|done]. cbn [res_bind]. intros [= <-].
  apply due_spec in Ed. split_and!; try done. exists i. split_and!; try done. lia.
Qed.

(** A step that is not produced stays out when more ids are known. *)
Lemma case_step_none d ty ty' delay ids ids' e :
  is_ok (case_step d ty ty' delay ids e) = true →
  (∀ i, i ∈ ids → i ∈ ids') →
  (∀ o i, case_step d ty ty' delay ids e = Ok (Some o) → payload_int o "case_id" = Ok i → i ∈ ids') →
  case_step d ty ty' delay ids' e = Ok None.
Proof.
  intros Hok Hids Hstep. pose proof (case_step_spec d ty ty' delay ids e) as Hspec.
  unfold case_step in *. destruct (is_type ty e); [|done]. cbn [negb] in *.
  destruct (payload_int e "case_id") as [i|]; [|done]. cbn [res_bind] in *.
  destruct (decide (i ∈ ids)) as [Hin|Hin].
  { by rewrite bool_decide_eq_true_2 by by apply Hids. }
  rewrite bool_decide_eq_false_2 in Hok, Hspec, Hstep by done.
  destruct (due e (delay e) d) as [b|]; [|done]. cbn [res_bind] in *. destruct b; cbn [negb] in *.
  - destruct (payload_get e "priority"); [|done]. cbn [res_bind] in *.
    edestruct Hspec as (_ & _ & _ & i' & [= <-] & Ho & _); [done|].
    by rewrite bool_decide_eq_true_2 by by eapply Hstep.
  - by destruct (bool_decide (i ∈ ids')).
Qed.

Lemma opening_eligible_spec d opened e x :
  opening_eligible d opened e = Ok (Some x) → x = e ∧ event_type e = "shipment_delivered" ∧
  ∃ i, payload_int e "shipment_id" = Ok i ∧ i ∉ opened.
Proof.
  unfold opening_eligible. destruct (is_type _ e) eqn:Et; [|done]. apply is_type_spec in Et. cbn [negb].
  destruct (payload_int e "shipment_id") as [i|]; [|done]. cbn [res_bind].
  destruct (bool_decide (i ∈ opened)) eqn:Eb; [done|]. apply bool_decide_eq_false in Eb.
  destruct (_opens_case e); [|done]. cbn [negb]. destruct (due _ _ _) as [[]|]; try done.
  intros [= <-]. eauto.
Qed.

Lemma opening_eligible_none d opened opened' e :
  is_ok (opening_eligible d opened e) = true →
  (∀ i, i ∈ opened → i ∈ opened') →
  (∀ i, opening_eligible d opened e = Ok (Some e) → payload_int e "shipment_id" = Ok i → i ∈ opened') →
  opening_eligible d opened' e = Ok None.
Proof.
  unfold opening_eligible. intros Hok Hids Hstep. destruct (is_type _ e); [|done]. cbn [negb] in *.
  destruct (payload_int e "shipment_id") as [i|]; [|done]. cbn [res_bind] in *.
  destruct (decide (i ∈ opened)) as [Hin|Hin].
  { by rewrite bool_decide_eq_true_2 by by apply Hids. }
  rewrite bool_decide_eq_false_2 in Hok, Hstep by done.
  destruct (_opens_case e); cbn [negb] in *; [|by destruct (bool_decide _)].
  destruct (due _ _ _) as [[]|]; [| |done]; cbn [res_bind] in *; [|by destruct (bool_decide _)].
  by rewrite bool_decide_eq_true_2 by by apply Hstep.
Qed.

Lemma opening_of d n els os e :
  res_map (make_opening d) (number_from n (sort_on event_id els)) = Ok os → e ∈ els →
  ∃ k o, o ∈ os ∧ make_opening d (k, e) = Ok o.
Proof.
  intros H%res_map_Forall2 He. apply (elem_of_sort_on event_id), (elem_of_number_from n) in He as [k Hk].
  apply list_elem_of_lookup in Hk as [j Hj]. destruct (Forall2_lookup_l _ _ _ _ _ H Hj) as (o & Ho & E).
  exists k, o. split; [by eapply list_elem_of_lookup_2|done].
Qed.

Lemma openings_spec d n els os o :
  res_map (make_opening d) (number_from n (sort_on event_id els)) = Ok os → o ∈ os →
  ∃ k e, e ∈ els ∧ make_opening d (k, e) = Ok o.
Proof.
  intros H%res_map_Forall2 [i Hi]%list_elem_of_lookup.
  destruct (Forall2_lookup_r _ _ _ _ _ H Hi) as ([k e] & He & E). exists k, e. split; [|done].
  apply list_elem_of_lookup_2, elem_of_enumerate_from in He as [_ He]. by apply elem_of_sort_on in He.
Qed.

(** A closure is never due on the day of its resolution. *)
Lemma closure_later d e ids :
  1 ≤ d → d + 2 ≤ date_max → business_date e = d → is_ok (payload_int e "case_id") = true →
  case_step d "support_case_resolved" "support_case_closed" _closure_delay ids e = Ok None.
Proof.
  intros Hd1 Hd2 Hd Hok. unfold case_step. destruct (is_type _ e); [|done]. cbn [negb].
  destruct (payload_int e "case_id") as [i|]; [|done]. cbn [res_bind]. destruct (bool_decide _); [done|].
  assert (1 ≤ _closure_delay e ≤ 2) as Hdelay.
  { unfold _closure_delay. pose proof (Z.mod_pos_bound
      (digest_byte ("support-close:" +:+ event_id e) 0) 2 ltac:(lia)). lia. }
  rewrite due_past by (rewrite Hd; lia). cbn [res_bind].
  by rewrite (proj2 (Z.leb_gt _ _)) by (rewrite Hd; lia).
Qed.

(** Support planning is done once a day. If an attempt planned and recorded all the support
    events of a day but died before they were applied, the next attempt, which reads them back with
    the older events, plans nothing more, whatever the next case id is by then: every case due was
    opened, resolved or closed already, and a case never closes on the day it is resolved. *)
Theorem support_replan d events events' n n' es :
  1 ≤ d → d + 2 ≤ date_max → replay_of events es events' →
  plan_support d events n = Ok es → plan_support d events' n' = Ok [].
Proof.
  intros Hd1 Hd2 [_ Hsame]
    (opened & els & os & resolved & rs & closed & cs & E1 & E2 & E3 & E4 & E5 & E6 & E7 & ->)%plan_support_ok.
  pose proof (λ o, openings_spec d n els os o E3) as Hos.
  destruct (res_omap_ok _ _ _ E2) as [Hels Hok2]. destruct (res_omap_ok _ _ _ E5) as [Hrs Hok5].
  destruct (res_omap_ok _ _ _ E7) as [Hcs Hok7].
  assert (∀ o, o ∈ os → event_type o = "support_case_opened" ∧ is_ok (payload_int o "case_id") = true ∧
            is_ok (payload_int o "shipment_id") = true) as Tos.
  { intros o (k & e & _ & (H1 & _ & H2 & H3 & H4 & _)%opening_spec)%Hos. rewrite H2, H3. done. }
  assert (∀ o, o ∈ rs → event_type o = "support_case_resolved" ∧ business_date o = d ∧
            is_ok (payload_int o "case_id") = true) as Trs.
  { intros o (e & _ & (_ & H1 & H2 & i & _ & H3 & _)%case_step_spec)%Hrs. by rewrite H3. }
  assert (∀ o, o ∈ cs → event_type o = "support_case_closed" ∧ is_ok (payload_int o "case_id") = true) as Tcs.
  { intros o (e & _ & (_ & H1 & _ & i & _ & H3 & _)%case_step_spec)%Hcs. by rewrite H3. }
  assert (∀ e, e ∈ events' ↔ e ∈ events ∨ e ∈ os ∨ e ∈ rs ∨ e ∈ cs) as Hev
    by (intros e; rewrite Hsame, !elem_of_app; tauto).
  destruct (ids_of_ok _ _ _ _ E1) as [I1 K1]. destruct (ids_of_ok _ _ _ _ E4) as [I4 K4].
  destruct (ids_of_ok _ _ _ _ E6) as [I6 K6].
  destruct (ids_of_total "support_case_opened" "shipment_id" events') as [opened' F1].
  { intros e [He|[He|[He|He]]]%Hev Ht; [by apply K1|by apply Tos in He as (_ & _ & ?)|..];
      [apply Trs in He as [He _]|apply Tcs in He as [He _]]; congruence. }
  destruct (ids_of_total "support_case_resolved" "case_id" events') as [resolved' F4].
  { intros e [He|[He|[He|He]]]%Hev Ht; [by apply K4| |by apply Trs in He as (_ & _ & ?)|];
      [apply Tos in He as [He _]|apply Tcs in He as [He _]]; congruence. }
  destruct (ids_of_total "support_case_closed" "case_id" events') as [closed' F6].
  { intros e [He|[He|[He|He]]]%Hev Ht; [by apply K6| | |by apply Tcs in He as (_ & ?)];
      [apply Tos in He as [He _]|apply Trs in He as [He _]]; congruence. }
  destruct (ids_of_ok _ _ _ _ F1) as [J1 _]. destruct (ids_of_ok _ _ _ _ F4) as [J4 _].
  destruct (ids_of_ok _ _ _ _ F6) as [J6 _].
  apply plan_support_ok. exists opened', [], [], resolved', [], closed', []. split_and!; try done.
  - apply res_omap_nil. intros e [He|He]%Hev.
    + apply (opening_eligible_none d opened); [by apply Hok2| |].
      * intros i (e' & He' & H)%I1. apply J1. exists e'. rewrite Hev. eauto.
      * intros i Hel Hi. assert (e ∈ els) as Hin by (apply Hels; eauto).
        destruct (opening_of d n els os e E3 Hin) as (k & o & Ho & (H1 & _ & _ & H2 & _)%opening_spec).
        apply J1. exists o. rewrite Hev, H2. auto.
    + unfold opening_eligible. destruct (is_type "shipment_delivered" e) eqn:Et; [|done]. exfalso.
      apply is_type_spec in Et. destruct He as [He|[He|He]];
        [apply Tos in He as [He _]|apply Trs in He as [He _]|apply Tcs in He as [He _]]; congruence.
  - rewrite app_nil_r. apply res_omap_nil. intros e He%Hev.
    destruct (is_type "support_case_opened" e) eqn:Et; [|unfold case_step; by rewrite Et].
    apply is_type_spec in Et. assert (e ∈ events ++ os) as Hin.
    { rewrite elem_of_app. destruct He as [?|[?|[He|He]]]; [by left|by right|..];
        [apply Trs in He as [He _]|apply Tcs in He as [He _]]; congruence. }
    apply (case_step_none d _ _ _ resolved); [by apply Hok5| |].
    + intros i (e' & He' & H)%I4. apply J4. exists e'. rewrite Hev. eauto.
    + intros o i Ho Hi. assert (o ∈ rs) as Hors by (apply Hrs; eauto).
      apply J4. exists o. rewrite Hev. destruct (Trs o Hors) as [? _]. auto.
  - apply res_omap_nil. intros e [He|[He|[He|He]]]%Hev.
    + apply (case_step_none d _ _ _ closed); [by apply Hok7| |].
      * intros i (e' & He' & H)%I6. apply J6. exists e'. rewrite Hev. eauto.
      * intros o i Ho Hi. assert (o ∈ cs) as Hocs by (apply Hcs; eauto).
        apply J6. exists o. rewrite Hev. destruct (Tcs o Hocs) as [? _]. auto 6.
    + unfold case_step. destruct (is_type "support_case_resolved" e) eqn:Et; [|done].
      apply is_type_spec in Et. apply Tos in He as [He _]. congruence.
    + apply Trs in He as (_ & ? & ?). by apply closure_later.
    + unfold case_step. destruct (is_type "support_case_resolved" e) eqn:Et; [|done].
      apply is_type_spec in Et. apply Tcs in He as [He _]. congruence.
Qed.

(** The first two events of a plan that are openings come from its openings. *)
Lemma case_prefix d els n os resolved rs closed cs events o1 o2 rest :
  res_map (make_opening d) (number_from n (sort_on event_id els)) = Ok os →
  res_omap (case_step d "support_case_opened" "support_case_resolved" _resolution_delay resolved)
    (events ++ os) = Ok rs →
  res_omap (case_step d "support_case_resolved" "support_case_closed" _closure_delay closed) events = Ok cs →
  o1 :: o2 :: rest = os ++ rs ++ cs →
  event_type o1 = "support_case_opened" → event_type o2 = "support_case_opened" →
  ∃ os2, os = o1 :: o2 :: os2.
Proof.
  intros _ [Hrs _]%res_omap_ok [Hcs _]%res_omap_ok E T1 T2.
  assert (∀ o, o ∈ rs ++ cs → event_type o ≠ "support_case_opened") as H.
  { intros o [(e & _ & (_ & -> & _)%case_step_spec)%Hrs|(e & _ & (_ & -> & _)%case_step_spec)%Hcs]%elem_of_app; done. }
  destruct os as [|x [|y os2]]; cbn [app] in E.
  - exfalso. apply (H o1); [rewrite <- E; set_solver|done].
  - injection E as <- E. exfalso. apply (H o2); [rewrite <- E; set_solver|done].
  - injection E as <- <- _. by exists os2.
Qed.

(** Recording is not atomic, and support case ids pay for it. If a day opens two cases or more
    and the process dies when only the first opening is recorded, the next attempt, for which the
    database still offers the same first case id, gives that id to the case of another shipment. *)
Theorem support_partial_record_reuses_id d events events' n o1 o2 rest es' i1 i2 :
  plan_support d events n = Ok (o1 :: o2 :: rest) →
  event_type o1 = "support_case_opened" → event_type o2 = "support_case_opened" →
  payload_int o1 "shipment_id" = Ok i1 → payload_int o2 "shipment_id" = Ok i2 → i1 ≠ i2 →
  (∀ e, e ∈ events' ↔ e ∈ events ∨ e = o1) →
  plan_support d events' n = Ok es' →
  ∃ o i, o ∈ es' ∧ event_type o = "support_case_opened" ∧
    payload_int o "case_id" = payload_int o1 "case_id" ∧
    payload_int o "shipment_id" = Ok i ∧ i ≠ i1.
Proof.
  intros (opened & els & os & resolved & rs & closed & cs & E1 & E2 & E3 & E4 & E5 & E6 & E7 & Ees)%plan_support_ok
    T1 T2 S1 S2 Hne Hsame
    (opened' & els' & os' & resolved' & rs' & closed' & cs' & F1 & F2 & F3 & _ & _ & _ & _ & ->)%plan_support_ok.
  destruct (res_omap_ok _ _ _ E2) as [Hels _]. destruct (res_omap_ok _ _ _ F2) as [Hels' Hok2].
  destruct (ids_of_ok _ _ _ _ E1) as [I1 _]. destruct (ids_of_ok _ _ _ _ F1) as [J1 _].
  destruct (case_prefix d els n os resolved rs closed cs events o1 o2 rest E3 E5 E7 Ees T1 T2) as (os2 & ->).
  pose proof E3 as E3'. unfold number_from in E3. apply res_map_Forall2 in E3.
  destruct (sort_on event_id els) as [|e1 sorted] eqn:Es; [by inversion E3|]. cbn [enumerate_from] in E3.
  inversion E3 as [|? ? ? ? M1 M2]; subst.
  destruct (opening_spec d n e1 o1 M1) as (_ & _ & C1 & _).
  rewrite <- Es in E3'. destruct (openings_spec d n els _ o2 E3' ltac:(set_solver)) as (k & e2 & He2 & M3).
  destruct (opening_spec d k e2 o2 M3) as (_ & _ & _ & Q2 & _ & _).
  apply Hels in He2 as (x & Hx & Hx2). destruct (opening_eligible_spec d opened x e2 Hx2) as (-> & Hty & i & Hi & Hni).
  rewrite Q2, Hi in S2. injection S2 as ->.
  assert (i2 ∉ opened') as Hni'.
  { intros (e & [He| ->]%Hsame & Ht & Hp)%J1; [apply Hni, I1; eauto|]. congruence. }
  assert (x ∈ els') as Hx'.
  { apply Hels'. exists x. rewrite Hsame. split; [by left|]. revert Hx2. unfold opening_eligible.
    rewrite Hi. cbn [res_bind]. by rewrite !bool_decide_eq_false_2. }
  destruct (sort_on event_id els') as [|y sorted'] eqn:Es'.
  { apply (elem_of_sort_on event_id) in Hx'. rewrite Es' in Hx'. by apply elem_of_nil in Hx'. }
  unfold number_from in F3. apply res_map_Forall2 in F3. cbn [enumerate_from] in F3.
  inversion F3 as [|? o ? ? M1' _]; subst.
  destruct (opening_spec d n y o M1') as (Ty & _ & Cy & Qy & _ & _).
  assert (y ∈ els') as Hy by (apply (elem_of_sort_on event_id); rewrite Es'; set_solver).
  apply Hels' in Hy as (y' & Hy' & Ey). apply opening_eligible_spec in Ey as (-> & _ & iy & Hiy & Hnotin).
  exists o, iy. split_and!; [set_solver|done|congruence|congruence|]. intros ->. apply Hnotin, J1.
  exists o1. rewrite Hsame. auto.
Qed.

(** ** Concrete plans *)

Definition witness_won (id opportunity account : string) : SourceEvent :=
  mkEvent id 739000 crm "opportunity_stage_changed" opportunity
    (payload_of [("StageName", PStr "Closed Won"); ("AccountId", PStr account)]) 739000 None.

Lemma ops_plan_sla_witness :
  ∃ orders, plan_orders default_policy 739004 [witness_won "e1" "006a" "00112"; witness_won "e2" "006b" "00113"]
              {["006b"]} 50 = Ok orders ∧
    ∃ o, o ∈ orders ∧ payload o !! "opportunity_ref" = Some (PStr "006a").
Proof.
  destruct (plan_orders default_policy 739004 [witness_won "e1" "006a" "00112"; witness_won "e2" "006b" "00113"]
              {["006b"]} 50) as [orders|] eqn:E; [|vm_compute in E; discriminate].
  exists orders. split; [reflexivity|].
  destruct (ops_plan_sla _ _ _ _ _ _ default_policy_wf E) as (_ & _ & _ & H).
  apply (H (witness_won "e1" "006a" "00112")).
  - apply list_elem_of_here.
  - vm_compute. reflexivity.
  - apply (bool_decide_unpack _). vm_compute. exact I.
  - vm_compute. reflexivity.
  - vm_compute. discriminate.
Defined.

Definition witness_order (id : string) (order_id : Z) (d : date) : SourceEvent :=
  mkEvent id d ops "order_created" (str_of_Z order_id) (payload_of [("order_id", PInt order_id)]) d None.

Definition witness_fulfillment (events : list SourceEvent) : res (list SourceEvent) :=
  plan_fulfillment default_policy 739010 events ∅ ∅ ∅ 7.

Lemma fulfillment_replan_witness :
  ∃ es, witness_fulfillment [witness_order "a" 1 739000; witness_order "b" 2 739001] = Ok es ∧
    length es = 2%nat ∧
    ∃ es', witness_fulfillment (es ++ [witness_order "a" 1 739000; witness_order "b" 2 739001]) = Ok es' ∧
           ∀ e, e ∈ es' ↔ e ∈ es.
Proof.
  destruct (witness_fulfillment [witness_order "a" 1 739000; witness_order "b" 2 739001]) as [es|] eqn:E;
    [|vm_compute in E; discriminate].
  exists es. split; [reflexivity|]. split; [vm_compute in E; injection E as <-; reflexivity|].
  apply (fulfillment_replan default_policy 739010 [witness_order "a" 1 739000; witness_order "b" 2 739001]).
  - apply (bool_decide_unpack _). vm_compute. exact I.
  - split; [|intros e; rewrite elem_of_app; tauto].
    vm_compute in E. injection E as <-. apply (bool_decide_unpack _). vm_compute. exact I.
  - exact E.
Defined.

