(* ===== verification/OpsApply.v ===== *)
(** * Applying Ops events: [simulator/ops_apply.py]

    The Ops database as the tables and constraints the applier touches ([src/sql]), and the applier
    as a computation over it. The caller owns the transaction. Timestamps are microseconds, amounts
    are in the scale of their [NUMERIC] columns. *)

From stdpp Require Import prelude gmap strings list sorting.
From Stdlib Require Import ZArith Lia Ascii.
From S2P Require Import Prelude PyText Dates PyNum Policy Events Planners.

Open Scope Z_scope.

(** ** Tables *)

Definition timestamp : Type := Z.

Definition microseconds_per_hour : Z := 3600 * 1000000.

(** [f"{d.isoformat()} HH:00:00"] in a timestamp column *)
Definition at_hour (d : date) (h : Z) : timestamp := (d * 24 + h) * microseconds_per_hour.
(** [t + timedelta(days=n)] *)
Definition after_days (t : timestamp) (n : Z) : timestamp := t + n * 24 * microseconds_per_hour.

Record customer := mkCustomer {
  cu_account_number : string; cu_company_code : string; cu_created_at : timestamp }.

Record order := mkOrder {
  o_customer_id : Z;
  o_opportunity_ref : option pyval;
  o_order_date : date;
  o_requested_delivery_date : date;
  o_currency_code : string;
  o_status : string;
  o_updated_at : timestamp }.

Record order_line := mkLine { l_order_id : Z; l_product_id : Z; l_line_amount : Z; l_unit_cost : Z }.

Record shipment := mkShipment {
  sh_order_id : Z;
  sh_warehouse : string;
  sh_carrier : string;
  sh_ship_date : date;
  sh_promised_delivery_date : date;
  sh_delivered_date : option date;
  sh_tracking : string;
  sh_updated_at : timestamp }.

Record invoice := mkInvoice {
  in_number : string;
  in_order_id : Z;
  in_date : date;
  in_currency_code : string;
  in_amount : Z;
  in_status : string }.

Record support_case := mkCase {
  c_customer_id : Z;
  c_priority : pyval;
  c_opened_at : timestamp;
  c_resolution_hours : option f64;
  c_status : string;
  c_updated_at : timestamp }.

(** A row of a status history table. *)
Record history := mkHistory {
  h_entity : Z;
  h_previous : option string;
  h_new : string;
  h_occurred_at : timestamp;
  h_source_event : string;
  h_sla_due_at : option timestamp;
  h_sla_status : string;
  h_anomaly : option string }.

(** The histories are kept newest first. *)
Record ops_db := mkOps {
  db_customers : gmap Z customer;
  db_products : list (Z * (Z * Z));
  db_warehouses : list string;
  db_carriers : list string;
  db_orders : gmap Z order;
  db_lines : gmap Z order_line;
  db_shipments : gmap Z shipment;
  db_invoices : gmap Z invoice;
  db_cases : gmap Z support_case;
  db_order_history : list history;
  db_shipment_history : list history;
  db_invoice_history : list history;
  db_case_history : list history;
  db_applied : gset string }.

Definition set_customers x db := mkOps x (db_products db) (db_warehouses db) (db_carriers db) (db_orders db)
  (db_lines db) (db_shipments db) (db_invoices db) (db_cases db) (db_order_history db)
  (db_shipment_history db) (db_invoice_history db) (db_case_history db) (db_applied db).
Definition set_orders x db := mkOps (db_customers db) (db_products db) (db_warehouses db) (db_carriers db) x
  (db_lines db) (db_shipments db) (db_invoices db) (db_cases db) (db_order_history db)
  (db_shipment_history db) (db_invoice_history db) (db_case_history db) (db_applied db).
Definition set_lines x db := mkOps (db_customers db) (db_products db) (db_warehouses db) (db_carriers db)
  (db_orders db) x (db_shipments db) (db_invoices db) (db_cases db) (db_order_history db)
  (db_shipment_history db) (db_invoice_history db) (db_case_history db) (db_applied db).
Definition set_shipments x db := mkOps (db_customers db) (db_products db) (db_warehouses db) (db_carriers db)
  (db_orders db) (db_lines db) x (db_invoices db) (db_cases db) (db_order_history db)
  (db_shipment_history db) (db_invoice_history db) (db_case_history db) (db_applied db).
Definition set_invoices x db := mkOps (db_customers db) (db_products db) (db_warehouses db) (db_carriers db)
  (db_orders db) (db_lines db) (db_shipments db) x (db_cases db) (db_order_history db)
  (db_shipment_history db) (db_invoice_history db) (db_case_history db) (db_applied db).
Definition set_cases x db := mkOps (db_customers db) (db_products db) (db_warehouses db) (db_carriers db)
  (db_orders db) (db_lines db) (db_shipments db) (db_invoices db) x (db_order_history db)
  (db_shipment_history db) (db_invoice_history db) (db_case_history db) (db_applied db).
Definition set_order_history x db := mkOps (db_customers db) (db_products db) (db_warehouses db)
  (db_carriers db) (db_orders db) (db_lines db) (db_shipments db) (db_invoices db) (db_cases db) x
  (db_shipment_history db) (db_invoice_history db) (db_case_history db) (db_applied db).
Definition set_shipment_history x db := mkOps (db_customers db) (db_products db) (db_warehouses db)
  (db_carriers db) (db_orders db) (db_lines db) (db_shipments db) (db_invoices db) (db_cases db)
  (db_order_history db) x (db_invoice_history db) (db_case_history db) (db_applied db).
Definition set_invoice_history x db := mkOps (db_customers db) (db_products db) (db_warehouses db)
  (db_carriers db) (db_orders db) (db_lines db) (db_shipments db) (db_invoices db) (db_cases db)
  (db_order_history db) (db_shipment_history db) x (db_case_history db) (db_applied db).
Definition set_case_history x db := mkOps (db_customers db) (db_products db) (db_warehouses db)
  (db_carriers db) (db_orders db) (db_lines db) (db_shipments db) (db_invoices db) (db_cases db)
  (db_order_history db) (db_shipment_history db) (db_invoice_history db) x (db_applied db).
Definition set_applied x db := mkOps (db_customers db) (db_products db) (db_warehouses db)
  (db_carriers db) (db_orders db) (db_lines db) (db_shipments db) (db_invoices db) (db_cases db)
  (db_order_history db) (db_shipment_history db) (db_invoice_history db) (db_case_history db) x.

(** ** Constraints *)

(** A statement that violates a constraint raises. *)
Definition constraint (ok : bool) (name : string) : io ops_db unit :=
  raise_if (negb ok) IntegrityError name.

(** The [CHECK]s on transitions. *)
Definition order_transition (previous : option string) (new : string) : bool :=
  match previous with
  | None => String.eqb new "PENDING"
  | Some p => (String.eqb p "PENDING" && (String.eqb new "SHIPPED" || String.eqb new "CANCELLED"))
              || (String.eqb p "SHIPPED" && (String.eqb new "INVOICED" || String.eqb new "CANCELLED"))
  end.
Definition shipment_transition (previous : option string) (new : string) : bool :=
  match previous with
  | None => String.eqb new "SHIPPED"
  | Some p => String.eqb p "SHIPPED" && String.eqb new "DELIVERED"
  end.
Definition invoice_transition (previous : option string) (new : string) : bool :=
  match previous with
  | None => String.eqb new "ISSUED"
  | Some p => String.eqb p "ISSUED" && String.eqb new "VOID"
  end.
Definition case_transition (previous : option string) (new : string) : bool :=
  match previous with
  | None => String.eqb new "Open"
  | Some p => (String.eqb p "Open" && String.eqb new "Resolved")
              || (String.eqb p "Resolved" && String.eqb new "Closed")
  end.

(** A status history table: its rows, the entities its foreign key allows, its transitions. *)
Record history_table := mkTable {
  ht_get : ops_db → list history;
  ht_set : list history → ops_db → ops_db;
  ht_known : Z → ops_db → bool;
  ht_allowed : option string → string → bool }.

Definition order_status_history : history_table :=
  mkTable db_order_history set_order_history (λ i db, bool_decide (is_Some (db_orders db !! i))) order_transition.
Definition shipment_status_history : history_table :=
  mkTable db_shipment_history set_shipment_history (λ i db, bool_decide (is_Some (db_shipments db !! i)))
    shipment_transition.
Definition invoice_status_history : history_table :=
  mkTable db_invoice_history set_invoice_history (λ i db, bool_decide (is_Some (db_invoices db !! i)))
    invoice_transition.
Definition support_case_status_history : history_table :=
  mkTable db_case_history set_case_history (λ i db, bool_decide (is_Some (db_cases db !! i))) case_transition.

Definition insert_history (t : history_table) (h : history) : io ops_db unit :=
  let* db := io_get in
  let* _ := constraint (ht_known t (h_entity h) db) "foreign key" in
  let* _ := constraint (ht_allowed t (h_previous h) (h_new h)) "transition" in
  let* _ := constraint (negb (existsb (λ r, String.eqb (h_source_event r) (h_source_event h)) (ht_get t db)))
              "source event" in
  io_modify (λ db, ht_set t (h :: ht_get t db) db).

(** [coalesce(max(id), 0) + 1] *)
Definition next_id {V} (table : gmap Z V) : Z :=
  match (map_to_list table).*1 with
  | [] => 1
  | i :: ids => zmax i ids + 1
  end.

(** ** The applier *)

Definition event_raises {A} (msg : string) : io ops_db A := io_raise RuntimeError msg.

(** [date.fromisoformat(str(payload.get(key, column)))] *)
Definition date_field (e : SourceEvent) (key : string) (column : date) : res date :=
  match payload e !! key with
  | None => Ok column
  | Some v => match fromisoformat (to_str v) with
              | Some d => Ok d
              | None => raise ValueError "Invalid isoformat string"
              end
  end.

Definition sla_text (breached : bool) : string := if breached then "BREACHED" else "ON_TIME".

(** The row an event leaves in a history. *)
Definition history_of (e : SourceEvent) (entity : Z) (previous : option string) (new : string)
    (occurred : timestamp) (due_at : option timestamp) (breached : bool) : history :=
  mkHistory entity previous new occurred (event_id e) due_at (sla_text breached) (anomaly_type e).

Definition ensure_customer (customer_id : Z) (d : date) : io ops_db unit :=
  let* db := io_get in
  match db_customers db !! customer_id with
  | Some _ => io_ret tt
  | None =>
    let number := "ACC-" +:+ zpad 6 customer_id in
    let* _ := constraint (bool_decide (map_Forall (λ _ c, cu_account_number c ≠ number) (db_customers db)))
                "account number" in
    io_modify (λ db, set_customers (<[customer_id := mkCustomer number "US01" (at_hour d 8)]> (db_customers db)) db)
  end.

Definition insert_line (l : order_line) : io ops_db unit :=
  let* db := io_get in
  let* _ := constraint (bool_decide (map_Forall (λ _ r, l_order_id r ≠ l_order_id l ∨ l_product_id r ≠ l_product_id l)
              (db_lines db))) "order line" in
  let* _ := constraint (0 <=? l_line_amount l) "line amount" in
  io_modify (λ db, set_lines (<[next_id (db_lines db) := l]> (db_lines db)) db).

Definition first_product (db : ops_db) : option (Z * (Z * Z)) :=
  head (sort_by (λ a b : Z * (Z * Z), a.1 <=? b.1) (db_products db)).

Definition _apply_order (e : SourceEvent) : io ops_db unit :=
  let* customer_id := io_lift (payload_int e "customer_id") in
  let* order_id := io_lift (payload_int e "order_id") in
  let d := business_date e in
  let* _ := ensure_customer customer_id d in
  let* db := io_get in
  match db_orders db !! order_id with
  | Some existing =>
    let* ref := io_lift (payload_get e "opportunity_ref") in
    raise_if (negb (bool_decide (o_opportunity_ref existing = Some ref))) RuntimeError
      ("order ID collision for " +:+ str_of_Z order_id)
  | None =>
    let* ref := io_lift (payload_get e "opportunity_ref") in
    let* requested := io_lift (add_days d 7) in
    let* _ := io_modify (λ db, set_orders (<[order_id := mkOrder customer_id (Some ref) d requested "USD"
                                              "PENDING" (at_hour d 8)]> (db_orders db)) db) in
    let* _ := insert_history order_status_history
                (history_of e order_id None "PENDING" (at_hour d 8) None false) in
    let* db := io_get in
    match first_product db with
    | None => event_raises "Ops order cannot be created without a product catalog"
    | Some (product_id, (price, cost)) => insert_line (mkLine order_id product_id price cost)
    end
  end.

(** [UPDATE ops.orders SET status = ..., updated_at = ... WHERE order_id = ...] *)
Definition update_order (order_id : Z) (status : string) (t : timestamp) (db : ops_db) : ops_db :=
  set_orders (alter (λ o, mkOrder (o_customer_id o) (o_opportunity_ref o) (o_order_date o)
                            (o_requested_delivery_date o) (o_currency_code o) status t) order_id (db_orders db)) db.

Definition _apply_shipment (e : SourceEvent) : io ops_db unit :=
  let* shipment_id := io_lift (payload_int e "shipment_id") in
  let* order_id := io_lift (payload_int e "order_id") in
  let* db := io_get in
  match db_shipments db !! shipment_id with
  | Some existing =>
    raise_if (negb (sh_order_id existing =? order_id)) RuntimeError
      ("shipment ID collision for " +:+ str_of_Z shipment_id)
  | None =>
    match db_orders db !! order_id with
    | None => event_raises ("shipment requires existing order " +:+ str_of_Z order_id)
    | Some o =>
      match head (sort_on id (db_warehouses db)), head (sort_on id (db_carriers db)) with
      | Some warehouse, Some carrier =>
        let ship_date := business_date e in
        let t := at_hour ship_date 8 in
        let* promised := io_lift (add_days ship_date 5) in
        let* _ := constraint (bool_decide (map_Forall (λ _ s, sh_order_id s ≠ order_id) (db_shipments db)))
                    "shipment order" in
        let* _ := io_modify (λ db, set_shipments (<[shipment_id := mkShipment order_id warehouse carrier ship_date
                     promised None ("SIM-" +:+ zpad 12 shipment_id) (at_hour ship_date 17)]> (db_shipments db)) db) in
        let* _ := insert_history shipment_status_history
                    (history_of e shipment_id None "SHIPPED" t None false) in
        if String.eqb (o_status o) "PENDING" then
          let* created := io_lift (date_field e "order_created_date" (o_order_date o)) in
          let* due_date := io_lift (add_days created 5) in
          let* _ := insert_history order_status_history
                      (history_of e order_id (Some "PENDING") "SHIPPED" t (Some (at_hour due_date 8))
                         (due_date <? ship_date)) in
          io_modify (update_order order_id "SHIPPED" t)
        else io_ret tt
      | _, _ => event_raises "shipment requires a warehouse and carrier master record"
      end
    end
  end.

Definition _apply_delivery (e : SourceEvent) : io ops_db unit :=
  let* shipment_id := io_lift (payload_int e "shipment_id") in
  let* db := io_get in
  match db_shipments db !! shipment_id with
  | None => event_raises ("delivery requires shipment " +:+ str_of_Z shipment_id)
  | Some s =>
    match sh_delivered_date s with
    | Some _ => io_ret tt
    | None =>
      let delivery_date := business_date e in
      let promised := sh_promised_delivery_date s in
      let t := at_hour delivery_date 17 in
      let* _ := constraint (sh_ship_date s <=? delivery_date) "delivered date" in
      let* _ := io_modify (λ db, set_shipments (<[shipment_id := mkShipment (sh_order_id s) (sh_warehouse s)
                   (sh_carrier s) (sh_ship_date s) promised (Some delivery_date) (sh_tracking s) t]>
                   (db_shipments db)) db) in
      insert_history shipment_status_history
        (history_of e shipment_id (Some "SHIPPED") "DELIVERED" t (Some (at_hour promised 17))
           (promised <? delivery_date))
    end
  end.

(** [coalesce(sum(line_amount), 0)] over the lines of an order *)
Definition order_amount (order_id : Z) (db : ops_db) : Z :=
  foldr Z.add 0 (l_line_amount <$> filter (λ l, l_order_id l = order_id) (map_to_list (db_lines db)).*2).

Definition insert_invoice (invoice_id : Z) (i : invoice) : io ops_db unit :=
  let* db := io_get in
  let* _ := constraint (bool_decide (map_Forall (λ _ r, in_number r ≠ in_number i ∧ in_order_id r ≠ in_order_id i)
              (db_invoices db))) "invoice" in
  io_modify (λ db, set_invoices (<[invoice_id := i]> (db_invoices db)) db).

Definition has_invoice (order_id : Z) (db : ops_db) : bool :=
  negb (bool_decide (map_Forall (λ _ r, in_order_id r ≠ order_id) (db_invoices db))).

(** [... WHERE shipment_id = %s AND order_id = %s] *)
Definition shipment_of (shipment_id order_id : Z) (db : ops_db) : option shipment :=
  match db_shipments db !! shipment_id with
  | Some s => if sh_order_id s =? order_id then Some s else None
  | None => None
  end.

Definition _apply_invoice (e : SourceEvent) : io ops_db unit :=
  let* order_id := io_lift (payload_int e "order_id") in
  let* shipment_id := io_lift (payload_int e "shipment_id") in
  let* db := io_get in
  if has_invoice order_id db then io_ret tt
  else
    match db_orders db !! order_id with
    | None => event_raises ("invoice requires existing order " +:+ str_of_Z order_id)
    | Some o =>
      match shipment_of shipment_id order_id db with
      | None => event_raises ("invoice requires shipment " +:+ str_of_Z shipment_id +:+ " for order "
                              +:+ str_of_Z order_id)
      | Some s =>
        let amount := order_amount order_id db in
        let* _ := raise_if (amount <=? 0) RuntimeError
                    ("invoice requires positive order amount for " +:+ str_of_Z order_id) in
        let invoice_id := next_id (db_invoices db) in
        let invoice_date := business_date e in
        let* shipment_date := io_lift (date_field e "shipment_date" (sh_ship_date s)) in
        let t := at_hour invoice_date 8 in
        let* due_date := io_lift (add_days shipment_date 3) in
        let due_at := Some (at_hour due_date 8) in
        let breached := due_date <? invoice_date in
        let* _ := insert_invoice invoice_id (mkInvoice ("OPS-" +:+ zpad 12 order_id) order_id invoice_date
                    (o_currency_code o) amount "ISSUED") in
        let* _ := insert_history invoice_status_history (history_of e invoice_id None "ISSUED" t due_at breached) in
        if String.eqb (o_status o) "SHIPPED" then
          let* _ := insert_history order_status_history
                      (history_of e order_id (Some "SHIPPED") "INVOICED" t due_at breached) in
          io_modify (update_order order_id "INVOICED" t)
        else io_ret tt
      end
    end.

Definition priority_ok (v : pyval) : bool :=
  match v with PStr s => existsb (String.eqb s) ["P1"; "P2"; "P3"; "P4"] | _ => false end.

Definition _apply_support_case (e : SourceEvent) : io ops_db unit :=
  let* case_id := io_lift (payload_int e "case_id") in
  let* db := io_get in
  match db_cases db !! case_id with
  | Some _ => io_ret tt
  | None =>
    let* order_id := io_lift (payload_int e "order_id") in
    match db_orders db !! order_id with
    | None => event_raises ("support case requires order " +:+ str_of_Z order_id)
    | Some o =>
      let t := at_hour (business_date e) 9 in
      let* priority := io_lift (payload_get e "priority") in
      let* _ := constraint (priority_ok priority) "priority" in
      let* _ := io_modify (λ db, set_cases (<[case_id := mkCase (o_customer_id o) priority t None "Open" t]>
                                              (db_cases db)) db) in
      let* due_date := io_lift (add_days (business_date e) 3) in
      insert_history support_case_status_history
        (history_of e case_id None "Open" t (Some (at_hour due_date 9)) false)
    end
  end.

(** [total_seconds() / 3600] of a difference in microseconds *)
Definition hours_between (t t' : timestamp) : f64 := f64_div (f64_ratio (t' - t) 1000000) (f64_of_Z 3600).

Definition update_case (case_id : Z) (c : support_case) : io ops_db unit :=
  io_modify (λ db, set_cases (<[case_id := c]> (db_cases db)) db).

Definition _apply_support_resolution (e : SourceEvent) : io ops_db unit :=
  let* case_id := io_lift (payload_int e "case_id") in
  let* db := io_get in
  match db_cases db !! case_id with
  | None => event_raises ("support resolution requires case " +:+ str_of_Z case_id)
  | Some c =>
    if negb (String.eqb (c_status c) "Open") then io_ret tt
    else
      let t := at_hour (business_date e) 17 in
      let due_at := after_days (c_opened_at c) 3 in
      let* _ := constraint (c_opened_at c <=? t) "resolution hours" in
      let* _ := update_case case_id (mkCase (c_customer_id c) (c_priority c) (c_opened_at c)
                   (Some (hours_between (c_opened_at c) t)) "Resolved" t) in
      insert_history support_case_status_history
        (history_of e case_id (Some "Open") "Resolved" t (Some due_at) (due_at <? t))
  end.

Definition _apply_support_closure (e : SourceEvent) : io ops_db unit :=
  let* case_id := io_lift (payload_int e "case_id") in
  let* db := io_get in
  match db_cases db !! case_id with
  | None => event_raises ("support closure requires case " +:+ str_of_Z case_id)
  | Some c =>
    if negb (String.eqb (c_status c) "Resolved") then io_ret tt
    else
      let t := at_hour (business_date e) 17 in
      let* _ := update_case case_id (mkCase (c_customer_id c) (c_priority c) (c_opened_at c)
                   (c_resolution_hours c) "Closed" t) in
      insert_history support_case_status_history
        (history_of e case_id (Some "Resolved") "Closed" t (Some t) false)
  end.

Definition _apply_event (e : SourceEvent) : io ops_db unit :=
  if is_type "order_created" e then _apply_order e
  else if is_type "shipment_created" e then _apply_shipment e
  else if is_type "shipment_delivered" e then _apply_delivery e
  else if is_type "invoice_created" e then _apply_invoice e
  else if is_type "support_case_opened" e then _apply_support_case e
  else if is_type "support_case_resolved" e then _apply_support_resolution e
  else if is_type "support_case_closed" e then _apply_support_closure e
  else io_raise ValueError ("unsupported Ops event type: " +:+ event_type e).

Definition _event_priority (e : SourceEvent) : Z :=
  default 99 (aget (event_type e)
    [("order_created", 0); ("shipment_created", 1); ("shipment_delivered", 2); ("invoice_created", 3);
     ("support_case_opened", 4); ("support_case_resolved", 5); ("support_case_closed", 6)]).

(** The order of [(business_date, _event_priority(event))]; [sorted] is stable. *)
Definition applied_before (a b : SourceEvent) : bool :=
  (business_date a <? business_date b)
  || ((business_date a =? business_date b) && (_event_priority a <=? _event_priority b)).

Definition apply_one (applied : Z) (e : SourceEvent) : io ops_db Z :=
  if negb (bool_decide (source_system e = ops)) then io_raise ValueError "Ops applier supports only Ops events"
  else
    let* db := io_get in
    if bool_decide (event_id e ∈ db_applied db) then io_ret applied
    else
      let* _ := _apply_event e in
      let* _ := io_modify (λ db, set_applied ({[event_id e]} ∪ db_applied db) db) in
      io_ret (applied + 1).

(** [OpsEventApplier.apply] *)
Definition apply (events : list SourceEvent) : io ops_db Z :=
  io_fold apply_one (sort_by applied_before events) 0.

(** ** Applied events *)

Lemma preserves_constraint I b name : preserves I (constraint b name).
Proof. unfold constraint, raise_if. destruct (negb b); auto with nw. Qed.

Lemma preserves_raise_if I b c msg : preserves (S:=ops_db) I (raise_if b c msg).
Proof. unfold raise_if. destruct b; auto with nw. Qed.

Definition applied_is (x : gset string) (db : ops_db) : Prop := db_applied db = x.

Lemma insert_history_applied x t h :
  (∀ hs db, db_applied (ht_set t hs db) = db_applied db) → preserves (applied_is x) (insert_history t h).
Proof.
  intros Ht. unfold insert_history. apply preserves_bind; [auto with nw|intros db].
  repeat (apply preserves_bind; [apply preserves_constraint|intros _]).
  apply preserves_modify. intros s Hs. unfold applied_is. by rewrite Ht.
Qed.

(** Steps of the applier that leave [applied_events] alone. *)
Ltac keep_applied :=
  repeat first
    [ apply preserves_bind; [|intros ?]
    | apply preserves_get | apply preserves_ret | apply preserves_lift | apply preserves_raise
    | apply preserves_constraint | apply preserves_raise_if
    | apply insert_history_applied; by intros
    | apply preserves_modify; by intros
    | case_match ].

Lemma apply_event_applied x e : preserves (applied_is x) (_apply_event e).
Proof.
  unfold _apply_event, _apply_order, _apply_shipment, _apply_delivery, _apply_invoice, _apply_support_case,
    _apply_support_resolution, _apply_support_closure, ensure_customer, insert_line, insert_invoice, update_case,
    event_raises.
  keep_applied.
Qed.

Lemma apply_one_ok n e s s' m :
  apply_one n e s = (s', Ok m) →
  source_system e = ops ∧ db_applied s' = {[event_id e]} ∪ db_applied s ∧
  m - n = Z.of_nat (size (db_applied s')) - Z.of_nat (size (db_applied s)).
Proof.
  unfold apply_one. destruct (bool_decide (source_system e = ops)) eqn:Es; [|done].
  apply bool_decide_eq_true in Es. cbn [negb]. intros H. io_inv.
  destruct (bool_decide (event_id e ∈ db_applied s)) eqn:Ea.
  - apply bool_decide_eq_true in Ea. io_inv. split; [done|]. split; [set_solver|lia].
  - apply bool_decide_eq_false in Ea. io_inv. rename Hm into Hev.
    pose proof (apply_event_applied (db_applied s) e s eq_refl) as Hx. rewrite Hev in Hx. simpl in Hx.
    unfold applied_is in Hx. cbn [db_applied set_applied]. rewrite Hx. split; [done|]. split; [done|].
    rewrite size_union by set_solver. rewrite size_singleton. lia.
Qed.

Lemma apply_fold_ok es n s s' m :
  io_fold apply_one es n s = (s', Ok m) →
  (∀ e, e ∈ es → source_system e = ops) ∧
  db_applied s' = list_to_set (event_id <$> es) ∪ db_applied s ∧
  m - n = Z.of_nat (size (db_applied s')) - Z.of_nat (size (db_applied s)).
Proof.
  revert n s. induction es as [|e es IH]; intros n s; cbn [io_fold]; intros H; io_inv.
  - split; [by intros e ?%elem_of_nil|]. split; [set_solver|lia].
  - apply apply_one_ok in Hm as (H1 & H2 & H3). apply IH in H as (H4 & H5 & H6).
    split; [intros e' [->|?]%elem_of_cons; auto|]. split; [rewrite H5, H2; set_solver|lia].
Qed.

Lemma apply_fold_again es n s :
  (∀ e, e ∈ es → source_system e = ops ∧ event_id e ∈ db_applied s) → io_fold apply_one es n s = (s, Ok n).
Proof.
  revert n. induction es as [|e es IH]; intros n Hes; [done|]. cbn [io_fold].
  destruct (Hes e ltac:(set_solver)) as [He Hin].
  assert (apply_one n e s = (s, Ok n)) as E.
  { unfold apply_one. rewrite bool_decide_eq_true_2 by done. cbn [negb]. unfold io_bind, io_get, io_ret.
    by rewrite bool_decide_eq_true_2. }
  unfold io_bind at 1. rewrite E. apply IH. intros e' He'. apply Hes. set_solver.
Qed.

(** C33: Applying Ops events is idempotent. When [apply] returns, exactly the ids of its events have
    been added to [applied_events] and the count returned is the number of new ones; applying any
    of those events again, in any order and any number of times, reports zero and changes nothing. *)
Theorem ops_apply_idempotent es s s' n :
  apply es s = (s', Ok n) →
  db_applied s' = list_to_set (event_id <$> es) ∪ db_applied s ∧
  n = Z.of_nat (size (db_applied s')) - Z.of_nat (size (db_applied s)) ∧
  ∀ es', (∀ e, e ∈ es' → e ∈ es) → apply es' s' = (s', Ok 0).
Proof.
  unfold apply. intros (H1 & H2 & H3)%apply_fold_ok.
  assert (∀ e, e ∈ sort_by applied_before es ↔ e ∈ es) as Hsort by (intros e; apply elem_of_sort_by).
  assert (db_applied s' = list_to_set (event_id <$> es) ∪ db_applied s) as Happ.
  { rewrite H2. apply set_eq. intros x. rewrite !elem_of_union, !elem_of_list_to_set, !list_elem_of_fmap.
    by setoid_rewrite Hsort. }
  split; [done|]. split; [lia|]. intros es' Hes. apply apply_fold_again.
  intros e He%elem_of_sort_by%Hes. split; [by apply H1, Hsort|]. rewrite Happ.
  apply elem_of_union_l, elem_of_list_to_set. by apply list_elem_of_fmap_2.
Qed.

(** ** Histories *)

(** The rows of one entity, newest first, run back from its status without a gap. *)
Fixpoint linked (rows : list history) (status : string) : Prop :=
  match rows with
  | [] => True
  | h :: rows => h_new h = status ∧
                 match h_previous h with
                 | Some p => linked rows p
                 | None => rows = []
                 end
  end.

Definition rows_of (i : Z) (rows : list history) : list history := filter (λ h, h_entity h = i) rows.

(** A history table agrees with the statuses of its entities, and its SLA column with its times. *)
Record consistent (allowed : option string → string → bool) (rows : list history)
    (status : Z → option string) : Prop := {
  con_linked : ∀ i st, status i = Some st → linked (rows_of i rows) st;
  con_known : ∀ i, status i = None → rows_of i rows = [];
  con_allowed : Forall (λ h, allowed (h_previous h) (h_new h) = true) rows;
  con_sla : Forall (λ h, h_sla_status h =
      sla_text (match h_sla_due_at h with Some d => d <? h_occurred_at h | None => false end)) rows;
  con_events : NoDup (h_source_event <$> rows) }.

Definition order_status (db : ops_db) (i : Z) : option string := o_status <$> db_orders db !! i.
Definition shipment_status (db : ops_db) (i : Z) : option string :=
  (λ s, match sh_delivered_date s with Some _ => "DELIVERED" | None => "SHIPPED" end) <$> db_shipments db !! i.
Definition invoice_status (db : ops_db) (i : Z) : option string := in_status <$> db_invoices db !! i.
Definition case_status (db : ops_db) (i : Z) : option string := c_status <$> db_cases db !! i.

Record ops_inv (db : ops_db) : Prop := {
  inv_orders : consistent order_transition (db_order_history db) (order_status db);
  inv_shipments : consistent shipment_transition (db_shipment_history db) (shipment_status db);
  inv_invoices : consistent invoice_transition (db_invoice_history db) (invoice_status db);
  inv_cases : consistent case_transition (db_case_history db) (case_status db) }.

Lemma consistent_ext allowed rows st st' :
  (∀ i, st i = st' i) → consistent allowed rows st → consistent allowed rows st'.
Proof. intros E [H1 H2 H3 H4 H5]. split; try done; intros i; rewrite <- E; [apply H1|apply H2]. Qed.

(** A new row that continues from the entity's status. *)
Lemma consistent_cons allowed rows st st' h :
  consistent allowed rows st → allowed (h_previous h) (h_new h) = true →
  h_source_event h ∉ (h_source_event <$> rows) →
  h_sla_status h = sla_text (match h_sla_due_at h with Some d => d <? h_occurred_at h | None => false end) →
  h_previous h = st (h_entity h) → st' (h_entity h) = Some (h_new h) →
  (∀ i, i ≠ h_entity h → st' i = st i) →
  consistent allowed (h :: rows) st'.
Proof.
  intros [H1 H2 H3 H4 H5] Ha He Hs Hp Hnew Hother. split.
  - intros i s Hi. unfold rows_of. rewrite filter_cons. case_decide as Hd.
    + subst i. rewrite Hnew in Hi. injection Hi as <-. split; [done|].
      destruct (st (h_entity h)) as [p|] eqn:Ep; rewrite Hp; [by apply H1|by apply H2].
    + apply H1. by rewrite <- Hother.
  - intros i Hi. unfold rows_of. rewrite filter_cons. case_decide as Hd; [subst; congruence|].
    apply H2. by rewrite <- Hother.
  - by constructor.
  - by constructor.
  - simpl. by constructor.
Qed.

Lemma at_hour_ltb d d' h : (at_hour d h <? at_hour d' h) = (d <? d').
Proof.
  unfold at_hour, microseconds_per_hour.
  destruct (Z.ltb_spec d d'), (Z.ltb_spec ((d * 24 + h) * (3600 * 1000000)) ((d' * 24 + h) * (3600 * 1000000)));
    done || lia.
Qed.

(** What a successful insertion into a history says. *)
Lemma insert_history_ok t h s s' u :
  insert_history t h s = (s', Ok u) →
  s' = ht_set t (h :: ht_get t s) s ∧ ht_allowed t (h_previous h) (h_new h) = true ∧
  h_source_event h ∉ (h_source_event <$> ht_get t s).
Proof.
  unfold insert_history, constraint. intros H. io_inv. apply negb_false_iff in Hm1, Hm2.
  split; [done|]. split; [done|]. apply negb_true_iff in Hm2. intros (r & Hr & Hin)%list_elem_of_fmap.
  assert (existsb (λ r, String.eqb (h_source_event r) (h_source_event h)) (ht_get t s) = true) as E; [|congruence].
  apply existsb_exists. exists r. split; [by apply list_elem_of_In|]. apply String.eqb_eq. done.
Qed.

(** Invert the steps of an applier that returned. *)
Ltac ops_inv_steps :=
  repeat (io_inv; match goal with
  | H : insert_history _ _ _ = (_, Ok _) |- _ =>
      let Ha := fresh "Hallowed" in let He := fresh "Hevent" in
      apply insert_history_ok in H as (-> & Ha & He)
  | H : constraint _ _ _ = (_, Ok _) |- _ =>
      unfold constraint in H; apply raise_if_ok in H as [-> H]; apply negb_false_iff in H
  | H : event_raises _ _ = (_, Ok _) |- _ => discriminate H
  end); io_inv.

(** The tables that a step leaves alone. *)
Ltac same_table := solve [eassumption | eapply consistent_ext; [|eassumption]; done].

Lemma ensure_customer_inv i d s s' u :
  ensure_customer i d s = (s', Ok u) → ∃ c, s' = set_customers c s.
Proof.
  unfold ensure_customer. intros H. ops_inv_steps.
  destruct (db_customers s !! i); ops_inv_steps; [exists (db_customers s); by destruct s|by eexists].
Qed.

Lemma insert_line_inv l s s' u : insert_line l s = (s', Ok u) → ∃ x, s' = set_lines x s.
Proof. unfold insert_line. intros H. ops_inv_steps. by eexists. Qed.

Lemma apply_order_inv e s s' u : _apply_order e s = (s', Ok u) → ops_inv s → ops_inv s'.
Proof.
  unfold _apply_order. intros H [Ho Hs Hi Hc]. io_inv.
  match goal with Hm : ensure_customer _ _ _ = _ |- _ => apply ensure_customer_inv in Hm as [c ->] end.
  cbn [db_orders set_customers] in H. destruct (db_orders s !! _) as [o|] eqn:Eo.
  - ops_inv_steps. split; same_table.
  - ops_inv_steps. cbn [ht_get ht_set order_status_history] in *.
    destruct (first_product _) as [[pid [price cost]]|]; [|by ops_inv_steps].
    apply insert_line_inv in H as [l ->].
    split; [|same_table..].
    eapply (consistent_cons _ _ (order_status s)); [exact Ho|exact Hallowed|exact Hevent|done| | |].
    + unfold order_status. cbn [h_previous h_entity history_of]. by rewrite Eo.
    + unfold order_status. cbn. by rewrite lookup_insert_eq.
    + intros i Hne. unfold order_status. cbn. cbn in Hne. by rewrite lookup_insert_ne by done.
Qed.

Lemma order_status_update i st t db j :
  order_status (update_order i st t db) j = (if decide (j = i) then (λ _, st) <$> order_status db j else order_status db j).
Proof.
  unfold order_status, update_order. cbn [db_orders set_orders]. destruct (decide (j = i)) as [->|].
  - rewrite lookup_alter_eq. by destruct (db_orders db !! i).
  - by rewrite lookup_alter_ne by done.
Qed.

(** An order moves on, with its row in the history. *)
Lemma order_moves e i p st t due_at b s :
  order_transition (Some p) st = true → event_id e ∉ (h_source_event <$> db_order_history s) →
  b = (match due_at with Some d => d <? t | None => false end) →
  order_status s i = Some p →
  consistent order_transition (db_order_history s) (order_status s) →
  consistent order_transition (history_of e i (Some p) st t due_at b :: db_order_history s)
    (order_status (update_order i st t s)).
Proof.
  intros Ha He -> Hst H. eapply consistent_cons; [exact H|done|done|done|by symmetry| |].
  - cbn [h_entity history_of]. rewrite order_status_update, decide_True by done. by rewrite Hst.
  - intros j Hj. cbn [h_entity history_of] in Hj. by rewrite order_status_update, decide_False by done.
Qed.

Lemma apply_shipment_inv e s s' u : _apply_shipment e s = (s', Ok u) → ops_inv s → ops_inv s'.
Proof.
  unfold _apply_shipment. intros H [Ho Hs Hi Hc]. io_inv.
  destruct (db_shipments s !! a) as [sh|] eqn:Esh; [ops_inv_steps; by split|].
  destruct (db_orders s !! a0) as [o|] eqn:Eo; [|by ops_inv_steps].
  destruct (head (sort_on id (db_warehouses s))) as [w|]; [|by ops_inv_steps].
  destruct (head (sort_on id (db_carriers s))) as [c|]; [|by ops_inv_steps].
  ops_inv_steps. cbn [ht_get ht_set shipment_status_history] in *.
  assert (∀ x y, consistent shipment_transition
    (history_of e a None "SHIPPED" (at_hour (business_date e) 8) None false :: db_shipment_history s)
    (shipment_status (set_shipments (<[a:=mkShipment a0 w c (business_date e) a1 None x y]> (db_shipments s)) s))) as Hs'.
  { intros x y. eapply (consistent_cons _ _ (shipment_status s)); [exact Hs|done|exact Hevent|done| | |].
    + unfold shipment_status. cbn [h_previous h_entity history_of]. by rewrite Esh.
    + unfold shipment_status. cbn. by rewrite lookup_insert_eq.
    + intros i Hne. unfold shipment_status. cbn. cbn in Hne. by rewrite lookup_insert_ne by done. }
  destruct (String.eqb_spec (o_status o) "PENDING") as [Hst|]; ops_inv_steps; [|split; [same_table|apply Hs'|same_table..]].
  split; [|apply Hs'|same_table..].
  refine (order_moves e a0 "PENDING" "SHIPPED" _ _ _ s _ _ _ _ Ho); [done|done|by rewrite at_hour_ltb|].
  unfold order_status. by rewrite Eo, <- Hst.
Qed.

Lemma apply_delivery_inv e s s' u : _apply_delivery e s = (s', Ok u) → ops_inv s → ops_inv s'.
Proof.
  unfold _apply_delivery. intros H [Ho Hs Hi Hc]. io_inv.
  destruct (db_shipments s !! a) as [sh|] eqn:Esh; [|by ops_inv_steps].
  destruct (sh_delivered_date sh) eqn:Ed; [ops_inv_steps; by split|].
  ops_inv_steps. cbn [ht_get ht_set shipment_status_history] in *.
  split; [same_table| |same_table..].
  eapply (consistent_cons _ _ (shipment_status s)); [exact Hs|exact Hallowed|exact Hevent| | | |].
  + cbn. by rewrite at_hour_ltb.
  + unfold shipment_status. cbn [h_previous h_entity history_of]. rewrite Esh. cbn. by rewrite Ed.
  + unfold shipment_status. cbn. by rewrite lookup_insert_eq.
  + intros i Hne. unfold shipment_status. cbn. cbn in Hne. by rewrite lookup_insert_ne by done.
Qed.

(** [max + 1] is free. *)
Lemma next_id_fresh {V} (table : gmap Z V) : table !! next_id table = None.
Proof.
  apply eq_None_not_Some. intros [v Hv%elem_of_map_to_list].
  apply (list_elem_of_fmap_2 fst) in Hv. cbn [fst] in Hv. unfold next_id in *.
  destruct (map_to_list table).*1 as [|i ids]; [by apply elem_of_nil in Hv|].
  apply elem_of_cons in Hv as [Hv|Hv]; [pose proof (zmax_base i ids); lia|].
  apply (zmax_ge i) in Hv. lia.
Qed.

Lemma insert_invoice_inv i v s s' u :
  insert_invoice i v s = (s', Ok u) → s' = set_invoices (<[i := v]> (db_invoices s)) s.
Proof. unfold insert_invoice. intros H. by ops_inv_steps. Qed.

Lemma apply_invoice_inv e s s' u : _apply_invoice e s = (s', Ok u) → ops_inv s → ops_inv s'.
Proof.
  unfold _apply_invoice. intros H [Ho Hs Hi Hc]. io_inv.
  destruct (has_invoice a s); [ops_inv_steps; by split|].
  destruct (db_orders s !! a) as [o|] eqn:Eo; [|by ops_inv_steps].
  destruct (shipment_of a0 a s) as [sh|]; [|by ops_inv_steps].
  io_inv. match goal with H : insert_invoice _ _ _ = _ |- _ => apply insert_invoice_inv in H as -> end.
  ops_inv_steps. cbn [ht_get ht_set invoice_status_history] in *.
  assert (∀ t d v, in_status v = "ISSUED" → consistent invoice_transition
    (history_of e (next_id (db_invoices s)) None "ISSUED" (at_hour t 8) (Some (at_hour d 8)) (d <? t)
       :: db_invoice_history s)
    (invoice_status (set_invoices (<[next_id (db_invoices s):=v]> (db_invoices s)) s))) as Hi'.
  { intros t d v Hv. eapply (consistent_cons _ _ (invoice_status s)); [exact Hi|done|exact Hevent| | | |].
    + cbn. by rewrite at_hour_ltb.
    + unfold invoice_status. cbn [h_previous h_entity history_of]. by rewrite next_id_fresh.
    + unfold invoice_status. cbn. by rewrite lookup_insert_eq; cbn; rewrite Hv.
    + intros i Hne. unfold invoice_status. cbn. cbn in Hne. by rewrite lookup_insert_ne by done. }
  destruct (String.eqb_spec (o_status o) "SHIPPED") as [Hst|]; ops_inv_steps;
    [|split; [same_table|same_table|by apply Hi'|same_table]].
  split; [|same_table|by apply Hi'|same_table].
  refine (order_moves e a "SHIPPED" "INVOICED" _ _ _ s _ _ _ _ Ho); [done|done|by rewrite at_hour_ltb|].
  unfold order_status. by rewrite Eo, <- Hst.
Qed.

(** A case changes, with its row in the history. *)
Lemma case_moves e i c st t due_at b s :
  consistent case_transition (db_case_history s) (case_status s) →
  case_transition (case_status s i) st = true → event_id e ∉ (h_source_event <$> db_case_history s) →
  b = (match due_at with Some d => d <? t | None => false end) → c_status c = st →
  consistent case_transition (history_of e i (case_status s i) st t due_at b :: db_case_history s)
    (case_status (set_cases (<[i := c]> (db_cases s)) s)).
Proof.
  intros H Ha He -> Hst. eapply consistent_cons; [exact H|done|done|done|done| |].
  - unfold case_status. cbn. rewrite lookup_insert_eq. cbn. by rewrite Hst.
  - intros j Hj. unfold case_status. cbn. cbn in Hj. by rewrite lookup_insert_ne by done.
Qed.

Lemma apply_support_case_inv e s s' u : _apply_support_case e s = (s', Ok u) → ops_inv s → ops_inv s'.
Proof.
  unfold _apply_support_case. intros H [Ho Hs Hi Hc]. io_inv.
  destruct (db_cases s !! a) as [c|] eqn:Ec; [ops_inv_steps; by split|]. io_inv.
  destruct (db_orders s !! _) as [o|]; [|by ops_inv_steps].
  ops_inv_steps. split; [same_table..|].
  assert (case_status s a = None) as Est by (unfold case_status; by rewrite Ec).
  rewrite <- Est at 1. refine (case_moves e a _ "Open" _ _ _ s Hc _ Hevent _ _); [by rewrite Est| |done].
  symmetry. apply Z.ltb_ge. unfold add_days in *. unfold at_hour, microseconds_per_hour.
  case_match; simplify_eq. lia.
Qed.

Lemma apply_resolution_inv e s s' u : _apply_support_resolution e s = (s', Ok u) → ops_inv s → ops_inv s'.
Proof.
  unfold _apply_support_resolution, update_case. intros H [Ho Hs Hi Hc]. io_inv.
  destruct (db_cases s !! a) as [c|] eqn:Ec; [|by ops_inv_steps].
  destruct (String.eqb_spec (c_status c) "Open") as [Est|]; cbn [negb] in H; ops_inv_steps; [|by split].
  split; [same_table..|].
  assert (case_status s a = Some "Open") as E by (unfold case_status; rewrite Ec; cbn; by rewrite Est).
  rewrite <- E at 1. refine (case_moves e a _ "Resolved" _ _ _ s Hc _ Hevent _ _); [by rewrite E|done|done].
Qed.

Lemma apply_closure_inv e s s' u : _apply_support_closure e s = (s', Ok u) → ops_inv s → ops_inv s'.
Proof.
  unfold _apply_support_closure, update_case. intros H [Ho Hs Hi Hc]. io_inv.
  destruct (db_cases s !! a) as [c|] eqn:Ec; [|by ops_inv_steps].
  destruct (String.eqb_spec (c_status c) "Resolved") as [Est|]; cbn [negb] in H; ops_inv_steps; [|by split].
  split; [same_table..|].
  assert (case_status s a = Some "Resolved") as E by (unfold case_status; rewrite Ec; cbn; by rewrite Est).
  rewrite <- E at 1. refine (case_moves e a _ "Closed" _ _ _ s Hc _ Hevent _ _); [by rewrite E| |done].
  by rewrite Z.ltb_irrefl.
Qed.

Lemma apply_event_inv e s s' u : _apply_event e s = (s', Ok u) → ops_inv s → ops_inv s'.
Proof.
  unfold _apply_event. repeat case_match; eauto using apply_order_inv, apply_shipment_inv, apply_delivery_inv,
    apply_invoice_inv, apply_support_case_inv, apply_resolution_inv, apply_closure_inv. done.
Qed.

(** ** Transactions *)

(** One transaction of the runner: it commits, or an error rolls it back. *)
Inductive ops_step : ops_db → ops_db → Prop :=
| step_apply es db : ops_step db (transaction (apply es) db).1.

Lemma apply_fold_inv es n s s' m : io_fold apply_one es n s = (s', Ok m) → ops_inv s → ops_inv s'.
Proof.
  revert n s. induction es as [|e es IH]; intros n s; cbn [io_fold]; intros H Hs; io_inv; [done|].
  eapply IH; [exact H|]. clear H IH. unfold apply_one in Hm.
  destruct (negb _); io_inv. destruct (bool_decide _); io_inv; [done|].
  match goal with Hm : _apply_event _ _ = _ |- _ => destruct (apply_event_inv _ _ _ _ Hm Hs); by split end.
Qed.

Lemma ops_step_inv s s' : ops_inv s → ops_step s s' → ops_inv s'.
Proof.
  intros Hs Hst. revert Hs. destruct Hst as [es db]. intros Hs. unfold transaction.
  destruct (apply es db) as [s1 [n|err]] eqn:E; [|done].
  by eapply apply_fold_inv.
Qed.

(** C10: Status histories tell the truth. From an Ops database without history, whatever transactions
    of events are applied, replayed or rolled back, in each of the four life cycles the rows of an
    entity form an unbroken chain of allowed transitions that ends in its current status, every row
    belongs to an existing entity and to its own source event, and a row is marked breached exactly
    when it occurred after its due time. *)
Theorem ops_histories_consistent db db' :
  db_order_history db = [] → db_shipment_history db = [] → db_invoice_history db = [] →
  db_case_history db = [] → rtc ops_step db db' → ops_inv db'.
Proof.
  intros H1 H2 H3 H4 Hr.
  assert (ops_inv db) as Hdb.
  { split; [rewrite H1|rewrite H2|rewrite H3|rewrite H4]; split; done || constructor. }
  clear H1 H2 H3 H4. induction Hr as [|x y z Hxy _ IH]; [done|]. apply IH. by eapply ops_step_inv.
Qed.

(** A resolution on the third day breaches its SLA. A case is opened at nine in the morning and
    due three days later at nine, but resolved at five in the afternoon of the day its planner
    picks, one to three days on: the resolution is recorded as breached exactly when that is the
    third day, whatever the priority, and although no anomaly is attached. *)
Theorem resolution_sla_third_day case_id c d k e s :
  1 ≤ k ≤ 3 → payload_int e "case_id" = Ok case_id → db_cases s !! case_id = Some c →
  c_status c = "Open" → c_opened_at c = at_hour d 9 → business_date e = d + k → anomaly_type e = None →
  event_id e ∉ (h_source_event <$> db_case_history s) →
  ∃ s' h, _apply_support_resolution e s = (s', Ok tt) ∧ db_case_history s' = h :: db_case_history s ∧
    case_status s' case_id = Some "Resolved" ∧ h_anomaly h = None ∧
    h_sla_status h = (if k =? 3 then "BREACHED" else "ON_TIME").
Proof.
  intros Hk Hid Hc Hst Hopen Hd Ha He. unfold _apply_support_resolution, update_case.
  unfold io_bind, io_lift, io_get. rewrite Hid, Hc, Hst. cbn [String.eqb Ascii.eqb Bool.eqb negb].
  unfold constraint, raise_if, io_modify, io_ret. rewrite Hopen, Hd.
  assert ((at_hour d 9 <=? at_hour (d + k) 17) = true) as ->
    by (apply Z.leb_le; unfold at_hour, microseconds_per_hour; lia).
  cbn [negb]. unfold insert_history, io_bind, io_get, constraint, raise_if, io_ret, io_modify.
  cbn [ht_known ht_allowed ht_get ht_set support_case_status_history history_of h_entity h_previous h_new
       db_cases set_cases h_source_event case_transition String.eqb Ascii.eqb Bool.eqb andb orb negb
       db_case_history set_case_history].
  rewrite bool_decide_eq_true_2 by (rewrite lookup_insert_eq; eauto). cbn [negb].
  assert (existsb (λ r, String.eqb (h_source_event r) (event_id e)) (db_case_history s) = false) as ->.
  { apply not_true_iff_false. intros (r & Hr & Heq)%existsb_exists. apply He. apply String.eqb_eq in Heq.
    rewrite <- Heq. apply list_elem_of_fmap_2. by apply list_elem_of_In. }
  cbn [negb]. eexists _, _. split; [reflexivity|]. split; [reflexivity|]. split.
  { unfold case_status. cbn. by rewrite lookup_insert_eq. }
  split; [exact Ha|]. unfold history_of. cbn [h_sla_status]. unfold after_days, at_hour, microseconds_per_hour.
  destruct (Z.eqb_spec k 3) as [->|].
  - by rewrite (proj2 (Z.ltb_lt _ _)) by lia.
  - by rewrite (proj2 (Z.ltb_ge _ _)) by lia.
Qed.

(** ** A concrete day *)

Definition witness_db : ops_db :=
  mkOps ∅ [(3, (1900, 700))] ["WH1"] ["CAR1"] ∅ ∅ ∅ ∅ ∅ [] [] [] [] ∅.

Definition witness_day : list SourceEvent :=
  [create 739010 ops "shipment_created" "7" (payload_of [("shipment_id", PInt 7); ("order_id", PInt 50)]) None None;
   create 739004 ops "order_created" "50"
     (payload_of [("order_id", PInt 50); ("customer_id", PInt 12); ("opportunity_ref", PStr "006a")]) None None;
   create 739011 ops "support_case_opened" "30"
     (payload_of [("case_id", PInt 30); ("order_id", PInt 50); ("priority", PStr "P3")]) None None;
   create 739011 ops "invoice_created" "50"
     (payload_of [("shipment_id", PInt 7); ("order_id", PInt 50); ("shipment_date", PStr "2024-05-01")]) None None].

Definition witness_after : ops_db := (apply witness_day witness_db).1.

Example witness_day_applies :
  (apply witness_day witness_db).2 = Ok 4 ∧ order_status witness_after 50 = Some "INVOICED" ∧
  case_status witness_after 30 = Some "Open" ∧ length (db_order_history witness_after) = 3%nat.
Proof. vm_compute. split_and!; reflexivity. Qed.

Lemma ops_apply_idempotent_witness :
  ∃ s', apply witness_day witness_db = (s', Ok 4) ∧ apply (rev witness_day) s' = (s', Ok 0).
Proof.
  assert (apply witness_day witness_db = (witness_after, Ok 4)) as E.
  { assert ((apply witness_day witness_db).2 = Ok 4) as <- by (vm_compute; reflexivity). apply surjective_pairing. }
  exists witness_after. split; [exact E|].
  destruct (ops_apply_idempotent witness_day witness_db witness_after 4 E) as (_ & _ & H).
  apply H. intros e. rewrite list_elem_of_In, <- in_rev, <- list_elem_of_In. exact (λ x, x).
Defined.

Lemma ops_histories_consistent_witness :
  rtc ops_step witness_db (transaction (apply witness_day) witness_db).1 ∧
  ops_inv (transaction (apply witness_day) witness_db).1.
Proof.
  assert (rtc ops_step witness_db (transaction (apply witness_day) witness_db).1) as H
    by (apply rtc_once; constructor).
  split; [exact H|]. by apply (ops_histories_consistent witness_db).
Defined.

Definition witness_resolution : SourceEvent :=
  create 739014 ops "support_case_resolved" "30" (payload_of [("case_id", PInt 30); ("priority", PStr "P3")]) None None.

Lemma resolution_sla_third_day_witness :
  ∃ s' h, _apply_support_resolution witness_resolution witness_after = (s', Ok tt) ∧
          db_case_history s' = h :: db_case_history witness_after ∧ h_sla_status h = "BREACHED".
Proof.
  destruct (db_cases witness_after !! 30) as [c|] eqn:Ec; [|vm_compute in Ec; discriminate].
  destruct (resolution_sla_third_day 30 c 739011 3 witness_resolution witness_after) as (s' & h & H1 & H2 & _ & _ & H3).
  - lia.
  - reflexivity.
  - exact Ec.
  - vm_compute in Ec. injection Ec as <-. reflexivity.
  - vm_compute in Ec. injection Ec as <-. vm_compute. reflexivity.
  - reflexivity.
  - reflexivity.
  - apply (bool_decide_unpack _). vm_compute. exact I.
  - exists s', h. split; [exact H1|]. split; [exact H2|exact H3].
Defined.
