(* ===== verification/Reconcile.v ===== *)
(** * Reconciliation: [simulator/reconciliation.py]

    The checks made before a date completes: every recorded event of the day has its marker in
    [applied_events] and its business record in the source database. *)

From stdpp Require Import prelude gmap strings list.
From Stdlib Require Import ZArith Lia Ascii.
From S2P Require Import Prelude PyText Dates Events Planners OpsApply.

Open Scope Z_scope.

(** ** The checks *)

(** [sorted(set(ids) - actual)] *)
Definition missing_ids (ids : list Z) (actual : Z → bool) : list Z :=
  sort_by Z.leb (remove_dups (filter (λ i, actual i = false) ids)).
Definition missing_texts (ids : list string) (actual : gset string) : list string :=
  sort_on id (remove_dups (filter (λ i, i ∉ actual) ids)).

(** One problem, if anything is missing. *)
Definition problem {A} (text : string) (show : A → string) (missing : list A) : list string :=
  match missing with
  | [] => []
  | _ => [text +:+ " missing: " +:+ join ", " (show <$> missing)]
  end.

Definition _missing_markers (label : string) (events : list SourceEvent) (applied : gset string)
    : list string :=
  problem (label +:+ " applied-event markers") id (missing_texts (event_id <$> events) applied).

(** [actual] is what the [SELECT] over the table finds. *)
Definition _missing_key_problems (text : string) (actual : Z → bool) (events : list SourceEvent)
    (ty key : string) : res (list string) :=
  let! ids := ids_of ty key events in
  Ok (problem text str_of_Z (missing_ids ids actual)).

Definition has_order (db : ops_db) (i : Z) : bool := bool_decide (is_Some (db_orders db !! i)).
Definition has_shipment (db : ops_db) (i : Z) : bool := bool_decide (is_Some (db_shipments db !! i)).
Definition has_case (db : ops_db) (i : Z) : bool := bool_decide (is_Some (db_cases db !! i)).
Definition delivered (db : ops_db) (i : Z) : bool :=
  match db_shipments db !! i with Some s => bool_decide (is_Some (sh_delivered_date s)) | None => false end.

Definition _delivered_shipment_problems (events : list SourceEvent) (db : ops_db) : res (list string) :=
  _missing_key_problems "ops.shipments delivered shipment_id values" (delivered db) events
    "shipment_delivered" "shipment_id".

Definition _ops_problems (events : list SourceEvent) (db : ops_db) : res (list string) :=
  let p0 := _missing_markers "Ops" events (db_applied db) in
  let! p1 := _missing_key_problems "ops.orders order_id values" (has_order db) events "order_created" "order_id" in
  let! p2 := _missing_key_problems "ops.shipments shipment_id values" (has_shipment db) events
               "shipment_created" "shipment_id" in
  let! p3 := _delivered_shipment_problems events db in
  let! p4 := _missing_key_problems "ops.invoices order_id values" (λ i, has_invoice i db) events
               "invoice_created" "order_id" in
  let! p5 := _missing_key_problems "ops.support_cases case_id values" (has_case db) events
               "support_case_opened" "case_id" in
  Ok (p0 ++ p1 ++ p2 ++ p3 ++ p4 ++ p5).

(** [reconcile]: the counts of the report, or [ReconciliationError]. The problems of the CRM
    partition and of the ERP database are passed in; see [Erp.v] for the latter. *)
Definition reconcile (run_date : date) (crm_events ops_events erp_events : list SourceEvent)
    (crm_problems ops_problems erp_problems : res (list string)) : res (Z * Z * Z) :=
  let! p1 := crm_problems in
  let! p2 := ops_problems in
  let! p3 := erp_problems in
  match p1 ++ p2 ++ p3 with
  | [] => Ok (Z.of_nat (length crm_events), Z.of_nat (length ops_events), Z.of_nat (length erp_events))
  | problems => raise ReconciliationError
                  ("simulation reconciliation failed for " +:+ isoformat run_date +:+ ": " +:+ join "; " problems)
  end.

(** ** What an applied event leaves behind *)

Definition effect (e : SourceEvent) (db : ops_db) : Prop :=
  (event_type e = "order_created" → ∃ i, payload_int e "order_id" = Ok i ∧ has_order db i = true) ∧
  (event_type e = "shipment_created" → ∃ i, payload_int e "shipment_id" = Ok i ∧ has_shipment db i = true) ∧
  (event_type e = "shipment_delivered" → ∃ i, payload_int e "shipment_id" = Ok i ∧ delivered db i = true) ∧
  (event_type e = "invoice_created" → ∃ i, payload_int e "order_id" = Ok i ∧ has_invoice i db = true) ∧
  (event_type e = "support_case_opened" → ∃ i, payload_int e "case_id" = Ok i ∧ has_case db i = true).

(** Nothing the reconciliation looks for disappears. *)
Definition grows (db db' : ops_db) : Prop :=
  (∀ i, has_order db i = true → has_order db' i = true) ∧
  (∀ i, has_shipment db i = true → has_shipment db' i = true) ∧
  (∀ i, delivered db i = true → delivered db' i = true) ∧
  (∀ i, has_invoice i db = true → has_invoice i db' = true) ∧
  (∀ i, has_case db i = true → has_case db' i = true).

#[export] Instance grows_preorder : PreOrder grows.
Proof.
  split; [by intros db; unfold grows; naive_solver|].
  intros a b c (?&?&?&?&?) (?&?&?&?&?). unfold grows. naive_solver.
Qed.

Lemma effect_grows e db db' : grows db db' → effect e db → effect e db'.
Proof. intros (G1 & G2 & G3 & G4 & G5) (H1 & H2 & H3 & H4 & H5). unfold effect. naive_solver. Qed.

Lemma has_order_insert db t x i :
  has_order (set_orders (<[t := x]> (db_orders db)) db) i = bool_decide (i = t) || has_order db i.
Proof.
  unfold has_order. cbn [db_orders set_orders]. destruct (decide (i = t)) as [->|N].
  - rewrite lookup_insert_eq, (bool_decide_eq_true_2 (t = t)) by done. by rewrite bool_decide_eq_true_2.
  - rewrite lookup_insert_ne, (bool_decide_eq_false_2 (i = t)) by done. done.
Qed.

Lemma has_order_update i st t db j : has_order (update_order i st t db) j = has_order db j.
Proof.
  unfold has_order, update_order. cbn [db_orders set_orders]. apply bool_decide_ext.
  destruct (decide (j = i)) as [->|N]; [|by rewrite lookup_alter_ne by done].
  rewrite lookup_alter_eq. destruct (db_orders db !! i); split; intros [? ?]; eauto; discriminate.
Qed.

Lemma has_invoice_spec i db :
  has_invoice i db = true ↔ ∃ k r, db_invoices db !! k = Some r ∧ in_order_id r = i.
Proof.
  unfold has_invoice. rewrite negb_true_iff, bool_decide_eq_false. split.
  - intros H. apply map_not_Forall in H as (k & r & Hk & Hr); [|apply _]. exists k, r.
    split; [done|]. by apply dec_stable.
  - intros (k & r & Hk & Hr) H. by apply (H k r Hk).
Qed.

(** A change that leaves orders, shipments, invoices and cases alone. *)
Lemma grows_same db db' :
  db_orders db' = db_orders db → db_shipments db' = db_shipments db → db_invoices db' = db_invoices db →
  db_cases db' = db_cases db → grows db db'.
Proof.
  intros E1 E2 E3 E4. unfold grows, has_order, has_shipment, delivered, has_invoice, has_case.
  by rewrite E1, E2, E3, E4.
Qed.

Lemma grows_order db t x : grows db (set_orders (<[t := x]> (db_orders db)) db).
Proof.
  split; [|by split_and!]. intros i Hi. rewrite has_order_insert, Hi. apply orb_true_r.
Qed.

Lemma grows_update_order i st t db : grows db (update_order i st t db).
Proof. split; [|by split_and!]. intros j. by rewrite has_order_update. Qed.

Lemma has_shipment_insert db t x i :
  has_shipment (set_shipments (<[t := x]> (db_shipments db)) db) i = bool_decide (i = t) || has_shipment db i.
Proof.
  unfold has_shipment. cbn [db_shipments set_shipments]. destruct (decide (i = t)) as [->|N].
  - rewrite lookup_insert_eq, (bool_decide_eq_true_2 (t = t)) by done. by rewrite bool_decide_eq_true_2.
  - rewrite lookup_insert_ne, (bool_decide_eq_false_2 (i = t)) by done. done.
Qed.

(** A shipment is inserted, or replaced by one that is delivered if it was. *)
Lemma grows_shipment db t x :
  (delivered db t = true → is_Some (sh_delivered_date x)) →
  grows db (set_shipments (<[t := x]> (db_shipments db)) db).
Proof.
  intros Hx. split; [done|]. split; [|split; [|by split]].
  - intros i Hi. rewrite has_shipment_insert, Hi. apply orb_true_r.
  - intros i Hi. unfold delivered. cbn [db_shipments set_shipments]. destruct (decide (i = t)) as [->|N].
    + rewrite lookup_insert_eq. apply bool_decide_eq_true. by apply Hx.
    + by rewrite lookup_insert_ne by done.
Qed.

Lemma grows_invoice db i x :
  db_invoices db !! i = None → grows db (set_invoices (<[i := x]> (db_invoices db)) db).
Proof.
  intros Hi. split; [done|]. split; [done|]. split; [done|]. split; [|done].
  intros j (k & r & Hk & Hr)%has_invoice_spec. apply has_invoice_spec. exists k, r. split; [|done].
  cbn. rewrite lookup_insert_ne; [done|]. intros ->. congruence.
Qed.

Lemma has_case_insert db t x i :
  has_case (set_cases (<[t := x]> (db_cases db)) db) i = bool_decide (i = t) || has_case db i.
Proof.
  unfold has_case. cbn [db_cases set_cases]. destruct (decide (i = t)) as [->|N].
  - rewrite lookup_insert_eq, (bool_decide_eq_true_2 (t = t)) by done. by rewrite bool_decide_eq_true_2.
  - rewrite lookup_insert_ne, (bool_decide_eq_false_2 (i = t)) by done. done.
Qed.

Lemma grows_case db t x : grows db (set_cases (<[t := x]> (db_cases db)) db).
Proof.
  split; [done|]. split; [done|]. split; [done|]. split; [done|].
  intros i Hi. rewrite has_case_insert, Hi. apply orb_true_r.
Qed.

Lemma apply_order_grows e s s' u : _apply_order e s = (s', Ok u) →
  grows s s' ∧ ∃ i, payload_int e "order_id" = Ok i ∧ has_order s' i = true.
Proof.
  unfold _apply_order. intros H. io_inv.
  match goal with Hm : ensure_customer _ _ _ = _ |- _ => apply ensure_customer_inv in Hm as [c ->] end.
  cbn [db_orders set_customers] in H. destruct (db_orders s !! _) as [o|] eqn:Eo; ops_inv_steps.
  - split; [by apply grows_same|]. eexists. split; [done|]. unfold has_order. cbn. by rewrite Eo.
  - cbn [ht_get ht_set order_status_history] in *.
    destruct (first_product _) as [[pid [price cost]]|]; [|by ops_inv_steps].
    apply insert_line_inv in H as [l ->]. split.
    + etrans; [apply grows_order|]. by apply grows_same.
    + eexists. split; [done|]. unfold has_order. cbn. rewrite lookup_insert_eq. done.
Qed.

Lemma apply_shipment_grows e s s' u : _apply_shipment e s = (s', Ok u) →
  grows s s' ∧ ∃ i, payload_int e "shipment_id" = Ok i ∧ has_shipment s' i = true.
Proof.
  unfold _apply_shipment. intros H. io_inv.
  destruct (db_shipments s !! a) as [sh|] eqn:Esh; ops_inv_steps.
  { split; [done|]. exists a. split; [done|]. unfold has_shipment. by rewrite Esh. }
  destruct (db_orders s !! a0) as [o|] eqn:Eo; [|by ops_inv_steps].
  destruct (head (sort_on id (db_warehouses s))) as [w|]; [|by ops_inv_steps].
  destruct (head (sort_on id (db_carriers s))) as [c|]; [|by ops_inv_steps].
  ops_inv_steps. cbn [ht_get ht_set shipment_status_history] in *.
  assert (∀ x, grows s (set_shipments (<[a:=x]> (db_shipments s)) s)) as Hg.
  { intros x. apply grows_shipment. unfold delivered. by rewrite Esh. }
  destruct (String.eqb_spec (o_status o) "PENDING") as [Hst|]; ops_inv_steps; split.
  - etrans; [apply Hg|]. etrans; [|apply grows_update_order]. by apply grows_same.
  - exists a. split; [done|]. unfold has_shipment. cbn. by rewrite lookup_insert_eq.
  - etrans; [apply Hg|]. by apply grows_same.
  - exists a. split; [done|]. unfold has_shipment. cbn. by rewrite lookup_insert_eq.
Qed.

Lemma apply_delivery_grows e s s' u : _apply_delivery e s = (s', Ok u) →
  grows s s' ∧ ∃ i, payload_int e "shipment_id" = Ok i ∧ delivered s' i = true.
Proof.
  unfold _apply_delivery. intros H. io_inv.
  destruct (db_shipments s !! a) as [sh|] eqn:Esh; [|by ops_inv_steps].
  destruct (sh_delivered_date sh) eqn:Ed; ops_inv_steps.
  - split; [done|]. exists a. split; [done|]. unfold delivered. by rewrite Esh, Ed.
  - cbn [ht_get ht_set shipment_status_history] in *. split.
    + etrans; [apply (grows_shipment s a (mkShipment (sh_order_id sh) (sh_warehouse sh) (sh_carrier sh) (sh_ship_date sh)
        (sh_promised_delivery_date sh) (Some (business_date e)) (sh_tracking sh) (at_hour (business_date e) 17))); eauto|].
      by apply grows_same.
    + exists a. split; [done|]. unfold delivered. cbn. by rewrite lookup_insert_eq.
Qed.

Lemma apply_invoice_grows e s s' u : _apply_invoice e s = (s', Ok u) →
  grows s s' ∧ ∃ i, payload_int e "order_id" = Ok i ∧ has_invoice i s' = true.
Proof.
  unfold _apply_invoice. intros H. io_inv.
  destruct (has_invoice a s) eqn:Eh; ops_inv_steps; [split; [done|]; by exists a|].
  destruct (db_orders s !! a) as [o|] eqn:Eo; [|by ops_inv_steps].
  destruct (shipment_of a0 a s) as [sh|]; [|by ops_inv_steps].
  io_inv. match goal with H : insert_invoice _ _ _ = _ |- _ => apply insert_invoice_inv in H as -> end.
  ops_inv_steps. cbn [ht_get ht_set invoice_status_history] in *.
  pose proof (λ x, grows_invoice s _ x (next_id_fresh (db_invoices s))) as Hg.
  destruct (String.eqb_spec (o_status o) "SHIPPED") as [Hst|]; ops_inv_steps; split.
  - etrans; [apply Hg|]. etrans; [|apply grows_update_order]. by apply grows_same.
  - exists a. split; [done|]. apply has_invoice_spec. eexists _, _. cbn. rewrite lookup_insert_eq. done.
  - etrans; [apply Hg|]. by apply grows_same.
  - exists a. split; [done|]. apply has_invoice_spec. eexists _, _. cbn. rewrite lookup_insert_eq. done.
Qed.

Lemma apply_case_grows e s s' u : _apply_support_case e s = (s', Ok u) →
  grows s s' ∧ ∃ i, payload_int e "case_id" = Ok i ∧ has_case s' i = true.
Proof.
  unfold _apply_support_case. intros H. io_inv.
  destruct (db_cases s !! a) as [c|] eqn:Ec; ops_inv_steps.
  { split; [done|]. exists a. split; [done|]. unfold has_case. by rewrite Ec. }
  destruct (db_orders s !! _) as [o|]; [|by ops_inv_steps]. ops_inv_steps. split.
  - etrans; [apply grows_case|]. by apply grows_same.
  - exists a. split; [done|]. unfold has_case. cbn. by rewrite lookup_insert_eq.
Qed.

Lemma apply_resolution_grows e s s' u : _apply_support_resolution e s = (s', Ok u) → grows s s'.
Proof.
  unfold _apply_support_resolution, update_case. intros H. io_inv.
  destruct (db_cases s !! a) as [c|] eqn:Ec; [|by ops_inv_steps].
  destruct (negb _); ops_inv_steps; [done|]. etrans; [apply grows_case|]. by apply grows_same.
Qed.

Lemma apply_closure_grows e s s' u : _apply_support_closure e s = (s', Ok u) → grows s s'.
Proof.
  unfold _apply_support_closure, update_case. intros H. io_inv.
  destruct (db_cases s !! a) as [c|] eqn:Ec; [|by ops_inv_steps].
  destruct (negb _); ops_inv_steps; [done|]. etrans; [apply grows_case|]. by apply grows_same.
Qed.

Lemma apply_event_effect e s s' u : _apply_event e s = (s', Ok u) → grows s s' ∧ effect e s'.
Proof.
  unfold _apply_event, is_type. intros H.
  repeat match type of H with
  | (if String.eqb (event_type e) ?ty then _ else _) _ = _ => destruct (String.eqb_spec (event_type e) ty) as [Et|?]
  end; last by ops_inv_steps.
  all: unfold effect; rewrite ?Et.
  - apply apply_order_grows in H as [? ?]. split; [done|]. naive_solver.
  - apply apply_shipment_grows in H as [? ?]. split; [done|]. naive_solver.
  - apply apply_delivery_grows in H as [? ?]. split; [done|]. naive_solver.
  - apply apply_invoice_grows in H as [? ?]. split; [done|]. naive_solver.
  - apply apply_case_grows in H as [? ?]. split; [done|]. naive_solver.
  - apply apply_resolution_grows in H. split; [done|]. naive_solver.
  - apply apply_closure_grows in H. split; [done|]. naive_solver.
Qed.

(** ** Exactness *)

Lemma problem_nil {A} text (show : A → string) l : problem text show l = [] ↔ l = [].
Proof. by destruct l. Qed.

Lemma missing_ids_nil ids actual : missing_ids ids actual = [] ↔ ∀ i, i ∈ ids → actual i = true.
Proof.
  unfold missing_ids. split.
  - intros H i Hi. destruct (actual i) eqn:E; [done|].
    assert (i ∈ sort_by Z.leb (remove_dups (filter (λ i, actual i = false) ids))) as Hin
      by by rewrite elem_of_sort_by, elem_of_remove_dups, list_elem_of_filter.
    rewrite H in Hin. by apply elem_of_nil in Hin.
  - intros H. assert (filter (λ i, actual i = false) ids = []) as ->; [|done].
    apply elem_of_nil_inv. intros i [Hf Hi]%list_elem_of_filter. rewrite H in Hf; done.
Qed.

Lemma missing_texts_nil ids actual : missing_texts ids actual = [] ↔ ∀ i, i ∈ ids → i ∈ actual.
Proof.
  unfold missing_texts. split.
  - intros H i Hi. destruct (decide (i ∈ actual)) as [|N]; [done|].
    assert (i ∈ sort_on id (remove_dups (filter (λ i, i ∉ actual) ids))) as Hin
      by by rewrite elem_of_sort_on, elem_of_remove_dups, list_elem_of_filter.
    rewrite H in Hin. by apply elem_of_nil in Hin.
  - intros H. assert (filter (λ i, i ∉ actual) ids = []) as ->; [|done].
    apply elem_of_nil_inv. intros i [Hf Hi]%list_elem_of_filter. by apply Hf, H.
Qed.

Lemma missing_keys_nil text actual events ty key :
  _missing_key_problems text actual events ty key = Ok [] ↔
  ∀ e, e ∈ events → event_type e = ty → ∃ i, payload_int e key = Ok i ∧ actual i = true.
Proof.
  unfold _missing_key_problems. rewrite res_bind_ok. split.
  - intros (ids & Hids & H) e He Ht. injection H as H%problem_nil. rewrite missing_ids_nil in H.
    destruct (ids_of_ok _ _ _ _ Hids) as [Hin Hok]. specialize (Hok e He Ht).
    destruct (payload_int e key) as [i|] eqn:E; [|done]. exists i. split; [done|]. apply H, Hin. eauto.
  - intros H. destruct (ids_of_total ty key events) as [ids Hids].
    { intros e He Ht. by destruct (H e He Ht) as (i & -> & _). }
    exists ids. split; [done|]. f_equal. apply problem_nil, missing_ids_nil. intros i Hi.
    apply (ids_of_ok _ _ _ _ Hids) in Hi as (e & He & Ht & Hp). destruct (H e He Ht) as (j & Hj & Ha). congruence.
Qed.

Lemma ops_problems_nil events db :
  _ops_problems events db = Ok [] ↔ ∀ e, e ∈ events → event_id e ∈ db_applied db ∧ effect e db.
Proof.
  transitivity (_missing_markers "Ops" events (db_applied db) = [] ∧
    _missing_key_problems "ops.orders order_id values" (has_order db) events "order_created" "order_id" = Ok [] ∧
    _missing_key_problems "ops.shipments shipment_id values" (has_shipment db) events
      "shipment_created" "shipment_id" = Ok [] ∧
    _delivered_shipment_problems events db = Ok [] ∧
    _missing_key_problems "ops.invoices order_id values" (λ i, has_invoice i db) events
      "invoice_created" "order_id" = Ok [] ∧
    _missing_key_problems "ops.support_cases case_id values" (has_case db) events
      "support_case_opened" "case_id" = Ok []).
  - unfold _ops_problems. split.
    + intros H. do 5 inv_ok H. injection H as H. repeat apply app_eq_nil in H as [? H].
      subst. split_and!; congruence.
    + intros (-> & -> & -> & -> & -> & ->). done.
  - unfold _delivered_shipment_problems. rewrite !missing_keys_nil. unfold _missing_markers.
    rewrite problem_nil, missing_texts_nil. unfold effect. split.
    + intros (H0 & H1 & H2 & H3 & H4 & H5) e He. split; [apply H0; by apply list_elem_of_fmap_2|].
      split_and!; eauto.
    + intros H. split; [intros i (e & -> & He)%list_elem_of_fmap; by apply H|].
      split_and!; intros e He Ht; destruct (H e He) as (_ & H1 & H2 & H3 & H4 & H5); auto.
Qed.

(** ** Applied events reconcile *)

Lemma apply_fold_effect es n s s' m :
  io_fold apply_one es n s = (s', Ok m) → NoDup (event_id <$> es) →
  grows s s' ∧ ∀ e, e ∈ es → event_id e ∉ db_applied s → effect e s'.
Proof.
  revert n s. induction es as [|e es IH]; intros n s; cbn [io_fold]; intros H Hnd; io_inv.
  { split; [done|]. by intros e ?%elem_of_nil. }
  inversion Hnd as [|? ? Hne Hnd']; subst. pose proof (apply_one_ok _ _ _ _ _ Hm) as (_ & Happ & _).
  destruct (IH _ _ H Hnd') as [Hg Heff]. clear IH H.
  assert (grows s s0 ∧ (event_id e ∉ db_applied s → effect e s0)) as [Hg0 He0].
  { unfold apply_one in Hm. destruct (negb _); io_inv. destruct (bool_decide _) eqn:Eb; io_inv.
    - apply bool_decide_eq_true in Eb. by split.
    - match goal with Hm : _apply_event _ _ = _ |- _ => apply apply_event_effect in Hm as [Hg1 He1] end.
      split; [etrans; [exact Hg1|by apply grows_same]|]. intros _. eapply effect_grows; [|exact He1].
      by apply grows_same. }
  split; [by etrans|]. intros e' [->|He']%elem_of_cons Hni; [eapply effect_grows; eauto|].
  apply Heff; [done|]. rewrite Happ. intros [Heq%elem_of_singleton|?]%elem_of_union; [|done].
  apply Hne. rewrite <- Heq. by apply list_elem_of_fmap_2.
Qed.

Lemma apply_effect es s s' n :
  apply es s = (s', Ok n) → NoDup (event_id <$> es) →
  grows s s' ∧ ∀ e, e ∈ es → event_id e ∉ db_applied s → effect e s'.
Proof.
  unfold apply. intros H Hnd. apply apply_fold_effect in H as [Hg He].
  - split; [done|]. intros e Hin. apply He. by apply elem_of_sort_by.
  - by rewrite (sort_by_perm applied_before es).
Qed.

Lemma apply_applied es s s' n :
  apply es s = (s', Ok n) → ∀ x, x ∈ db_applied s' ↔ x ∈ event_id <$> es ∨ x ∈ db_applied s.
Proof.
  unfold apply. intros (_ & H & _)%apply_fold_ok x. rewrite H, elem_of_union, elem_of_list_to_set.
  rewrite !list_elem_of_fmap. by setoid_rewrite elem_of_sort_by.
Qed.

(** Reconciliation asks exactly for what applying delivers. The Ops checks find no problem if and
    only if every event of the day has its marker and left its business record (the order, the
    shipment, the delivery date, the order's invoice, the case); and when the day's new events are
    applied in the two transactions of the Ops runner, the checks find no problem. *)
Theorem ops_reconciliation events db :
  (_ops_problems events db = Ok [] ↔ ∀ e, e ∈ events → event_id e ∈ db_applied db ∧ effect e db) ∧
  (∀ orders rest db0 db1 n1 n2,
     NoDup (event_id <$> events) → (∀ e, e ∈ events → event_id e ∉ db_applied db0) →
     events ≡ₚ orders ++ rest →
     apply orders db0 = (db1, Ok n1) → apply rest db1 = (db, Ok n2) → _ops_problems events db = Ok []).
Proof.
  split; [apply ops_problems_nil|]. intros orders rest db0 db1 n1 n2 Hnd Hnew Hp H1 H2.
  apply ops_problems_nil. rewrite Hp, fmap_app in Hnd. apply NoDup_app in Hnd as (Hnd1 & Hdis & Hnd2).
  destruct (apply_effect _ _ _ _ H1 Hnd1) as [G1 E1]. destruct (apply_effect _ _ _ _ H2 Hnd2) as [G2 E2].
  pose proof (apply_applied _ _ _ _ H1) as A1. pose proof (apply_applied _ _ _ _ H2) as A2.
  intros e He. pose proof (Hnew e He) as Hni. rewrite Hp, elem_of_app in He. destruct He as [He|He].
  - split; [apply A2; right; apply A1; left; by apply list_elem_of_fmap_2|].
    eapply effect_grows; [exact G2|]. by apply E1.
  - split; [apply A2; left; by apply list_elem_of_fmap_2|]. apply E2; [done|].
    intros [Hin|?]%A1; [|done]. apply (Hdis _ Hin). by apply list_elem_of_fmap_2.
Qed.

Lemma ops_reconciliation_witness :
  apply witness_day witness_db = (witness_after, Ok 4) ∧ _ops_problems witness_day witness_after = Ok [].
Proof.
  assert (apply witness_day witness_db = (witness_after, Ok 4)) as E.
  { unfold witness_after. rewrite <- (proj1 witness_day_applies). apply surjective_pairing. }
  split; [exact E|].
  refine (proj2 (ops_reconciliation witness_day witness_after) [] witness_day witness_db witness_db 0 4 _ _ _ _ E).
  - apply (bool_decide_unpack _). vm_compute. exact I.
  - intros e _. apply not_elem_of_empty.
  - reflexivity.
  - reflexivity.
Defined.
