(* ===== verification/Erp.v ===== *)
(** * Finance: [simulator/erp.py], [simulator/erp_apply.py]

    The revenue postings planned from the invoices Operations hands over, and their application to
    the append-only ledger, with the currency conversion in [Decimal] arithmetic. *)

From stdpp Require Import prelude gmap strings list sorting.
From Stdlib Require Import ZArith Lia Ascii.
From S2P Require Import Prelude PyText Dates Sha256 PyNum Policy Events Planners OpsApply Reconcile.

Open Scope Z_scope.

(** ** The planner *)

Record OpsInvoice := mkOpsInvoice {
  oi_invoice_id : Z;
  oi_invoice_number : string;
  oi_order_id : Z;
  oi_invoice_date : date;
  oi_company_code : string;
  oi_company_currency : string;
  oi_document_currency : string;
  oi_amount_doc : decimal }.

Definition _posting_delay (p : SimulationPolicy) (i : OpsInvoice) : Z * option string :=
  let text := "erp:" +:+ str_of_Z (oi_invoice_id i) in
  let delay := window_delay (invoice_to_erp p) (digest_byte text 0) in
  if below_rate (digest_byte text 1) (delayed_erp_posting (anomalies p))
  then (maximum (invoice_to_erp p) + 1, Some "late_erp_posting") else (delay, None).

Definition posting_eligible (p : SimulationPolicy) (run_date : date) (breach_today : bool) (posted : gset Z)
    (i : OpsInvoice) : res (option (OpsInvoice * (Z * option string))) :=
  if bool_decide (oi_order_id i ∈ posted) then Ok None
  else
    let da := _posting_delay p i in
    let! due_date := add_days (oi_invoice_date i) da.1 in
    Ok (if (due_date <=? run_date) && negb (breach_today && (due_date =? run_date)) then Some (i, da) else None).

Definition make_posting (run_date : date) (numbered : Z * (OpsInvoice * (Z * option string))) : SourceEvent :=
  let i := numbered.2.1 in let da := numbered.2.2 in
  create run_date erp "revenue_posting_created" (str_of_Z numbered.1)
    (payload_of
       [("posting_id", PInt numbered.1);
        ("document_number", PStr (oi_company_code i +:+ "-" +:+ zpad 12 (oi_invoice_id i)));
        ("invoice_id", PInt (oi_invoice_id i)); ("invoice_number", PStr (oi_invoice_number i));
        ("order_ref", PInt (oi_order_id i)); ("company_code", PStr (oi_company_code i));
        ("company_currency", PStr (oi_company_currency i));
        ("document_currency", PStr (oi_document_currency i)); ("amount_doc", PDec (oi_amount_doc i));
        ("posting_date", PStr (isoformat (oi_invoice_date i)));
        ("invoice_to_erp_delay_days", PInt da.1)])
    None da.2.

(** The order of [sorted(eligible, key=lambda item: item[0].invoice_id)]. *)
Definition by_invoice_id (a b : OpsInvoice * (Z * option string)) : bool :=
  oi_invoice_id a.1 <=? oi_invoice_id b.1.

(** [ErpDailyPlanner.plan] *)
Definition plan_postings (p : SimulationPolicy) (run_date : date) (seed : Z) (invoices : list OpsInvoice)
    (posted : gset Z) (next_posting_id : Z) : res (list SourceEvent) :=
  let breach_today := is_weekly_sla_breach_date run_date seed in
  let! els := res_omap (posting_eligible p run_date breach_today posted) invoices in
  Ok (make_posting run_date <$> number_from next_posting_id (sort_by by_invoice_id els)).

(** ** The ledger *)

Record cost_center := mkCostCenter {
  cc_code : string; cc_company : string; cc_active : bool; cc_valid_from : date; cc_valid_to : option date }.
Record gl_account := mkGl { gl_code : string; gl_type : string; gl_postable : bool }.
Record fx_rate := mkFx { fx_from : string; fx_to : string; fx_type : string; fx_date : date; fx_value : decimal }.

Record posting := mkPosting {
  po_document_number : string;
  po_company_code : string;
  po_order_ref : Z;
  po_gl_account : string;
  po_cost_center : string;
  po_posting_date : date;
  po_fiscal_period : string;
  po_document_currency : string;
  po_amount_doc : decimal;
  po_company_currency : string;
  po_amount_company : decimal;
  po_posted_at : timestamp }.

Record erp_db := mkErp {
  ed_companies : gmap string string;
  ed_gl_accounts : list gl_account;
  ed_cost_centers : list cost_center;
  ed_fx_rates : list fx_rate;
  ed_postings : gmap Z posting;
  ed_applied : gset string }.

Definition set_postings x db := mkErp (ed_companies db) (ed_gl_accounts db) (ed_cost_centers db)
  (ed_fx_rates db) x (ed_applied db).
Definition set_erp_applied x db := mkErp (ed_companies db) (ed_gl_accounts db) (ed_cost_centers db)
  (ed_fx_rates db) (ed_postings db) x.

(** The digits before and after the decimal point. *)
Fixpoint at_point (l : list ascii) : list ascii * list ascii :=
  match l with
  | [] => ([], [])
  | c :: l => if bool_decide (c = "."%char) then ([], l) else let '(a, b) := at_point l in (c :: a, b)
  end.

(** [Decimal(text)] for the texts of finite numbers without an exponent. *)
Definition decimal_of_text (s : string) : res decimal :=
  let l := strip_list (chars s) in
  let '(neg, l) := match l with
                   | c :: l' => if bool_decide (c = "-"%char) then (true, l')
                                else if bool_decide (c = "+"%char) then (false, l') else (false, l)
                   | [] => (false, [])
                   end in
  let '(before, after) := at_point l in
  let ds := before ++ after in
  match ds, digits_value 0 ds with
  | _ :: _, Some n => Ok (Decimal (if neg then - n else n) (- Z.of_nat (length after)))
  | _, _ => raise InvalidOperation "[<class 'decimal.ConversionSyntax'>]"
  end.

(** [Decimal(str(payload[key]))] *)
Definition payload_decimal (e : SourceEvent) (key : string) : res decimal :=
  let! v := payload_get e key in decimal_of_text (to_str v).
Definition payload_str (e : SourceEvent) (key : string) : res string :=
  let! v := payload_get e key in Ok (to_str v).

(** The newest of the rates the [SELECT] finds. *)
Definition spot_rates (db : erp_db) (currency : string) (d : date) : list fx_rate :=
  filter (λ r, (fx_from r = currency ∧ fx_to r = "USD" ∧ fx_type r = "SPOT") ∧ fx_date r ≤ d) (ed_fx_rates db).

Definition _usd_rate (db : erp_db) (currency : string) (d : date) : res decimal :=
  if String.eqb currency "USD" then Ok (Decimal 1 0)
  else match head (sort_by (λ a b, fx_date b <=? fx_date a) (spot_rates db currency d)) with
       | Some r => Ok (fx_value r)
       | None => raise RuntimeError ("missing FX rate for " +:+ currency +:+ " on or before " +:+ isoformat d)
       end.

Definition _company_amount (db : erp_db) (amount_doc : decimal) (document_currency company_currency : string)
    (d : date) : res decimal :=
  if String.eqb document_currency company_currency then Ok (dec_cents amount_doc)
  else
    let! r := _usd_rate db document_currency d in
    let usd := dec_mul amount_doc r in
    if String.eqb company_currency "USD" then Ok (dec_cents usd)
    else let! c := _usd_rate db company_currency d in Ok (dec_cents (dec_div usd c)).

(** [posting_date.strftime("%Y-%m")] *)
Definition fiscal_period (d : date) : string := str (take 7 (chars (isoformat d))).

Definition revenue_account (db : erp_db) : option string :=
  head (sort_on id (gl_code <$> filter (λ g, gl_type g = "REVENUE" ∧ gl_postable g = true) (ed_gl_accounts db))).

Definition valid_on (company : string) (d : date) (c : cost_center) : bool :=
  String.eqb (cc_company c) company && cc_active c && (cc_valid_from c <=? d)
  && match cc_valid_to c with Some t => d <? t | None => true end.
Definition active_cost_center (db : erp_db) (company : string) (d : date) : option string :=
  head (sort_on id (cc_code <$> filter (λ c, valid_on company d c = true) (ed_cost_centers db))).

(** The constraints of [erp.revenue_postings] on a new invoice posting. *)
Definition posting_constraints (db : erp_db) (p : posting) : bool :=
  bool_decide (map_Forall (λ _ q, po_company_code q ≠ po_company_code p ∨
                                  po_document_number q ≠ po_document_number p) (ed_postings db))
  && (0 <? d_coef (po_amount_doc p))
  && (Z.sgn (d_coef (po_amount_doc p)) =? Z.sgn (d_coef (po_amount_company p)))
  && (at_hour (po_posting_date p) 0 <=? po_posted_at p).

Definition insert_posting (posting_id : Z) (p : posting) : io erp_db unit :=
  let* db := io_get in
  let* _ := raise_if (negb (posting_constraints db p)) IntegrityError "revenue_postings" in
  io_modify (λ db, set_postings (<[posting_id := p]> (ed_postings db)) db).

Definition _apply_posting (e : SourceEvent) : io erp_db unit :=
  let* posting_id := io_lift (payload_int e "posting_id") in
  let* order_ref := io_lift (payload_int e "order_ref") in
  let* db := io_get in
  match ed_postings db !! posting_id with
  | Some existing =>
    raise_if (negb (po_order_ref existing =? order_ref)) RuntimeError
      ("ERP posting ID collision for " +:+ str_of_Z posting_id)
  | None =>
    let* company_code := io_lift (payload_str e "company_code") in
    match ed_companies db !! company_code with
    | None => io_raise RuntimeError ("unknown ERP company " +:+ company_code)
    | Some functional_currency =>
      let* company_currency := io_lift (payload_str e "company_currency") in
      let* _ := raise_if (negb (String.eqb functional_currency company_currency)) RuntimeError
                  ("company currency changed for " +:+ company_code) in
      let* date_text := io_lift (payload_str e "posting_date") in
      let* posting_date := io_lift (match fromisoformat date_text with
                                    | Some d => Ok d
                                    | None => raise ValueError "Invalid isoformat string"
                                    end) in
      match revenue_account db, active_cost_center db company_code posting_date with
      | Some gl, Some cc =>
        let* amount_doc := io_lift (payload_decimal e "amount_doc") in
        let* document_currency := io_lift (payload_str e "document_currency") in
        let* amount_company := io_lift (_company_amount db amount_doc document_currency company_currency posting_date) in
        let* document_number := io_lift (payload_str e "document_number") in
        insert_posting posting_id
          (mkPosting document_number company_code order_ref gl cc posting_date (fiscal_period posting_date)
             document_currency amount_doc company_currency amount_company (at_hour (business_date e) 8))
      | _, _ => io_raise RuntimeError "ERP posting requires an active revenue account and cost center"
      end
    end
  end.

Definition apply_posting_event (applied : Z) (e : SourceEvent) : io erp_db Z :=
  if negb (bool_decide (source_system e = erp) && is_type "revenue_posting_created" e)
  then io_raise ValueError "ERP applier supports only planned revenue postings"
  else
    let* db := io_get in
    if bool_decide (event_id e ∈ ed_applied db) then io_ret applied
    else
      let* _ := _apply_posting e in
      let* _ := io_modify (λ db, set_erp_applied ({[event_id e]} ∪ ed_applied db) db) in
      io_ret (applied + 1).

(** [ErpEventApplier.apply] *)
Definition apply_postings (events : list SourceEvent) : io erp_db Z := io_fold apply_posting_event events 0.

(** [_erp_problems] of the reconciliation *)
Definition has_posting (db : erp_db) (i : Z) : bool := bool_decide (is_Some (ed_postings db !! i)).
Definition _erp_problems (events : list SourceEvent) (db : erp_db) : res (list string) :=
  let p0 := _missing_markers "ERP" events (ed_applied db) in
  let! p1 := _missing_key_problems "erp.revenue_postings posting_id values" (has_posting db) events
               "revenue_posting_created" "posting_id" in
  Ok (p0 ++ p1).

(** ** Planning *)

Definition due_date (p : SimulationPolicy) (i : OpsInvoice) : date := oi_invoice_date i + (_posting_delay p i).1.

Lemma posting_delay_window p i : policy_wf p →
  let '(d, a) := _posting_delay p i in
  (a = None ∧ minimum (invoice_to_erp p) ≤ d ≤ maximum (invoice_to_erp p)) ∨
  (a = Some "late_erp_posting" ∧ d = maximum (invoice_to_erp p) + 1).
Proof.
  intros H. unfold _posting_delay. destruct (below_rate _ _); [by right|left].
  split; [done|]. apply window_delay_range, H.
Qed.

(** Whether an invoice goes out on a day. *)
Definition goes_out (p : SimulationPolicy) (run_date : date) (seed : Z) (i : OpsInvoice) : Prop :=
  due_date p i < run_date ∨ (due_date p i = run_date ∧ is_weekly_sla_breach_date run_date seed = false).

Lemma posting_eligible_spec p d seed posted i r :
  posting_eligible p d (is_weekly_sla_breach_date d seed) posted i = Ok r →
  (r = Some (i, _posting_delay p i) ∧ oi_order_id i ∉ posted ∧ goes_out p d seed i) ∨
  (r = None ∧ (oi_order_id i ∈ posted ∨ ¬ goes_out p d seed i)).
Proof.
  unfold posting_eligible. destruct (bool_decide _) eqn:Eb.
  { apply bool_decide_eq_true in Eb. intros [= <-]. right. auto. }
  apply bool_decide_eq_false in Eb. unfold add_days, goes_out. change (oi_invoice_date i + (_posting_delay p i).1) with (due_date p i).
  destruct (_ && _); [|done]. cbn [res_bind]. intros [= <-].
  destruct (Z.leb_spec (due_date p i) d), (Z.eqb_spec (due_date p i) d), (is_weekly_sla_breach_date d seed);
    cbn [andb negb]; first [left; split_and!; [done..|]; (by left; lia) || (by right) | right; split; [done|]; right; intros [?|[? ?]]; done || lia].
Qed.

Lemma posting_numbers d n (l : list (OpsInvoice * (Z * option string))) :
  (λ e, payload e !! "posting_id") <$> (make_posting d <$> number_from n l)
  = (λ k, Some (PInt k)) <$> (number_from n l).*1.
Proof.
  rewrite <- !list_fmap_compose. apply list_fmap_ext. intros k [i x] _. reflexivity.
Qed.

(** Finance publishes every invoice exactly when it may. Whenever a day's postings are planned,
    an invoice gets a posting exactly when its order has none yet and its delay has run out, before
    that day, or on it when it is not the week's breach day: so an invoice that falls due on a
    breach day is held for one day and no longer. Delays lie in the policy's window, except one day
    past it for the postings flagged as late, and posting ids are consecutive from the first free one. *)
Theorem erp_posting_window p d seed invoices posted next events :
  policy_wf p → plan_postings p d seed invoices posted next = Ok events →
  (∀ e, e ∈ events → ∃ i, i ∈ invoices ∧ oi_order_id i ∉ posted ∧ goes_out p d seed i ∧
     payload e !! "order_ref" = Some (PInt (oi_order_id i)) ∧
     payload e !! "invoice_to_erp_delay_days" = Some (PInt (_posting_delay p i).1) ∧
     (anomaly_type e = None ∧ minimum (invoice_to_erp p) ≤ (_posting_delay p i).1 ≤ maximum (invoice_to_erp p) ∨
      anomaly_type e = Some "late_erp_posting" ∧ (_posting_delay p i).1 = maximum (invoice_to_erp p) + 1)) ∧
  (∀ i, i ∈ invoices → oi_order_id i ∉ posted → goes_out p d seed i →
     ∃ e, e ∈ events ∧ payload e !! "order_ref" = Some (PInt (oi_order_id i)) ∧
          payload e !! "invoice_id" = Some (PInt (oi_invoice_id i))) ∧
  ((λ e, payload e !! "posting_id") <$> events = (λ k, Some (PInt (next + Z.of_nat k))) <$> seq 0 (length events)).
Proof.
  intros Hp H. unfold plan_postings in H. inv_ok H. injection H as <-.
  destruct (res_omap_ok _ _ _ Hm) as [Hel Hok]. split; [|split].
  - intros e ([k x] & -> & Hin)%list_elem_of_fmap. apply elem_of_enumerate_from in Hin as [_ Hin].
    apply elem_of_sort_by, Hel in Hin as (i & Hi & Hx).
    apply posting_eligible_spec in Hx as [([= ->] & H1 & H2)|[? _]]; [|done]. exists i.
    pose proof (posting_delay_window p i Hp) as Hw. split_and!; try done.
    unfold make_posting. cbn [fst snd]. destruct (_posting_delay p i) as [delay a']. cbn. exact Hw.
  - intros i Hi Hni Hout. specialize (Hok i Hi).
    destruct (posting_eligible p d (is_weekly_sla_breach_date d seed) posted i) as [r|] eqn:E; [|done].
    pose proof E as E'. apply posting_eligible_spec in E as [(-> & _ & _)|[_ [?|?]]]; [|done|done].
    assert ((i, _posting_delay p i) ∈ a) as Ha by (apply Hel; eauto).
    apply (elem_of_sort_by by_invoice_id), (elem_of_number_from next) in Ha as [k Hk].
    exists (make_posting d (k, (i, _posting_delay p i))). split; [by apply list_elem_of_fmap_2|done].
  - rewrite posting_numbers. unfold number_from. rewrite length_fmap. generalize (sort_by by_invoice_id a). intros l.
    rewrite length_enumerate_from. clear. revert next.
    induction l as [|x l IH]; intros next; [done|]. cbn [enumerate_from fmap list_fmap length seq].
    rewrite IH. cbn [fst]. f_equal; [do 2 f_equal; lia|]. rewrite <- seq_shift, <- list_fmap_compose.
    apply list_fmap_ext. intros j k _. cbn. do 2 f_equal. lia.
Qed.

(** ** The ledger *)

(** What a posting made from an event satisfies. *)
Definition posting_ok (db : erp_db) (p : posting) : Prop :=
  po_fiscal_period p = fiscal_period (po_posting_date p) ∧
  0 < d_coef (po_amount_doc p) ∧ Z.sgn (d_coef (po_amount_company p)) = 1 ∧
  ed_companies db !! po_company_code p = Some (po_company_currency p) ∧
  _company_amount db (po_amount_doc p) (po_document_currency p) (po_company_currency p) (po_posting_date p)
    = Ok (po_amount_company p) ∧
  at_hour (po_posting_date p) 0 ≤ po_posted_at p.

(** The reference data stays, the ledger only grows. *)
Definition ledger_grows (db db' : erp_db) : Prop :=
  ed_companies db' = ed_companies db ∧ ed_fx_rates db' = ed_fx_rates db ∧
  ed_postings db ⊆ ed_postings db' ∧
  (∀ i p, ed_postings db' !! i = Some p → ed_postings db !! i = Some p ∨ posting_ok db p) ∧
  (∀ i j p q, ed_postings db' !! i = Some p → ed_postings db' !! j = Some q →
     po_company_code p = po_company_code q → po_document_number p = po_document_number q →
     i = j ∨ (ed_postings db !! i = Some p ∧ ed_postings db !! j = Some q)).

Lemma posting_ok_ext db db' p :
  ed_companies db' = ed_companies db → ed_fx_rates db' = ed_fx_rates db → posting_ok db' p → posting_ok db p.
Proof.
  unfold posting_ok, _company_amount, _usd_rate, spot_rates. intros -> ->. done.
Qed.

Lemma ledger_grows_refl db : ledger_grows db db.
Proof. split_and!; try done; auto. Qed.

Lemma ledger_grows_trans a b c : ledger_grows a b → ledger_grows b c → ledger_grows a c.
Proof.
  intros (A1 & A2 & A3 & A4 & A5) (B1 & B2 & B3 & B4 & B5). split_and!.
  - congruence.
  - congruence.
  - by etrans.
  - intros i p [H|H]%B4; [by apply A4|]. right. by eapply posting_ok_ext.
  - intros i j p q Hi Hj Hc Hd. destruct (B5 i j p q Hi Hj Hc Hd) as [|[? ?]]; [by left|]. by apply A5.
Qed.

Lemma insert_posting_grows db i p db' u :
  ed_postings db !! i = None → insert_posting i p db = (db', Ok u) →
  db' = set_postings (<[i := p]> (ed_postings db)) db ∧ posting_constraints db p = true.
Proof.
  intros Hi H. unfold insert_posting in H. io_inv.
  match goal with Hc : negb _ = false |- _ => apply negb_false_iff in Hc end. done.
Qed.

Lemma apply_posting_grows e db db' u :
  _apply_posting e db = (db', Ok u) →
  ledger_grows db db' ∧ ed_applied db' = ed_applied db ∧
  ∃ i, payload_int e "posting_id" = Ok i ∧ has_posting db' i = true.
Proof.
  unfold _apply_posting. intros H. io_inv. destruct (ed_postings db !! a) as [old|] eqn:Eold; io_inv.
  { split; [apply ledger_grows_refl|]. split; [done|]. exists a. split; [done|]. unfold has_posting. by rewrite Eold. }
  destruct (ed_companies db !! a1) as [fc|] eqn:Efc; io_inv.
  destruct (revenue_account db) as [gl|]; [|by io_inv].
  destruct (active_cost_center db a1 _) as [cc|]; [|by io_inv]. io_inv.
  match goal with Hc : negb (String.eqb fc _) = false |- _ => apply negb_false_iff, String.eqb_eq in Hc; subst fc end.
  apply insert_posting_grows in H as [-> Hc]; [|done]. unfold posting_constraints in Hc.
  cbn [po_company_code po_document_number po_amount_doc po_amount_company po_posting_date po_posted_at] in Hc.
  apply andb_true_iff in Hc as [Hc C4]. apply andb_true_iff in Hc as [Hc C3].
  apply andb_true_iff in Hc as [C1 C2]. apply bool_decide_eq_true in C1.
  split; [|split; [done|exists a; split; [done|]; unfold has_posting; cbn; by rewrite lookup_insert_eq]].
  split; [done|]. split; [done|]. cbn [ed_postings set_postings]. split; [by apply insert_subseteq|]. split.
  - intros i q Hi. apply lookup_insert_Some in Hi as [[_ <-]|[_ Hi]]; [right|by left].
    unfold posting_ok. cbn [po_company_code po_document_number po_amount_doc po_amount_company po_posting_date
      po_posted_at po_fiscal_period po_company_currency po_document_currency].
    apply Z.ltb_lt in C2. apply Z.eqb_eq in C3. apply Z.leb_le in C4.
    split_and!; try done. rewrite <- C3. by apply Z.sgn_pos.
  - intros i j q r Hi Hj Hcode Hdoc.
    apply lookup_insert_Some in Hi as [[<- <-]|[Ni Hi]], Hj as [[Ej Hr]|[Nj Hj]]; subst.
    + by left.
    + exfalso. destruct (C1 j r Hj) as [N|N]; by apply N.
    + exfalso. destruct (C1 i q Hi) as [N|N]; by apply N.
    + by right.
Qed.

Lemma apply_posting_event_ok n e db db' m :
  apply_posting_event n e db = (db', Ok m) →
  ledger_grows db db' ∧ (source_system e = erp ∧ event_type e = "revenue_posting_created") ∧
  ed_applied db' = {[event_id e]} ∪ ed_applied db ∧
  m - n = Z.of_nat (size (ed_applied db')) - Z.of_nat (size (ed_applied db)).
Proof.
  unfold apply_posting_event. intros H. destruct (negb _) eqn:Eg; io_inv.
  apply negb_false_iff, andb_true_iff in Eg as [Es Et]. apply bool_decide_eq_true in Es.
  apply is_type_spec in Et. destruct (bool_decide _) eqn:Ea; io_inv.
  - apply bool_decide_eq_true in Ea. split; [apply ledger_grows_refl|]. split; [done|]. split; [set_solver|lia].
  - apply bool_decide_eq_false in Ea.
    match goal with Hp : _apply_posting _ _ = _ |- _ => apply apply_posting_grows in Hp as (Hg & Happ & _) end.
    split; [destruct Hg as (?&?&?&?&?); by split_and!|]. split; [done|]. cbn [ed_applied set_erp_applied].
    rewrite Happ. split; [done|]. rewrite size_union by set_solver. rewrite size_singleton. lia.
Qed.

Lemma apply_postings_fold es n db db' m :
  io_fold apply_posting_event es n db = (db', Ok m) →
  ledger_grows db db' ∧ (∀ e, e ∈ es → source_system e = erp ∧ event_type e = "revenue_posting_created") ∧
  ed_applied db' = list_to_set (event_id <$> es) ∪ ed_applied db ∧
  m - n = Z.of_nat (size (ed_applied db')) - Z.of_nat (size (ed_applied db)).
Proof.
  revert n db. induction es as [|e es IH]; intros n db; cbn [io_fold]; intros H; io_inv.
  - split; [apply ledger_grows_refl|]. split; [by intros e ?%elem_of_nil|]. split; [set_solver|lia].
  - apply apply_posting_event_ok in Hm as (H1 & H2 & H3 & H4). apply IH in H as (H5 & H6 & H7 & H8).
    split; [by eapply ledger_grows_trans|]. split; [intros e' [->|?]%elem_of_cons; auto|].
    split; [rewrite H7, H3; set_solver|lia].
Qed.


(** ** A concrete posting *)

Definition witness_invoice : OpsInvoice :=
  mkOpsInvoice 9 "OPS-000000000050" 50 738999 "DE01" "EUR" "USD" (Decimal 12345 (-2)).
Definition witness_erp : erp_db :=
  mkErp {["DE01" := "EUR"]} [mkGl "4000" "REVENUE" true] [mkCostCenter "CC1" "DE01" true 730000 None]
    [mkFx "EUR" "USD" "SPOT" 738000 (Decimal 11 (-1)); mkFx "EUR" "USD" "SPOT" 738900 (Decimal 108 (-2))] ∅ ∅.

Lemma erp_posting_window_witness :
  ∃ events, plan_postings default_policy 739005 42 [witness_invoice] ∅ 70 = Ok events ∧
    ∃ e, e ∈ events ∧ payload e !! "order_ref" = Some (PInt 50) ∧ payload e !! "invoice_id" = Some (PInt 9).
Proof.
  destruct (plan_postings default_policy 739005 42 [witness_invoice] ∅ 70) as [events|] eqn:E;
    [|vm_compute in E; discriminate].
  exists events. split; [reflexivity|].
  destruct (erp_posting_window _ _ _ _ _ _ _ default_policy_wf E) as (_ & H & _).
  apply (H witness_invoice).
  - apply list_elem_of_here.
  - apply not_elem_of_empty.
  - left. vm_compute. reflexivity.
Defined.

Definition witness_postings : list SourceEvent :=
  [make_posting 739005 (70, (witness_invoice, (1, None)))].
Definition witness_ledger : erp_db := (apply_postings witness_postings witness_erp).1.

Example witness_amounts :
  (apply_postings witness_postings witness_erp).2 = Ok 1 ∧
  po_amount_company <$> ed_postings witness_ledger !! 70 = Some (Decimal 11431 (-2)).
Proof. vm_compute. split; reflexivity. Qed.

