(* ===== verification/Runs.v ===== *)
(** * Daily runs: [simulator/ops_run.py], [simulator/erp_run.py], [simulator/scheduler.py]

    The runners that plan, record and apply the events of one date for Operations and Finance, and the
    catch-up loop over the due dates. The state is the control
    database with the two source databases. *)

From stdpp Require Import prelude gmap strings list sorting relations.
From Stdlib Require Import ZArith Lia Ascii.
From S2P Require Import Prelude PyText Dates PyNum Policy Events SimState Soql Planners OpsApply Reconcile Erp.

Open Scope Z_scope.

Record world := mkWorld { w_sim : sim_state; w_ops : ops_db; w_erp : erp_db }.

Definition set_sim x w := mkWorld x (w_ops w) (w_erp w).
Definition set_ops x w := mkWorld (w_sim w) x (w_erp w).
Definition set_erp x w := mkWorld (w_sim w) (w_ops w) x.

Definition on_sim {A} (m : io sim_state A) : io world A := io_zoom w_sim set_sim m.
Definition on_ops {A} (m : io ops_db A) : io world A := io_zoom w_ops set_ops m.
Definition on_erp {A} (m : io erp_db A) : io world A := io_zoom w_erp set_erp m.

(** ** The Ops runner *)

(** [_read_snapshot]: the next order id and the opportunities that have an order. *)
Definition converted_refs (refs : list string) (db : ops_db) : gset string :=
  list_to_set (filter (λ r, negb (bool_decide (map_Forall (λ _ o, o_opportunity_ref o ≠ Some (PStr r)) (db_orders db)))
                            = true) refs).
Definition _read_snapshot (refs : list string) (db : ops_db) : Z * gset string :=
  (next_id (db_orders db), converted_refs refs db).

(** [_read_fulfillment_snapshot] for the orders of the recorded events *)
Definition _read_fulfillment_snapshot (order_ids : list Z) (db : ops_db) : Z * gset Z * gset Z * gset Z :=
  let ships := filter (λ kv : Z * shipment, sh_order_id kv.2 ∈ order_ids) (map_to_list (db_shipments db)) in
  (next_id (db_shipments db),
   list_to_set ((λ kv : Z * shipment, sh_order_id kv.2) <$> ships),
   list_to_set (filter (λ i, has_invoice i db = true) order_ids),
   list_to_set ((λ kv : Z * shipment, kv.1) <$>
     filter (λ kv : Z * shipment, is_Some (sh_delivered_date kv.2)) ships)).

Definition _plan_fulfillment (p : SimulationPolicy) (run_date : date) (events : list SourceEvent) (db : ops_db)
    : res (list SourceEvent) :=
  let! order_ids := ids_of "order_created" "order_id" events in
  let '(next, shipped, invoiced, delivered) := _read_fulfillment_snapshot order_ids db in
  plan_fulfillment p run_date events shipped invoiced delivered next.

Definition _plan_support_cases (run_date : date) (events : list SourceEvent) (db : ops_db)
    : res (list SourceEvent) :=
  plan_support run_date events (next_id (db_cases db)).

Definition apply_ops (events : list SourceEvent) : io world Z := on_ops (transaction (apply events)).

Definition fulfillment_types : list string :=
  ["shipment_created"; "shipment_delivered"; "invoice_created"; "support_case_opened";
   "support_case_resolved"; "support_case_closed"].

(** The day's orders: those recorded by an earlier attempt, or newly planned ones. *)
Definition day_orders (p : SimulationPolicy) (run_date : date) : io world (list SourceEvent) :=
  let* current := on_sim (events_for run_date ops) in
  let recorded := filter (λ e, is_type "order_created" e = true) current in
  match recorded with
  | _ :: _ => io_ret recorded
  | [] =>
    let* crm_events := on_sim (events_through run_date crm false) in
    let* w := io_get in
    let '(next, converted) := _read_snapshot (entity_id <$> crm_events) (w_ops w) in
    let* orders := io_lift (plan_orders p run_date crm_events converted next) in
    let* _ := on_sim (record_events orders) in
    io_ret orders
  end.

(** [OpsRun.run] *)
Definition run_ops (p : SimulationPolicy) (run_date : date) (seed : Z) : io world (Z * Z) :=
  let* _ := on_sim (claim_run run_date seed) in
  let* crm_state := on_sim (source_run_state run_date crm) in
  let* _ := raise_if (negb (bool_decide (crm_state = source_applied))) SimulationStateError
              "CRM must apply before Ops planning" in
  let* orders := day_orders p run_date in
  let* applied := apply_ops orders in
  let* all_ops := on_sim (events_through run_date ops false) in
  let* w := io_get in
  let* fulfillment := io_lift (_plan_fulfillment p run_date all_ops (w_ops w)) in
  let* _ := on_sim (record_events fulfillment) in
  let* all_ops := on_sim (events_through run_date ops false) in
  let* w := io_get in
  let* support := io_lift (_plan_support_cases run_date all_ops (w_ops w)) in
  let* _ := on_sim (record_events support) in
  let* today := on_sim (events_for run_date ops) in
  let* applied' := apply_ops (filter (λ e, existsb (String.eqb (event_type e)) fulfillment_types = true) today) in
  let* today := on_sim (events_for run_date ops) in
  let records := Z.of_nat (length today) in
  let* _ := on_sim (mark_source_applied run_date ops records (applied + applied')) in
  io_ret (records, applied + applied').

(** ** The ERP runner *)

(** [_read_ops_invoices]: issued invoices joined with their order and its customer, by id. *)
Definition ops_invoice (db : ops_db) (kv : Z * invoice) : option OpsInvoice :=
  let i := kv.2 in
  match db_orders db !! in_order_id i with
  | Some o => match db_customers db !! o_customer_id o with
              | Some c => Some (mkOpsInvoice kv.1 (in_number i) (in_order_id i) (in_date i) (cu_company_code c) ""
                                  (in_currency_code i) (Decimal (in_amount i) (-2)))
              | None => None
              end
  | None => None
  end.
Definition _read_ops_invoices (db : ops_db) : list OpsInvoice :=
  omap (ops_invoice db) (sort_by (λ a b : Z * invoice, a.1 <=? b.1)
    (filter (λ kv : Z * invoice, in_status kv.2 = "ISSUED") (map_to_list (db_invoices db)))).

(** [_read_erp_snapshot]: the next posting id, the orders that are posted, and a check that every
    company is known. *)
Definition _read_erp_snapshot (company_codes : list string) (order_ids : list Z) (db : erp_db)
    : res (Z * gset Z) :=
  let posted : gset Z := list_to_set (filter (λ i, i ∈ order_ids) ((po_order_ref <$> (map_to_list (ed_postings db)).*2))) in
  let missing := remove_dups (filter (λ c, ed_companies db !! c = None) company_codes) in
  if bool_decide (missing = []) then Ok (next_id (ed_postings db), posted)
  else raise RuntimeError ("Ops invoice refers to unknown ERP companies: ["
         +:+ join ", " (py_repr <$> sort_on id missing) +:+ "]").

Definition enrich (db : erp_db) (i : OpsInvoice) : OpsInvoice :=
  mkOpsInvoice (oi_invoice_id i) (oi_invoice_number i) (oi_order_id i) (oi_invoice_date i) (oi_company_code i)
    (default "" (ed_companies db !! oi_company_code i)) (oi_document_currency i) (oi_amount_doc i).

Definition day_postings (p : SimulationPolicy) (run_date : date) (seed : Z) : io world (list SourceEvent) :=
  let* recorded := on_sim (events_for run_date erp) in
  match recorded with
  | _ :: _ => io_ret recorded
  | [] =>
    let* w := io_get in
    let invoices := _read_ops_invoices (w_ops w) in
    let* snapshot := io_lift (_read_erp_snapshot (oi_company_code <$> invoices) (oi_order_id <$> invoices) (w_erp w)) in
    let* events := io_lift (plan_postings p run_date seed (enrich (w_erp w) <$> invoices) snapshot.2 snapshot.1) in
    let* _ := on_sim (record_events events) in
    io_ret events
  end.

Section Runs.
(** [validate_opportunity_history_partition] on the CRM delta files *)
Context (crm_problems : date → list SourceEvent → res (list string)).

Definition reconcile_day (run_date : date) : io world unit :=
  let* crm_events := on_sim (events_for run_date crm) in
  let* ops_events := on_sim (events_for run_date ops) in
  let* erp_events := on_sim (events_for run_date erp) in
  let* w := io_get in
  let* _ := io_lift (reconcile run_date crm_events ops_events erp_events (crm_problems run_date crm_events)
                       (_ops_problems ops_events (w_ops w)) (_erp_problems erp_events (w_erp w))) in
  io_ret tt.

(** [ErpRun.run] *)
Definition run_erp (p : SimulationPolicy) (run_date : date) (seed : Z) : io world (Z * Z) :=
  let* _ := on_sim (claim_run run_date seed) in
  let* ops_state := on_sim (source_run_state run_date ops) in
  let* _ := raise_if (negb (bool_decide (ops_state = source_applied))) SimulationStateError
              "Ops must apply before ERP planning" in
  let* events := day_postings p run_date seed in
  let* applied := on_erp (transaction (apply_postings events)) in
  let* _ := on_sim (mark_source_applied run_date erp (Z.of_nat (length events)) applied) in
  let* _ := reconcile_day run_date in
  let* _ := on_sim (complete_run run_date) in
  io_ret (Z.of_nat (length events), applied).
End Runs.

(** ** What a run of one date may do to the control state *)

Inductive day_step (d : date) : sim_state → sim_state → Prop :=
| day_claim seed s : day_step d s (claim_run d seed s).1
| day_mark src g a s : day_step d s (mark_source_applied d src g a s).1
| day_record es s : day_step d s (record_events es s).1
| day_complete s : is_Some (s_runs s !! d) → day_step d s (complete_run d s).1.

(** Such a step keeps the invariant and moves the watermark to its own date only. *)
Lemma day_step_inv d b w s s' :
  sim_inv b w s → day_step d s s' → ∃ w', sim_inv b w' s' ∧ (w' = w ∨ (w' = d ∧ d = w + 1)).
Proof.
  intros H. destruct 1 as [seed s|src g a s|es s|s Hd].
  - exists w. split; [by apply claim_run_inv|by left].
  - exists w. split; [by apply mark_inv|by left].
  - exists w. split; [by apply record_events_inv|by left].
  - destruct (complete_run d s) as [s' [[]|e]] eqn:E; simpl.
    + destruct (complete_inv b w s d s') as [-> ?]; try done. exists (w + 1). split; [done|by right].
    + exists w. split; [|by left]. rewrite (complete_run_spec b w) in E by done. by repeat case_match; simplify_eq.
Qed.

Lemma day_steps_inv d b w s s' :
  sim_inv b w s → rtc (day_step d) s s' → ∃ w', sim_inv b w' s' ∧ (w' = w ∨ (w' = d ∧ d = w + 1)).
Proof.
  intros H Hr. revert w H. induction Hr as [s|s s1 s2 Hst _ IH]; intros w H; [exists w; auto|].
  destruct (day_step_inv d b w s s1 H Hst) as (w1 & H1 & Hw1). destruct (IH w1 H1) as (w2 & H2 & Hw2).
  exists w2. split; [done|]. lia.
Qed.

(** ** The scheduler *)

(** What the scheduler asks of the runner of a source system: it works on the date it is given. *)
Class DailySourceRun (S : Type) (sim : S → sim_state) := {
  daily_run : date → Z → io S unit;
  daily_run_steps : ∀ b w d seed s, sim_inv b w (sim s) → rtc (day_step d) (sim s) (sim (daily_run d seed s).1) }.
Arguments daily_run {S sim} _ _ _ _.

Section Scheduler.
Context {S : Type} (sim : S → sim_state) (set_sim_of : sim_state → S → S).
Context (set_sim_get : ∀ s, set_sim_of (sim s) s = s).
Context (crm_run ops_run erp_run : DailySourceRun S sim).

Definition on_state {A} (m : io sim_state A) : io S A := io_zoom sim set_sim_of m.

Definition run_date (seed : Z) (completed : list date) (d : date) : io S (list date) :=
  let* _ := daily_run crm_run d seed in
  let* _ := daily_run ops_run d seed in
  let* _ := daily_run erp_run d seed in
  let* last := on_state last_completed_date in
  let* _ := raise_if (negb (last =? d)) SimulationStateError "ERP did not complete the simulation date" in
  io_ret (completed ++ [d]).

(** [DailySimulationRunner.run_through] *)
Definition run_through (through_date : date) (seed : Z) : io S (list date) :=
  let* due := on_state (due_dates through_date) in
  io_fold (run_date seed) due [].

Lemma last_completed_inv b w s : sim_inv b w (sim s) → on_state last_completed_date s = (s, Ok w).
Proof.
  intros H. unfold on_state, io_zoom, last_completed_date, io_bind, io_get, io_lift.
  rewrite (read_date_inv b w) by done. by rewrite set_sim_get.
Qed.

(** One date: the watermark stays, or the date completes. *)
Lemma run_date_inv b w seed completed d s :
  sim_inv b w (sim s) →
  let '(s', r) := run_date seed completed d s in
  ∃ w', sim_inv b w' (sim s') ∧ (w' = w ∨ (w' = d ∧ d = w + 1)) ∧
        match r with Ok ds => ds = completed ++ [d] ∧ w' = d | Err _ => True end.
Proof.
  intros H. unfold run_date, io_bind.
  pose proof (daily_run_steps (DailySourceRun:=crm_run) b w d seed s H) as Hr1.
  destruct (day_steps_inv d b w _ _ H Hr1) as (w1 & H1 & Hw1).
  destruct (daily_run crm_run d seed s) as [s1 [[]|e1]]; [|by exists w1]. cbn [fst] in *.
  pose proof (daily_run_steps (DailySourceRun:=ops_run) b w1 d seed s1 H1) as Hr2.
  destruct (day_steps_inv d b w1 _ _ H1 Hr2) as (w2 & H2 & Hw2).
  destruct (daily_run ops_run d seed s1) as [s2 [[]|e2]]; [|exists w2; split; [done|split; [lia|done]]]. cbn [fst] in *.
  pose proof (daily_run_steps (DailySourceRun:=erp_run) b w2 d seed s2 H2) as Hr3.
  destruct (day_steps_inv d b w2 _ _ H2 Hr3) as (w3 & H3 & Hw3).
  destruct (daily_run erp_run d seed s2) as [s3 [[]|e3]]; [|exists w3; split; [done|split; [lia|done]]]. cbn [fst] in *.
  rewrite (last_completed_inv b w3) by done. unfold raise_if, io_raise, io_ret.
  destruct (Z.eqb_spec w3 d) as [->|]; cbn [negb].
  - exists d. split; [done|]. split; [lia|done].
  - exists w3. split; [done|]. split; [lia|done].
Qed.

Lemma run_dates_inv b seed n : ∀ w last completed s,
  (n = Z.to_nat (last - w))%nat → w ≤ last → sim_inv b w (sim s) →
  let '(s', r) := io_fold (run_date seed) (date_range (w + 1) last) completed s in
  ∃ w', sim_inv b w' (sim s') ∧ w ≤ w' ≤ last ∧
        match r with Ok ds => ds = completed ++ date_range (w + 1) last ∧ w' = last | Err _ => True end.
Proof.
  induction n as [|n IH]; intros w last completed s Hn Hw H.
  - rewrite date_range_nil by lia. cbn [io_fold]. unfold io_ret. exists w. split; [done|]. split; [lia|].
    rewrite app_nil_r. split; [done|lia].
  - rewrite date_range_cons by lia. cbn [io_fold]. unfold io_bind at 1.
    pose proof (run_date_inv b w seed completed (w + 1) s H) as Hd.
    destruct (run_date seed completed (w + 1) s) as [s1 [ds|e]]; destruct Hd as (w1 & H1 & Hw1 & Hr).
    + destruct Hr as [-> ->]. specialize (IH (w + 1) last (completed ++ [w + 1]) s1 ltac:(lia) ltac:(lia) H1).
      destruct (io_fold _ _ _ s1) as [s2 [ds|e]]; destruct IH as (w2 & H2 & Hw2 & Hr2); exists w2;
        (split; [done|split; [lia|]]); [|done].
      destruct Hr2 as [-> ->]. by rewrite <- app_assoc.
    + exists w1. split; [done|]. split; [lia|done].
Qed.

(** [run_through] moves the watermark towards the requested date, and there if it returns. *)
Lemma run_through_inv b w through_date seed s :
  sim_inv b w (sim s) →
  let '(s', r) := run_through through_date seed s in
  ∃ w', sim_inv b w' (sim s') ∧ w ≤ w' ≤ Z.max w through_date ∧
        match r with Ok ds => ds = date_range (w + 1) through_date ∧ w' = Z.max w through_date | Err _ => True end.
Proof.
  intros H. pose proof (run_dates_inv b seed (Z.to_nat (Z.max w through_date - w)) w (Z.max w through_date) [] s eq_refl ltac:(lia) H) as Hrun.
  assert (date_range (w + 1) (Z.max w through_date) = date_range (w + 1) through_date) as Erange.
  { destruct (Z.max_spec w through_date) as [[? ->]|[? ->]]; [done|]. by rewrite !date_range_nil by lia. }
  rewrite Erange in Hrun. unfold run_through, on_state at 1, io_zoom, io_bind at 1.
  rewrite (due_dates_spec b w) by done. rewrite set_sim_get. exact Hrun.
Qed.
End Scheduler.

(** C6: Catch-up is ordered, complete and resumable. Let the runners of the three sources do to the
    control state only what concerns the date they are given. From any reachable state,
    [run_through] never moves the watermark back or past the requested date, and every date it
    completes has all three sources applied; if it returns, it reports exactly the due dates, in
    order, and the watermark is the requested date; if a runner fails, the due dates of the next
    call are exactly those after the last completed one. *)
Theorem catch_up_resumes {S} (sim : S → sim_state) (set_sim_of : sim_state → S → S)
    (crm_run ops_run erp_run : DailySourceRun S sim) (b through_date : date) (seed : Z) (s : S) :
  (∀ s, set_sim_of (sim s) s = s) → 1 ≤ b ≤ date_max →
  rtc sim_step (initialize b empty_sim).1 (sim s) →
  ∃ w w', last_completed_date (sim s) = (sim s, Ok w) ∧
    let '(s', r) := run_through sim set_sim_of crm_run ops_run erp_run through_date seed s in
    last_completed_date (sim s') = (sim s', Ok w') ∧ w ≤ w' ≤ Z.max w through_date ∧
    (∀ d src, w < d ≤ w' → ∃ row, s_sources (sim s') !! (d, src) = Some row ∧ sr_state row = source_applied) ∧
    due_dates through_date (sim s') = (sim s', Ok (date_range (w' + 1) through_date)) ∧
    match r with
    | Ok ds => ds = date_range (w + 1) through_date ∧ w' = Z.max w through_date
    | Err _ => True
    end.
Proof.
  intros Hget Hb Hr. destruct (sim_reach_inv b b _ _ (initialize_inv b Hb) Hr) as (w & Hw & H).
  assert (∀ w s, sim_inv b w s → last_completed_date s = (s, Ok w)) as Hlast.
  { intros w1 s1 H1. unfold last_completed_date, io_bind, io_get, io_lift. by rewrite (read_date_inv b w1). }
  pose proof (run_through_inv sim set_sim_of Hget crm_run ops_run erp_run b w through_date seed s H) as Hrun.
  destruct (run_through _ _ _ _ _ _ _ s) as [s' r]. destruct Hrun as (w' & H' & Hw' & Hres).
  exists w, w'. split; [by apply Hlast|]. split; [by apply Hlast|]. split; [done|]. split.
  - intros d src Hd. pose proof (inv_dates _ _ _ H).
    destruct (proj2 (inv_sources _ _ _ H' d src)) as [row Hrow]; [apply (inv_no_gap _ _ _ H'); lia|].
    exists row. split; [done|]. eapply (inv_applied _ _ _ H'); [|done]. lia.
  - split; [by apply (due_dates_spec b)|]. by destruct r.
Qed.

(** ** The runners of Operations and Finance keep to their date *)

Definition reached (d : date) (s0 : sim_state) (w : world) : Prop := rtc (day_step d) s0 (w_sim w).

Lemma preserves_on_sim {A} d s0 (m : io sim_state A) :
  (∀ t, rtc (day_step d) t (m t).1) → preserves (reached d s0) (on_sim m).
Proof.
  intros Hm w Hw. unfold on_sim, io_zoom. specialize (Hm (w_sim w)). destruct (m (w_sim w)) as [t r].
  unfold reached in *. cbn in *. by etrans.
Qed.

Lemma preserves_on_ops {A} d s0 (m : io ops_db A) : preserves (reached d s0) (on_ops m).
Proof. intros w Hw. unfold on_ops, io_zoom. by destruct (m (w_ops w)). Qed.
Lemma preserves_on_erp {A} d s0 (m : io erp_db A) : preserves (reached d s0) (on_erp m).
Proof. intros w Hw. unfold on_erp, io_zoom. by destruct (m (w_erp w)). Qed.

Lemma preserves_raise_if_world I b c msg : preserves (S:=world) I (raise_if b c msg).
Proof. unfold raise_if. destruct b; auto with nw. Qed.

Lemma source_run_state_same d src t : (source_run_state d src t).1 = t.
Proof. unfold source_run_state, io_bind, io_get. by destruct (s_sources t !! (d, src)). Qed.

#[local] Hint Resolve preserves_on_ops preserves_on_erp preserves_raise_if_world : nw.

(** Steps of the runners: claims, marks, records and reads of the date. *)
Ltac keep_date :=
  repeat first
    [ apply preserves_bind; [|intros ?]
    | apply preserves_on_sim; intros ?;
      first [ rewrite source_run_state_same; reflexivity
            | reflexivity
            | apply rtc_once; first [apply day_claim | apply day_mark | apply day_record] ]
    | solve [auto with nw]
    | case_match ].

Lemma run_ops_steps p d seed s0 : preserves (reached d s0) (run_ops p d seed).
Proof. unfold run_ops, day_orders, apply_ops. keep_date. Qed.

Lemma preserves_bind_ok {S A B} (I : S → Prop) (m : io S A) (k : A → io S B) :
  preserves I m → (∀ s a s', m s = (s', Ok a) → I s' → I (k a s').1) → preserves I (io_bind m k).
Proof.
  intros Hm Hk s Hs. unfold io_bind. specialize (Hm s Hs). specialize (Hk s).
  destruct (m s) as [s' [a|e]]; [by apply (Hk a s')|done].
Qed.

(** A source that was marked has a row, so its date was claimed. *)
Lemma mark_claimed d src g a t t' u :
  mark_source_applied d src g a t = (t', Ok u) → is_Some (s_sources t' !! (d, src)).
Proof.
  unfold mark_source_applied. intros H. io_inv. destruct (s_sources t !! (d, src)); io_inv.
  cbn. rewrite lookup_insert_eq. eauto.
Qed.

Lemma reconcile_day_sim crm_problems d w : w_sim (reconcile_day crm_problems d w).1 = w_sim w.
Proof.
  unfold reconcile_day, on_sim, io_zoom, events_for, events_through, io_bind, io_get, io_lift, io_ret. cbn.
  by destruct (reconcile _ _ _ _ _ _ _).
Qed.

Lemma run_erp_steps crm_problems p d seed b wm s0 :
  sim_inv b wm s0 → preserves (reached d s0) (run_erp crm_problems p d seed).
Proof.
  intros H0. unfold run_erp, day_postings. do 5 (apply preserves_bind; [keep_date|intros ?]).
  apply preserves_bind_ok; [keep_date|]. intros s [] s' Hmark Hs'.
  assert (is_Some (s_sources (w_sim s') !! (d, erp))) as Hrow.
  { unfold on_sim, io_zoom in Hmark. destruct (mark_source_applied _ _ _ _ _) as [t' [u|]] eqn:E; [|done].
    injection Hmark as <-. cbn. by eapply mark_claimed. }
  unfold io_bind at 1. pose proof (reconcile_day_sim crm_problems d s') as Erec.
  destruct (reconcile_day crm_problems d s') as [s2 [u|]]; cbn [fst] in *; unfold reached in *;
    [|by rewrite Erec].
  destruct (day_steps_inv d b wm s0 _ H0 Hs') as (w1 & H1 & _).
  unfold io_bind, on_sim, io_zoom, io_ret. rewrite Erec.
  destruct (complete_run d (w_sim s')) as [t r] eqn:Ec.
  assert (rtc (day_step d) s0 t) as Ht.
  { etrans; [exact Hs'|]. apply rtc_once. replace t with (complete_run d (w_sim s')).1 by by rewrite Ec.
    apply day_complete. by apply (inv_sources _ _ _ H1 d erp). }
  by destruct r.
Qed.

#[export] Instance ops_daily (p : SimulationPolicy) : DailySourceRun world w_sim.
Proof.
  refine {| daily_run := λ d seed, run_ops p d seed ;;; io_ret tt |}.
  intros b w d seed s _. apply (preserves_bind (reached d (w_sim s))); [apply run_ops_steps|auto with nw|].
  unfold reached. reflexivity.
Defined.

#[export] Instance erp_daily (crm_problems : date → list SourceEvent → res (list string)) (p : SimulationPolicy) : DailySourceRun world w_sim.
Proof.
  refine {| daily_run := λ d seed, run_erp crm_problems p d seed ;;; io_ret tt |}.
  intros b w d seed s H. apply (preserves_bind (reached d (w_sim s))); [by eapply run_erp_steps|auto with nw|].
  unfold reached. reflexivity.
Defined.

(** ** A concrete catch-up *)

(** A source that applies nothing. *)
#[export] Instance idle_daily : DailySourceRun world w_sim.
Proof.
  refine {| daily_run := λ d seed, on_sim (claim_run d seed) ;;; on_sim (mark_source_applied d crm 0 0) |}.
  intros b w d seed s _. apply (preserves_bind (reached d (w_sim s))); [|intros _|unfold reached; reflexivity]; keep_date.
Defined.

Definition witness_world : world := mkWorld (initialize 738886 empty_sim).1 witness_db witness_erp.

Example witness_catch_up :
  (run_through w_sim set_sim idle_daily (ops_daily default_policy) (erp_daily (λ _ _, Ok []) default_policy)
     738888 42 witness_world).2 = Ok [738887; 738888].
Proof. vm_compute. reflexivity. Qed.

Lemma catch_up_resumes_witness :
  ∃ w w', let '(s', r) := run_through w_sim set_sim idle_daily (ops_daily default_policy)
                            (erp_daily (λ _ _, Ok []) default_policy) 738888 42 witness_world in
    last_completed_date (w_sim s') = (w_sim s', Ok w') ∧ w ≤ w' ≤ Z.max w 738888.
Proof.
  destruct (catch_up_resumes w_sim set_sim idle_daily (ops_daily default_policy)
    (erp_daily (λ _ _, Ok []) default_policy) 738886 738888 42 witness_world) as (w & w' & _ & H).
  - by intros [].
  - vm_compute. split; discriminate.
  - reflexivity.
  - exists w, w'. destruct (run_through _ _ _ _ _ _ _ _) as [s' r]. destruct H as (H1 & H2 & _).
    split; [exact H1|exact H2].
Defined.
