(* ===== verification/Migrate.v ===== *)
(** * Schema migrations: [generator/migrate.py]

    The ordered, checksummed migrations of one source database: reading a checkout, checking the
    ledger [simulation.schema_migrations] against it, and running what is pending inside the
    caller's transaction. The effect of a script on the database is a parameter. *)

From stdpp Require Import prelude gmap strings list relations.
From Stdlib Require Import ZArith Lia Ascii.
From S2P Require Import Prelude PyText Sha256.

Open Scope Z_scope.

Record Migration := mkMigration {
  mg_version : Z;
  mg_filename : string;
  mg_checksum : string;
  mg_sql : string }.

(** ** Reading a checkout *)

Definition name_char (c : ascii) : bool :=
  in_range 97 122 c || is_decimal c || bool_decide (c = "_"%char).

Fixpoint span (p : ascii → bool) (l : list ascii) : list ascii * list ascii :=
  match l with
  | [] => ([], [])
  | c :: l' => if p c then let '(a, b) := span p l' in (c :: a, b) else ([], l)
  end.

(** The [version] group of [_FILENAME.fullmatch(name)]. *)
Definition _FILENAME (name : string) : option string :=
  if ends_with ".sql" name then
    let l := take (length (chars name) - 4) (chars name) in
    match span is_decimal l with
    | (d :: ds, u :: c :: cs) =>
      if bool_decide (u = "_"%char) && in_range 97 122 c && forallb name_char cs then Some (str (d :: ds)) else None
    | _ => None
    end
  else None.

Definition list_repr (l : list Z) : string := "[" +:+ join ", " (str_of_Z <$> l) +:+ "]".

(** The loop over the sorted files, as (name, text) pairs. *)
Fixpoint read_migrations (system : string) (seen_versions : list Z) (files : list (string * string))
    : res (list Migration) :=
  match files with
  | [] => Ok []
  | (name, text) :: files =>
    match _FILENAME name with
    | None => raise MigrationError ("invalid migration filename for " +:+ system +:+ ": " +:+ name)
    | Some digits =>
      match int_of_text digits with
      | None => raise ValueError "Exceeds the limit (4300 digits) for integer string conversion"
      | Some v =>
        if bool_decide (v ∈ seen_versions)
        then raise MigrationError ("duplicate migration version " +:+ str_of_Z v +:+ " for " +:+ system)
        else let! ms := read_migrations system (v :: seen_versions) files in
             Ok (mkMigration v name (sha256_hex text) text :: ms)
      end
    end
  end.

(** [discover_migrations]; [None] is a directory that does not exist. *)
Definition discover_migrations (system : string) (directory : option (list (string * string)))
    : res (list Migration) :=
  match directory with
  | None => raise MigrationError ("migration directory is missing for " +:+ system)
  | Some files =>
    let! migrations := read_migrations system [] (sort_on fst (filter (λ f, ends_with ".sql" f.1 = true) files)) in
    let versions := mg_version <$> migrations in
    match last versions with
    | None => raise MigrationError ("no migrations found for " +:+ system)
    | Some v =>
      if bool_decide (versions = z_range 1 v) then Ok migrations
      else raise MigrationError ("migration versions for " +:+ system +:+ " must be contiguous from 1; found "
                                 +:+ list_repr versions)
    end
  end.

(** ** Applying *)

(** The rows of [simulation.schema_migrations]: file name and checksum by version. *)
Abbreviation ledger := (gmap Z (string * string)) (only parsing).

Section Apply.
Context {D : Type} (exec_sql : string → D → res D).

(** A source database: its ledger table, if there is one, and the rest of it. *)
Record source_db := mkSourceDb { sd_ledger : option ledger; sd_data : D }.

Definition rows_in (s : source_db) : ledger := default ∅ (sd_ledger s).

Definition _prepare_ledger : io source_db unit := io_modify (λ s, mkSourceDb (Some (rows_in s)) (sd_data s)).

(** [SELECT version, filename, checksum ... ORDER BY version] *)
Definition ledger_rows (s : source_db) : list (Z * (string * string)) :=
  sort_by (λ a b, a.1 <=? b.1) (map_to_list (rows_in s)).

Definition available (migrations : list Migration) : gmap Z Migration :=
  foldl (λ d m, <[mg_version m := m]> d) ∅ migrations.

Fixpoint validate_rows (system : string) (avail : gmap Z Migration) (rows : list (Z * (string * string)))
    : res (list Z) :=
  match rows with
  | [] => Ok []
  | (v, (name, sum)) :: rows =>
    match avail !! v with
    | None => raise MigrationError (system +:+ " has applied migration " +:+ str_of_Z v
                                    +:+ " that is absent from this checkout")
    | Some m =>
      if negb (String.eqb (mg_filename m) name) || negb (String.eqb (mg_checksum m) sum)
      then raise MigrationError (system +:+ " migration " +:+ str_of_Z v
             +:+ " does not match its recorded filename or checksum; create a new migration instead of editing an applied one")
      else let! vs := validate_rows system avail rows in Ok (v :: vs)
    end
  end.

(** [_validate_applied]; the versions come in the order of the ledger. *)
Definition _validate_applied (system : string) (migrations : list Migration) (rows : list (Z * (string * string)))
    : res (list Z) :=
  let! applied := validate_rows system (available migrations) rows in
  match applied with
  | [] => Ok []
  | v :: vs =>
    if bool_decide (list_to_set (C:=gset Z) applied = list_to_set (z_range 1 (zmax v vs))) then Ok applied
    else raise MigrationError (system +:+ " migration ledger has a gap: " +:+ list_repr (sort_by Z.leb applied))
  end.

Definition insert_migration (m : Migration) : io source_db unit :=
  let* s := io_get in
  let* _ := raise_if ((2147483647 <? mg_version m) || (255 <? Z.of_nat (String.length (mg_filename m))))
              DataError "schema_migrations" in
  let* _ := raise_if (bool_decide (is_Some (rows_in s !! mg_version m))
                      || negb (bool_decide (map_Forall (λ _ r, r.1 ≠ mg_filename m) (rows_in s))))
              IntegrityError "schema_migrations" in
  io_modify (λ s, mkSourceDb (Some (<[mg_version m := (mg_filename m, mg_checksum m)]> (rows_in s))) (sd_data s)).

(** One pending migration: its script, then its row. *)
Definition run_migration (m : Migration) : io source_db unit :=
  let* s := io_get in
  let* d := io_lift (exec_sql (mg_sql m) (sd_data s)) in
  let* _ := io_modify (λ s, mkSourceDb (sd_ledger s) d) in
  insert_migration m.

Definition apply_migrations (system : string) (directory : option (list (string * string)))
    : io source_db (list Migration) :=
  let* migrations := io_lift (discover_migrations system directory) in
  let* _ := _prepare_ledger in
  let* s := io_get in
  let* applied := io_lift (_validate_applied system migrations (ledger_rows s)) in
  let pending := filter (λ m, mg_version m ∉ applied) migrations in
  let* _ := io_iter run_migration pending in
  io_ret pending.

(** What [main] does for one system: the migrations in a transaction of their own. *)
Definition migrate (system : string) (directory : option (list (string * string)))
    : io source_db (list Migration) := transaction (apply_migrations system directory).

(** ** Discovered chains *)

Lemma read_migrations_ok system files : ∀ seen ms,
  read_migrations system seen files = Ok ms →
  (mg_filename <$> ms) = files.*1 ∧ (mg_sql <$> ms) = files.*2 ∧
  (∀ m, m ∈ ms → mg_checksum m = sha256_hex (mg_sql m)) ∧
  NoDup (mg_version <$> ms) ∧ ∀ m, m ∈ ms → mg_version m ∉ seen.
Proof.
  induction files as [|[name text] files IH]; intros seen ms; cbn [read_migrations].
  { intros [= <-]. split_and!; try done; [set_solver|constructor|set_solver]. }
  destruct (_FILENAME name) as [digits|]; [|done]. destruct (int_of_text digits) as [v|]; [|done].
  case_bool_decide as Hv; [done|]. intros H. apply res_bind_ok in H as (ms' & H & [= <-]).
  apply IH in H as (H1 & H2 & H3 & H4 & H5). split_and!.
  - cbn [fmap list_fmap]. f_equal. exact H1.
  - cbn [fmap list_fmap]. f_equal. exact H2.
  - by intros m [->|Hm]%elem_of_cons; [|apply H3].
  - simpl. constructor; [|done]. rewrite list_elem_of_fmap. intros (m & -> & Hm). by apply (H5 m); [|left].
  - intros m [->|Hm]%elem_of_cons; [done|]. intros Hin. by apply (H5 m); [|right].
Qed.

Lemma discover_ok system dir ms :
  discover_migrations system dir = Ok ms →
  ∃ k, 1 ≤ k ∧ mg_version <$> ms = z_range 1 k ∧ ∀ m, m ∈ ms → mg_checksum m = sha256_hex (mg_sql m).
Proof.
  unfold discover_migrations. destruct dir as [files|]; [|done]. intros H.
  apply res_bind_ok in H as (ms' & Hr & H). apply read_migrations_ok in Hr as (_ & _ & Hs & _).
  destruct (last _) as [v|] eqn:Hv; [|done]. case_bool_decide as Hr; [|done]. injection H as <-.
  exists v. split_and!; try done. rewrite Hr in Hv. apply last_Some_elem_of, elem_of_z_range in Hv. lia.
Qed.

Lemma available_lookup ms v m :
  NoDup (mg_version <$> ms) → available ms !! v = Some m ↔ m ∈ ms ∧ mg_version m = v.
Proof.
  unfold available. enough (∀ d : gmap Z Migration, NoDup (mg_version <$> ms) →
    foldl (λ d m, <[mg_version m := m]> d) d ms !! v = Some m ↔
    (m ∈ ms ∧ mg_version m = v) ∨ (v ∉ mg_version <$> ms ∧ d !! v = Some m)) as H.
  { intros Hnd. rewrite H by done. rewrite lookup_empty. naive_solver. }
  induction ms as [|x ms IH]; intros d; simpl; intros Hnd.
  - split; [intros ?; right; split; [set_solver|done]|]. intros [[?%elem_of_nil _]|[_ ?]]; done.
  - inversion Hnd as [|? ? Hx Hnd']; subst. rewrite IH by done. split.
    + intros [[??]|[Hv Hl]]; [left; set_solver|].
      destruct (decide (v = mg_version x)) as [->|].
      * rewrite lookup_insert_eq in Hl. injection Hl as <-. left. split; [left|done].
      * rewrite lookup_insert_ne in Hl by done. right. set_solver.
    + intros [[[->|Hm]%elem_of_cons Hv]|[Hv Hl]].
      * right. subst v. split; [done|]. by rewrite lookup_insert_eq.
      * left. done.
      * right. split; [set_solver|]. rewrite lookup_insert_ne; set_solver.
Qed.

(** ** The ledger against the checkout *)

(** The ledger holds exactly the versions 1 to [n]. *)
Definition covers (n : Z) (l : ledger) : Prop := 0 ≤ n ∧ ∀ v, is_Some (l !! v) ↔ 1 ≤ v ≤ n.

Definition recorded (l : ledger) (m : Migration) : Prop :=
  l !! mg_version m = Some (mg_filename m, mg_checksum m).

Lemma elem_of_ledger_rows s v r : (v, r) ∈ ledger_rows s ↔ rows_in s !! v = Some r.
Proof. unfold ledger_rows. rewrite elem_of_sort_by. apply elem_of_map_to_list. Qed.

Lemma validate_rows_ok system avail rows vs :
  validate_rows system avail rows = Ok vs ↔
  vs = rows.*1 ∧ ∀ v r, (v, r) ∈ rows → ∃ m, avail !! v = Some m ∧ (mg_filename m, mg_checksum m) = r.
Proof.
  revert vs. induction rows as [|[v [name sum]] rows IH]; intros vs; cbn [validate_rows].
  { split; [intros [= <-]; split; [done|set_solver]|by intros [-> _]]. }
  split.
  - destruct (avail !! v) as [m|] eqn:Hm; [|done].
    destruct (String.eqb_spec (mg_filename m) name) as [Hf|], (String.eqb_spec (mg_checksum m) sum) as [Hc|];
      cbn [negb orb]; try done.
    intros H. apply res_bind_ok in H as (vs' & H & [= <-]). apply IH in H as [-> H]. split; [done|].
    intros v' r [[= -> ->]|Hr]%elem_of_cons; [|by apply H]. exists m. by rewrite <- Hf, <- Hc.
  - intros [-> H]. destruct (H v (name, sum)) as (m & -> & [= -> ->]); [left|].
    rewrite !String.eqb_refl. cbn [negb orb].
    assert (validate_rows system avail rows = Ok rows.*1) as -> by (apply IH; split; [done|]; intros; apply H; by right).
    done.
Qed.

(** On a ledger without gaps the check succeeds exactly when the checkout holds every applied
    migration, with its name and checksum; it then gives the applied versions. *)
Lemma validate_applied_spec system ms s n k vs :
  1 ≤ k → mg_version <$> ms = z_range 1 k → covers n (rows_in s) →
  _validate_applied system ms (ledger_rows s) = Ok vs ↔
  vs = (ledger_rows s).*1 ∧ n ≤ k ∧ ∀ m, m ∈ ms → mg_version m ≤ n → recorded (rows_in s) m.
Proof.
  intros Hk1 Hms [Hn Hc]. assert (NoDup (mg_version <$> ms)) as Hnd by (rewrite Hms; apply NoDup_z_range).
  assert (∀ v, v ∈ (ledger_rows s).*1 ↔ 1 ≤ v ≤ n) as Hrows.
  { intros v. rewrite list_elem_of_fmap, <- Hc. split.
    - intros ([v' r] & -> & Hr%elem_of_ledger_rows). by exists r.
    - intros [r Hr]. exists (v, r). by rewrite elem_of_ledger_rows. }
  assert (∀ v, 1 ≤ v ≤ k ↔ ∃ m, m ∈ ms ∧ mg_version m = v) as Hks.
  { intros v. rewrite <- elem_of_z_range, <- Hms, list_elem_of_fmap. naive_solver. }
  unfold _validate_applied. split.
  - intros H. apply res_bind_ok in H as (vs' & Hv & H). apply validate_rows_ok in Hv as [-> Hv].
    assert (vs = (ledger_rows s).*1) as ->.
    { destruct (ledger_rows s).*1; [by injection H|]. by case_bool_decide; [injection H|]. }
    split; [done|]. split.
    + destruct (decide (n ≤ k)) as [|Hk]; [done|exfalso].
      destruct (proj2 (Hc n) ltac:(lia)) as [r Hr]. destruct (Hv n r) as (m & Hm & _); [by apply elem_of_ledger_rows|].
      apply available_lookup in Hm as [Hm Hmv]; [|done]. assert (1 ≤ n ≤ k) by (apply Hks; eauto). lia.
    + intros m Hm Hmn. assert (1 ≤ mg_version m ≤ k) as Hv1 by (apply Hks; eauto).
      destruct (proj2 (Hc (mg_version m)) ltac:(lia)) as [r Hr].
      destruct (Hv (mg_version m) r) as (m' & Hm' & Heq); [by apply elem_of_ledger_rows|].
      assert (available ms !! mg_version m = Some m) as E by (by apply available_lookup).
      unfold recorded. rewrite Hr. congruence.
  - intros (-> & Hk & Hrec).
    assert (validate_rows system (available ms) (ledger_rows s) = Ok (ledger_rows s).*1) as ->.
    { apply validate_rows_ok. split; [done|]. intros v r Hr.
      assert (1 ≤ v ≤ n) as Hvn by (apply Hrows; by apply (list_elem_of_fmap_2 fst) in Hr).
      destruct (proj1 (Hks v) ltac:(lia)) as (m & Hm & Hmv). exists m. split; [by apply available_lookup|].
      apply elem_of_ledger_rows in Hr. specialize (Hrec m Hm ltac:(lia)). unfold recorded in Hrec. congruence. }
    simpl. destruct (ledger_rows s).*1 as [|v vs] eqn:E; [done|].
    rewrite bool_decide_eq_true_2; [done|]. apply set_eq. intros x.
    rewrite !elem_of_list_to_set, elem_of_z_range, Hrows.
    assert (zmax v vs = n); [|lia].
    assert (n ∈ v :: vs) as Hin by (apply Hrows; assert (v ∈ v :: vs) as Hx%Hrows by left; lia).
    assert (∀ y, y ∈ v :: vs → y ≤ n) as Hle by (intros y Hy%Hrows; lia).
    assert (zmax v vs ≤ n) by (destruct (zmax_in v vs) as [->|?]; apply Hle; [left|by right]).
    apply elem_of_cons in Hin as [->|Hin]; [pose proof (zmax_base v vs)|pose proof (zmax_ge v vs n Hin)]; lia.
Qed.

(** ** Running what is pending *)

(** The scripts one after the other. *)
Fixpoint run_scripts (scripts : list string) (d : D) : res D :=
  match scripts with
  | [] => Ok d
  | q :: scripts => let! d' := exec_sql q d in run_scripts scripts d'
  end.

Lemma covers_insert n l r : covers n l → covers (n + 1) (<[n + 1 := r]> l).
Proof.
  intros [Hn Hc]. split; [lia|]. intros v. destruct (decide (v = n + 1)) as [->|Hv].
  - rewrite lookup_insert_eq. split; [lia|by eexists].
  - rewrite lookup_insert_ne by done. rewrite Hc. lia.
Qed.

Lemma run_migration_ok m s s' u :
  run_migration m s = (s', Ok u) →
  exec_sql (mg_sql m) (sd_data s) = Ok (sd_data s') ∧ rows_in s !! mg_version m = None ∧
  sd_ledger s' = Some (<[mg_version m := (mg_filename m, mg_checksum m)]> (rows_in s)).
Proof.
  unfold run_migration, insert_migration. intros H. io_inv. cbn [sd_data sd_ledger rows_in] in *.
  apply orb_false_iff in Hm4 as [Hv _]. apply bool_decide_eq_false in Hv. split_and!; try done.
  by apply eq_None_not_Some.
Qed.

Lemma run_migrations_ok pending : ∀ n s s' u,
  io_iter run_migration pending s = (s', Ok u) →
  covers n (rows_in s) → mg_version <$> pending = z_range (n + 1) (n + Z.of_nat (length pending)) →
  run_scripts (mg_sql <$> pending) (sd_data s) = Ok (sd_data s') ∧
  covers (n + Z.of_nat (length pending)) (rows_in s') ∧ Forall (recorded (rows_in s')) pending ∧
  rows_in s ⊆ rows_in s' ∧ (is_Some (sd_ledger s) → is_Some (sd_ledger s')).
Proof.
  unfold io_iter. induction pending as [|m pending IH]; intros n s s' u; cbn [io_fold length].
  { intros [= <- _] Hc _. rewrite Z.add_0_r. split_and!; try done. }
  intros H Hc Hv. inv_ok H. apply run_migration_ok in Hm as (He & Hn & Hl).
  rewrite z_range_cons in Hv by lia. cbn [fmap list_fmap] in Hv. injection Hv as Hmv Hv.
  assert (rows_in s0 = <[n + 1 := (mg_filename m, mg_checksum m)]> (rows_in s)) as Hr
    by (unfold rows_in at 1; by rewrite Hl, Hmv).
  destruct (IH (n + 1) s0 s' u) as (H1 & H2 & H3 & H4 & H5).
  { by destruct a. }
  { rewrite Hr. by apply covers_insert. }
  { rewrite Hv. f_equal. lia. }
  assert (rows_in s ⊆ rows_in s0) as Hsub by (rewrite Hr, <- Hmv; by apply insert_subseteq).
  cbn [fmap list_fmap run_scripts]. rewrite He. cbn [res_bind]. split_and!.
  - done.
  - replace (n + Z.of_nat (S (length pending))) with (n + 1 + Z.of_nat (length pending)) by lia. done.
  - constructor; [|done]. unfold recorded. apply (lookup_weaken (rows_in s0)); [|done]. by rewrite Hr, <- Hmv, lookup_insert_eq.
  - by etrans.
  - intros _. apply H5. by rewrite Hl.
Qed.

(** The pending migrations of a checkout, when versions 1 to [n] are applied. *)
Lemma pending_split ms n k s :
  mg_version <$> ms = z_range 1 k → covers n (rows_in s) → n ≤ k →
  let pending := filter (λ m, mg_version m ∉ (ledger_rows s).*1) ms in
  ∃ applied, ms = applied ++ pending ∧ mg_version <$> applied = z_range 1 n ∧
             mg_version <$> pending = z_range (n + 1) k.
Proof.
  intros Hms [Hn Hc] Hk pending.
  assert (∀ v, v ∉ (ledger_rows s).*1 ↔ ¬ 1 ≤ v ≤ n) as Hrows.
  { intros v. rewrite <- Hc, list_elem_of_fmap. split.
    - intros H [r Hr]. apply H. exists (v, r). by rewrite elem_of_ledger_rows.
    - intros H ([v' r] & -> & Hr%elem_of_ledger_rows). apply H. by exists r. }
  exists (take (Z.to_nat n) ms).
  assert (mg_version <$> take (Z.to_nat n) ms = z_range 1 n ∧ mg_version <$> drop (Z.to_nat n) ms = z_range (n + 1) k)
    as [Ha Hb].
  { rewrite !fmap_take, !fmap_drop, Hms, (z_range_app 1 n k) by lia.
    assert (length (z_range 1 n) = Z.to_nat n) as Hl by (unfold z_range; rewrite length_fmap, length_seq; lia).
    split; [by rewrite take_app_length'|by rewrite drop_app_length']. }
  assert (pending = drop (Z.to_nat n) ms) as ->; [|by rewrite take_drop].
  unfold pending. rewrite <- (take_drop (Z.to_nat n) ms) at 1. rewrite filter_app.
  rewrite filter_none, filter_all; [done|..].
  - intros m Hm. rewrite Hrows.
    assert (mg_version m ∈ mg_version <$> drop (Z.to_nat n) ms) as Hin by (by apply list_elem_of_fmap_2).
    rewrite Hb, elem_of_z_range in Hin. lia.
  - intros m Hm. rewrite Hrows. intros H. apply H.
    assert (mg_version m ∈ mg_version <$> take (Z.to_nat n) ms) as Hin by (by apply list_elem_of_fmap_2).
    by rewrite Ha, elem_of_z_range in Hin.
Qed.

(** A database to which a whole checkout is applied. *)
Lemma migrate_up_to_date system dir ms s :
  discover_migrations system dir = Ok ms → is_Some (sd_ledger s) →
  covers (Z.of_nat (length ms)) (rows_in s) → Forall (recorded (rows_in s)) ms →
  migrate system dir s = (s, Ok []).
Proof.
  intros Hd [l Hl] Hc Hrec. destruct (discover_ok _ _ _ Hd) as (k & Hk & Hms & _).
  assert (Z.of_nat (length ms) = k) as Hlen.
  { rewrite <- (length_fmap mg_version), Hms. unfold z_range. rewrite length_fmap, length_seq. lia. }
  rewrite Hlen in Hc. unfold migrate, transaction, apply_migrations, io_bind at 1, io_lift. rewrite Hd.
  unfold _prepare_ledger, io_bind, io_modify, io_get, io_lift.
  assert (mkSourceDb (Some (rows_in s)) (sd_data s) = s) as ->.
  { destruct s as [l' d]. simpl in Hl. by subst l'. }
  assert (_validate_applied system ms (ledger_rows s) = Ok (ledger_rows s).*1) as ->.
  { apply (validate_applied_spec system ms s k k _ Hk Hms Hc). split_and!; try done.
    rewrite Forall_forall in Hrec. auto. }
  destruct (pending_split ms k k s Hms Hc ltac:(lia)) as (applied & _ & _ & Hp).
  rewrite (z_range_nil (k + 1) k) in Hp by lia. apply fmap_nil_inv in Hp. by rewrite Hp.
Qed.

Lemma migrate_ok system dir n s s' pending :
  covers n (rows_in s) → migrate system dir s = (s', Ok pending) →
  ∃ applied,
    discover_migrations system dir = Ok (applied ++ pending) ∧
    mg_version <$> applied = z_range 1 n ∧ Forall (recorded (rows_in s)) applied ∧
    run_scripts (mg_sql <$> pending) (sd_data s) = Ok (sd_data s') ∧
    covers (n + Z.of_nat (length pending)) (rows_in s') ∧
    Forall (recorded (rows_in s')) (applied ++ pending) ∧
    rows_in s ⊆ rows_in s' ∧ is_Some (sd_ledger s').
Proof.
  intros Hc H. unfold migrate in H. rewrite transaction_ok in H. unfold apply_migrations, _prepare_ledger in H. io_inv.
  set (s1 := mkSourceDb (Some (rows_in s)) (sd_data s)) in *. rename Hm into Hd, Hm2 into Hv, Hm3 into Hrun.
  destruct (discover_ok _ _ _ Hd) as (k & Hk & Hms & _).
  apply (validate_applied_spec system a s1 n k _ Hk Hms Hc) in Hv as (-> & Hnk & Hrec).
  destruct (pending_split a n k s1 Hms Hc Hnk) as (applied & Ha & Hav & Hp).
  set (pending := filter _ a) in *. exists applied.
  assert (Z.of_nat (length pending) = k - n) as Hlen.
  { rewrite <- (length_fmap mg_version), Hp. unfold z_range. rewrite length_fmap, length_seq. lia. }
  destruct (run_migrations_ok pending n s1 s4 _ Hrun Hc) as (H1 & H2 & H3 & H4 & H5).
  { rewrite Hp. f_equal. lia. }
  assert (Forall (recorded (rows_in s)) applied) as Hold.
  { rewrite Forall_forall. intros m Hm. apply Hrec; [rewrite Ha; set_solver|].
    assert (mg_version m ∈ mg_version <$> applied) as Hin by (by apply list_elem_of_fmap_2).
    rewrite Hav, elem_of_z_range in Hin. lia. }
  split_and!; try done.
  - by rewrite <- Ha.
  - apply Forall_app. split; [|done]. eapply Forall_impl; [exact Hold|]. intros m Hm. by apply (lookup_weaken (rows_in s)).
  - by apply H5.
Qed.

(** C28: A migration run is all or nothing and resumes where the ledger ends. When versions 1 to [n]
    are applied, a run that returns has found each of them in the checkout with its recorded name
    and the checksum of its text, has run exactly the scripts after them, once each and in order of
    their versions, and has added exactly their rows; a second run finds nothing to do. A run that
    raises, because the checkout is incomplete or edited or a script fails, leaves the database as
    it was. *)
Theorem migrate_runs_pending system dir n s s' r :
  covers n (rows_in s) → migrate system dir s = (s', r) →
  match r with
  | Err _ => s' = s
  | Ok pending => ∃ applied,
      discover_migrations system dir = Ok (applied ++ pending) ∧
      mg_version <$> applied ++ pending = z_range 1 (n + Z.of_nat (length pending)) ∧
      (∀ m, m ∈ applied → rows_in s !! mg_version m = Some (mg_filename m, sha256_hex (mg_sql m))) ∧
      run_scripts (mg_sql <$> pending) (sd_data s) = Ok (sd_data s') ∧
      (∀ v, rows_in s' !! v = if decide (v ≤ n) then rows_in s !! v
                              else (λ m, (mg_filename m, mg_checksum m)) <$> (available pending !! v)) ∧
      migrate system dir s' = (s', Ok [])
  end.
Proof.
  intros Hc H. destruct r as [pending|e]; [|by apply transaction_err in H].
  destruct (migrate_ok _ _ _ _ _ _ Hc H) as (applied & Hd & Hav & Hrec & Hrun & Hc' & Hrec' & Hsub & Hl).
  destruct (discover_ok _ _ _ Hd) as (k & Hk & Hms & Hsum).
  assert (length applied = Z.to_nat n) as Hla.
  { rewrite <- (length_fmap mg_version), Hav. unfold z_range. rewrite length_fmap, length_seq. lia. }
  assert (k = n + Z.of_nat (length pending)) as ->.
  { destruct Hc as [? _]. apply (f_equal length) in Hms. rewrite length_fmap, length_app in Hms.
    unfold z_range in Hms. rewrite length_fmap, length_seq in Hms. lia. }
  exists applied. rewrite Forall_forall in Hrec, Hrec'. split_and!; try done.
  - intros m Hm. rewrite <- Hsum by set_solver. by apply Hrec.
  - assert (mg_version <$> pending = z_range (n + 1) (n + Z.of_nat (length pending))) as Hp.
    { destruct Hc as [? _]. rewrite fmap_app, Hav, (z_range_app 1 n (n + _)) in Hms by lia. by apply app_inv_head in Hms. }
    intros v. destruct (decide (v ≤ n)).
    + destruct (rows_in s !! v) as [r|] eqn:Hr; [by apply (lookup_weaken (rows_in s))|].
      apply eq_None_not_Some. intros Hv%(proj2 Hc'). destruct (proj2 (proj2 Hc v)) as [r Hr']; [lia|congruence].
    + destruct (available pending !! v) as [m|] eqn:Hm.
      * apply available_lookup in Hm as [Hm <-]; [|rewrite Hp; apply NoDup_z_range]. apply Hrec'. set_solver.
      * simpl. apply eq_None_not_Some. rewrite (proj2 Hc'). intros Hv.
        assert (v ∈ mg_version <$> pending) as Hin by (rewrite Hp; apply elem_of_z_range; lia).
        apply list_elem_of_fmap in Hin as (m & -> & Hin).
        assert (available pending !! mg_version m = Some m) as E; [|congruence].
        apply available_lookup; [rewrite Hp; apply NoDup_z_range|done].
  - apply (migrate_up_to_date _ _ (applied ++ pending)); try done.
    + rewrite length_app, Hla. destruct Hc as [? _].
      replace (Z.of_nat (Z.to_nat n + length pending)) with (n + Z.of_nat (length pending)) by lia. done.
    + by rewrite Forall_forall.
Qed.

(** The ledger over time: migration runs from any checkout, and anything else that happens to the
    database without touching the ledger. *)
Inductive ledger_step : source_db → source_db → Prop :=
| step_migrate system dir s : ledger_step s (migrate system dir s).1
| step_business d s : ledger_step s (mkSourceDb (sd_ledger s) d).

(** The migration ledger is append-only and has no gaps. Whatever checkouts are applied to a
    database that starts without a ledger, in whatever order and with whatever failures, and
    whatever else changes in the database meanwhile, the ledger always holds exactly the versions
    1 to some [n], and a recorded migration never changes or goes. *)
Theorem migration_ledger_append_only d0 s s' :
  rtc ledger_step (mkSourceDb None d0) s → rtc ledger_step s s' →
  ∃ n n', covers n (rows_in s) ∧ covers n' (rows_in s') ∧ n ≤ n' ∧ rows_in s ⊆ rows_in s'.
Proof.
  assert (∀ s n s', covers n (rows_in s) → rtc ledger_step s s' →
          ∃ n', covers n' (rows_in s') ∧ n ≤ n' ∧ rows_in s ⊆ rows_in s') as H.
  { intros t n t' Hc Hr. revert n Hc. induction Hr as [t|t1 t2 t3 Hst _ IH]; intros n Hc; [by exists n|].
    assert (∃ n2, covers n2 (rows_in t2) ∧ n ≤ n2 ∧ rows_in t1 ⊆ rows_in t2) as (n2 & Hc2 & Hle & Hsub).
    { destruct Hst as [system dir t|d t]; [|by exists n].
      destruct (migrate system dir t) as [t' [pending|e]] eqn:E.
      - destruct (migrate_ok _ _ _ _ _ _ Hc E) as (_ & _ & _ & _ & _ & Hc' & _ & Hs & _). eexists. split_and!; [done|lia|done].
      - apply transaction_err in E as ->. by exists n. }
    destruct (IH n2 Hc2) as (n3 & ? & ? & ?). exists n3. split_and!; [done|lia|by etrans]. }
  intros H1 H2. destruct (H (mkSourceDb None d0) 0 s) as (n & Hc & _ & _); [|done|].
  - split; [done|]. intros v. unfold rows_in. simpl. rewrite lookup_empty. split; [by intros []|lia].
  - destruct (H s n s' Hc H2) as (n' & ? & ? & ?). by exists n, n'.
Qed.
End Apply.

(** ** A concrete chain *)

Definition witness_exec (q : string) (d : list string) : res (list string) :=
  if String.eqb q "broken" then raise RuntimeError "syntax error" else Ok (d ++ [q]).
Definition witness_checkout : list (string * string) :=
  [("002_add_index.sql", "CREATE INDEX"); ("001_initial.sql", "CREATE TABLE"); ("README.md", "")].
Definition witness_first : source_db := (migrate witness_exec "ops" (Some [("001_initial.sql", "CREATE TABLE")]) (mkSourceDb None [])).1.

Example edited_migration_refused :
  is_ok (migrate witness_exec "ops" (Some [("001_initial.sql", "CREATE TABLE IF NOT EXISTS")]) witness_first).2 = false.
Proof. vm_compute. reflexivity. Qed.

Lemma migrate_runs_pending_witness :
  sd_data (migrate witness_exec "ops" (Some witness_checkout) witness_first).1 = ["CREATE TABLE"; "CREATE INDEX"] ∧
  migrate witness_exec "ops" (Some witness_checkout) (migrate witness_exec "ops" (Some witness_checkout) witness_first).1
  = ((migrate witness_exec "ops" (Some witness_checkout) witness_first).1, Ok []).
Proof.
  assert (covers 1 (rows_in witness_first)) as Hc.
  { split; [done|]. intros v. replace (rows_in witness_first) with
      ({[1 := ("001_initial.sql", sha256_hex "CREATE TABLE")]} : gmap Z (string * string)) by (vm_compute; reflexivity).
    destruct (decide (v = 1)) as [->|Hv]; [rewrite lookup_singleton_eq; split; [lia|by eexists]|].
    rewrite lookup_singleton_ne by done. split; [by intros []|lia]. }
  split; [vm_compute; reflexivity|].
  pose proof (migrate_runs_pending witness_exec "ops" (Some witness_checkout) 1 witness_first _ _ Hc (surjective_pairing _)) as H.
  destruct (migrate witness_exec "ops" (Some witness_checkout) witness_first) as [s' r] eqn:E.
  destruct r as [pending|e]; [by destruct H as (? & _ & _ & _ & _ & _ & H)|].
  exfalso. assert (is_ok (migrate witness_exec "ops" (Some witness_checkout) witness_first).2 = true) as Hok by (vm_compute; reflexivity).
  by rewrite E in Hok.
Defined.

Lemma migration_ledger_append_only_witness :
  ∃ n n', covers n (rows_in witness_first) ∧
          covers n' (rows_in (migrate witness_exec "ops" (Some witness_checkout) witness_first).1) ∧ n ≤ n' ∧
          rows_in witness_first ⊆ rows_in (migrate witness_exec "ops" (Some witness_checkout) witness_first).1.
Proof.
  apply (migration_ledger_append_only witness_exec []); apply rtc_once; apply step_migrate.
Defined.
