(* ===== verification/AuditBackfill.v ===== *)
(** * Audit-timestamp backfill: [generator/audit_backfill.py]

    The bounded, restart-safe backfill of [created_at] and [updated_at]: the targets with their
    [UPDATE] statements as expressions over a row, the batches, each a transaction, and the run over
    all targets. The collation of text keys is a parameter. *)

From stdpp Require Import prelude gmap strings list sorting relations.
From Stdlib Require Import ZArith Lia Ascii.
From S2P Require Import Prelude PyText Dates Events OpsApply.

Open Scope Z_scope.

(** ** Rows and targets *)

(** The values of a row by column, those of a type no statement computes with in their text form; a
    column that is [NULL] has no entry. *)
Inductive sqlval := SDate (d : date) | SStamp (t : timestamp) | SHundredths (n : Z) | SOther (text : string).
Abbreviation row := (gmap string sqlval) (only parsing).

Inductive expr :=
| Col (c : string)
| DateAt (a : expr) (hour : Z)            (* a::timestamp + time 'hour:00' *)
| Stamp (t : timestamp)                   (* timestamp '...' *)
| Coalesce (a b : expr)
| CaseNull (c : string) (a b : expr)      (* CASE WHEN c IS NULL THEN a ELSE b END *)
| PlusHours (a : expr) (c : string).      (* a + COALESCE(c, 0) * interval '1 hour' *)

Fixpoint eval (e : expr) (r : row) : option sqlval :=
  match e with
  | Col c => r !! c
  | DateAt a h => match eval a r with Some (SDate d) => Some (SStamp (at_hour d h)) | _ => None end
  | Stamp t => Some (SStamp t)
  | Coalesce a b => match eval a r with Some v => Some v | None => eval b r end
  | CaseNull c a b => match r !! c with None => eval a r | Some _ => eval b r end
  | PlusHours a c =>
    match eval a r with
    | Some (SStamp t) =>
      let hundredths := match r !! c with Some (SHundredths n) => n | _ => 0 end in
      Some (SStamp (t + hundredths * (microseconds_per_hour / 100)))
    | _ => None
    end
  end.

Inductive key_type := BIGINT | VARCHAR.

(** [UPDATE table SET sets WHERE key = ANY(keys) AND (... IS NULL OR ...)] *)
Record BackfillTarget := mkTarget {
  tg_name : string;
  tg_table : string;
  tg_key_type : key_type;
  tg_sets : list (string * expr);
  tg_nulls : list string }.

(** [SET c = COALESCE(c, e)] *)
Definition fill_null (c : string) (e : expr) : string * expr := (c, Coalesce (Col c) e).

Definition opening_day : expr := Stamp (at_hour (ymd2ord 2022 1 3) 8).

Definition both (name table : string) (kt : key_type) (created updated : expr) : BackfillTarget :=
  mkTarget name table kt [fill_null "created_at" created; fill_null "updated_at" updated]
    ["created_at"; "updated_at"].

Definition TARGETS : list BackfillTarget :=
  [both "products" "ops.products" BIGINT (DateAt (Col "launch_date") 2) (DateAt (Col "launch_date") 2);
   both "warehouses" "ops.warehouses" VARCHAR opening_day opening_day;
   both "carriers" "ops.carriers" VARCHAR opening_day opening_day;
   both "order_lines" "ops.order_lines" BIGINT (Col "order_header.created_at") (Col "order_header.updated_at");
   both "shipments" "ops.shipments" BIGINT (DateAt (Col "ship_date") 8)
     (CaseNull "delivered_date" (DateAt (Col "ship_date") 8) (DateAt (Col "delivered_date") 17));
   mkTarget "invoices" "ops.invoices" BIGINT [fill_null "updated_at" (Col "created_at")] ["updated_at"];
   both "support_cases" "ops.support_cases" BIGINT (Col "opened_at") (PlusHours (Col "opened_at") "resolution_hours")].

Definition ERP_TARGETS : list BackfillTarget :=
  [both "companies" "erp.companies" VARCHAR opening_day opening_day;
   both "cost_centers" "erp.cost_centers" VARCHAR (DateAt (Col "valid_from") 8)
     (CaseNull "valid_to" (DateAt (Col "valid_from") 8) (DateAt (Col "valid_to") 17));
   both "gl_accounts" "erp.gl_accounts" VARCHAR opening_day opening_day;
   both "fx_rates" "erp.fx_rates" VARCHAR (Col "loaded_at") (Col "loaded_at");
   mkTarget "revenue_postings" "erp.revenue_postings" BIGINT [fill_null "created_at" (Col "posted_at")] ["created_at"]].

(** Whether the [WHERE] clause selects a row. *)
Definition needs (tg : BackfillTarget) (r : row) : bool :=
  existsb (λ c, bool_decide (r !! c = None)) (tg_nulls tg).

(** The assignments, each evaluated on the old row. *)
Definition assign_one (r r' : row) (ce : string * expr) : row :=
  match eval ce.2 r with Some v => <[ce.1 := v]> r' | None => delete ce.1 r' end.
Definition assign (sets : list (string * expr)) (r : row) : row := foldl (assign_one r) r sets.
Definition fill (tg : BackfillTarget) (r : row) : row := if needs tg r then assign (tg_sets tg) r else r.

(** ** The database *)

Inductive sqlkey := KInt (z : Z) | KText (s : string).

#[export] Instance sqlkey_eq_dec : EqDecision sqlkey.
Proof. solve_decision. Defined.
#[export] Instance sqlkey_countable : Countable sqlkey.
Proof.
  refine (inj_countable' (λ k, match k with KInt z => inl z | KText s => inr s end)
    (λ x, match x with inl z => KInt z | inr s => KText s end) _). by intros [].
Defined.

Abbreviation table := (gmap sqlkey row) (only parsing).

(** A row of [simulation.audit_backfill_progress]. *)
Record progress := mkProgress {
  bp_last_key : option string;
  bp_scanned : Z;
  bp_updated : Z;
  bp_completed : bool }.

Record backfill_db := mkBackfill {
  bd_tables : gmap string table;
  bd_progress : gmap string progress }.

Definition set_tables x db := mkBackfill x (bd_progress db).
Definition set_progress x db := mkBackfill (bd_tables db) x.

Definition table_of (tg : BackfillTarget) (db : backfill_db) : table := default ∅ (bd_tables db !! tg_table tg).

(** [str(key)] *)
Definition key_text (k : sqlkey) : string := match k with KInt z => str_of_Z z | KText s => s end.
(** [%s::key_type] *)
Definition key_of_text (kt : key_type) (s : string) : res sqlkey :=
  match kt with
  | BIGINT => match py_int s with Some z => Ok (KInt z) | None => raise DataError "invalid input syntax for type bigint" end
  | VARCHAR => Ok (KText s)
  end.

Record batch_result := mkResult { br_name : string; br_scanned : Z; br_updated : Z; br_completed : bool }.

Section Backfill.
(** The order of text in the database's collation. *)
Context (text_le : string → string → bool).

Definition key_le (a b : sqlkey) : bool :=
  match a, b with
  | KInt x, KInt y => x <=? y
  | KText x, KText y => text_le x y
  | KInt _, KText _ => true
  | KText _, KInt _ => false
  end.

(** [WHERE key > last] *)
Definition beyond (last : option sqlkey) (k : sqlkey) : bool :=
  match last with None => true | Some l => negb (key_le k l) end.

Definition sorted_keys (t : table) : list sqlkey := sort_by key_le (map_to_list t).*1.

(** [_keys]: at most [batch_size] keys past the checkpoint, in order. *)
Definition _keys (batch_size : Z) (tg : BackfillTarget) (last_key : option string) (t : table)
    : res (list sqlkey) :=
  let! last := match last_key with
               | None => Ok None
               | Some s => let! k := key_of_text (tg_key_type tg) s in Ok (Some k)
               end in
  Ok (take (Z.to_nat batch_size) (filter (λ k, beyond last k = true) (sorted_keys t))).

Definition update_rows (tg : BackfillTarget) (keys : list sqlkey) (t : table) : table :=
  map_imap (λ k r, Some (if bool_decide (k ∈ keys) then fill tg r else r)) t.
(** [cursor.rowcount] *)
Definition rowcount (tg : BackfillTarget) (keys : list sqlkey) (t : table) : Z :=
  Z.of_nat (length (filter (λ kr : sqlkey * row, kr.1 ∈ keys ∧ needs tg kr.2 = true) (map_to_list t))).

Definition put_progress (tg : BackfillTarget) (p : progress) : io backfill_db unit :=
  io_modify (λ db, set_progress (<[tg_name tg := p]> (bd_progress db)) db).

(** The statements of [_run_batch]. *)
Definition batch_statements (batch_size : Z) (tg : BackfillTarget) : io backfill_db batch_result :=
  let* db := io_get in
  let p := default (mkProgress None 0 0 false) (bd_progress db !! tg_name tg) in
  let* _ := put_progress tg p in
  if bp_completed p then io_ret (mkResult (tg_name tg) 0 0 true)
  else
    let t := table_of tg db in
    let* keys := io_lift (_keys batch_size tg (bp_last_key p) t) in
    match last keys with
    | None =>
      let* _ := put_progress tg (mkProgress (bp_last_key p) (bp_scanned p) (bp_updated p) true) in
      io_ret (mkResult (tg_name tg) 0 0 true)
    | Some k =>
      let updated := rowcount tg keys t in
      let scanned := Z.of_nat (length keys) in
      let* _ := io_modify (λ db, set_tables (<[tg_table tg := update_rows tg keys t]> (bd_tables db)) db) in
      let* _ := raise_if (80 <? Z.of_nat (String.length (key_text k))) DataError "last_key" in
      let* _ := put_progress tg (mkProgress (Some (key_text k)) (bp_scanned p + scanned)
                                   (bp_updated p + updated) false) in
      io_ret (mkResult (tg_name tg) scanned updated false)
    end.

(** [_run_batch]: a commit at its end, a rollback when it raises. *)
Definition _run_batch (batch_size : Z) (tg : BackfillTarget) : io backfill_db batch_result :=
  transaction (batch_statements batch_size tg).

(** The [while] loop of [run] over one target; [fuel] bounds its iterations. *)
Fixpoint run_target (fuel : nat) (batch_size : Z) (tg : BackfillTarget) (batches max_batches : Z)
    (until_complete : bool) (results : list batch_result) : io backfill_db (list batch_result) :=
  match fuel with
  | O => io_raise RuntimeError "out of fuel"
  | S fuel =>
    if (batches <? max_batches) || until_complete then
      let* r := _run_batch batch_size tg in
      if br_completed r then io_ret (results ++ [r])
      else run_target fuel batch_size tg (batches + 1) max_batches until_complete (results ++ [r])
    else io_ret results
  end.

(** [AuditBackfill(connection, batch_size).run(max_batches, until_complete)] *)
Definition run (fuel : nat) (targets : list BackfillTarget) (batch_size max_batches : Z) (until_complete : bool)
    : io backfill_db (list batch_result) :=
  let* _ := raise_if ((batch_size <? 1) || (100000 <? batch_size)) ValueError
              "batch_size must be between 1 and 100000" in
  let* _ := raise_if (max_batches <? 1) ValueError "max_batches must be positive" in
  io_fold (λ results tg, run_target fuel batch_size tg 0 max_batches until_complete results) targets [].

(** [status]: the progress rows by name. *)
Definition status (db : backfill_db) : list (string * progress) := sort_on fst (map_to_list (bd_progress db)).

(** ** The scan *)

Context (text_total : ∀ a b, text_le a b = true ∨ text_le b a = true)
        (text_trans : ∀ a b c, text_le a b = true → text_le b c = true → text_le a c = true)
        (text_antisym : ∀ a b, text_le a b = true → text_le b a = true → a = b).

Lemma key_le_total a b : key_le a b = true ∨ key_le b a = true.
Proof. destruct a, b; simpl; auto. rewrite !Z.leb_le. lia. Qed.

Lemma key_le_trans a b c : key_le a b = true → key_le b c = true → key_le a c = true.
Proof. destruct a, b, c; simpl; try done; [rewrite !Z.leb_le; lia|apply text_trans]. Qed.

Lemma key_le_antisym a b : key_le a b = true → key_le b a = true → a = b.
Proof.
  destruct a, b; simpl; try done; [rewrite !Z.leb_le; intros; f_equal; lia|]. intros. f_equal. by apply text_antisym.
Qed.

Lemma elem_of_sorted_keys k t : k ∈ sorted_keys t ↔ is_Some (t !! k).
Proof.
  unfold sorted_keys. rewrite elem_of_sort_by, list_elem_of_fmap. split.
  - intros ([k' r] & -> & Hr%elem_of_map_to_list). by exists r.
  - intros [r Hr]. exists (k, r). split; [done|]. by apply elem_of_map_to_list.
Qed.

Lemma NoDup_sorted_keys t : NoDup (sorted_keys t).
Proof. unfold sorted_keys. rewrite NoDup_sort_by. apply NoDup_fst_map_to_list. Qed.

Lemma sorted_keys_sorted t : StronglySorted (λ a b, key_le a b = true) (sorted_keys t).
Proof. apply sort_by_sorted; [apply key_le_total|apply key_le_trans]. Qed.

(** Tables with the same keys are scanned alike. *)
Lemma sorted_keys_same t t' : dom t = dom t' → sorted_keys t = sorted_keys t'.
Proof.
  intros Hd. unfold sorted_keys. apply sort_by_Permutation; [apply key_le_total|apply key_le_trans|apply key_le_antisym|].
  apply NoDup_Permutation; [apply NoDup_fst_map_to_list..|]. intros k.
  pose proof (elem_of_sorted_keys k t) as H1. pose proof (elem_of_sorted_keys k t') as H2.
  unfold sorted_keys in H1, H2. rewrite elem_of_sort_by in H1, H2. by rewrite H1, H2, <- !elem_of_dom, Hd.
Qed.

(** The keys past the last one of a chunk are the rest of the list. *)
Lemma beyond_chunk n l pre k :
  StronglySorted (λ a b, key_le a b = true) l → NoDup l → take n l = pre ++ [k] →
  filter (λ x, beyond (Some k) x = true) l = drop n l.
Proof.
  intros Hs Hnd Ht. rewrite <- (take_drop n l) in Hs, Hnd |- * at 1. rewrite Ht in *.
  rewrite filter_app. apply NoDup_app in Hnd as (_ & Hnd & _).
  apply StronglySorted_app in Hs as (Hcross & Hs & _). rewrite filter_none, filter_all; [done|..].
  - intros x Hx. simpl. apply negb_true_iff. destruct (key_le x k) eqn:E; [|done]. exfalso.
    assert (x = k) as ->.
    { apply key_le_antisym; [done|]. apply Hcross; [set_solver|done]. }
    apply (Hnd k); [set_solver|done].
  - intros x Hx. simpl. rewrite negb_true_iff, not_false_iff_true.
    apply elem_of_app in Hx as [Hx|Hx%list_elem_of_singleton].
    + apply StronglySorted_app in Hs as (Hc & _). apply Hc; set_solver.
    + subst x. by destruct (key_le_total k k).
Qed.

Lemma StronglySorted_filter (R : relation sqlkey) (P : sqlkey → Prop) `{∀ x, Decision (P x)} (l : list sqlkey) :
  StronglySorted R l → StronglySorted R (filter P l).
Proof.
  induction 1 as [|x l Hl IH Hx]; [constructor|]. rewrite filter_cons. case_decide; [|done]. constructor; [done|].
  rewrite Forall_forall in *. intros y [_ Hy]%list_elem_of_filter. by apply Hx.
Qed.

(** The keys past a checkpoint, in order. *)
Definition rest (t0 : table) (last : option sqlkey) : list sqlkey :=
  filter (λ k, beyond last k = true) (sorted_keys t0).

Lemma rest_chunk n t0 last pre k :
  take n (rest t0 last) = pre ++ [k] → rest t0 (Some k) = drop n (rest t0 last).
Proof.
  intros Ht. rewrite <- (beyond_chunk n (rest t0 last) pre k); [|..|done].
  - unfold rest. rewrite list_filter_filter_l; [done|]. intros x. destruct last as [l|]; [|done].
    assert (k ∈ rest t0 (Some l)) as [Hk _]%list_elem_of_filter.
    { apply (subseteq_take n). rewrite Ht. set_solver. }
    simpl in *. rewrite !negb_true_iff in *. intros Hx. destruct (key_le x l) eqn:E; [|done].
    assert (key_le l k = true) as Hlk by (destruct (key_le_total l k); congruence).
    by rewrite (key_le_trans _ _ _ E Hlk) in Hx.
  - unfold rest. eapply StronglySorted_filter, sorted_keys_sorted.
  - unfold rest. apply NoDup_filter, NoDup_sorted_keys.
Qed.

(** ** One target *)

(** A table whose keys have the target's type and fit the checkpoint column. *)
Definition key_ok (tg : BackfillTarget) (k : sqlkey) : bool :=
  match tg_key_type tg, k with BIGINT, KInt _ => true | VARCHAR, KText _ => true | _, _ => false end
  && (Z.of_nat (String.length (key_text k)) <=? 80).

Lemma key_round_trip tg k : key_ok tg k = true → key_of_text (tg_key_type tg) (key_text k) = Ok k.
Proof. unfold key_ok. destruct (tg_key_type tg), k; simpl; try done. by rewrite py_int_str_of_Z. Qed.

(** The table with the rows up to the checkpoint filled. *)
Definition filled (tg : BackfillTarget) (last : option sqlkey) (t0 : table) : table :=
  map_imap (λ k r, Some (if beyond last k then r else fill tg r)) t0.

Lemma filled_lookup tg last t0 k :
  filled tg last t0 !! k = (λ r, if beyond last k then r else fill tg r) <$> t0 !! k.
Proof. unfold filled. rewrite map_lookup_imap. by destruct (t0 !! k). Qed.

Lemma dom_filled tg last t0 : dom (filled tg last t0) = dom t0.
Proof. apply set_eq. intros k. by rewrite !elem_of_dom, filled_lookup, fmap_is_Some. Qed.

Lemma filled_none tg t0 : filled tg None t0 = t0.
Proof. apply map_eq. intros k. rewrite filled_lookup. simpl. by destruct (t0 !! k). Qed.

Lemma filled_all tg last t0 : rest t0 last = [] → filled tg last t0 = fill tg <$> t0.
Proof.
  intros Hr. apply map_eq. intros k. rewrite filled_lookup, lookup_fmap. destruct (t0 !! k) as [r|] eqn:E; [|done].
  simpl. destruct (beyond last k) eqn:Hb; [|done]. exfalso. apply (filter_nil_not_elem_of _ _ k Hr Hb).
  apply elem_of_sorted_keys. by exists r.
Qed.

(** A chunk of rows fills the table up to its last key. *)
Lemma update_chunk tg n t0 last pre k :
  take n (rest t0 last) = pre ++ [k] →
  update_rows tg (take n (rest t0 last)) (filled tg last t0) = filled tg (Some k) t0.
Proof.
  intros Ht. pose proof (rest_chunk n t0 last pre k Ht) as Hd.
  assert (NoDup (rest t0 last)) as Hnd by apply NoDup_filter, NoDup_sorted_keys.
  apply map_eq. intros x. unfold update_rows. rewrite map_lookup_imap, !filled_lookup.
  destruct (t0 !! x) as [r|] eqn:Hx; [|done]. simpl. f_equal.
  assert (x ∈ sorted_keys t0) as Hin by (apply elem_of_sorted_keys; eauto).
  assert (∀ l, x ∈ rest t0 l ↔ beyond l x = true) as Hrest
    by (intros l; unfold rest; rewrite list_elem_of_filter; naive_solver).
  pose proof (Hrest last) as H1. pose proof (Hrest (Some k)) as H2. rewrite Hd in H2.
  rewrite <- (take_drop n (rest t0 last)) in H1, Hnd. rewrite elem_of_app in H1.
  apply NoDup_app in Hnd as (_ & Hnd & _). specialize (Hnd x).
  case_bool_decide as Hc.
  - rewrite (proj1 H1) by (by left). change (negb (key_le x k)) with (beyond (Some k) x).
    by destruct (beyond (Some k) x); [exfalso; tauto|].
  - change (negb (key_le x k)) with (beyond (Some k) x).
    destruct (beyond last x) eqn:E1, (beyond (Some k) x) eqn:E2; try done; exfalso; naive_solver.
Qed.

(** The progress of a target over its table [t0]: the checkpoint reached, or completion. *)
Inductive scan_inv (tg : BackfillTarget) (t0 : table) (db : backfill_db) : nat → Prop :=
| scan_open last p :
    default (mkProgress None 0 0 false) (bd_progress db !! tg_name tg) = p →
    bp_completed p = false → bp_last_key p = key_text <$> last →
    (∀ k, last = Some k → key_ok tg k = true) →
    table_of tg db = filled tg last t0 →
    bp_scanned p + Z.of_nat (length (rest t0 last)) = Z.of_nat (size t0) →
    scan_inv tg t0 db (S (length (rest t0 last)))
| scan_done p :
    bd_progress db !! tg_name tg = Some p → bp_completed p = true → bp_scanned p = Z.of_nat (size t0) →
    table_of tg db = fill tg <$> t0 →
    scan_inv tg t0 db 0.

Lemma scan_inv_ext tg t0 db db' m :
  bd_progress db !! tg_name tg = bd_progress db' !! tg_name tg → table_of tg db = table_of tg db' →
  scan_inv tg t0 db m → scan_inv tg t0 db' m.
Proof.
  intros Hp Ht. destruct 1 as [last p H1 H2 H3 H4 H5 H6|p H1 H2 H3 H4].
  - rewrite Hp in H1. apply (scan_open _ _ _ last p); try done. by rewrite <- Ht.
  - apply (scan_done _ _ _ p); congruence.
Qed.

Lemma keys_ok n tg last t t0 :
  (∀ k, last = Some k → key_ok tg k = true) → dom t = dom t0 →
  _keys n tg (key_text <$> last) t = Ok (take (Z.to_nat n) (rest t0 last)).
Proof.
  intros Hk Hd. unfold _keys, rest. rewrite (sorted_keys_same t t0) by done.
  destruct last as [k|]; simpl; [|done]. by rewrite key_round_trip by auto.
Qed.

(** Every batch succeeds; it completes the target or moves its checkpoint. *)
Lemma batch_step n tg t0 db m :
  1 ≤ n → (∀ k, is_Some (t0 !! k) → key_ok tg k = true) → scan_inv tg t0 db m →
  ∃ db' r m', _run_batch n tg db = (db', Ok r) ∧ scan_inv tg t0 db' m' ∧
    (if br_completed r then m' = 0%nat else (m' < m)%nat) ∧
    (∀ tg', tg_name tg' ≠ tg_name tg → bd_progress db' !! tg_name tg' = bd_progress db !! tg_name tg') ∧
    (∀ tg', tg_table tg' ≠ tg_table tg → table_of tg' db' = table_of tg' db).
Proof.
  intros Hn Hkeys Hinv. unfold _run_batch, transaction, batch_statements, put_progress, io_bind, io_get, io_modify, io_ret, io_lift.
  assert (∀ x tg', tg_name tg' ≠ tg_name tg → <[tg_name tg := x]> (bd_progress db) !! tg_name tg' = bd_progress db !! tg_name tg')
    as Hframe by (intros; by rewrite lookup_insert_ne by congruence).
  destruct Hinv as [last p H1 H2 H3 H4 H5 H6|p H1 H2 H3 H4].
  - rewrite H1, H2, H3, H5, (keys_ok n tg last _ t0 H4 (dom_filled _ _ _)).
    set (keys := take (Z.to_nat n) (rest t0 last)). destruct (list.last keys) as [k|] eqn:Hl.
    + apply last_Some in Hl as [pre Hl].
      assert (k ∈ rest t0 last) as Hk by (apply (subseteq_take (Z.to_nat n)); fold keys; rewrite Hl; set_solver).
      assert (key_ok tg k = true) as Hok.
      { apply Hkeys. apply elem_of_sorted_keys. unfold rest in Hk. by apply list_elem_of_filter in Hk as [_ ?]. }
      unfold raise_if, io_raise, io_ret. pose proof Hok as Hlen. unfold key_ok in Hlen. apply andb_true_iff in Hlen as [_ Hlen].
      rewrite Z.leb_antisym, negb_true_iff in Hlen. rewrite Hlen.
      pose proof (rest_chunk _ _ _ _ _ Hl) as Hd.
      assert (length keys + length (drop (Z.to_nat n) (rest t0 last)) = length (rest t0 last))%nat as Hlk
        by (unfold keys; rewrite <- length_app; by rewrite take_drop).
      assert (1 ≤ length keys)%nat by (rewrite Hl, length_app; simpl; lia).
      do 3 eexists. split; [reflexivity|]. split; [|split; [|split]].
      * eapply (scan_open _ _ _ (Some k)); simpl.
        -- by rewrite lookup_insert_eq.
        -- done.
        -- done.
        -- by intros ? [= <-].
        -- unfold table_of. simpl. rewrite lookup_insert_eq. by apply update_chunk with (pre := pre).
        -- simpl. rewrite Hd. lia.
      * simpl. rewrite Hd. lia.
      * intros tg' Ht. simpl. rewrite !lookup_insert_ne by congruence. done.
      * intros tg' Ht. unfold table_of. simpl. by rewrite lookup_insert_ne by congruence.
    + apply last_None in Hl. assert (rest t0 last = []) as Hr.
      { unfold keys in Hl. apply take_nil_inv in Hl as [?|?]; [lia|done]. }
      do 3 eexists. split; [reflexivity|]. split; [|split; [|split]].
      * eapply scan_done; simpl; [by rewrite lookup_insert_eq|done|simpl; rewrite Hr in H6; simpl in H6; lia|].
        unfold table_of in *. simpl. rewrite H5. by apply filled_all.
      * done.
      * intros tg' Ht. simpl. rewrite !lookup_insert_ne by congruence. done.
      * done.
  - rewrite H1. simpl. rewrite H2. do 3 eexists. split; [reflexivity|]. split; [|split; [|split]]; try done.
    + eapply (scan_done _ _ _ p); simpl; [by rewrite lookup_insert_eq|done..].
    + intros tg' Ht. simpl. by apply Hframe.
Qed.

Lemma run_target_completes n tg t0 max fuel : ∀ m db batches results,
  1 ≤ n → (∀ k, is_Some (t0 !! k) → key_ok tg k = true) → scan_inv tg t0 db m → (m < fuel)%nat →
  ∃ db' rs, run_target fuel n tg batches max true results db = (db', Ok rs) ∧ scan_inv tg t0 db' 0 ∧
    (∀ tg', tg_name tg' ≠ tg_name tg → bd_progress db' !! tg_name tg' = bd_progress db !! tg_name tg') ∧
    (∀ tg', tg_table tg' ≠ tg_table tg → table_of tg' db' = table_of tg' db).
Proof.
  induction fuel as [|fuel IH]; intros m db batches results Hn Hk Hinv Hf; [lia|].
  cbn [run_target]. rewrite orb_true_r.
  destruct (batch_step n tg t0 db m Hn Hk Hinv) as (db1 & r & m1 & E & Hinv1 & Hm & Hp & Ht).
  unfold io_bind. rewrite E. destruct (br_completed r) eqn:Hr.
  - subst m1. do 2 eexists. split; [reflexivity|]. done.
  - destruct (IH m1 db1 (batches + 1) (results ++ [r]) Hn Hk Hinv1 ltac:(lia)) as (db2 & rs & E2 & Hinv2 & Hp2 & Ht2).
    exists db2, rs. split_and!; [done|done|..]; intros tg' ?; [rewrite Hp2, Hp|rewrite Ht2, Ht]; done.
Qed.

(** The batches of some targets, in any order and of any size. *)
Definition batch_of (tgs : list BackfillTarget) (db db' : backfill_db) : Prop :=
  ∃ n tg, 1 ≤ n ∧ tg ∈ tgs ∧ db' = (_run_batch n tg db).1.

Definition targets_ok (tgs : list BackfillTarget) : Prop :=
  NoDup (tg_name <$> tgs) ∧ NoDup (tg_table <$> tgs).

Lemma NoDup_fmap_ne {A} (f : A → string) l x y :
  NoDup (f <$> l) → x ∈ l → y ∈ l → f x = f y → x = y.
Proof.
  intros Hnd [i Hi]%list_elem_of_lookup [j Hj]%list_elem_of_lookup E.
  assert (i = j) as ->; [|congruence]. eapply (NoDup_lookup (f <$> l)); [done|..].
  - rewrite list_lookup_fmap, Hi. reflexivity.
  - rewrite list_lookup_fmap, Hj. by rewrite E.
Qed.

Lemma targets_ne tgs tg tg' :
  targets_ok tgs → tg ∈ tgs → tg' ∈ tgs → tg ≠ tg' → tg_name tg ≠ tg_name tg' ∧ tg_table tg ≠ tg_table tg'.
Proof.
  intros [H1 H2] Hin Hin' Hne. split; intros E; apply Hne.
  - by apply (NoDup_fmap_ne tg_name tgs).
  - by apply (NoDup_fmap_ne tg_table tgs).
Qed.

Lemma batches_inv tgs (tables : BackfillTarget → table) db db' :
  targets_ok tgs → (∀ tg k, tg ∈ tgs → is_Some (tables tg !! k) → key_ok tg k = true) →
  rtc (batch_of tgs) db db' → (∀ tg, tg ∈ tgs → ∃ m, scan_inv tg (tables tg) db m) →
  ∀ tg, tg ∈ tgs → ∃ m, scan_inv tg (tables tg) db' m.
Proof.
  intros Hok Hkeys. induction 1 as [db|db db1 db2 (n & tg & Hn & Htg & ->) _ IH]; intros H; [done|].
  apply IH. intros tg' Htg'. destruct (H tg Htg) as [m Hm].
  destruct (batch_step n tg _ db m Hn (λ k, Hkeys tg k Htg) Hm) as (db' & r & m' & E & Hinv & _ & Hp & Ht).
  rewrite E. simpl. destruct (decide (tg_name tg' = tg_name tg)) as [En|En].
  - apply (NoDup_fmap_ne tg_name tgs) in En; [|by apply Hok|done..]. subst. by exists m'.
  - assert (tg_table tg' ≠ tg_table tg) as Et.
    { intros Et. apply En. f_equal. by apply (NoDup_fmap_ne tg_table tgs); [apply Hok|..]. }
    destruct (H tg' Htg') as [m2 Hm2]. exists m2. eapply scan_inv_ext; [symmetry; by apply Hp|symmetry; by apply Ht|done].
Qed.

Lemma run_targets_complete tgs n max fuel (tables : BackfillTarget → table) : ∀ db results,
  1 ≤ n → targets_ok tgs → (∀ tg k, tg ∈ tgs → is_Some (tables tg !! k) → key_ok tg k = true) →
  (∀ tg, tg ∈ tgs → ∃ m, scan_inv tg (tables tg) db m) → (∀ tg, tg ∈ tgs → S (size (tables tg)) < fuel)%nat →
  ∃ db' rs, io_fold (λ results tg, run_target fuel n tg 0 max true results) tgs results db = (db', Ok rs) ∧
    (∀ tg, tg ∈ tgs → scan_inv tg (tables tg) db' 0) ∧
    (∀ tg', tg_name tg' ∉ tg_name <$> tgs → tg_table tg' ∉ tg_table <$> tgs →
       bd_progress db' !! tg_name tg' = bd_progress db !! tg_name tg' ∧ table_of tg' db' = table_of tg' db).
Proof.
  induction tgs as [|tg tgs IH]; intros db results Hn [Hn1 Hn2] Hk Hinv Hf.
  { do 2 eexists. split; [reflexivity|]. split; [by intros ? ?%elem_of_nil|done]. }
  cbn [fmap list_fmap] in Hn1, Hn2. apply NoDup_cons in Hn1 as [Hx1 Hn1], Hn2 as [Hx2 Hn2].
  destruct (Hinv tg ltac:(left)) as [m Hm].
  assert (m ≤ S (size (tables tg)))%nat as Hms.
  { destruct Hm as [last p _ _ _ _ _ Hs|]; [|lia].
    assert (length (rest (tables tg) last) ≤ size (tables tg))%nat; [|lia].
    unfold rest. etrans; [apply length_filter|]. unfold sorted_keys. rewrite length_sort_by, length_fmap.
    by rewrite length_map_to_list. }
  destruct (run_target_completes n tg (tables tg) max fuel m db 0 results Hn) as (db1 & rs & E & H0 & Hp & Ht);
    [intros k; apply Hk; left|done|specialize (Hf tg ltac:(left)); lia|].
  destruct (IH db1 rs Hn) as (db2 & rs2 & E2 & H2 & H3); [done|intros; apply Hk; [by right|done]|..].
  { intros tg' Htg'. destruct (Hinv tg' ltac:(by right)) as [m' Hm']. exists m'.
    eapply scan_inv_ext; [symmetry; apply Hp|symmetry; apply Ht|done].
    - intros En. apply Hx1. rewrite <- En. by apply list_elem_of_fmap_2.
    - intros En. apply Hx2. rewrite <- En. by apply list_elem_of_fmap_2. }
  { intros; apply Hf; by right. }
  exists db2, rs2. cbn [io_fold]. unfold io_bind. rewrite E. split; [done|]. split.
  - intros tg' [->|Htg']%elem_of_cons; [|by apply H2]. destruct (H3 tg Hx1 Hx2) as [Hp3 Ht3].
    eapply scan_inv_ext; [by symmetry|by symmetry|done].
  - intros tg' Hn' Ht'. destruct (H3 tg') as [-> ->]; [set_solver|set_solver|]. split; [apply Hp|apply Ht]; set_solver.
Qed.

(** ** What is filled *)

(** The statements of all targets: [SET c = COALESCE(c, e)] for the columns of the [WHERE] clause. *)
Definition coalescing (tg : BackfillTarget) : Prop :=
  NoDup (tg_sets tg).*1 ∧ (tg_sets tg).*1 = tg_nulls tg ∧
  Forall (λ ce, match ce.2 with Coalesce (Col c) _ => c = ce.1 | _ => False end) (tg_sets tg).

Lemma assign_lookup sets : ∀ acc r c,
  NoDup sets.*1 → foldl (assign_one r) acc sets !! c
  = match aget c sets with Some e => eval e r | None => acc !! c end.
Proof.
  induction sets as [|[c' e] sets IH]; intros acc r c Hnd; [done|]. cbn [fmap list_fmap fst] in Hnd.
  apply NoDup_cons in Hnd as [Hc' Hnd]. cbn [foldl aget fst snd]. rewrite IH by done. unfold assign_one. cbn [fst snd].
  destruct (String.eqb_spec c c') as [->|Hne].
  - rewrite (proj2 (aget_None c' sets)) by done. destruct (eval e r); [by rewrite lookup_insert_eq|by rewrite lookup_delete_eq].
  - destruct (aget c sets); [done|]. destruct (eval e r); [by rewrite lookup_insert_ne|by rewrite lookup_delete_ne].
Qed.

(** A filled row keeps what it had and lacks an audit column only if nothing can be derived. *)
Lemma fill_spec tg r :
  coalescing tg →
  (∀ c v, r !! c = Some v → fill tg r !! c = Some v) ∧
  ((∀ ce, ce ∈ tg_sets tg → is_Some (eval ce.2 r)) → needs tg (fill tg r) = false).
Proof.
  intros (Hnd & Hcols & Hall). rewrite Forall_forall in Hall. unfold fill, assign.
  assert (∀ c v, r !! c = Some v →
    (if needs tg r then foldl (assign_one r) r (tg_sets tg) else r) !! c = Some v) as Hkeep.
  { intros c v Hv. destruct (needs tg r); [|done]. rewrite assign_lookup by done.
    destruct (aget c (tg_sets tg)) as [e|] eqn:He; [|done]. apply aget_Some in He. specialize (Hall _ He). simpl in Hall.
    destruct e as [| | |[] e'| |]; try done. subst. simpl. by rewrite Hv. }
  split; [done|]. intros Hd. destruct (needs tg r) eqn:Hn; [|done].
  apply not_true_iff_false. intros (c & Hc & Hcn)%existsb_exists. apply bool_decide_eq_true in Hcn.
  rewrite assign_lookup in Hcn by done. destruct (aget c (tg_sets tg)) as [e|] eqn:He.
  - apply aget_Some in He. destruct (Hd _ He) as [v Hv]. simpl in Hv. congruence.
  - apply aget_None in He. apply He. rewrite Hcols. by apply list_elem_of_In.
Qed.

Lemma targets_coalescing : Forall coalescing (TARGETS ++ ERP_TARGETS).
Proof.
  unfold TARGETS, ERP_TARGETS, both, fill_null, coalescing. simpl.
  repeat (constructor; [split; [by apply (bool_decide_unpack _); vm_compute|split; [done|repeat constructor]]|]).
  constructor.
Qed.

Lemma targets_distinct : targets_ok TARGETS ∧ targets_ok ERP_TARGETS.
Proof. split; split; apply (bool_decide_unpack _); vm_compute; done. Qed.

(** C23: The audit backfill can be stopped anywhere and still completes. From a database without
    progress rows, let any batches of the targets run, of any size and in any order (a batch that
    fails leaves no trace). Then a run until completion returns after finitely many batches; every
    target is recorded as completed with every row of its table scanned once; every row of every
    target is what a single pass of the [UPDATE] makes of it: no value it had is changed, and no
    audit column is left empty for which a value can be derived. *)
Theorem audit_backfill_completes tgs n max fuel db0 db :
  tgs = TARGETS ∨ tgs = ERP_TARGETS → 1 ≤ n ≤ 100000 → 1 ≤ max →
  bd_progress db0 = ∅ → (∀ tg k, tg ∈ tgs → is_Some (table_of tg db0 !! k) → key_ok tg k = true) →
  rtc (batch_of tgs) db0 db → (∀ tg, tg ∈ tgs → S (size (table_of tg db0)) < fuel)%nat →
  ∃ db' results,
    run fuel tgs n max true db = (db', Ok results) ∧
    ∀ tg, tg ∈ tgs →
      (∃ p, bd_progress db' !! tg_name tg = Some p ∧ bp_completed p = true ∧
            bp_scanned p = Z.of_nat (size (table_of tg db0))) ∧
      table_of tg db' = fill tg <$> table_of tg db0 ∧
      ∀ k r, table_of tg db0 !! k = Some r → ∃ r', table_of tg db' !! k = Some r' ∧
        (∀ c v, r !! c = Some v → r' !! c = Some v) ∧
        ((∀ ce, ce ∈ tg_sets tg → is_Some (eval ce.2 r)) → needs tg r' = false).
Proof.
  intros Htgs Hn Hmax Hfresh Hkeys Hr Hfuel.
  assert (targets_ok tgs) as Hok by (destruct targets_distinct; by destruct Htgs as [->| ->]).
  assert (∀ tg, tg ∈ tgs → ∃ m, scan_inv tg (table_of tg db0) db m) as Hinv.
  { apply (batches_inv tgs (λ tg, table_of tg db0) db0 db Hok Hkeys Hr). intros tg _. eexists.
    apply (scan_open tg _ db0 None (mkProgress None 0 0 false)); try done.
    - by rewrite Hfresh, lookup_empty.
    - by rewrite filled_none.
    - simpl. unfold rest. rewrite filter_all by done. unfold sorted_keys.
      by rewrite length_sort_by, length_fmap, length_map_to_list. }
  destruct (run_targets_complete tgs n max fuel (λ tg, table_of tg db0) db [] ltac:(lia) Hok Hkeys Hinv Hfuel)
    as (db' & rs & E & Hdone & _).
  exists db', rs. split.
  { unfold run, raise_if. destruct (Z.ltb_spec n 1), (Z.ltb_spec 100000 n), (Z.ltb_spec max 1); try lia. simpl. done. }
  intros tg Htg. specialize (Hdone tg Htg). inversion Hdone as [|p H1 H2 H3 H4]; subst.
  split; [by exists p|]. split; [done|]. intros k r Hkr. rewrite H4, lookup_fmap, Hkr. simpl. eexists. split; [done|].
  apply fill_spec. pose proof targets_coalescing as Hc. rewrite Forall_forall in Hc. apply Hc.
  rewrite elem_of_app. destruct Htgs as [->| ->]; auto.
Qed.
End Backfill.

(** ** A concrete run *)

Definition witness_shipments : table :=
  {[KInt 9 := {["ship_date" := SDate 738900; "delivered_date" := SDate 738903]};
    KInt 10 := {["ship_date" := SDate 738901]};
    KInt 100 := {["ship_date" := SDate 738902; "created_at" := SStamp 5]}]}.
Definition witness_backfill : backfill_db := mkBackfill {["ops.shipments" := witness_shipments]} ∅.
Definition witness_shipment_target : BackfillTarget :=
  default (mkTarget "" "" BIGINT [] []) (TARGETS !! 4%nat).
Definition witness_halfway : backfill_db := (_run_batch str_le 2 witness_shipment_target witness_backfill).1.

Example witness_checkpoint : bd_progress witness_halfway !! "shipments" = Some (mkProgress (Some "10") 2 2 false).
Proof. vm_compute. reflexivity. Qed.

Lemma audit_backfill_completes_witness :
  ∃ db' results, run str_le 10 TARGETS 2 1 true witness_halfway = (db', Ok results) ∧
    table_of witness_shipment_target db' = fill witness_shipment_target <$> witness_shipments.
Proof.
  destruct (audit_backfill_completes str_le str_le_total str_le_trans str_le_antisym TARGETS 2 1 10 witness_backfill witness_halfway)
    as (db' & rs & E & H).
  - by left.
  - lia.
  - lia.
  - reflexivity.
  - intros tg k Htg [r Hr]. unfold witness_backfill, table_of in Hr. simpl in Hr.
    destruct (decide (tg_table tg = "ops.shipments")) as [Et|Et].
    + assert (tg = witness_shipment_target) as ->.
      { apply (NoDup_fmap_ne tg_table TARGETS); [apply targets_distinct|done|apply list_elem_of_lookup; by exists 4%nat|done]. }
      rewrite Et, lookup_singleton_eq in Hr. simpl in Hr. unfold witness_shipments in Hr.
      apply elem_of_map_to_list, (list_elem_of_fmap_2 fst) in Hr. simpl in Hr.
      assert (Forall (λ k, key_ok witness_shipment_target k = true) (map_to_list witness_shipments).*1) as Hf
        by (apply (bool_decide_unpack _); vm_compute; done).
      rewrite Forall_forall in Hf. by apply Hf.
    + rewrite lookup_singleton_ne in Hr by congruence. simpl in Hr. by rewrite lookup_empty in Hr.
  - apply rtc_once. exists 2, witness_shipment_target. split_and!; [lia|apply list_elem_of_lookup; by exists 4%nat|done].
  - intros tg _. unfold witness_backfill, table_of. simpl.
    destruct (decide (tg_table tg = "ops.shipments")) as [->|Et].
    + rewrite lookup_singleton_eq. vm_compute. lia.
    + rewrite lookup_singleton_ne by congruence. simpl. rewrite map_size_empty. lia.
  - exists db', rs. split; [done|]. destruct (H witness_shipment_target) as (_ & Ht & _); [apply list_elem_of_lookup; by exists 4%nat|].
    rewrite Ht. reflexivity.
Defined.
