(* ===== verification/HistoryBackfill.v ===== *)
(** * Inferred lifecycle history: [generator/history_backfill.py]

    The status histories inferred for baseline rows that have none: the inference per table, the
    batches that write it behind a checkpoint, and the dry run. A value of the state holds the
    tables of one target, its history table and its progress row. Shipments and invoices have one row
    per order, as the constraints of the schema say. *)

From stdpp Require Import prelude gmap strings list sorting relations.
From Stdlib Require Import ZArith Lia Ascii Floats.SpecFloat.
From S2P Require Import Prelude PyText Dates Sha256 PyNum OpsApply AuditBackfill.

Open Scope Z_scope.

(** ** Values *)

(** [date | datetime] *)
Inductive moment := Day (d : date) | Moment (t : timestamp).
(** A column value: [NULL], a date or datetime, or a number. *)
Inductive cell := CNull | CTime (m : moment) | CNumber (d : decimal).

#[export] Instance moment_eq_dec : EqDecision moment.
Proof. solve_decision. Defined.

Definition _is_date (c : cell) : bool := match c with CTime _ => true | _ => false end.

Definition microseconds_per_day : Z := 24 * microseconds_per_hour.

(** [value.date()]; an ordinal counts the days of a timestamp. *)
Definition _business_date (m : moment) : date :=
  match m with Day d => d | Moment t => t / microseconds_per_day end.

Definition _sla_status (occurred_at : moment) (due_at : option moment) : string :=
  match due_at with
  | None => "ON_TIME"
  | Some due => sla_text (_business_date due <? _business_date occurred_at)
  end.

Definition _is_not_before (later earlier : moment) : bool :=
  match later, earlier with
  | Moment a, Moment b => b <=? a
  | _, _ => _business_date earlier <=? _business_date later
  end.

Definition _clamp_not_before (value : moment) (floors : list moment) : moment :=
  foldl (λ clamped floor, if negb (_is_not_before clamped floor) then floor else clamped) value floors.

Definition time_max : timestamp := (date_max + 1) * microseconds_per_day - 1.

(** [m + timedelta(microseconds=us)]; a date moves by whole days. *)
Definition add_microseconds (m : moment) (us : Z) : res moment :=
  match m with
  | Moment t => let t' := t + us in
                if (microseconds_per_day <=? t') && (t' <=? time_max) then Ok (Moment t')
                else raise OverflowError "date value out of range"
  | Day d => let d' := d + us / microseconds_per_day in
             if (1 <=? d') && (d' <=? date_max) then Ok (Day d') else raise OverflowError "date value out of range"
  end.

Definition add_day_count (m : moment) (n : Z) : res moment := add_microseconds m (n * microseconds_per_day).

(** [math.modf] of a finite float: the integral part and the fraction. *)
Definition modf (x : f64) : Z * f64 :=
  match x with
  | S754_finite s m e =>
    let z := if s then Zneg m else Zpos m in
    if 0 <=? e then (z * 2 ^ e, S754_zero false)
    else (Z.quot z (2 ^ (- e)), binary_normalize f64_prec f64_emax (Z.rem z (2 ^ (- e))) e false)
  | _ => (0, S754_zero false)
  end.

(** [timedelta(hours=x)] in microseconds: whole hours exactly, the fraction in binary64, half even. *)
Definition hours_microseconds (x : f64) : Z :=
  let '(whole, fraction) := modf x in
  let '(us, leftover) := modf (f64_mul (f64_of_Z microseconds_per_hour) fraction) in
  let n := whole * microseconds_per_hour + us in
  match leftover with
  | S754_finite s m e => if e <? 0 then div_half_even (n * 2 ^ (- e) + (if s then Zneg m else Zpos m)) (2 ^ (- e)) else n
  | _ => n
  end.

(** [float(d)] of a [Decimal] *)
Definition float_of_decimal (d : decimal) : f64 := f64_literal (d_coef d) (d_exp d).

Example quarter_hours : hours_microseconds (float_of_decimal (Decimal 2507 (-2))) = 2507 * (microseconds_per_hour / 100).
Proof. vm_compute. reflexivity. Qed.

(** ** Targets and rows *)

Inductive HistoryTarget := orders_target | shipments_target | invoices_target | support_cases_target.

Definition target_name (t : HistoryTarget) : string :=
  match t with
  | orders_target => "inferred_order_status_history"
  | shipments_target => "inferred_shipment_status_history"
  | invoices_target => "inferred_invoice_status_history"
  | support_cases_target => "inferred_support_case_status_history"
  end.

(** The rows the queries of [_fetch_candidates] return, after the key. *)
Inductive source_row :=
| OrderRow (status : string) (created due ship invoice updated : cell)
| ShipmentRow (ship delivered promised : cell)
| InvoiceRow (status : string) (created updated : cell)
| CaseRow (status : string) (opened resolution_hours updated : cell).

Definition inferred_event_id (history_name : string) (entity_id : Z) (transition : string) : string :=
  sha256_hex ("inferred_baseline:" +:+ history_name +:+ ":" +:+ str_of_Z entity_id +:+ ":" +:+ transition).

(** A history row as the inference builds it; [recorded_at] equals [occurred_at]. *)
Record inferred := mkInferred {
  ie_key : Z;
  ie_previous : option string;
  ie_new : string;
  ie_occurred : moment;
  ie_event_id : string;
  ie_due : option moment;
  ie_sla : string }.

(** A date in a [TIMESTAMP] column is its midnight. *)
Definition column_time (m : moment) : timestamp := match m with Day d => at_hour d 0 | Moment t => t end.
Definition stored_row (e : inferred) : history :=
  mkHistory (ie_key e) (ie_previous e) (ie_new e) (column_time (ie_occurred e)) (ie_event_id e)
    (column_time <$> ie_due e) (ie_sla e) (Some "inferred_baseline").

(** [value if _is_date(value) else None] *)
Definition date_or_none (c : cell) : option moment := match c with CTime m => Some m | _ => None end.

(** ** Inference: the events and whether the source row is invalid *)

Definition inference : Type := list inferred * bool.

Definition step (t : HistoryTarget) (key : Z) (previous : option string) (new transition : string) (at_ : moment)
    (due : option moment) (sla : string) : inferred :=
  mkInferred key previous new at_ (inferred_event_id (target_name t) key transition) due sla.

Definition is_one_of (s : string) (l : list string) : bool := existsb (String.eqb s) l.

(** [ship if _is_date(ship) and _is_not_before(ship, created) else created] *)
Definition shipped_time (ship : cell) (created : moment) : moment :=
  match ship with
  | CTime s => if _is_not_before s created then s else created
  | _ => created
  end.

Definition _infer_order (order_id : Z) (status : string) (created_c due_c ship invoice updated : cell) : res inference :=
  let t := orders_target in
  match created_c with
  | CTime created =>
    let due_at := date_or_none due_c in
    let events := [step t order_id None "PENDING" "PENDING" created due_at "ON_TIME"] in
    let shipped_at := if is_one_of status ["SHIPPED"; "INVOICED"] || (String.eqb status "CANCELLED" && _is_date ship)
                      then Some (shipped_time ship created) else None in
    let events := match shipped_at with
                  | Some at_ => events ++ [step t order_id (Some "PENDING") "SHIPPED" "SHIPPED" at_ due_at (_sla_status at_ due_at)]
                  | None => events
                  end in
    if String.eqb status "INVOICED" then
      (* shipped_at is set *)
      let shipped := default created shipped_at in
      let terminal_candidate := match invoice with
                                | CTime i => if _is_not_before i shipped then invoice else updated
                                | _ => updated
                                end in
      match terminal_candidate with
      | CTime candidate =>
        let invoiced_at := _clamp_not_before candidate [shipped; created] in
        let! invoice_due := add_day_count (Day (_business_date shipped)) 3 in
        Ok (events ++ [step t order_id (Some "SHIPPED") "INVOICED" "INVOICED" invoiced_at (Some invoice_due)
                         (_sla_status invoiced_at (Some invoice_due))], false)
      | _ => Ok (events, true)
      end
    else if String.eqb status "CANCELLED" then
      match updated with
      | CTime u =>
        let preceding_status := match shipped_at with Some _ => "SHIPPED" | None => "PENDING" end in
        let preceding_at := default created shipped_at in
        let cancelled_at := _clamp_not_before u [preceding_at; created] in
        Ok (events ++ [step t order_id (Some preceding_status) "CANCELLED" "CANCELLED" cancelled_at None "ON_TIME"], false)
      | _ => Ok (events, true)
      end
    else Ok (events, false)
  | _ => Ok ([], true)
  end.

Definition _infer_shipment (shipment_id : Z) (ship_c delivered_c promised : cell) : res inference :=
  let t := shipments_target in
  match ship_c with
  | CTime ship =>
    let promised_at := date_or_none promised in
    let events := [step t shipment_id None "SHIPPED" "SHIPPED" ship promised_at (_sla_status ship promised_at)] in
    match delivered_c with
    | CNull => Ok (events, false)
    | CTime delivered =>
      if _is_not_before delivered ship
      then Ok (events ++ [step t shipment_id (Some "SHIPPED") "DELIVERED" "DELIVERED" delivered promised_at
                            (_sla_status delivered promised_at)], false)
      else Ok (events, true)
    | CNumber _ => Ok (events, true)
    end
  | _ => Ok ([], true)
  end.

Definition _infer_invoice (invoice_id : Z) (status : string) (created_c updated_c : cell) : res inference :=
  let t := invoices_target in
  match created_c with
  | CTime created =>
    let events := [step t invoice_id None "ISSUED" "ISSUED" created None "ON_TIME"] in
    if negb (String.eqb status "VOID") then Ok (events, false)
    else match updated_c with
         | CTime updated =>
           if _is_not_before updated created
           then Ok (events ++ [step t invoice_id (Some "ISSUED") "VOID" "VOID" updated None "ON_TIME"], false)
           else Ok (events, true)
         | _ => Ok (events, true)
         end
  | _ => Ok ([], true)
  end.

Definition _infer_support_case (case_id : Z) (status : string) (opened_c resolution_hours updated_c : cell) : res inference :=
  let t := support_cases_target in
  match opened_c with
  | CTime opened =>
    let events := [step t case_id None "Open" "OPEN" opened None "ON_TIME"] in
    if negb (is_one_of status ["Resolved"; "Closed"]) then Ok (events, false)
    else match resolution_hours with
         | CNumber hours =>
           let! resolved := add_microseconds opened (hours_microseconds (float_of_decimal hours)) in
           let bad_update := match updated_c with
                             | CNull => false
                             | CTime updated => negb (_is_not_before updated resolved)
                             | CNumber _ => true
                             end in
           if negb (_is_not_before resolved opened) || bad_update then Ok (events, true)
           else
             let! due_at := add_day_count opened 3 in
             let events := events ++ [step t case_id (Some "Open") "Resolved" "RESOLVED" resolved (Some due_at)
                                        (_sla_status resolved (Some due_at))] in
             if negb (String.eqb status "Closed") then Ok (events, false)
             else match updated_c with
                  | CTime updated =>
                    if _is_not_before updated resolved
                    then Ok (events ++ [step t case_id (Some "Resolved") "Closed" "CLOSED" updated None "ON_TIME"], false)
                    else Ok (events, true)
                  | _ => Ok (events, true)
                  end
         | _ => (* float(None), float of a datetime: TypeError *) Ok (events, true)
         end
  | _ => Ok ([], true)
  end.

Definition _infer (t : HistoryTarget) (key : Z) (row : source_row) : res inference :=
  match t, row with
  | orders_target, OrderRow status created due ship invoice updated => _infer_order key status created due ship invoice updated
  | shipments_target, ShipmentRow ship delivered promised => _infer_shipment key ship delivered promised
  | invoices_target, InvoiceRow status created updated => _infer_invoice key status created updated
  | support_cases_target, CaseRow status opened hours updated => _infer_support_case key status opened hours updated
  | _, _ => raise ValueError "not enough values to unpack"
  end.

(** ** Batches *)

(** The tables of one target. *)
Record history_db := mkHistoryDb {
  hb_rows : gmap Z source_row;
  hb_history : list history;
  hb_progress : option progress }.

Definition set_history x db := mkHistoryDb (hb_rows db) x (hb_progress db).
Definition set_hb_progress x db := mkHistoryDb (hb_rows db) (hb_history db) x.

Definition has_history (db : history_db) (key : Z) : bool := existsb (λ h, h_entity h =? key) (hb_history db).

Definition sorted_rows (db : history_db) : list (Z * source_row) :=
  sort_by (λ a b, a.1 <=? b.1) (map_to_list (hb_rows db)).

(** [_fetch_candidates]: rows without history past the last key. *)
Definition _fetch_candidates (batch_size : Z) (last_key : option string) (db : history_db)
    : res (list (Z * source_row)) :=
  let! last := match last_key with
               | None => Ok None
               | Some s => match py_int s with
                           | Some k => Ok (Some k)
                           | None => raise DataError "invalid input syntax for type bigint"
                           end
               end in
  Ok (take (Z.to_nat batch_size)
        (filter (λ r, match last with None => true | Some k => k <? r.1 end && negb (has_history db r.1) = true)
           (sorted_rows db))).

Record InferenceBatch := mkBatch { inserts : list inferred; invalid_sources : Z }.

(** [_build_batch] *)
Fixpoint _build_batch (t : HistoryTarget) (rows : list (Z * source_row)) : res InferenceBatch :=
  match rows with
  | [] => Ok (mkBatch [] 0)
  | (key, row) :: rows =>
    let! inference := _infer t key row in
    let! batch := _build_batch t rows in
    Ok (mkBatch (inference.1 ++ inserts batch) (Z.b2z inference.2 + invalid_sources batch))
  end.

Record history_result := mkHistoryResult {
  hr_name : string; hr_scanned : Z; hr_inferred : Z; hr_skipped_invalid : Z; hr_dry_run : bool; hr_completed : bool }.

(** [_result]; [eligible] repeats [scanned], and [would_write] or [inserted] repeats [inferred]. *)
Definition _result (t : HistoryTarget) (rows : list (Z * source_row)) (batch : InferenceBatch) (dry_run completed : bool)
    : history_result :=
  mkHistoryResult (target_name t) (Z.of_nat (length rows)) (Z.of_nat (length (inserts batch))) (invalid_sources batch)
    dry_run completed.

(** The loop of [dry_run]. *)
Fixpoint dry_run_loop (k : nat) (batch_size : Z) (t : HistoryTarget) (last_key : option string) (db : history_db)
    : res (list history_result) :=
  match k with
  | O => Ok []
  | S k =>
    let! rows := _fetch_candidates batch_size last_key db in
    match last rows with
    | None => Ok [_result t rows (mkBatch [] 0) true true]
    | Some r =>
      let! batch := _build_batch t rows in
      let! results := dry_run_loop k batch_size t (Some (str_of_Z r.1)) db in
      Ok (_result t rows batch true false :: results)
    end
  end.

Definition batch_size_ok (batch_size : Z) : bool := (1 <=? batch_size) && (batch_size <=? 100000).

(** [HistoryBackfill(connection, batch_size).dry_run(target, max_batches)] *)
Definition dry_run (batch_size : Z) (t : HistoryTarget) (max_batches : Z) (db : history_db) : res (list history_result) :=
  if negb (batch_size_ok batch_size) then raise ValueError "batch_size must be between 1 and 100000"
  else if max_batches <? 1 then raise ValueError "max_batches must be at least 1"
  else dry_run_loop (Z.to_nat max_batches) batch_size t None db.

(** The [CHECK]s of the history tables on transitions. *)
Definition allowed_of (t : HistoryTarget) : option string → string → bool :=
  match t with
  | orders_target => order_transition
  | shipments_target => shipment_transition
  | invoices_target => invoice_transition
  | support_cases_target => case_transition
  end.

(** [INSERT ... ON CONFLICT (source_event_id) DO NOTHING] *)
Definition insert_inferred (t : HistoryTarget) (e : inferred) : io history_db unit :=
  let* _ := raise_if (negb (allowed_of t (ie_previous e) (ie_new e))) IntegrityError "transition" in
  let* db := io_get in
  if existsb (λ h, String.eqb (h_source_event h) (ie_event_id e)) (hb_history db) then io_ret tt
  else io_modify (λ db, set_history (stored_row e :: hb_history db) db).

Definition fresh_progress : progress := mkProgress None 0 0 false.

(** One iteration of [run]. *)
Definition batch_statements (batch_size : Z) (t : HistoryTarget) : io history_db history_result :=
  let* _ := io_modify (λ db, set_hb_progress (Some (default fresh_progress (hb_progress db))) db) in
  let* db := io_get in
  let p := default fresh_progress (hb_progress db) in
  if bp_completed p then io_ret (_result t [] (mkBatch [] 0) false true)
  else
    let* rows := io_lift (_fetch_candidates batch_size (bp_last_key p) db) in
    match last rows with
    | None =>
      let* _ := io_modify (set_hb_progress (Some (mkProgress (bp_last_key p) (bp_scanned p) (bp_updated p) true))) in
      io_ret (_result t rows (mkBatch [] 0) false true)
    | Some r =>
      let* batch := io_lift (_build_batch t rows) in
      let* _ := io_iter (insert_inferred t) (inserts batch) in
      let* _ := io_modify (set_hb_progress (Some (mkProgress (Some (str_of_Z r.1))
                  (bp_scanned p + Z.of_nat (length rows)) (bp_updated p + Z.of_nat (length (inserts batch))) false))) in
      io_ret (_result t rows batch false false)
    end.

Fixpoint run_loop (k : nat) (batch_size : Z) (t : HistoryTarget) (results : list history_result)
    : io history_db (list history_result) :=
  match k with
  | O => io_ret results
  | S k =>
    let* r := transaction (batch_statements batch_size t) in
    if hr_completed r then io_ret (results ++ [r]) else run_loop k batch_size t (results ++ [r])
  end.

(** [HistoryBackfill(connection, batch_size).run(target, max_batches)] *)
Definition run (batch_size : Z) (t : HistoryTarget) (max_batches : Z) : io history_db (list history_result) :=
  let* _ := raise_if (negb (batch_size_ok batch_size)) ValueError "batch_size must be between 1 and 100000" in
  let* _ := raise_if (max_batches <? 1) ValueError "max_batches must be at least 1" in
  run_loop (Z.to_nat max_batches) batch_size t [].

(** ** The inferred chains *)

Lemma not_before_date later earlier :
  _is_not_before later earlier = true → _business_date earlier ≤ _business_date later.
Proof.
  destruct later, earlier; simpl; rewrite ?Z.leb_le; try done. intros. by apply Z.div_le_mono.
Qed.

Lemma before_date later earlier :
  _is_not_before later earlier = false → _business_date later ≤ _business_date earlier.
Proof.
  destruct later, earlier; simpl; rewrite Z.leb_gt; try lia. intros. apply Z.div_le_mono; [done|lia].
Qed.

Lemma clamp_date v a b : _business_date a ≤ _business_date (_clamp_not_before v [a; b]).
Proof.
  unfold _clamp_not_before. simpl.
  assert (_business_date a ≤ _business_date (if negb (_is_not_before v a) then a else v)) as H.
  { destruct (_is_not_before v a) eqn:E; simpl; [by apply not_before_date|done]. }
  set (w := if negb _ then a else v) in *. destruct (_is_not_before w b) eqn:E; simpl; [done|].
  apply before_date in E. lia.
Qed.

Lemma shipped_time_date ship created : _business_date created ≤ _business_date (shipped_time ship created).
Proof.
  destruct ship as [|s|]; simpl; try lia. destruct (_is_not_before s created) eqn:E; [by apply not_before_date|lia].
Qed.

(** Every event continues from the one before it, on the same business date or later. *)
Fixpoint chain (previous : option inferred) (events : list inferred) : Prop :=
  match events with
  | [] => True
  | e :: events =>
    ie_previous e = ie_new <$> previous ∧
    match previous with
    | Some p => _business_date (ie_occurred p) ≤ _business_date (ie_occurred e)
    | None => True
    end ∧ chain (Some e) events
  end.

(** The status of the source row. *)
Definition row_status (row : source_row) : string :=
  match row with
  | OrderRow status _ _ _ _ _ | InvoiceRow status _ _ | CaseRow status _ _ _ => status
  | ShipmentRow _ delivered _ => match delivered with CNull => "SHIPPED" | _ => "DELIVERED" end
  end.

(** The [CHECK]s on the status columns. *)
Definition status_ok (row : source_row) : Prop :=
  match row with
  | OrderRow status _ _ _ _ _ => status ∈ ["PENDING"; "SHIPPED"; "INVOICED"; "CANCELLED"]
  | ShipmentRow _ _ _ => True
  | InvoiceRow status _ _ => status ∈ ["ISSUED"; "VOID"]
  | CaseRow status _ _ _ => status ∈ ["Open"; "Resolved"; "Closed"]
  end.

(** What an inference promises. *)
Definition sound_inference (t : HistoryTarget) (key : Z) (status : string) (i : inference) : Prop :=
  chain None i.1 ∧
  Forall (λ e, ie_key e = key ∧ allowed_of t (ie_previous e) (ie_new e) = true) i.1 ∧
  NoDup (ie_new <$> i.1) ∧
  if i.2 then ∀ e, last i.1 = Some e → ie_new e ≠ status else ∃ e, last i.1 = Some e ∧ ie_new e = status.

(** Close the goals about a concrete chain. *)
Ltac solve_inference :=
  unfold sound_inference, step; cbn;
  repeat first
    [ split | done | lia | apply clamp_date | apply shipped_time_date | apply not_before_date; assumption
    | match goal with
      | |- Forall _ _ => constructor
      | |- NoDup _ => apply (bool_decide_unpack _); vm_compute; exact I
      | |- ∀ e, Some _ = Some e → _ => intros ? [= <-]; cbn; done
      | |- ∀ e, None = Some e → _ => intros ? [=]
      | |- ∃ e, Some _ = Some e ∧ _ => eexists; split; [reflexivity|]; cbn; done
      end ].

Lemma infer_order_sound key status created due ship invoice updated i :
  status ∈ ["PENDING"; "SHIPPED"; "INVOICED"; "CANCELLED"] →
  _infer_order key status created due ship invoice updated = Ok i → sound_inference orders_target key status i.
Proof.
  intros Hs. unfold _infer_order. destruct created as [|c|]; [intros [= <-]; solve_inference| |intros [= <-]; solve_inference].
  repeat (apply elem_of_cons in Hs as [->|Hs]); [..|by apply elem_of_nil in Hs]; cbn.
  - intros [= <-]. solve_inference.
  - intros [= <-]. solve_inference.
  - destruct (match invoice with CTime i0 => _ | _ => _ end) as [|m|] eqn:E; [intros [= <-]; solve_inference| |intros [= <-]; solve_inference].
    intros H. apply res_bind_ok in H as (d & Hd & [= <-]). solve_inference.
  - destruct (_is_date ship); destruct updated as [|u|]; intros [= <-]; solve_inference.
Qed.

Lemma infer_shipment_sound key ship delivered promised i :
  _infer_shipment key ship delivered promised = Ok i →
  sound_inference shipments_target key (row_status (ShipmentRow ship delivered promised)) i.
Proof.
  unfold _infer_shipment. destruct ship as [|s|]; [intros [= <-]; solve_inference| |intros [= <-]; solve_inference].
  destruct delivered as [|d|]; [intros [= <-]; solve_inference| |intros [= <-]; solve_inference].
  destruct (_is_not_before d s) eqn:E; intros [= <-]; solve_inference.
Qed.

Lemma infer_invoice_sound key status created updated i :
  status ∈ ["ISSUED"; "VOID"] →
  _infer_invoice key status created updated = Ok i → sound_inference invoices_target key status i.
Proof.
  intros Hs. unfold _infer_invoice. destruct created as [|c|]; [intros [= <-]; solve_inference| |intros [= <-]; solve_inference].
  repeat (apply elem_of_cons in Hs as [->|Hs]); [..|by apply elem_of_nil in Hs]; cbn.
  - intros [= <-]. solve_inference.
  - destruct updated as [|u|]; [intros [= <-]; solve_inference| |intros [= <-]; solve_inference].
    destruct (_is_not_before u c) eqn:E; intros [= <-]; solve_inference.
Qed.

Lemma infer_case_sound key status opened hours updated i :
  status ∈ ["Open"; "Resolved"; "Closed"] →
  _infer_support_case key status opened hours updated = Ok i → sound_inference support_cases_target key status i.
Proof.
  intros Hs. unfold _infer_support_case. destruct opened as [|o|]; [intros [= <-]; solve_inference| |intros [= <-]; solve_inference].
  destruct (String.eqb_spec status "Open") as [->|Hopen]; [cbn; intros [= <-]; solve_inference|].
  assert (status = "Resolved" ∨ status = "Closed") as Hs' by set_solver. clear Hs Hopen.
  assert (is_one_of status ["Resolved"; "Closed"] = true) as -> by (by destruct Hs' as [->| ->]). cbn [negb].
  assert ("Open" ≠ status) by (destruct Hs' as [->| ->]; done).
  destruct hours as [|m|h]; [intros [= <-]; solve_inference..|].
  intros H1. apply res_bind_ok in H1 as (resolved & _ & H1).
  destruct (_is_not_before resolved o) eqn:E1; cbn [negb orb] in H1; [|injection H1 as <-; solve_inference].
  destruct (match updated with CNull => false | CTime u => negb (_is_not_before u resolved) | CNumber _ => true end) eqn:E2;
    [injection H1 as <-; solve_inference|].
  apply res_bind_ok in H1 as (due & _ & H1). destruct Hs' as [->| ->]; cbn in H1; [injection H1 as <-; solve_inference|].
  destruct updated as [|u|]; try (injection H1 as <-; solve_inference).
  destruct (_is_not_before u resolved) eqn:E3; injection H1 as <-; solve_inference.
Qed.

Lemma infer_sound t key row i :
  status_ok row → _infer t key row = Ok i → sound_inference t key (row_status row) i.
Proof.
  destruct t, row; simpl; try done; intros Hs H.
  - by eapply infer_order_sound.
  - by eapply infer_shipment_sound.
  - by eapply infer_invoice_sound.
  - by eapply infer_case_sound.
Qed.

(** ** Candidates *)

(** The candidates at the start, and those past a key. *)
Definition candidates (db : history_db) : list (Z * source_row) :=
  filter (λ r, has_history db r.1 = false) (sorted_rows db).
Definition past (last : option Z) (r : Z * source_row) : bool :=
  match last with None => true | Some k => k <? r.1 end.
Definition after (last : option Z) (l : list (Z * source_row)) : list (Z * source_row) :=
  filter (λ r, past last r = true) l.

Definition by_key (a b : Z * source_row) : Prop := a.1 < b.1.

Lemma sorted_rows_by_key db : StronglySorted by_key (sorted_rows db).
Proof.
  assert (StronglySorted (λ a b : Z * source_row, (a.1 <=? b.1) = true) (sorted_rows db)) as Hs.
  { apply sort_by_sorted; intros; rewrite ?Z.leb_le in *; lia. }
  assert (NoDup (sorted_rows db).*1) as Hnd.
  { unfold sorted_rows. rewrite sort_by_perm. apply NoDup_fst_map_to_list. }
  induction Hs as [|a l Hl IH Ha]; [constructor|]. simpl in Hnd. apply NoDup_cons in Hnd as [Hx Hnd].
  constructor; [by apply IH|]. rewrite Forall_forall in *. intros b Hb. specialize (Ha b Hb). apply Z.leb_le in Ha.
  unfold by_key. destruct (decide (a.1 = b.1)) as [E|]; [|lia]. exfalso. apply Hx. rewrite E. by apply list_elem_of_fmap_2.
Qed.

Lemma filter_by_key (P : Z * source_row → Prop) `{∀ x, Decision (P x)} l :
  StronglySorted by_key l → StronglySorted by_key (filter P l).
Proof.
  induction 1 as [|x l Hl IH Hx]; [constructor|]. rewrite filter_cons. case_decide; [|done]. constructor; [done|].
  rewrite Forall_forall in *. intros y [_ Hy]%list_elem_of_filter. by apply Hx.
Qed.

Lemma candidates_by_key db : StronglySorted by_key (candidates db).
Proof. apply filter_by_key, sorted_rows_by_key. Qed.

(** Splitting a sorted list at a key. *)
Lemma after_split l done_ x todo :
  StronglySorted by_key l → l = done_ ++ x :: todo → after (Some x.1) l = todo.
Proof.
  intros Hs ->. unfold after. apply StronglySorted_app in Hs as (Hc & _ & Hs). inversion Hs as [|? ? _ Hx]; subst.
  rewrite Forall_forall in Hx. rewrite filter_app, filter_none, filter_cons_False, filter_all; [done|..].
  - intros y Hy. simpl. apply Z.ltb_lt. by apply Hx.
  - simpl. rewrite Z.ltb_irrefl. done.
  - intros y Hy. simpl. rewrite Z.ltb_lt. specialize (Hc y x Hy ltac:(left)). unfold by_key in Hc. lia.
Qed.

(** ** Inserting *)

Definition put (rows : list history) (e : inferred) : list history :=
  if existsb (λ h, String.eqb (h_source_event h) (ie_event_id e)) rows then rows else stored_row e :: rows.

Lemma insert_all t es : ∀ db,
  Forall (λ e, allowed_of t (ie_previous e) (ie_new e) = true) es →
  io_iter (insert_inferred t) es db = (set_history (foldl put (hb_history db) es) db, Ok tt).
Proof.
  unfold io_iter. induction es as [|e es IH]; intros db Hall; cbn [io_fold foldl].
  { by destruct db. }
  inversion Hall as [|? ? He Hes]; subst. unfold io_bind, insert_inferred. rewrite He. cbn [negb raise_if].
  unfold io_ret, io_get, io_bind, io_modify, put at 2. destruct (existsb _ (hb_history db)).
  - by rewrite IH.
  - rewrite IH by done. reflexivity.
Qed.

Lemma foldl_put_entities es : ∀ rows h,
  h ∈ foldl put rows es → h ∈ rows ∨ ∃ e, e ∈ es ∧ h = stored_row e.
Proof.
  induction es as [|e es IH]; intros rows h; cbn [foldl]; [by left|]. intros [Hh|(e' & He' & ->)]%IH.
  - unfold put in Hh. destruct (existsb _ rows); [by left|]. apply elem_of_cons in Hh as [->|Hh]; [|by left].
    right. exists e. split; [left|done].
  - right. exists e'. split; [by right|done].
Qed.

Lemma foldl_put_mono es : ∀ rows h, h ∈ rows → h ∈ foldl put rows es.
Proof.
  induction es as [|e es IH]; intros rows h Hh; [done|]. cbn [foldl]. apply IH. unfold put.
  destruct (existsb _ rows); [done|by right].
Qed.

Lemma foldl_put_distinct es : ∀ rows,
  NoDup (ie_event_id <$> es) → (∀ e h, e ∈ es → h ∈ rows → h_source_event h ≠ ie_event_id e) →
  foldl put rows es = rev (stored_row <$> es) ++ rows.
Proof.
  induction es as [|e es IH]; intros rows Hnd Hdis; [done|]. cbn [foldl fmap list_fmap rev] in *.
  apply NoDup_cons in Hnd as [He Hnd]. assert (put rows e = stored_row e :: rows) as ->.
  { unfold put. destruct (existsb _ rows) eqn:E; [|done]. exfalso. apply existsb_exists in E as (h & Hh & E).
    apply String.eqb_eq in E. apply (Hdis e h); [left|by apply list_elem_of_In|done]. }
  rewrite IH; [by rewrite <- app_assoc|done|]. intros e' h He' [->|Hh]%elem_of_cons.
  - simpl. intros E. apply He. rewrite E. by apply list_elem_of_fmap_2.
  - apply Hdis; [by right|done].
Qed.

Lemma build_app t l1 : ∀ l2,
  _build_batch t (l1 ++ l2) =
  (let! b1 := _build_batch t l1 in let! b2 := _build_batch t l2 in
   Ok (mkBatch (inserts b1 ++ inserts b2) (invalid_sources b1 + invalid_sources b2))).
Proof.
  induction l1 as [|[key row] l1 IH]; intros l2; cbn [app _build_batch res_bind].
  { destruct (_build_batch t l2) as [[]|]; done. }
  destruct (_infer t key row) as [i|e]; cbn [res_bind]; [|done]. rewrite IH.
  destruct (_build_batch t l1) as [b1|e]; cbn [res_bind]; [|done].
  destruct (_build_batch t l2) as [b2|e]; cbn [res_bind inserts invalid_sources]; [|done].
  by rewrite <- app_assoc, Z.add_assoc.
Qed.

Lemma build_inserts t l b :
  (∀ r, r ∈ l → status_ok r.2) → _build_batch t l = Ok b →
  Forall (λ e, ie_key e ∈ l.*1 ∧ allowed_of t (ie_previous e) (ie_new e) = true) (inserts b).
Proof.
  revert b. induction l as [|[key row] l IH]; intros b Hok; cbn [_build_batch].
  { intros [= <-]. constructor. }
  intros H. apply res_bind_ok in H as (i & Hi & H). apply res_bind_ok in H as (b' & Hb & [= <-]).
  apply infer_sound in Hi as (_ & Hi & _); [|apply (Hok (key, row)); left]. cbn [inserts]. apply Forall_app. split.
  - eapply Forall_impl; [exact Hi|]. intros e [-> ?]. split; [simpl; by left|done].
  - eapply Forall_impl; [apply IH; [intros; apply Hok; by right|done]|]. intros e [? ?]. split; [simpl; by right|done].
Qed.

(** ** The scan: what is done, what is left *)

(** After [done_], with [todo] left: [b] is the batch built from [done_]. *)
Record scan_inv (db0 : history_db) (t : HistoryTarget) (done_ todo : list (Z * source_row)) (b : InferenceBatch)
    (completed : bool) (db : history_db) : Prop := mkScan {
  si_split : candidates db0 = done_ ++ todo;
  si_completed : completed = true → todo = [];
  si_built : _build_batch t done_ = Ok b;
  si_rows : hb_rows db = hb_rows db0;
  si_history : hb_history db = foldl put (hb_history db0) (inserts b);
  si_progress : default fresh_progress (hb_progress db)
    = mkProgress (str_of_Z ∘ fst <$> last done_) (Z.of_nat (length done_)) (Z.of_nat (length (inserts b))) completed }.

Definition rows_ok (db : history_db) : Prop := map_Forall (λ _, status_ok) (hb_rows db).

Lemma candidates_ok db r : rows_ok db → r ∈ candidates db → status_ok r.2.
Proof.
  intros Hok [_ Hr]%list_elem_of_filter. apply elem_of_sort_by in Hr. destruct r as [k row].
  apply elem_of_map_to_list in Hr. exact (Hok k row Hr).
Qed.

Lemma past_last l done_ todo :
  StronglySorted by_key l → l = done_ ++ todo → after (fst <$> last done_) l = todo.
Proof.
  intros Hs ->. destruct (last done_) as [x|] eqn:E.
  - apply last_Some in E as [l' ->]. apply (after_split _ l'); [done|]. by rewrite <- app_assoc.
  - apply last_None in E as ->. unfold after. by apply filter_all.
Qed.

Lemma has_history_past db0 t done_ todo b completed db r :
  rows_ok db0 → scan_inv db0 t done_ todo b completed db → past (fst <$> last done_) r = true →
  has_history db r.1 = has_history db0 r.1.
Proof.
  intros Hok [Hc _ Hb _ Hh _] Hp. unfold has_history. rewrite Hh. apply eq_true_iff_eq. rewrite !existsb_exists.
  split; intros (h & Hin & E); apply list_elem_of_In in Hin.
  2: { exists h. split; [apply list_elem_of_In; by apply foldl_put_mono|done]. }
  apply foldl_put_entities in Hin as [Hin|(e & He & ->)]; [exists h; split; [by apply list_elem_of_In|done]|].
  exfalso. pose proof (build_inserts t done_ b) as Hf. specialize (λ H, Hf H Hb).
  assert (∀ x, x ∈ done_ → status_ok x.2) as Hst.
  { intros x Hx. eapply candidates_ok; [done|]. rewrite Hc. set_solver. }
  specialize (Hf Hst). rewrite Forall_forall in Hf. destruct (Hf e He) as [([k row] & E1 & Hk)%list_elem_of_fmap _]. simpl in *.
  apply Z.eqb_eq in E. destruct (last done_) as [x|] eqn:El; simpl in Hp; [|apply last_None in El as ->; by apply elem_of_nil in Hk].
  apply Z.ltb_lt in Hp. apply last_Some in El as [l' ->].
  pose proof (candidates_by_key db0) as Hs. rewrite Hc in Hs. apply StronglySorted_app in Hs as (_ & Hs & _).
  apply StronglySorted_app in Hs as (Hs & _ & _). apply elem_of_app in Hk as [Hk|Hk%list_elem_of_singleton].
  - specialize (Hs _ x Hk ltac:(left)). unfold by_key in Hs. simpl in Hs. lia.
  - subst x. simpl in Hp. lia.
Qed.

Lemma fetch_spec db0 t done_ todo b completed db n :
  rows_ok db0 → scan_inv db0 t done_ todo b completed db →
  _fetch_candidates n (str_of_Z ∘ fst <$> last done_) db = Ok (take (Z.to_nat n) todo).
Proof.
  intros Hok Hinv. unfold _fetch_candidates.
  rewrite <- (past_last _ _ _ (candidates_by_key db0) (si_split _ _ _ _ _ _ _ Hinv)).
  assert (filter (λ r, past (fst <$> last done_) r && negb (has_history db r.1) = true) (sorted_rows db)
          = after (fst <$> last done_) (candidates db0)) as E.
  { unfold after, candidates, sorted_rows. rewrite (si_rows _ _ _ _ _ _ _ Hinv).
    rewrite list_filter_filter. apply list_filter_iff. intros r. rewrite andb_true_iff, negb_true_iff.
    split; intros [H1 H2]; split; try done; erewrite <- H2; [symmetry|]; by eapply has_history_past. }
  destruct (last done_) as [x|]; cbn [fmap option_fmap option_map compose] in *;
    [rewrite py_int_str_of_Z|]; cbn [res_bind]; by rewrite <- E.
Qed.

(** The loop on what is left. *)
Fixpoint scan_loop (k : nat) (n : Z) (t : HistoryTarget) (dry : bool) (todo : list (Z * source_row)) : res (list history_result) :=
  match k with
  | O => Ok []
  | S k =>
    match take (Z.to_nat n) todo with
    | [] => Ok [_result t [] (mkBatch [] 0) dry true]
    | rows => let! b := _build_batch t rows in
              let! rs := scan_loop k n t dry (drop (Z.to_nat n) todo) in
              Ok (_result t rows b dry false :: rs)
    end
  end.

Lemma scan_extend db0 t done_ todo b db n rows b1 db' :
  scan_inv db0 t done_ todo b false db → rows = take (Z.to_nat n) todo → _build_batch t rows = Ok b1 →
  hb_rows db' = hb_rows db → hb_history db' = foldl put (hb_history db) (inserts b1) →
  hb_progress db' = Some (mkProgress (str_of_Z ∘ fst <$> last (done_ ++ rows)) (Z.of_nat (length done_) + Z.of_nat (length rows))
                            (Z.of_nat (length (inserts b)) + Z.of_nat (length (inserts b1))) false) →
  scan_inv db0 t (done_ ++ rows) (drop (Z.to_nat n) todo)
    (mkBatch (inserts b ++ inserts b1) (invalid_sources b + invalid_sources b1)) false db'.
Proof.
  intros [Hc _ Hb Hr Hh Hp] -> Hb1 Hr' Hh' Hp'. constructor; cbn [inserts].
  - by rewrite <- app_assoc, take_drop.
  - done.
  - by rewrite build_app, Hb, Hb1.
  - by rewrite Hr'.
  - by rewrite Hh', Hh, foldl_app.
  - rewrite Hp'. simpl. rewrite !length_app. f_equal; lia.
Qed.

Lemma last_cons_app {A} (l : list A) x r : last (x :: r) = Some (default x (last r)) ∧ last (l ++ x :: r) = last (x :: r).
Proof.
  split.
  - destruct r using rev_ind; [done|]. rewrite app_comm_cons, !last_snoc. done.
  - rewrite last_app. destruct r using rev_ind; [done|]. by rewrite app_comm_cons, !last_snoc.
Qed.

(** One iteration: it raises and leaves no trace, moves on by one batch, or records completion. *)
Lemma history_batch_step db0 t done_ todo b completed db n :
  rows_ok db0 → scan_inv db0 t done_ todo b completed db →
  match take (Z.to_nat n) todo with
  | [] => ∃ db', transaction (batch_statements n t) db = (db', Ok (_result t [] (mkBatch [] 0) false true)) ∧
                 (todo = [] → scan_inv db0 t done_ [] b true db' ∧ is_Some (hb_progress db'))
  | rows => match _build_batch t rows with
            | Err e => transaction (batch_statements n t) db = (db, Err e)
            | Ok b1 => ∃ db', transaction (batch_statements n t) db = (db', Ok (_result t rows b1 false false)) ∧
                scan_inv db0 t (done_ ++ rows) (drop (Z.to_nat n) todo)
                  (mkBatch (inserts b ++ inserts b1) (invalid_sources b + invalid_sources b1)) false db'
            end
  end.
Proof.
  intros Hok Hinv. set (db1 := set_hb_progress (Some (default fresh_progress (hb_progress db))) db).
  assert (scan_inv db0 t done_ todo b completed db1) as Hinv1 by (by destruct Hinv; constructor).
  pose proof (fetch_spec _ _ _ _ _ _ _ n Hok Hinv1) as Hf. pose proof (si_progress _ _ _ _ _ _ _ Hinv) as Hp.
  unfold transaction, batch_statements, io_bind, io_modify, io_get, io_lift, io_ret. fold db1.
  assert (hb_progress db1 = Some (default fresh_progress (hb_progress db))) as E1 by done.
  rewrite E1, Hp. cbn [default from_option id bp_completed bp_last_key bp_scanned bp_updated].
  destruct completed.
  { rewrite (si_completed _ _ _ _ _ _ _ Hinv eq_refl) in *. rewrite take_nil. exists db1. split; [done|]. intros _. by split. }
  rewrite Hf. destruct (take (Z.to_nat n) todo) as [|r rows] eqn:Et; cbn [last].
  { eexists. split; [reflexivity|]. intros ->. split; [|done]. destruct Hinv. by constructor. }
  destruct (last_cons_app done_ r rows) as [El Ela]. rewrite El. destruct (_build_batch t (r :: rows)) as [b1|e] eqn:Eb; [|done].
  assert (Forall (λ e, ie_key e ∈ (r :: rows).*1 ∧ allowed_of t (ie_previous e) (ie_new e) = true) (inserts b1)) as Hall.
  { eapply build_inserts; [|done]. intros x Hx. eapply candidates_ok; [done|]. rewrite (si_split _ _ _ _ _ _ _ Hinv).
    apply elem_of_app. right. rewrite <- (take_drop (Z.to_nat n) todo), Et. apply elem_of_app. by left. }
  rewrite insert_all by (eapply Forall_impl; [exact Hall|by intros ? [_ ?]]).
  eexists. split; [reflexivity|]. eapply scan_extend; [exact Hinv1|done|done|done|done|].
  cbn [hb_progress set_hb_progress set_history]. by rewrite Ela, El.
Qed.

Lemma run_loop_spec k n t db0 : ∀ done_ todo b completed db results,
  rows_ok db0 → scan_inv db0 t done_ todo b completed db →
  ∃ db', run_loop k n t results db = (db', let! rs := scan_loop k n t false todo in Ok (results ++ rs)).
Proof.
  induction k as [|k IH]; intros done_ todo b completed db results Hok Hinv; cbn [run_loop scan_loop].
  { exists db. simpl. by rewrite app_nil_r. }
  pose proof (history_batch_step _ _ _ _ _ _ _ n Hok Hinv) as Hs. cbv zeta in Hs. unfold io_bind.
  destruct (take (Z.to_nat n) todo) as [|r rows].
  { destruct Hs as (db' & -> & _). by exists db'. }
  destruct (_build_batch t (r :: rows)) as [b1|e]; [|rewrite Hs; by exists db].
  destruct Hs as (db' & -> & Hinv'). cbn [hr_completed _result].
  edestruct (IH _ _ _ _ db' (results ++ [_result t (r :: rows) b1 false false]) Hok Hinv') as (db2 & ->).
  exists db2. cbn [res_bind]. destruct (scan_loop k n t false _); cbn [res_bind]; [|done]. by rewrite <- app_assoc.
Qed.

Lemma dry_run_loop_spec k n t db : ∀ done_ todo,
  candidates db = done_ ++ todo →
  dry_run_loop k n t (str_of_Z ∘ fst <$> last done_) db = scan_loop k n t true todo.
Proof.
  induction k as [|k IH]; intros done_ todo Hc; [done|]. cbn [dry_run_loop scan_loop].
  assert (_fetch_candidates n (str_of_Z ∘ fst <$> last done_) db = Ok (take (Z.to_nat n) todo)) as ->.
  { unfold _fetch_candidates. rewrite <- (past_last _ _ _ (candidates_by_key db) Hc).
    assert (filter (λ r, past (fst <$> last done_) r && negb (has_history db r.1) = true) (sorted_rows db)
            = after (fst <$> last done_) (candidates db)) as E.
    { unfold after, candidates. rewrite list_filter_filter. apply list_filter_iff. intros r.
      by rewrite andb_true_iff, negb_true_iff. }
    destruct (last done_) as [x|]; cbn [fmap option_fmap option_map compose] in *;
      [rewrite py_int_str_of_Z|]; cbn [res_bind]; by rewrite <- E. }
  cbn [res_bind]. destruct (take (Z.to_nat n) todo) as [|r rows] eqn:Et; [done|]. destruct (last_cons_app done_ r rows) as [El Ela].
  rewrite El. destruct (_build_batch t (r :: rows)) as [b|e]; [|done]. cbn [res_bind].
  specialize (IH (done_ ++ r :: rows) (drop (Z.to_nat n) todo)). rewrite Ela, El in IH.
  cbn [fmap option_fmap option_map compose] in IH. rewrite IH; [done|].
  by rewrite Hc, <- app_assoc, <- Et, take_drop.
Qed.

Lemma run_loop_completes n t db0 bf k : ∀ done_ todo b completed db results,
  rows_ok db0 → 1 ≤ n → _build_batch t (candidates db0) = Ok bf → scan_inv db0 t done_ todo b completed db →
  Z.of_nat (length todo) ≤ Z.of_nat k * n →
  ∃ db' rs, run_loop (S k) n t results db = (db', Ok rs) ∧
    scan_inv db0 t (candidates db0) [] bf true db' ∧ is_Some (hb_progress db').
Proof.
  induction k as [|k IH]; intros done_ todo b completed db results Hok Hn Hbf Hinv Hk.
  all: pose proof (history_batch_step _ _ _ _ _ _ _ n Hok Hinv) as Hs; cbv zeta in Hs.
  all: cbn [run_loop]; unfold io_bind.
  all: assert (∀ db', scan_inv db0 t done_ [] b true db' → todo = [] → scan_inv db0 t (candidates db0) [] bf true db') as Hfin.
  1, 3: intros db' Hi ->; pose proof (si_split _ _ _ _ _ _ _ Hinv) as E; rewrite app_nil_r in E; rewrite E in *;
    assert (bf = b) as -> by (pose proof (si_built _ _ _ _ _ _ _ Hi); congruence); done.
  { destruct todo; [|simpl in Hk; lia]. rewrite take_nil in Hs. destruct Hs as (db' & -> & Hd). destruct (Hd eq_refl) as [Hi Hp].
    do 2 eexists. split; [reflexivity|]. split; [by apply Hfin|done]. }
  destruct (take (Z.to_nat n) todo) as [|r rows] eqn:Et.
  { assert (todo = []) as -> by (destruct todo; [done|]; replace (Z.to_nat n) with (S (Z.to_nat (n - 1))) in Et by lia; done).
    destruct Hs as (db' & -> & Hd). destruct (Hd eq_refl) as [Hi Hp].
    do 2 eexists. split; [reflexivity|]. split; [by apply Hfin|done]. }
  assert (∃ b1, _build_batch t (r :: rows) = Ok b1) as [b1 Hb1].
  { rewrite (si_split _ _ _ _ _ _ _ Hinv), build_app in Hbf. apply res_bind_ok in Hbf as (? & _ & Hbf).
    apply res_bind_ok in Hbf as (b2 & Hb2 & _). rewrite <- (take_drop (Z.to_nat n) todo), Et, build_app in Hb2.
    apply res_bind_ok in Hb2 as (b1 & ? & _). by exists b1. }
  rewrite Hb1 in Hs. destruct Hs as (db' & -> & Hinv'). cbn [hr_completed _result].
  eapply IH; [done|done|done|exact Hinv'|]. rewrite length_drop. lia.
Qed.

(** A batch of any size; one that fails leaves no trace. *)
Definition batch_of (t : HistoryTarget) (db db' : history_db) : Prop :=
  ∃ n, 1 ≤ n ∧ db' = (transaction (batch_statements n t) db).1.

Lemma scan_start t db0 : hb_progress db0 = None → scan_inv db0 t [] (candidates db0) (mkBatch [] 0) false db0.
Proof. intros Hp. constructor; try done. by rewrite Hp. Qed.

Lemma history_batches_inv t db0 db db' :
  rows_ok db0 → rtc (batch_of t) db db' → (∃ done_ todo b completed, scan_inv db0 t done_ todo b completed db) →
  ∃ done_ todo b completed, scan_inv db0 t done_ todo b completed db'.
Proof.
  intros Hok. induction 1 as [|db db1 db2 (n & Hn & ->) _ IH]; [done|]. intros (done_ & todo & b & c & Hinv). apply IH.
  pose proof (history_batch_step _ _ _ _ _ _ _ n Hok Hinv) as Hs. cbv zeta in Hs.
  destruct (take (Z.to_nat n) todo) as [|r rows] eqn:Et.
  { assert (todo = []) as -> by (destruct todo; [done|]; replace (Z.to_nat n) with (S (Z.to_nat (n - 1))) in Et by lia; done).
    destruct Hs as (db' & -> & Hd). destruct (Hd eq_refl) as [Hi _]. eauto. }
  destruct (_build_batch t (r :: rows)) as [b1|e]; [destruct Hs as (db' & -> & Hinv'); eauto|]. rewrite Hs. eauto.
Qed.

(** C36: An inferred history is a legal chain. For a row whose status is one the table allows, the
    events inferred start a lifecycle ([previous_status] of the first is [NULL], of every other the
    status before it), go from status to status by transitions the history table accepts, name no
    status twice, never move to an earlier business date, and carry the row's key; the last one
    names the row's current status exactly when the row is not counted as invalid. *)
Theorem inferred_chains t key row events invalid :
  status_ok row → _infer t key row = Ok (events, invalid) →
  chain None events ∧
  Forall (λ e, ie_key e = key ∧ allowed_of t (ie_previous e) (ie_new e) = true) events ∧
  NoDup (ie_new <$> events) ∧
  (invalid = false ↔ ∃ e, last events = Some e ∧ ie_new e = row_status row).
Proof.
  intros Hs H. destruct (infer_sound _ _ _ _ Hs H) as (H1 & H2 & H3 & H4). simpl in *. split_and!; try done.
  destruct invalid; split; [done|by intros (e & He & E); destruct (H4 e He)|done|done].
Qed.


(** The report of a run for the report of a dry run. *)
Definition for_real (r : history_result) : history_result :=
  mkHistoryResult (hr_name r) (hr_scanned r) (hr_inferred r) (hr_skipped_invalid r) false (hr_completed r).

Lemma scan_loop_dry k n t : ∀ todo,
  scan_loop k n t false todo = let! rs := scan_loop k n t true todo in Ok (for_real <$> rs).
Proof.
  induction k as [|k IH]; intros todo; [done|]. cbn [scan_loop]. destruct (take _ todo); [done|].
  destruct (_build_batch t _) as [b|e]; cbn [res_bind]; [|done]. rewrite IH. by destruct (scan_loop k n t true _).
Qed.

(** A dry run predicts the run. On a target that has not been started, [run] returns the results
    [dry_run] returned, batch by batch, with [dry_run] false in each (or raises the same exception),
    although it writes history and progress between the batches and the dry run writes nothing. *)
Theorem dry_run_predicts_run t n max db :
  rows_ok db → hb_progress db = None →
  (run n t max db).2 = let! rs := dry_run n t max db in Ok (for_real <$> rs).
Proof.
  intros Hok Hp. unfold run, dry_run, raise_if.
  destruct (negb (batch_size_ok n)); [done|]. unfold io_bind at 1. cbn [io_ret].
  destruct (max <? 1); [done|]. unfold io_bind, io_ret.
  destruct (run_loop_spec (Z.to_nat max) n t db [] _ _ _ db [] Hok (scan_start t db Hp)) as [db' ->].
  assert (dry_run_loop (Z.to_nat max) n t None db = scan_loop (Z.to_nat max) n t true (candidates db)) as ->
    by (apply (dry_run_loop_spec _ n t db []); done).
  rewrite scan_loop_dry. simpl. by destruct (scan_loop _ n t true _).
Qed.

(** A date is compared with a timestamp by the day alone, but is stored as its midnight: an order
    created during a day and shipped on that day is [SHIPPED] before it is [PENDING]. *)
Theorem same_day_shipment_goes_back key d us :
  0 < us < microseconds_per_day →
  let created := Moment (d * microseconds_per_day + us) in
  ∃ pending shipped,
    _infer orders_target key (OrderRow "SHIPPED" (CTime created) CNull (CTime (Day d)) CNull CNull)
    = Ok ([pending; shipped], false) ∧
    ie_previous shipped = Some (ie_new pending) ∧
    h_occurred_at (stored_row shipped) < h_occurred_at (stored_row pending).
Proof.
  intros Hus created. assert (_is_not_before (Day d) created = true) as E.
  { simpl. rewrite Z.div_add_l by done. rewrite Z.div_small by lia. apply Z.leb_le. lia. }
  do 2 eexists. split.
  - unfold _infer, _infer_order. subst created. cbn -[_is_not_before _sla_status inferred_event_id target_name]. rewrite E. reflexivity.
  - split; [done|]. simpl. unfold at_hour, microseconds_per_day in *. lia.
Qed.

(** ** A concrete target *)

Definition witness_day : date := 738900.
Definition witness_order (status : string) (created updated : cell) : source_row :=
  OrderRow status created CNull (CTime (Day (witness_day + 1))) CNull updated.
Definition witness_moment (days us : Z) : cell := CTime (Moment ((witness_day + days) * microseconds_per_day + us)).
Definition witness_history_db : history_db := mkHistoryDb
  {[7 := witness_order "INVOICED" (witness_moment 0 5) (witness_moment 4 0);
    9 := witness_order "SHIPPED" CNull (witness_moment 2 0);
    10 := witness_order "CANCELLED" (witness_moment 1 1) CNull;
    12 := witness_order "PENDING" (witness_moment 0 0) CNull]}
  [mkHistory 12 None "PENDING" 3 "recorded" None "ON_TIME" None] None.
Definition witness_batch : InferenceBatch :=
  match _build_batch orders_target (candidates witness_history_db) with Ok b => b | Err _ => mkBatch [] 0 end.

Lemma witness_rows_ok : rows_ok witness_history_db.
Proof.
  unfold rows_ok, witness_history_db. simpl.
  repeat (apply map_Forall_insert_2; [apply (bool_decide_unpack _); vm_compute; done|]). apply map_Forall_empty.
Qed.

Example witness_candidates : (candidates witness_history_db).*1 = [7; 9; 10].
Proof. vm_compute. reflexivity. Qed.

Lemma inferred_chains_witness :
  ∃ events, _infer orders_target 7 (witness_order "INVOICED" (witness_moment 0 5) (witness_moment 4 0)) = Ok (events, false) ∧
    chain None events ∧ ie_new <$> events = ["PENDING"; "SHIPPED"; "INVOICED"].
Proof.
  eexists. split; [reflexivity|]. split; [|reflexivity].
  eapply (inferred_chains orders_target 7 (witness_order "INVOICED" (witness_moment 0 5) (witness_moment 4 0)) _ false); [|reflexivity].
  apply (bool_decide_unpack _); vm_compute; done.
Defined.


Lemma dry_run_predicts_run_witness :
  (run 2 orders_target 2 witness_history_db).2
  = let! rs := dry_run 2 orders_target 2 witness_history_db in Ok (for_real <$> rs).
Proof. apply dry_run_predicts_run; [apply witness_rows_ok|reflexivity]. Defined.
