(* ===== verification/Admission.v ===== *)
(** * Local admission control: [fakeforce/runtime.py]

    [AdmissionController]: one semaphore, one active and one queued counter per kind of operation,
    under the interleavings of the requests of one event loop. A task runs without interruption
    from one [await] to the next; each such stretch is one step of [lane_step]. *)

From stdpp Require Import prelude list relations strings.
From Stdlib Require Import ZArith Lia.
From S2P Require Import Prelude PyText.

Open Scope Z_scope.

Inductive OperationKind := lightweight | query | bulk_query | bulk_ingest.

#[export] Instance operation_kind_eq_dec : EqDecision OperationKind.
Proof. solve_decision. Defined.

Definition classify_operation (path api_version : string) : OperationKind :=
  let base := "/services/data/" +:+ api_version in
  if starts_with (base +:+ "/jobs/query") path then bulk_query
  else if starts_with (base +:+ "/jobs/ingest") path then bulk_ingest
  else if starts_with (base +:+ "/query") path || ends_with "/deleted" path then query
  else lightweight.

Example classified :
  classify_operation "/services/data/v60.0/queryAll" "v60.0" = query ∧
  classify_operation "/services/data/v60.0/jobs/query/750a/results" "v60.0" = bulk_query ∧
  classify_operation "/services/data/v60.0/limits" "v60.0" = lightweight.
Proof. vm_compute. done. Qed.

(** ** [asyncio.Semaphore] (Python 3.12), with the counters of [slot] around it *)

(** The future of a waiting task: unset, set ([Woken]), cancelled with its task, or set before its
    task was cancelled ([Revoked]). The last three are ready to run. *)
Inductive waiter := Sleeping | Woken | Cancelled | Revoked.

#[export] Instance waiter_eq_dec : EqDecision waiter.
Proof. solve_decision. Defined.

Record lane := mkLane { value : Z; waiters : list waiter; active : Z; queued : Z }.

Definition set_sem (v : Z) (ws : list waiter) (l : lane) : lane := mkLane v ws (active l) (queued l).
Definition add_active (n : Z) (l : lane) : lane := mkLane (value l) (waiters l) (active l + n) (queued l).
Definition add_queued (n : Z) (l : lane) : lane := mkLane (value l) (waiters l) (active l) (queued l + n).

(** [Semaphore.locked] *)
Definition locked (l : lane) : bool :=
  (value l =? 0) || existsb (λ w, negb (bool_decide (w = Cancelled))) (waiters l).

(** [_wake_up_next]: the first unset future is set and takes a permit along. *)
Fixpoint wake_first (ws : list waiter) : option (list waiter) :=
  match ws with
  | [] => None
  | Sleeping :: ws => Some (Woken :: ws)
  | w :: ws => cons w <$> wake_first ws
  end.
Definition _wake_up_next (l : lane) : lane * bool :=
  match wake_first (waiters l) with
  | Some ws => (set_sem (value l - 1) ws l, true)
  | None => (l, false)
  end.

(** [while self._value > 0: if not self._wake_up_next(): break] *)
Fixpoint wake_loop (fuel : nat) (l : lane) : lane :=
  match fuel with
  | O => l
  | S fuel => if 0 <? value l then
                let '(l', woken) := _wake_up_next l in
                if woken then wake_loop fuel l' else l'
              else l
  end.
Definition wake_all (l : lane) : lane := wake_loop (length (waiters l)) l.

(** [release] *)
Definition release (l : lane) : lane := (_wake_up_next (set_sem (value l + 1) (waiters l) l)).1.

(** ** The steps of [slot] *)

(** Up to the [await]: the permit is taken at once, or the task waits. *)
Definition enter (l : lane) : lane :=
  let l := add_queued 1 l in
  if locked l then set_sem (value l) (waiters l ++ [Sleeping]) l
  else add_active 1 (add_queued (-1) (set_sem (value l - 1) (waiters l) l)).

(** The [k]th waiting task runs again: it goes on with its permit, or [CancelledError] leaves [slot]. *)
Definition resume (k : nat) (w : waiter) (l : lane) : lane :=
  let l := set_sem (value l) (delete k (waiters l)) l in
  match w with
  | Revoked => add_queued (-1) (wake_all (set_sem (value l + 1) (waiters l) l))
  | Cancelled => add_queued (-1) (wake_all l)
  | _ => add_active 1 (add_queued (-1) (wake_all l))
  end.

(** [task.cancel()] on the [k]th waiting task *)
Definition cancel (w : waiter) : waiter :=
  match w with Sleeping => Cancelled | Woken => Revoked | w => w end.

(** The body of [slot] ends, normally or not. *)
Definition leave (l : lane) : lane := release (add_active (-1) l).

Definition ready (w : waiter) : bool := negb (bool_decide (w = Sleeping)).

(** Steps of the tasks that are already there, and all steps. *)
Inductive serve : lane → lane → Prop :=
| serve_resume k w l : waiters l !! k = Some w → ready w = true → serve l (resume k w l)
| serve_leave l : 0 < active l → serve l (leave l).

Inductive lane_step : lane → lane → Prop :=
| step_enter l : lane_step l (enter l)
| step_cancel k w l : waiters l !! k = Some w →
    lane_step l (set_sem (value l) (<[k := cancel w]> (waiters l)) l)
| step_serve l l' : serve l l' → lane_step l l'.

(** ** The controller *)

Definition AdmissionController : Type := OperationKind → lane.

Definition new_lane (workers : Z) : lane := mkLane workers [] 0 0.
Definition workers_of (lightweight_workers query_workers bulk_workers : Z) (k : OperationKind) : Z :=
  match k with lightweight => lightweight_workers | query => query_workers | _ => bulk_workers end.
Definition controller_init (lightweight_workers query_workers bulk_workers : Z) : AdmissionController :=
  λ k, new_lane (workers_of lightweight_workers query_workers bulk_workers k).

(** [snapshot]: active and queued of a kind *)
Definition snapshot (c : AdmissionController) (k : OperationKind) : Z * Z := (active (c k), queued (c k)).

Definition controller_step (c c' : AdmissionController) : Prop :=
  ∃ k, lane_step (c k) (c' k) ∧ ∀ k', k' ≠ k → c' k' = c k'.

(** ** Permits *)

Definition total (f : waiter → Z) (ws : list waiter) : Z := foldr (λ w n, f w + n) 0 ws.
(** The permits a waiting task has been handed, and what is left to do for it. *)
Definition held (w : waiter) : Z := match w with Woken | Revoked => 1 | _ => 0 end.
Definition effort (w : waiter) : Z := match w with Sleeping => 3 | _ => 2 end.

Lemma total_app f a b : total f (a ++ b) = total f a + total f b.
Proof. unfold total. induction a as [|w a IH]; simpl; [lia|]. rewrite IH. lia. Qed.

Lemma total_take f k w ws : ws !! k = Some w → total f ws = f w + total f (delete k ws).
Proof.
  intros Hk. rewrite <- (take_drop_middle ws k w Hk) at 1. rewrite delete_take_drop, !total_app. cbn [total foldr].
  unfold total. lia.
Qed.

Lemma total_insert f k w w' ws : ws !! k = Some w → total f (<[k := w']> ws) = total f ws - f w + f w'.
Proof.
  unfold total. revert k. induction ws as [|x ws IH]; intros [|k]; simpl; try done.
  - intros [= ->]. lia.
  - intros Hk. rewrite (IH k Hk). lia.
Qed.

Lemma total_nonneg f ws : (∀ w, 0 ≤ f w) → 0 ≤ total f ws.
Proof. intros Hf. unfold total. induction ws as [|w ws IH]; simpl; [lia|]. specialize (Hf w). lia. Qed.

Lemma held_exists ws : 0 < total held ws ↔ ∃ w, w ∈ ws ∧ held w = 1.
Proof.
  unfold total. induction ws as [|w ws IH]; cbn [foldr].
  { split; [lia|intros (w & Hw & _); by apply elem_of_nil in Hw]. }
  assert (0 ≤ foldr (λ w n, held w + n) 0 ws) by (apply total_nonneg; by intros []).
  split.
  - intros Hlt. destruct (decide (held w = 1)) as [E|E]; [exists w; split; [left|done]|].
    destruct IH as [(w' & ? & ?) _]; [destruct w; simpl in *; lia|]. exists w'. split; [by right|done].
  - intros (w' & [->|Hin]%elem_of_cons & E); [lia|]. assert (0 < foldr (λ w n, held w + n) 0 ws) by (apply IH; eauto).
    destruct w; simpl; lia.
Qed.

(** What waking does to the futures. *)
Lemma wake_first_spec ws :
  match wake_first ws with
  | Some ws' => total held ws' = total held ws + 1 ∧ total effort ws' = total effort ws - 1 ∧ length ws' = length ws
  | None => Sleeping ∉ ws
  end.
Proof.
  induction ws as [|w ws IH]; simpl; [by apply not_elem_of_nil|].
  destruct w; simpl; [lia|..]; destruct (wake_first ws) as [ws'|]; simpl; [lia|set_solver|lia|set_solver|lia|set_solver].
Qed.

(** Waking hands out free permits only, one per task. *)
Record woken_from (l l' : lane) (m : Z) : Prop := mkWoken {
  wf_value : value l' = value l - m;
  wf_range : 0 ≤ m;
  wf_held : total held (waiters l') = total held (waiters l) + m;
  wf_effort : total effort (waiters l') = total effort (waiters l) - m;
  wf_length : length (waiters l') = length (waiters l);
  wf_active : active l' = active l;
  wf_queued : queued l' = queued l }.

Lemma wake_next_spec l :
  woken_from l (_wake_up_next l).1 (if (_wake_up_next l).2 then 1 else 0) ∧
  ((_wake_up_next l).2 = false → Sleeping ∉ waiters l).
Proof.
  unfold _wake_up_next. pose proof (wake_first_spec (waiters l)) as H. destruct (wake_first (waiters l)); simpl.
  - split; [|done]. destruct H as (? & ? & ?). constructor; simpl; lia.
  - split; [constructor; lia|done].
Qed.

Lemma wake_loop_spec fuel l :
  0 ≤ value l → total effort (waiters l) ≤ 2 * Z.of_nat (length (waiters l)) + Z.of_nat fuel →
  ∃ m, woken_from l (wake_loop fuel l) m ∧ 0 ≤ value (wake_loop fuel l) ∧
       (0 < value (wake_loop fuel l) → Sleeping ∉ waiters (wake_loop fuel l)).
Proof.
  revert l. induction fuel as [|fuel IH]; intros l Hv Hf; cbn [wake_loop].
  { exists 0. split; [constructor; lia|]. split; [done|]. intros _ Hs. clear Hv. revert Hf.
    assert (∀ ws, 2 * Z.of_nat (length ws) ≤ total effort ws) as Hmin.
    { clear. unfold total. induction ws as [|w ws IH]; simpl length; cbn [foldr]; [lia|]. destruct w; simpl; lia. }
    apply list_elem_of_split in Hs as (a & b & ->). rewrite total_app, length_app. cbn [total foldr effort length].
    pose proof (Hmin a). pose proof (Hmin b). unfold total in *. lia. }
  destruct (Z.ltb_spec 0 (value l)); [|exists 0; split; [constructor; lia|]; split; [done|lia]].
  pose proof (wake_next_spec l) as [Hw Hn]. unfold _wake_up_next in *. destruct (wake_first (waiters l)) as [ws|]; simpl in *.
  - destruct Hw as [H1 H2 H3 H4 H5 H6 H7]. simpl in *.
    destruct (IH (set_sem (value l - 1) ws l)) as (m & [G1 G2 G3 G4 G5 G6 G7] & Hv' & Hs); simpl in *; [lia|lia|].
    exists (m + 1). split; [constructor; lia|done].
  - exists 0. split; [done|]. split; [lia|]. intros _. by apply Hn.
Qed.

Lemma wake_all_spec l :
  0 ≤ value l → ∃ m, woken_from l (wake_all l) m ∧ 0 ≤ value (wake_all l) ∧
    (0 < value (wake_all l) → Sleeping ∉ waiters (wake_all l)).
Proof.
  intros Hv. apply wake_loop_spec; [done|]. generalize (waiters l). intros ws. unfold total.
  induction ws as [|w ws IH]; simpl length; cbn [foldr]; [lia|]. destruct w; simpl; lia.
Qed.

(** ** The invariant of a lane with [n] workers *)

Record lane_inv (n : Z) (l : lane) : Prop := mkLaneInv {
  li_value : 0 ≤ value l;
  li_active : 0 ≤ active l;
  li_permits : value l + active l + total held (waiters l) = n;
  li_queued : queued l = Z.of_nat (length (waiters l));
  (** A free permit is not slept through: a task that has been handed one will pass it on. *)
  li_awake : 0 < value l → Sleeping ∈ waiters l → 0 < total held (waiters l) }.

Lemma lane_inv_new n : 0 ≤ n → lane_inv n (new_lane n).
Proof. intros Hn. constructor; simpl; try lia. intros _ Hs. by apply elem_of_nil in Hs. Qed.

Lemma held_nonneg ws : 0 ≤ total held ws.
Proof. apply total_nonneg. by intros []. Qed.

Lemma enter_inv n l : lane_inv n l → lane_inv n (enter l).
Proof.
  intros [H1 H2 H3 H4 H5]. unfold enter. destruct (locked (add_queued 1 l)) eqn:E.
  - constructor; simpl; rewrite ?total_app, ?length_app; simpl; try lia. intros Hv _. unfold locked in E.
    simpl in E. apply orb_true_iff in E as [E|E]; [apply Z.eqb_eq in E; lia|].
    apply existsb_exists in E as (w & Hw & E). apply list_elem_of_In in Hw. apply negb_true_iff, bool_decide_eq_false in E.
    rewrite Z.add_0_r. destruct w; try done; [by apply H5|..]; apply held_exists; eauto.
  - unfold locked in E. apply orb_false_iff in E as [E _]. apply Z.eqb_neq in E. simpl in E.
    constructor; simpl; try lia. intros Hv Hs. apply H5; [lia|done].
Qed.

Lemma resume_inv n k w l : waiters l !! k = Some w → ready w = true → lane_inv n l → lane_inv n (resume k w l).
Proof.
  intros Hk Hr [H1 H2 H3 H4 H5]. pose proof (total_take held k w _ Hk) as Ht.
  pose proof (lookup_lt_Some _ _ _ Hk) as Hlt. pose proof (length_delete (waiters l) k ltac:(eauto)) as Hlen.
  assert (∀ v, 0 ≤ v → v + active l + held w + total held (delete k (waiters l)) = n + (v - value l) →
    let l' := wake_all (mkLane v (delete k (waiters l)) (active l) (queued l)) in
    0 ≤ value l' ∧ (0 < value l' → Sleeping ∉ waiters l') ∧ active l' = active l ∧
    queued l' - 1 = Z.of_nat (length (waiters l')) ∧
    value l' + active l + held w + total held (waiters l') = n + (v - value l)) as Hwake.
  { intros v Hv Hsum l'. destruct (wake_all_spec (mkLane v (delete k (waiters l)) (active l) (queued l)) Hv) as (m & [] & ? & ?).
    simpl in *. fold l' in wf_value0, wf_held0, wf_length0, wf_active0, wf_queued0. split_and!; try done; lia. }
  unfold resume, set_sem. destruct w; [done|..]; cbn [waiters value active queued held] in *.
  - destruct (Hwake (value l)) as (? & ? & ? & ? & ?); [lia|lia|]. constructor; simpl; try lia. intros; exfalso; naive_solver.
  - destruct (Hwake (value l)) as (? & ? & ? & ? & ?); [lia|lia|]. constructor; simpl; try lia. intros; exfalso; naive_solver.
  - destruct (Hwake (value l + 1)) as (? & ? & ? & ? & ?); [lia|lia|]. constructor; simpl; try lia. intros; exfalso; naive_solver.
Qed.

Lemma leave_inv n l : 0 < active l → lane_inv n l → lane_inv n (leave l).
Proof.
  intros Ha [H1 H2 H3 H4 H5]. unfold leave, release, _wake_up_next. cbn [add_active set_sem value waiters].
  pose proof (wake_first_spec (waiters l)) as W. pose proof (held_nonneg (waiters l)).
  destruct (wake_first (waiters l)) as [ws|]; constructor; simpl; try lia. by intros _ Hs.
Qed.

Lemma cancel_inv n k w l :
  waiters l !! k = Some w → lane_inv n l → lane_inv n (set_sem (value l) (<[k := cancel w]> (waiters l)) l).
Proof.
  intros Hk [H1 H2 H3 H4 H5]. pose proof (total_insert held k w (cancel w) _ Hk) as Ht.
  assert (held (cancel w) = held w) by (by destruct w).
  constructor; simpl; rewrite ?length_insert; try lia. intros Hv Hs. rewrite Ht.
  assert (Sleeping ∈ waiters l); [|specialize (H5 Hv ltac:(done)); lia].
  apply list_elem_of_lookup in Hs as [j Hj]. destruct (decide (j = k)) as [->|].
  - rewrite list_lookup_insert_eq in Hj by (by eapply lookup_lt_Some). by destruct w.
  - rewrite list_lookup_insert_ne in Hj by done. by eapply list_elem_of_lookup_2.
Qed.

Lemma step_inv n l l' : lane_step l l' → lane_inv n l → lane_inv n l'.
Proof.
  destruct 1 as [l|k w l Hk|l l' [k w l1 Hk Hr|l1 Ha]]; intros H.
  - by apply enter_inv.
  - by apply cancel_inv.
  - by apply resume_inv.
  - by apply leave_inv.
Qed.

(** ** Serving *)

(** What is left to do. *)
Definition work (l : lane) : Z := total effort (waiters l) + active l.

Lemma serve_work n l l' : lane_inv n l → serve l l' → 0 ≤ work l' < work l.
Proof.
  intros [H1 H2 H3 H4 H5] Hs. pose proof (λ ws, total_nonneg effort ws ltac:(by intros [])) as Hpos.
  destruct Hs as [k w l Hk Hr|l Ha]; unfold work.
  - pose proof (total_take effort k w _ Hk) as Ht.
    assert (∀ v, 0 ≤ v → total effort (waiters (wake_all (mkLane v (delete k (waiters l)) (active l) (queued l)))) ≤ total effort (delete k (waiters l))
                 ∧ active (wake_all (mkLane v (delete k (waiters l)) (active l) (queued l))) = active l) as Hw.
    { intros v Hv. destruct (wake_all_spec (mkLane v (delete k (waiters l)) (active l) (queued l)) Hv) as (m & [] & _). simpl in *. split; [lia|done]. }
    pose proof (Hpos (waiters (resume k w l))). unfold resume, set_sem in *. destruct w; [done|..]; simpl in *.
    + destruct (Hw (value l)) as [? ?]; [done|]. lia.
    + destruct (Hw (value l)) as [? ?]; [done|]. lia.
    + destruct (Hw (value l + 1)) as [? ?]; [lia|]. lia.
  - pose proof (Hpos (waiters (leave l))). unfold leave, release in *.
    destruct (wake_next_spec (set_sem (value (add_active (-1) l) + 1) (waiters (add_active (-1) l)) (add_active (-1) l))) as [[] _].
    simpl in *. destruct (_wake_up_next _).2; lia.
Qed.

(** A lane in which no task can go on is empty. *)
Lemma idle_empty n l : 1 ≤ n → lane_inv n l → (∀ l', ¬ serve l l') → waiters l = [] ∧ active l = 0 ∧ queued l = 0 ∧ value l = n.
Proof.
  intros Hn [H1 H2 H3 H4 H5] Hidle. assert (active l = 0) as Ha.
  { destruct (decide (0 < active l)) as [Hlt|]; [|lia]. destruct (Hidle _ (serve_leave l Hlt)). }
  assert (Forall (λ w, w = Sleeping) (waiters l)) as Hall.
  { apply Forall_forall. intros w [k Hk]%list_elem_of_lookup. destruct (ready w) eqn:E; [destruct (Hidle _ (serve_resume k w l Hk E))|].
    unfold ready in E. apply negb_false_iff, bool_decide_eq_true in E. done. }
  assert (total held (waiters l) = 0) as Hh.
  { clear -Hall. unfold total. induction Hall as [|w ws -> _ IH]; simpl; [done|lia]. }
  destruct (waiters l) as [|w ws] eqn:E; [simpl in *; split_and!; [done|lia..]|].
  inversion Hall; subst. specialize (H5 ltac:(lia) ltac:(left)). lia.
Qed.

(** C24: No more than the configured number of requests of a kind run at once, whatever the arrivals,
    completions and cancellations: in every reachable state the permits of a kind are exactly
    distributed over the semaphore, the running requests and the waiting requests that have been
    handed one; the counters of [snapshot] are the running and the waiting requests; and when no
    waiting task is ready to run, requests wait only while all workers of the kind are busy. *)
Theorem admission_bounds lw qw bw c :
  1 ≤ lw → 1 ≤ qw → 1 ≤ bw → rtc controller_step (controller_init lw qw bw) c →
  ∀ k, let n := workers_of lw qw bw k in
    value (c k) + active (c k) + total held (waiters (c k)) = n ∧
    0 ≤ (snapshot c k).1 ≤ n ∧ (snapshot c k).2 = Z.of_nat (length (waiters (c k))) ∧
    (Forall (λ w, w = Sleeping) (waiters (c k)) → waiters (c k) ≠ [] → (snapshot c k).1 = n).
Proof.
  intros Hl Hq Hb Hr k n. assert (lane_inv n (c k)) as [H1 H2 H3 H4 H5].
  { assert (∀ k, lane_inv (workers_of lw qw bw k) (controller_init lw qw bw k)) as H0
      by (intros []; apply lane_inv_new; simpl; lia).
    revert k n. induction Hr as [c|c c1 c2 (k1 & Hk1 & Hrest) _ IH]; intros k n; [apply H0|]. apply IH.
    intros k'. destruct (decide (k' = k1)) as [->|]; [by eapply step_inv|]. rewrite Hrest by done. apply H0. }
  pose proof (held_nonneg (waiters (c k))). simpl. split_and!; try done; try lia. intros Hall Hne.
  assert (total held (waiters (c k)) = 0) as Hh.
  { clear -Hall. unfold total. induction Hall as [|w ws -> _ IH]; simpl; [done|lia]. }
  destruct (waiters (c k)) as [|w ws]; [done|]. inversion Hall; subst.
  destruct (decide (0 < value (c k))) as [Hv|]; [specialize (H5 Hv ltac:(left)); lia|lia].
Qed.

(** C37: Every admitted or waiting request is served. From any reachable state of a lane, as long as
    the tasks that are there go on (a ready task resumes, a running request ends), after finitely
    many steps nothing is left to do, whichever order they take; and a lane in which no task can
    go on has no waiting request, no running one, and all its permits back. *)
Theorem admission_drains n l :
  1 ≤ n → rtc lane_step (new_lane n) l →
  (∀ k l', nsteps serve k l l' → Z.of_nat k ≤ work l) ∧
  (∀ l', rtc serve l l' → (∀ l2, ¬ serve l' l2) →
         waiters l' = [] ∧ active l' = 0 ∧ queued l' = 0 ∧ value l' = n).
Proof.
  intros Hn Hr. assert (lane_inv n l) as Hinv.
  { assert (lane_inv n (new_lane n)) as H0 by (by apply lane_inv_new; lia). revert H0.
    induction Hr; [done|]. intros H0. by eapply IHHr, step_inv. }
  clear Hr. split.
  - intros k l' Hs. revert Hinv. induction Hs as [l|k l l1 l' Hs _ IH]; intros Hinv.
    + destruct Hinv. pose proof (total_nonneg effort (waiters l) ltac:(by intros [])). unfold work. lia.
    + pose proof (serve_work _ _ _ Hinv Hs). specialize (IH (step_inv _ _ _ (step_serve _ _ Hs) Hinv)). lia.
  - intros l' Hs Hidle. apply idle_empty; [done| |done]. revert Hinv.
    induction Hs as [|l1 l2 l3 H12 _ IH]; intros Hinv; [done|]. apply IH; [done|]. eapply step_inv; [|done]. by constructor.
Qed.

(** ** A lane with one worker: one request runs, two wait, the first of them is cancelled *)

Definition witness_lane : lane :=
  let l := enter (enter (enter (new_lane 1))) in set_sem (value l) (<[0%nat := Cancelled]> (waiters l)) l.

Lemma witness_lane_reachable : rtc lane_step (new_lane 1) witness_lane.
Proof.
  do 3 (eapply rtc_l; [apply step_enter|]). apply rtc_once. by apply (step_cancel 0 Sleeping).
Qed.

Lemma admission_bounds_witness :
  ∃ c, rtc controller_step (controller_init 8 1 2) c ∧ c query = witness_lane ∧ (snapshot c query).1 ≤ 1.
Proof.
  set (c l := λ k, if decide (k = query) then l else controller_init 8 1 2 k).
  assert (rtc controller_step (controller_init 8 1 2) (c witness_lane)) as Hr.
  { assert (∀ l l', lane_step l l' → controller_step (c l) (c l')) as Hstep.
    { intros l l' Hs. exists query. split; [exact Hs|]. intros k Hk. unfold c. by rewrite !decide_False. }
    eapply (rtc_l _ _ (c (enter (new_lane 1)))).
    2: { eapply rtc_l; [apply Hstep, step_enter|]. eapply rtc_l; [apply Hstep, step_enter|].
         apply rtc_once, Hstep. by apply (step_cancel 0 Sleeping). }
    exists query. split; [apply step_enter|]. intros k Hk. unfold c. by rewrite decide_False. }
  exists (c witness_lane). split; [done|]. split; [done|].
  destruct (admission_bounds 8 1 2 _ ltac:(lia) ltac:(lia) ltac:(lia) Hr query) as (_ & H & _). apply H.
Defined.

Lemma admission_drains_witness :
  work witness_lane = 6 ∧ ∀ k l', nsteps serve k witness_lane l' → Z.of_nat k ≤ 6.
Proof. split; [reflexivity|]. apply (admission_drains 1 witness_lane ltac:(lia) witness_lane_reachable). Defined.
