(* ===== verification/Gateway.v ===== *)
(** * The front of the API: [fakeforce/app.py]

    Sessions, the chaos middleware with its rolling rate limit, and the chaos knobs. The server's
    state is parametrised by what the endpoints keep. *)

From stdpp Require Import prelude gmap strings list.
From Stdlib Require Import ZArith Lia Ascii.
From S2P Require Import Prelude PyText PyNum Soql QueryPlan Jobs.

Open Scope Z_scope.

(** ** Time

    [time.time()] is a binary64: from 2004 to 2038 a multiple of [2^-22] seconds. A clock reading is
    that multiple; the sums and differences below are exact, as they are in the code. The clock
    of the state store, DuckDB's [current_timestamp], is a separate argument, in seconds. *)

Definition second : Z := 2 ^ 22.
Lemma second_value : second = 4194304.
Proof. reflexivity. Qed.
(** [int(t)] of a time span *)
Definition whole_seconds (t : Z) : Z := Z.quot t second.

(** ** Responses *)

Record knobs := mkKnobs {
  error_rate : f64;
  bad_request_rate : f64;
  hang_rate : f64;
  latency_ms : Z;
  rate_limit_per_min : Z;
  page_size : Z;
  drift_after : string;
  outage_until : Z;
  daily_api_limit : Z }.

Inductive body (C : Type) :=
| ErrorBody (code message : string)
| DetailBody (detail : string)
| TokenBody (access_token : string) (issued_at expires_in : Z)
| ChaosBody (knobs_shown : knobs) (outage_seconds_remaining requests_last_60s api_calls_last_24_hours : Z)
| Content (c : C).
Arguments ErrorBody {C} _ _.
Arguments DetailBody {C} _.
Arguments TokenBody {C} _ _ _.
Arguments ChaosBody {C} _ _ _ _.
Arguments Content {C} _.

Record http (C : Type) := mkHttp { h_status : Z; h_headers : list (string * string); h_body : body C }.
Arguments mkHttp {C} _ _ _.
Arguments h_status {C} _.
Arguments h_headers {C} _.
Arguments h_body {C} _.

Definition sf_error {C} (status : Z) (code message : string) (headers : list (string * string)) : http C :=
  mkHttp status headers (ErrorBody code message).

(** ** State *)

Record server (X : Type) := mkServer {
  sv_chaos : knobs;
  sv_times : list Z;
  sv_tokens : gmap string Z;
  sv_store : store;
  sv_inner : X }.
Arguments mkServer {X} _ _ _ _ _.
Arguments sv_chaos {X} _.
Arguments sv_times {X} _.
Arguments sv_tokens {X} _.
Arguments sv_store {X} _.
Arguments sv_inner {X} _.

Section Gateway.
Context {X C : Type}.
Context (API_VERSION : string) (DEFAULTS : knobs).

Abbreviation srv := (server X).
Abbreviation response := (http C).

Definition set_chaos_knobs k (s : srv) := mkServer k (sv_times s) (sv_tokens s) (sv_store s) (sv_inner s).
Definition set_times t (s : srv) := mkServer (sv_chaos s) t (sv_tokens s) (sv_store s) (sv_inner s).
Definition set_tokens t (s : srv) := mkServer (sv_chaos s) (sv_times s) t (sv_store s) (sv_inner s).
Definition set_sv_store t (s : srv) := mkServer (sv_chaos s) (sv_times s) (sv_tokens s) t (sv_inner s).
Definition set_inner (x : X) (s : srv) := mkServer (sv_chaos s) (sv_times s) (sv_tokens s) (sv_store s) x.

Definition on_store {A} (m : io store A) : io srv A := io_zoom sv_store set_sv_store m.

(** ** Sessions *)

Definition expired_session {A} : io srv A := io_raise SalesforceAuthenticationError "Session expired or invalid".

(** The token of an [Authorization] header: [authorization.split(" ", 1)[1].strip()]. *)
Definition bearer_token (authorization : option string) : option string :=
  match authorization with
  | None => None
  | Some a => if negb (starts_with "bearer " (lower a)) then None
              else let '(_, _, rest) := partition " "%char a in Some (strip rest)
  end.

Definition require_token (now : Z) (authorization : option string) : io srv unit :=
  match bearer_token authorization with
  | None => expired_session
  | Some tok =>
    let* s := io_get in
    match sv_tokens s !! tok with
    | None => expired_session
    | Some exp =>
      if exp <? now then (io_modify (set_tokens (delete tok (sv_tokens s))) ;;; expired_session)
      else io_ret tt
    end
  end.

(** [token], from the parsed form: whether [client_id] and [client_secret] are given and not empty;
    [tok] is the fresh secret, [ttl] the configured lifetime. *)
Definition token (now : Z) (client_id client_secret : bool) (tok : string) (ttl : Z) : io srv response :=
  if negb client_id || negb client_secret then io_ret (sf_error 400 "invalid_client" "client identifier invalid" [])
  else
    let* _ := io_modify (λ s, set_tokens (<[tok := now + ttl * second]> (sv_tokens s)) s) in
    io_ret (mkHttp 200 [] (TokenBody tok (Z.quot (now * 1000) second) ttl)).

(** ** The middleware *)

Definition is_data_path (path : string) : bool := starts_with ("/services/data/" +:+ API_VERSION) path.

Definition with_limit_info (r : response) (usage : Z) : io srv response :=
  let* s := io_get in
  io_ret (mkHttp (h_status r)
    (h_headers r ++ [("Sforce-Limit-Info", "api-usage=" +:+ str_of_Z usage +:+ "/" +:+ str_of_Z (daily_api_limit (sv_chaos s)))])
    (h_body r)).

Definition in_window (now t : Z) : bool := now - t <? 60 * second.

(** [min(l)] *)
Definition list_min (l : list Z) : res Z :=
  match l with [] => raise ValueError "min() iterable argument is empty" | x :: l => Ok (foldr Z.min x l) end.

(** Up to the first [await]: the outage, the rate limit, the usage count. The result is an early
    response or the usage to report. *)
Definition admission_gate (now store_now : Z) : io srv (response + Z) :=
  let* s := io_get in
  if now <? outage_until (sv_chaos s) then
    let remaining := whole_seconds (outage_until (sv_chaos s) - now) in
    let* usage := on_store (record_api_usage store_now) in
    let* r := with_limit_info (sf_error 503 "SERVER_UNAVAILABLE"
                ("Service unavailable (simulated outage, " +:+ str_of_Z remaining +:+ "s remaining)")
                [("Retry-After", str_of_Z (Z.min remaining 60))]) usage in
    io_ret (inl r)
  else
    let times := filter (λ t, in_window now t = true) (sv_times s) in
    let* _ := io_modify (set_times times) in
    if rate_limit_per_min (sv_chaos s) <=? Z.of_nat (length times) then
      let* oldest := io_lift (list_min times) in
      let retry_after := Z.max 1 (whole_seconds (60 * second - (now - oldest))) in
      let* usage := on_store (record_api_usage store_now) in
      let* r := with_limit_info (sf_error 429 "REQUEST_LIMIT_EXCEEDED" "TotalRequests Limit exceeded."
                  [("Retry-After", str_of_Z retry_after)]) usage in
      io_ret (inl r)
    else
      let* _ := io_modify (set_times (times ++ [now])) in
      let* usage := on_store (record_api_usage store_now) in
      io_ret (inr usage).

(** The draws of [random.random()] of one request. *)
Record draws := mkDraws { dr_hang : f64; dr_error : f64; dr_bad : f64 }.

(** After the sleeps: simulated failures, or the request itself. *)
Definition proceed (d : draws) (usage : Z) (call_next : io srv response) : io srv response :=
  let* s := io_get in
  if f64_ltb (dr_error d) (error_rate (sv_chaos s)) then
    with_limit_info (sf_error 503 "SERVER_UNAVAILABLE" "Server error, please try again later" [("Retry-After", "5")]) usage
  else if f64_ltb (dr_bad d) (bad_request_rate (sv_chaos s)) then
    with_limit_info (sf_error 400 "MALFORMED_QUERY" "unexpected token: simulated permanent failure" []) usage
  else let* r := call_next in with_limit_info r usage.

(** The milliseconds slept before [proceed]. *)
Definition sleeps (d : draws) (k : knobs) : list Z :=
  (if latency_ms k =? 0 then [] else [latency_ms k]) ++ (if f64_ltb (dr_hang d) (hang_rate k) then [30000] else []).

(** [chaos_middleware] when nothing else runs during the sleeps. *)
Definition chaos_middleware (path : string) (now store_now : Z) (d : draws) (call_next : io srv response) : io srv response :=
  if negb (is_data_path path) then call_next
  else
    let* gate := admission_gate now store_now in
    match gate with
    | inl r => io_ret r
    | inr usage => proceed d usage call_next
    end.

(** ** The chaos endpoints *)

Definition get_chaos (now store_now : Z) (s : srv) : response :=
  mkHttp 200 [] (ChaosBody (sv_chaos s) (Z.max 0 (whole_seconds (outage_until (sv_chaos s) - now)))
    (Z.of_nat (length (filter (λ t, in_window now t = true) (sv_times s))))
    (api_usage_last_24_hours store_now (sv_store s))).

Definition show_chaos (now store_now : Z) : io srv response :=
  let* s := io_get in io_ret (get_chaos now store_now s).

(** A key of the body of [set_chaos], with a value of the knob's type. *)
Inductive setting :=
| SetErrorRate (x : f64) | SetBadRequestRate (x : f64) | SetHangRate (x : f64) | SetLatency (n : Z)
| SetRateLimit (n : Z) | SetPageSize (n : Z) | SetDriftAfter (d : string) | SetOutageUntil (t : Z)
| SetDailyLimit (n : Z) | UnknownKnob (name : string).

Definition unknown_knob (x : setting) : option string := match x with UnknownKnob n => Some n | _ => None end.

Definition apply_setting (k : knobs) (x : setting) : knobs :=
  let 'mkKnobs e b h l r p d o a := k in
  match x with
  | SetErrorRate e => mkKnobs e b h l r p d o a
  | SetBadRequestRate b => mkKnobs e b h l r p d o a
  | SetHangRate h => mkKnobs e b h l r p d o a
  | SetLatency l => mkKnobs e b h l r p d o a
  | SetRateLimit r => mkKnobs e b h l r p d o a
  | SetPageSize p => mkKnobs e b h l r p d o a
  | SetDriftAfter d => mkKnobs e b h l r p d o a
  | SetOutageUntil o => mkKnobs e b h l r p d o a
  | SetDailyLimit a => mkKnobs e b h l r p d o a
  | UnknownKnob _ => k
  end.

Definition set_chaos (now store_now : Z) (settings : list setting) : io srv response :=
  match omap unknown_knob settings with
  | [] => let* _ := io_modify (λ s, set_chaos_knobs (foldl apply_setting (sv_chaos s) settings) s) in
          show_chaos now store_now
  | unknown => io_raise HTTPException ("unknown knobs: [" +:+ join ", " (py_repr <$> sort_on id unknown) +:+ "]")
  end.

Definition outage (now store_now : Z) (seconds : option Z) : io srv response :=
  let* _ := io_modify (λ s, set_chaos_knobs (apply_setting (sv_chaos s) (SetOutageUntil (now + default 60 seconds * second))) s) in
  show_chaos now store_now.

Definition reset_chaos (now store_now : Z) : io srv response :=
  let* _ := io_modify (λ s, set_times [] (set_chaos_knobs (apply_setting DEFAULTS (SetOutageUntil 0)) s)) in
  show_chaos now store_now.

(** ** What admission does *)

Definition window (now : Z) (s : srv) : list Z := filter (λ t, in_window now t = true) (sv_times s).
Definition counted (store_now : Z) (s : srv) : srv := set_sv_store (record_api_usage store_now (sv_store s)).1 s.

Lemma on_store_usage store_now s :
  ∃ usage, on_store (record_api_usage store_now) s = (counted store_now s, Ok usage).
Proof. eexists. reflexivity. Qed.

(** The three outcomes; a limit of zero or less raises when nothing is in the window. *)
Inductive admission (now store_now : Z) (s : srv) : srv * res (response + Z) → Prop :=
| adm_outage r : now < outage_until (sv_chaos s) → h_status r = 503 →
    admission now store_now s (counted store_now s, Ok (inl r))
| adm_refused r oldest rest : outage_until (sv_chaos s) ≤ now → window now s = oldest :: rest →
    rate_limit_per_min (sv_chaos s) ≤ Z.of_nat (length (window now s)) →
    h_status r = 429 →
    h_headers r = [("Retry-After", str_of_Z (Z.max 1 (whole_seconds (60 * second - (now - foldr Z.min oldest rest)))));
                   ("Sforce-Limit-Info", "api-usage=" +:+ str_of_Z (Z.of_nat (length (st_usage (sv_store (counted store_now s)))))
                      +:+ "/" +:+ str_of_Z (daily_api_limit (sv_chaos s)))] →
    admission now store_now s (counted store_now (set_times (window now s) s), Ok (inl r))
| adm_nothing_allowed e : outage_until (sv_chaos s) ≤ now → window now s = [] →
    rate_limit_per_min (sv_chaos s) ≤ 0 →
    admission now store_now s (set_times (window now s) s, Err e)
| adm_accepted usage : outage_until (sv_chaos s) ≤ now →
    usage = Z.of_nat (length (st_usage (sv_store (counted store_now s)))) →
    Z.of_nat (length (window now s)) < rate_limit_per_min (sv_chaos s) →
    admission now store_now s (counted store_now (set_times (window now s ++ [now]) s), Ok (inr usage)).

Lemma admit_spec now store_now s : admission now store_now s (admission_gate now store_now s).
Proof.
  unfold admission_gate, with_limit_info, io_bind, io_get, io_modify, io_ret, io_lift.
  destruct (Z.ltb_spec now (outage_until (sv_chaos s))).
  { destruct (on_store_usage store_now s) as [u ->]. by constructor. }
  fold (window now s). destruct (Z.leb_spec (rate_limit_per_min (sv_chaos s)) (Z.of_nat (length (window now s)))) as [Hl|Hl].
  - destruct (window now s) as [|oldest rest] eqn:Ew; cbn [list_min].
    + rewrite <- Ew. constructor; [done|done|]. simpl in Hl. lia.
    + rewrite <- Ew. destruct (on_store_usage store_now (set_times (window now s) s)) as [u Hu]. rewrite Hu.
      econstructor; [done|exact Ew|by rewrite Ew|done|]. cbn [h_headers sf_error app].
      assert (u = Z.of_nat (length (st_usage (sv_store (counted store_now s))))) as -> by (by injection Hu as <-). done.
  - destruct (on_store_usage store_now (set_times (window now s ++ [now]) s)) as [u Hu].
    change (set_times (window now s ++ [now]) (set_times (window now s) s)) with (set_times (window now s ++ [now]) s).
    rewrite Hu. constructor; [done| |done]. by injection Hu as <-.
Qed.

(** ** The rolling limit *)

(** A run of the server with the limit [L]: the clock readings of the admitted requests, latest
    first, and the last reading. Whatever else the server does between the requests leaves the
    recorded times alone. *)
Inductive limited (L : Z) : list Z → Z → srv → Prop :=
| lim_start clock s : sv_times s = [] → rate_limit_per_min (sv_chaos s) = L → limited L [] clock s
| lim_admitted acc clock s now store_now s' usage : limited L acc clock s → clock ≤ now →
    admission_gate now store_now s = (s', Ok (inr usage)) → limited L (now :: acc) now s'
| lim_refused acc clock s now store_now s' r : limited L acc clock s → clock ≤ now →
    admission_gate now store_now s = (s', r) → (∀ usage, r ≠ Ok (inr usage)) → limited L acc now s'
| lim_other acc clock s s' : limited L acc clock s → sv_times s' = sv_times s →
    rate_limit_per_min (sv_chaos s') = rate_limit_per_min (sv_chaos s) → limited L acc clock s'.

Lemma filter_window_later now now' (l : list Z) :
  now ≤ now' → filter (λ t, in_window now' t = true) (filter (λ t, in_window now t = true) l)
               = filter (λ t, in_window now' t = true) l.
Proof.
  intros Hle. rewrite list_filter_filter. apply list_filter_iff. intros t. unfold in_window. rewrite !Z.ltb_lt.
  split; [by intros [? _]|]. intros H. split; [done|lia].
Qed.

(** The recorded times are the admitted ones, as far as they matter. *)
Lemma limited_times L acc clock s :
  limited L acc clock s →
  rate_limit_per_min (sv_chaos s) = L ∧ Forall (λ t, t ≤ clock) acc ∧
  ∀ now, clock ≤ now → window now s ≡ₚ filter (λ t, in_window now t = true) acc.
Proof.
  induction 1 as [clock s Ht HL|acc clock s now snow s' u _ (HL & Hall & Hw) Hle E|acc clock s now snow s' r _ (HL & Hall & Hw) Hle E Hr
                  |acc clock s s' _ (HL & Hall & Hw) Ht HL'].
  - split; [done|]. split; [constructor|]. intros now _. unfold window. by rewrite Ht.
  - pose proof (admit_spec now snow s) as Ha. rewrite E in Ha. inversion Ha; subst. split; [done|]. split.
    { constructor; [done|]. eapply Forall_impl; [exact Hall|]. simpl. lia. }
    intros now' Hle'. unfold window in *. cbn [counted set_sv_store set_times sv_times].
    rewrite filter_app, filter_window_later by done. rewrite (Hw now') by lia.
    rewrite (Permutation_app_comm _ (filter _ [now])), <- filter_app. done.
  - pose proof (admit_spec now snow s) as Ha. rewrite E in Ha.
    assert (rate_limit_per_min (sv_chaos s') = rate_limit_per_min (sv_chaos s) ∧
            (sv_times s' = sv_times s ∨ sv_times s' = window now s)) as [HL' Ht].
    { inversion Ha; subst; simpl; auto. by destruct (Hr _ eq_refl). }
    split; [congruence|]. split; [eapply Forall_impl; [exact Hall|simpl; lia]|]. intros now' Hle'.
    rewrite <- (Hw now') by lia. unfold window. destruct Ht as [->| ->]; [done|]. unfold window. by rewrite filter_window_later.
  - split; [congruence|]. split; [done|]. intros now Hn. unfold window. rewrite Ht. by apply Hw.
Qed.

Definition admitted_within (t : Z) (acc : list Z) : list Z := filter (λ a, (t - 60 * second <? a) && (a <=? t) = true) acc.


Lemma foldr_min_le x l y : y ∈ x :: l → foldr Z.min x l ≤ y.
Proof.
  induction l as [|z l IH]; intros Hy; simpl.
  - apply list_elem_of_singleton in Hy as ->. done.
  - apply elem_of_cons in Hy as [->|[->|Hy]%elem_of_cons]; [|lia|];
      [etrans; [apply Z.le_min_r|apply IH; left]|etrans; [apply Z.le_min_r|apply IH; by right]].
Qed.

Lemma foldr_min_in x l : foldr Z.min x l ∈ x :: l.
Proof.
  induction l as [|z l IH]; simpl; [left|]. destruct (Z.min_spec z (foldr Z.min x l)) as [[_ ->]|[_ ->]]; [set_solver|].
  apply elem_of_cons in IH as [->|]; set_solver.
Qed.

Lemma admit_429 now store_now s s' r :
  admission_gate now store_now s = (s', Ok (inl r)) → h_status r = 429 →
  ∃ oldest rest, window now s = oldest :: rest ∧ outage_until (sv_chaos s) ≤ now ∧
    rate_limit_per_min (sv_chaos s) ≤ Z.of_nat (length (window now s)) ∧
    head (h_headers r) = Some ("Retry-After", str_of_Z (Z.max 1 (whole_seconds (60 * second - (now - foldr Z.min oldest rest))))) ∧
    s' = counted store_now (set_times (window now s) s).
Proof.
  intros E Hst. pose proof (admit_spec now store_now s) as Ha. rewrite E in Ha. inversion Ha; subst; [congruence|].
  do 2 eexists. split_and!; try done. by match goal with H : h_headers r = _ |- _ => rewrite H end.
Qed.

Lemma whole_seconds_bounds t : 0 ≤ t → whole_seconds t * second ≤ t < (whole_seconds t + 1) * second.
Proof.
  intros Ht. unfold whole_seconds. rewrite Z.quot_div_nonneg by (rewrite ?second_value; lia).
  pose proof (Z.mul_div_le t second ltac:(done)). pose proof (Z.mul_succ_div_gt t second ltac:(done)). lia.
Qed.

(** The oldest reading in the window. *)
Lemma oldest_spec now s oldest rest :
  window now s = oldest :: rest →
  let m := foldr Z.min oldest rest in
  m ∈ sv_times s ∧ m ∈ window now s ∧ now - m < 60 * second ∧ ∀ t, t ∈ window now s → m ≤ t.
Proof.
  intros Hw m. assert (m ∈ window now s) as Hm by (rewrite Hw; apply foldr_min_in). split_and!.
  - by apply list_elem_of_filter in Hm as [_ ?].
  - done.
  - apply list_elem_of_filter in Hm as [Hm _]. unfold in_window in Hm. by apply Z.ltb_lt in Hm.
  - intros t. rewrite Hw. apply foldr_min_le.
Qed.

(** A client that respects [Retry-After] gets through. If a request is refused by the rate limit
    the response says to wait [w] seconds, [1 ≤ w ≤ 60]; if nobody else is admitted and the limit
    is not changed, a request made [w + 1] seconds later or at any time after that is admitted. *)
Theorem retry_after_suffices now store_now s s' r :
  admission_gate now store_now s = (s', Ok (inl r)) → h_status r = 429 →
  Z.of_nat (length (sv_times s)) ≤ rate_limit_per_min (sv_chaos s) → Forall (λ t, t ≤ now) (sv_times s) →
  ∃ w, head (h_headers r) = Some ("Retry-After", str_of_Z w) ∧ 1 ≤ w ≤ 60 ∧
    ∀ now' store_now' s2, sv_times s2 = sv_times s' →
      rate_limit_per_min (sv_chaos s2) = rate_limit_per_min (sv_chaos s') → outage_until (sv_chaos s2) ≤ now' →
      now + (w + 1) * second ≤ now' → ∃ s3 usage, admission_gate now' store_now' s2 = (s3, Ok (inr usage)).
Proof.
  intros E Hst Hlen Hall. destruct (admit_429 _ _ _ _ _ E Hst) as (oldest & rest & Hw & _ & HL & Hh & ->).
  destruct (oldest_spec _ _ _ _ Hw) as (Hms & Hm & Hin & Hleast). set (m := foldr Z.min oldest rest) in *.
  rewrite Forall_forall in Hall. specialize (Hall m Hms). simpl in Hall.
  pose proof (whole_seconds_bounds (60 * second - (now - m)) ltac:(lia)) as Hq.
  set (q := whole_seconds (60 * second - (now - m))) in *. exists (Z.max 1 q). split; [done|].
  split; [rewrite second_value in *; lia|]. cbn [counted set_sv_store set_times sv_times sv_chaos].
  intros now' store_now' s2 Ht HL' Ho' Hle. pose proof (admit_spec now' store_now' s2) as Ha2.
  assert (length (window now' s2) < length (window now s))%nat as Hlt.
  { unfold window at 1. rewrite Ht. apply (length_filter_lt _ _ m); [done|].
    unfold in_window. rewrite Z.ltb_lt. rewrite second_value in *. lia. }
  assert (length (window now s) ≤ length (sv_times s))%nat by apply length_filter.
  destruct (admission_gate now' store_now' s2) as [s3 res3]. inversion Ha2; subst; try lia. by do 2 eexists.
Qed.

(** The seconds are rounded down: a client that waits exactly as long as it is told is refused
    again, unless the remaining time is a whole number of seconds. *)
Theorem retry_after_too_early now store_now s s' r w :
  admission_gate now store_now s = (s', Ok (inl r)) → h_status r = 429 → 1 ≤ rate_limit_per_min (sv_chaos s) →
  head (h_headers r) = Some ("Retry-After", str_of_Z w) →
  (∀ t, t ∈ sv_times s → 60 * second - (now - t) > second ∧ (60 * second - (now - t)) mod second ≠ 0) →
  ∃ s2 r2, admission_gate (now + w * second) store_now s' = (s2, Ok (inl r2)) ∧ h_status r2 = 429.
Proof.
  intros E Hst HL1 Hw' Hfrac. destruct (admit_429 _ _ _ _ _ E Hst) as (oldest & rest & Hw & Ho & HL & Hh & ->).
  destruct (oldest_spec _ _ _ _ Hw) as (Hms & Hm & Hin & Hleast). set (m := foldr Z.min oldest rest) in *.
  destruct (Hfrac m Hms) as [Hgt Hmod].
  pose proof (whole_seconds_bounds (60 * second - (now - m)) ltac:(rewrite second_value in *; lia)) as Hq.
  set (q := whole_seconds (60 * second - (now - m))) in *. rewrite Hh in Hw'. injection Hw' as Hw'. apply str_of_Z_inj in Hw'.
  assert (w = q) as -> by (rewrite second_value in *; lia). clear Hw'.
  assert (q * second ≠ 60 * second - (now - m)) as Hne by (intros Hq'; apply Hmod; rewrite <- Hq'; apply Z.mod_mul; done).
  set (s1 := counted store_now (set_times (window now s) s)).
  assert (window (now + q * second) s1 = window now s) as Hsame.
  { unfold window at 1. cbn. apply filter_all. intros t Ht. unfold in_window. apply Z.ltb_lt. specialize (Hleast t Ht). lia. }
  pose proof (admit_spec (now + q * second) store_now s1) as Ha. destruct (admission_gate (now + q * second) store_now s1) as [s2 res2].
  assert (outage_until (sv_chaos s1) ≤ now + q * second) by (cbn; rewrite second_value in *; lia).
  assert (rate_limit_per_min (sv_chaos s1) = rate_limit_per_min (sv_chaos s)) as HL' by done.
  inversion Ha; subst; rewrite ?Hsame in *; try lia; try (by rewrite Hw in *; congruence). by do 2 eexists.
Qed.

(** ** Sessions *)

Lemma lower_app a b : lower (a +:+ b) = lower a +:+ lower b.
Proof. unfold lower. by rewrite chars_app, fmap_app, str_app. Qed.

Lemma bearer_token_header scheme tok :
  lower scheme = "bearer" → strip tok = tok → bearer_token (Some (scheme +:+ " " +:+ tok)) = Some tok.
Proof.
  intros Hs Ht. unfold bearer_token. rewrite !lower_app, Hs.
  assert (starts_with "bearer " ("bearer" +:+ lower " " +:+ lower tok) = true) as -> by apply (prefix_app "bearer ").
  cbn [negb]. unfold partition. rewrite !chars_app.
  rewrite (proj2 (partition_list_spec " "%char _ []) (chars scheme) (chars tok)); [by rewrite str_chars, Ht|done|].
  intros Hin. apply (list_elem_of_fmap_2 lower_char) in Hin. apply (f_equal chars) in Hs. unfold lower in Hs.
  rewrite chars_str in Hs. rewrite Hs in Hin. revert Hin. change (lower_char " ") with " "%char.
  apply (bool_decide_unpack _). vm_compute. done.
Qed.

(** What the other clients do with sessions. *)
Inductive session_op := Issue (tok : string) (ttl now : Z) | Present (authorization : option string) (now : Z).

Definition op_time (o : session_op) : Z := match o with Issue _ _ now | Present _ now => now end.
Definition issues (tok : string) (o : session_op) : Prop := match o with Issue t _ _ => t = tok | Present _ _ => False end.
Definition run_op (s : srv) (o : session_op) : srv :=
  match o with
  | Issue tok ttl now => (token now true true tok ttl s).1
  | Present authorization now => (require_token now authorization s).1
  end.

Lemma require_token_spec now authorization s :
  require_token now authorization s =
  match bearer_token authorization with
  | None => (s, raise SalesforceAuthenticationError "Session expired or invalid")
  | Some tok =>
    match sv_tokens s !! tok with
    | None => (s, raise SalesforceAuthenticationError "Session expired or invalid")
    | Some exp => if exp <? now then (set_tokens (delete tok (sv_tokens s)) s, raise SalesforceAuthenticationError "Session expired or invalid")
                  else (s, Ok tt)
    end
  end.
Proof.
  unfold require_token, io_bind, io_get, expired_session, io_raise, io_modify, io_ret. destruct (bearer_token authorization) as [tok|]; [|done].
  destruct (sv_tokens s !! tok) as [exp|]; [|done]. by destruct (exp <? now).
Qed.

Lemma sessions_kept tok exp ops now : ∀ s,
  Forall (λ o, op_time o ≤ now ∧ ¬ issues tok o) ops → sv_tokens s !! tok = Some exp →
  let s' := foldl run_op s ops in
  sv_tokens s' !! tok = Some exp ∨ (sv_tokens s' !! tok = None ∧ exp < now).
Proof.
  assert (∀ ops s, Forall (λ o, op_time o ≤ now ∧ ¬ issues tok o) ops → sv_tokens s !! tok = None → sv_tokens (foldl run_op s ops) !! tok = None) as Hgone.
  { clear. induction ops as [|o ops IH]; intros s Hall Hs; [done|]. inversion Hall as [|? ? [_ Hi] Hall']; subst. apply IH; [done|].
    destruct o as [t ttl now'|authorization now']; cbn [run_op].
    - cbn. rewrite lookup_insert_ne; [done|]. intros ->. by apply Hi.
    - rewrite require_token_spec. destruct (bearer_token authorization) as [t|]; [|done].
      destruct (sv_tokens s !! t) as [e|]; [|done]. destruct (e <? now'); [|done]. cbn. by apply lookup_delete_None; right. }
  induction ops as [|o ops IH]; intros s Hall Hs; cbn [foldl]; [by left|].
  inversion Hall as [|? ? [Ho Hi] Hall']; subst. destruct o as [t ttl now'|authorization now']; cbn [run_op].
  - apply IH; [done|]. cbn. rewrite lookup_insert_ne; [done|]. intros ->. by apply Hi.
  - rewrite require_token_spec. destruct (bearer_token authorization) as [t|]; [|by apply IH].
    destruct (sv_tokens s !! t) as [e|] eqn:Et; [|by apply IH]. destruct (Z.ltb_spec e now'); [|by apply IH].
    cbn [fst]. destruct (decide (t = tok)) as [->|Hne].
    + right. split; [apply Hgone; [done|]; cbn; by rewrite lookup_delete_eq|]. simpl in Ho. assert (e = exp) by congruence. lia.
    + apply IH; [done|]. cbn. by rewrite lookup_delete_ne.
Qed.

(** A session lasts exactly its lifetime. A token issued at [t0] for [ttl] seconds is accepted,
    under any spelling of the scheme [Bearer], at every time up to [t0 + ttl] and at no later one,
    whatever other tokens are issued, presented or expire in between. *)
Theorem session_lifetime s t0 ttl tok scheme ops now :
  strip tok = tok → lower scheme = "bearer" →
  Forall (λ o, op_time o ≤ now ∧ ¬ issues tok o) ops →
  let s' := foldl run_op (token t0 true true tok ttl s).1 ops in
  (require_token now (Some (scheme +:+ " " +:+ tok)) s').2 = Ok tt ↔ now ≤ t0 + ttl * second.
Proof.
  intros Ht Hs Hall s'. rewrite require_token_spec, bearer_token_header by done.
  destruct (sessions_kept tok (t0 + ttl * second) ops now (token t0 true true tok ttl s).1 Hall) as [H|[H Hlt]].
  { cbn. by rewrite lookup_insert_eq. }
  - fold s' in H. rewrite H. destruct (Z.ltb_spec (t0 + ttl * second) now); simpl; split; intros; try done; lia.
  - fold s' in H. rewrite H. simpl. split; [done|lia].
Qed.

(** ** Usage *)

Ltac status_listed :=
  cbn; repeat match goal with H : h_status ?r = _ |- _ => rewrite H; clear H end; apply (bool_decide_unpack _); vm_compute; done.

(** Every request to the data API is counted once, whatever becomes of it: an outage, the rate
    limit, a simulated failure or the request itself. The only exception is a limit of zero or
    less with no recent request, for which [min] of nothing raises before the count. *)
Theorem data_requests_counted path now store_now d (call_next : io srv response) s :
  is_data_path path = true → 1 ≤ rate_limit_per_min (sv_chaos s) →
  ∃ s1, sv_store s1 = (record_api_usage store_now (sv_store s)).1 ∧
    ((∃ r, chaos_middleware path now store_now d call_next s = (s1, Ok r) ∧ h_status r ∈ [503; 429; 400]) ∨
     chaos_middleware path now store_now d call_next s
     = (let* r := call_next in with_limit_info r (Z.of_nat (length (st_usage (sv_store s1))))) s1).
Proof.
  intros Hp HL. unfold chaos_middleware. rewrite Hp. cbn [negb].
  pose proof (admit_spec now store_now s) as Ha. destruct (admission_gate now store_now s) as [s1 res1] eqn:E.
  inversion Ha; subst; try lia; rewrite (io_bind_run _ _ _ _ _ E).
  - eexists. split; [|left; eexists; split; [reflexivity|status_listed]]. done.
  - eexists. split; [|left; eexists; split; [reflexivity|status_listed]]. done.
  - exists (counted store_now (set_times (window now s ++ [now]) s)). split; [done|].
    unfold proceed. rewrite (io_bind_run io_get _ _ _ _ eq_refl).
    destruct (f64_ltb (dr_error d) _); [left; eexists; split; [reflexivity|status_listed]|].
    destruct (f64_ltb (dr_bad d) _); [left; eexists; split; [reflexivity|status_listed]|right; reflexivity].
Qed.
End Gateway.

(** ** A server with two requests a minute *)

Definition quiet : f64 := f64_of_Z 0.
Definition witness_knobs : knobs := mkKnobs quiet quiet quiet 0 2 2000 "" 0 15000.
Definition witness_server : server unit := mkServer witness_knobs [] ∅ empty_store tt.
Definition after_admit (now : Z) (s : server unit) : server unit := (admission_gate (C:=unit) now 0 s).1.
(** Two requests, 30.5 seconds apart, and a third half a second later. *)
Definition witness_first : server unit := after_admit (100 * second) witness_server.
Definition witness_second : server unit := after_admit (130 * second + second / 2) witness_first.
Definition witness_third : server unit * res (http unit + Z) := admission_gate (C:=unit) (131 * second) 0 witness_second.

Lemma witness_limited : limited (X:=unit) (C:=unit) 2 [130 * second + second / 2; 100 * second] (130 * second + second / 2) witness_second.
Proof.
  apply (lim_admitted 2 [100 * second] (100 * second) witness_first (130 * second + second / 2) 0 witness_second 2);
    [|vm_compute; discriminate|vm_compute; reflexivity].
  apply (lim_admitted 2 [] 0 witness_server (100 * second) 0 witness_first 1); [|vm_compute; discriminate|vm_compute; reflexivity].
  by constructor.
Qed.


Definition witness_refusal : http unit :=
  match witness_third.2 with Ok (inl r) => r | _ => mkHttp 0 [] (DetailBody "") end.

Lemma retry_after_suffices_witness :
  ∃ w, head (h_headers witness_refusal) = Some ("Retry-After", str_of_Z w) ∧ 1 ≤ w ≤ 60.
Proof.
  destruct (retry_after_suffices (131 * second) 0 witness_second witness_third.1 witness_refusal) as (w & H1 & H2 & _).
  - vm_compute. reflexivity.
  - vm_compute. reflexivity.
  - vm_compute. discriminate.
  - apply (bool_decide_unpack _). vm_compute. done.
  - by exists w.
Defined.

Lemma session_lifetime_witness :
  (require_token (110 * second) (Some "bearer abc")
     (foldl (run_op (C:=unit)) (token (C:=unit) (100 * second) true true "abc" 10 witness_server).1
        [Present (Some "Bearer abc") (105 * second); Issue "xyz" 5 (106 * second)])).2 = Ok tt.
Proof.
  apply (session_lifetime witness_server (100 * second) 10 "abc" "bearer"); [reflexivity|reflexivity| |vm_compute; discriminate].
  repeat constructor; [vm_compute; discriminate|by intros []|vm_compute; discriminate|discriminate].
Defined.

Lemma data_requests_counted_witness :
  ∃ s1, sv_store s1 = (record_api_usage 7 empty_store).1 ∧
    ((∃ r, chaos_middleware "v60.0" "/services/data/v60.0/limits" 0 7 (mkDraws quiet quiet quiet)
             (io_ret (mkHttp 200 [] (Content tt))) witness_server = (s1, Ok r) ∧ h_status r ∈ [503; 429; 400]) ∨
     chaos_middleware "v60.0" "/services/data/v60.0/limits" 0 7 (mkDraws quiet quiet quiet)
       (io_ret (mkHttp 200 [] (Content tt))) witness_server
     = (let* r := io_ret (mkHttp 200 [] (Content tt)) in with_limit_info r (Z.of_nat (length (st_usage (sv_store s1))))) s1).
Proof. apply (data_requests_counted "v60.0" "/services/data/v60.0/limits" 0 7 (mkDraws quiet quiet quiet) (io_ret (mkHttp 200 [] (Content tt))) witness_server); [vm_compute; reflexivity|vm_compute; discriminate]. Defined.
