(* ===== verification/Endpoints.v ===== *)
(** * The data endpoints: [fakeforce/app.py]

    The handlers behind the middleware: queries, describe, deleted records, limits and the bulk
    job resources, over the session state of [Gateway] and the stores they share. *)

From stdpp Require Import prelude gmap strings list.
From Stdlib Require Import ZArith Lia Ascii.
From S2P Require Import Prelude PyText Dates Soql Catalog QueryPlan Cursors Jobs BulkQuery Ingest Gateway.

Open Scope Z_scope.

Section Endpoints.
(** The engine and its values, and the catalog. *)
Context {V : Type} `{EqDecision V} `{Engine V} (id_text : V → string).
Context (API_VERSION : string) (catalog : DatasetCatalog) (root : string).
(** The rows of a bulk result. *)
Context {R : Type}.
(** [json.loads]: a value or the message of its error; [csv.reader]'s first row, if there is one. *)
Context (json_loads : string → json + string) (first_csv_row : string → option (list string)).
(** [datetime.fromisoformat]: local microseconds and the offset, if the text has one;
    [date.fromisoformat]. *)
Context (datetime_fromisoformat : string → option (Z * option Z)) (date_fromisoformat : string → option date).
(** The rows of an object's relation, a value as a condition and as a [TIMESTAMP]. *)
Context (relation_rows : DatasetSpec → list (list (string * V))) (truthy : V → bool) (cast_timestamp : V → res (option Z)).
(** [bulk_job_retention_hours], [bulk_ingest_max_upload_bytes] and [disk_reserve_bytes]. *)
Context (retention_hours max_upload_bytes reserve_bytes : Z).
(** Size and checksum of an encoded part, and the configured part size. *)
Context (part_bytes : list R → Z * string) (part_records : Z).

Abbreviation rest := (rest_state (V:=V)).
Abbreviation bulk_output := (output (R:=R)).

(** What the endpoints keep: cursors, uploads and bulk results by job, the jobs handed to the
    dispatchers, and the free disk space. *)
Record resources := mkResources {
  re_rest : rest;
  re_uploads : gmap string string;
  re_outputs : gmap string bulk_output;
  re_submitted : list string;
  re_free : Z }.

Definition set_rest x r := mkResources x (re_uploads r) (re_outputs r) (re_submitted r) (re_free r).
Definition set_uploads x r := mkResources (re_rest r) x (re_outputs r) (re_submitted r) (re_free r).
Definition set_outputs x r := mkResources (re_rest r) (re_uploads r) x (re_submitted r) (re_free r).
Definition set_submitted x r := mkResources (re_rest r) (re_uploads r) (re_outputs r) x (re_free r).

Inductive content :=
| CPage (r : Cursors.response (V:=V))
| CDescribe (name : string) (fields : list (string * string * bool * bool))
| CDeleted (records : list (V * V)) (start end_ : string)
| CLimits (max remaining : Z)
| CQueryJob (id : string) (operation : option string) (state : string) (query error_code error_message : option string)
| CIngestJob (id : string) (operation object : option string) (state : string)
    (content_type line_ending column_delimiter error_code error_message : option string)
| CRows (rows : list R)
| CTable (rows : list (list string))
| CEmpty.

Abbreviation api := (server resources).
Abbreviation reply := (http content).

Definition on_rest {A} (m : io rest A) : io api A :=
  io_zoom (λ s, re_rest (sv_inner s)) (λ x s, set_inner (set_rest x (sv_inner s)) s) m.
Definition on_jobs {A} (m : io store A) : io api A := Gateway.on_store m.
Definition modify_inner (f : resources → resources) : io api unit := io_modify (λ s, set_inner (f (sv_inner s)) s).

(** The clocks, the fresh secret and the day of one request. *)
Record env := mkEnv {
  now : Z;
  store_now : Z;
  secret : string;
  today : date;
  snapshot_id : string }.

Definition ok_content (c : content) : reply := mkHttp 200 [] (Content c).
Definition error {A} (status : Z) (code message : string) : io A reply := io_ret (sf_error status code message []).
Definition not_found : reply := sf_error 404 "NOT_FOUND" "The requested resource does not exist" [].

(** ** Queries *)

Definition of_cursor_response (r : Cursors.response (V:=V)) : reply :=
  match r with
  | RError status code message => sf_error status code message []
  | r => ok_content (CPage r)
  end.

Definition run_query (e : env) (q : string) (authorization : option string) (include_deleted : bool)
    (query_options : option string) : io api reply :=
  let* _ := require_token (now e) authorization in
  let* s := io_get in
  let* r := on_rest (_run_query id_text API_VERSION catalog root (store_now e) (snapshot_id e) (secret e)
                       (page_size (sv_chaos s)) q include_deleted query_options) in
  io_ret (of_cursor_response r).

Definition query_more_endpoint (e : env) (locator : string) (authorization : option string) : io api reply :=
  let* _ := require_token (now e) authorization in
  let* s := io_get in
  let* r := io_lift (query_more id_text API_VERSION catalog (store_now e) (snapshot_id e) locator (re_rest (sv_inner s))) in
  io_ret (of_cursor_response r).

(** ** Metadata *)

Definition sf_type (spec : DatasetSpec) (name : string) : string :=
  if String.eqb name "Id" || ends_with "Id" name then "id"
  else match aget name (spec_schema spec) with
       | Some TBool => "boolean"
       | Some TInteger => "int"
       | Some TFloating => "double"
       | Some TDate | Some (TTimestamp _) => "datetime"
       | _ => "string"
       end.

Definition _drift_active (e : env) (k : knobs) : bool :=
  if String.eqb (drift_after k) "" then false
  else match date_fromisoformat (drift_after k) with
       | None => false
       | Some drift_date => drift_date <=? today e
       end.

(** Name, type, nillable and custom of a field. *)
Definition describe_fields (spec : DatasetSpec) : list (string * string * bool * bool) :=
  (λ c, (c, sf_type spec c, negb (String.eqb c (id_field spec)), ends_with "__c" c)) <$> (spec_schema spec).*1.

Definition describe (e : env) (obj : string) (authorization : option string) : io api reply :=
  let* _ := require_token (now e) authorization in
  let* s := io_get in
  match get catalog obj with
  | None => error 404 "NOT_FOUND" ("The requested resource does not exist: " +:+ obj)
  | Some spec =>
    let territory := if _drift_active e (sv_chaos s) && String.eqb obj "Account"
                     then [("Territory__c", "string", true, true)] else [] in
    io_ret (ok_content (CDescribe obj (describe_fields spec ++ territory)))
  end.

Definition limits (e : env) (authorization : option string) : io api reply :=
  let* _ := require_token (now e) authorization in
  let* s := io_get in
  let cap := daily_api_limit (sv_chaos s) in
  io_ret (ok_content (CLimits cap (Z.max 0 (cap - api_usage_last_24_hours (store_now e) (sv_store s))))).

(** ** Deleted records *)

Definition str_init (s : string) : string := str (take (length (chars s) - 1) (chars s)).

(** Local microseconds and the offset; a text without an offset is in UTC. *)
Definition _parse_window_bound (value : string) : option (Z * Z) :=
  let text := if ends_with "Z" value then str_init value +:+ "+00:00" else value in
  match datetime_fromisoformat text with
  | None => None
  | Some (local, offset) => Some (local, default 0 offset)
  end.

Definition us_per_day : Z := 86400 * 1000000.
Definition instant (b : Z * Z) : Z := b.1 - b.2.

(** [b.astimezone(timezone.utc).replace(tzinfo=None)] *)
Definition utc_naive (b : Z * Z) : res Z :=
  if (us_per_day <=? instant b) && (instant b <? (date_max + 1) * us_per_day) then Ok (instant b)
  else raise OverflowError "date value out of range".

(** The pair of a soft-deleted row whose date is in the window; a condition on [NULL] is not true. *)
Definition deleted_row (spec : DatasetSpec) (soft_delete date_field : string) (start_ end_ : Z) (row : list (string * V))
    : res (option (V * V)) :=
  match aget soft_delete row, aget (id_field spec) row, aget date_field row with
  | Some flag, Some id, Some at_ =>
    if truthy flag then
      let! t := cast_timestamp at_ in
      Ok (match t with Some t => if (start_ <=? t) && (t <=? end_) then Some (id, at_) else None | None => None end)
    else Ok None
  | _, _, _ => raise DataError "Binder Error: column"
  end.

Definition thirty_days : Z := 30 * us_per_day.

Definition get_deleted (e : env) (obj start_ end_ : string) (authorization : option string) : io api reply :=
  let* _ := require_token (now e) authorization in
  match get catalog obj with
  | None => error 404 "NOT_FOUND" ("The requested resource does not exist: " +:+ obj)
  | Some spec =>
    if String.eqb start_ "" || String.eqb end_ "" then error 400 "MALFORMED_QUERY" "startDate and endDate are required"
    else match _parse_window_bound start_, _parse_window_bound end_ with
    | Some start_dt, Some end_dt =>
      if instant end_dt <? instant start_dt then error 400 "INVALID_DATE_RANGE" "endDate must not be before startDate"
      else if thirty_days <? instant end_dt - instant start_dt
      then error 400 "INVALID_DATE_RANGE" "the date range must not exceed 30 days"
      else
        let* records := match soft_delete_field spec with
                        | None => io_ret []
                        | Some soft_delete =>
                          let date_field := if bool_decide ("LastModifiedDate" ∈ (spec_schema spec).*1)
                                            then "LastModifiedDate" else id_field spec in
                          let* start_naive := io_lift (utc_naive start_dt) in
                          let* end_naive := io_lift (utc_naive end_dt) in
                          io_lift (res_omap (deleted_row spec soft_delete date_field start_naive end_naive) (relation_rows spec))
                        end in
        io_ret (ok_content (CDeleted records start_ end_))
    | _, _ => error 400 "MALFORMED_QUERY" "startDate and endDate must be ISO8601 timestamps"
    end
  end.

(** ** Bulk jobs: creating them *)

(** [await request.json()], and [body.get] on a body that has to be an object *)
Definition request_json (text : string) : io api json :=
  match json_loads text with
  | inl j => io_ret j
  | inr msg => io_raise JSONDecodeError msg
  end.
Definition as_object (j : json) : io api (list (string * json)) :=
  match j with
  | JObj l => io_ret l
  | _ => io_raise AttributeError "object has no attribute 'get'"
  end.

Definition _bulk_query_job_response (j : BulkJob) : reply :=
  ok_content (CQueryJob (job_id j) (operation j) (state_text (job_state j)) (query_text j) (error_code j) (error_message j)).
Definition _bulk_ingest_job_response (j : BulkJob) : reply :=
  ok_content (CIngestJob (job_id j) (operation j) (job_object_name j) (state_text (job_state j))
    (aget "contentType" (options j)) (aget "lineEnding" (options j)) (aget "columnDelimiter" (options j))
    (error_code j) (error_message j)).

(** [submit] *)
Definition submit (id : string) : io api unit := modify_inner (λ r, set_submitted (re_submitted r ++ [id]) r).

Definition expiry (e : env) : Z := store_now e + retention_hours * 3600.

Definition new_query_job (e : env) (query : string) : BulkJob :=
  mkJob ("750" +:+ secret e) QUERY API_VERSION UPLOAD_COMPLETE None (Some "query") (Some query) (Some (snapshot_id e))
    None None (Some (expiry e)) [].

Definition create_bulk_query_job (e : env) (text : string) (authorization : option string) : io api reply :=
  let* _ := require_token (now e) authorization in
  let* j := request_json text in
  let* body := as_object j in
  match jget "operation" body (JStr "query") with
  | JStr op =>
    match String.eqb (lower op) "query", jget "query" body JNull with
    | true, JStr query =>
      io_try
        (let* _ := io_lift (plan catalog query false) in
         let job := new_query_job e query in
         let* _ := on_jobs (create_job job) in
         let* _ := submit (job_id job) in
         io_ret (_bulk_query_job_response job))
        (λ x, if decide (exn_cls x = QueryValidationError) then Some (error 400 (exn_code x) (exn_msg x)) else None)
    | _, _ => error 400 "MALFORMED_QUERY" "Bulk query jobs require operation=query and a query"
    end
  | _ => io_raise AttributeError "object has no attribute 'lower'"
  end.

Definition new_ingest_job (e : env) (c : IngestConfiguration) : BulkJob :=
  mkJob ("750" +:+ secret e) INGEST API_VERSION OPEN (Some (ic_object c)) (Some (ic_operation c)) None (Some (snapshot_id e))
    None None (Some (expiry e))
    [("contentType", ic_content_type c); ("lineEnding", ic_line_ending c); ("columnDelimiter", ic_delimiter c)].

Definition create_bulk_ingest_job (e : env) (text : string) (authorization : option string) : io api reply :=
  let* _ := require_token (now e) authorization in
  let* j := request_json text in
  let* body := as_object j in
  match validate_ingest_create body catalog with
  | Err x =>
    if decide (exn_cls x = IngestValidationError)
    then error (if String.eqb (exn_code x) "NOT_FOUND" then 404 else 400) (exn_code x) (exn_msg x)
    else io_lift (Err x)
  | Ok config =>
    let job := new_ingest_job e config in
    let* _ := on_jobs (create_job job) in
    io_ret (_bulk_ingest_job_response job)
  end.

(** ** Bulk ingest: upload, state, results *)

(** [require_disk_reserve] before anything is written *)
Definition require_disk_reserve (directory : string) (additional : Z) : io api unit :=
  let* s := io_get in
  raise_if (re_free (sv_inner s) - additional <? reserve_bytes) InsufficientDiskSpaceError
    ("insufficient free disk space in " +:+ directory).

(** The chunks written to the temporary file: the text, or the size at which the limit is passed. *)
Fixpoint collect (written : Z) (chunks : list string) : option string :=
  match chunks with
  | [] => Some ""
  | c :: chunks =>
    let written := written + Z.of_nat (String.length c) in
    if max_upload_bytes <? written then None
    else match collect written chunks with Some rest => Some (c +:+ rest) | None => None end
  end.

(** [IngestUploadStore.write] once the chunks have arrived: the file is replaced as a whole or not at all. *)
Definition write_upload (id : string) (chunks : list string) : io api unit :=
  match collect 0 chunks with
  | None => io_raise IngestUploadTooLarge ("CSV upload exceeds " +:+ str_of_Z max_upload_bytes +:+ " byte limit")
  | Some text => modify_inner (λ r, set_uploads (<[id := text]> (re_uploads r)) r)
  end.

(** [get_job] when it names an ingest job *)
Definition ingest_job (e : env) (id : string) (s : api) : option BulkJob :=
  match get_job (store_now e) id (sv_store s) with
  | Some j => if bool_decide (job_type j = INGEST) then Some j else None
  | None => None
  end.

(** [upload_bulk_ingest_batch] up to its first [await], and the rest; other requests run in between. *)
Definition upload_check (e : env) (id : string) (authorization : option string) : io api (option reply) :=
  let* _ := require_token (now e) authorization in
  let* s := io_get in
  match ingest_job e id s with
  | None => io_ret (Some not_found)
  | Some j =>
    if negb (bool_decide (job_state j = OPEN))
    then io_ret (Some (sf_error 400 "INVALIDJOB" "CSV data can be uploaded only while the job is open" []))
    else let* _ := require_disk_reserve id 0 in io_ret None
  end.
Definition upload_write (id : string) (chunks : list string) : io api reply :=
  io_try
    (let* _ := write_upload id chunks in io_ret (mkHttp 201 [] (Content CEmpty)))
    (λ x, if decide (exn_cls x = IngestUploadTooLarge) then Some (error 413 "REQUEST_ENTITY_TOO_LARGE" (exn_msg x)) else None).
Definition upload_bulk_ingest_batch (e : env) (id : string) (chunks : list string) (authorization : option string) : io api reply :=
  let* early := upload_check e id authorization in
  match early with
  | Some r => io_ret r
  | None => upload_write id chunks
  end.

Definition bad_transition : io api reply := error 400 "INVALIDJOB" "invalid Bulk ingest job state transition".

Definition update_bulk_ingest_job (e : env) (id text : string) (authorization : option string) : io api reply :=
  let* _ := require_token (now e) authorization in
  let* j := request_json text in
  let* body := as_object j in
  let requested_state := jget "state" body JNull in
  let* s := io_get in
  match ingest_job e id s with
  | None => io_ret not_found
  | Some _ =>
    let go next :=
      io_try
        (let* j := on_jobs (transition_job (store_now e) id next None None) in
         let* _ := if bool_decide (job_state j = UPLOAD_COMPLETE) then submit (job_id j) else io_ret tt in
         io_ret (_bulk_ingest_job_response j))
        (λ x, if decide (exn_cls x = InvalidJobTransition) then Some bad_transition else None) in
    if json_is (state_text UPLOAD_COMPLETE) requested_state then
      match re_uploads (sv_inner s) !! id with
      | None => error 400 "INVALIDJOB" "CSV data must be uploaded before closing the job"
      | Some _ => go UPLOAD_COMPLETE
      end
    else if json_is (state_text ABORTED) requested_state then go ABORTED
    else bad_transition
  end.

Definition get_bulk_ingest_job (e : env) (id : string) (authorization : option string) : io api reply :=
  let* _ := require_token (now e) authorization in
  let* s := io_get in
  match ingest_job e id s with
  | None => io_ret not_found
  | Some j => io_ret (_bulk_ingest_job_response j)
  end.

Definition _bulk_ingest_results (e : env) (id status : string) (authorization : option string) : io api reply :=
  let* _ := require_token (now e) authorization in
  let* s := io_get in
  match ingest_job e id s with
  | None => io_ret not_found
  | Some j =>
    if negb (bool_decide (job_state j ∈ [JOB_COMPLETE; FAILED]))
    then error 400 "INVALIDJOB" "Bulk ingest results are not available until processing ends"
    else match re_uploads (sv_inner s) !! id ≫= first_csv_row with
    | None => error 400 "INVALIDJOB" "Bulk ingest CSV upload is unavailable"
    | Some source_fields =>
      io_ret (mkHttp 200 [("Sforce-NumberOfRecords", str_of_Z (ingest_result_count id status (sv_store s)))]
                (Content (CTable (stream_ingest_results id status source_fields (sv_store s)))))
    end
  end.

(** ** Bulk queries: state, results *)

Definition query_job (e : env) (id : string) (s : api) : option BulkJob :=
  match get_job (store_now e) id (sv_store s) with
  | Some j => if bool_decide (job_type j = QUERY) then Some j else None
  | None => None
  end.

Definition get_bulk_query_job (e : env) (id : string) (authorization : option string) : io api reply :=
  let* _ := require_token (now e) authorization in
  let* s := io_get in
  match query_job e id s with
  | None => io_ret not_found
  | Some j => io_ret (_bulk_query_job_response j)
  end.

Definition update_bulk_query_job (e : env) (id text : string) (authorization : option string) : io api reply :=
  let* _ := require_token (now e) authorization in
  let* j := request_json text in
  let* body := as_object j in
  if negb (json_is (state_text ABORTED) (jget "state" body JNull))
  then error 400 "INVALIDJOB" "Bulk query jobs can only be aborted through this resource"
  else
    io_try
      (let* j := on_jobs (transition_job (store_now e) id ABORTED None None) in io_ret (_bulk_query_job_response j))
      (λ x, match exn_cls x with
            | KeyError => Some (io_ret not_found)
            | InvalidJobTransition => Some (error 400 "INVALIDJOB" "invalid Bulk job state transition")
            | _ => None
            end).

Definition output_of (id : string) (s : api) : bulk_output := default empty_output (re_outputs (sv_inner s) !! id).

(** [offset = 0 if locator is None else int(locator.removeprefix("r:"))] *)
Definition window_offset (locator : option string) : Z :=
  match locator with None => 0 | Some l => default 0 (int_of_text (remove_r l)) end.

Definition get_bulk_query_results (e : env) (id : string) (locator : option string) (maxRecords : option Z)
    (authorization : option string) : io api reply :=
  let* _ := require_token (now e) authorization in
  let* s := io_get in
  match query_job e id s with
  | None => io_ret not_found
  | Some j =>
    if negb (String.eqb (api_version j) API_VERSION)
    then error 409 "API_VERSION_MISMATCH" "Bulk job API version does not match request"
    else if negb (bool_decide (job_state j = JOB_COMPLETE))
    then error 400 "INVALIDJOB" "Bulk query results are not available until the job is complete"
    else
      let o := output_of id s in
      match match maxRecords with Some m => result_window id o locator m | None => page id o locator end with
      | Err x =>
        if decide (exn_cls x = InvalidBulkLocator ∨ exn_cls x = FileNotFoundError)
        then error 400 "INVALIDLOCATOR" "invalid bulk result locator" else io_lift (Err x)
      | Ok page =>
        let headers := ("Sforce-NumberOfRecords", str_of_Z (rp_count page))
                       :: match rp_next page with Some l => [("Sforce-Locator", l)] | None => [] end in
        let rows := match maxRecords with
                    | Some _ => stream_window o (window_offset locator) (rp_count page)
                    | None => default [] (o_files o !! rp_path page)
                    end in
        io_ret (mkHttp 200 headers (Content (CRows rows)))
      end
  end.

(** [recover_bulk_artifacts] at a restart: the files of the jobs whose retention has ended. [removed]
    of them are gone when the process stops; a completed recovery removes all. *)
Definition remove_jobs (ids : list string) (r : resources) : resources :=
  set_outputs (foldr delete (re_outputs r) ids) (set_uploads (foldr delete (re_uploads r) ids) r).
Definition recover_interrupted (now removed : Z) : io api unit :=
  let* ids := on_jobs (expire_jobs now) in
  modify_inner (remove_jobs (take (Z.to_nat removed) ids)).
Definition recover_bulk_artifacts (now : Z) : io api unit :=
  let* ids := on_jobs (expire_jobs now) in modify_inner (remove_jobs ids).

(** ** All endpoints under [/services/data] *)

Inductive request :=
| Query (q : string) (include_deleted : bool) (query_options : option string)
| QueryMore (locator : string)
| Describe (obj : string)
| GetDeleted (obj start_ end_ : string)
| Limits
| CreateQueryJob (text : string)
| CreateIngestJob (text : string)
| UploadBatch (id : string) (chunks : list string)
| UpdateIngestJob (id text : string)
| GetIngestJob (id : string)
| IngestResults (id status : string)
| GetQueryJob (id : string)
| UpdateQueryJob (id text : string)
| QueryResults (id : string) (locator : option string) (maxRecords : option Z).

Definition handle (e : env) (authorization : option string) (r : request) : io api reply :=
  match r with
  | Query q include_deleted query_options => run_query e q authorization include_deleted query_options
  | QueryMore locator => query_more_endpoint e locator authorization
  | Describe obj => describe e obj authorization
  | GetDeleted obj start_ end_ => get_deleted e obj start_ end_ authorization
  | Limits => limits e authorization
  | CreateQueryJob text => create_bulk_query_job e text authorization
  | CreateIngestJob text => create_bulk_ingest_job e text authorization
  | UploadBatch id chunks => upload_bulk_ingest_batch e id chunks authorization
  | UpdateIngestJob id text => update_bulk_ingest_job e id text authorization
  | GetIngestJob id => get_bulk_ingest_job e id authorization
  | IngestResults id status => _bulk_ingest_results e id status authorization
  | GetQueryJob id => get_bulk_query_job e id authorization
  | UpdateQueryJob id text => update_bulk_query_job e id text authorization
  | QueryResults id locator maxRecords => get_bulk_query_results e id locator maxRecords authorization
  end.

(** The exception handlers of the application; any other exception is a server error. *)
Definition handled (x : exn) : option (io api reply) :=
  match exn_cls x with
  | SalesforceAuthenticationError => Some (error 401 "INVALID_SESSION_ID" (exn_msg x))
  | JSONDecodeError => Some (error 400 "JSON_PARSER_ERROR" ("Cannot parse request body: " +:+ exn_msg x))
  | HTTPException => Some (io_ret (mkHttp 400 [] (DetailBody (exn_msg x))))
  | _ => None
  end.

Definition respond (e : env) (authorization : option string) (r : request) : io api reply :=
  io_try (handle e authorization r) handled.

(** ** Authentication *)

(** A header that names no live session, for the bookkeeping of the next theorem. *)
Definition unauthenticated (e : env) (authorization : option string) (s : api) : Prop :=
  match bearer_token authorization with
  | None => True
  | Some tok => match sv_tokens s !! tok with None => True | Some exp => exp < now e end
  end.

(** The expired session, if any, is forgotten. *)
Definition forget_session (authorization : option string) (s : api) : api :=
  match bearer_token authorization with
  | Some tok => set_tokens (delete tok (sv_tokens s)) s
  | None => s
  end.

Lemma require_token_refuses e authorization s :
  unauthenticated e authorization s →
  require_token (now e) authorization s
  = (forget_session authorization s, raise SalesforceAuthenticationError "Session expired or invalid").
Proof.
  unfold unauthenticated, forget_session. rewrite require_token_spec. destruct (bearer_token authorization) as [tok|]; [|done].
  destruct (sv_tokens s !! tok) as [exp|] eqn:Et; intros Hu.
  - by destruct (Z.ltb_spec exp (now e)); [|lia].
  - rewrite delete_id by done. by destruct s.
Qed.

Lemma handle_refuses e authorization r s s' x :
  require_token (now e) authorization s = (s', Err x) → handle e authorization r s = (s', Err x).
Proof.
  intros Hr.
  destruct r; cbn [handle];
    unfold run_query, query_more_endpoint, describe, get_deleted, limits, create_bulk_query_job, create_bulk_ingest_job,
      upload_bulk_ingest_batch, upload_check, update_bulk_ingest_job, get_bulk_ingest_job, _bulk_ingest_results,
      get_bulk_query_job, update_bulk_query_job, get_bulk_query_results;
    repeat apply io_bind_err; exact Hr.
Qed.

(** ** What the endpoints leave alone *)

(** The session table, the knobs and the admitted times. *)
Definition front (s : api) : gmap string Z * knobs * list Z := (sv_tokens s, sv_chaos s, sv_times s).
Definition same_front (s s' : api) : Prop := front s' = front s.

Definition authenticated (e : env) (authorization : option string) (s : api) : Prop := ¬ unauthenticated e authorization s.

Lemma require_token_accepts e authorization s :
  authenticated e authorization s → require_token (now e) authorization s = (s, Ok tt).
Proof.
  unfold authenticated, unauthenticated. rewrite require_token_spec. destruct (bearer_token authorization) as [tok|]; [|by intros []].
  destruct (sv_tokens s !! tok) as [exp|] eqn:Et; [|by intros []]. intros Hu. by destruct (Z.ltb_spec exp (now e)).
Qed.

Lemma preserves_on_jobs {A} (I : api → Prop) (m : io store A) :
  (∀ s st, I s → I (set_sv_store st s)) → preserves I (on_jobs m).
Proof. intros HI s Hs. unfold on_jobs, Gateway.on_store, io_zoom. destruct (m (sv_store s)) as [st r]. by apply HI. Qed.

Lemma preserves_on_rest {A} (I : api → Prop) (m : io rest A) :
  (∀ s x, I s → I (set_inner x s)) → preserves I (on_rest m).
Proof. intros HI s Hs. unfold on_rest, io_zoom. destruct (m _) as [st r]. by apply HI. Qed.

Lemma preserves_session (I : api → Prop) e authorization :
  (∀ s, I s → authenticated e authorization s) → preserves I (require_token (now e) authorization).
Proof. intros HI s Hs. by rewrite require_token_accepts by auto. Qed.

Ltac endpoint :=
  repeat first
    [ done
    | apply preserves_session; assumption
    | apply preserves_ret | apply preserves_raise | apply preserves_get | apply preserves_lift
    | apply preserves_try | apply preserves_bind
    | apply preserves_on_jobs; intros | apply preserves_on_rest; intros
    | progress unfold modify_inner, submit, raise_if, error, bad_transition, request_json, as_object, upload_write, write_upload,
        require_disk_reserve
    | lazymatch goal with |- preserves _ (io_modify _) => apply preserves_modify; intros end
    | lazymatch goal with |- ∀ _, _ => intros ? end
    | match goal with Hk : _ = Some ?k |- preserves _ ?k => repeat case_match; simplify_eq end
    | progress cbv zeta
    | lazymatch goal with |- preserves _ (match ?x with _ => _ end) => destruct x end ].

Ltac handler :=
  unfold run_query, query_more_endpoint, describe, get_deleted, limits, create_bulk_query_job, create_bulk_ingest_job,
    upload_bulk_ingest_batch, upload_check, update_bulk_ingest_job, get_bulk_ingest_job, _bulk_ingest_results,
    get_bulk_query_job, update_bulk_query_job, get_bulk_query_results.


(** ** Uploads of jobs that are closed for uploading *)

(** An ingest job that has left [Open], other than by an abort, has its file. *)
Definition has_data (s : api) : Prop :=
  ∀ id j, st_jobs (sv_store s) !! id = Some j → job_type j = INGEST → job_state j ∉ [OPEN; ABORTED] →
    is_Some (re_uploads (sv_inner s) !! id).

Lemma has_data_ext s s' :
  st_jobs (sv_store s') = st_jobs (sv_store s) → (∀ id, is_Some (re_uploads (sv_inner s) !! id) → is_Some (re_uploads (sv_inner s') !! id)) →
  has_data s → has_data s'.
Proof. intros Hj Hu Hd id j Hid Hty Hst. apply Hu. eapply Hd; [by rewrite <- Hj|done..]. Qed.

Lemma create_data job : job_type job = QUERY ∨ job_state job = OPEN → preserves has_data (on_jobs (create_job job)).
Proof.
  intros Hjob s Hs. unfold on_jobs, Gateway.on_store, io_zoom, create_job, io_bind, io_get. destruct (st_jobs (sv_store s) !! job_id job) eqn:E; [by destruct s|].
  intros id j. cbn. intros Hid Hty Hst. destruct (decide (id = job_id job)) as [->|Hne].
  - rewrite lookup_insert_eq in Hid. injection Hid as <-. destruct Hjob as [Hq|Ho]; [congruence|]. rewrite Ho in Hst. set_solver.
  - rewrite lookup_insert_ne in Hid by done. by eapply Hs.
Qed.

(** A transition that does not close an open job, or closes one that has its file. *)
Lemma update_data id next code msg s :
  has_data s → next ≠ UPLOAD_COMPLETE ∨ is_Some (re_uploads (sv_inner s) !! id) →
  has_data (set_sv_store (update_state id next code msg (sv_store s)).1 s).
Proof.
  intros Hs Hnext. rewrite update_state_spec. destruct (st_jobs (sv_store s) !! id) as [j|] eqn:Ej; [|by destruct s].
  case_bool_decide as Ha; [|by destruct s]. intros id' j'. cbn. intros Hid Hty Hst. destruct (decide (id' = id)) as [->|Hne].
  - rewrite lookup_insert_eq in Hid. injection Hid as <-. simpl in Hty, Hst.
    destruct Hnext as [Hn|Hn]; [|done]. eapply Hs; [exact Ej|done|]. destruct (job_state j), next; simpl in *; set_solver.
  - rewrite lookup_insert_ne in Hid by done. by eapply Hs.
Qed.

Lemma transition_data t id next code msg s :
  has_data s → next ≠ UPLOAD_COMPLETE ∨ is_Some (re_uploads (sv_inner s) !! id) →
  has_data (on_jobs (transition_job t id next code msg) s).1.
Proof.
  intros Hs Hnext. pose proof (update_data id next code msg s Hs Hnext) as Hu.
  unfold on_jobs, Gateway.on_store, io_zoom, transition_job, io_bind, io_get.
  destruct (update_state id next code msg (sv_store s)) as [st [u|x]]; [|done]. by destruct (get_job t id st).
Qed.

Lemma session_data e authorization : preserves has_data (require_token (now e) authorization).
Proof.
  intros s Hs. rewrite require_token_spec. destruct (bearer_token authorization) as [tok|]; [|done].
  destruct (sv_tokens s !! tok) as [exp|]; [|done]. by destruct (exp <? now e).
Qed.

Lemma preserves_rest_data {A} (m : io rest A) : preserves has_data (on_rest m).
Proof. intros s Hs. unfold on_rest, io_zoom. destruct (m _) as [x r]. by apply (has_data_ext s). Qed.

Lemma insert_upload_some (id id' : string) (text : string) (m : gmap string string) :
  is_Some (m !! id') → is_Some (<[id := text]> m !! id').
Proof. intros. destruct (decide (id = id')) as [->|]; [by rewrite lookup_insert_eq|by rewrite lookup_insert_ne]. Qed.

Ltac endpoint_data :=
  repeat first
    [ done
    | apply session_data | apply preserves_rest_data | apply create_data; (by left) || (by right)
    | (intros ? ?; apply transition_data; [assumption|by left])
    | apply preserves_ret | apply preserves_raise | apply preserves_get | apply preserves_lift
    | apply preserves_try | apply preserves_bind
    | progress unfold modify_inner, submit, raise_if, error, bad_transition, request_json, as_object, upload_write, write_upload,
        require_disk_reserve
    | lazymatch goal with
      | |- preserves _ (io_modify _) => 
          let s := fresh in let Hs := fresh in
          apply preserves_modify; intros s Hs;
          match goal with |- has_data ?s' => apply (has_data_ext s s' eq_refl) end;
          [intros ?; first [done|exact (insert_upload_some _ _ _ _)]|exact Hs]
      end
    | lazymatch goal with |- ∀ _, _ => intros ? end
    | match goal with Hk : _ = Some ?k |- preserves _ ?k => repeat case_match; simplify_eq end
    | progress cbv zeta
    | lazymatch goal with |- preserves _ (match ?x with _ => _ end) => destruct x end ].

Lemma upload_write_data id chunks : preserves has_data (upload_write id chunks).
Proof. endpoint_data. Qed.

Lemma update_ingest_data e id text authorization : preserves has_data (update_bulk_ingest_job e id text authorization).
Proof.
  unfold update_bulk_ingest_job.
  apply preserves_bind; [apply session_data|intros _]. apply preserves_bind; [endpoint_data|intros j].
  apply preserves_bind; [endpoint_data|intros body]. cbv zeta. intros s Hs. rewrite (io_bind_run io_get _ _ _ _ eq_refl).
  destruct (ingest_job e id s); [|done].
  assert (∀ next, next ≠ UPLOAD_COMPLETE ∨ is_Some (re_uploads (sv_inner s) !! id) → has_data
    (io_try (let* j := on_jobs (transition_job (store_now e) id next None None) in
             let* _ := if bool_decide (job_state j = UPLOAD_COMPLETE) then submit (job_id j) else io_ret tt in
             io_ret (_bulk_ingest_job_response j))
       (λ x, if decide (exn_cls x = InvalidJobTransition) then Some bad_transition else None) s).1) as Hgo.
  { intros next Hnext. unfold io_try, io_bind at 1. pose proof (transition_data (store_now e) id next None None s Hs Hnext) as Ht.
    destruct (on_jobs _ s) as [s1 [j'|x]]; simpl in Ht.
    - assert (preserves has_data (let* _ := if bool_decide (job_state j' = UPLOAD_COMPLETE) then submit (job_id j') else io_ret tt in
                                  io_ret (_bulk_ingest_job_response j'))) as Hp by endpoint_data.
      specialize (Hp s1 Ht). destruct (io_bind _ _ s1) as [s2 [r|x]]; simpl in *; [done|]. by case_decide.
    - by case_decide. }
  destruct (json_is _ _); [|destruct (json_is _ _); [apply Hgo; by left|done]].
  destruct (re_uploads (sv_inner s) !! id) eqn:Eu; [|done]. apply Hgo. by right.
Qed.

Lemma respond_data e authorization r : preserves has_data (respond e authorization r).
Proof.
  unfold respond. apply preserves_try.
  - destruct r; cbn [handle]; [..|apply update_ingest_data|idtac|idtac|idtac|idtac|idtac]; handler; endpoint_data.
  - intros x k. unfold handled. case_match; intros [= <-]; endpoint_data.
Qed.

(** What happens to the server: a request, the end of an upload that other requests ran into, the
    front's own work, a worker's report, a restart that may be interrupted. *)
Inductive api_step : api → api → Prop :=
| step_request e authorization r s : api_step s (respond e authorization r s).1
| step_upload id chunks s : api_step s (upload_write id chunks s).1
| step_front s s' : st_jobs (sv_store s') = st_jobs (sv_store s) → sv_inner s' = sv_inner s → api_step s s'
| step_worker id next code msg s : next ∈ [IN_PROGRESS; JOB_COMPLETE; FAILED] →
    api_step s (set_sv_store (update_state id next code msg (sv_store s)).1 s)
| step_restart now removed s : api_step s (recover_interrupted now removed s).1.

Lemma foldr_delete_none {A} (ids : list string) (m : gmap string A) id :
  id ∉ ids → foldr delete m ids !! id = m !! id.
Proof.
  induction ids as [|i ids IH]; intros Hid; [done|]. cbn [foldr]. apply not_elem_of_cons in Hid as [? ?].
  rewrite lookup_delete_ne by done. by apply IH.
Qed.

Lemma restart_data t removed : preserves has_data (recover_interrupted t removed).
Proof.
  intros s Hs. unfold recover_interrupted, io_bind, on_jobs, Gateway.on_store, io_zoom.
  destruct (expire_jobs t (sv_store s)) as [st [ids|x]] eqn:E; [|exfalso; by cbn in E].
  pose proof (expire_jobs_spec _ _ _ _ E) as (_ & Hjobs & _). intros id j. cbn. rewrite Hjobs. case_bool_decide as Hin; [done|].
  intros Hid Hty Hst. rewrite foldr_delete_none; [by eapply Hs|]. intros Ht. apply Hin. apply elem_of_take in Ht as (i & Hi & _).
  by eapply list_elem_of_lookup_2.
Qed.


(** ** Findings *)

(** The state is checked before the upload is received. A client that closes the job while a second
    upload is still on its way sees it accepted although the job is closed, and the file changes
    under the worker. *)
Theorem upload_after_close e authorization s id j text old chunks new :
  authenticated e authorization s → ingest_job e id s = Some j → st_jobs (sv_store s) !! id = Some j → job_state j = OPEN →
  expires_at j = None → json_loads text = inl (JObj [("state", JStr "UploadComplete")]) →
  re_uploads (sv_inner s) !! id = Some old → reserve_bytes ≤ re_free (sv_inner s) → collect 0 chunks = Some new →
  ∃ s1 s2 r, upload_check e id authorization s = (s, Ok None) ∧
    respond e authorization (UpdateIngestJob id text) s = (s1, Ok r) ∧ h_status r = 200 ∧
    upload_write id chunks s1 = (s2, Ok (mkHttp 201 [] (Content CEmpty))) ∧
    job_state <$> st_jobs (sv_store s2) !! id = Some UPLOAD_COMPLETE ∧ re_uploads (sv_inner s2) !! id = Some new.
Proof.
  intros Ha Hj Hid Hst Hexp Hjson Hold Hfree Hnew. pose proof (require_token_accepts _ _ _ Ha) as Hr.
  set (s1 := set_inner (set_submitted (re_submitted (sv_inner s) ++ [job_id j]) (sv_inner s))
               (set_sv_store (set_jobs (<[id := with_state UPLOAD_COMPLETE None None j]> (st_jobs (sv_store s))) (sv_store s)) s)).
  exists s1, (set_inner (set_uploads (<[id := new]> (re_uploads (sv_inner s1))) (sv_inner s1)) s1),
    (_bulk_ingest_job_response (read_back (with_state UPLOAD_COMPLETE None None j))).
  split_and!.
  - unfold upload_check. rewrite (io_bind_run _ _ _ _ _ Hr), (io_bind_run io_get _ _ _ _ eq_refl), Hj, Hst.
    cbn [bool_decide negb decide]. unfold require_disk_reserve, io_bind, io_get, raise_if.
    rewrite bool_decide_eq_true_2 by done. cbn [negb]. destruct (Z.ltb_spec (re_free (sv_inner s) - 0) reserve_bytes); [lia|done].
  - unfold respond, io_try, handle, update_bulk_ingest_job.
    rewrite (io_bind_run _ _ _ _ _ Hr). unfold request_json. rewrite Hjson. unfold io_bind at 1, io_ret at 1.
    unfold io_bind at 1, as_object, io_ret at 1. unfold io_bind at 1, io_get at 1. cbv zeta. rewrite Hj.
    change (json_is (state_text UPLOAD_COMPLETE) (jget "state" [("state", JStr "UploadComplete")] JNull)) with true.
    cbv iota. rewrite Hold. unfold io_try, io_bind, on_jobs, Gateway.on_store, io_zoom.
    rewrite (transition_ok _ _ _ _ j); [|done|by unfold unexpired; rewrite Hexp|rewrite Hst; simpl; set_solver].
    reflexivity.
  - reflexivity.
  - unfold upload_write, io_try, write_upload, io_bind. by rewrite Hnew.
  - cbn. by rewrite lookup_insert_eq.
  - cbn. by rewrite lookup_insert_eq.
Qed.

(** [update_bulk_query_job] does not look at the type of the job: the query resource aborts ingest jobs. *)
Theorem query_resource_aborts_ingest_job e authorization s id j text :
  authenticated e authorization s → st_jobs (sv_store s) !! id = Some j → job_type j = INGEST →
  unexpired (store_now e) j = true → job_state j = IN_PROGRESS →
  json_loads text = inl (JObj [("state", JStr "Aborted")]) →
  ∃ s' r, respond e authorization (UpdateQueryJob id text) s = (s', Ok r) ∧ h_status r = 200 ∧
    job_state <$> st_jobs (sv_store s') !! id = Some ABORTED ∧ respond e authorization (GetQueryJob id) s' = (s', Ok not_found).
Proof.
  intros Ha Hid Hty Hu Hst Hjson. pose proof (require_token_accepts _ _ _ Ha) as Hr.
  set (s1 := set_sv_store (set_jobs (<[id := with_state ABORTED None None j]> (st_jobs (sv_store s))) (sv_store s)) s).
  exists s1, (_bulk_query_job_response (read_back (with_state ABORTED None None j))). split_and!.
  - unfold respond, io_try, handle, update_bulk_query_job.
    rewrite (io_bind_run _ _ _ _ _ Hr). unfold request_json. rewrite Hjson. unfold io_bind at 1, io_ret at 1.
    unfold io_bind at 1, as_object, io_ret at 1.
    change (json_is (state_text ABORTED) (jget "state" [("state", JStr "Aborted")] JNull)) with true. cbn [negb].
    unfold io_try, io_bind, on_jobs, Gateway.on_store, io_zoom.
    rewrite (transition_ok _ _ _ _ j); [done|done|done|rewrite Hst; simpl; set_solver].
  - reflexivity.
  - cbn. by rewrite lookup_insert_eq.
  - unfold respond, io_try, handle, get_bulk_query_job.
    assert (require_token (now e) authorization s1 = (s1, Ok tt)) as Hr1 by (by apply require_token_accepts).
    rewrite (io_bind_run _ _ _ _ _ Hr1), (io_bind_run io_get _ _ _ _ eq_refl). unfold query_job, get_job. cbn.
    rewrite lookup_insert_eq. unfold unexpired in *. cbn. rewrite Hu. cbn. by rewrite Hty.
Qed.

(** ** Deleted records *)

Definition date_field_of (spec : DatasetSpec) : string :=
  if bool_decide ("LastModifiedDate" ∈ (spec_schema spec).*1) then "LastModifiedDate" else id_field spec.

(** [getDeleted] reports exactly the records deleted in the window. When it answers 200 the two
    bounds are timestamps at most 30 days apart and in order; the records are the ids and dates of
    the soft-deleted rows whose date, as a UTC timestamp, lies between the bounds in UTC, bounds
    included, and of no other row; an object without soft deletion has none. *)
Theorem deleted_window e obj start_ end_ authorization s s' records a b :
  get_deleted e obj start_ end_ authorization s = (s', Ok (ok_content (CDeleted records a b))) →
  ∃ spec b1 b2, get catalog obj = Some spec ∧ a = start_ ∧ b = end_ ∧
    _parse_window_bound start_ = Some b1 ∧ _parse_window_bound end_ = Some b2 ∧
    instant b1 ≤ instant b2 ≤ instant b1 + thirty_days ∧
    (soft_delete_field spec = None → records = []) ∧
    ∀ f, soft_delete_field spec = Some f → ∀ id at_, (id, at_) ∈ records ↔
      ∃ row flag t, row ∈ relation_rows spec ∧ aget f row = Some flag ∧ truthy flag = true ∧
        aget (id_field spec) row = Some id ∧ aget (date_field_of spec) row = Some at_ ∧
        cast_timestamp at_ = Ok (Some t) ∧ instant b1 ≤ t ≤ instant b2.
Proof.
  unfold get_deleted. intros Hd. apply io_bind_ok in Hd as (s1 & u & _ & Hd).
  destruct (get catalog obj) as [spec|]; [|discriminate Hd]. destruct (_ || _); [discriminate Hd|].
  destruct (_parse_window_bound start_) as [b1|]; [|discriminate Hd]. destruct (_parse_window_bound end_) as [b2|]; [|discriminate Hd].
  destruct (Z.ltb_spec (instant b2) (instant b1)); [discriminate Hd|].
  destruct (Z.ltb_spec thirty_days (instant b2 - instant b1)); [discriminate Hd|].
  apply io_bind_ok in Hd as (s2 & l & Hl & [= -> -> <- <-]). exists spec, b1, b2.
  destruct (soft_delete_field spec) as [f|]; [|injection Hl as _ <-; split_and!; try done; lia].
  split_and!; try done; try lia. intros f' [= <-] id at_. cbv zeta in Hl. fold (date_field_of spec) in Hl.
  io_inv. unfold utc_naive in *. repeat case_match; simplify_eq.
  match goal with Ho : res_omap _ _ = Ok _ |- _ => apply res_omap_ok in Ho as [Ho _]; rewrite Ho; clear Ho end.
  split; intros (row & Hrow).
  - destruct Hrow as [Hin Hrow]. exists row. unfold deleted_row in Hrow.
    destruct (aget f row) as [flag|]; [|done]. destruct (aget (id_field spec) row) as [i|]; [|done].
    destruct (aget (date_field_of spec) row) as [d|]; [|done]. destruct (truthy flag) eqn:Et; [|done].
    apply res_bind_ok in Hrow as ([t|] & Hc & Hrow); [|done]. destruct ((instant b1 <=? t) && (t <=? instant b2)) eqn:Ew; [|done]. injection Hrow as -> ->.
    apply andb_true_iff in Ew as [E1 E2]. apply Z.leb_le in E1, E2. exists flag, t. done.
  - destruct Hrow as (flag & t & Hin & Hf & Ht & Hi & Hda & Hc & Hw1 & Hw2). exists row. split; [done|].
    unfold deleted_row. rewrite Hf, Hi, Hda, Ht, Hc. cbn [res_bind].
    rewrite (proj2 (Z.leb_le _ _) Hw1), (proj2 (Z.leb_le _ _) Hw2). done.
Qed.

(** ** A bulk query from request to results *)

Lemma get_job_live t id j st : st_jobs st !! id = Some j → unexpired t j = true → get_job t id st = Some (read_back j).
Proof. intros Hj Hu. unfold get_job. by rewrite Hj, Hu. Qed.

(** The server after the worker has run on the job [id]. *)
Definition after_worker (id : string) (st : store) (o : bulk_output) (s : api) : api :=
  set_inner (set_outputs (<[id := o]> (re_outputs (sv_inner s))) (sv_inner s)) (set_sv_store st s).

(** The answer to a request for at most [n] rows from [offset] on. *)
Definition window_reply (rows : list R) (offset n : Z) : reply :=
  let count := Z.min n (Z.of_nat (length rows) - offset) in
  mkHttp 200 (("Sforce-NumberOfRecords", str_of_Z count)
              :: (if offset + count <? Z.of_nat (length rows) then [("Sforce-Locator", "r:" +:+ str_of_Z (offset + count))] else []))
    (Content (CRows (take (Z.to_nat count) (drop (Z.to_nat offset) rows)))).

End Endpoints.

(** ** A server with one object, one session and a clock *)

Definition witness_json (text : string) : json + string :=
  if String.eqb text "query" then inl (JObj [("query", JStr "select Name from account")])
  else if String.eqb text "ingest" then inl (JObj [("object", JStr "Account")]) else inr "Expecting value".
Definition witness_header (text : string) : option (list string) := Some ["Id"].
Definition witness_time (text : string) : option (Z * option Z) :=
  if String.eqb text "2026-01-01" then Some (738887 * us_per_day, None)
  else if String.eqb text "2026-01-02T00:00:00+00:00" then Some (738888 * us_per_day, Some 0) else None.
Definition witness_date (text : string) : option date := None.
Definition witness_contact : DatasetSpec :=
  mkSpec "Contact" [] "Id" (Some "IsDeleted") "read_only"
    [("Id", TString); ("IsDeleted", TBool); ("LastModifiedDate", TString)] [] None [] None true true [].
Definition witness_objects : DatasetCatalog :=
  mkCatalog [("Account", witness_spec); ("Contact", witness_contact)] [("account", witness_spec); ("contact", witness_contact)].
Definition witness_contact_row (id deleted date : string) : list (string * string) :=
  [("Id", id); ("IsDeleted", deleted); ("LastModifiedDate", date)].
Definition witness_relation (spec : DatasetSpec) : list (list (string * string)) :=
  [witness_contact_row "003A" "true" "noon"; witness_contact_row "003B" "false" "noon"; witness_contact_row "003C" "true" "later"].
Definition witness_truthy (v : string) : bool := String.eqb v "true".
Definition witness_cast (v : string) : res (option Z) :=
  Ok (Some (if String.eqb v "noon" then 738887 * us_per_day + us_per_day / 2 else 738890 * us_per_day)).

Abbreviation witness_respond :=
  (respond id "v60.0" witness_objects "/cursors" (R:=Z) witness_json witness_header witness_time witness_date
     witness_relation witness_truthy witness_cast 168 1000 10).

Definition witness_env (now store_now : Z) : env := mkEnv now store_now "abc" 738888 "snap".
Definition witness_api : server (resources (V:=string) (R:=Z)) :=
  mkServer witness_knobs [] {["tok" := 500]} empty_store (mkResources (mkRest ∅ ∅) ∅ ∅ [] 100).


Definition witness_ingest_api : server (resources (V:=string) (R:=Z)) :=
  (witness_respond (witness_env 400 1) (Some "Bearer tok") (CreateIngestJob "ingest") witness_api).1.


Definition witness_deleted : io (server (resources (V:=string) (R:=Z))) (http (content (V:=string) (R:=Z))) :=
  get_deleted witness_objects witness_time witness_relation witness_truthy witness_cast (witness_env 400 1) "contact" "2026-01-01"
    "2026-01-02T00:00:00Z" (Some "Bearer tok").

Lemma deleted_window_witness :
  ("003A", "noon") ∈ [("003A", "noon")] ↔
  ∃ row flag t, row ∈ witness_relation witness_contact ∧ aget "IsDeleted" row = Some flag ∧ witness_truthy flag = true ∧
    aget "Id" row = Some "003A" ∧ aget "LastModifiedDate" row = Some "noon" ∧ witness_cast "noon" = Ok (Some t) ∧
    738887 * us_per_day ≤ t ≤ 738888 * us_per_day.
Proof.
  destruct (deleted_window witness_objects witness_time witness_relation witness_truthy witness_cast (witness_env 400 1) "contact"
    "2026-01-01" "2026-01-02T00:00:00Z" (Some "Bearer tok") witness_api witness_api [("003A", "noon")] "2026-01-01" "2026-01-02T00:00:00Z")
    as (spec & b1 & b2 & Hg & _ & _ & H1 & H2 & _ & _ & Hrec).
  - vm_compute. reflexivity.
  - assert (spec = witness_contact) as -> by (vm_compute in Hg; injection Hg as <-; reflexivity).
    assert (b1 = (738887 * us_per_day, 0)) as -> by (vm_compute in H1; injection H1 as <-; reflexivity).
    assert (b2 = (738888 * us_per_day, 0)) as -> by (vm_compute in H2; injection H2 as <-; reflexivity).
    rewrite (Hrec "IsDeleted" eq_refl). unfold instant. cbn [fst snd]. rewrite !Z.sub_0_r. reflexivity.
Defined.

