(* ===== verification/Load.v ===== *)
(** * The one-time load: [generator/load.py]

    Finding a seed file, streaming it through [COPY], deriving the audit columns an old seed lacks,
    and loading the source systems, each in a transaction of its own after its migrations. What
    PostgreSQL makes of the text of a [COPY] and the constraints of the tables are parameters. *)

From stdpp Require Import prelude gmap strings list.
From Stdlib Require Import ZArith Lia Ascii.
From S2P Require Import Prelude PyText Dates Events Soql OpsApply Migrate AuditBackfill.

Open Scope Z_scope.

Definition OPS_TABLES : list (string * string) :=
  [("ops.customers", "ops_customers"); ("ops.products", "ops_products"); ("ops.warehouses", "ops_warehouses");
   ("ops.carriers", "ops_carriers"); ("ops.orders", "ops_orders"); ("ops.order_lines", "ops_order_lines");
   ("ops.shipments", "ops_shipments"); ("ops.support_cases", "ops_support_cases")].
Definition ERP_TABLES : list (string * string) :=
  [("erp.companies", "erp_companies"); ("erp.cost_centers", "erp_cost_centers");
   ("erp.gl_accounts", "erp_gl_accounts"); ("erp.fx_rates", "erp_fx_rates");
   ("erp.revenue_postings", "erp_revenue_postings")].

Inductive system := ops | erp.

#[export] Instance system_eq_dec : EqDecision system.
Proof. solve_decision. Defined.

Definition system_name (y : system) : string := match y with ops => "ops" | erp => "erp" end.
Definition SYSTEMS (y : system) : list (string * string) := match y with ops => OPS_TABLES | erp => ERP_TABLES end.

(** The expressions of the audit columns an old seed does not have, by table. *)
Definition LEGACY_AUDIT_EXPRESSIONS : list (string * list (string * expr)) :=
  [("ops.products", [("created_at", DateAt (Col "launch_date") 2)]);
   ("ops.warehouses", [("created_at", opening_day); ("updated_at", opening_day)]);
   ("ops.carriers", [("created_at", opening_day); ("updated_at", opening_day)]);
   ("ops.order_lines", [("created_at", Col "updated_at")]);
   ("ops.shipments", [("created_at", DateAt (Col "ship_date") 8);
      ("updated_at", DateAt (Coalesce (Col "delivered_date") (Col "ship_date")) 17)]);
   ("ops.invoices", [("updated_at", Col "created_at")]);
   ("ops.support_cases", [("created_at", Col "opened_at");
      ("updated_at", PlusHours (Col "opened_at") "resolution_hours")]);
   ("erp.companies", [("created_at", opening_day); ("updated_at", opening_day)]);
   ("erp.cost_centers", [("created_at", DateAt (Col "valid_from") 8);
      ("updated_at", DateAt (Coalesce (Col "valid_to") (Col "valid_from")) 17)]);
   ("erp.gl_accounts", [("created_at", opening_day); ("updated_at", opening_day)]);
   ("erp.fx_rates", [("created_at", Col "loaded_at"); ("updated_at", Col "loaded_at")]);
   ("erp.revenue_postings", [("created_at", Col "posted_at")])].

Definition expressions (table : string) : list (string * expr) := default [] (aget table LEGACY_AUDIT_EXPRESSIONS).

(** The columns a statement reads. *)
Fixpoint columns_of (e : expr) : list string :=
  match e with
  | Col c => [c]
  | DateAt a _ => columns_of a
  | Stamp _ => []
  | Coalesce a b => columns_of a ++ columns_of b
  | CaseNull c a b => c :: columns_of a ++ columns_of b
  | PlusHours a c => columns_of a ++ [c]
  end.

(** ** Seed files *)

(** A text file, as its decoded text with [\n] line ends; or the column names of a parquet file and
    its batches, each with its number of rows and the CSV text Arrow writes for it. *)
Inductive seed_file :=
| CsvFile (text : string)
| ParquetFile (names : list string) (batches : list (Z * string)).

Abbreviation seed_dir := (gmap string seed_file) (only parsing).

(** [find_seed]: the file name. *)
Definition find_seed (seed : seed_dir) (stem : string) : res string :=
  let exists_ p := bool_decide (is_Some (seed !! p)) in
  if exists_ (stem +:+ ".csv.gz") then Ok (stem +:+ ".csv.gz")
  else if exists_ (stem +:+ ".csv") then Ok (stem +:+ ".csv")
  else if exists_ (stem +:+ ".parquet") then Ok (stem +:+ ".parquet")
  else raise FileNotFoundError ("No seed file for " +:+ stem).

Definition newline : ascii := chr 10.

(** [readline]: the line with its end, and what follows. *)
Fixpoint readline (l : list ascii) : list ascii * list ascii :=
  match l with
  | [] => ([], [])
  | c :: l => if bool_decide (c = newline) then ([c], l) else let '(a, b) := readline l in (c :: a, b)
  end.

(** [.rstrip("\r\n")] *)
Definition rstrip_line (l : list ascii) : list ascii :=
  rev (drop_while (λ c, bool_decide (c = newline) || bool_decide (c = chr 13)) (rev l)).

(** [.split(",")] *)
Fixpoint split_comma (acc : list ascii) (l : list ascii) : list string :=
  match l with
  | [] => [str (rev acc)]
  | c :: l => if bool_decide (c = ","%char) then str (rev acc) :: split_comma [] l else split_comma (c :: acc) l
  end.

Definition header_columns (text : string) : list string := split_comma [] (rstrip_line (readline (chars text)).1).

(** [fh.read(n)] *)
Fixpoint read_chars (n : Z) (l : list ascii) : list ascii * list ascii :=
  match l with
  | [] => ([], [])
  | c :: l' => if n <=? 0 then ([], l) else let '(a, b) := read_chars (n - 1) l' in (c :: a, b)
  end.

Definition chunk_size : Z := Z.shiftl 1 22.

Definition count_lines (l : list ascii) : Z := Z.of_nat (length (filter (λ c, c = newline) l)).

(** The [while] loop of [copy_csv]: the rows counted and the text written to the [COPY]. *)
Fixpoint copy_loop (fuel : nat) (l : list ascii) (n : Z) (written : list ascii) : Z * list ascii :=
  match fuel with
  | O => (n, written)
  | S fuel =>
    match read_chars chunk_size l with
    | ([], _) => (n, written)
    | (chunk, rest) => copy_loop fuel rest (n + count_lines chunk) (written ++ chunk)
    end
  end.

(** [copy_csv]: the columns, the rows counted and the text that reaches [COPY]. With columns given
    the header line is skipped, without it gives them. *)
Definition copy_csv (text : string) (cols : list string) : list string * Z * string :=
  let '(line, body) := readline (chars text) in
  let cols := match cols with [] => split_comma [] (rstrip_line line) | _ => cols end in
  let '(n, written) := copy_loop (S (length body)) body 0 [] in
  (cols, n, str written).

Definition copy_parquet (names : list string) (batches : list (Z * string)) (cols : list string)
    : list string * Z * string :=
  let cols := match cols with [] => names | _ => cols end in
  let '(n, written) := foldl (λ a b, (a.1 + b.1, a.2 +:+ b.2)) (0, "") batches in
  (cols, n, written).

(** The library readers refuse a file that is not of the kind its suffix says. *)
Definition open_seed (path : string) (f : seed_file) : res unit :=
  match f, ends_with ".parquet" path with
  | ParquetFile _ _, true | CsvFile _, false => Ok tt
  | ParquetFile _ _, false => raise ValueError "the seed file is not text"
  | CsvFile _, true => raise ValueError "the seed file is not parquet"
  end.

(** [copy_parquet(...) if path.suffix == ".parquet" else copy_csv(...)] *)
Definition copy_file (path : string) (f : seed_file) (cols : list string) : res (list string * Z * string) :=
  let! _ := open_seed path f in
  Ok (match f with
      | ParquetFile names batches => copy_parquet names batches cols
      | CsvFile text => copy_csv text cols
      end).

(** The header that [copy_table] reads. *)
Definition seed_columns (f : seed_file) : list string :=
  match f with CsvFile text => header_columns text | ParquetFile names _ => names end.

(** ** Loading *)

(** The columns of the tables, in order, and their rows. *)
Record pg := mkPg { pg_columns : gmap string (list string); pg_rows : gmap string (list row) }.

Definition rows_of (table : string) (db : pg) : list row := default [] (pg_rows db !! table).
Definition _target_columns (table : string) (db : pg) : list string := default [] (pg_columns db !! table).

(** The value the [SELECT] over the staging table gives a column. *)
Definition select_column (table : string) (seed_cols : list string) (r : row) (column : string) : option sqlval :=
  if bool_decide (column ∈ seed_cols) then r !! column
  else match aget column (expressions table) with Some e => eval e r | None => None end.

Definition select_row (table : string) (target_cols seed_cols : list string) (r : row) : row :=
  foldr (λ c acc, match select_column table seed_cols r c with Some v => <[c := v]> acc | None => delete c acc end)
    ∅ target_cols.

Section Load.
(** [copy_in table columns text]: the rows PostgreSQL reads from the text, in the types of the
    table's columns; [satisfies table rows db]: the constraints of the table accept the rows. *)
Context (copy_in : string → list string → string → res (list row))
        (satisfies : string → list row → pg → bool).

Definition insert_rows (table : string) (rows : list row) : io pg unit :=
  let* db := io_get in
  let* _ := raise_if (negb (satisfies table rows db)) IntegrityError table in
  io_modify (λ db, mkPg (pg_columns db) (<[table := rows_of table db ++ rows]> (pg_rows db))).

(** The column list of a [COPY] or of a staging table: known columns, each once. *)
Definition column_list_ok (table : string) (cols : list string) (db : pg) : bool :=
  bool_decide (cols ≠ [] ∧ NoDup cols ∧ cols ⊆ _target_columns table db).

(** A [COPY] of a file into a table with the columns of [table]. *)
Definition copy_rows (table path : string) (f : seed_file) (cols : list string) : io pg (Z * list row) :=
  let* db := io_get in
  let* c := io_lift (copy_file path f cols) in
  let* _ := raise_if (negb (column_list_ok table c.1.1 db)) DataError table in
  let* rows := io_lift (copy_in table c.1.1 c.2) in
  io_ret (c.1.2, rows).

Definition _copy_legacy_seed (table path : string) (f : seed_file) (seed_cols : list string) : io pg Z :=
  let* db := io_get in
  let target_columns := _target_columns table db in
  let missing := filter (λ c, c ∉ seed_cols) target_columns in
  let unsupported := filter (λ c, aget c (expressions table) = None) missing in
  let* _ := raise_if (bool_decide (unsupported ≠ [])) ValueError
              ("seed " +:+ path +:+ " is missing required columns for " +:+ table +:+ ": ["
               +:+ join ", " (py_repr <$> sort_on id unsupported) +:+ "]") in
  if bool_decide (missing = []) then
    let* nr := copy_rows table path f seed_cols in
    let* _ := insert_rows table nr.2 in
    io_ret nr.1
  else
    (* the columns of the staging table are those of [seed_cols], selected from the table *)
    let* _ := raise_if (negb (column_list_ok table seed_cols db)) DataError table in
    let* nr := copy_rows table path f seed_cols in
    let read := missing ≫= λ c, match aget c (expressions table) with Some e => columns_of e | None => [] end in
    let* _ := raise_if (bool_decide (¬ read ⊆ seed_cols)) DataError table in
    let* _ := insert_rows table (select_row table target_columns seed_cols <$> nr.2) in
    io_ret nr.1.

Definition copy_table (seed : seed_dir) (table stem : string) : io pg Z :=
  let* path := io_lift (find_seed seed stem) in
  match seed !! path with
  | None => io_raise FileNotFoundError path
  | Some f =>
    let* columns := io_lift (let! _ := open_seed path f in Ok (seed_columns f)) in
    _copy_legacy_seed table path f columns
  end.

(** ** Streaming *)

Lemma readline_app l : (readline l).1 ++ (readline l).2 = l.
Proof. induction l as [|c l IH]; simpl; [done|]. case_bool_decide; [done|]. destruct (readline l). simpl in *. by rewrite IH. Qed.

Lemma read_chars_app n l : (read_chars n l).1 ++ (read_chars n l).2 = l.
Proof.
  revert n. induction l as [|c l IH]; intros n; simpl; [done|]. case_match; [done|].
  specialize (IH (n - 1)). destruct (read_chars (n - 1) l). simpl in *. by rewrite IH.
Qed.

Lemma read_chars_nil n l : 0 < n → (read_chars n l).1 = [] → l = [].
Proof.
  intros Hn. destruct l as [|c l]; simpl; [done|]. destruct (Z.leb_spec n 0); [lia|]. by destruct (read_chars (n - 1) l).
Qed.

Lemma count_lines_app a b : count_lines (a ++ b) = count_lines a + count_lines b.
Proof. unfold count_lines. rewrite filter_app, length_app. lia. Qed.

(** Reading in chunks gives the whole text and counts all its line ends. *)
Lemma copy_loop_all fuel : ∀ l n w, (length l < fuel)%nat → copy_loop fuel l n w = (n + count_lines l, w ++ l).
Proof.
  induction fuel as [|fuel IH]; intros l n w Hf; [lia|]. cbn [copy_loop].
  pose proof (read_chars_app chunk_size l) as Ha. pose proof (read_chars_nil chunk_size l) as Hn.
  destruct (read_chars chunk_size l) as [[|c chunk] rest]; simpl in Ha, Hn.
  - rewrite (Hn ltac:(done) eq_refl). unfold count_lines. simpl. rewrite app_nil_r. f_equal. lia.
  - subst l. change (c :: chunk ++ rest) with ((c :: chunk) ++ rest) in *.
    rewrite IH; [|rewrite length_app in Hf; simpl in Hf; lia].
    rewrite (count_lines_app (c :: chunk)), <- app_assoc. f_equal. lia.
Qed.

(** What a seed file holds after its header, and the rows that are counted. *)
Definition file_body (f : seed_file) : string :=
  match f with
  | CsvFile text => str (readline (chars text)).2
  | ParquetFile _ batches => foldr (λ b s, b.2 +:+ s) "" batches
  end.
Definition file_count (f : seed_file) : Z :=
  match f with
  | CsvFile text => count_lines (readline (chars text)).2
  | ParquetFile _ batches => foldr (λ b n, b.1 + n) 0 batches
  end.

Lemma copy_parquet_fold batches : ∀ n w,
  foldl (λ (a b : Z * string), (a.1 + b.1, a.2 +:+ b.2)) (n, w) batches
  = (n + foldr (λ b n, b.1 + n) 0 batches, w +:+ foldr (λ b s, b.2 +:+ s) "" batches).
Proof.
  induction batches as [|b bs IH]; intros n w; simpl; [by rewrite Z.add_0_r, string_app_nil_r|].
  rewrite IH, string_app_assoc. f_equal. lia.
Qed.

Lemma header_columns_nonempty text : header_columns text ≠ [].
Proof.
  unfold header_columns. generalize (@nil ascii) as acc. induction (rstrip_line _) as [|c l IH]; intros acc; simpl; [done|].
  by case_bool_decide; [|apply IH].
Qed.

Lemma copy_file_ok path f c :
  copy_file path f (seed_columns f) = Ok c → c = (seed_columns f, file_count f, file_body f).
Proof.
  unfold copy_file. intros H. apply res_bind_ok in H as (_ & _ & [= <-]). destruct f as [text|names batches]; simpl.
  - pose proof (header_columns_nonempty text) as Hne. unfold copy_csv.
    destruct (readline (chars text)) as [line body]. rewrite copy_loop_all by lia. by destruct (header_columns text).
  - unfold copy_parquet. rewrite copy_parquet_fold. by destruct names.
Qed.

(** ** The rows a load leaves *)

Lemma foldr_columns (f : string → option sqlval) l : ∀ c,
  foldr (λ c acc, match f c with Some v => <[c := v]> acc | None => delete c acc end) (∅ : row) l !! c
  = if bool_decide (c ∈ l) then f c else None.
Proof.
  induction l as [|x l IH]; intros c; cbn [foldr]; [done|].
  destruct (decide (c = x)) as [->|Hc].
  - rewrite bool_decide_true by set_solver. destruct (f x); [by rewrite lookup_insert_eq|by rewrite lookup_delete_eq].
  - assert (bool_decide (c ∈ x :: l) = bool_decide (c ∈ l)) as ->.
    { apply bool_decide_ext. set_solver. }
    destruct (f x); [by rewrite lookup_insert_ne by done|by rewrite lookup_delete_ne by done].
Qed.

Lemma select_row_lookup table target seed_cols r c :
  select_row table target seed_cols r !! c = if bool_decide (c ∈ target) then select_column table seed_cols r c else None.
Proof. apply foldr_columns. Qed.

(** With every column in the file a row is taken over as it is. *)
Lemma select_row_all table target seed_cols r :
  (∀ c, is_Some (r !! c) → c ∈ seed_cols) → seed_cols ⊆ target → (∀ c, c ∈ target → c ∈ seed_cols) →
  select_row table target seed_cols r = r.
Proof.
  intros Hr Hs Ht. apply map_eq. intros c. rewrite select_row_lookup. unfold select_column.
  destruct (decide (c ∈ target)) as [Hc|Hc].
  - by rewrite (bool_decide_true (c ∈ target)), bool_decide_true by auto.
  - rewrite bool_decide_false by done. destruct (r !! c) eqn:E; [|done]. exfalso. apply Hc, Hs, Hr. by rewrite E.
Qed.

(** [COPY] fills only the columns it names. *)
Context (copy_in_columns : ∀ table cols text rows, copy_in table cols text = Ok rows →
  ∀ r c, r ∈ rows → is_Some (r !! c) → c ∈ cols).

Lemma copy_rows_ok table path f db db' n rows :
  copy_rows table path f (seed_columns f) db = (db', Ok (n, rows)) →
  db' = db ∧ n = file_count f ∧ column_list_ok table (seed_columns f) db = true ∧
  copy_in table (seed_columns f) (file_body f) = Ok rows.
Proof.
  unfold copy_rows. intros H. io_inv. apply copy_file_ok in Hm0 as ->. cbn [fst snd] in *.
  apply negb_false_iff in Hm1. injection H as -> ->. by subst.
Qed.

Lemma insert_rows_ok table rows db db' u :
  insert_rows table rows db = (db', Ok u) →
  satisfies table rows db = true ∧ db' = mkPg (pg_columns db) (<[table := rows_of table db ++ rows]> (pg_rows db)).
Proof. unfold insert_rows. intros H. io_inv. by apply negb_false_iff in Hm0. Qed.

(** A table that loads gets one row per row of the file: the supplied columns as they are, the
    missing ones by their expression. *)
Lemma copy_table_ok seed table stem db db' n :
  copy_table seed table stem db = (db', Ok n) →
  ∃ path f rows, find_seed seed stem = Ok path ∧ seed !! path = Some f ∧ n = file_count f ∧
    copy_in table (seed_columns f) (file_body f) = Ok rows ∧
    seed_columns f ⊆ _target_columns table db ∧
    (∀ c, c ∈ _target_columns table db → c ∈ seed_columns f ∨ is_Some (aget c (expressions table))) ∧
    let new := select_row table (_target_columns table db) (seed_columns f) <$> rows in
    satisfies table new db = true ∧
    db' = mkPg (pg_columns db) (<[table := rows_of table db ++ new]> (pg_rows db)).
Proof.
  unfold copy_table. intros H. inv_ok H. apply io_lift_ok in Hm as [-> Hfind]. exists a.
  destruct (seed !! a) as [f|] eqn:Hf; [|done]. exists f. inv_ok H. apply io_lift_ok in Hm as [-> Hcols].
  inv_ok Hcols. injection Hcols as <-. clear Hm.
  unfold _copy_legacy_seed in H. inv_ok H. apply io_get_ok in Hm as [-> ->]. cbv zeta in H.
  inv_ok H. apply raise_if_ok in Hm as [-> Hun]. apply bool_decide_eq_false in Hun. apply dec_stable in Hun.
  assert (∀ c, c ∈ _target_columns table db → c ∈ seed_columns f ∨ is_Some (aget c (expressions table))) as Hcov.
  { intros c Hc. destruct (decide (c ∈ seed_columns f)) as [|Hs]; [by left|right].
    destruct (aget c (expressions table)) eqn:E; [done|exfalso].
    eapply (filter_nil_not_elem_of _ _ c Hun); [done|]. by apply list_elem_of_filter. }
  case_bool_decide as Hmiss.
  - inv_ok H. destruct a2 as [n' rows]. apply copy_rows_ok in Hm as (-> & -> & Hok & Hrows).
    apply bool_decide_eq_true in Hok as (_ & _ & Hsub). exists rows.
    inv_ok H. apply insert_rows_ok in Hm as [Hsat ->]. apply io_ret_ok in H as [-> ->].
    assert (select_row table (_target_columns table db) (seed_columns f) <$> rows = rows) as Hid.
    { rewrite <- (list_fmap_id rows) at 2. apply list_fmap_ext. intros i r Hr%list_elem_of_lookup_2.
      apply select_row_all; [intros c; by apply (copy_in_columns _ _ _ _ Hrows)|done|]. intros c Hc. destruct (decide (c ∈ seed_columns f)); [done|].
      exfalso. eapply (filter_nil_not_elem_of _ _ c Hmiss); done. }
    rewrite Hid. split_and!; try done.
  - io_inv. destruct a3 as [n' rows]. apply copy_rows_ok in Hm0 as (-> & -> & Hok & Hrows).
    apply bool_decide_eq_true in Hok as (_ & _ & Hsub). exists rows.
    apply insert_rows_ok in Hm2 as [Hsat ->]. split_and!; done.
Qed.

(** ** The loader beside the audit backfill *)

(** The loader computes the missing columns of a target's table as the backfill fills them. *)
Definition agrees (tg : BackfillTarget) : Prop :=
  coalescing tg ∧
  Forall (λ ce, aget ce.1 (tg_sets tg) = Some (Coalesce (Col ce.1) ce.2)) (expressions (tg_table tg)).

Lemma expressions_agree :
  Forall (λ tg, tg_name tg ∈ ["order_lines"; "shipments"; "cost_centers"] ∨
    Forall (λ ce, aget ce.1 (tg_sets tg) = Some (Coalesce (Col ce.1) ce.2)) (expressions (tg_table tg)))
  (TARGETS ++ ERP_TARGETS).
Proof.
  unfold TARGETS, ERP_TARGETS, both, fill_null, expressions, LEGACY_AUDIT_EXPRESSIONS. generalize opening_day. intros o.
  simpl. repeat (constructor; [first [by right; repeat constructor|left; set_solver]|]). constructor.
Qed.

Lemma targets_agree tg :
  tg ∈ TARGETS ++ ERP_TARGETS → tg_name tg ∉ ["order_lines"; "shipments"; "cost_centers"] → agrees tg.
Proof.
  pose proof targets_coalescing as Hc. pose proof expressions_agree as Ha. rewrite Forall_forall in *.
  intros Htg Hn. split; [by apply Hc|]. by destruct (Ha tg Htg).
Qed.

(** A row computed by the loader is the staged row as the backfill would fill it. *)
Lemma select_row_fill tg target seed_cols r :
  agrees tg → tg_nulls tg ⊆ target → (∀ c, is_Some (r !! c) → c ∈ seed_cols) → seed_cols ⊆ target →
  (∀ c, c ∈ target → c ∈ seed_cols ∨ is_Some (aget c (expressions (tg_table tg)))) →
  (∀ c, c ∈ tg_nulls tg → is_Some (select_row (tg_table tg) target seed_cols r !! c)) →
  select_row (tg_table tg) target seed_cols r = fill tg r.
Proof.
  intros [(Hnd & Hcols & Hco) Hag] Hnulls Hr Hseed Hcov Hnn. rewrite Forall_forall in Hag, Hco.
  assert (∀ c e, aget c (expressions (tg_table tg)) = Some e → aget c (tg_sets tg) = Some (Coalesce (Col c) e)) as Hag'.
  { intros c e He. apply aget_Some in He. by apply (Hag (c, e)). }
  assert (∀ c v, r !! c = Some v → select_row (tg_table tg) target seed_cols r !! c = Some v) as Hkeep.
  { intros c v Hv. assert (c ∈ seed_cols) as Hc by (apply Hr; by rewrite Hv).
    rewrite select_row_lookup, bool_decide_true by auto. unfold select_column. by rewrite bool_decide_true. }
  assert (∀ c, r !! c = None → c ∈ tg_nulls tg → ∃ e, aget c (tg_sets tg) = Some (Coalesce (Col c) e) ∧
    select_row (tg_table tg) target seed_cols r !! c = eval e r) as Hmiss.
  { intros c Hc Hin. specialize (Hnn c Hin). rewrite select_row_lookup, bool_decide_true in * by auto.
    unfold select_column in *. case_bool_decide as Hs; [rewrite Hc in Hnn; by destruct Hnn|].
    destruct (aget c (expressions _)) as [e|] eqn:He; [|by destruct Hnn]. exists e. by rewrite (Hag' c e He). }
  assert (∀ c, r !! c = None → c ∉ tg_nulls tg → select_row (tg_table tg) target seed_cols r !! c = None) as Hother.
  { intros c Hc Hin. rewrite select_row_lookup. unfold select_column. case_bool_decide; [|done].
    case_bool_decide; [done|]. destruct (aget c (expressions _)) as [e|] eqn:He; [exfalso|done].
    apply Hin. rewrite <- Hcols. apply Hag', aget_Some in He. by apply (list_elem_of_fmap_2 fst) in He. }
  apply map_eq. intros c. unfold fill, assign. destruct (r !! c) as [v|] eqn:Hc.
  - rewrite (Hkeep _ _ Hc). destruct (needs tg r); [|done]. rewrite assign_lookup by done.
    destruct (aget c (tg_sets tg)) as [e|] eqn:He; [|done]. apply aget_Some in He. specialize (Hco _ He). simpl in Hco.
    destruct e as [| | |[] e'| |]; try done. subst. simpl. by rewrite Hc.
  - destruct (decide (c ∈ tg_nulls tg)) as [Hin|Hin].
    + destruct (Hmiss c Hc Hin) as (e & He & ->). assert (needs tg r = true) as ->.
      { apply existsb_exists. exists c. split; [by apply list_elem_of_In|]. by apply bool_decide_eq_true. }
      rewrite assign_lookup, He by done. simpl. by rewrite Hc.
    + rewrite (Hother c Hc Hin). destruct (needs tg r); [|done]. rewrite assign_lookup by done.
      by rewrite (proj2 (aget_None c (tg_sets tg))) by (by rewrite Hcols).
Qed.

(** C38: Loading an old seed gives the rows the audit backfill would have made of it. For every
    table but order lines, shipments and cost centers: when [copy_table] succeeds, each row of the
    seed file adds one row to the table, the row as the file has it with the audit columns it lacks
    filled as the backfill fills them; no supplied value changes, and no other table. *)
Theorem load_mirrors_backfill tg seed stem db db' n :
  tg ∈ TARGETS ++ ERP_TARGETS → tg_name tg ∉ ["order_lines"; "shipments"; "cost_centers"] →
  tg_nulls tg ⊆ _target_columns (tg_table tg) db →
  (∀ rows, satisfies (tg_table tg) rows db = true → ∀ r c, r ∈ rows → c ∈ tg_nulls tg → is_Some (r !! c)) →
  copy_table seed (tg_table tg) stem db = (db', Ok n) →
  ∃ path f rows, find_seed seed stem = Ok path ∧ seed !! path = Some f ∧
    copy_in (tg_table tg) (seed_columns f) (file_body f) = Ok rows ∧ n = file_count f ∧
    rows_of (tg_table tg) db' = rows_of (tg_table tg) db ++ (fill tg <$> rows) ∧
    (∀ table, table ≠ tg_table tg → rows_of table db' = rows_of table db) ∧ pg_columns db' = pg_columns db.
Proof.
  intros Htg Hname Hnulls Hnn H. apply copy_table_ok in H as (path & f & rows & H1 & H2 & H3 & H4 & H5 & H6 & H7 & ->).
  exists path, f, rows. split_and!; try done.
  - unfold rows_of at 1. cbn [pg_rows]. rewrite lookup_insert_eq. simpl. f_equal.
    apply list_fmap_ext. intros i r Hr%list_elem_of_lookup_2. apply select_row_fill; try done.
    + by apply targets_agree.
    + intros c. by apply (copy_in_columns _ _ _ _ H4).
    + intros c Hc. apply (Hnn _ H7); [by apply list_elem_of_fmap_2|done].
  - intros table Ht. unfold rows_of. cbn [pg_rows]. by rewrite lookup_insert_ne.
Qed.

End Load.

(** ** All systems *)

Section Main.
(** The parameters above, and what a migration script does. *)
Context (copy_in : string → list string → string → res (list row))
        (satisfies : string → list row → pg → bool)
        (exec_sql : string → pg → res pg).

(** One system in [main]: the migrations and the tables, committed together. *)
Definition load_system (migrate_only : bool) (directory : system → option (list (string * string)))
    (seed : seed_dir) (y : system) : io (source_db (D:=pg)) (list Migration * Z) :=
  transaction (
    let* applied := apply_migrations exec_sql (system_name y) (directory y) in
    if migrate_only then io_ret (applied, 0)
    else
      let* total := io_fold (λ total ts,
        let* n := io_zoom sd_data (λ d s, mkSourceDb (sd_ledger s) d) (copy_table copy_in satisfies seed ts.1 ts.2) in
        io_ret (total + n)) (SYSTEMS y) 0 in
      io_ret (applied, total)).

Record databases := mkDatabases { db_ops : source_db (D:=pg); db_erp : source_db (D:=pg) }.

Definition on_system {A} (y : system) (m : io (source_db (D:=pg)) A) : io databases A :=
  match y with
  | ops => io_zoom db_ops (λ t s, mkDatabases t (db_erp s)) m
  | erp => io_zoom db_erp (λ t s, mkDatabases (db_ops s) t) m
  end.

(** The body of the loop in [main]. *)
Definition load_next (migrate_only : bool) (directory : system → option (list (string * string)))
    (seed : seed_dir) (done_ : list (list Migration * Z)) (y : system) : io databases (list (list Migration * Z)) :=
  let* r := on_system y (load_system migrate_only directory seed y) in
  io_ret (done_ ++ [r]).

(** [main] *)
Definition main (migrate_only : bool) (directory : system → option (list (string * string)))
    (seed : seed_dir) (selected : list system) : io databases (list (list Migration * Z)) :=
  io_fold (load_next migrate_only directory seed) selected [].

(** A load that fails leaves every system as the ones before it left it: the failing system keeps
    neither its migrations nor its rows. *)
Lemma load_atomic migrate_only directory seed selected s s' e :
  main migrate_only directory seed selected s = (s', Err e) →
  ∃ done_ y rest results, selected = done_ ++ y :: rest ∧
    main migrate_only directory seed done_ s = (s', Ok results) ∧
    (on_system y (load_system migrate_only directory seed y) s').2 = Err e.
Proof.
  unfold main. generalize (@nil (list Migration * Z)) as acc. revert s.
  induction selected as [|y selected IH]; intros s acc; [done|]. cbn [io_fold]. unfold io_bind.
  destruct (load_next _ _ _ acc y s) as [s1 [r|e1]] eqn:E.
  - intros H. apply IH in H as (done_ & y' & rest & results & -> & H1 & H2). exists (y :: done_), y', rest, results.
    split; [done|]. split; [|done]. cbn [io_fold]. unfold io_bind. by rewrite E.
  - intros [= <- <-]. exists [], y, selected, acc. split; [done|]. unfold load_next in E.
    destruct (on_system y (load_system migrate_only directory seed y) s) as [s2 [r|e2]] eqn:E2; unfold io_bind in E; rewrite E2 in E; [done|].
    injection E as <- <-. assert (s2 = s) as ->; [|split; [done|by rewrite E2]].
    destruct s as [o p], y; cbn in E2; unfold io_zoom in E2; cbn in E2;
      destruct (load_system _ _ _ _ _) as [t [|]] eqn:Et; simplify_eq; apply transaction_err in Et; by subst.
Qed.

End Main.

(** ** Where the two differ *)

Ltac one_target :=
  unfold TARGETS, ERP_TARGETS, both, fill_null; generalize opening_day; intros o;
  repeat (constructor; [first [by intros|by intros _; vm_compute; split]|]); constructor.

(** A shipment that is not delivered yet: the loader dates its last change nine hours after the
    backfill. *)
Lemma undelivered_shipment_differs d tg :
  tg ∈ TARGETS → tg_name tg = "shipments" →
  let r : row := {["ship_date" := SDate d]} in
  fill tg r !! "updated_at" = Some (SStamp (at_hour d 8)) ∧
  select_column "ops.shipments" ["ship_date"] r "updated_at" = Some (SStamp (at_hour d 17)).
Proof. revert tg. refine (proj1 (Forall_forall _ _) _). one_target. Qed.

(** A cost center that is still open, likewise. *)
Lemma open_cost_center_differs d tg :
  tg ∈ ERP_TARGETS → tg_name tg = "cost_centers" →
  let r : row := {["valid_from" := SDate d]} in
  fill tg r !! "updated_at" = Some (SStamp (at_hour d 8)) ∧
  select_column "erp.cost_centers" ["valid_from"] r "updated_at" = Some (SStamp (at_hour d 17)).
Proof. revert tg. refine (proj1 (Forall_forall _ _) _). one_target. Qed.

(** An order line: the backfill takes the creation of its order, the loader the last change of the line. *)
Lemma order_line_differs created updated tg :
  tg ∈ TARGETS → tg_name tg = "order_lines" →
  let r : row := {["order_header.created_at" := SStamp created; "updated_at" := SStamp updated]} in
  fill tg r !! "created_at" = Some (SStamp created) ∧
  select_column "ops.order_lines" ["updated_at"] r "created_at" = Some (SStamp updated).
Proof. revert tg. refine (proj1 (Forall_forall _ _) _). one_target. Qed.

(** ** A seed from before the audit columns *)

Fixpoint split_lines (acc : list ascii) (l : list ascii) : list string :=
  match l with
  | [] => []
  | c :: l => if bool_decide (c = newline) then str (rev acc) :: split_lines [] l else split_lines (c :: acc) l
  end.

(** A [COPY] of plain text columns. *)
Definition witness_copy (_ : string) (cols : list string) (text : string) : res (list row) :=
  Ok ((λ line, list_to_map (zip cols (SOther <$> split_comma [] (chars line)))) <$> split_lines [] (chars text)).

Definition witness_satisfies (_ : string) (rows : list row) (_ : pg) : bool :=
  forallb (λ r, forallb (λ c, bool_decide (is_Some (r !! c))) ["created_at"; "updated_at"]) rows.

Lemma witness_copy_columns table cols text rows :
  witness_copy table cols text = Ok rows → ∀ r c, r ∈ rows → is_Some (r !! c) → c ∈ cols.
Proof.
  intros [= <-] r c (line & -> & _)%list_elem_of_fmap [v Hv]. apply elem_of_list_to_map_2 in Hv.
  by apply elem_of_zip_l in Hv.
Qed.

Definition witness_companies : BackfillTarget := both "companies" "erp.companies" VARCHAR opening_day opening_day.

Definition witness_pg : pg :=
  mkPg {["erp.companies" := ["company_code"; "name"; "created_at"; "updated_at"]]} ∅.

Definition witness_seed : seed_dir :=
  {["erp_companies.csv" := CsvFile ("company_code,name" +:+ str [newline] +:+ "US01,Northwind" +:+ str [newline])]}.

Lemma load_mirrors_backfill_witness :
  let r := copy_table witness_copy witness_satisfies witness_seed "erp.companies" "erp_companies" witness_pg in
  r.2 = Ok 1 ∧
  rows_of "erp.companies" r.1
  = [fill witness_companies {["company_code" := SOther "US01"; "name" := SOther "Northwind"]}].
Proof.
  destruct (copy_table witness_copy witness_satisfies witness_seed "erp.companies" "erp_companies" witness_pg)
    as [db' res] eqn:E.
  assert (res = Ok 1) as -> by (apply (f_equal snd) in E; simpl in E; rewrite <- E; vm_compute; reflexivity).
  destruct (load_mirrors_backfill witness_copy witness_satisfies witness_copy_columns witness_companies witness_seed
    "erp_companies" witness_pg db' 1) as (path & f & rows & Hp & Hf & Hrows & _ & Hnew & _).
  - unfold TARGETS, ERP_TARGETS, witness_companies. cbn [app]. repeat (first [left; reflexivity|right]).
  - apply (bool_decide_unpack _). vm_compute. exact I.
  - apply (bool_decide_unpack _). vm_compute. exact I.
  - intros rows Hs r c Hr Hc. unfold witness_satisfies in Hs. rewrite forallb_forall in Hs.
    specialize (Hs r ltac:(by apply list_elem_of_In)). rewrite forallb_forall in Hs.
    specialize (Hs c ltac:(by apply list_elem_of_In)). by apply bool_decide_eq_true in Hs.
  - exact E.
  - split; [done|]. vm_compute in Hp. injection Hp as <-. vm_compute in Hf. injection Hf as <-.
    etrans; [exact Hnew|]. vm_compute in Hrows. injection Hrows as <-. vm_compute. reflexivity.
Defined.
