(* ===== verification/Crm.v ===== *)
(** * The CRM planner: [simulator/crm.py]

    The events of one CRM business day, drawn from a seeded generator: new accounts, new
    opportunities and the stage changes of a sample of the open ones. A row of the snapshot is a
    map from column to value. *)

From stdpp Require Import prelude gmap strings list.
From Stdlib Require Import ZArith Lia Ascii.
From S2P Require Import Prelude PyText Dates Sha256 PyNum PyRandom Policy Events.

Open Scope Z_scope.

Abbreviation crm_row := (gmap string pyval) (only parsing).

Definition OPEN_STAGES : list string := ["Prospecting"; "Qualification"; "Proposal"; "Negotiation"].
Definition STAGE_SUCCESSOR (stage : string) : option string :=
  if String.eqb stage "Prospecting" then Some "Qualification"
  else if String.eqb stage "Qualification" then Some "Proposal"
  else if String.eqb stage "Proposal" then Some "Negotiation"
  else if String.eqb stage "Negotiation" then Some "Closed Won"
  else None.
Definition INDUSTRIES : list string := ["Technology"; "Healthcare"; "Manufacturing"; "Financial Services"].
Definition COUNTRIES : list string := ["United States"; "Canada"; "Germany"; "United Kingdom"; "Japan"].

Record CrmSnapshot := mkSnapshot {
  accounts : list crm_row;
  opportunities : list crm_row;
  account_population : option Z;
  open_opportunity_population : option Z;
  account_next_sequence : option Z;
  opportunity_next_sequence : option Z;
  owner_ids : list string }.

Definition from_rows (accounts opportunities : list crm_row) : CrmSnapshot :=
  mkSnapshot accounts opportunities None None None None [].

(** [f"{n:0<k>d}"] *)
Definition pad_int (k : nat) (n : Z) : string := if n <? 0 then "-" +:+ zpad (k - 1) (- n) else zpad k n.

Definition account_id (sequence : Z) : string := "001" +:+ pad_int 15 sequence.
Definition opportunity_id (sequence : Z) : string := "006" +:+ pad_int 15 sequence.

Definition _timestamp (value : date) : string := isoformat value +:+ "T08:00:00.000+0000".

(** [int.from_bytes(sha256(f"crm:{seed}:{run_date}".encode()).digest()[:8])] *)
Definition _seed (run_date : date) (seed : Z) : Z :=
  foldl (λ n b, 256 * n + b) 0 (take 8 (sha256 ("crm:" +:+ str_of_Z seed +:+ ":" +:+ isoformat run_date))).

(** [bool(v)] *)
Definition truthy (v : pyval) : bool :=
  match v with
  | PNone => false
  | PBool b => b
  | PInt z | PFloat z => negb (z =? 0)
  | PStr s => negb (String.eqb s "")
  | PDec d => negb (d_coef d =? 0)
  end.

(** [row.get(key)] *)
Definition row_get (key : string) (r : crm_row) : pyval := default PNone (r !! key).
(** [row[key]] *)
Definition row_at (key : string) (r : crm_row) : res pyval :=
  match r !! key with Some v => Ok v | None => raise KeyError key end.

(** [_next_sequence] *)
Definition _next_sequence (rows : list crm_row) (field prefix : string) : res Z :=
  let! sequences := res_map (λ text, match int_of_text (str_drop (String.length prefix) text) with
                                     | Some z => Ok z
                                     | None => raise ValueError "invalid literal for int()"
                                     end)
    (filter (λ text, starts_with prefix text = true) ((λ r, to_str (default (PStr "") (r !! field))) <$> rows)) in
  Ok (match sequences with [] => 0 | x :: l => foldl Z.max x l end + 1).

(** [given or self._next_sequence(...)] *)
Definition next_or (given : option Z) (rows : list crm_row) (field prefix : string) : res Z :=
  match given with
  | Some n => if n =? 0 then _next_sequence rows field prefix else Ok n
  | None => _next_sequence rows field prefix
  end.

Definition owners_of (rows : list crm_row) : list string :=
  to_str <$> filter (λ v, truthy v = true) (row_get "OwnerId" <$> rows).

Definition _owner_ids (s : CrmSnapshot) : list string :=
  match owner_ids s with
  | _ :: _ => owner_ids s
  | [] => match sort_on id (remove_dups (owners_of (accounts s) ++ owners_of (opportunities s))) with
          | [] => ["REP-0001"]
          | owners => owners
          end
  end.

(** [str(row.get("OwnerId") or "REP-0001")] *)
Definition owner_or_default (r : crm_row) : string :=
  let v := row_get "OwnerId" r in if truthy v then to_str v else "REP-0001".

Definition is_open (r : crm_row) : bool :=
  match row_get "StageName" r with PStr s => bool_decide (s ∈ OPEN_STAGES) | _ => false end.

(** [round(x * r)] of an integer and a float *)
Definition round_share (n : Z) (r : f64) : Z := f64_round (f64_mul (f64_of_Z n) r).

Section Plan.
Context {R : Type} `{Random R}.
Context (p : SimulationPolicy) (run_date : date).

Definition stamps : list (string * pyval) :=
  [("LastModifiedDate", PStr (_timestamp run_date)); ("SystemModstamp", PStr (_timestamp run_date))].

Definition new_account (owners : list string) (sequence : Z) : io R SourceEvent :=
  let id := account_id sequence in
  let* owner_id := choice owners in
  let* industry := choice INDUSTRIES in
  let* type := choice ["Customer - Direct"; "Customer - Channel"; "Partner"] in
  let* country := choice COUNTRIES in
  let* revenue := randrange 500 50000 in
  let* employees := randrange 10 5000 in
  io_ret (create run_date crm "account_created" id (list_to_map (
    [("Id", PStr id);
     ("Name", PStr ("Daily Systems " +:+ pad_int 6 sequence));
     ("AccountNumber", PStr ("ACC-" +:+ pad_int 6 sequence));
     ("Industry", PStr industry);
     ("Type", PStr type);
     ("BillingCountry", PStr country);
     ("AnnualRevenue", PFloat (revenue * 1000));
     ("NumberOfEmployees", PInt employees);
     ("OwnerId", PStr owner_id);
     ("CreatedById", PStr owner_id);
     ("LastModifiedById", PStr owner_id);
     ("CreatedDate", PStr (_timestamp run_date));
     ("IsDeleted", PBool false)] ++ stamps)) None None).

Definition new_opportunity (account_ids owners : list string) (sequence : Z) : io R SourceEvent :=
  let id := opportunity_id sequence in
  let* account := choice account_ids in
  let* owner_id := choice owners in
  let* amount := randrange 10 2000 in
  let* days := randrange 30 121 in
  let* source := choice ["Web"; "Partner"; "Referral"; "Marketing Campaign"] in
  io_ret (create run_date crm "opportunity_created" id (list_to_map (
    [("Id", PStr id);
     ("AccountId", PStr account);
     ("Name", PStr ("Daily opportunity " +:+ pad_int 6 sequence));
     ("StageName", PStr "Prospecting");
     ("Amount", PFloat (amount * 1000));
     ("CurrencyIsoCode", PStr "USD");
     ("CloseDate", PStr (isoformat (run_date + days)));
     ("Probability", PInt 10);
     ("LeadSource", PStr source);
     ("CampaignId", PNone);
     ("DiscountPercent", PFloat 0);
     ("LossReason", PNone);
     ("SalesCycleDays", PInt 0);
     ("OwnerId", PStr owner_id);
     ("CreatedById", PStr owner_id);
     ("LastModifiedById", PStr owner_id);
     ("CreatedDate", PStr (_timestamp run_date));
     ("IsDeleted", PBool false)] ++ stamps)) None None).

(** The body of the loop of [_stage_events]. *)
Definition stage_event (stalled_ids : list string) (r : crm_row) : res SourceEvent :=
  let! id := row_at "Id" r in
  let opportunity_id := to_str id in
  let! stage := row_at "StageName" r in
  let stage := to_str stage in
  let by_owner := ("LastModifiedById", PStr (owner_or_default r)) in
  if bool_decide (opportunity_id ∈ stalled_ids) then
    Ok (create run_date crm "opportunity_stalled" opportunity_id
          (list_to_map ([("StageName", PStr stage); by_owner] ++ stamps)) None (Some "long_open_opportunity"))
  else
    match STAGE_SUCCESSOR stage with
    | None => raise KeyError stage
    | Some next_stage =>
      let account := if truthy (row_get "AccountId" r)
                     then [("AccountId", PStr (to_str (row_get "AccountId" r)))] else [] in
      let closing := if String.eqb next_stage "Closed Won"
                     then [("Probability", PInt 100); ("CloseDate", PStr (isoformat run_date))] else [] in
      Ok (create run_date crm "opportunity_stage_changed" opportunity_id
            (list_to_map ([("StageName", PStr next_stage); by_owner] ++ stamps ++ account ++ closing)) None None)
    end.

Definition stalled_count (selected : Z) : Z :=
  Z.min selected (Z.max 1 (round_share selected (stalled_opportunity (anomalies p)))).

Definition _stage_events (opportunities : list crm_row) (population : option Z) : io R (list SourceEvent) :=
  let open_rows := filter (λ r, is_open r = true) opportunities in
  match open_rows with
  | [] => io_ret []
  | _ =>
    let n := Z.of_nat (length open_rows) in
    let* volume := io_lift (proportional_daily_volume p (default n population)) in
    let transition_count := Z.max 1 volume in
    let* selected := sample open_rows (Z.min transition_count n) in
    let* stalled := io_lift (res_map (row_at "Id")
      (take (Z.to_nat (stalled_count (Z.of_nat (length selected)))) selected)) in
    io_lift (res_map (stage_event (to_str <$> stalled)) selected)
  end.

(** [CrmDailyPlanner.plan], on a generator *)
Definition plan_with (s : CrmSnapshot) : io R (list SourceEvent) :=
  let population := default (Z.of_nat (length (accounts s))) (account_population s) in
  let* account_count := io_lift (proportional_daily_volume p population) in
  let* next_account := io_lift (next_or (account_next_sequence s) (accounts s) "Id" "001") in
  let* next_opportunity := io_lift (next_or (opportunity_next_sequence s) (opportunities s) "Id" "006") in
  let owners := _owner_ids s in
  let account_sequences := z_range next_account (next_account + account_count - 1) in
  let* new_accounts := io_map (new_account owners) account_sequences in
  let opportunity_count := Z.max 1 (round_share account_count (f64_literal 18 (-1))) in
  let account_ids := (account_id <$> account_sequences)
                     ++ (to_str <$> omap (λ r, r !! "Id") (accounts s)) in
  let* new_opportunities := io_map (new_opportunity account_ids owners)
    (z_range next_opportunity (next_opportunity + opportunity_count - 1)) in
  let* stage_events := _stage_events (opportunities s) (open_opportunity_population s) in
  io_ret (new_accounts ++ new_opportunities ++ stage_events).

Definition plan (seed : Z) (s : CrmSnapshot) : res (list SourceEvent) :=
  (plan_with s (seeded (_seed run_date seed))).2.
End Plan.

(** ** What is planned *)

Lemma list_to_map_aget (l : list (string * pyval)) k : (list_to_map l : payload_map) !! k = aget k l.
Proof.
  induction l as [|[k' v] l IH]; [done|]. cbn [list_to_map foldr aget uncurry fst snd].
  destruct (String.eqb_spec k k') as [->|Hne]; [apply (lookup_insert_eq (M:=gmap string))|].
  etrans; [by apply (lookup_insert_ne (M:=gmap string))|exact IH].
Qed.

(** An event of the CRM on one record, with its time of change. *)
Record crm_event (d : date) (ty id : string) (e : SourceEvent) : Prop := {
  ce_date : business_date e = d;
  ce_source : source_system e = crm;
  ce_type : event_type e = ty;
  ce_entity : entity_id e = id;
  ce_modified : payload e !! "LastModifiedDate" = Some (PStr (_timestamp d));
  ce_stamp : payload e !! "SystemModstamp" = Some (PStr (_timestamp d));
  ce_plain : json_reload (payload e) = payload e }.

Lemma json_reload_plain (l : list (string * pyval)) :
  Forall (λ kv, json_reload_val kv.2 = kv.2) l → json_reload (list_to_map l) = list_to_map l.
Proof.
  intros Hl. apply map_eq. intros k. unfold json_reload.
  etrans; [apply (lookup_fmap (M:=gmap string))|]. rewrite !list_to_map_aget.
  induction Hl as [|[k' v] l Hv _ IH]; [done|]. cbn [aget]. destruct (String.eqb k k'); [by simpl; f_equal|exact IH].
Qed.

Record account_planned (d : date) (owners : list string) (sequence : Z) (e : SourceEvent) : Prop := {
  ap_event : crm_event d "account_created" (account_id sequence) e;
  ap_id : payload e !! "Id" = Some (PStr (account_id sequence));
  ap_owner : ∃ o, o ∈ owners ∧ payload e !! "OwnerId" = Some (PStr o) }.

Record opportunity_planned (d : date) (account_ids owners : list string) (sequence : Z) (e : SourceEvent) : Prop := {
  op_event : crm_event d "opportunity_created" (opportunity_id sequence) e;
  op_id : payload e !! "Id" = Some (PStr (opportunity_id sequence));
  op_stage : payload e !! "StageName" = Some (PStr "Prospecting");
  op_account : ∃ a, a ∈ account_ids ∧ payload e !! "AccountId" = Some (PStr a);
  op_owner : ∃ o, o ∈ owners ∧ payload e !! "OwnerId" = Some (PStr o) }.

(** A row that was selected: it stalls or moves on by one stage; its identifier stays. *)
Record stage_planned (d : date) (stalled : Prop) (r : crm_row) (e : SourceEvent) : Prop := {
  sp_id : ∃ v, r !! "Id" = Some v ∧ entity_id e = to_str v;
  sp_keeps_id : payload e !! "Id" = None;
  sp_stage : ∃ stage, r !! "StageName" = Some (PStr stage) ∧
    ((stalled ∧ crm_event d "opportunity_stalled" (entity_id e) e ∧ payload e !! "StageName" = Some (PStr stage)) ∨
     (¬ stalled ∧ crm_event d "opportunity_stage_changed" (entity_id e) e ∧
      ∃ next, STAGE_SUCCESSOR stage = Some next ∧ payload e !! "StageName" = Some (PStr next))) }.

Section PlanFacts.
Context {R : Type} `{Random R}.
Context (p : SimulationPolicy) (d : date).

Ltac draw :=
  match goal with
  | |- context [io_bind (choice ?l) _ ?r] =>
    let r' := fresh "r" in let x := fresh "x" in let E := fresh "E" in let Hx := fresh "Hx" in
    destruct (choice_spec l r) as (r' & x & E & Hx); [done|rewrite (io_bind_run _ _ _ _ _ E); clear E]
  | |- context [io_bind (randrange ?a ?b) _ ?r] =>
    let r' := fresh "r" in let x := fresh "x" in let E := fresh "E" in let Hx := fresh "Hx" in
    destruct (randrange_spec a b r) as (r' & x & E & Hx); [lia|rewrite (io_bind_run _ _ _ _ _ E); clear E]
  end.

Lemma new_account_ok owners sequence r :
  owners ≠ [] → ∃ r' e, new_account d owners sequence r = (r', Ok e) ∧ account_planned d owners sequence e.
Proof.
  intros Ho. unfold new_account. cbv zeta. repeat draw. do 2 eexists. split; [reflexivity|].
  split; [split|..]; cbn [payload create]; rewrite ?list_to_map_aget; try done. by exists x.
Qed.

Lemma new_opportunity_ok account_ids owners sequence r :
  account_ids ≠ [] → owners ≠ [] →
  ∃ r' e, new_opportunity d account_ids owners sequence r = (r', Ok e) ∧
    opportunity_planned d account_ids owners sequence e.
Proof.
  intros Ha Ho. unfold new_opportunity. cbv zeta. repeat draw. do 2 eexists. split; [reflexivity|].
  split; [split|..]; cbn [payload create]; rewrite ?list_to_map_aget; try done; [by exists x|by exists x0].
Qed.

Lemma is_open_stage r : is_open r = true → ∃ stage, r !! "StageName" = Some (PStr stage) ∧ stage ∈ OPEN_STAGES.
Proof.
  unfold is_open, row_get. destruct (r !! "StageName") as [[]|]; try done. simpl. intros H1%bool_decide_eq_true. eauto.
Qed.

Lemma open_successor stage : stage ∈ OPEN_STAGES → ∃ next, STAGE_SUCCESSOR stage = Some next ∧ next ≠ stage.
Proof.
  unfold OPEN_STAGES. intros Hs. repeat (apply elem_of_cons in Hs as [->|Hs]); [..|by apply elem_of_nil in Hs].
  all: eexists; split; [reflexivity|discriminate].
Qed.

Lemma stage_event_ok stalled r :
  is_Some (r !! "Id") → is_open r = true →
  ∃ e, stage_event d stalled r = Ok e ∧ stage_planned d (to_str (default PNone (r !! "Id")) ∈ stalled) r e.
Proof.
  intros [v Hv] Hopen. destruct (is_open_stage r Hopen) as (stage & Hs & Hin).
  destruct (open_successor stage Hin) as (next & Hn & _).
  unfold stage_event, row_at. rewrite Hv, Hs. cbn [res_bind to_str]. rewrite Hn. simpl (default _ _).
  case_bool_decide as Hst; eexists; (split; [reflexivity|]); split; cbn [payload create entity_id];
    rewrite ?list_to_map_aget; eauto.
  - exists stage. split; [done|]. left. split; [done|].
    split; [split|]; cbn [payload create]; by rewrite ?list_to_map_aget.
  - by destruct (truthy _), (String.eqb next "Closed Won").
  - exists stage. split; [done|]. right. split; [done|].
    split; [split|exists next]; cbn [payload create]; rewrite ?list_to_map_aget; try done.
    apply json_reload_plain. by destruct (truthy _), (String.eqb next "Closed Won"); repeat constructor.
Qed.

Lemma owner_ids_nonempty s : _owner_ids s ≠ [].
Proof. unfold _owner_ids. destruct (owner_ids s); [|done]. by destruct (sort_on id _). Qed.

Definition id_text (r : crm_row) : string := to_str (default PNone (r !! "Id")).

(** The identifiers of the rows that stall. *)
Definition stalled_of (selected : list crm_row) : list string :=
  id_text <$> take (Z.to_nat (stalled_count p (Z.of_nat (length selected)))) selected.

Lemma snapshot_ids_ok l : Forall (λ r : crm_row, is_Some (r !! "Id")) l → ∃ vs, res_map (row_at "Id") l = Ok vs ∧ to_str <$> vs = id_text <$> l.
Proof.
  induction 1 as [|r l [v Hv] _ (vs & E & IH)]; [by exists []|]. exists (v :: vs). cbn [res_map]. unfold row_at at 1.
  rewrite Hv. cbn [res_bind]. rewrite E. split; [done|]. cbn [fmap list_fmap]. rewrite IH. unfold id_text at 2. by rewrite Hv.
Qed.

Lemma stage_events_ok selected :
  Forall (λ r : crm_row, is_Some (r !! "Id") ∧ is_open r = true) selected → ∀ stalled,
  ∃ es, res_map (stage_event d stalled) selected = Ok es ∧
    Forall2 (λ r, stage_planned d (id_text r ∈ stalled) r) selected es.
Proof.
  intros Hs stalled. induction Hs as [|r l [Hid Ho] _ (es & E & IH)]; [exists []; by split|].
  destruct (stage_event_ok stalled r Hid Ho) as (e & E1 & H1). exists (e :: es).
  cbn [res_map]. rewrite E1. cbn [res_bind]. rewrite E. split; [done|]. by constructor.
Qed.

(** [_stage_events]: a sample of the open rows, in which a row appears at most once. *)
Lemma _stage_events_ok rows population r :
  Forall (λ r : crm_row, is_Some (r !! "Id")) rows → 0 ≤ default 0 population →
  ∃ r' selected rest es, _stage_events p d rows population r = (r', Ok es) ∧
    selected ++ rest ≡ₚ filter (λ r, is_open r = true) rows ∧
    (∀ v, let n := Z.of_nat (length (filter (λ r, is_open r = true) rows)) in
       proportional_daily_volume p (default n population) = Ok v → Z.of_nat (length selected) = Z.min v n) ∧
    Forall2 (λ r, stage_planned d (id_text r ∈ stalled_of selected) r) selected es.
Proof.
  intros Hids Hpop. unfold _stage_events. set (open := filter (λ r, is_open r = true) rows).
  destruct open as [|x l] eqn:Eo; [exists r, [], [], []; split; [done|split; [done|split; [|constructor]]]|].
  { intros v Hv. cbn [length] in *. pose proof (daily_volume_total p (default (Z.of_nat 0) population)) as Ht. rewrite Hv in Ht. lia. }
  rewrite <- Eo.
  set (n := Z.of_nat (length open)) in *. assert (1 ≤ n) as Hn by (subst n; rewrite Eo; cbn [length]; lia).
  pose proof (daily_volume_total p (default n population)) as Hv.
  destruct (proportional_daily_volume p (default n population)) as [v|e]; [destruct Hv as [_ Hv]|destruct population; simpl in *; lia].
  cbn [io_lift]. unfold io_bind at 1. unfold io_lift at 1.
  destruct (sample_spec open (Z.min (Z.max 1 v) n) r) as (r1 & selected & rest & E & Hlen & Hperm); [lia|].
  rewrite (io_bind_run _ _ _ _ _ E).
  assert (Forall (λ r : crm_row, is_Some (r !! "Id") ∧ is_open r = true) selected) as Hsel.
  { rewrite Forall_forall in *. intros y Hy.
    assert (y ∈ open) as [Hyo Hyr]%list_elem_of_filter by (rewrite <- Hperm; set_solver). auto. }
  destruct (snapshot_ids_ok (take (Z.to_nat (stalled_count p (Z.of_nat (length selected)))) selected)) as (vs & Evs & Htext).
  { apply Forall_take. eapply Forall_impl; [exact Hsel|]. by intros ? [? _]. }
  destruct (stage_events_ok selected Hsel (to_str <$> vs)) as (es & Ees & Hes).
  exists r1, selected, rest, es. unfold io_bind, io_lift. rewrite Evs, Ees. split; [done|]. split; [done|].
  split; [intros v' Hv'; assert (v' = v) as -> by congruence; lia|]. unfold stalled_of. by rewrite <- Htext.
Qed.

Definition new_opportunities_of (volume : Z) : Z := Z.max 1 (round_share volume (f64_literal 18 (-1))).

(** The accounts a new opportunity may belong to. *)
Definition account_choices (s : CrmSnapshot) (sequences : list Z) : list string :=
  (account_id <$> sequences) ++ (to_str <$> omap (λ r, r !! "Id") (accounts s)).

Lemma plan_ok seed s next_account next_opportunity :
  0 ≤ default 0 (account_population s) → 0 ≤ default 0 (open_opportunity_population s) →
  Forall (λ r : crm_row, is_Some (r !! "Id")) (opportunities s) →
  next_or (account_next_sequence s) (accounts s) "Id" "001" = Ok next_account →
  next_or (opportunity_next_sequence s) (opportunities s) "Id" "006" = Ok next_opportunity →
  ∃ volume news opps stages selected rest,
    let sequences := z_range next_account (next_account + volume - 1) in
    let owners := _owner_ids s in
    plan p d seed s = Ok (news ++ opps ++ stages) ∧ 1 ≤ volume ∧
    proportional_daily_volume p (default (Z.of_nat (length (accounts s))) (account_population s)) = Ok volume ∧
    Forall2 (account_planned d owners) sequences news ∧
    Forall2 (opportunity_planned d (account_choices s sequences) owners)
      (z_range next_opportunity (next_opportunity + new_opportunities_of volume - 1)) opps ∧
    selected ++ rest ≡ₚ filter (λ r, is_open r = true) (opportunities s) ∧
    (∀ v, let n := Z.of_nat (length (filter (λ r, is_open r = true) (opportunities s))) in
       proportional_daily_volume p (default n (open_opportunity_population s)) = Ok v →
       Z.of_nat (length selected) = Z.min v n) ∧
    Forall2 (λ r, stage_planned d (id_text r ∈ stalled_of selected) r) selected stages.
Proof.
  intros Hpop Hopen Hids Hna Hno. unfold plan, plan_with. cbv zeta. generalize (seeded (Random:=H) (_seed d seed)). intros r.
  pose proof (daily_volume_total p (default (Z.of_nat (length (accounts s))) (account_population s))) as Hv.
  destruct (proportional_daily_volume _ _) as [volume|]; [destruct Hv as [_ Hv]|destruct (account_population s); simpl in *; lia].
  rewrite Hna, Hno. unfold io_bind at 1 2 3, io_lift at 1 2 3. cbv beta iota zeta.
  set (sequences := z_range next_account (next_account + volume - 1)). set (owners := _owner_ids s).
  assert (account_choices s sequences ≠ []) as Hch.
  { unfold account_choices, sequences. rewrite z_range_cons by lia. done. }
  destruct (io_map_ok (new_account d owners) (account_planned d owners) sequences
    (λ x r0 _, new_account_ok owners x r0 (owner_ids_nonempty s)) r) as (r1 & news & E1 & H1).
  rewrite (io_bind_run _ _ _ _ _ E1).
  destruct (io_map_ok (new_opportunity d (account_choices s sequences) owners)
    (opportunity_planned d (account_choices s sequences) owners)
    (z_range next_opportunity (next_opportunity + new_opportunities_of volume - 1))
    (λ x r0 _, new_opportunity_ok _ owners x r0 Hch (owner_ids_nonempty s)) r1) as (r2 & opps & E2 & H2).
  rewrite (io_bind_run _ _ _ _ _ E2).
  destruct (_stage_events_ok (opportunities s) (open_opportunity_population s) r2 Hids Hopen)
    as (r3 & selected & rest & stages & E3 & H3 & H4 & H5).
  exists volume, news, opps, stages, selected, rest. rewrite (io_bind_run _ _ _ _ _ E3). by split_and!.
Qed.
End PlanFacts.

(** ** How far the pipeline moves *)

Definition of_type (ty : string) (es : list SourceEvent) : list SourceEvent :=
  filter (λ e, event_type e = ty) es.

Lemma of_type_none {A} ty (P : A → SourceEvent → Prop) l es :
  Forall2 P l es → (∀ x e, P x e → event_type e ≠ ty) → of_type ty es = [].
Proof.
  intros HF HP. induction HF as [|x e l es Hx _ IH]; [done|]. unfold of_type in *. rewrite filter_cons, IH.
  by rewrite decide_False by (by eapply HP).
Qed.

Lemma filter_take_ids selected k :
  NoDup (id_text <$> selected) → (k ≤ length selected)%nat →
  length (filter (λ r, id_text r ∈ id_text <$> take k selected) selected) = k.
Proof.
  intros Hnd Hk. remember (id_text <$> take k selected) as ids eqn:Eids.
  assert (length (take k selected) = k) as Hlen by (rewrite length_take; lia).
  rewrite <- (take_drop k selected) in Hnd |- *. rewrite fmap_app, <- Eids in Hnd. apply NoDup_app in Hnd as (_ & Hnd & _).
  rewrite filter_app, filter_all, filter_none, app_nil_r; [done| |].
  - intros r Hr Hin. by apply (Hnd (id_text r)); [|apply list_elem_of_fmap_2].
  - intros r Hr. subst ids. by apply list_elem_of_fmap_2.
Qed.

Lemma stage_counts d (stalled : list string) selected es :
  Forall2 (λ r, stage_planned d (id_text r ∈ stalled) r) selected es →
  length (of_type "opportunity_stalled" es) = length (filter (λ r, id_text r ∈ stalled) selected) ∧
  (length (of_type "opportunity_stalled" es) + length (of_type "opportunity_stage_changed" es) = length selected)%nat.
Proof.
  unfold of_type. induction 1 as [|r e selected es HP _ [IH1 IH2]]; [done|]. rewrite !filter_cons.
  destruct (sp_stage _ _ _ _ HP) as (stage & _ & [(Hin & He & _)|(Hin & He & _)]); rewrite (ce_type _ _ _ _ He).
  - rewrite (decide_True (P:=_ = _)), (decide_False (P:=_ = _)), decide_True by done. simpl. lia.
  - rewrite (decide_False (P:=_ = _)), (decide_True (P:=_ = _)), decide_False by done. simpl. lia.
Qed.

Lemma stalled_count_range p k : 0 ≤ k → 0 ≤ stalled_count p k ≤ k ∧ (k = 0 ∨ 1 ≤ stalled_count p k).
Proof. intros Hk. unfold stalled_count. lia. Qed.

(** How far the pipeline moves in a day. Let the open opportunities of the snapshot have distinct
    identifiers, and let [k] be the daily volume of the open population, at most as many as the
    snapshot holds. Then the day plans exactly [stalled_count k] stalls and [k - stalled_count k]
    changes of stage. As at least one of the [k] always stalls, a volume of one moves nothing. *)
Theorem pipeline_progress {R} (H : Random R) p d seed s v events :
  let open := filter (λ r, is_open r = true) (opportunities s) in
  let k := Z.min v (Z.of_nat (length open)) in
  0 ≤ default 0 (account_population s) → 0 ≤ default 0 (open_opportunity_population s) →
  Forall (λ r : crm_row, is_Some (r !! "Id")) (opportunities s) → NoDup (id_text <$> open) →
  is_ok (next_or (account_next_sequence s) (accounts s) "Id" "001") = true →
  is_ok (next_or (opportunity_next_sequence s) (opportunities s) "Id" "006") = true →
  proportional_daily_volume p (default (Z.of_nat (length open)) (open_opportunity_population s)) = Ok v →
  plan p d seed s = Ok events →
  Z.of_nat (length (of_type "opportunity_stalled" events)) = stalled_count p k ∧
  Z.of_nat (length (of_type "opportunity_stage_changed" events)) = k - stalled_count p k ∧
  (v = 1 → of_type "opportunity_stage_changed" events = []).
Proof.
  intros open k Hpop Hopen Hids Hnd Hna Hno Hv Hplan.
  destruct (next_or (account_next_sequence s) _ _ _) as [na|] eqn:Ena; [|done].
  destruct (next_or (opportunity_next_sequence s) _ _ _) as [no|] eqn:Eno; [|done].
  destruct (plan_ok p d seed s na no Hpop Hopen Hids Ena Eno)
    as (volume & news & opps & stages & selected & rest & E & _ & _ & Hnews & Hopps & Hperm & Hlen & Hstages).
  rewrite Hplan in E. injection E as ->. specialize (Hlen v Hv). fold open in Hperm, Hlen. fold k in Hlen.
  assert (∀ ty, ty = "opportunity_stalled" ∨ ty = "opportunity_stage_changed" →
    of_type ty (news ++ opps ++ stages) = of_type ty stages) as Hty.
  { intros ty Hty. unfold of_type. rewrite !filter_app. fold (of_type ty news) (of_type ty opps) (of_type ty stages).
    rewrite (of_type_none ty _ _ _ Hnews), (of_type_none ty _ _ _ Hopps); [done|..]; intros x e HP.
    - rewrite (ce_type _ _ _ _ (op_event _ _ _ _ _ HP)). by destruct Hty as [-> | ->].
    - rewrite (ce_type _ _ _ _ (ap_event _ _ _ _ HP)). by destruct Hty as [-> | ->]. }
  rewrite !Hty by auto. destruct (stage_counts d _ selected stages Hstages) as [Hst Hsum].
  assert (NoDup (id_text <$> selected)) as Hsel.
  { rewrite <- Hperm, fmap_app in Hnd. by apply NoDup_app in Hnd as (? & _). }
  pose proof (stalled_count_range p k ltac:(lia)) as Hk. rewrite <- Hlen in Hk.
  unfold stalled_of in Hst. rewrite filter_take_ids in Hst by (done || lia). rewrite <- Hlen.
  split; [lia|]. split; [lia|]. intros ->. apply nil_length_inv. lia.
Qed.

(** Under the default policy a volume of one lasts until 6,843 open opportunities. *)
Example pipeline_threshold :
  proportional_daily_volume default_policy 6843 = Ok 1 ∧ proportional_daily_volume default_policy 6844 = Ok 2.
Proof. split; vm_compute; reflexivity. Qed.

Definition open_row (n : Z) (stage : string) : crm_row :=
  list_to_map [("Id", PStr (opportunity_id n)); ("StageName", PStr stage); ("OwnerId", PStr "REP-0002")].
Definition pipeline_snapshot : CrmSnapshot :=
  mkSnapshot [list_to_map [("Id", PStr (account_id 1))]]
    [open_row 1 "Prospecting"; open_row 2 "Negotiation"; open_row 3 "Closed Won"; open_row 4 "Proposal"]
    (Some 9000) (Some 10000) None None ["REP-0002"].

Lemma pipeline_progress_witness :
  ∃ events, plan (R:=MT19937.state) default_policy 738887 42 pipeline_snapshot = Ok events ∧
    Z.of_nat (length (of_type "opportunity_stage_changed" events)) = 2 - stalled_count default_policy 2.
Proof.
  destruct (plan (R:=MT19937.state) default_policy 738887 42 pipeline_snapshot) as [events|] eqn:E.
  - exists events. split; [reflexivity|].
    apply (pipeline_progress mersenne_twister default_policy 738887 42 pipeline_snapshot 2 events).
    + by vm_compute.
    + by vm_compute.
    + repeat constructor; by eexists.
    + apply (bool_decide_unpack _). by vm_compute.
    + by vm_compute.
    + by vm_compute.
    + by vm_compute.
    + exact E.
  - exfalso. assert (is_ok (plan (R:=MT19937.state) default_policy 738887 42 pipeline_snapshot) = true) as H by (by vm_compute).
    by rewrite E in H.
Defined.
