(* ===== verification/CrmStore.v ===== *)
(** * CRM deltas: [simulator/crm_storage.py], [simulator/crm_snapshot.py]

    The immutable CRM seed with the daily delta partitions beside it: publishing the events of one
    date as complete changed records and an opportunity history, and reading the current state for
    planning. A partition and a manifest each appear by one atomic rename, so the durable steps of
    a publication are the updates of [cs_parts] and [cs_manifests]. Which of several rows of one
    record with the same version DuckDB ranks first is left open ([pick]). The type errors of Arrow
    are not modelled. *)

From stdpp Require Import prelude gmap strings list.
From Stdlib Require Import ZArith Lia Ascii.
From S2P Require Import Prelude PyText Dates Soql Catalog PyNum PyRandom Policy Events Crm.

Open Scope Z_scope.

(** A parquet file: its columns and its rows. A column that is [NULL] has no entry in a row. *)
Record part := mkPart { pt_schema : list string; pt_rows : list crm_row }.

(** The delta root: [<object>/business_date=<date>/delta.parquet] and [manifests/<date>.json]. *)
Record crm_store := mkCrm {
  cs_parts : gmap (string * date) part;
  cs_manifests : gmap date json }.

Definition put_part (key : string * date) (p : part) (s : crm_store) : crm_store :=
  mkCrm (<[key := p]> (cs_parts s)) (cs_manifests s).
Definition put_manifest (d : date) (m : json) (s : crm_store) : crm_store :=
  mkCrm (cs_parts s) (<[d := m]> (cs_manifests s)).

Definition OPPORTUNITY_HISTORY_SCHEMA : list string :=
  ["Id"; "OpportunityId"; "PreviousStageName"; "StageName"; "CreatedDate"; "CreatedById"; "SystemModstamp"].

(** [pa.Table.from_pylist(rows, schema)] keeps the columns of the schema. *)
Definition table_row (schema : list string) (r : crm_row) : crm_row :=
  filter (λ kv : string * pyval, kv.1 ∈ schema ∧ kv.2 ≠ PNone) r.

(** A row of a query result: every column, [None] where it is [NULL]. *)
Definition full_row (schema : list string) (r : crm_row) : crm_row :=
  list_to_map ((λ c, (c, row_get c r)) <$> schema).

(** [_object_for] *)
Definition _object_for (e : SourceEvent) : res string :=
  if starts_with "account_" (event_type e) then Ok "accounts"
  else if starts_with "opportunity_" (event_type e) then Ok "opportunities"
  else raise CrmDeltaError ("unsupported CRM event type: " +:+ event_type e).

(** The groups of a publication, in the order in which their objects first appear. *)
Fixpoint group_events (grouped : list (string * list SourceEvent)) (events : list SourceEvent)
    : res (list (string * list SourceEvent)) :=
  match events with
  | [] => Ok grouped
  | e :: events =>
    if negb (bool_decide (source_system e = crm)) then raise ValueError "CRM publisher accepts only CRM events"
    else let! o := _object_for e in
         group_events (aset o (default [] (aget o grouped) ++ [e]) grouped) events
  end.

(** ** Manifests *)

Definition desired (grouped : list (string * list SourceEvent)) : list (string * list string) :=
  (λ g, (g.1, sort_on id (event_id <$> g.2))) <$> grouped.

Definition json_strings (l : list string) : json := JArr (JStr <$> l).

(** [json.loads(json.dumps({...}, sort_keys=True))] *)
Definition manifest_json (want : list (string * list string)) (parts : list (string * string)) : json :=
  JObj [("events", JObj (sort_on fst ((λ g, (g.1, json_strings g.2)) <$> want)));
        ("parts", JObj (sort_on fst ((λ p, (p.1, JStr p.2)) <$> parts)))].

(** A JSON value that is an object of lists of strings, as a Python dictionary. *)
Definition as_groups (j : json) : option (gmap string (list string)) :=
  match j with
  | JObj l => list_to_map <$> mapM (λ kv : string * json,
                match kv.2 with JArr js => (λ ss, (kv.1, ss)) <$> mapM jstr js | _ => None end) l
  | _ => None
  end.

(** The branch of [publish] for a date that has a manifest. *)
Definition published_parts (m : json) (want : list (string * list string)) : res (list (string * string)) :=
  match m with
  | JObj fields =>
    let events := match aget "events" fields with Some j => as_groups j | None => None end in
    if negb (bool_decide (events = Some (list_to_map want)))
    then raise CrmDeltaError "a different CRM event set was already published for this date"
    else
      match aget "parts" fields with
      | Some (JObj l) => res_map (λ kv : string * json,
          match kv.2 with JStr p => Ok (kv.1, p) | _ => raise TypeError "argument should be a str" end) l
      | Some _ => raise AttributeError "items"
      | None => raise KeyError "parts"
      end
  | _ => raise AttributeError "get"
  end.

Section Store.
(** The delta root, the seed files, and the row ranked first by a column, descending. *)
Context (root : string) (base : string → part) (pick : string → list crm_row → option crm_row).

Definition part_path (object : string) (d : date) : string :=
  root +:+ "/" +:+ object +:+ "/business_date=" +:+ isoformat d +:+ "/delta.parquet".

(** The partitions of an object, by path. *)
Definition object_parts (object : string) (s : crm_store) : list (date * part) :=
  sort_on (λ dp, part_path object dp.1)
    (omap (λ kp : string * date * part, if String.eqb kp.1.1 object then Some (kp.1.2, kp.2) else None)
      (map_to_list (cs_parts s))).

Definition delta_rows (object : string) (s : crm_store) : list crm_row :=
  object_parts object s ≫= λ dp, pt_rows dp.2.

Definition is_row (id : string) (r : crm_row) : bool := bool_decide (r !! "Id" = Some (PStr id)).

Definition version_field (object : string) : string :=
  if bool_decide ("SystemModstamp" ∈ pt_schema (base object)) then "SystemModstamp" else "LastModifiedDate".

(** [_current_rows]: the current row of each identifier that has one. *)
Definition current_row (object : string) (s : crm_store) (id : string) : option crm_row :=
  full_row (pt_schema (base object)) <$>
    pick (version_field object) (filter (λ r, is_row id r = true) (pt_rows (base object) ++ delta_rows object s)).
Definition _current_rows (object : string) (ids : list string) (s : crm_store) : gmap string crm_row :=
  list_to_map (omap (λ id, (λ r, (id, r)) <$> current_row object s id) ids).

(** The row of one event in [_materialize]. *)
Definition materialize_one (existing : gmap string crm_row) (e : SourceEvent) : res crm_row :=
  let is_create := ends_with "_created" (event_type e) in
  match existing !! entity_id e, is_create with
  | Some _, true => raise CrmDeltaError ("CRM record already exists: " +:+ entity_id e)
  | None, false => raise CrmDeltaError ("CRM event refers to an unknown record: " +:+ entity_id e)
  | previous, _ => Ok (payload e ∪ default ∅ previous)
  end.

Definition _materialize (object : string) (events : list SourceEvent) (s : crm_store) : res (list crm_row) :=
  let ids := entity_id <$> events in
  if bool_decide (NoDup ids) then res_map (materialize_one (_current_rows object ids s)) events
  else raise CrmDeltaError "only one CRM event per record and date may be published".

Definition history_type (e : SourceEvent) : bool :=
  bool_decide (event_type e ∈ ["opportunity_created"; "opportunity_stage_changed"]).

(** [d.get(key, default)] *)
Definition get_or (key : string) (d : crm_row) (dflt : pyval) : pyval := default dflt (d !! key).

Definition history_row (previous : gmap string crm_row) (e : SourceEvent) : crm_row :=
  let before : crm_row := default ∅ (previous !! entity_id e) in
  let p := payload e in
  list_to_map
    [("Id", PStr (event_id e));
     ("OpportunityId", PStr (entity_id e));
     ("PreviousStageName", row_get "StageName" before);
     ("StageName", PStr (to_str (get_or "StageName" p (get_or "StageName" before (PStr "")))));
     ("CreatedDate", PStr (to_str (row_get "LastModifiedDate" p)));
     ("CreatedById", PStr (to_str (get_or "LastModifiedById" p (get_or "OwnerId" before (PStr "")))));
     ("SystemModstamp", PStr (to_str (get_or "SystemModstamp" p (row_get "LastModifiedDate" p))))].

Definition _opportunity_history_rows (events : list SourceEvent) (s : crm_store) : list crm_row :=
  let previous := _current_rows "opportunities" (entity_id <$> events) s in
  history_row previous <$> filter (λ e, history_type e = true) events.

(** ** Publishing *)

Definition _write_parquet (object : string) (d : date) (rows : list crm_row) (schema : list string)
    : io crm_store (string * string) :=
  let* _ := io_modify (put_part (object, d) (mkPart schema (table_row schema <$> rows))) in
  io_ret (object, part_path object d).

(** One turn of the loop over the groups. *)
Definition publish_group (d : date) (g : string * list SourceEvent) : io crm_store (string * string) :=
  let* s := io_get in
  let* rows := io_lift (_materialize g.1 g.2 s) in
  _write_parquet g.1 d rows (pt_schema (base g.1)).

Definition publish (d : date) (events : list SourceEvent) : io crm_store (list (string * string)) :=
  let* grouped := io_lift (group_events [] events) in
  let want := desired grouped in
  let* s := io_get in
  match cs_manifests s !! d with
  | Some m => io_lift (published_parts m want)
  | None =>
    let history_rows := _opportunity_history_rows (default [] (aget "opportunities" grouped)) s in
    let* parts := io_map (publish_group d) grouped in
    let* parts := match history_rows with
                  | [] => io_ret parts
                  | _ => let* p := _write_parquet "opportunity_history" d history_rows OPPORTUNITY_HISTORY_SCHEMA in
                         io_ret (parts ++ [p])
                  end in
    let* _ := io_modify (put_manifest d (manifest_json want parts)) in
    io_ret parts
  end.

(** ** Reading the current state *)

(** [TRY_CAST(... AS BIGINT)], [hash("Id", seed)] and the order in which [SELECT DISTINCT] lists
    values. *)
Context (try_cast : string → option Z) (hash : option pyval → Z → Z) (distinct : list string → list string).

(** [_relation]: the newest row of each record among the deltas, and the seed rows no delta
    supersedes. *)
Definition latest_delta (deltas : list crm_row) : list crm_row :=
  omap (λ id, pick "LastModifiedDate" (filter (λ r : crm_row, r !! "Id" = id) deltas))
    (remove_dups ((λ r : crm_row, r !! "Id") <$> deltas)).

Definition superseded (latest : list crm_row) (b : crm_row) : bool :=
  bool_decide (b !! "Id" ≠ None ∧ b !! "Id" ∈ (λ r : crm_row, r !! "Id") <$> latest).

Definition _relation (object : string) (s : crm_store) : list crm_row :=
  match delta_rows object s, object_parts object s with
  | _, [] => pt_rows (base object)
  | deltas, _ =>
    let latest := latest_delta deltas in
    filter (λ b, superseded latest b = false) (pt_rows (base object)) ++ latest
  end.

Definition id_number (r : crm_row) : option Z :=
  match r !! "Id" with Some (PStr id) => try_cast (str_drop 3 id) | _ => None end.

(** [count], and [coalesce(max(try_cast(substr("Id", 4) AS BIGINT)), 0) + 1] *)
Definition next_number (rows : list crm_row) : Z :=
  match omap id_number rows with [] => 0 | x :: l => foldl Z.max x l end + 1.
Definition _population_and_next_id (rows : list crm_row) : Z * Z := (Z.of_nat (length rows), next_number rows).
Definition open_rows (rows : list crm_row) : list crm_row := filter (λ r, is_open r = true) rows.
Definition _open_population_and_next_id (rows : list crm_row) : Z * Z :=
  (Z.of_nat (length (open_rows rows)), next_number rows).

(** [ORDER BY hash("Id", seed) LIMIT n] *)
Definition hash_order (seed : Z) (rows : list crm_row) : list crm_row :=
  sort_by (λ a b, hash (a !! "Id") seed <=? hash (b !! "Id") seed) rows.
Definition sample_rows (columns : list string) (seed n : Z) (rows : list crm_row) : list crm_row :=
  full_row columns <$> take (Z.to_nat n) (hash_order seed rows).

Definition not_null (column : string) (r : crm_row) : option string := to_str <$> r !! column.

(** [CrmSnapshotReader.read] *)
Definition read (p : SimulationPolicy) (seed : Z) (s : crm_store) : res CrmSnapshot :=
  let accounts := _relation "accounts" s in
  let opportunities := _relation "opportunities" s in
  let '(population, next_account) := _population_and_next_id accounts in
  let '(open_population, next_opportunity) := _open_population_and_next_id opportunities in
  let! volume := proportional_daily_volume p population in
  let account_sample_size := Z.min population (Z.max 100 (volume * 2)) in
  let! open_volume := proportional_daily_volume p open_population in
  let transition_sample_size := Z.min open_population open_volume in
  Ok (mkSnapshot
    (sample_rows ["Id"; "OwnerId"] seed account_sample_size accounts)
    (sample_rows ["Id"; "AccountId"; "OwnerId"; "StageName"] seed transition_sample_size (open_rows opportunities))
    (Some population) (Some open_population) (Some next_account) (Some next_opportunity)
    (take 1024 (distinct (omap (not_null "OwnerId") accounts)))).
End Store.
