(* ===== verification/CrmFacts.v ===== *)
(** * The CRM store over time

    The state a store of CRM deltas is in when dates were published in order, the one current row a
    record then has, and that the publisher's and the planner's reads agree on it. *)

From stdpp Require Import prelude gmap strings list.
From Stdlib Require Import ZArith Lia Ascii.
From S2P Require Import Prelude PyText Dates Soql Catalog PyNum PyRandom Policy Events Crm CrmStore.

Open Scope Z_scope.

Abbreviation versions := ["LastModifiedDate"; "SystemModstamp"].

Definition str_lt (a b : string) : Prop := String.compare a b = Lt.

Lemma str_lt_not_le a b : str_lt a b → str_le b a = false.
Proof.
  unfold str_lt, String.leb. intros H. rewrite String.compare_antisym, H. done.
Qed.

Lemma timestamp_lt d1 d2 : 1 ≤ d1 < d2 → d2 ≤ date_max → str_lt (_timestamp d1) (_timestamp d2).
Proof. apply isoformat_compare. Qed.

Lemma str_lt_trans a b c : str_lt a b → str_lt b c → str_lt a c.
Proof. apply string_compare_lt_trans. Qed.

(** What the model assumes of DuckDB: it ranks some row first, and no row with a greater version. *)
Class Ranking (pick : string → list crm_row → option crm_row) := {
  pick_some : ∀ c l, l ≠ [] → is_Some (pick c l);
  pick_in : ∀ c l r, pick c l = Some r → r ∈ l;
  pick_newest : ∀ c l r r' t t', pick c l = Some r → r' ∈ l →
    r !! c = Some (PStr t) → r' !! c = Some (PStr t') → str_le t' t = true }.

Section Facts.
Context (root : string) (base : string → part) (pick : string → list crm_row → option crm_row) `{!Ranking pick}.
Context (try_cast : string → option Z).

Abbreviation objects := ["accounts"; "opportunities"].

Definition row_id (r : crm_row) : option pyval := r !! "Id".

(** A row that was written at a time. *)
Record stamped (t : string) (r : crm_row) : Prop := {
  st_id : ∃ id, r !! "Id" = Some (PStr id);
  st_number : ∀ n, id_number try_cast r = Some n → 0 ≤ n;
  st_version : ∀ c, c ∈ versions → r !! c = Some (PStr t) }.

(** The seed: one row per record, all older than the first simulated date. *)
Record base_ok (b : date) (o : string) : Prop := {
  bo_schema : ∀ c, c ∈ "Id" :: versions ++ ["StageName"; "OwnerId"] → o = "opportunities" ∨ c ≠ "StageName" →
    c ∈ pt_schema (base o);
  bo_ids : NoDup (row_id <$> pt_rows (base o));
  bo_rows : ∀ r, r ∈ pt_rows (base o) → ∃ t, stamped t r ∧ str_lt t (_timestamp (b + 1)) }.

(** The store after the dates up to [w] were published, in order. *)
Record store_inv (b w : date) (s : crm_store) : Prop := {
  si_dates : 1 ≤ b ≤ w ∧ w < date_max;
  si_base : ∀ o, o ∈ objects → base_ok b o;
  si_keys : ∀ o d p, cs_parts s !! (o, d) = Some p → b < d ≤ w;
  si_ids : ∀ o d p, o ∈ objects → cs_parts s !! (o, d) = Some p → NoDup (row_id <$> pt_rows p);
  si_rows : ∀ o d p r, o ∈ objects → cs_parts s !! (o, d) = Some p → r ∈ pt_rows p → stamped (_timestamp d) r;
  si_manifests : ∀ d m, cs_manifests s !! d = Some m → b < d ≤ w }.

(** The row a record has now: that of the last date that wrote it, or the seed's. *)
Definition in_part (o : string) (s : crm_store) (d : date) (id : string) (r : crm_row) : Prop :=
  ∃ p, cs_parts s !! (o, d) = Some p ∧ r ∈ pt_rows p ∧ r !! "Id" = Some (PStr id).

Definition is_current (o : string) (s : crm_store) (id : string) (r : crm_row) : Prop :=
  (∃ d, in_part o s d id r ∧ ∀ d' r', in_part o s d' id r' → d' ≤ d) ∨
  (r ∈ pt_rows (base o) ∧ r !! "Id" = Some (PStr id) ∧ ∀ d r', ¬ in_part o s d id r').

Lemma elem_of_object_parts o s d p : (d, p) ∈ object_parts root o s ↔ cs_parts s !! (o, d) = Some p.
Proof.
  unfold object_parts. rewrite elem_of_sort_on, list_elem_of_omap. split.
  - intros ([[o' d'] p'] & Hin & Hsome). apply elem_of_map_to_list in Hin. cbn in Hsome.
    destruct (String.eqb_spec o' o) as [->|]; [|done]. by injection Hsome as <- <-.
  - intros H. exists (o, d, p). split; [by apply elem_of_map_to_list|]. cbn. by rewrite String.eqb_refl.
Qed.

Lemma elem_of_crm_deltas o s r : r ∈ delta_rows root o s ↔ ∃ d p, cs_parts s !! (o, d) = Some p ∧ r ∈ pt_rows p.
Proof.
  unfold delta_rows. rewrite list_elem_of_bind. split.
  - intros ([d p] & Hr & Hin). apply elem_of_object_parts in Hin. eauto.
  - intros (d & p & Hp & Hr). exists (d, p). by rewrite elem_of_object_parts.
Qed.

Lemma is_row_spec id r : is_row id r = true ↔ r !! "Id" = Some (PStr id).
Proof. unfold is_row. by rewrite bool_decide_eq_true. Qed.

Lemma NoDup_row_id l r r' : NoDup (row_id <$> l) → r ∈ l → r' ∈ l → r !! "Id" = r' !! "Id" → r = r'.
Proof.
  intros Hnd Hr Hr' Heq. apply list_elem_of_lookup in Hr as [i Hi], Hr' as [j Hj].
  assert (i = j) as ->; [|congruence].
  eapply NoDup_lookup; [exact Hnd|..]; rewrite list_lookup_fmap; [by rewrite Hi|rewrite Hj; simpl; unfold row_id; by rewrite Heq].
Qed.

Lemma NoDup_fmap_filter {A B} (f : A → B) (P : A → Prop) `{∀ x, Decision (P x)} l :
  NoDup (f <$> l) → NoDup (f <$> filter P l).
Proof.
  induction l as [|x l IH]; [done|]. rewrite filter_cons. cbn [fmap list_fmap]. intros [Hx Hnd]%NoDup_cons.
  case_decide; [|by apply IH]. cbn [fmap list_fmap]. constructor; [|by apply IH].
  intros (y & Hy & Hin)%list_elem_of_fmap. apply Hx. rewrite Hy. apply list_elem_of_fmap_2.
  by apply list_elem_of_filter in Hin as [_ ?].
Qed.

(** Later dates write greater versions. *)
Lemma part_versions b w s o d d' id r r' c t t' :
  store_inv b w s → o ∈ objects → in_part o s d id r → in_part o s d' id r' → c ∈ versions →
  r !! c = Some (PStr t) → r' !! c = Some (PStr t') → str_le t' t = true → d' ≤ d.
Proof.
  intros H Ho (p & Hp & Hr & _) (p' & Hp' & Hr' & _) Hc Ht Ht' Hle.
  rewrite (st_version _ _ (si_rows _ _ _ H o d p r Ho Hp Hr) c Hc) in Ht. injection Ht as <-.
  rewrite (st_version _ _ (si_rows _ _ _ H o d' p' r' Ho Hp' Hr') c Hc) in Ht'. injection Ht' as <-.
  destruct (decide (d' ≤ d)) as [|Hgt]; [done|exfalso].
  pose proof (si_dates _ _ _ H). pose proof (si_keys _ _ _ H _ _ _ Hp). pose proof (si_keys _ _ _ H _ _ _ Hp').
  rewrite (str_lt_not_le (_timestamp d) (_timestamp d')) in Hle; [done|]. apply timestamp_lt; lia.
Qed.

Lemma is_current_unique b w s o id r r' :
  store_inv b w s → o ∈ objects → is_current o s id r → is_current o s id r' → r = r'.
Proof.
  intros H Ho [(d & Hr & Hmax)|(Hr & Hid & Hno)] [(d' & Hr' & Hmax')|(Hr' & Hid' & Hno')].
  - pose proof (Hmax _ _ Hr'). pose proof (Hmax' _ _ Hr). assert (d' = d) as -> by lia.
    destruct Hr as (p & Hp & Hr & Hid), Hr' as (p' & Hp' & Hr' & Hid'). assert (p' = p) as -> by congruence.
    eapply NoDup_row_id; [by apply (si_ids _ _ _ H o d p)|done|done|congruence].
  - by destruct (Hno' _ _ Hr).
  - by destruct (Hno _ _ Hr').
  - eapply NoDup_row_id; [by apply (bo_ids _ _ (si_base _ _ _ H o Ho))|done|done|congruence].
Qed.

(** Whatever it ranks by, over the deltas alone or with the seed: the row ranked first among those
    of one record is its current one. *)
Lemma picked_delta_current b w s o id c r :
  store_inv b w s → o ∈ objects → c ∈ versions →
  pick c (filter (λ r, is_row id r = true) (delta_rows root o s)) = Some r → is_current o s id r.
Proof.
  intros H Ho Hc Hp. left. pose proof (pick_in _ _ _ Hp) as Hin.
  apply list_elem_of_filter in Hin as [Hid Hin]. apply is_row_spec in Hid.
  apply elem_of_crm_deltas in Hin as (d & p & Hpart & Hr).
  assert (in_part o s d id r) as Hir by (by exists p). exists d. split; [done|]. intros d' r' Hir'.
  pose proof Hir' as (p' & Hp' & Hr' & Hid').
  eapply (part_versions b w s o d d' id r r' c); try done.
  - apply (st_version _ _ (si_rows _ _ _ H o d p r Ho Hpart Hr) c Hc).
  - apply (st_version _ _ (si_rows _ _ _ H o d' p' r' Ho Hp' Hr') c Hc).
  - eapply (pick_newest c _ r r'); [exact Hp| |apply (st_version _ _ (si_rows _ _ _ H o d p r Ho Hpart Hr) c Hc)
      |apply (st_version _ _ (si_rows _ _ _ H o d' p' r' Ho Hp' Hr') c Hc)].
    apply list_elem_of_filter. split; [by apply is_row_spec|]. apply elem_of_crm_deltas. eauto.
Qed.

Lemma picked_current b w s o id c r :
  store_inv b w s → o ∈ objects → c ∈ versions →
  pick c (filter (λ r, is_row id r = true) (pt_rows (base o) ++ delta_rows root o s)) = Some r → is_current o s id r.
Proof.
  intros H Ho Hc Hp. pose proof (pick_in _ _ _ Hp) as Hin.
  apply list_elem_of_filter in Hin as [Hid Hin]. apply is_row_spec in Hid.
  assert (∀ d' r', in_part o s d' id r' → r' ∈ filter (λ r, is_row id r = true) (pt_rows (base o) ++ delta_rows root o s)) as Hcand.
  { intros d' r' (p' & Hp' & Hr' & Hid'). apply list_elem_of_filter. split; [by apply is_row_spec|].
    apply elem_of_app. right. apply elem_of_crm_deltas. eauto. }
  apply elem_of_app in Hin as [Hin|Hin].
  - right. split; [done|]. split; [done|]. intros d r' Hir. pose proof Hir as (p & Hpart & Hr & _).
    destruct (bo_rows _ _ (si_base _ _ _ H o Ho) r Hin) as (t & Ht & Hlt).
    pose proof (pick_newest c _ r r' t (_timestamp d) Hp (Hcand _ _ Hir) (st_version _ _ Ht c Hc)
      (st_version _ _ (si_rows _ _ _ H o d p r' Ho Hpart Hr) c Hc)) as Hle.
    pose proof (si_dates _ _ _ H). pose proof (si_keys _ _ _ H _ _ _ Hpart).
    assert (str_lt t (_timestamp d)) as Hlt2.
    { destruct (decide (d = b + 1)) as [->|]; [done|]. eapply str_lt_trans; [exact Hlt|]. apply timestamp_lt; lia. }
    rewrite (str_lt_not_le _ _ Hlt2) in Hle. done.
  - left. apply elem_of_crm_deltas in Hin as (d & p & Hpart & Hr). exists d. split; [by exists p|].
    intros d' r' Hir'. pose proof Hir' as (p' & Hp' & Hr' & _).
    eapply (part_versions b w s o d d' id r r' c); try done; [by exists p|..].
    + apply (st_version _ _ (si_rows _ _ _ H o d p r Ho Hpart Hr) c Hc).
    + apply (st_version _ _ (si_rows _ _ _ H o d' p' r' Ho Hp' Hr') c Hc).
    + eapply (pick_newest c _ r r'); [exact Hp|by eapply Hcand|apply (st_version _ _ (si_rows _ _ _ H o d p r Ho Hpart Hr) c Hc)
      |apply (st_version _ _ (si_rows _ _ _ H o d' p' r' Ho Hp' Hr') c Hc)].
Qed.

Lemma version_field_stamp b o : base_ok b o → version_field base o = "SystemModstamp".
Proof.
  intros H. unfold version_field. rewrite bool_decide_true; [done|]. apply (bo_schema _ _ H); [set_solver|by right].
Qed.

Lemma is_current_id o s id r : is_current o s id r → r !! "Id" = Some (PStr id).
Proof. by intros [(d & (p & _ & _ & Hid) & _)|(_ & Hid & _)]. Qed.

Lemma is_current_source o s id r :
  is_current o s id r → r ∈ pt_rows (base o) ++ delta_rows root o s.
Proof.
  rewrite elem_of_app, elem_of_crm_deltas. intros [(d & (p & Hp & Hr & _) & _)|(Hr & _)]; [right; eauto|by left].
Qed.

Lemma is_current_stamped b w s o id r :
  store_inv b w s → o ∈ objects → is_current o s id r → ∃ t, stamped t r.
Proof.
  intros H Ho [(d & (p & Hp & Hr & _) & _)|(Hr & _)].
  - eexists. by eapply (si_rows _ _ _ H o d p).
  - destruct (bo_rows _ _ (si_base _ _ _ H o Ho) r Hr) as (t & Ht & _). by exists t.
Qed.

(** The publisher's read. *)
Lemma current_row_spec b w s o id fr :
  store_inv b w s → o ∈ objects →
  current_row root base pick o s id = Some fr ↔ ∃ r, is_current o s id r ∧ fr = full_row (pt_schema (base o)) r.
Proof.
  intros H Ho. unfold current_row. rewrite (version_field_stamp b) by (by apply (si_base _ _ _ H)).
  rewrite fmap_Some. split.
  - intros (r & Hp & ->). exists r. split; [|done]. eapply picked_current; try done. set_solver.
  - intros (r & Hr & ->). exists r. split; [|done].
    destruct (pick_some "SystemModstamp" (filter (λ r, is_row id r = true) (pt_rows (base o) ++ delta_rows root o s)))
      as [r2 Hp].
    + intros E. eapply (filter_nil_not_elem_of _ _ r E).
      * apply is_row_spec. by eapply is_current_id.
      * by eapply is_current_source.
    + rewrite Hp. f_equal. eapply is_current_unique; [exact H|exact Ho| |exact Hr].
      eapply picked_current; try done. set_solver.
Qed.

Lemma elem_of_latest_delta b w s o r :
  store_inv b w s → o ∈ objects →
  r ∈ latest_delta pick (delta_rows root o s) ↔ ∃ id d, is_current o s id r ∧ in_part o s d id r.
Proof.
  intros H Ho. unfold latest_delta. rewrite list_elem_of_omap.
  assert (∀ id, filter (λ r : crm_row, r !! "Id" = Some (PStr id)) (delta_rows root o s)
    = filter (λ r, is_row id r = true) (delta_rows root o s)) as Hf.
  { intros id. apply list_filter_iff. intros x. symmetry. apply is_row_spec. }
  split.
  - intros (k & Hk & Hp). apply elem_of_remove_dups, list_elem_of_fmap in Hk as (x & -> & Hx).
    pose proof Hx as Hx2. apply elem_of_crm_deltas in Hx2 as (d & p & Hpart & Hxp).
    destruct (st_id _ _ (si_rows _ _ _ H o d p x Ho Hpart Hxp)) as [id Hid]. rewrite Hid, Hf in Hp.
    pose proof (picked_delta_current b w s o id "LastModifiedDate" r H Ho ltac:(set_solver) Hp) as Hcur.
    pose proof (pick_in _ _ _ Hp) as Hin. apply list_elem_of_filter in Hin as [Hir Hin]. apply is_row_spec in Hir.
    apply elem_of_crm_deltas in Hin as (d2 & p2 & Hp2 & Hr2). exists id, d2. split; [done|by exists p2].
  - intros (id & d & Hcur & (p & Hpart & Hr & Hid)). exists (Some (PStr id)).
    assert (r ∈ delta_rows root o s) as Hin by (apply elem_of_crm_deltas; eauto). split.
    + apply elem_of_remove_dups, list_elem_of_fmap. by exists r.
    + rewrite Hf. destruct (pick_some "LastModifiedDate" (filter (λ r, is_row id r = true) (delta_rows root o s))) as [r2 Hp].
      * intros E. eapply (filter_nil_not_elem_of _ _ r E); [by apply is_row_spec|done].
      * rewrite Hp. f_equal. eapply is_current_unique; [exact H|exact Ho| |exact Hcur].
        eapply picked_delta_current; try done. set_solver.
Qed.

Lemma not_superseded o s r b w :
  store_inv b w s → o ∈ objects → r ∈ pt_rows (base o) →
  superseded (latest_delta pick (delta_rows root o s)) r = false ↔
  ∃ id, r !! "Id" = Some (PStr id) ∧ ∀ d r', ¬ in_part o s d id r'.
Proof.
  intros H Ho Hr. destruct (bo_rows _ _ (si_base _ _ _ H o Ho) r Hr) as (t & Ht & _).
  destruct (st_id _ _ Ht) as [id Hid]. unfold superseded. rewrite bool_decide_eq_false. split.
  - intros Hn. exists id. split; [done|]. intros d r' Hir. apply Hn. split; [by rewrite Hid|].
    pose proof Hir as (p & Hp & Hr' & Hid').
    destruct (pick_some "LastModifiedDate" (filter (λ r, is_row id r = true) (delta_rows root o s))) as [r2 Hp2].
    { intros E. eapply (filter_nil_not_elem_of _ _ r' E); [by apply is_row_spec|]. apply elem_of_crm_deltas. eauto. }
    pose proof (picked_delta_current b w s o id "LastModifiedDate" r2 H Ho ltac:(set_solver) Hp2) as Hcur.
    pose proof (pick_in _ _ _ Hp2) as Hin. apply list_elem_of_filter in Hin as [Hi2 Hin]. apply is_row_spec in Hi2.
    apply elem_of_crm_deltas in Hin as (d2 & p2 & Hpp & Hrr).
    apply list_elem_of_fmap. exists r2. split; [by rewrite Hi2|]. apply (elem_of_latest_delta b w); [done..|].
    exists id, d2. split; [done|by exists p2].
  - intros (id' & Hid' & Hno) [_ Hin]. apply list_elem_of_fmap in Hin as (r2 & Heq & Hr2).
    apply (elem_of_latest_delta b w) in Hr2 as (id2 & d & Hcur & Hir); [|done..].
    pose proof (is_current_id _ _ _ _ Hcur). assert (id2 = id') as -> by congruence. by destruct (Hno d r2).
Qed.

(** The planner's read: the current rows, one per record. *)
Lemma relation_spec b w s o r :
  store_inv b w s → o ∈ objects → r ∈ _relation root base pick o s ↔ ∃ id, is_current o s id r.
Proof.
  intros H Ho. unfold _relation. destruct (object_parts root o s) as [|dp dps] eqn:E.
  - assert (∀ d id r', ¬ in_part o s d id r') as Hno.
    { intros d id r' (p & Hp & _). apply elem_of_object_parts in Hp. rewrite E in Hp. by apply elem_of_nil in Hp. }
    split.
    + intros Hr. destruct (bo_rows _ _ (si_base _ _ _ H o Ho) r Hr) as (t & Ht & _).
      destruct (st_id _ _ Ht) as [id Hid]. exists id. right. split; [done|]. split; [done|]. intros d r'. apply Hno.
    + intros (id & [(d & Hir & _)|(Hr & _)]); [by destruct (Hno d id r)|done].
  - rewrite elem_of_app, list_elem_of_filter. split.
    + intros [[Hs Hr]|Hr].
      * apply (not_superseded o s r b w) in Hs as (id & Hid & Hno); [|done..]. exists id. by right.
      * apply (elem_of_latest_delta b w) in Hr as (id & d & Hcur & _); [|done..]. by exists id.
    + intros (id & Hcur). destruct Hcur as [(d & Hir & Hmax)|(Hr & Hid & Hno)].
      * right. apply (elem_of_latest_delta b w); [done..|]. exists id, d. split; [left; by exists d|done].
      * left. split; [|done]. apply (not_superseded o s r b w); [done..|]. by exists id.
Qed.

Lemma latest_delta_ids deltas : NoDup (row_id <$> latest_delta pick deltas).
Proof.
  unfold latest_delta.
  assert (∀ ids, NoDup ids → NoDup (row_id <$> omap (λ id, pick "LastModifiedDate" (filter (λ r : crm_row, r !! "Id" = id) deltas)) ids)
    ∧ ∀ x, x ∈ row_id <$> omap (λ id, pick "LastModifiedDate" (filter (λ r : crm_row, r !! "Id" = id) deltas)) ids → x ∈ ids) as Hgen.
  { induction 1 as [|id ids Hid Hnd IH]; [split; [constructor|intros x Hx; by apply elem_of_nil in Hx]|].
    destruct IH as [IH1 IH2]. cbn [omap list_omap].
    destruct (pick "LastModifiedDate" (filter (λ r : crm_row, r !! "Id" = id) deltas)) as [r|] eqn:Hp.
    - apply pick_in, list_elem_of_filter in Hp as [Hr _]. cbn [fmap list_fmap]. unfold row_id at 1 3. rewrite Hr. split.
      + constructor; [|done]. intros Hx. by apply Hid, IH2.
      + intros x [->|Hx]%elem_of_cons; [left|right; by apply IH2].
    - split; [done|]. intros x Hx. right. by apply IH2. }
  apply Hgen. apply NoDup_remove_dups.
Qed.

Lemma relation_ids b w s o : store_inv b w s → o ∈ objects → NoDup (row_id <$> _relation root base pick o s).
Proof.
  intros H Ho. pose proof (bo_ids _ _ (si_base _ _ _ H o Ho)) as Hb. unfold _relation.
  destruct (object_parts root o s); [done|]. rewrite fmap_app. apply NoDup_app. split.
  - by apply NoDup_fmap_filter.
  - split; [|apply latest_delta_ids]. intros x Hx Hx'. apply list_elem_of_fmap in Hx as (r & -> & Hr).
    apply list_elem_of_filter in Hr as [Hs Hr]. apply (not_superseded o s r b w) in Hs as (id & Hid & Hno); [|done..].
    apply list_elem_of_fmap in Hx' as (r2 & Heq & Hr2).
    apply (elem_of_latest_delta b w) in Hr2 as (id2 & d & Hcur & Hir); [|done..].
    pose proof (is_current_id _ _ _ _ Hcur). unfold row_id in Heq. assert (id2 = id) as -> by congruence.
    by destruct (Hno d r2).
Qed.
End Facts.
