(* ===== verification/CrmHistory.v ===== *)
(** * Validation of the opportunity history: [simulator/crm_history.py]

    The checks of one day's history partition against its events and the manifest, problem by
    problem in the code's order. *)

From stdpp Require Import prelude gmap strings list.
From Stdlib Require Import ZArith Lia Ascii.
From S2P Require Import Prelude PyText Dates Soql Catalog PyNum PyRandom Policy Events Crm CrmStore.

Open Scope Z_scope.

Record OpportunityHistoryValidationReport := mkReport {
  hr_run_date : date;
  hr_expected_events : Z;
  hr_actual_rows : Z;
  hr_problems : list string }.

(** What is found at the paths of the partition and of the manifest. *)
Inductive history_file := PartMissing | PartUnreadable (error : string) | PartReadable (p : part).
Inductive manifest_file := ManifestMissing | ManifestUnreadable (error : string) | ManifestReadable (j : json).

Definition problem_if (b : bool) (text : string) : list string := if b then [text] else [].

(** [sorted(set(values))] *)
Definition sorted_set (l : list string) : list string := sort_on id (remove_dups l).

Definition problem_unless_empty (l : list string) (text : string) : list string :=
  match l with [] => [] | _ => [text +:+ join ", " l] end.

Definition _read_manifest (m : manifest_file) : option (list (string * json)) * list string :=
  match m with
  | ManifestMissing => (None, ["CRM publication manifest is missing"])
  | ManifestUnreadable error => (None, ["CRM publication manifest cannot be read: " +:+ error])
  | ManifestReadable (JObj fields) => (Some fields, [])
  | ManifestReadable _ => (None, ["CRM publication manifest is not an object"])
  end.

(** [str(value)] of a JSON value *)
Definition json_to_str (j : json) : string := match j with JStr s => s | _ => json_repr j end.

Definition _validate_manifest (manifest : option (list (string * json))) (target : string)
    (expected : list SourceEvent) : list string :=
  match manifest with
  | None => []
  | Some fields =>
    let referenced := match aget "parts" fields with
                      | Some (JObj parts) => match aget "opportunity_history" parts with
                                             | Some (JStr p) => String.eqb p target | _ => false end
                      | _ => false
                      end in
    problem_if (negb referenced) "CRM manifest does not reference the OpportunityHistory partition" ++
    match (match aget "events" fields with Some (JObj groups) => aget "opportunities" groups | _ => None end) with
    | Some (JArr ids) =>
      let present := json_to_str <$> ids in
      problem_unless_empty (sorted_set (filter (λ i, i ∉ present) (event_id <$> expected)))
        "CRM manifest is missing OpportunityHistory event IDs: "
    | _ => ["CRM manifest has no opportunity event IDs"]
    end
  end.

(** The checks of one row that has an event. *)
Definition row_problems (run_date : date) (r : crm_row) (e : SourceEvent) : list string :=
  let history := "OpportunityHistory " +:+ event_id e in
  let p := payload e in
  let previous := row_get "PreviousStageName" r in
  let stamp := get_or "SystemModstamp" p (row_get "LastModifiedDate" p) in
  problem_if (negb (bool_decide (row_get "OpportunityId" r = PStr (entity_id e))))
    (history +:+ " has the wrong OpportunityId") ++
  problem_if (negb (bool_decide (row_get "StageName" r = row_get "StageName" p)))
    (history +:+ " has the wrong StageName") ++
  problem_if (negb (String.eqb (to_str (row_get "CreatedDate" r)) (to_str (row_get "LastModifiedDate" p))))
    (history +:+ " has the wrong CreatedDate") ++
  problem_if (negb (String.eqb (to_str (row_get "SystemModstamp" r)) (to_str stamp)))
    (history +:+ " has the wrong SystemModstamp") ++
  problem_if (String.eqb (event_type e) "opportunity_created" && negb (bool_decide (previous = PNone)))
    (history +:+ " must begin with a null previous stage") ++
  problem_if (String.eqb (event_type e) "opportunity_stage_changed"
              && (bool_decide (previous = PNone) || bool_decide (previous = row_get "StageName" r)))
    (history +:+ " has an invalid stage transition") ++
  problem_if (negb (starts_with (isoformat run_date) (to_str (get_or "CreatedDate" r (PStr "")))))
    (history +:+ " is outside its business-date partition").

(** [{event.event_id: event for event in expected}]: of two events with one identifier the later *)
Definition expected_by_id (expected : list SourceEvent) : gmap string SourceEvent :=
  foldl (λ m e, <[event_id e := e]> m) ∅ expected.

Definition _validate_rows (rows : list crm_row) (expected : list SourceEvent) (run_date : date) : list string :=
  let by_id := expected_by_id expected in
  let actual_ids := (λ r, to_str (row_get "Id" r)) <$> rows in
  let expected_ids := event_id <$> expected in
  problem_unless_empty
    (sorted_set (filter (λ v, (1 < length (filter (λ v', v' = v) actual_ids))%nat) actual_ids))
    "OpportunityHistory partition has duplicate Id values: " ++
  problem_unless_empty (sorted_set (filter (λ v, v ∉ actual_ids) expected_ids))
    "OpportunityHistory rows missing for event IDs: " ++
  problem_unless_empty (sorted_set (filter (λ v, v ∉ expected_ids) actual_ids))
    "OpportunityHistory rows not backed by CRM events: " ++
  (rows ≫= λ r, match by_id !! to_str (row_get "Id" r) with
                | Some e => row_problems run_date r e
                | None => []
                end).

(** [validate_opportunity_history_partition]; [target] is the path of the partition. *)
Definition validate_opportunity_history_partition (target : string) (file : history_file) (manifest : manifest_file)
    (run_date : date) (events : list SourceEvent) : OpportunityHistoryValidationReport :=
  let expected := filter (λ e, source_system e = crm ∧ history_type e = true) events in
  match expected with
  | [] => mkReport run_date 0 0
            (match file with PartMissing => [] | _ => ["unexpected OpportunityHistory partition"] end)
  | _ =>
    let '(fields, problems) := _read_manifest manifest in
    let problems := problems ++ _validate_manifest fields target expected in
    let n := Z.of_nat (length expected) in
    match file with
    | PartMissing => mkReport run_date n 0 (problems ++ ["OpportunityHistory partition is missing"])
    | PartUnreadable error =>
      mkReport run_date n 0 (problems ++ ["OpportunityHistory partition cannot be read: " +:+ error])
    | PartReadable p =>
      mkReport run_date n (Z.of_nat (length (pt_rows p)))
        (problems ++
         problem_if (negb (bool_decide (pt_schema p = OPPORTUNITY_HISTORY_SCHEMA)))
           "OpportunityHistory partition has an incompatible schema" ++
         _validate_rows (full_row (pt_schema p) <$> pt_rows p) expected run_date)
    end
  end.

(** The files of a store. *)
Definition history_of (s : crm_store) (d : date) : history_file :=
  match cs_parts s !! ("opportunity_history", d) with Some p => PartReadable p | None => PartMissing end.
Definition manifest_of (s : crm_store) (d : date) : manifest_file :=
  match cs_manifests s !! d with Some j => ManifestReadable j | None => ManifestMissing end.

Definition validate_day (root : string) (s : crm_store) (d : date) (events : list SourceEvent)
    : OpportunityHistoryValidationReport :=
  validate_opportunity_history_partition (part_path root "opportunity_history" d) (history_of s d) (manifest_of s d) d events.

(** ** What the validation accepts *)

(** A row that tells the change of an event. *)
Record row_tells (d : date) (r : crm_row) (e : SourceEvent) : Prop := {
  rt_opportunity : row_get "OpportunityId" r = PStr (entity_id e);
  rt_stage : row_get "StageName" r = row_get "StageName" (payload e);
  rt_created : to_str (row_get "CreatedDate" r) = to_str (row_get "LastModifiedDate" (payload e));
  rt_stamp : to_str (row_get "SystemModstamp" r)
             = to_str (get_or "SystemModstamp" (payload e) (row_get "LastModifiedDate" (payload e)));
  rt_first : event_type e = "opportunity_created" → row_get "PreviousStageName" r = PNone;
  rt_change : event_type e = "opportunity_stage_changed" →
    row_get "PreviousStageName" r ≠ PNone ∧ row_get "PreviousStageName" r ≠ row_get "StageName" r;
  rt_date : starts_with (isoformat d) (to_str (get_or "CreatedDate" r (PStr ""))) = true }.

Lemma problem_if_nil b text : problem_if b text = [] ↔ b = false.
Proof. by destruct b. Qed.

Lemma row_problems_nil d r e : row_problems d r e = [] ↔ row_tells d r e.
Proof.
  unfold row_problems. cbv zeta. rewrite !app_nil, !problem_if_nil, !negb_false_iff, !bool_decide_eq_true, !String.eqb_eq,
    !andb_false_iff, !String.eqb_neq, negb_false_iff, bool_decide_eq_true, orb_false_iff, !bool_decide_eq_false.
  split.
  - intros (H1 & H2 & H3 & H4 & H5 & H6 & H7). split; [done..| | |done].
    + intros Ht. by destruct H5.
    + intros Ht. by destruct H6.
  - intros [H1 H2 H3 H4 H5 H6 H7]. split_and!; [done..| | |done].
    + destruct (decide (event_type e = "opportunity_created")); [right; auto|by left].
    + destruct (decide (event_type e = "opportunity_stage_changed")); [right; auto|by left].
Qed.

Lemma sorted_set_nil l : sorted_set l = [] ↔ l = [].
Proof.
  split; [|by intros ->]. intros H. destruct l as [|x l]; [done|].
  assert (x ∈ sorted_set (x :: l)) as Hx by (unfold sorted_set; rewrite elem_of_sort_on, elem_of_remove_dups; left).
  rewrite H in Hx. by apply elem_of_nil in Hx.
Qed.

Lemma problem_unless_empty_nil l text : problem_unless_empty l text = [] ↔ l = [].
Proof. by destruct l. Qed.

Lemma filter_nil_iff {A} (P : A → Prop) `{∀ x, Decision (P x)} l : filter P l = [] ↔ ∀ x, x ∈ l → ¬ P x.
Proof.
  split; [intros E x Hx Hp; by eapply (filter_nil_not_elem_of _ _ x E)|].
  intros Hl. destruct (filter P l) as [|x k] eqn:E; [done|]. assert (x ∈ filter P l) as Hx by (rewrite E; left).
  apply list_elem_of_filter in Hx as [Hp Hx]. by destruct (Hl x Hx).
Qed.

Lemma NoDup_counts (l : list string) : NoDup l ↔ ∀ v, v ∈ l → ¬ (1 < length (filter (λ v', v' = v) l))%nat.
Proof.
  split.
  - intros Hnd v _. induction Hnd as [|x l Hx Hnd IH]; [simpl; lia|]. rewrite filter_cons. case_decide as Heq; [|done]. subst x.
    assert (filter (λ v', v' = v) l = []) as -> by (apply filter_nil_iff; intros y Hy ->; done). simpl. lia.
  - induction l as [|x l IH]; intros Hc; [constructor|]. constructor.
    + intros Hx. apply (Hc x); [left|]. rewrite filter_cons_True by done. simpl.
      destruct (filter (λ v', v' = x) l) eqn:E; [|simpl; lia]. rewrite filter_nil_iff in E. by destruct (E x Hx).
    + apply IH. intros v Hv Hlt. apply (Hc v); [by right|]. rewrite filter_cons. case_decide; simpl; lia.
Qed.

Definition row_ids (rows : list crm_row) : list string := (λ r, to_str (row_get "Id" r)) <$> rows.

(** Rows that tell the expected events and nothing else. *)
Record rows_tell (d : date) (rows : list crm_row) (expected : list SourceEvent) : Prop := {
  rs_once : NoDup (row_ids rows);
  rs_ids : ∀ id, id ∈ row_ids rows ↔ id ∈ event_id <$> expected;
  rs_rows : ∀ r e, r ∈ rows → expected_by_id expected !! to_str (row_get "Id" r) = Some e → row_tells d r e }.

Lemma _validate_rows_nil rows expected d : _validate_rows rows expected d = [] ↔ rows_tell d rows expected.
Proof.
  unfold _validate_rows. cbv zeta. fold (row_ids rows).
  rewrite !app_nil, !problem_unless_empty_nil, !sorted_set_nil, !filter_nil_iff, <- NoDup_counts.
  assert ((rows ≫= λ r, match expected_by_id expected !! to_str (row_get "Id" r) with Some e => row_problems d r e | None => [] end) = []
    ↔ ∀ r e, r ∈ rows → expected_by_id expected !! to_str (row_get "Id" r) = Some e → row_tells d r e) as ->.
  { split.
    - intros E r e Hr He. apply row_problems_nil. destruct (row_problems d r e) as [|x l] eqn:Ep; [done|exfalso].
      assert (x ∈ (rows ≫= λ r, match expected_by_id expected !! to_str (row_get "Id" r) with Some e => row_problems d r e | None => [] end)) as Hx.
      { apply list_elem_of_bind. exists r. rewrite He, Ep. split; [left|done]. }
      rewrite E in Hx. by apply elem_of_nil in Hx.
    - intros Hall. induction rows as [|r rows IH]; [done|]. cbn [mbind list_bind]. rewrite IH.
      + destruct (expected_by_id expected !! _) as [e|] eqn:He; [|done]. rewrite app_nil_r. apply row_problems_nil.
        by apply (Hall r); [left|].
      + intros r' e Hr'. apply Hall. by right. }
  split.
  - intros (H1 & H2 & H3 & H4). split; [done| |done]. intros id. split; intros Hid.
    + destruct (decide (id ∈ event_id <$> expected)); [done|]. by destruct (H3 id Hid).
    + destruct (decide (id ∈ row_ids rows)); [done|]. by destruct (H2 id Hid).
  - intros [H1 H2 H3]. split_and!; [done|..|done]; intros x Hx Hn; apply Hn; by apply H2.
Qed.

(** A manifest that names the partition and every expected event. *)
Definition manifest_tells (target : string) (fields : list (string * json)) (expected : list SourceEvent) : Prop :=
  (∃ parts, aget "parts" fields = Some (JObj parts) ∧ aget "opportunity_history" parts = Some (JStr target)) ∧
  ∃ groups ids, aget "events" fields = Some (JObj groups) ∧ aget "opportunities" groups = Some (JArr ids) ∧
    ∀ e, e ∈ expected → event_id e ∈ json_to_str <$> ids.

Lemma _validate_manifest_nil target fields expected :
  _validate_manifest (Some fields) target expected = [] ↔ manifest_tells target fields expected.
Proof.
  unfold _validate_manifest, manifest_tells. rewrite app_nil, problem_if_nil, negb_false_iff.
  assert (match aget "parts" fields with
          | Some (JObj parts) => match aget "opportunity_history" parts with Some (JStr p) => String.eqb p target | _ => false end
          | _ => false end = true
    ↔ ∃ parts, aget "parts" fields = Some (JObj parts) ∧ aget "opportunity_history" parts = Some (JStr target)) as ->.
  { split.
    - intros H. repeat case_match; try done. apply String.eqb_eq in H as ->. eauto.
    - intros (parts & -> & ->). apply String.eqb_refl. }
  apply and_iff_compat_l. split.
  - intros H. destruct (aget "events" fields) as [[]|]; try done.
    match type of H with context [aget "opportunities" ?g] => destruct (aget "opportunities" g) as [[]|] eqn:E end; try done.
    rewrite problem_unless_empty_nil, sorted_set_nil, filter_nil_iff in H. do 2 eexists. split; [done|]. split; [done|].
    intros e He. destruct (decide (event_id e ∈ json_to_str <$> l0)) as [|Hn]; [done|].
    by destruct (H (event_id e)); [apply list_elem_of_fmap_2|].
  - intros (groups & ids & -> & -> & Hall). apply problem_unless_empty_nil, sorted_set_nil, filter_nil_iff.
    intros x (e & -> & He)%list_elem_of_fmap Hn. by apply Hn, Hall.
Qed.

(** C39: What the validation of a day's opportunity history accepts, exactly. It reports no problem if
    and only if either the date has no event that changes a stage and there is no partition, or the
    manifest names the partition and every such event, and the partition has the schema, one row for
    each event and no other, each with the event's opportunity, stage and times, a first stage
    without a previous one and a change from a different stage. *)
Theorem history_validation_exact target file manifest d events :
  let expected := filter (λ e, source_system e = crm ∧ history_type e = true) events in
  hr_problems (validate_opportunity_history_partition target file manifest d events) = [] ↔
  (expected = [] ∧ file = PartMissing) ∨
  (expected ≠ [] ∧ ∃ fields p, manifest = ManifestReadable (JObj fields) ∧ manifest_tells target fields expected ∧
     file = PartReadable p ∧ pt_schema p = OPPORTUNITY_HISTORY_SCHEMA ∧
     rows_tell d (full_row (pt_schema p) <$> pt_rows p) expected).
Proof.
  intros expected. unfold validate_opportunity_history_partition. fold expected.
  destruct expected as [|x l] eqn:Ex; [|rewrite <- Ex].
  { destruct file; cbn; (split; [intros H|intros [[_ ?]|[? _]]]); try done. by left. }
  assert (expected ≠ []) as Hne by (by rewrite Ex). clear Ex. clearbody expected. split.
  - intros H. right. split; [done|].
    destruct manifest as [|err|[ | | | | | |fields]]; cbn [_read_manifest] in H;
      try (destruct file; done). exists fields. destruct file as [|err|p]; cbn [hr_problems app] in H.
    + by destruct (_validate_manifest _ _ _).
    + by destruct (_validate_manifest _ _ _).
    + rewrite !app_nil, _validate_manifest_nil, problem_if_nil, negb_false_iff, bool_decide_eq_true, _validate_rows_nil in H.
      destruct H as (H1 & H2 & H3). by exists p.
  - intros [[? _]|(_ & fields & p & -> & Hm & -> & Hs & Hr)]; [done|]. cbn [_read_manifest hr_problems app].
    rewrite !app_nil, _validate_manifest_nil, problem_if_nil, negb_false_iff, bool_decide_eq_true, _validate_rows_nil. done.
Qed.
