(* ===== verification/CrmDay.v ===== *)
(** * One CRM day

    Reading, planning and publishing composed: from any store built day by day, the planned events
    of the next date publish, their history passes its validation, and a reader then sees the
    changed records and no other change. *)

From stdpp Require Import prelude gmap strings list.
From Stdlib Require Import ZArith Lia Ascii.
From S2P Require Import Prelude PyText Dates Soql Catalog PyNum PyRandom Policy Events Crm CrmStore CrmFacts CrmHistory.

Open Scope Z_scope.

(** ** Grouping *)

Definition on_object (o : string) (e : SourceEvent) : bool :=
  match _object_for e with Ok o' => String.eqb o' o | Err _ => false end.

Lemma on_object_ok o e : on_object o e = true ↔ _object_for e = Ok o.
Proof.
  unfold on_object. destruct (_object_for e) as [o'|]; [|done].
  destruct (String.eqb_spec o' o) as [->|Hne]; [done|]. split; [done|]. congruence.
Qed.

Lemma group_events_spec events : ∀ g0,
  NoDup g0.*1 → (∀ e, e ∈ events → source_system e = crm ∧ is_ok (_object_for e) = true) →
  ∃ g, group_events g0 events = Ok g ∧ NoDup g.*1 ∧
    ∀ o, aget o g = match filter (λ e, on_object o e = true) events with
                    | [] => aget o g0 | l => Some (default [] (aget o g0) ++ l) end.
Proof.
  induction events as [|e events IH]; intros g0 Hnd Hall; cbn [group_events]; [by exists g0|].
  destruct (Hall e ltac:(left)) as [-> Ho]. rewrite bool_decide_true by done. cbn [negb].
  destruct (_object_for e) as [o1|] eqn:Eo; [|done]. cbn [res_bind].
  destruct (IH (aset o1 (default [] (aget o1 g0) ++ [e]) g0)) as (g & E & Hg & Hget);
    [by apply NoDup_aset|by intros; apply Hall; right|].
  exists g. split; [done|]. split; [done|]. intros o. rewrite Hget, filter_cons, aget_aset.
  destruct (String.eqb_spec o o1) as [->|Hne].
  - rewrite decide_True by (by apply on_object_ok).
    destruct (filter (λ e0, on_object o1 e0 = true) events); simpl; [done|]. by rewrite <- app_assoc.
  - rewrite decide_False; [done|]. rewrite on_object_ok. congruence.
Qed.

(** Accounts first, then opportunities. *)
Lemma group_events_append o events : ∀ g done_,
  (∀ e, e ∈ events → source_system e = crm ∧ _object_for e = Ok o) → o ∉ g.*1 → events ≠ [] ∨ done_ ≠ [] →
  group_events (match done_ with [] => g | _ => g ++ [(o, done_)] end) events = Ok (g ++ [(o, done_ ++ events)]).
Proof.
  induction events as [|e events IH]; intros g done_ Hall Hg Hne; cbn [group_events].
  { destruct done_; [by destruct Hne|]. by rewrite app_nil_r. }
  destruct (Hall e ltac:(left)) as [-> Ho]. rewrite bool_decide_true by done. cbn [negb]. rewrite Ho. cbn [res_bind].
  assert (aset o (default [] (aget o (match done_ with [] => g | _ => g ++ [(o, done_)] end)) ++ [e])
    (match done_ with [] => g | _ => g ++ [(o, done_)] end) = g ++ [(o, done_ ++ [e])]) as ->.
  { clear -Hg. destruct done_ as [|x done_].
    - rewrite (proj2 (aget_None o g)) by done. by rewrite aset_new.
    - induction g as [|[k v] g IHg]; cbn [app aget aset]; [by rewrite String.eqb_refl|].
      cbn [fmap list_fmap fst] in Hg. apply not_elem_of_cons in Hg as [Hk Hg].
      destruct (String.eqb_spec o k); [done|]. f_equal. by apply IHg. }
  specialize (IH g (done_ ++ [e])). destruct (done_ ++ [e]) as [|x l] eqn:El; [by destruct done_|].
  rewrite IH; [|intros; apply Hall; by right|done|by right].
  rewrite <- El, <- app_assoc. done.
Qed.

Lemma group_events_app g0 l1 l2 : group_events g0 (l1 ++ l2) = (let! g := group_events g0 l1 in group_events g l2).
Proof.
  revert g0. induction l1 as [|e l1 IH]; intros g0; cbn [group_events app]; [done|].
  destruct (negb _); [done|]. destruct (_object_for e); cbn [res_bind]; [apply IH|done].
Qed.

Lemma group_day news changes :
  news ≠ [] → changes ≠ [] →
  (∀ e, e ∈ news → source_system e = crm ∧ _object_for e = Ok "accounts") →
  (∀ e, e ∈ changes → source_system e = crm ∧ _object_for e = Ok "opportunities") →
  group_events [] (news ++ changes) = Ok [("accounts", news); ("opportunities", changes)].
Proof.
  intros Hn Hc H1 H2. rewrite group_events_app.
  pose proof (group_events_append "accounts" news [] [] H1 ltac:(set_solver) (or_introl Hn)) as E1. cbn [app] in E1.
  pose proof (group_events_append "opportunities" changes [("accounts", news)] [] H2 ltac:(set_solver) (or_introl Hc)) as E2.
  cbn [app] in E2. rewrite E1. exact E2.
Qed.

(** ** Rows *)

Lemma table_row_lookup schema r c v :
  c ∈ schema → r !! c = Some v → v ≠ PNone → table_row schema r !! c = Some v.
Proof. intros Hc Hv Hn. by apply map_lookup_filter_Some. Qed.

Lemma row_get_table_row schema r c : c ∈ schema → row_get c (table_row schema r) = row_get c r.
Proof.
  intros Hc. unfold row_get, table_row. rewrite map_lookup_filter. destruct (r !! c) as [v|]; [|done]. cbn.
  destruct (decide (v = PNone)) as [->|Hv].
  - by rewrite option_guard_False by tauto.
  - by rewrite option_guard_True.
Qed.

Lemma full_row_lookup schema r c : full_row schema r !! c = if bool_decide (c ∈ schema) then Some (row_get c r) else None.
Proof.
  unfold full_row. induction schema as [|x schema IH]; [done|]. cbn [fmap list_fmap list_to_map foldr uncurry].
  destruct (decide (x = c)) as [->|Hne].
  - rewrite lookup_insert_eq, bool_decide_true by set_solver. done.
  - rewrite lookup_insert_ne by done. rewrite IH. assert (c ∈ x :: schema ↔ c ∈ schema) as Hiff by set_solver.
    by rewrite (bool_decide_ext _ _ Hiff).
Qed.

Lemma row_get_full_row schema r c : c ∈ schema → row_get c (full_row schema r) = row_get c r.
Proof. intros Hc. unfold row_get at 1. by rewrite full_row_lookup, bool_decide_true. Qed.

(** ** Manifests *)

Lemma insert_on_fmap {A B} (f : string * A → string * B) x l :
  (∀ y, (f y).1 = y.1) → insert_by (le_on fst) (f x) (f <$> l) = f <$> insert_by (le_on fst) x l.
Proof.
  intros Hf. induction l as [|y l IH]; [done|]. cbn [fmap list_fmap insert_by].
  assert (le_on fst (f x) (f y) = le_on fst x y) as -> by (unfold le_on; by rewrite !Hf).
  destruct (le_on fst x y); [done|]. cbn [fmap list_fmap]. f_equal. exact IH.
Qed.

Lemma sort_on_fmap {A B} (f : string * A → string * B) l :
  (∀ y, (f y).1 = y.1) → sort_on fst (f <$> l) = f <$> sort_on fst l.
Proof.
  intros Hf. induction l as [|x l IH]; [done|]. cbn [fmap list_fmap]. unfold sort_on in *. cbn [sort_by].
  change (insert_by (le_on fst) (f x) (sort_by (le_on fst) (f <$> l)) = f <$> insert_by (le_on fst) x (sort_by (le_on fst) l)).
  rewrite IH. by apply insert_on_fmap.
Qed.

Lemma mapM_jstr l : mapM jstr (JStr <$> l) = Some l.
Proof. induction l as [|x l IH]; [done|]. cbn. cbn in IH. by rewrite IH. Qed.

Lemma as_groups_json l : as_groups (JObj ((λ g : string * list string, (g.1, json_strings g.2)) <$> l)) = Some (list_to_map l).
Proof.
  unfold as_groups. match goal with |- list_to_map <$> ?m = _ => assert (m = Some l) as -> end; [|done].
  induction l as [|[k ss] l IH]; [done|]. cbn [fmap list_fmap mapM fst snd].
  rewrite IH. unfold json_strings. by rewrite mapM_jstr.
Qed.

(** What a manifest was written with is what it is read back as. *)
Lemma published_parts_json want want' parts :
  NoDup want.*1 → (list_to_map want' : gmap string (list string)) = list_to_map want →
  published_parts (manifest_json want parts) want' = Ok (sort_on fst parts).
Proof.
  intros Hnd Heq. unfold published_parts, manifest_json. cbn [aget String.eqb Ascii.eqb Bool.eqb].
  rewrite (sort_on_fmap (λ g : string * list string, (g.1, json_strings g.2))) by done. rewrite as_groups_json.
  rewrite bool_decide_true.
  - cbn [negb]. rewrite (sort_on_fmap (λ p : string * string, (p.1, JStr p.2))) by done.
    generalize (sort_on fst parts). intros l. induction l as [|[k v] l IH]; [done|].
    cbn [fmap list_fmap res_map]. cbn in IH |- *. by rewrite IH.
  - f_equal. rewrite Heq. apply list_to_map_proper.
    + by rewrite (sort_by_perm (le_on fst) want).
    + apply sort_by_perm.
Qed.

Lemma lookup_list_to_map {V} (l : list (string * V)) k : (list_to_map l : gmap string V) !! k = aget k l.
Proof.
  induction l as [|[k' v] l IH]; [done|]. cbn [list_to_map foldr aget uncurry].
  destruct (String.eqb_spec k k') as [->|Hne]; [by rewrite lookup_insert_eq|by rewrite lookup_insert_ne].
Qed.

Lemma aget_desired g o : aget o (desired g) = (λ l, sort_on id (event_id <$> l)) <$> aget o g.
Proof. induction g as [|[k l] g IH]; [done|]. cbn. destruct (String.eqb o k); [done|exact IH]. Qed.

Lemma sort_on_id_perm l l' : l ≡ₚ l' → sort_on id l = sort_on id l'.
Proof.
  apply sort_by_Permutation; [apply le_on_total|apply le_on_trans|]. intros x y. apply str_le_antisym.
Qed.

(** Events in another order ask for the same publication. *)
Lemma desired_same events events' g :
  (∀ e, e ∈ events → source_system e = crm ∧ is_ok (_object_for e) = true) →
  group_events [] events = Ok g → events' ≡ₚ events →
  ∃ g', group_events [] events' = Ok g' ∧
    (list_to_map (desired g') : gmap string (list string)) = list_to_map (desired g).
Proof.
  intros Hall Hg Hp. destruct (group_events_spec events [] ltac:(constructor) Hall) as (g2 & E2 & _ & H2).
  rewrite Hg in E2. injection E2 as <-.
  destruct (group_events_spec events' [] ltac:(constructor)) as (g' & E' & _ & H').
  { intros e He. apply Hall. by rewrite <- Hp. }
  exists g'. split; [done|]. apply map_eq. intros o. rewrite !lookup_list_to_map, !aget_desired, H2, H'.
  assert (filter (λ e, on_object o e = true) events' ≡ₚ filter (λ e, on_object o e = true) events) as Hf by (by rewrite Hp).
  destruct (filter (λ e, on_object o e = true) events') as [|x l], (filter (λ e, on_object o e = true) events) as [|y l'].
  - done.
  - by apply Permutation_nil_l in Hf.
  - by apply Permutation_nil_r in Hf.
  - exact (f_equal Some (sort_on_id_perm _ _ (fmap_Permutation event_id _ _ Hf))).
Qed.

Section Day.
Context (root : string) (base : string → part) (pick : string → list crm_row → option crm_row) `{!Ranking pick}.
Context (try_cast : string → option Z).
Abbreviation objects := ["accounts"; "opportunities"].

(** ** Publishing *)

Definition creates (e : SourceEvent) : bool := ends_with "_created" (event_type e).

Lemma current_rows_lookup o ids s id :
  id ∈ ids → _current_rows root base pick o ids s !! id = current_row root base pick o s id.
Proof.
  unfold _current_rows. induction ids as [|x ids IH]; [by intros ?%elem_of_nil|]. intros Hin. cbn [omap list_omap].
  destruct (decide (id = x)) as [->|Hne].
  - destruct (current_row root base pick o s x) as [r|] eqn:E; cbn [fmap option_fmap option_map list_to_map foldr uncurry].
    + by rewrite lookup_insert_eq.
    + destruct (decide (x ∈ ids)) as [Hx|Hx]; [by rewrite IH|]. apply not_elem_of_list_to_map. intros Hl. apply Hx.
      apply list_elem_of_fmap in Hl as ([i r] & -> & Hl). apply list_elem_of_omap in Hl as (i' & Hi & Hs).
      destruct (current_row root base pick o s i'); [|done]. by injection Hs as <- <-.
  - apply elem_of_cons in Hin as [|Hin]; [done|].
    destruct (current_row root base pick o s x); cbn [fmap option_fmap option_map list_to_map foldr uncurry]; [|by apply IH].
    rewrite lookup_insert_ne by done. by apply IH.
Qed.

(** The record an event leaves. *)
Definition row_of (o : string) (s : crm_store) (e : SourceEvent) : crm_row :=
  payload e ∪ default ∅ (current_row root base pick o s (entity_id e)).

(** Each event names a record of its own, new if it creates and existing if it does not. *)
Definition publishable (o : string) (s : crm_store) (events : list SourceEvent) : Prop :=
  NoDup (entity_id <$> events) ∧
  ∀ e, e ∈ events → if creates e then current_row root base pick o s (entity_id e) = None
                    else is_Some (current_row root base pick o s (entity_id e)).

Lemma materialize_ok o s events :
  publishable o s events → _materialize root base pick o events s = Ok (row_of o s <$> events).
Proof.
  intros [Hnd Hall]. unfold _materialize. rewrite bool_decide_true by done. apply res_map_pure. intros e He.
  specialize (Hall e He). unfold materialize_one, row_of. rewrite current_rows_lookup by (by apply list_elem_of_fmap_2).
  fold (creates e). destruct (creates e); [by rewrite Hall|]. by destruct Hall as [r ->].
Qed.

(** Partitions of other objects do not matter to an object. *)
Lemma current_row_other b w w' o s s' id :
  store_inv base try_cast b w s → store_inv base try_cast b w' s' → o ∈ objects →
  (∀ d, cs_parts s' !! (o, d) = cs_parts s !! (o, d)) →
  current_row root base pick o s' id = current_row root base pick o s id.
Proof.
  intros H H' Ho Hp. apply option_eq. intros fr.
  rewrite (current_row_spec root base pick try_cast b w s), (current_row_spec root base pick try_cast b w' s') by done.
  enough (∀ r, is_current base o s' id r ↔ is_current base o s id r) as E by (by setoid_rewrite E).
  intros r. unfold is_current, in_part. by setoid_rewrite Hp.
Qed.

Definition rows_ok (d : date) (o : string) (p : part) : Prop :=
  o ∈ objects → NoDup (row_id <$> pt_rows p) ∧ ∀ r, r ∈ pt_rows p → stamped try_cast (_timestamp d) r.

Lemma store_inv_put b w d s o p :
  store_inv base try_cast b w s → w ≤ d → b < d → d < date_max → rows_ok d o p →
  store_inv base try_cast b d (put_part (o, d) p s).
Proof.
  intros H Hw Hb Hd Hp. pose proof (si_dates _ _ _ _ _ H).
  assert (∀ o' d' p', cs_parts (put_part (o, d) p s) !! (o', d') = Some p' →
    (o' = o ∧ d' = d ∧ p' = p) ∨ cs_parts s !! (o', d') = Some p') as Hcase.
  { intros o' d' p'. cbn. destruct (decide ((o, d) = (o', d'))) as [[= -> ->]|Hne].
    - rewrite lookup_insert_eq. intros [= ->]. by left.
    - rewrite lookup_insert_ne by done. by right. }
  split; [lia|by apply (si_base _ _ _ _ _ H)|..].
  - intros o' d' p' [(-> & -> & ->)|Hl]%Hcase; [lia|]. pose proof (si_keys _ _ _ _ _ H _ _ _ Hl). lia.
  - intros o' d' p' Ho' [(-> & -> & ->)|Hl]%Hcase; [by apply Hp|]. by apply (si_ids _ _ _ _ _ H o' d').
  - intros o' d' p' r Ho' [(-> & -> & ->)|Hl]%Hcase Hr; [by apply Hp|]. by apply (si_rows _ _ _ _ _ H o' d' p').
  - intros d' m Hm. pose proof (si_manifests _ _ _ _ _ H d' m Hm). lia.
Qed.

Lemma store_inv_manifest b w d s m :
  store_inv base try_cast b w s → b < d ≤ w → store_inv base try_cast b w (put_manifest d m s).
Proof.
  intros H Hd. split; try apply H. intros d' m'. cbn. destruct (decide (d = d')) as [->|Hne]; [done|].
  rewrite lookup_insert_ne by done. apply (si_manifests _ _ _ _ _ H).
Qed.

(** The partition of a date with publishable events. *)
Record event_ok (d : date) (o : string) (s : crm_store) (e : SourceEvent) : Prop := {
  eo_source : source_system e = crm;
  eo_object : _object_for e = Ok o;
  eo_modified : payload e !! "LastModifiedDate" = Some (PStr (_timestamp d));
  eo_stamp : payload e !! "SystemModstamp" = Some (PStr (_timestamp d));
  eo_id : payload e !! "Id" = if creates e then Some (PStr (entity_id e)) else None;
  eo_number : ∀ n, creates e = true → try_cast (str_drop 3 (entity_id e)) = Some n → 0 ≤ n;
  eo_date : business_date e = d;
  eo_plain : json_reload (payload e) = payload e }.

Definition day_part (o : string) (s : crm_store) (events : list SourceEvent) : part :=
  mkPart (pt_schema (base o)) (table_row (pt_schema (base o)) <$> (row_of o s <$> events)).

Lemma row_of_lookup o s e k v : payload e !! k = Some v → row_of o s e !! k = Some v.
Proof. intros H. unfold row_of. by apply lookup_union_Some_l. Qed.

Lemma row_of_id b w s d o e :
  store_inv base try_cast b w s → o ∈ objects → event_ok d o s e →
  (if creates e then current_row root base pick o s (entity_id e) = None
   else is_Some (current_row root base pick o s (entity_id e))) →
  row_of o s e !! "Id" = Some (PStr (entity_id e)) ∧
  ∀ n, try_cast (str_drop 3 (entity_id e)) = Some n → 0 ≤ n.
Proof.
  intros H Ho He Hc. pose proof (eo_id _ _ _ _ He) as Hid. pose proof (eo_number _ _ _ _ He) as Hn.
  destruct (creates e); [split; [by apply row_of_lookup|intros n; by apply Hn]|].
  destruct Hc as [fr Hfr]. pose proof Hfr as Hfr'.
  apply (current_row_spec root base pick try_cast b w s) in Hfr as (r & Hr & ->); [|done..].
  pose proof (is_current_id _ _ _ _ _ Hr) as Hrid. split.
  - unfold row_of. etrans; [by apply (lookup_union_r (M:=gmap string))|]. rewrite Hfr'. simpl (default _ _).
    rewrite full_row_lookup, bool_decide_true.
    + unfold row_get. by rewrite Hrid.
    + apply (bo_schema _ _ _ _ (si_base _ _ _ _ _ H o Ho)); [set_solver|by right].
  - intros n Hn'. destruct (is_current_stamped base try_cast b w s o _ r H Ho Hr) as (t & Ht).
    apply (st_number _ _ _ Ht). unfold id_number. by rewrite Hrid.
Qed.

Lemma day_part_ok b w s d o events :
  store_inv base try_cast b w s → o ∈ objects → publishable o s events → (∀ e, e ∈ events → event_ok d o s e) →
  rows_ok d o (day_part o s events).
Proof.
  intros H Ho [Hnd Hall] Hev _. pose proof (bo_schema _ _ _ _ (si_base _ _ _ _ _ H o Ho)) as Hsch.
  assert (∀ e, e ∈ events → table_row (pt_schema (base o)) (row_of o s e) !! "Id" = Some (PStr (entity_id e))) as Hid.
  { intros e He. apply table_row_lookup; [apply Hsch; [set_solver|by right]| |done].
    by apply (row_of_id b w s d o e H Ho (Hev e He) (Hall e He)). }
  split.
  - unfold day_part. cbn [pt_rows]. rewrite <- !list_fmap_compose.
    apply (NoDup_fmap_2_strong (λ x, Some (PStr x))) in Hnd as Hnd2; [|by intros ??? ? [= ->]].
    rewrite <- list_fmap_compose in Hnd2. erewrite list_fmap_ext; [exact Hnd2|].
    intros i e He%list_elem_of_lookup_2. cbn. unfold row_id. by apply Hid.
  - unfold day_part. cbn [pt_rows]. intros r (x & -> & Hx)%list_elem_of_fmap.
    apply list_elem_of_fmap in Hx as (e & -> & He). split.
    + exists (entity_id e). by apply Hid.
    + intros n. unfold id_number. rewrite Hid by done.
      by apply (row_of_id b w s d o e H Ho (Hev e He) (Hall e He)).
    + intros c Hc. apply table_row_lookup; [apply Hsch; set_solver| |done]. apply row_of_lookup.
      destruct (Hev e He) as [_ _ Hm Hs _ _ _ _]. repeat (apply elem_of_cons in Hc as [->|Hc]; [done|]). by apply elem_of_nil in Hc.
Qed.

Lemma day_part_id b w s d news o e :
  store_inv base try_cast b w s → o ∈ objects → publishable o s news →
  event_ok d o s e → e ∈ news → PStr (entity_id e) ∈ omap (λ r : crm_row, r !! "Id") (pt_rows (day_part o s news)).
Proof.
  intros H Ho [_ Hall] Hev He. apply list_elem_of_omap.
  exists (table_row (pt_schema (base o)) (row_of o s e)). split; [by do 2 apply list_elem_of_fmap_2|].
  apply table_row_lookup; [|apply (row_of_id b w s d o e H Ho Hev); apply Hall; set_solver|done].
  apply (bo_schema _ _ _ _ (si_base _ _ _ _ _ H o Ho)); [set_solver|by right].
Qed.

(** Publishing the accounts and the opportunities of a new date. *)
Definition history (d : date) (s : crm_store) (changes : list SourceEvent) : part :=
  mkPart OPPORTUNITY_HISTORY_SCHEMA
    (table_row OPPORTUNITY_HISTORY_SCHEMA <$> _opportunity_history_rows root base pick changes s).

Definition day_parts (d : date) : list (string * string) :=
  (λ o, (o, part_path root o d)) <$> ["accounts"; "opportunities"; "opportunity_history"].

Definition published (d : date) (s : crm_store) (news changes : list SourceEvent) : crm_store :=
  put_manifest d (manifest_json (desired [("accounts", news); ("opportunities", changes)]) (day_parts d))
    (put_part ("opportunity_history", d) (history d s changes)
      (put_part ("opportunities", d) (day_part "opportunities" s changes)
        (put_part ("accounts", d) (day_part "accounts" s news) s))).

Record day_ok (b w d : date) (s : crm_store) (news changes : list SourceEvent) : Prop := {
  do_inv : store_inv base try_cast b w s;
  do_next : w < d < date_max;
  do_news : news ≠ [];
  do_history : ∃ e, e ∈ changes ∧ history_type e = true;
  do_accounts : publishable "accounts" s news;
  do_opportunities : publishable "opportunities" s changes;
  do_account_events : ∀ e, e ∈ news → event_ok d "accounts" s e;
  do_opportunity_events : ∀ e, e ∈ changes → event_ok d "opportunities" s e }.

Lemma current_row_after_accounts b w d s news changes id :
  day_ok b w d s news changes →
  let s1 := put_part ("accounts", d) (day_part "accounts" s news) s in
  store_inv base try_cast b d s1 ∧
  current_row root base pick "opportunities" s1 id = current_row root base pick "opportunities" s id.
Proof.
  intros H s1. pose proof (do_inv _ _ _ _ _ _ H) as Hi. pose proof (si_dates _ _ _ _ _ Hi). pose proof (do_next _ _ _ _ _ _ H).
  assert (store_inv base try_cast b d s1) as Hs1.
  { apply (store_inv_put b w); [done|lia|lia|lia|]. eapply day_part_ok; [exact Hi|set_solver|apply H|apply H]. }
  split; [done|]. apply (current_row_other b w d); [done|done|set_solver|]. intros d'. cbn. by rewrite lookup_insert_ne.
Qed.

Lemma publishable_same o s s' events :
  (∀ id, current_row root base pick o s' id = current_row root base pick o s id) →
  publishable o s events → publishable o s' events ∧ day_part o s' events = day_part o s events.
Proof.
  intros Hc [Hnd Hall]. split.
  - split; [done|]. intros e He. rewrite Hc. by apply Hall.
  - unfold day_part. f_equal. f_equal. apply list_fmap_ext. intros i e _. unfold row_of. by rewrite Hc.
Qed.

Lemma publish_group_run d o events s :
  publishable o s events →
  publish_group root base pick d (o, events) s = (put_part (o, d) (day_part o s events) s, Ok (o, part_path root o d)).
Proof.
  intros H. unfold publish_group. rewrite (io_bind_run _ _ s s s) by done. cbn [fst snd].
  rewrite (io_bind_run _ _ s s (row_of o s <$> events)); [done|]. unfold io_lift. by rewrite materialize_ok.
Qed.

Lemma history_rows_nonempty events s :
  (∃ e, e ∈ events ∧ history_type e = true) → _opportunity_history_rows root base pick events s ≠ [].
Proof.
  intros (e & He & Ht) E. unfold _opportunity_history_rows in E. apply fmap_nil_inv in E.
  by apply (filter_nil_not_elem_of _ _ e E).
Qed.

Lemma publish_day b w d s news changes :
  day_ok b w d s news changes →
  publish root base pick d (news ++ changes) s = (published d s news changes, Ok (day_parts d)).
Proof.
  intros H. unfold publish.
  rewrite (io_bind_run _ _ s s [("accounts", news); ("opportunities", changes)]).
  2: { unfold io_lift. rewrite group_day; [done|apply H|..].
    - destruct (do_history _ _ _ _ _ _ H) as (e & He & _). by intros ->; apply elem_of_nil in He.
    - intros e He. split; [by apply (eo_source _ _ _ _ (do_account_events _ _ _ _ _ _ H e He))|
        by apply (eo_object _ _ _ _ (do_account_events _ _ _ _ _ _ H e He))].
    - intros e He. split; [by apply (eo_source _ _ _ _ (do_opportunity_events _ _ _ _ _ _ H e He))|
        by apply (eo_object _ _ _ _ (do_opportunity_events _ _ _ _ _ _ H e He))]. }
  cbv zeta. rewrite (io_bind_run _ _ s s s) by done.
  destruct (cs_manifests s !! d) as [m|] eqn:Em.
  { pose proof (si_manifests _ _ _ _ _ (do_inv _ _ _ _ _ _ H) d m Em). pose proof (do_next _ _ _ _ _ _ H). lia. }
  cbn [aget String.eqb Ascii.eqb Bool.eqb]. simpl (default _ _).
  pose proof (λ id, current_row_after_accounts b w d s news changes id H) as Hafter. cbv zeta in Hafter.
  set (s1 := put_part ("accounts", d) (day_part "accounts" s news) s) in *.
  destruct (publishable_same "opportunities" s s1 changes (λ id, proj2 (Hafter id)) (do_opportunities _ _ _ _ _ _ H)) as [Hp1 Hd1].
  set (s2 := put_part ("opportunities", d) (day_part "opportunities" s changes) s1).
  rewrite (io_bind_run _ _ s s2 (take 2 (day_parts d))).
  2: { cbn [io_map].
    rewrite (io_bind_run _ _ _ _ _ (publish_group_run d "accounts" news s (do_accounts _ _ _ _ _ _ H))). fold s1.
    pose proof (publish_group_run d "opportunities" changes s1 Hp1) as E2. rewrite Hd1 in E2. fold s2 in E2.
    unfold io_bind. rewrite E2. done. }
  pose proof (history_rows_nonempty changes s (do_history _ _ _ _ _ _ H)) as Hne.
  unfold published, history. fold s1 s2. destruct (_opportunity_history_rows root base pick changes s) as [|r rows]; done.
Qed.

Lemma published_inv b w d s news changes :
  day_ok b w d s news changes → store_inv base try_cast b d (published d s news changes).
Proof.
  intros H. pose proof (do_inv _ _ _ _ _ _ H) as Hi. pose proof (si_dates _ _ _ _ _ Hi). pose proof (do_next _ _ _ _ _ _ H).
  destruct (current_row_after_accounts b w d s news changes "" H) as [Hs1 _]. cbv zeta in Hs1.
  apply store_inv_manifest; [|lia]. apply (store_inv_put b d); [|lia|lia|lia|].
  - apply (store_inv_put b d); [done|lia|lia|lia|]. eapply day_part_ok; [exact Hi|set_solver|apply H|apply H].
  - intros Ho. exfalso. clear -Ho. set_solver.
Qed.

Definition events_of (o : string) (news changes : list SourceEvent) : list SourceEvent :=
  if String.eqb o "accounts" then news else changes.

Lemma published_part d s news changes o :
  o ∈ objects → cs_parts (published d s news changes) !! (o, d) = Some (day_part o s (events_of o news changes)).
Proof.
  intros Ho. cbn. apply elem_of_cons in Ho as [->|Ho].
  - by rewrite lookup_insert_ne, lookup_insert_ne, lookup_insert_eq.
  - apply list_elem_of_singleton in Ho as ->. by rewrite lookup_insert_ne, lookup_insert_eq.
Qed.

Lemma published_other d s news changes o d' :
  d' ≠ d → cs_parts (published d s news changes) !! (o, d') = cs_parts s !! (o, d').
Proof. intros Hd. cbn. by rewrite !lookup_insert_ne by congruence. Qed.

Lemma day_ok_object b w d s news changes o :
  day_ok b w d s news changes → o ∈ objects →
  publishable o s (events_of o news changes) ∧ ∀ e, e ∈ events_of o news changes → event_ok d o s e.
Proof.
  intros H Ho. apply elem_of_cons in Ho as [->|Ho]; [split; apply H|].
  apply list_elem_of_singleton in Ho as ->. split; apply H.
Qed.

(** After the publication a reader sees the record each event left ... *)
Lemma published_current b w d s news changes o e :
  day_ok b w d s news changes → o ∈ objects → e ∈ events_of o news changes →
  current_row root base pick o (published d s news changes) (entity_id e)
  = Some (full_row (pt_schema (base o)) (table_row (pt_schema (base o)) (row_of o s e))).
Proof.
  intros H Ho He. pose proof (do_inv _ _ _ _ _ _ H) as Hi. pose proof (published_inv _ _ _ _ _ _ H) as Hi'.
  destruct (day_ok_object _ _ _ _ _ _ o H Ho) as [[_ Hall] Hev].
  apply (current_row_spec root base pick try_cast b d); [done..|]. eexists. split; [|reflexivity].
  left. exists d. split.
  - exists (day_part o s (events_of o news changes)). split; [by apply published_part|]. split.
    + unfold day_part. cbn [pt_rows]. by do 2 apply list_elem_of_fmap_2.
    + apply table_row_lookup; [|by apply (row_of_id b w s d o e Hi Ho (Hev e He) (Hall e He))|done].
      apply (bo_schema _ _ _ _ (si_base _ _ _ _ _ Hi o Ho)); [set_solver|by right].
  - intros d' r' (p & Hp & _). pose proof (si_keys _ _ _ _ _ Hi' _ _ _ Hp). lia.
Qed.

(** ... and the other records as they were. *)
Lemma published_unchanged b w d s news changes o id :
  day_ok b w d s news changes → o ∈ objects → id ∉ entity_id <$> events_of o news changes →
  current_row root base pick o (published d s news changes) id = current_row root base pick o s id.
Proof.
  intros H Ho Hid. pose proof (do_inv _ _ _ _ _ _ H) as Hi. pose proof (published_inv _ _ _ _ _ _ H) as Hi'.
  destruct (day_ok_object _ _ _ _ _ _ o H Ho) as [Hpub Hev].
  apply option_eq. intros fr.
  rewrite (current_row_spec root base pick try_cast b d), (current_row_spec root base pick try_cast b w s) by done.
  enough (∀ r, is_current base o (published d s news changes) id r ↔ is_current base o s id r) as E by (by setoid_rewrite E).
  assert (∀ d' r, in_part o (published d s news changes) d' id r ↔ in_part o s d' id r) as Hin.
  { intros d' r. unfold in_part. destruct (decide (d' = d)) as [->|Hd]; [|by rewrite published_other].
    rewrite published_part by done. split.
    - intros (p & [= <-] & Hr & Hrid). exfalso. apply Hid. unfold day_part in Hr. cbn [pt_rows] in Hr.
      apply list_elem_of_fmap in Hr as (x & -> & Hx). apply list_elem_of_fmap in Hx as (e & -> & He).
      destruct Hpub as [_ Hall].
      rewrite (table_row_lookup _ _ "Id" (PStr (entity_id e))) in Hrid.
      + injection Hrid as <-. by apply list_elem_of_fmap_2.
      + apply (bo_schema _ _ _ _ (si_base _ _ _ _ _ Hi o Ho)); [set_solver|by right].
      + by apply (row_of_id b w s d o e Hi Ho (Hev e He) (Hall e He)).
      + done.
    - intros (p & Hp & _). pose proof (si_keys _ _ _ _ _ Hi _ _ _ Hp). pose proof (do_next _ _ _ _ _ _ H). lia. }
  intros r. unfold is_current. by setoid_rewrite Hin.
Qed.

(** Publishing the same events again, in any order, changes nothing. *)
Lemma publish_again b w d s news changes events' :
  day_ok b w d s news changes → events' ≡ₚ news ++ changes →
  publish root base pick d events' (published d s news changes) = (published d s news changes, Ok (day_parts d)).
Proof.
  intros H Hp. assert (∀ e, e ∈ news ++ changes → source_system e = crm ∧ is_ok (_object_for e) = true) as Hall.
  { intros e [He|He]%elem_of_app.
    - pose proof (do_account_events _ _ _ _ _ _ H e He) as [Hs Ho _ _ _ _ _ _]. by rewrite Ho.
    - pose proof (do_opportunity_events _ _ _ _ _ _ H e He) as [Hs Ho _ _ _ _ _ _]. by rewrite Ho. }
  assert (group_events [] (news ++ changes) = Ok [("accounts", news); ("opportunities", changes)]) as Hg.
  { apply group_day; [apply H|..].
    - destruct (do_history _ _ _ _ _ _ H) as (e & He & _). by intros ->; apply elem_of_nil in He.
    - intros e He. by destruct (do_account_events _ _ _ _ _ _ H e He).
    - intros e He. by destruct (do_opportunity_events _ _ _ _ _ _ H e He). }
  destruct (desired_same _ events' _ Hall Hg Hp) as (g' & Hg' & Hsame).
  unfold publish. rewrite (io_bind_run _ _ _ (published d s news changes) g') by (unfold io_lift; by rewrite Hg').
  cbv zeta. rewrite (io_bind_run _ _ _ _ _ (eq_refl : io_get _ = _)).
  assert (cs_manifests (published d s news changes) !! d
    = Some (manifest_json (desired [("accounts", news); ("opportunities", changes)]) (day_parts d))) as ->
    by (cbn; by rewrite lookup_insert_eq).
  unfold io_lift. rewrite published_parts_json; [done| |done].
  cbn. repeat constructor; set_solver.
Qed.

(** ** The history of the day *)

(** A change of stage that the history can record: the start, or a step from another stage. *)
Definition stage_ok (s : crm_store) (e : SourceEvent) : Prop :=
  history_type e = true → ∃ stage, payload e !! "StageName" = Some (PStr stage) ∧
    (event_type e = "opportunity_created" ∨
     ∃ r before, current_row root base pick "opportunities" s (entity_id e) = Some r ∧
       row_get "StageName" r = PStr before ∧ before ≠ stage).

Definition history_lookup (c : string) (previous : gmap string crm_row) (e : SourceEvent) : pyval :=
  row_get c (full_row OPPORTUNITY_HISTORY_SCHEMA (table_row OPPORTUNITY_HISTORY_SCHEMA (history_row previous e))).

Lemma history_lookup_spec c previous e :
  c ∈ OPPORTUNITY_HISTORY_SCHEMA → history_lookup c previous e = row_get c (history_row previous e).
Proof. intros Hc. unfold history_lookup. by rewrite row_get_full_row, row_get_table_row. Qed.

Lemma get_or_payload k (e : SourceEvent) v x : payload e !! k = Some v → get_or k (payload e) x = v.
Proof. intros H. exact (f_equal (default x) H). Qed.

Lemma row_get_payload k (e : SourceEvent) v : payload e !! k = Some v → row_get k (payload e) = v.
Proof. intros H. exact (f_equal (default PNone) H). Qed.

Lemma history_row_problems d s changes e :
  e ∈ changes → history_type e = true → stage_ok s e → event_ok d "opportunities" s e →
  (creates e = true → current_row root base pick "opportunities" s (entity_id e) = None) →
  let previous := _current_rows root base pick "opportunities" (entity_id <$> changes) s in
  row_problems d (full_row OPPORTUNITY_HISTORY_SCHEMA (table_row OPPORTUNITY_HISTORY_SCHEMA (history_row previous e))) e = [].
Proof.
  intros He Ht Hst Hev Hnew previous. destruct (Hst Ht) as (stage & Hs & Hcase). destruct Hev as [_ _ Hm Hstamp _ _ _ _].
  unfold row_problems.
  repeat match goal with |- context [row_get ?c (full_row ?a (table_row ?b (history_row ?p ?x)))] =>
    change (row_get c (full_row a (table_row b (history_row p x)))) with (history_lookup c p x) end.
  rewrite !history_lookup_spec by (apply (bool_decide_unpack _); reflexivity).
  rewrite (get_or_payload _ _ _ _ Hstamp), (row_get_payload _ _ _ Hs), (row_get_payload _ _ _ Hm).
  assert (get_or "CreatedDate" (full_row OPPORTUNITY_HISTORY_SCHEMA (table_row OPPORTUNITY_HISTORY_SCHEMA (history_row previous e)))
    (PStr "") = history_lookup "CreatedDate" previous e) as ->.
  { unfold get_or, history_lookup. unfold row_get at 1. by rewrite full_row_lookup, bool_decide_true by (apply (bool_decide_unpack _); reflexivity). }
  rewrite history_lookup_spec by (apply (bool_decide_unpack _); reflexivity).
  assert (∀ c v, aget c [("Id", PStr (event_id e)); ("OpportunityId", PStr (entity_id e));
     ("PreviousStageName", row_get "StageName" (default ∅ (previous !! entity_id e)));
     ("StageName", PStr stage); ("CreatedDate", PStr (_timestamp d));
     ("CreatedById", PStr (to_str (get_or "LastModifiedById" (payload e) (get_or "OwnerId" (default ∅ (previous !! entity_id e)) (PStr "")))));
     ("SystemModstamp", PStr (_timestamp d))] = Some v → row_get c (history_row previous e) = v) as Hget.
  { intros c v Hv. unfold row_get, history_row. rewrite lookup_list_to_map.
    rewrite (get_or_payload _ _ _ _ Hs), (get_or_payload _ _ _ _ Hstamp), (row_get_payload _ _ _ Hm). cbv zeta. cbn [to_str].
    by rewrite Hv. }
  rewrite (Hget "OpportunityId" _ eq_refl), (Hget "StageName" _ eq_refl), (Hget "CreatedDate" _ eq_refl),
    (Hget "SystemModstamp" _ eq_refl), (Hget "PreviousStageName" _ eq_refl).
  rewrite (bool_decide_true (PStr (entity_id e) = _)), (bool_decide_true (PStr stage = _)), !String.eqb_refl by done.
  unfold _timestamp. cbn [to_str]. rewrite prefix_app. cbn [negb problem_if app].
  unfold previous. rewrite current_rows_lookup by (by apply list_elem_of_fmap_2).
  destruct Hcase as [Hty|(r & before & Hr & Hb & Hne)].
  - rewrite Hnew by (unfold creates; by rewrite Hty). rewrite Hty. simpl (default _ _).
    rewrite bool_decide_true by done. done.
  - rewrite Hr. simpl (default _ _). rewrite Hb.
    destruct (String.eqb_spec (event_type e) "opportunity_created") as [Hty|_].
    { exfalso. rewrite Hnew in Hr; [done|]. unfold creates. by rewrite Hty. }
    rewrite (bool_decide_false (PStr before = PNone)), (bool_decide_false (PStr before = PStr stage)) by congruence.
    by rewrite andb_false_r.
Qed.

Lemma expected_by_id_lookup l e : NoDup (event_id <$> l) → e ∈ l → expected_by_id l !! event_id e = Some e.
Proof.
  unfold expected_by_id. generalize (∅ : gmap string SourceEvent) as m.
  enough (∀ (m : gmap string SourceEvent) e, NoDup (event_id <$> l) →
    foldl (λ m e, <[event_id e := e]> m) m l !! event_id e = (if bool_decide (e ∈ l) then Some e else
      foldl (λ m e, <[event_id e := e]> m) m l !! event_id e) ∧
    (event_id e ∉ event_id <$> l → foldl (λ m e, <[event_id e := e]> m) m l !! event_id e = m !! event_id e)) as Hgen.
  { intros m Hnd He. destruct (Hgen m e Hnd) as [-> _]. by rewrite bool_decide_true. }
  induction l as [|x l IH]; intros m y Hnd; cbn [foldl].
  { split; [|done]. rewrite bool_decide_false; [done|]. apply not_elem_of_nil. }
  cbn [fmap list_fmap] in Hnd. apply NoDup_cons in Hnd as [Hx Hnd]. destruct (IH (<[event_id x := x]> m) y Hnd) as [H1 H2]. split.
  - destruct (decide (y ∈ x :: l)) as [Hy|Hy]; [rewrite bool_decide_true by done|by rewrite bool_decide_false].
    apply elem_of_cons in Hy as [->|Hy].
    + rewrite H2 by done. by rewrite lookup_insert_eq.
    + rewrite H1. by rewrite bool_decide_true.
  - intros Hn. cbn [fmap list_fmap] in Hn. apply not_elem_of_cons in Hn as [Hn1 Hn2]. rewrite H2 by done.
    by rewrite lookup_insert_ne.
Qed.

Lemma object_history_type e o : _object_for e = Ok o → history_type e = true → o = "opportunities".
Proof.
  unfold _object_for, history_type. intros Ho Ht%bool_decide_eq_true.
  apply elem_of_cons in Ht as [Ht|Ht%list_elem_of_singleton]; rewrite Ht in Ho; cbn in Ho; congruence.
Qed.

(** The history that was published with a day passes its validation. *)
Lemma history_valid b w d s news changes events' :
  day_ok b w d s news changes → (∀ e, e ∈ changes → stage_ok s e) → NoDup (event_id <$> news ++ changes) →
  events' ≡ₚ news ++ changes →
  hr_problems (validate_day root (published d s news changes) d events') = [].
Proof.
  intros H Hst Hnd Hp. set (exp' := filter (λ e, source_system e = crm ∧ history_type e = true) events').
  set (exp := filter (λ e, history_type e = true) changes).
  assert (exp' ≡ₚ exp) as Hexp.
  { assert (filter (λ e, source_system e = crm ∧ history_type e = true) (news ++ changes) = exp) as <-; [|unfold exp'; by rewrite Hp].
    rewrite filter_app, filter_none.
    - cbn [app]. unfold exp. clear -H. pose proof (do_opportunity_events _ _ _ _ _ _ H) as Hev. clear H.
      induction changes as [|e l IH]; [done|]. rewrite !filter_cons. rewrite IH by (intros; apply Hev; by right).
      destruct (Hev e ltac:(left)) as [-> _ _ _ _ _ _ _]. by repeat case_decide; try tauto.
    - intros e He [_ Ht]. destruct (do_account_events _ _ _ _ _ _ H e He) as [_ Ho _ _ _ _ _ _].
      by pose proof (object_history_type e _ Ho Ht). }
  assert (∀ e, e ∈ exp ↔ e ∈ changes ∧ history_type e = true) as Hexp_in.
  { intros e. unfold exp. rewrite list_elem_of_filter. tauto. }
  assert (NoDup (event_id <$> exp)) as Hids.
  { rewrite fmap_app in Hnd. apply NoDup_app in Hnd as (_ & _ & Hnd). by apply NoDup_fmap_filter. }
  unfold validate_day, validate_opportunity_history_partition. fold exp'.
  assert (history_of (published d s news changes) d = PartReadable (history d s changes)) as ->.
  { unfold history_of. cbn. by rewrite lookup_insert_eq. }
  assert (manifest_of (published d s news changes) d = ManifestReadable
    (manifest_json (desired [("accounts", news); ("opportunities", changes)]) (day_parts d))) as ->.
  { unfold manifest_of. cbn. by rewrite lookup_insert_eq. }
  clearbody exp'. destruct exp' as [|x l].
  { exfalso. destruct (do_history _ _ _ _ _ _ H) as (e & He & Ht). assert (e ∈ exp) as Hin by (by apply Hexp_in).
    rewrite <- Hexp in Hin. by apply elem_of_nil in Hin. }
  set (exp' := x :: l) in *. clearbody exp'.
  assert (∀ e, e ∈ exp' ↔ e ∈ changes ∧ history_type e = true) as Hin by (intros e; by rewrite Hexp).
  assert (NoDup (event_id <$> exp')) as Hids' by (by rewrite Hexp).
  cbn [_read_manifest manifest_json hr_problems].
  assert (_validate_manifest
    (Some [("events", JObj (sort_on fst ((λ g, (g.1, json_strings g.2)) <$> desired [("accounts", news); ("opportunities", changes)])));
           ("parts", JObj (sort_on fst ((λ p, (p.1, JStr p.2)) <$> day_parts d)))])
    (part_path root "opportunity_history" d) exp' = []) as ->.
  { apply _validate_manifest_nil. split; [by eexists|]. do 2 eexists. split; [reflexivity|]. split; [reflexivity|].
    intros e He. rewrite <- list_fmap_compose. apply list_elem_of_fmap. exists (event_id e). split; [done|].
    apply elem_of_sort_on, list_elem_of_fmap_2. by apply Hin. }
  cbn [app pt_schema pt_rows history]. rewrite bool_decide_true by done. cbn [negb problem_if app].
  unfold _opportunity_history_rows. rewrite <- !list_fmap_compose. fold exp.
  set (previous := _current_rows root base pick "opportunities" (entity_id <$> changes) s).
  set (stored := λ e, full_row OPPORTUNITY_HISTORY_SCHEMA (table_row OPPORTUNITY_HISTORY_SCHEMA (history_row previous e))).
  change (_validate_rows (stored <$> exp) exp' d = []).
  assert (∀ e, to_str (row_get "Id" (stored e)) = event_id e) as Hsid.
  { intros e. change (row_get "Id" (stored e)) with (history_lookup "Id" previous e).
    rewrite history_lookup_spec by (apply (bool_decide_unpack _); reflexivity).
    unfold row_get, history_row. by rewrite lookup_list_to_map. }
  assert (row_ids (stored <$> exp) = event_id <$> exp) as Hrows.
  { unfold row_ids. rewrite <- list_fmap_compose. apply list_fmap_ext. intros i e _. apply Hsid. }
  apply _validate_rows_nil. split; [by rewrite Hrows|intros id; by rewrite Hrows, Hexp|].
  intros r e' (e & -> & He)%list_elem_of_fmap. rewrite Hsid.
  apply Hexp_in in He as [He Ht]. rewrite expected_by_id_lookup by (done || by apply Hin). intros [= <-]. apply row_problems_nil.
  apply (history_row_problems d s changes); [done|done|by apply Hst|by apply (do_opportunity_events _ _ _ _ _ _ H)|].
  intros Hc. pose proof (proj2 (do_opportunities _ _ _ _ _ _ H) e He) as Hcur. by rewrite Hc in Hcur.
Qed.
End Day.
