(* ===== verification/CrmCycle.v ===== *)
(** * The CRM cycle

    The current state read, the next date planned from it and the plan published: whatever the
    generator draws, the day publishes, and the next one can follow. *)

From stdpp Require Import prelude gmap strings list.
From Stdlib Require Import ZArith Lia Ascii.
From S2P Require Import Prelude PyText Dates Soql Catalog PyNum PyRandom Policy Events Crm CrmStore CrmFacts CrmHistory CrmDay.

Open Scope Z_scope.

Lemma foldl_max_ge l x y : y = x ∨ y ∈ l → y ≤ foldl Z.max x l.
Proof.
  revert x y. induction l as [|z l IH]; intros x y Hy; cbn [foldl].
  - destruct Hy as [->|Hy]; [lia|by apply elem_of_nil in Hy].
  - assert (Z.max x z ≤ foldl Z.max (Z.max x z) l) by (apply IH; by left).
    destruct Hy as [->|[->|Hy]%elem_of_cons]; [lia|lia|]. apply IH. by right.
Qed.

Lemma str_drop_app p t : str_drop (String.length p) (p +:+ t) = t.
Proof.
  unfold str_drop. induction p as [|c p IH]; [|exact IH]. cbn. apply str_chars.
Qed.

Section Cycle.
Context (root : string) (base : string → part) (pick : string → list crm_row → option crm_row) `{!Ranking pick}.
Context (try_cast : string → option Z) (hash : option pyval → Z → Z) (distinct : list string → list string).
Abbreviation objects := ["accounts"; "opportunities"].

(** What the model assumes of [TRY_CAST(... AS BIGINT)]: it reads back the numbers of the records. *)
Hypothesis cast_numbers : ∀ n, 0 ≤ n < 2 ^ 63 → try_cast (pad_int 15 n) = Some n.

Lemma pad_int_inj n m : 0 ≤ n < 2 ^ 63 → 0 ≤ m < 2 ^ 63 → pad_int 15 n = pad_int 15 m → n = m.
Proof. intros Hn Hm E. apply cast_numbers in Hn, Hm. congruence. Qed.

Lemma next_number_spec rows r n :
  r ∈ rows → id_number try_cast r = Some n → n < next_number try_cast rows.
Proof.
  intros Hr Hn. assert (n ∈ omap (id_number try_cast) rows) as Hin by (apply list_elem_of_omap; eauto).
  unfold next_number. destruct (omap (id_number try_cast) rows) as [|x l]; [by apply elem_of_nil in Hin|].
  apply elem_of_cons in Hin. pose proof (foldl_max_ge l x n Hin). lia.
Qed.

Lemma next_number_pos b w s o :
  store_inv base try_cast b w s → o ∈ objects → 1 ≤ next_number try_cast (_relation root base pick o s).
Proof.
  intros H Ho. unfold next_number. destruct (omap (id_number try_cast) (_relation root base pick o s)) as [|x l] eqn:E; [lia|].
  assert (x ∈ omap (id_number try_cast) (_relation root base pick o s)) as Hx by (rewrite E; left).
  apply list_elem_of_omap in Hx as (r & Hr & Hn). apply (relation_spec root base pick try_cast b w) in Hr as (id & Hr); [|done..].
  destruct (is_current_stamped base try_cast b w s o id r H Ho Hr) as (t & Ht).
  pose proof (st_number _ _ _ Ht x Hn). pose proof (foldl_max_ge l x x ltac:(by left)). lia.
Qed.

(** No record has one of the next numbers. *)
Lemma next_number_fresh b w s o prefix n :
  store_inv base try_cast b w s → o ∈ objects → String.length prefix = 3%nat →
  next_number try_cast (_relation root base pick o s) ≤ n < 2 ^ 63 →
  current_row root base pick o s (prefix +:+ pad_int 15 n) = None.
Proof.
  intros H Ho Hp Hn. pose proof (next_number_pos b w s o H Ho).
  destruct (current_row root base pick o s (prefix +:+ pad_int 15 n)) as [fr|] eqn:E; [exfalso|done].
  apply (current_row_spec root base pick try_cast b w) in E as (r & Hr & _); [|done..].
  assert (id_number try_cast r = Some n) as Hin.
  { pose proof (str_drop_app prefix (pad_int 15 n)) as Hd. rewrite Hp in Hd.
    unfold id_number. rewrite (is_current_id _ _ _ _ _ Hr), Hd. apply cast_numbers. lia. }
  assert (r ∈ _relation root base pick o s) as Hrel by (apply (relation_spec root base pick try_cast b w); eauto).
  pose proof (next_number_spec _ _ _ Hrel Hin). lia.
Qed.

(** ** The snapshot *)

Lemma daily_volume_ok p n : 0 ≤ n → ∃ v, proportional_daily_volume p n = Ok v ∧ 1 ≤ v.
Proof.
  intros Hn. pose proof (daily_volume_total p n) as Hv. destruct (proportional_daily_volume p n) as [v|]; [|lia].
  exists v. split; [done|lia].
Qed.

Lemma read_ok p seed s :
  let accounts := _relation root base pick "accounts" s in
  let opportunities := _relation root base pick "opportunities" s in
  ∃ n m, read root base pick try_cast hash distinct p seed s = Ok (mkSnapshot
    (sample_rows hash ["Id"; "OwnerId"] seed n accounts)
    (sample_rows hash ["Id"; "AccountId"; "OwnerId"; "StageName"] seed m (open_rows opportunities))
    (Some (Z.of_nat (length accounts))) (Some (Z.of_nat (length (open_rows opportunities))))
    (Some (next_number try_cast accounts)) (Some (next_number try_cast opportunities))
    (take 1024 (distinct (omap (not_null "OwnerId") accounts)))).
Proof.
  intros accounts opportunities. unfold read. fold accounts opportunities.
  unfold _population_and_next_id, _open_population_and_next_id.
  destruct (daily_volume_ok p (Z.of_nat (length accounts))) as (v & -> & _); [lia|].
  destruct (daily_volume_ok p (Z.of_nat (length (open_rows opportunities)))) as (v' & -> & _); [lia|].
  cbn [res_bind]. eauto.
Qed.

Lemma sample_rows_in columns seed n rows r :
  r ∈ sample_rows hash columns seed n rows → ∃ r0, r0 ∈ rows ∧ r = full_row columns r0.
Proof.
  intros (r0 & -> & Hr)%list_elem_of_fmap. exists r0. split; [|done].
  apply elem_of_take in Hr as (i & Hi & _). apply list_elem_of_lookup_2 in Hi. by apply elem_of_sort_by in Hi.
Qed.

Lemma NoDup_take {A} n (l : list A) : NoDup l → NoDup (take n l).
Proof. intros H. rewrite <- (take_drop n l) in H. by apply NoDup_app in H as (? & _). Qed.

Lemma sample_rows_ids columns seed n rows :
  "Id" ∈ columns → NoDup (row_id <$> rows) → (∀ r, r ∈ rows → is_Some (r !! "Id")) →
  NoDup (row_id <$> sample_rows hash columns seed n rows).
Proof.
  intros Hc Hnd Hs. unfold sample_rows. rewrite <- list_fmap_compose.
  assert (row_id ∘ full_row columns <$> take (Z.to_nat n) (hash_order hash seed rows)
    = row_id <$> take (Z.to_nat n) (hash_order hash seed rows)) as ->.
  { apply list_fmap_ext. intros i r Hr%list_elem_of_lookup_2. cbn. unfold row_id.
    rewrite full_row_lookup, bool_decide_true by done. unfold row_get.
    destruct (Hs r) as [v ->]; [|done]. apply elem_of_take in Hr as (j & Hj & _). apply list_elem_of_lookup_2 in Hj.
    by apply elem_of_sort_by in Hj. }
  rewrite fmap_take. apply NoDup_take. unfold hash_order. by rewrite sort_by_perm.
Qed.

Lemma is_open_full_row columns r : "StageName" ∈ columns → is_open (full_row columns r) = is_open r.
Proof. intros Hc. unfold is_open. by rewrite row_get_full_row. Qed.

(** ** The planned events can be published *)

Lemma Forall2_fmap_eq {A B C} (f : A → C) (g : B → C) l k :
  Forall2 (λ x y, g y = f x) l k → g <$> k = f <$> l.
Proof. induction 1 as [|x y l k E _ IH]; [done|]. cbn [fmap list_fmap]. by f_equal. Qed.

Lemma numbered_NoDup prefix n m :
  0 ≤ n → m < 2 ^ 63 → NoDup ((λ x, prefix +:+ pad_int 15 x) <$> z_range n m).
Proof.
  intros Hn Hm. apply NoDup_fmap_2_strong; [|apply NoDup_z_range].
  intros x y Hx%elem_of_z_range Hy%elem_of_z_range E. apply pad_int_inj; [lia|lia|].
  apply (f_equal (str_drop (String.length prefix))) in E. by rewrite !str_drop_app in E.
Qed.

Lemma created_event_ok d s o ty id n e :
  crm_event d ty id e → (ty = "account_created" ∧ o = "accounts" ∨ ty = "opportunity_created" ∧ o = "opportunities") →
  payload e !! "Id" = Some (PStr id) → str_drop 3 id = pad_int 15 n → 0 ≤ n < 2 ^ 63 →
  creates e = true ∧ event_ok try_cast d o s e.
Proof.
  intros [Hd Hs Ht Hi Hm Hst Hpl] Hty Hid Hdrop Hn.
  assert (creates e = true) as Hc by (unfold creates; rewrite Ht; by destruct Hty as [[-> _]|[-> _]]).
  split; [done|]. split; [done| |done|done| | |done|done].
  - unfold _object_for. rewrite Ht. by destruct Hty as [[-> ->]|[-> ->]].
  - by rewrite Hc, Hi.
  - intros m _. rewrite Hi, Hdrop, cast_numbers by lia. intros [= <-]. lia.
Qed.

Lemma stage_event_publishes d s stalled r e :
  stage_planned d stalled r e → creates e = false ∧ event_ok try_cast d "opportunities" s e.
Proof.
  intros [_ Hid (stage & _ & Hcase)].
  assert (∃ ty, crm_event d ty (entity_id e) e ∧ (ty = "opportunity_stalled" ∨ ty = "opportunity_stage_changed")) as (ty & He & Hty).
  { destruct Hcase as [(_ & He & _)|(_ & He & _)]; eauto. }
  destruct He as [Hd Hs Ht Hi Hm Hst Hpl].
  assert (creates e = false) as Hc by (unfold creates; rewrite Ht; by destruct Hty as [-> | ->]).
  split; [done|]. split; [done| |done|done|by rewrite Hc|by rewrite Hc|done|done].
  unfold _object_for. rewrite Ht. by destruct Hty as [-> | ->].
Qed.

(** New records on the next numbers. *)
Lemma created_publishable b w d s o ty prefix n m (P : Z → SourceEvent → Prop) events :
  store_inv base try_cast b w s → o ∈ objects → String.length prefix = 3%nat →
  (ty = "account_created" ∧ o = "accounts" ∨ ty = "opportunity_created" ∧ o = "opportunities") →
  (∀ x e, P x e → crm_event d ty (prefix +:+ pad_int 15 x) e ∧ payload e !! "Id" = Some (PStr (prefix +:+ pad_int 15 x))) →
  next_number try_cast (_relation root base pick o s) = n → m < 2 ^ 63 →
  Forall2 P (z_range n m) events →
  publishable root base pick o s events ∧ (∀ e, e ∈ events → creates e = true ∧ event_ok try_cast d o s e).
Proof.
  intros H Ho Hlen Hty HP Hnext Hm HF. pose proof (next_number_pos b w s o H Ho) as Hpos.
  assert (∀ e, e ∈ events → ∃ x, n ≤ x < 2 ^ 63 ∧ P x e) as Hnum.
  { intros e He. apply list_elem_of_lookup in He as [i Hi].
    destruct (Forall2_lookup_r _ _ _ _ _ HF Hi) as (x & Hx & HPx). exists x. split; [|done].
    apply list_elem_of_lookup_2, elem_of_z_range in Hx. lia. }
  assert (∀ e, e ∈ events → creates e = true ∧ event_ok try_cast d o s e) as Hev.
  { intros e He. destruct (Hnum e He) as (x & Hx & HPx). destruct (HP x e HPx) as [Hce Hid].
    eapply (created_event_ok d s o ty _ x); [exact Hce|exact Hty|exact Hid| |lia].
    pose proof (str_drop_app prefix (pad_int 15 x)) as Hd. by rewrite Hlen in Hd. }
  split; [|done]. split.
  - rewrite (Forall2_fmap_eq (λ x, prefix +:+ pad_int 15 x) entity_id (z_range n m) events).
    + apply numbered_NoDup; lia.
    + eapply Forall2_impl; [exact HF|]. intros x e HPx. destruct (HP x e HPx) as [[_ _ _ Hi _ _ _] _]. done.
  - intros e He. destruct (Hev e He) as [Hc _]. rewrite Hc. destruct (Hnum e He) as (x & Hx & HPx).
    destruct (HP x e HPx) as [[_ _ _ Hi _ _ _] _]. rewrite Hi. eapply next_number_fresh; [exact H|exact Ho|exact Hlen|lia].
Qed.

(** The rows of the snapshot that may change their stage. *)
Lemma snapshot_row b w s seed m r :
  store_inv base try_cast b w s →
  r ∈ sample_rows hash ["Id"; "AccountId"; "OwnerId"; "StageName"] seed m
        (open_rows (_relation root base pick "opportunities" s)) →
  ∃ id fr, r !! "Id" = Some (PStr id) ∧ current_row root base pick "opportunities" s id = Some fr ∧
    row_get "StageName" fr = row_get "StageName" r ∧ is_open r = true.
Proof.
  intros H (r0 & Hr & ->)%sample_rows_in. apply list_elem_of_filter in Hr as [Hopen Hr].
  apply (relation_spec root base pick try_cast b w) in Hr as (id & Hr); [|done|set_solver].
  exists id, (full_row (pt_schema (base "opportunities")) r0).
  pose proof (is_current_id _ _ _ _ _ Hr) as Hid. split_and!.
  - rewrite full_row_lookup, bool_decide_true by set_solver. unfold row_get. by rewrite Hid.
  - apply (current_row_spec root base pick try_cast b w); [done|set_solver|]. eauto.
  - rewrite !row_get_full_row; [done|set_solver|]. apply (bo_schema _ _ _ _ (si_base _ _ _ _ _ H "opportunities" ltac:(set_solver))); [set_solver|by left].
  - rewrite is_open_full_row by set_solver. done.
Qed.

Lemma stages_publishable b w d s seed m selected rest stages (stalled : list string) :
  store_inv base try_cast b w s →
  selected ++ rest ≡ₚ filter (λ r, is_open r = true)
    (sample_rows hash ["Id"; "AccountId"; "OwnerId"; "StageName"] seed m
       (open_rows (_relation root base pick "opportunities" s))) →
  Forall2 (λ r, stage_planned d (id_text r ∈ stalled) r) selected stages →
  publishable root base pick "opportunities" s stages ∧
  ∀ e, e ∈ stages → creates e = false ∧ event_ok try_cast d "opportunities" s e ∧ stage_ok root base pick s e.
Proof.
  intros H Hperm HF. set (rows := sample_rows _ _ _ _ _) in *.
  assert (∀ r, r ∈ selected → r ∈ rows) as Hsel.
  { intros r Hr. assert (r ∈ filter (λ r, is_open r = true) rows) as [_ ?]%list_elem_of_filter; [|done].
    rewrite <- Hperm. apply elem_of_app. by left. }
  assert (∀ e, e ∈ stages → ∃ r, r ∈ selected ∧ stage_planned d (id_text r ∈ stalled) r e) as Hof.
  { intros e He. apply list_elem_of_lookup in He as [i Hi].
    destruct (Forall2_lookup_r _ _ _ _ _ HF Hi) as (r & Hr & HP). exists r. split; [by eapply list_elem_of_lookup_2|done]. }
  assert (∀ r id, r !! "Id" = Some (PStr id) → id_text r = id) as Htext by (intros r id E; unfold id_text; by rewrite E).
  assert (∀ e, e ∈ stages → ∃ r fr, stage_planned d (id_text r ∈ stalled) r e ∧ 
    current_row root base pick "opportunities" s (entity_id e) = Some fr ∧ row_get "StageName" fr = row_get "StageName" r) as Hcur.
  { intros e He. destruct (Hof e He) as (r & Hr & HP). destruct (snapshot_row b w s seed m r H (Hsel r Hr)) as (id & fr & Hid & Hfr & Hst & _).
    exists r, fr. split; [done|]. destruct (sp_id _ _ _ _ HP) as (v & Hv & ->). rewrite Hid in Hv. injection Hv as <-. done. }
  split; [split|].
  - rewrite (Forall2_fmap_eq id_text entity_id selected stages).
    + assert (NoDup (row_id <$> rows)) as Hnd.
      { apply sample_rows_ids; [set_solver| |].
        - apply NoDup_fmap_filter. apply (relation_ids root base pick try_cast b w); [done|set_solver].
        - intros r [_ Hr]%list_elem_of_filter. apply (relation_spec root base pick try_cast b w) in Hr as (id & Hr); [|done|set_solver].
          rewrite (is_current_id _ _ _ _ _ Hr). eauto. }
      apply (NoDup_fmap_filter row_id (λ r, is_open r = true)) in Hnd. rewrite <- Hperm, fmap_app in Hnd.
      apply NoDup_app in Hnd as (Hnd & _ & _).
      assert (row_id <$> selected = (λ x, Some (PStr x)) <$> (id_text <$> selected)) as E.
      { rewrite <- list_fmap_compose. apply list_fmap_ext. intros i r Hr%list_elem_of_lookup_2.
        destruct (snapshot_row b w s seed m r H (Hsel r Hr)) as (id & fr & Hid & _). cbn. unfold row_id. by rewrite (Htext r id Hid). }
      rewrite E in Hnd. by apply NoDup_fmap_1 in Hnd.
    + eapply Forall2_impl; [exact HF|]. intros r e HP. destruct (sp_id _ _ _ _ HP) as (v & Hv & ->). unfold id_text. by rewrite Hv.
  - intros e He. destruct (Hcur e He) as (r & fr & HP & Hfr & _).
    destruct (stage_event_publishes d s _ r e HP) as [-> _]. by rewrite Hfr.
  - intros e He. destruct (Hcur e He) as (r & fr & HP & Hfr & Hst).
    destruct (stage_event_publishes d s _ r e HP) as [Hc Hev]. split; [done|]. split; [done|].
    intros Hty. destruct (sp_stage _ _ _ _ HP) as (stage & Hstage & [(_ & Hce & _)|(_ & Hce & next & Hn & Hp)]).
    + exfalso. unfold history_type in Hty. by rewrite (ce_type _ _ _ _ Hce) in Hty.
    + exists next. split; [done|]. right. exists fr, stage. split; [done|]. split.
      * rewrite Hst. unfold row_get. by rewrite Hstage.
      * intros ->. unfold STAGE_SUCCESSOR in Hn. by repeat case_match; simplify_eq.
Qed.

(** The parts of a plan from a snapshot, as a day that can be published. *)
Lemma planned_day_ok {R} `{!Random R} p b w d seed s volume :
  store_inv base try_cast b w s → w < d < date_max →
  let accounts := _relation root base pick "accounts" s in
  let opportunities := _relation root base pick "opportunities" s in
  proportional_daily_volume p (Z.of_nat (length accounts)) = Ok volume →
  next_number try_cast accounts + volume ≤ 2 ^ 63 →
  next_number try_cast opportunities + new_opportunities_of volume ≤ 2 ^ 63 →
  ∃ snap news changes,
    read root base pick try_cast hash distinct p seed s = Ok snap ∧
    plan p d seed snap = Ok (news ++ changes) ∧
    day_ok root base pick try_cast b w d s news changes ∧
    (∀ e, e ∈ changes → stage_ok root base pick s e) ∧ ∀ e, e ∈ news → creates e = true.
Proof.
  intros H Hd accounts opportunities Hvol Ha Hb.
  destruct (read_ok p seed s) as (n & m & Eread). fold accounts opportunities in Eread.
  eexists. match type of Eread with _ = Ok ?x => set (snap := x) in * end.
  pose proof (next_number_pos b w s "accounts" H ltac:(set_solver)) as Hpa. fold accounts in Hpa.
  pose proof (next_number_pos b w s "opportunities" H ltac:(set_solver)) as Hpo. fold opportunities in Hpo.
  destruct (plan_ok p d seed snap (next_number try_cast accounts) (next_number try_cast opportunities))
    as (v & news & opps & stages & selected & rest & Eplan & Hv1 & Hv & Hnews & Hopps & Hperm & _ & Hstages).
  - simpl. lia.
  - simpl. lia.
  - apply Forall_forall. intros r Hr. destruct (snapshot_row b w s seed m r H Hr) as (id & _ & Hid & _). rewrite Hid. eauto.
  - unfold next_or. cbn [account_next_sequence snap]. destruct (Z.eqb_spec (next_number try_cast accounts) 0); [lia|done].
  - unfold next_or. cbn [opportunity_next_sequence snap]. destruct (Z.eqb_spec (next_number try_cast opportunities) 0); [lia|done].
  - cbn [account_population snap] in Hv. simpl (default _ _) in Hv. rewrite Hvol in Hv. injection Hv as <-.
    destruct (created_publishable b w d s "accounts" "account_created" "001" _ (next_number try_cast accounts + volume - 1)
      (account_planned d (_owner_ids snap)) news H ltac:(set_solver) eq_refl ltac:(by left)
      (λ x e HP, conj (ap_event _ _ _ _ HP) (ap_id _ _ _ _ HP)) eq_refl ltac:(lia) Hnews) as [Hpub1 Hev1].
    destruct (created_publishable b w d s "opportunities" "opportunity_created" "006" _
      (next_number try_cast opportunities + new_opportunities_of volume - 1)
      (opportunity_planned d (account_choices snap (z_range (next_number try_cast accounts) (next_number try_cast accounts + volume - 1)))
         (_owner_ids snap)) opps H ltac:(set_solver) eq_refl ltac:(by right)
      (λ x e HP, conj (op_event _ _ _ _ _ HP) (op_id _ _ _ _ _ HP)) eq_refl ltac:(lia) Hopps) as [Hpub2 Hev2].
    destruct (stages_publishable b w d s seed m selected rest stages _ H Hperm Hstages) as [Hpub3 Hev3].
    assert (opps ≠ []) as Hne.
    { intros ->. apply Forall2_nil_inv_r in Hopps. unfold new_opportunities_of in Hopps. rewrite z_range_cons in Hopps by lia. done. }
    assert (∀ e, e ∈ opps → event_type e = "opportunity_created" ∧ payload e !! "StageName" = Some (PStr "Prospecting")) as Hty.
    { intros e He. apply list_elem_of_lookup in He as [i Hi].
      destruct (Forall2_lookup_r _ _ _ _ _ Hopps Hi) as (x & _ & HP). split; [apply (op_event _ _ _ _ _ HP)|apply (op_stage _ _ _ _ _ HP)]. }
    exists news, (opps ++ stages). split; [done|]. split; [done|]. split.
    + split; [done|lia| | |done| | |].
      * intros ->. apply Forall2_nil_inv_r in Hnews. rewrite z_range_cons in Hnews by lia. done.
      * destruct opps as [|e opps]; [done|]. exists e. split; [left|]. unfold history_type.
        by destruct (Hty e ltac:(left)) as [-> _].
      * destruct Hpub2 as [Hnd2 Hall2], Hpub3 as [Hnd3 Hall3]. split.
        -- rewrite fmap_app. apply NoDup_app. split; [done|]. split; [|done].
           intros id (e & -> & He)%list_elem_of_fmap (e' & Heq & He')%list_elem_of_fmap.
           specialize (Hall2 e He). specialize (Hall3 e' He').
           destruct (Hev2 e He) as [Hc _], (Hev3 e' He') as [Hc' _]. rewrite Hc in Hall2. rewrite Hc', <- Heq, Hall2 in Hall3. by destruct Hall3.
        -- intros e [He|He]%elem_of_app; [by apply Hall2|by apply Hall3].
      * intros e He. by apply Hev1.
      * intros e [He|He]%elem_of_app; [by apply Hev2|by apply Hev3].
    + split; [|intros e He; by apply Hev1].
      intros e [He|He]%elem_of_app; [|by apply Hev3]. intros _. destruct (Hty e He) as [Ht Hs].
      exists "Prospecting". split; [done|by left].
Qed.
End Cycle.

(** ** The day *)

Section Outcome.
Context (root : string) (base : string → part) (pick : string → list crm_row → option crm_row) `{!Ranking pick}.
Context (try_cast : string → option Z).

(** What the publication of the events of [d] turns a store into: a reader sees for each event its
    payload over the record's previous row and no change of any other record; publishing the events
    again, in any order, does nothing; the history of the day is valid. *)
Record day_outcome (b d : date) (s : crm_store) (events : list SourceEvent) (s' : crm_store) : Prop := {
  out_inv : store_inv base try_cast b d s';
  out_changed : ∀ e o, e ∈ events → _object_for e = Ok o →
    current_row root base pick o s' (entity_id e)
    = Some (full_row (pt_schema (base o)) (table_row (pt_schema (base o))
        (payload e ∪ default ∅ (current_row root base pick o s (entity_id e)))));
  out_others : ∀ o id, o ∈ ["accounts"; "opportunities"] →
    (∀ e, e ∈ events → _object_for e = Ok o → entity_id e ≠ id) →
    current_row root base pick o s' id = current_row root base pick o s id;
  out_again : ∀ events', events' ≡ₚ events →
    publish root base pick d events' s' = (s', Ok (day_parts root d));
  out_valid : ∀ events', events' ≡ₚ events → NoDup (event_id <$> events) →
    hr_problems (validate_day root s' d events') = [] }.

Lemma published_outcome b w d s news changes events :
  day_ok root base pick try_cast b w d s news changes → (∀ e, e ∈ changes → stage_ok root base pick s e) →
  events ≡ₚ news ++ changes → day_outcome b d s events (published root base pick d s news changes).
Proof.
  intros Hday Hst Hp.
  pose proof (do_account_events _ _ _ _ _ _ _ _ _ _ Hday) as Hacc.
  pose proof (do_opportunity_events _ _ _ _ _ _ _ _ _ _ Hday) as Hopp.
  assert (∀ e o, e ∈ events → _object_for e = Ok o → o ∈ ["accounts"; "opportunities"] ∧ e ∈ events_of o news changes) as Hof.
  { intros e o He. rewrite Hp in He. apply elem_of_app in He as [He|He]; intros Heo.
    - rewrite (eo_object _ _ _ _ _ (Hacc e He)) in Heo. injection Heo as <-. split; [set_solver|done].
    - rewrite (eo_object _ _ _ _ _ (Hopp e He)) in Heo. injection Heo as <-. split; [set_solver|done]. }
  split.
  - by apply (published_inv root base pick try_cast b w).
  - intros e o He Heo. destruct (Hof e o He Heo) as [Hin Hev]. by apply (published_current root base pick try_cast b w).
  - intros o id Hin Hno. apply (published_unchanged root base pick try_cast b w); [done|done|].
    intros (e & -> & He)%list_elem_of_fmap. apply elem_of_cons in Hin as [->|Hin].
    + apply (Hno e); [rewrite Hp; apply elem_of_app; by left|by apply (eo_object _ _ _ _ _ (Hacc e He))|done].
    + apply list_elem_of_singleton in Hin as ->.
      apply (Hno e); [rewrite Hp; apply elem_of_app; by right|by apply (eo_object _ _ _ _ _ (Hopp e He))|done].
  - intros events' Hp'. apply (publish_again root base pick try_cast b w); [done|by rewrite Hp'].
  - intros events' Hp' Hnd. apply (history_valid root base pick try_cast b w); [done|done|by rewrite <- Hp|by rewrite Hp'].
Qed.
End Outcome.

(** C8: A CRM day always publishes. Take any store reached by publishing earlier dates over a seed
    with one row per record, whatever row DuckDB ranks first among equal versions and however it
    samples, and let the numbers of the day fit in a BIGINT. Then reading the snapshot, planning the
    date and publishing the plan succeed with any seeded generator: every new identifier is free,
    every changed record exists and has one event, and three partitions appear. Afterwards a reader
    sees for each event its payload over the record's previous row, and no change of any other
    record; the store is again one from which the next date can follow; publishing the same events
    again, in any order, changes nothing and returns the same parts; and, when no two events share
    an identifier, the validation of the day's opportunity history finds no problem. *)
Theorem crm_day_publishes root base pick (H1 : Ranking pick) try_cast hash distinct R (H2 : Random R)
    p b w d seed s volume :
  let accounts := _relation root base pick "accounts" s in
  let opportunities := _relation root base pick "opportunities" s in
  (∀ n, 0 ≤ n < 2 ^ 63 → try_cast (pad_int 15 n) = Some n) →
  store_inv base try_cast b w s → w < d < date_max →
  proportional_daily_volume p (Z.of_nat (length accounts)) = Ok volume →
  next_number try_cast accounts + volume ≤ 2 ^ 63 →
  next_number try_cast opportunities + new_opportunities_of volume ≤ 2 ^ 63 →
  ∃ snap events s',
    read root base pick try_cast hash distinct p seed s = Ok snap ∧
    plan p d seed snap = Ok events ∧
    publish root base pick d events s = (s', Ok (day_parts root d)) ∧
    day_outcome root base pick try_cast b d s events s'.
Proof.
  intros accounts opportunities Hcast H Hd Hvol Ha Ho.
  destruct (planned_day_ok root base pick try_cast hash distinct Hcast p b w d seed s volume H Hd Hvol Ha Ho)
    as (snap & news & changes & Hread & Hplan & Hday & Hst & _).
  exists snap, (news ++ changes), (published root base pick d s news changes).
  split; [done|]. split; [done|]. split; [by apply (publish_day root base pick try_cast b w)|].
  by apply (published_outcome root base pick try_cast b w).
Qed.

(** ** A concrete day *)

(** A ranking: the rows by version, descending. *)
Definition version_text (c : string) (r : crm_row) : string :=
  match r !! c with Some (PStr t) => t | _ => "" end.
Definition rank (c : string) (l : list crm_row) : option crm_row :=
  head (sort_by (λ a b, str_le (version_text c b) (version_text c a)) l).

#[export] Instance rank_ranking : Ranking rank.
Proof.
  split; unfold rank; intros c l.
  - intros Hl. destruct (sort_by _ l) as [|x l'] eqn:E; [|by exists x].
    apply (f_equal length) in E. rewrite length_sort_by in E. by destruct l.
  - intros r Hr. rewrite <- (elem_of_sort_by (λ a b, str_le (version_text c b) (version_text c a))).
    destruct (sort_by _ l); [done|]. injection Hr as ->. left.
  - intros r r' t t' Hr Hr' Ht Ht'.
    pose proof (sort_by_sorted (λ a b, str_le (version_text c b) (version_text c a))
      (λ x y, str_le_total _ _) (λ x y z Hxy Hyz, str_le_trans _ _ _ Hyz Hxy) l) as Hs.
    rewrite <- (elem_of_sort_by (λ a b, str_le (version_text c b) (version_text c a))) in Hr'.
    destruct (sort_by _ l) as [|x l']; [done|]. injection Hr as ->.
    assert (version_text c r = t) as Et by (unfold version_text; by rewrite Ht).
    assert (version_text c r' = t') as Et' by (unfold version_text; by rewrite Ht').
    rewrite <- Et, <- Et'. apply elem_of_cons in Hr' as [->|Hr'].
    + apply str_le_refl.
    + inversion_clear Hs as [|? ? _ Hall]. rewrite Forall_forall in Hall. by apply Hall.
Qed.

Definition bigint (t : string) : option Z :=
  match digits_value 0 (chars t) with Some n => if n <? 2 ^ 63 then Some n else None | None => None end.

Lemma bigint_numbers n : 0 ≤ n < 2 ^ 63 → bigint (pad_int 15 n) = Some n.
Proof.
  intros Hn. unfold bigint, pad_int. destruct (Z.ltb_spec n 0); [lia|]. rewrite zpad_value by lia.
  by destruct (Z.ltb_spec n (2 ^ 63)); [|lia].
Qed.

Definition seed_row (id : string) (fields : list (string * pyval)) : crm_row :=
  list_to_map ([("Id", PStr id); ("OwnerId", PStr "REP-0007");
    ("LastModifiedDate", PStr "2023-12-31T08:00:00.000+0000");
    ("SystemModstamp", PStr "2023-12-31T08:00:00.000+0000")] ++ fields).

Definition seed_files (o : string) : part :=
  if String.eqb o "accounts"
  then mkPart ["Id"; "OwnerId"; "LastModifiedDate"; "SystemModstamp"; "Name"; "CreatedDate"]
         [seed_row "001000000000000001" [("Name", PStr "Northwind")]; seed_row "001000000000000002" [("Name", PStr "Southwind")]]
  else mkPart ["Id"; "AccountId"; "OwnerId"; "StageName"; "LastModifiedDate"; "SystemModstamp"; "CreatedDate"; "Amount"]
         [seed_row "006000000000000001" [("StageName", PStr "Proposal"); ("AccountId", PStr "001000000000000001")];
          seed_row "006000000000000002" [("StageName", PStr "Closed Won"); ("AccountId", PStr "001000000000000002")]].

Definition empty_crm : crm_store := mkCrm ∅ ∅.

Lemma seed_row_stamped id fields :
  (∀ n, bigint (str_drop 3 id) = Some n → 0 ≤ n) →
  stamped bigint "2023-12-31T08:00:00.000+0000" (seed_row id fields).
Proof.
  intros Hn. split.
  - exists id. unfold seed_row. by rewrite lookup_list_to_map.
  - intros n. unfold id_number, seed_row. rewrite lookup_list_to_map. cbn [aget app String.eqb Ascii.eqb Bool.eqb]. apply Hn.
  - intros c Hc. unfold seed_row. rewrite lookup_list_to_map.
    repeat (apply elem_of_cons in Hc as [->|Hc]; [reflexivity|]). by apply elem_of_nil in Hc.
Qed.

Lemma seed_files_ok d : 738885 < d < date_max → store_inv seed_files bigint d d empty_crm.
Proof.
  intros Hd. split; [lia| |done..]. intros o Ho.
  assert (str_lt "2023-12-31T08:00:00.000+0000" (_timestamp (d + 1))) as Hlt.
  { change "2023-12-31T08:00:00.000+0000" with (_timestamp 738885). apply timestamp_lt; lia. }
  assert (∀ n, Some 1 = Some n ∨ Some 2 = Some n → 0 ≤ n) as Hsmall by (intros n [[= <-]|[= <-]]; lia).
  apply elem_of_cons in Ho as [->|[->|Ho%elem_of_nil]%elem_of_cons]; [| |done]; split.
  - intros c Hc [?|Hne]; [done|]. cbn. set_solver.
  - apply (bool_decide_unpack _). reflexivity.
  - intros r Hr. exists "2023-12-31T08:00:00.000+0000". split; [|done].
    apply elem_of_cons in Hr as [->|[->|Hr%elem_of_nil]%elem_of_cons]; [| |done]; apply seed_row_stamped;
      intros n Hn; apply Hsmall; rewrite <- Hn; [by left|by right].
  - intros c Hc _. cbn. set_solver.
  - apply (bool_decide_unpack _). reflexivity.
  - intros r Hr. exists "2023-12-31T08:00:00.000+0000". split; [|done].
    apply elem_of_cons in Hr as [->|[->|Hr%elem_of_nil]%elem_of_cons]; [| |done]; apply seed_row_stamped;
      intros n Hn; apply Hsmall; rewrite <- Hn; [by left|by right].
Qed.

(** [hash(Id, seed)] and [SELECT DISTINCT] of the example *)
Definition order_hash (id : option pyval) (seed : Z) : Z :=
  match id with Some (PStr t) => default 0 (bigint (str_drop 3 t)) * seed | _ => 0 end.

Definition example_read (s : crm_store) : res CrmSnapshot :=
  read "crm" seed_files rank bigint order_hash remove_dups default_policy 42 s.
Definition example_plan (d : date) (s : crm_store) : res (list SourceEvent) :=
  let! snap := example_read s in plan (R:=MT19937.state) default_policy d 42 snap.

(** The day CPython plans from this seed. *)
Definition example_days (n : nat) : crm_store :=
  foldl (λ s d, match example_plan d s with
                | Ok events => (publish "crm" seed_files rank d events s).1 | Err _ => s end)
    empty_crm (z_range 738887 (738886 + Z.of_nat n)).

Lemma crm_day_publishes_witness :
  ∃ snap events s', example_read empty_crm = Ok snap ∧
    plan (R:=MT19937.state) default_policy 738887 42 snap = Ok events ∧
    publish "crm" seed_files rank 738887 events empty_crm = (s', Ok (day_parts "crm" 738887)) ∧
    day_outcome "crm" seed_files rank bigint 738886 738887 empty_crm events s'.
Proof.
  destruct (crm_day_publishes "crm" seed_files rank rank_ranking bigint order_hash remove_dups MT19937.state
    mersenne_twister default_policy 738886 738886 738887 42 empty_crm 1) as (snap & events & s' & H1 & H2 & H3 & H4).
  - apply bigint_numbers.
  - apply seed_files_ok. by vm_compute.
  - by vm_compute.
  - by vm_compute.
  - by vm_compute.
  - by vm_compute.
  - exists snap, events, s'. split; [exact H1|]. split; [exact H2|]. split; [exact H3|exact H4].
Defined.
