(* ===== verification/CrmRun.v ===== *)
(** * The CRM run: [simulator/crm_run.py]

    The CRM part of one date over the control state and the delta store: claim, plan or read back
    the plan, publish, mark. A run that stopped between two of these steps is completed by the next
    one; a publication that stopped between two of its files never is. *)

From stdpp Require Import prelude gmap strings list relations.
From Stdlib Require Import ZArith Lia Ascii.
From S2P Require Import Prelude PyText Dates PyNum PyRandom Policy Events SimState Soql Catalog Planners OpsApply Reconcile Erp Runs Crm CrmStore CrmFacts CrmHistory CrmDay CrmCycle.

Open Scope Z_scope.

Record crm_world := mkCrmWorld { cw_world : world; cw_crm : crm_store }.
Definition set_world x (w : crm_world) := mkCrmWorld x (cw_crm w).
Definition set_crm x (w : crm_world) := mkCrmWorld (cw_world w) x.

Definition on_world {A} (m : io world A) : io crm_world A := io_zoom cw_world set_world m.
Definition on_crm {A} (m : io crm_store A) : io crm_world A := io_zoom cw_crm set_crm m.

Section Run.
Context (root : string) (base : string → part) (pick : string → list crm_row → option crm_row).
Context (try_cast : string → option Z) (hash : option pyval → Z → Z) (distinct : list string → list string).
Context {R : Type} `{!Random R} (p : SimulationPolicy).

(** The events of the date: those recorded by an earlier attempt, or newly planned ones. *)
Definition day_events (run_date : date) (seed : Z) : io crm_world (list SourceEvent) :=
  let* events := on_world (on_sim (events_for run_date crm)) in
  match events with
  | _ :: _ => io_ret events
  | [] =>
    let* w := io_get in
    let* snapshot := io_lift (read root base pick try_cast hash distinct p seed (cw_crm w)) in
    let* events := io_lift (plan p run_date seed snapshot) in
    let* _ := on_world (on_sim (record_events events)) in
    io_ret events
  end.

(** [CrmRun.run] *)
Definition run_crm (run_date : date) (seed : Z) : io crm_world (Z * list (string * string)) :=
  let* _ := on_world (on_sim (claim_run run_date seed)) in
  let* events := day_events run_date seed in
  let* parts := on_crm (publish root base pick run_date events) in
  let n := Z.of_nat (length events) in
  let* _ := on_world (on_sim (mark_source_applied run_date crm n n)) in
  io_ret (n, parts).

(** [ErpRun.run] with the validation of the CRM files *)
Definition crm_problems (s : crm_store) (d : date) (events : list SourceEvent) : res (list string) :=
  Ok (hr_problems (validate_day root s d events)).
Definition run_erp_full (run_date : date) (seed : Z) : io crm_world (Z * Z) :=
  λ w, on_world (run_erp (crm_problems (cw_crm w)) p run_date seed) w.
End Run.

(** ** Groups in any order *)

Lemma two_groups {V} (g : list (string * V)) a o x y :
  a ≠ o → NoDup g.*1 → aget a g = Some x → aget o g = Some y → (∀ k, k ≠ a → k ≠ o → aget k g = None) →
  g = [(a, x); (o, y)] ∨ g = [(o, y); (a, x)].
Proof.
  intros Hao Hnd Ha Ho Hno.
  assert (∀ k, k ∈ g.*1 → k = a ∨ k = o) as Hkeys.
  { intros k Hk. destruct (decide (k = a)); [by left|]. destruct (decide (k = o)); [by right|].
    exfalso. by apply (aget_None k g) in Hk; [|apply Hno]. }
  destruct g as [|[k1 v1] [|[k2 v2] [|[k3 v3] g]]]; cbn [fmap list_fmap fst] in *.
  - done.
  - cbn [aget] in *. destruct (String.eqb_spec a k1), (String.eqb_spec o k1); congruence.
  - apply NoDup_cons in Hnd as [Hnd _]. cbn [aget] in Ha, Ho.
    assert (String.eqb a o = false ∧ String.eqb o a = false) as [E1 E2] by (by rewrite !String.eqb_neq).
    destruct (Hkeys k1 ltac:(set_solver)) as [-> | ->], (Hkeys k2 ltac:(set_solver)) as [-> | ->]; [set_solver|..|set_solver];
      rewrite ?String.eqb_refl, ?E1, ?E2 in Ha; rewrite ?String.eqb_refl, ?E1, ?E2 in Ho; simplify_eq; auto.
  - exfalso. apply NoDup_cons in Hnd as [H1 Hnd]. apply NoDup_cons in Hnd as [H2 _].
    destruct (Hkeys k1 ltac:(set_solver)) as [-> | ->], (Hkeys k2 ltac:(set_solver)) as [-> | ->],
      (Hkeys k3 ltac:(set_solver)) as [-> | ->]; set_solver.
Qed.

Lemma group_perm events news changes :
  events ≡ₚ news ++ changes → news ≠ [] → changes ≠ [] →
  (∀ e, e ∈ news → source_system e = crm ∧ _object_for e = Ok "accounts") →
  (∀ e, e ∈ changes → source_system e = crm ∧ _object_for e = Ok "opportunities") →
  ∃ news' changes', news' ≡ₚ news ∧ changes' ≡ₚ changes ∧
    (group_events [] events = Ok [("accounts", news'); ("opportunities", changes')] ∨
     group_events [] events = Ok [("opportunities", changes'); ("accounts", news')]).
Proof.
  intros Hp Hn Hc Hnews Hchanges.
  assert (∀ o, filter (λ e, on_object o e = true) events ≡ₚ
    (if decide (o = "accounts") then news else []) ++ (if decide (o = "opportunities") then changes else [])) as Hf.
  { intros o. rewrite Hp, filter_app.
    assert (∀ l o', (∀ e, e ∈ l → source_system e = crm ∧ _object_for e = Ok o') →
      filter (λ e, on_object o e = true) l = if decide (o = o') then l else []) as Hobj.
    { intros l o' Hl. case_decide as Ho.
      - subst o'. apply filter_all. intros e He. apply on_object_ok, Hl, He.
      - apply filter_none. intros e He Hon%on_object_ok. destruct (Hl e He) as [_ Heq]. congruence. }
    by rewrite (Hobj news "accounts" Hnews), (Hobj changes "opportunities" Hchanges). }
  destruct (group_events_spec events [] ltac:(constructor)) as (g & Hg & Hnd & Hget).
  { intros e He. rewrite Hp in He. apply elem_of_app in He as [He|He].
    - destruct (Hnews e He) as [-> ->]. done.
    - destruct (Hchanges e He) as [-> ->]. done. }
  exists (filter (λ e, on_object "accounts" e = true) events), (filter (λ e, on_object "opportunities" e = true) events).
  pose proof (Hf "accounts") as Ha. cbn in Ha. rewrite app_nil_r in Ha. pose proof (Hf "opportunities") as Ho. cbn in Ho.
  split; [done|]. split; [done|]. rewrite Hg.
  destruct (two_groups g "accounts" "opportunities" (filter (λ e, on_object "accounts" e = true) events)
    (filter (λ e, on_object "opportunities" e = true) events)) as [-> | ->]; [done|done|..|by left|by right].
  - rewrite Hget. clear -Ha Hn. destruct (filter _ events); [by apply Permutation_nil_l in Ha|done].
  - rewrite Hget. clear -Ho Hc. destruct (filter _ events); [by apply Permutation_nil_l in Ho|done].
  - intros k Hka Hko. rewrite Hget. specialize (Hf k). rewrite !decide_False in Hf by done.
    by apply Permutation_nil_r in Hf as ->.
Qed.

Section Restart.
Context (root : string) (base : string → part) (pick : string → list crm_row → option crm_row) `{!Ranking pick}.
Context (try_cast : string → option Z).

Lemma publishable_perm o s l l' : l' ≡ₚ l → publishable root base pick o s l → publishable root base pick o s l'.
Proof. intros Hp [Hnd Hall]. split; [by rewrite Hp|]. intros e He. apply Hall. by rewrite <- Hp. Qed.

Lemma day_ok_perm b w d s news changes news' changes' :
  news' ≡ₚ news → changes' ≡ₚ changes →
  day_ok root base pick try_cast b w d s news changes → day_ok root base pick try_cast b w d s news' changes'.
Proof.
  intros Hn Hc [Hinv Hnext Hne (e & He & Ht) Ha Ho Hae Hoe]. split; [done|done| | | | | |].
  - intros ->. by apply Permutation_nil_l in Hn.
  - exists e. by rewrite Hc.
  - by eapply publishable_perm.
  - by eapply publishable_perm.
  - intros x Hx. apply Hae. by rewrite <- Hn.
  - intros x Hx. apply Hoe. by rewrite <- Hc.
Qed.

(** A publication depends on its events through their groups. *)
Lemma publish_groups d events events' s :
  group_events [] events = group_events [] events' →
  publish root base pick d events s = publish root base pick d events' s.
Proof. intros H. unfold publish. by rewrite H. Qed.

(** Opportunities before accounts: the same files. *)
Lemma publish_reversed b w d s news changes events :
  day_ok root base pick try_cast b w d s news changes →
  group_events [] events = Ok [("opportunities", changes); ("accounts", news)] →
  ∃ parts, parts ≡ₚ day_parts root d ∧
    publish root base pick d events s = (published root base pick d s news changes, Ok parts).
Proof.
  intros H Hg. pose proof (do_inv _ _ _ _ _ _ _ _ _ _ H) as Hi. pose proof (si_dates _ _ _ _ _ Hi).
  pose proof (do_next _ _ _ _ _ _ _ _ _ _ H). set (path o := (o, part_path root o d)).
  exists [path "opportunities"; path "accounts"; path "opportunity_history"]. split; [by apply Permutation_swap|].
  unfold publish. rewrite (io_bind_run _ _ s s [("opportunities", changes); ("accounts", news)]) by (unfold io_lift; by rewrite Hg).
  cbv zeta. rewrite (io_bind_run _ _ s s s) by done.
  destruct (cs_manifests s !! d) as [m|] eqn:Em.
  { pose proof (si_manifests _ _ _ _ _ Hi d m Em). lia. }
  cbn [aget String.eqb Ascii.eqb Bool.eqb]. simpl (default _ _).
  set (s1 := put_part ("opportunities", d) (day_part root base pick "opportunities" s changes) s).
  assert (store_inv base try_cast b d s1) as Hs1.
  { apply (store_inv_put base try_cast b w); [done|lia|lia|lia|]. apply (day_part_ok root base pick try_cast b w); [done|set_solver|apply H|apply H]. }
  destruct (publishable_same root base pick "accounts" s s1 news) as [Hp1 Hd1]; [|apply H|].
  { intros id. apply (current_row_other root base pick try_cast b w d); [done|done|set_solver|].
    intros d'. cbn. by rewrite lookup_insert_ne. }
  set (s2 := put_part ("accounts", d) (day_part root base pick "accounts" s news) s1).
  rewrite (io_bind_run _ _ s s2 [path "opportunities"; path "accounts"]).
  2: { cbn [io_map].
    rewrite (io_bind_run _ _ _ _ _ (publish_group_run root base pick d "opportunities" changes s (do_opportunities _ _ _ _ _ _ _ _ _ _ H))).
    fold s1. pose proof (publish_group_run root base pick d "accounts" news s1 Hp1) as E2. rewrite Hd1 in E2. fold s2 in E2.
    unfold io_bind. rewrite E2. done. }
  pose proof (history_rows_nonempty root base pick changes s (do_history _ _ _ _ _ _ _ _ _ _ H)) as Hne.
  assert (s2 = put_part ("opportunities", d) (day_part root base pick "opportunities" s changes)
    (put_part ("accounts", d) (day_part root base pick "accounts" s news) s)) as ->.
  { unfold s2, s1, put_part. cbn. f_equal. by apply insert_insert_ne. }
  unfold published, history. destruct (_opportunity_history_rows root base pick changes s) as [|r rows]; done.
Qed.

Lemma publish_permuted b w d s news changes events :
  day_ok root base pick try_cast b w d s news changes → events ≡ₚ news ++ changes →
  ∃ news' changes' parts, news' ≡ₚ news ∧ changes' ≡ₚ changes ∧ parts ≡ₚ day_parts root d ∧
    publish root base pick d events s = (published root base pick d s news' changes', Ok parts).
Proof.
  intros H Hp.
  destruct (group_perm events news changes Hp) as (news' & changes' & Hn & Hc & Hg).
  - apply H.
  - destruct (do_history _ _ _ _ _ _ _ _ _ _ H) as (e & He & _). by intros ->; apply elem_of_nil in He.
  - intros e He. by destruct (do_account_events _ _ _ _ _ _ _ _ _ _ H e He).
  - intros e He. by destruct (do_opportunity_events _ _ _ _ _ _ _ _ _ _ H e He).
  - pose proof (day_ok_perm _ _ _ _ _ _ _ _ Hn Hc H) as H'. destruct Hg as [Hg|Hg].
    + exists news', changes', (day_parts root d). split; [done|]. split; [done|]. split; [done|].
      rewrite (publish_groups d events (news' ++ changes')).
      * by apply (publish_day root base pick try_cast b w).
      * rewrite Hg. symmetry. apply group_day; [apply H'|..].
        -- destruct (do_history _ _ _ _ _ _ _ _ _ _ H') as (e & He & _). by intros ->; apply elem_of_nil in He.
        -- intros e He. by destruct (do_account_events _ _ _ _ _ _ _ _ _ _ H' e He).
        -- intros e He. by destruct (do_opportunity_events _ _ _ _ _ _ _ _ _ _ H' e He).
    + destruct (publish_reversed b w d s news' changes' events H' Hg) as (parts & Hparts & E). by exists news', changes', parts.
Qed.
End Restart.

(** ** The control state of a CRM run *)

(** The recorded CRM events of a date, in no order. *)
Definition recorded (d : date) (t : sim_state) : list SourceEvent :=
  filter (λ e, date_matches true (business_date e) d = true ∧ source_system e = crm) (map_to_list (s_events t)).*2.

Definition crm_marked (d : date) (n : Z) (t : sim_state) : sim_state :=
  set_sources (<[(d, crm) := mkSourceRun source_applied n n]> (s_sources t)) t.

(** A state in which the date is claimed. *)
Record claimed_day (b w : date) (t : sim_state) : Prop := {
  cd_inv : sim_inv b w t;
  cd_next : w < date_max;
  cd_run : ∃ breach, s_runs t !! (w + 1) = Some (mkRun run_in_progress breach None) }.

Lemma claim_first b w t seed :
  sim_inv b w t → w < date_max →
  ∃ t', claim_run (w + 1) seed t = (t', Ok true) ∧ claimed_day b w t' ∧ s_events t' = s_events t.
Proof.
  intros H Hw. pose proof (claim_run_inv b w (w + 1) seed t H) as Hinv. rewrite (claim_run_spec b w) in * by done.
  unfold claim_result in *. destruct (Z.ltb_spec date_max (w + 1)); [lia|]. rewrite Z.ltb_irrefl in *.
  destruct (s_runs t !! (w + 1)) as [row|] eqn:Hrow.
  - case_decide as Hst; [apply (inv_completed _ _ _ H _ _ Hrow) in Hst; lia|]. eexists. split; [done|].
    split; [|done]. split; [done|done|]. cbn. rewrite lookup_insert_eq. eauto.
  - eexists. split; [done|]. split; [|done]. split; [done|done|]. cbn. rewrite lookup_insert_eq. eauto.
Qed.

Lemma claim_again b w t seed : claimed_day b w t → claim_run (w + 1) seed t = (t, Ok true).
Proof.
  intros [H Hw [breach Hrow]]. rewrite (claim_run_spec b w) by done. unfold claim_result.
  destruct (Z.ltb_spec date_max (w + 1)); [lia|]. rewrite Z.ltb_irrefl, Hrow. rewrite decide_False by done.
  cbn [r_breach]. unfold set_runs. rewrite insert_id by done. by destruct t.
Qed.

Lemma claimed_source b w t : claimed_day b w t → is_Some (s_sources t !! (w + 1, crm)).
Proof. intros [H _ [breach Hrow]]. apply (inv_sources _ _ _ H). by rewrite Hrow. Qed.

Lemma mark_crm b w n t :
  claimed_day b w t → 0 ≤ n → mark_source_applied (w + 1) crm n n t = (crm_marked (w + 1) n t, Ok tt).
Proof. intros H Hn. destruct (claimed_source b w t H) as [row Hrow]. by eapply mark_ok. Qed.

Lemma crm_marked_day b w n t :
  claimed_day b w t → 0 ≤ n → claimed_day b w (crm_marked (w + 1) n t).
Proof.
  intros H Hn. pose proof (mark_inv b w (w + 1) crm n n t (cd_inv _ _ _ H)) as Hi. rewrite (mark_crm b w) in Hi by done.
  split; [done|apply H|apply H].
Qed.

Lemma crm_marked_again d n t : crm_marked d n (crm_marked d n t) = crm_marked d n t.
Proof. unfold crm_marked, set_sources. cbn. by rewrite insert_insert_eq. Qed.

Lemma record_event_fresh d t e :
  business_date e = d → source_system e = crm → stored e = e → s_events t !! event_id e = None →
  is_Some (s_sources t !! (d, crm)) →
  record_event e t = (set_events (<[event_id e := e]> (s_events t)) t, Ok tt) ∧
  recorded d (set_events (<[event_id e := e]> (s_events t)) t) ≡ₚ e :: recorded d t.
Proof.
  intros Hd Hs Hst Hnew [row Hrow]. split.
  - unfold record_event, io_bind, io_get. rewrite Hd, Hs, Hrow, Hnew. by rewrite Hst.
  - unfold recorded. cbn [s_events set_events]. rewrite map_to_list_insert by done. cbn [fmap list_fmap snd].
    rewrite filter_cons_True; [done|]. split; [|done]. unfold date_matches. by apply Z.eqb_eq.
Qed.

Lemma record_fresh b w es : ∀ t,
  claimed_day b w t → NoDup (event_id <$> es) →
  (∀ e, e ∈ es → business_date e = w + 1 ∧ source_system e = crm ∧ stored e = e ∧ s_events t !! event_id e = None) →
  ∃ t', record_events es t = (t', Ok tt) ∧ claimed_day b w t' ∧ recorded (w + 1) t' ≡ₚ es ++ recorded (w + 1) t.
Proof.
  induction es as [|e es IH]; intros t H Hnd Hall; [by exists t|].
  cbn [fmap list_fmap] in Hnd. apply NoDup_cons in Hnd as [Hid Hnd]. destruct (Hall e ltac:(left)) as (Hd & Hs & Hst & Hnew).
  destruct (record_event_fresh (w + 1) t e Hd Hs Hst Hnew (claimed_source b w t H)) as [E1 P1].
  set (t1 := set_events (<[event_id e := e]> (s_events t)) t) in *.
  assert (claimed_day b w t1) as H1.
  { split; [|apply H|apply H]. pose proof (record_event_inv b w e t (cd_inv _ _ _ H)) as Hi. by rewrite E1 in Hi. }
  destruct (IH t1 H1 Hnd) as (t' & E2 & H2 & P2).
  { intros x Hx. destruct (Hall x ltac:(by right)) as (? & ? & ? & Hx4). split_and!; [done..|].
    unfold t1. cbn. rewrite lookup_insert_ne; [done|]. intros Heq. apply Hid. rewrite Heq. by apply list_elem_of_fmap_2. }
  exists t'. split.
  - unfold record_events, io_iter in *. cbn [io_fold]. by rewrite (io_bind_run _ _ _ _ _ E1).
  - split; [done|]. rewrite P2, P1. cbn [app]. by rewrite <- Permutation_middle.
Qed.

Lemma select_recorded d t : select_events d crm true t = sort_on event_id (recorded d t).
Proof. done. Qed.

(** ** The run *)

Section RunFacts.
Context (root : string) (base : string → part) (pick : string → list crm_row → option crm_row) `{!Ranking pick}.
Context (try_cast : string → option Z) (hash : option pyval → Z → Z) (distinct : list string → list string).
Context {R : Type} `{!Random R} (p : SimulationPolicy).

Abbreviation run := (run_crm root base pick try_cast hash distinct p) (only parsing).
Abbreviation events_of_day := (day_events root base pick try_cast hash distinct p) (only parsing).

Definition with_sim (t : sim_state) (s : crm_store) (x : crm_world) : crm_world :=
  mkCrmWorld (set_sim t (cw_world x)) s.

Lemma with_sim_run {A} (m : io sim_state A) t t' s x (a : A) :
  m t = (t', Ok a) → on_world (on_sim m) (with_sim t s x) = (with_sim t' s x, Ok a).
Proof. intros H. unfold on_world, on_sim, io_zoom. cbn. by rewrite H. Qed.

Lemma with_crm_run {A} (m : io crm_store A) t s s' x (a : A) :
  m s = (s', Ok a) → on_crm m (with_sim t s x) = (with_sim t s' x, Ok a).
Proof. intros H. unfold on_crm, io_zoom. cbn. by rewrite H. Qed.

(** From the recorded events on. *)
Lemma run_recorded b w seed t s x events s' parts :
  claimed_day b w t → recorded (w + 1) t ≡ₚ events → events ≠ [] →
  publish root base pick (w + 1) (sort_on event_id (recorded (w + 1) t)) s = (s', Ok parts) →
  run (w + 1) seed (with_sim t s x)
  = (with_sim (crm_marked (w + 1) (Z.of_nat (length events)) t) s' x, Ok (Z.of_nat (length events), parts)).
Proof.
  intros H Hp Hne Hpub. unfold run_crm.
  rewrite (io_bind_run _ _ _ _ _ (with_sim_run _ _ _ s x _ (claim_again b w t seed H))).
  assert (sort_on event_id (recorded (w + 1) t) ≡ₚ events) as Hsort by (etrans; [apply sort_by_perm|done]).
  assert (events_of_day (w + 1) seed (with_sim t s x) = (with_sim t s x, Ok (sort_on event_id (recorded (w + 1) t)))) as Eev.
  { unfold day_events.
    rewrite (io_bind_run _ _ _ _ _ (with_sim_run (events_for (w + 1) crm) t t s x (sort_on event_id (recorded (w + 1) t)) eq_refl)).
    destruct (sort_on event_id (recorded (w + 1) t)) as [|e l]; [by apply Permutation_nil_l in Hsort; subst|done]. }
  rewrite (io_bind_run _ _ _ _ _ Eev). cbv zeta. rewrite (Permutation_length Hsort).
  rewrite (io_bind_run _ _ _ _ _ (with_crm_run _ t s s' x parts Hpub)).
  rewrite (io_bind_run _ _ _ _ _ (with_sim_run _ _ _ s' x _ (mark_crm b w _ t H (Nat2Z.is_nonneg (length events))))). done.
Qed.

(** What a run stopped after one of its steps leaves behind. *)
Definition crash_points (d : date) (seed : Z) (x : crm_world) : list crm_world :=
  let claimed := (on_world (on_sim (claim_run d seed)) x).1 in
  let '(planned, r) := events_of_day d seed claimed in
  let published := match r with Ok events => (on_crm (publish root base pick d events) planned).1 | Err _ => planned end in
  [x; claimed; planned; published; (run d seed x).1].

(** The hashes of new events are new. *)
Definition fresh_ids (t : sim_state) (events : list SourceEvent) : Prop :=
  NoDup (event_id <$> events) ∧ ∀ e, e ∈ events → s_events t !! event_id e = None.

(** A run from a state in which the date has no events. *)
Lemma first_run b w seed t t0 t1 x snap events st parts :
  let s := cw_crm x in let n := Z.of_nat (length events) in
  claim_run (w + 1) seed t = (t0, Ok true) → claimed_day b w t1 → recorded (w + 1) t0 = [] →
  read root base pick try_cast hash distinct p seed s = Ok snap → plan p (w + 1) seed snap = Ok events →
  record_events events t0 = (t1, Ok tt) → publish root base pick (w + 1) events s = (st, Ok parts) →
  (on_world (on_sim (claim_run (w + 1) seed)) (with_sim t s x)).1 = with_sim t0 s x ∧
  events_of_day (w + 1) seed (with_sim t0 s x) = (with_sim t1 s x, Ok events) ∧
  run (w + 1) seed (with_sim t s x) = (with_sim (crm_marked (w + 1) n t1) st x, Ok (n, parts)).
Proof.
  intros s n Ec H1 Hrec Hread Hplan E1 Epub.
  assert (events_of_day (w + 1) seed (with_sim t0 s x) = (with_sim t1 s x, Ok events)) as Eev.
  { unfold day_events. rewrite (io_bind_run _ _ (with_sim t0 s x) (with_sim t0 s x) []).
    2: { apply with_sim_run. unfold events_for, events_through. by rewrite select_recorded, Hrec. }
    rewrite (io_bind_run _ _ (with_sim t0 s x) (with_sim t0 s x) (with_sim t0 s x)) by done.
    rewrite (io_bind_run _ _ _ (with_sim t0 s x) snap) by (unfold io_lift; cbn [cw_crm with_sim]; by rewrite Hread).
    rewrite (io_bind_run _ _ _ (with_sim t0 s x) events) by (unfold io_lift; by rewrite Hplan).
    by rewrite (io_bind_run _ _ _ _ _ (with_sim_run _ _ _ s x _ E1)). }
  split; [by rewrite (with_sim_run _ _ _ s x _ Ec)|]. split; [done|]. unfold run_crm.
  rewrite (io_bind_run _ _ _ _ _ (with_sim_run _ _ _ s x _ Ec)), (io_bind_run _ _ _ _ _ Eev). cbv zeta.
  rewrite (io_bind_run _ _ _ _ _ (with_crm_run _ t1 s st x _ Epub)).
  by rewrite (io_bind_run _ _ _ _ _ (with_sim_run _ _ _ st x _ (mark_crm b w n t1 H1 (Nat2Z.is_nonneg _)))).
Qed.

Lemma with_own_sim x : with_sim (w_sim (cw_world x)) (cw_crm x) x = x.
Proof. unfold with_sim, set_sim. by destruct x as [[] ?]. Qed.

(** The events of a day that can be published are recorded as they are. *)
Lemma day_records b w s news changes t :
  day_ok root base pick try_cast b w (w + 1) s news changes → claimed_day b w t →
  recorded (w + 1) t = [] → fresh_ids t (news ++ changes) →
  ∃ t', record_events (news ++ changes) t = (t', Ok tt) ∧ claimed_day b w t' ∧ recorded (w + 1) t' ≡ₚ news ++ changes.
Proof.
  intros Hday Ht Hrec [Hnd Hfresh]. destruct (record_fresh b w (news ++ changes) t Ht Hnd) as (t' & E & H' & P).
  - intros e He. assert (∃ o, event_ok try_cast (w + 1) o s e) as (o & Heo).
    { apply elem_of_app in He as [He|He]; eexists; [by apply (do_account_events _ _ _ _ _ _ _ _ _ _ Hday)|
        by apply (do_opportunity_events _ _ _ _ _ _ _ _ _ _ Hday)]. }
    split_and!; [apply Heo|apply Heo| |by apply Hfresh]. unfold stored. rewrite (eo_plain _ _ _ _ _ Heo). by destruct e.
  - exists t'. rewrite Hrec, app_nil_r in P. done.
Qed.

Lemma run_restarts b w seed x snap news changes :
  let t := w_sim (cw_world x) in let s := cw_crm x in
  sim_inv b w t → recorded (w + 1) t = [] →
  day_ok root base pick try_cast b w (w + 1) s news changes →
  (∀ e, e ∈ changes → stage_ok root base pick s e) →
  read root base pick try_cast hash distinct p seed s = Ok snap →
  plan p (w + 1) seed snap = Ok (news ++ changes) → fresh_ids t (news ++ changes) →
  let n := Z.of_nat (length (news ++ changes)) in
  ∃ y, sim_inv b w (w_sim y) ∧
    s_sources (w_sim y) !! (w + 1, crm) = Some (mkSourceRun source_applied n n) ∧
    recorded (w + 1) (w_sim y) ≡ₚ news ++ changes ∧
    ∀ x', x' ∈ crash_points (w + 1) seed x → ∃ s' parts,
      run (w + 1) seed x' = (mkCrmWorld y s', Ok (n, parts)) ∧ parts ≡ₚ day_parts root (w + 1) ∧
      day_outcome root base pick try_cast b (w + 1) s (news ++ changes) s'.
Proof.
  intros t s Hsim Hrec Hday Hst Hread Hplan Hfresh n. pose proof (do_next _ _ _ _ _ _ _ _ _ _ Hday) as Hnext.
  destruct (claim_first b w t seed Hsim ltac:(lia)) as (t0 & E0 & H0 & Hev0).
  assert (recorded (w + 1) t0 = []) as Hrec0 by (unfold recorded in *; by rewrite Hev0).
  destruct (day_records b w s news changes t0 Hday H0 Hrec0) as (t1 & E1 & H1 & P1).
  { destruct Hfresh as [Hnd Hfresh]. split; [done|]. by rewrite Hev0. }
  assert (news ++ changes ≠ []) as Hne by (pose proof (do_news _ _ _ _ _ _ _ _ _ _ Hday); by destruct news).
  set (events := news ++ changes) in *. set (st := published root base pick (w + 1) s news changes).
  assert (publish root base pick (w + 1) events s = (st, Ok (day_parts root (w + 1)))) as Epub
    by (by apply (publish_day root base pick try_cast b w)).
  assert (day_outcome root base pick try_cast b (w + 1) s events st) as Hout
    by (by apply (published_outcome root base pick try_cast b w)).
  pose proof (λ t' E', first_run b w seed t' t0 t1 x snap events st _ E' H1 Hrec0 Hread Hplan E1 Epub) as Hfirst. fold s n in Hfirst.
  destruct (Hfirst t E0) as (C1 & C2 & C3). rewrite (with_own_sim x : with_sim t s x = x) in C1, C3.
  exists (set_sim (crm_marked (w + 1) n t1) (cw_world x)).
  split; [exact (cd_inv _ _ _ (crm_marked_day b w n t1 H1 (Nat2Z.is_nonneg _)))|].
  split; [cbn; by rewrite lookup_insert_eq|]. split; [exact P1|].
  assert (sort_on event_id (recorded (w + 1) t1) ≡ₚ events) as Psort by (etrans; [apply sort_by_perm|exact P1]).
  pose proof (out_again _ _ _ _ _ _ _ _ _ Hout _ Psort) as Eagain.
  unfold crash_points. rewrite C1, C2, C3, (with_crm_run _ t1 s st x _ Epub). cbn [fst].
  intros x' Hx'. repeat (apply elem_of_cons in Hx' as [->|Hx']); [..|by apply elem_of_nil in Hx'].
  - by exists st, (day_parts root (w + 1)).
  - exists st, (day_parts root (w + 1)). by destruct (Hfirst t0 (claim_again b w t0 seed H0)) as (_ & _ & ->).
  - destruct (publish_permuted root base pick try_cast b w (w + 1) s news changes _ Hday Psort)
      as (news' & changes' & parts & Hn & Hc & Hparts & Ep).
    exists (published root base pick (w + 1) s news' changes'), parts.
    split; [exact (run_recorded b w seed t1 s x events _ parts H1 P1 Hne Ep)|]. split; [done|].
    apply (published_outcome root base pick try_cast b w); [by eapply day_ok_perm| |unfold events; by rewrite Hn, Hc].
    intros e He. apply Hst. by rewrite <- Hc.
  - exists st, (day_parts root (w + 1)). by rewrite (run_recorded b w seed t1 st x events _ _ H1 P1 Hne Eagain).
  - exists st, (day_parts root (w + 1)).
    pose proof (run_recorded b w seed (crm_marked (w + 1) n t1) st x events st _
      (crm_marked_day b w n t1 H1 (Nat2Z.is_nonneg _)) P1 Hne Eagain) as Erun. fold n in Erun. by rewrite crm_marked_again in Erun.
Qed.
End RunFacts.

(** C9: The CRM run is restart-safe between its steps. Under the hypotheses of a day that publishes,
    with the date not yet planned and its event hashes new: whether the run starts from nothing or
    from what an earlier run left after claiming the date, after recording the plan, after
    publishing or after finishing, it returns the same counts and the same parts; the control state
    is the same, with the plan recorded and the source applied with that many records; the outcome
    of the day in the CRM files is the same to every reader; and the reconciliation of the date
    finds no CRM problem. *)
Theorem crm_run_restart_safe root base pick (H1 : Ranking pick) try_cast hash distinct R (H2 : Random R)
    p b w seed x volume :
  let s := cw_crm x in let t := w_sim (cw_world x) in
  let accounts := _relation root base pick "accounts" s in
  let opportunities := _relation root base pick "opportunities" s in
  (∀ n, 0 ≤ n < 2 ^ 63 → try_cast (pad_int 15 n) = Some n) →
  sim_inv b w t → store_inv base try_cast b w s → w + 1 < date_max →
  select_events (w + 1) crm true t = [] →
  proportional_daily_volume p (Z.of_nat (length accounts)) = Ok volume →
  next_number try_cast accounts + volume ≤ 2 ^ 63 →
  next_number try_cast opportunities + new_opportunities_of volume ≤ 2 ^ 63 →
  (∀ events, (let! snap := read root base pick try_cast hash distinct p seed s in plan p (w + 1) seed snap) = Ok events →
     fresh_ids t events) →
  ∃ events y, let n := Z.of_nat (length events) in
    sim_inv b w (w_sim y) ∧
    s_sources (w_sim y) !! (w + 1, crm) = Some (mkSourceRun source_applied n n) ∧
    select_events (w + 1) crm true (w_sim y) ≡ₚ events ∧
    ∀ x', x' ∈ crash_points root base pick try_cast hash distinct p (w + 1) seed x → ∃ s' parts,
      run_crm root base pick try_cast hash distinct p (w + 1) seed x' = (mkCrmWorld y s', Ok (n, parts)) ∧
      parts ≡ₚ day_parts root (w + 1) ∧
      day_outcome root base pick try_cast b (w + 1) s events s' ∧
      crm_problems root s' (w + 1) (select_events (w + 1) crm true (w_sim y)) = Ok [].
Proof.
  intros s t accounts opportunities Hcast Hsim Hinv Hmax Hrec Hvol Ha Ho Hfresh.
  destruct (planned_day_ok root base pick try_cast hash distinct Hcast p b w (w + 1) seed s volume Hinv ltac:(lia) Hvol Ha Ho)
    as (snap & news & changes & Hread & Hplan & Hday & Hst & _).
  assert (fresh_ids t (news ++ changes)) as Hf by (apply Hfresh; by rewrite Hread).
  assert (recorded (w + 1) t = []) as Hrec0.
  { rewrite select_recorded in Hrec. pose proof (sort_by_perm (le_on event_id) (recorded (w + 1) t)) as Hp.
    unfold sort_on in Hrec. rewrite Hrec in Hp. by apply Permutation_nil_l in Hp. }
  destruct (run_restarts root base pick try_cast hash distinct p b w seed x snap news changes Hsim Hrec0 Hday Hst Hread Hplan Hf)
    as (y & Hy & Hsrc & Hp & Hall).
  assert (select_events (w + 1) crm true (w_sim y) ≡ₚ news ++ changes) as Hsel
    by (rewrite select_recorded; etrans; [apply sort_by_perm|exact Hp]).
  exists (news ++ changes), y. split; [done|]. split; [done|]. split; [done|].
  intros x' Hx'. destruct (Hall x' Hx') as (s' & parts & E & Hparts & Hout). exists s', parts. split_and!; [done|done|done|].
  unfold crm_problems. f_equal. apply (out_valid _ _ _ _ _ _ _ _ _ Hout); [done|apply Hf].
Qed.

(** ** A publication that stops between its files *)

Lemma list_nonempty {A} (l : list A) : l ≠ [] → ∃ x, x ∈ l.
Proof. destruct l as [|x l]; [done|]. intros _. exists x. left. Qed.

Section Crash.
Context (root : string) (base : string → part) (pick : string → list crm_row → option crm_row) `{!Ranking pick}.

(** A partition of the date already holds a record that an event creates, and there is no manifest. *)
Definition half_published (d : date) (s : crm_store) (events : list SourceEvent) : Prop :=
  cs_manifests s !! d = None ∧
  ∃ e o q, e ∈ events ∧ creates e = true ∧ _object_for e = Ok o ∧ cs_parts s !! (o, d) = Some q ∧
    PStr (entity_id e) ∈ omap (λ r : crm_row, r !! "Id") (pt_rows q).

Lemma materialize_err o es s err : _materialize root base pick o es s = Err err → exn_cls err = CrmDeltaError.
Proof.
  unfold _materialize. case_bool_decide; [|by intros [= <-]]. generalize (_current_rows root base pick o (entity_id <$> es) s).
  intros m. induction es as [|e es IH]; [done|]. cbn [res_map]. destruct (materialize_one m e) as [r|x] eqn:E.
  - cbn [res_bind]. destruct (res_map (materialize_one m) es); [done|]. cbn [res_bind]. intros [= <-]. apply IH; [|done].
    by apply NoDup_cons in H as [_ ?].
  - cbn [res_bind]. intros [= <-]. unfold materialize_one in E.
    by destruct (m !! entity_id e), (ends_with "_created" (event_type e)); inversion E.
Qed.

Lemma current_row_written o d s q id :
  cs_parts s !! (o, d) = Some q → PStr id ∈ omap (λ r : crm_row, r !! "Id") (pt_rows q) →
  is_Some (current_row root base pick o s id).
Proof.
  intros Hq (r & Hr & Hid)%list_elem_of_omap. unfold current_row.
  destruct (pick_some (version_field base o)
    (filter (λ r, is_row id r = true) (pt_rows (base o) ++ delta_rows root o s))) as [r' ->]; [|by eexists].
  intros E. eapply (filter_nil_not_elem_of _ _ r E); [by apply is_row_spec|].
  apply elem_of_app. right. apply elem_of_crm_deltas. eauto.
Qed.

Lemma materialize_taken o es s e :
  e ∈ es → creates e = true → is_Some (current_row root base pick o s (entity_id e)) →
  ∃ err, _materialize root base pick o es s = Err err.
Proof.
  intros He Hc [r Hr]. destruct (_materialize root base pick o es s) as [rows|err] eqn:E; [exfalso|by exists err].
  unfold _materialize in E. case_bool_decide; [|done].
  assert (∀ l, e ∈ l → res_map (materialize_one (_current_rows root base pick o (entity_id <$> es) s)) l ≠ Ok rows) as Hno.
  { clear E. intros l Hl. revert rows. induction l as [|x l IH]; intros rows; [by apply elem_of_nil in Hl|]. cbn [res_map].
    apply elem_of_cons in Hl as [<-|Hl].
    - unfold materialize_one at 1. rewrite current_rows_lookup, Hr by (by apply list_elem_of_fmap_2).
      unfold creates in Hc. by rewrite Hc.
    - destruct (materialize_one _ x); [|done]. cbn [res_bind]. specialize (IH Hl).
      destruct (res_map _ l) as [rows'|]; [|done]. by specialize (IH rows'). }
  by apply (Hno es He).
Qed.

Lemma groups_wedged d o es e q grouped : ∀ s,
  NoDup grouped.*1 → (o, es) ∈ grouped → e ∈ es → creates e = true →
  cs_parts s !! (o, d) = Some q → PStr (entity_id e) ∈ omap (λ r : crm_row, r !! "Id") (pt_rows q) →
  ∃ s' err, io_map (publish_group root base pick d) grouped s = (s', Err err) ∧ exn_cls err = CrmDeltaError ∧
    cs_manifests s' = cs_manifests s ∧ cs_parts s' !! (o, d) = Some q.
Proof.
  induction grouped as [|[o' es'] grouped IH]; intros s Hnd Hin He Hc Hq Hid; [by apply elem_of_nil in Hin|].
  cbn [io_map]. cbn [fmap list_fmap fst] in Hnd. apply NoDup_cons in Hnd as [Hno Hnd].
  assert (∀ rows, _materialize root base pick o' es' s = Ok rows →
    publish_group root base pick d (o', es') s = (put_part (o', d) (mkPart (pt_schema (base o')) (table_row (pt_schema (base o')) <$> rows)) s,
      Ok (o', part_path root o' d))) as Eok.
  { intros rows E. unfold publish_group. rewrite (io_bind_run _ _ s s s) by done. cbn [fst snd].
    by rewrite (io_bind_run _ _ s s rows) by (unfold io_lift; by rewrite E). }
  destruct (_materialize root base pick o' es' s) as [rows|err] eqn:E.
  - specialize (Eok rows eq_refl). rewrite (io_bind_run _ _ _ _ _ Eok).
    apply elem_of_cons in Hin as [Heq|Hin].
    { injection Heq as <- <-. destruct (materialize_taken o es s e He Hc (current_row_written o d s q _ Hq Hid)) as [err Herr]. congruence. }
    assert (o' ≠ o) as Hne by (intros ->; apply Hno; by apply (list_elem_of_fmap_2 fst _ (o, es))).
    match type of Eok with _ = (?a, _) => set (s1 := a) in * end.
    destruct (IH s1 Hnd Hin He Hc) as (s' & err & E1 & Hcls & Hm & Hq'); [cbn; by rewrite lookup_insert_ne by congruence|done|].
    exists s', err. unfold io_bind. rewrite E1. done.
  - exists s, err. split; [|split; [by eapply materialize_err|done]]. unfold io_bind at 1.
    unfold publish_group. rewrite (io_bind_run _ _ s s s) by done. cbn [fst snd].
    rewrite (io_bind_err _ _ s s err) by (unfold io_lift; by rewrite E). done.
Qed.

(** A retry fails and leaves the date as stuck as it was. *)
Lemma publish_wedged d s events events' :
  half_published d s events → events' ≡ₚ events →
  (∀ e, e ∈ events → source_system e = crm ∧ is_ok (_object_for e) = true) →
  ∃ s' err, publish root base pick d events' s = (s', Err err) ∧ exn_cls err = CrmDeltaError ∧ half_published d s' events.
Proof.
  intros (Hm & e & o & q & He & Hc & Ho & Hq & Hid) Hp Hall.
  destruct (group_events_spec events' [] ltac:(constructor)) as (g & Hg & Hnd & Hget).
  { intros x Hx. apply Hall. by rewrite <- Hp. }
  assert (e ∈ filter (λ x, on_object o x = true) events') as Hin.
  { apply list_elem_of_filter. split; [by apply on_object_ok|by rewrite Hp]. }
  assert ((o, filter (λ x, on_object o x = true) events') ∈ g) as Hog.
  { apply aget_Some. rewrite Hget. destruct (filter _ events'); [by apply elem_of_nil in Hin|done]. }
  destruct (groups_wedged d o _ e q g s Hnd Hog Hin Hc Hq Hid) as (s' & err & E & Hcls & Hm' & Hq').
  exists s', err. split_and!; [|done|].
  - unfold publish. rewrite (io_bind_run _ _ s s g) by (unfold io_lift; by rewrite Hg). cbv zeta.
    rewrite (io_bind_run _ _ s s s) by done. rewrite Hm. by rewrite (io_bind_err _ _ s s' err).
  - split; [by rewrite Hm'|]. exists e, o, q. done.
Qed.
End Crash.

(** The store after any number of retries. *)
Definition retried (root : string) (base : string → part) (pick : string → list crm_row → option crm_row)
    (d : date) (retries : list (list SourceEvent)) (s : crm_store) : crm_store :=
  foldl (λ s events, (publish root base pick d events s).1) s retries.

(** C21: A publication that stops before its manifest never completes. Under the hypotheses of a day
    that publishes, take the store as a crash leaves it once the accounts partition, the first of
    the three files, is in place and the manifest is not. However often the date is retried with
    its recorded events, in whatever order they come back, each publication raises [CrmDeltaError]
    and the date gets no manifest. *)
Theorem interrupted_publication_wedges root base pick (H1 : Ranking pick) try_cast hash distinct R (H2 : Random R)
    p b w d seed s volume :
  let accounts := _relation root base pick "accounts" s in
  let opportunities := _relation root base pick "opportunities" s in
  (∀ n, 0 ≤ n < 2 ^ 63 → try_cast (pad_int 15 n) = Some n) →
  store_inv base try_cast b w s → w < d < date_max →
  proportional_daily_volume p (Z.of_nat (length accounts)) = Ok volume →
  next_number try_cast accounts + volume ≤ 2 ^ 63 →
  next_number try_cast opportunities + new_opportunities_of volume ≤ 2 ^ 63 →
  ∃ snap events, read root base pick try_cast hash distinct p seed s = Ok snap ∧ plan p d seed snap = Ok events ∧
    ∀ s1 retries,
      cs_manifests s1 = cs_manifests s →
      cs_parts s1 !! ("accounts", d) = cs_parts (publish root base pick d events s).1 !! ("accounts", d) →
      Forall (λ es, es ≡ₚ events) retries →
      let s2 := retried root base pick d retries s1 in
      cs_manifests s2 !! d = None ∧
      ∀ events', events' ≡ₚ events → ∃ err, (publish root base pick d events' s2).2 = Err err ∧ exn_cls err = CrmDeltaError.
Proof.
  intros accounts opportunities Hcast Hinv Hd Hvol Ha Ho.
  destruct (planned_day_ok root base pick try_cast hash distinct Hcast p b w d seed s volume Hinv Hd Hvol Ha Ho)
    as (snap & news & changes & Hread & Hplan & Hday & _ & Hcreate).
  exists snap, (news ++ changes). split; [done|]. split; [done|]. intros s1 retries Hm Hparts Hretries s2.
  rewrite (publish_day root base pick try_cast b w d s news changes Hday) in Hparts. cbn [fst] in Hparts.
  rewrite published_part in Hparts by set_solver.
  assert (∀ e, e ∈ news ++ changes → source_system e = crm ∧ is_ok (_object_for e) = true) as Hall.
  { intros e [He|He]%elem_of_app.
    - pose proof (do_account_events _ _ _ _ _ _ _ _ _ _ Hday e He) as Heo. split; [apply Heo|]. by rewrite (eo_object _ _ _ _ _ Heo).
    - pose proof (do_opportunity_events _ _ _ _ _ _ _ _ _ _ Hday e He) as Heo. split; [apply Heo|]. by rewrite (eo_object _ _ _ _ _ Heo). }
  assert (half_published d s1 (news ++ changes)) as Hhalf.
  { pose proof (do_inv _ _ _ _ _ _ _ _ _ _ Hday) as Hi. split.
    - rewrite Hm. destruct (cs_manifests s !! d) as [m|] eqn:E; [|done]. pose proof (si_manifests _ _ _ _ _ Hi d m E). lia.
    - pose proof (do_news _ _ _ _ _ _ _ _ _ _ Hday) as Hne. destruct (list_nonempty news Hne) as [e He]. pose proof (do_account_events _ _ _ _ _ _ _ _ _ _ Hday e He) as Heo.
      exists e, "accounts", (day_part root base pick "accounts" s news).
      split; [apply elem_of_app; by left|]. split; [by apply Hcreate|]. split; [apply Heo|]. split; [done|].
      apply (day_part_id root base pick try_cast b w s d news "accounts" e Hi); [set_solver|apply Hday|done|done]. }
  assert (half_published d s2 (news ++ changes)) as Hhalf2.
  { unfold s2, retried. clear s2 Hparts Hm. revert s1 Hhalf. induction Hretries as [|es retries Hes _ IH]; intros s1 Hhalf; [done|].
    cbn [foldl]. apply IH. destruct (publish_wedged root base pick d s1 _ es Hhalf Hes Hall) as (s' & err & E & _ & H'). by rewrite E. }
  split; [apply Hhalf2|]. intros events' Hp.
  destruct (publish_wedged root base pick d s2 _ events' Hhalf2 Hp Hall) as (s' & err & E & Hcls & _). exists err. by rewrite E.
Qed.

(** ** The scheduler over the full state *)

Definition full_sim (x : crm_world) : sim_state := w_sim (cw_world x).
Definition set_full_sim (t : sim_state) (x : crm_world) : crm_world := set_world (set_sim t (cw_world x)) x.

Definition reached_full (d : date) (s0 : sim_state) (x : crm_world) : Prop := reached d s0 (cw_world x).

Lemma preserves_on_world {A} d s0 (m : io world A) :
  preserves (reached d s0) m → preserves (reached_full d s0) (on_world m).
Proof.
  intros Hm x Hx. unfold on_world, io_zoom. specialize (Hm (cw_world x) Hx). by destruct (m (cw_world x)).
Qed.

Lemma preserves_on_crm {A} d s0 (m : io crm_store A) : preserves (reached_full d s0) (on_crm m).
Proof. intros x Hx. unfold on_crm, io_zoom. by destruct (m (cw_crm x)). Qed.

Lemma preserves_step d s0 (A : Type) (m : io sim_state A) :
  (∀ t, rtc (day_step d) t (m t).1) → preserves (reached_full d s0) (on_world (on_sim m)).
Proof. intros Hm. by apply preserves_on_world, preserves_on_sim. Qed.

Lemma run_crm_steps root base pick try_cast hash distinct {R} `{!Random R} p d seed s0 :
  preserves (reached_full d s0) (run_crm root base pick try_cast hash distinct p d seed).
Proof.
  unfold run_crm, day_events.
  repeat first
    [ apply preserves_bind; [|intros ?]
    | apply preserves_step; intros ?;
      first [ reflexivity | apply rtc_once; first [apply day_claim | apply day_mark | apply day_record] ]
    | apply preserves_on_crm
    | solve [auto with nw]
    | case_match ].
Qed.

#[export] Instance crm_daily (root : string) (base : string → part) (pick : string → list crm_row → option crm_row)
    (try_cast : string → option Z) (hash : option pyval → Z → Z) (distinct : list string → list string)
    {R} `{!Random R} (p : SimulationPolicy) : DailySourceRun crm_world full_sim.
Proof.
  refine {| daily_run := λ d seed, run_crm root base pick try_cast hash distinct p d seed ;;; io_ret tt |}.
  intros b w d seed s _. apply (preserves_bind (reached_full d (full_sim s))); [apply run_crm_steps|auto with nw|].
  unfold reached_full, reached. reflexivity.
Defined.

(** The runners of Operations and Finance beside the CRM files; reconciliation reads these. *)
Definition lift_daily (r : crm_world → DailySourceRun world w_sim) : DailySourceRun crm_world full_sim.
Proof.
  refine {| daily_run := λ d seed x, on_world (daily_run (r x) d seed) x |}.
  intros b w d seed x H. unfold full_sim, on_world, io_zoom in *.
  pose proof (daily_run_steps (DailySourceRun:=r x) b w d seed (cw_world x) H) as Hs.
  by destruct (daily_run (r x) d seed (cw_world x)).
Defined.

Definition simulate_through (root : string) (base : string → part) (pick : string → list crm_row → option crm_row)
    (try_cast : string → option Z) (hash : option pyval → Z → Z) (distinct : list string → list string) {R} `{!Random R} (p : SimulationPolicy)
    (through_date : date) (seed : Z) : io crm_world (list date) :=
  run_through full_sim set_full_sim (crm_daily root base pick try_cast hash distinct p)
    (lift_daily (λ _, ops_daily p)) (lift_daily (λ x, erp_daily (crm_problems root (cw_crm x)) p)) through_date seed.

Definition full_world : crm_world := mkCrmWorld witness_world empty_crm.

(** Two days of the whole simulation, with the generator of CPython. *)
Definition two_days : crm_world * res (list date) :=
  simulate_through "crm" seed_files rank bigint order_hash remove_dups (R:=MT19937.state) default_policy 738888 42 full_world.

Example two_days_complete : two_days.2 = Ok [738887; 738888].
Proof. vm_compute. reflexivity. Qed.

(** ** Concrete restarts *)

Abbreviation example_run := (run_crm "crm" seed_files rank bigint order_hash remove_dups (R:=MT19937.state) default_policy)
  (only parsing).

Lemma example_ids events : example_plan 738887 empty_crm = Ok events → NoDup (event_id <$> events).
Proof.
  intros E. assert (match example_plan 738887 empty_crm with Ok es => bool_decide (NoDup (event_id <$> es)) | Err _ => true end = true) as H
    by (by vm_compute).
  rewrite E in H. by apply bool_decide_eq_true in H.
Qed.

Lemma crm_run_restart_safe_witness :
  ∃ y n, ∀ x', x' ∈ crash_points "crm" seed_files rank bigint order_hash remove_dups (R:=MT19937.state) default_policy 738887 42 full_world →
    ∃ s' parts, example_run 738887 42 x' = (mkCrmWorld y s', Ok (n, parts)) ∧ parts ≡ₚ day_parts "crm" 738887.
Proof.
  destruct (crm_run_restart_safe "crm" seed_files rank rank_ranking bigint order_hash remove_dups MT19937.state mersenne_twister
    default_policy 738886 738886 42 full_world 1) as (events & y & _ & _ & _ & Hall).
  - apply bigint_numbers.
  - apply (initialize_inv 738886). by vm_compute.
  - apply seed_files_ok. by vm_compute.
  - by vm_compute.
  - by vm_compute.
  - by vm_compute.
  - by vm_compute.
  - by vm_compute.
  - intros events Hplan. split; [by apply example_ids|]. intros e _. reflexivity.
  - exists y, (Z.of_nat (length events)). intros x' Hx'. destruct (Hall x' Hx') as (s' & parts & H1 & H2 & _).
    exists s', parts. split; [exact H1|exact H2].
Defined.

(** The process dies between the partitions of accounts and of opportunities. *)
Definition torn_store : crm_store :=
  match example_plan 738887 empty_crm with
  | Ok events => let s' := (publish "crm" seed_files rank 738887 events empty_crm).1 in
                 mkCrm (filter (λ kp : string * date * part, kp.1.1 = "accounts") (cs_parts s')) ∅
  | Err _ => empty_crm
  end.

Lemma interrupted_publication_wedges_witness :
  ∃ events, example_plan 738887 empty_crm = Ok events ∧ ∀ retries, Forall (λ es, es ≡ₚ events) retries →
    cs_manifests (retried "crm" seed_files rank 738887 retries torn_store) !! 738887 = None.
Proof.
  destruct (interrupted_publication_wedges "crm" seed_files rank rank_ranking bigint order_hash remove_dups MT19937.state
    mersenne_twister default_policy 738886 738886 738887 42 empty_crm 1) as (snap & events & Hread & Hplan & Hall).
  - apply bigint_numbers.
  - apply seed_files_ok. by vm_compute.
  - by vm_compute.
  - by vm_compute.
  - by vm_compute.
  - by vm_compute.
  - assert (example_plan 738887 empty_crm = Ok events) as Ep.
    { unfold example_plan, example_read. rewrite Hread. exact Hplan. }
    exists events. split; [exact Ep|]. intros retries Hretries.
    apply (Hall torn_store retries); [by (unfold torn_store; rewrite Ep)| |exact Hretries].
    unfold torn_store. rewrite Ep. cbn [cs_parts]. rewrite map_lookup_filter.
    destruct (cs_parts (publish "crm" seed_files rank 738887 events empty_crm).1 !! ("accounts", 738887)); reflexivity.
Defined.

(** A process that dies while it records the plan leaves part of it, and the next run takes the part
    for the plan: the day applies and validates with one event. *)
Definition torn_plan : crm_world :=
  match example_plan 738887 empty_crm with
  | Ok events => (on_world (on_sim (record_events (take 1 events))) (on_world (on_sim (claim_run 738887 42)) full_world).1).1
  | Err _ => full_world
  end.

Example partial_plan_is_published :
  (example_run 738887 42 torn_plan).2 = Ok (1, [("accounts", part_path "crm" "accounts" 738887)]) ∧
  (example_run 738887 42 full_world).2 = Ok (4, day_parts "crm" 738887) ∧
  crm_problems "crm" (cw_crm (example_run 738887 42 torn_plan).1) 738887
    (select_events 738887 crm true (full_sim (example_run 738887 42 torn_plan).1)) = Ok [].
Proof. split_and!; vm_compute; reflexivity. Qed.
