(* ===== verification/Registry.v ===== *)
(** * The contract registry: [generator/metadata_registry.py]

    The versions of the source tables' column contracts in [metadata.table_versions] and
    [metadata.column_versions], under the constraints of [src/sql/migrations/analytics]. A contract
    gets a version when its fingerprint is new. *)

From stdpp Require Import prelude gmap strings list.
From Stdlib Require Import ZArith Lia Ascii.
From S2P Require Import Prelude PyText Dates Sha256 PyNum Events.

Open Scope Z_scope.

(** A column as [read_columns] normalises it. *)
Record column := mkColumn {
  ordinal_position : Z;
  column_name : string;
  data_type : string;
  is_nullable : bool;
  character_maximum_length : option Z;
  numeric_precision : option Z;
  numeric_scale : option Z }.

#[export] Instance column_eq_dec : EqDecision column.
Proof. solve_decision. Defined.

(** A row of [information_schema.columns]. *)
Record info_row := mkInfo { i_table : string; i_nullable : string; i_column : column }.

Definition info_le (a b : info_row) : bool :=
  if String.eqb (i_table a) (i_table b) then ordinal_position (i_column a) <=? ordinal_position (i_column b)
  else str_le (i_table a) (i_table b).

Definition normalized (r : info_row) : column :=
  let c := i_column r in
  mkColumn (ordinal_position c) (column_name c) (data_type c) (String.eqb (i_nullable r) "YES")
    (character_maximum_length c) (numeric_precision c) (numeric_scale c).

Definition group_column (grouped : list (string * list column)) (r : info_row) : list (string * list column) :=
  aset (i_table r) (default [] (aget (i_table r) grouped) ++ [normalized r]) grouped.

(** [read_columns] on the rows of one schema *)
Definition read_columns (rows : list info_row) : list (string * list column) :=
  foldl group_column [] (sort_by info_le rows).

(** ** Fingerprints *)

Definition int_or_none (z : option Z) : pyval := match z with Some z => PInt z | None => PNone end.
Definition column_dict (c : column) : payload_map :=
  list_to_map [("ordinal_position", PInt (ordinal_position c)); ("column_name", PStr (column_name c));
    ("data_type", PStr (data_type c)); ("is_nullable", PBool (is_nullable c));
    ("character_maximum_length", int_or_none (character_maximum_length c));
    ("numeric_precision", int_or_none (numeric_precision c)); ("numeric_scale", int_or_none (numeric_scale c))].

Definition fingerprint (columns : list column) : string :=
  sha256_hex ("[" +:+ join "," (json_dumps ∘ column_dict <$> columns) +:+ "]").

(** ** The registry *)

(** [source_system], [source_schema] and [table_name] *)
Definition table_key : Type := string * string * string.

Record table_version := mkVersion {
  tv_id : Z;
  tv_key : table_key;
  tv_version : Z;
  tv_fingerprint : string;
  tv_retired : bool }.

Record registry := mkRegistry {
  rg_versions : list table_version;
  rg_columns : gmap Z (list column);
  rg_next_id : Z }.

Definition empty_registry : registry := mkRegistry [] ∅ 1.

Definition versions_of (k : table_key) (r : registry) : list table_version :=
  filter (λ v, tv_key v = k) (rg_versions r).

Record table_report := mkTableReport { tr_table : string; tr_version : Z; tr_changed : bool }.

(** [SELECT ... WHERE schema_fingerprint = ...] *)
Definition find_contract (k : table_key) (hash : string) (r : registry) : option table_version :=
  head (filter (λ v, tv_fingerprint v = hash) (versions_of k r)).

Definition next_version (k : table_key) (r : registry) : Z := zmax 0 (tv_version <$> versions_of k r) + 1.

(** [UPDATE ... SET retired_at = current_timestamp ... AND retired_at IS NULL] *)
Definition retire (k : table_key) (v : table_version) : table_version :=
  if bool_decide (tv_key v = k) then mkVersion (tv_id v) (tv_key v) (tv_version v) (tv_fingerprint v) true else v.
Definition retire_table (k : table_key) (r : registry) : registry :=
  mkRegistry (retire k <$> rg_versions r) (rg_columns r) (rg_next_id r).

(** The [INSERT] of a version, with the constraints of the table. *)
Definition insert_version (k : table_key) (version : Z) (hash : string) : io registry Z :=
  let* r := io_get in
  let taken := existsb (λ v, (tv_version v =? version) || String.eqb (tv_fingerprint v) hash) (versions_of k r) in
  let* _ := raise_if (taken || (version <=? 0)) IntegrityError "duplicate or invalid table version" in
  let* _ := io_modify (λ r, mkRegistry (rg_versions r ++ [mkVersion (rg_next_id r) k version hash false])
                              (rg_columns r) (rg_next_id r + 1)) in
  io_ret (rg_next_id r).

(** The [executemany] of the columns. *)
Definition columns_ok (columns : list column) : bool :=
  bool_decide (NoDup (column_name <$> columns)) && bool_decide (NoDup (ordinal_position <$> columns))
  && forallb (λ c, 0 <? ordinal_position c) columns.
Definition insert_columns (id : Z) (columns : list column) : io registry unit :=
  let* _ := raise_if (negb (columns_ok columns)) IntegrityError "duplicate or invalid column" in
  io_modify (λ r, mkRegistry (rg_versions r) (<[id := columns]> (rg_columns r)) (rg_next_id r)).

Definition record_table (source_system source_schema table_name : string) (columns : list column) (dry_run : bool)
    : io registry table_report :=
  let contract_hash := fingerprint columns in
  let k := (source_system, source_schema, table_name) in
  let* r := io_get in
  match find_contract k contract_hash r with
  | Some current => io_ret (mkTableReport table_name (tv_version current) false)
  | None =>
    let version := next_version k r in
    if dry_run then io_ret (mkTableReport table_name version true)
    else
      let* _ := io_modify (retire_table k) in
      let* version_id := insert_version k version contract_hash in
      let* _ := insert_columns version_id columns in
      io_ret (mkTableReport table_name version true)
  end.

Definition SOURCE_SCHEMAS (system : string) : res string :=
  if String.eqb system "ops" then Ok "ops" else if String.eqb system "erp" then Ok "erp" else raise KeyError system.

Definition sync_system (rows : string → list info_row) (system : string) (dry_run : bool)
    : io registry (list table_report) :=
  let* schema := io_lift (SOURCE_SCHEMAS system) in
  io_map (λ t : string * list column, record_table system schema t.1 t.2 dry_run) (read_columns (rows schema)).

(** [main]: the systems asked for in one transaction, rolled back after a dry run. *)
Definition sync_all (rows : string → list info_row) (systems : list string) (dry_run : bool)
    : io registry (list (string * list table_report)) :=
  λ r, let '(r', res) := transaction (io_map (λ s, let* report := sync_system rows s dry_run in io_ret (s, report)) systems) r in
       (if dry_run then r else r', res).

(** The view [metadata.current_columns], per table. *)
Definition current_version (k : table_key) (r : registry) : option table_version :=
  head (filter (λ v, tv_retired v = false) (versions_of k r)).

(** ** The invariant of the registry *)

(** The versions of one table: numbered from 1, each contract once, all but the last retired. *)
Record numbered_versions (l : list table_version) : Prop := {
  nv_numbers : tv_version <$> l = z_range 1 (Z.of_nat (length l));
  nv_contracts : NoDup (tv_fingerprint <$> l);
  nv_retired : tv_retired <$> l = replicate (pred (length l)) true ++ (match l with [] => [] | _ => [false] end) }.

Record registry_inv (r : registry) : Prop := {
  ri_versions : ∀ k, numbered_versions (versions_of k r);
  ri_ids : ∀ v, v ∈ rg_versions r → tv_id v < rg_next_id r;
  ri_columns : ∀ v, v ∈ rg_versions r → ∃ cs, rg_columns r !! tv_id v = Some cs ∧ fingerprint cs = tv_fingerprint v }.

Lemma empty_registry_inv : registry_inv empty_registry.
Proof. split; [|intros v Hv; by apply elem_of_nil in Hv..]. intros k. split; [done|constructor|done]. Qed.

Lemma retire_key k v : tv_key (retire k v) = tv_key v.
Proof. unfold retire. by case_bool_decide. Qed.
Lemma retire_version k v : tv_version (retire k v) = tv_version v.
Proof. unfold retire. by case_bool_decide. Qed.
Lemma retire_fingerprint k v : tv_fingerprint (retire k v) = tv_fingerprint v.
Proof. unfold retire. by case_bool_decide. Qed.
Lemma retire_id k v : tv_id (retire k v) = tv_id v.
Proof. unfold retire. by case_bool_decide. Qed.

Lemma versions_retire k k' r : versions_of k' (retire_table k r) = retire k <$> versions_of k' r.
Proof.
  unfold versions_of, retire_table. cbn [rg_versions]. induction (rg_versions r) as [|v l IH]; [done|].
  cbn [fmap list_fmap]. rewrite !filter_cons, retire_key. case_decide; cbn [fmap list_fmap]; [by f_equal|done].
Qed.

Lemma retire_all k r : retire k <$> versions_of k r = (λ v, mkVersion (tv_id v) (tv_key v) (tv_version v) (tv_fingerprint v) true) <$> versions_of k r.
Proof.
  apply list_fmap_ext. intros i v Hv. apply list_elem_of_lookup_2, list_elem_of_filter in Hv as [Hk _].
  unfold retire. by rewrite bool_decide_true.
Qed.

Lemma retire_others k k' r : k' ≠ k → retire k <$> versions_of k' r = versions_of k' r.
Proof.
  intros Hne. rewrite <- (list_fmap_id (versions_of k' r)) at 2. apply list_fmap_ext.
  intros i v Hv. apply list_elem_of_lookup_2, list_elem_of_filter in Hv as [Hk _].
  unfold retire. rewrite bool_decide_false; [done|]. congruence.
Qed.

Lemma zmax_numbers n : 0 ≤ n → zmax 0 (z_range 1 n) = n.
Proof.
  intros Hn. pose proof (zmax_base 0 (z_range 1 n)). destruct (zmax_in 0 (z_range 1 n)) as [E|Hin%elem_of_z_range].
  - destruct (decide (n = 0)) as [->|]; [done|]. assert (n ∈ z_range 1 n) as Hin by (apply elem_of_z_range; lia).
    pose proof (zmax_ge 0 _ _ Hin). lia.
  - destruct (decide (n = 0)) as [->|]; [lia|]. assert (n ∈ z_range 1 n) as Hin2 by (apply elem_of_z_range; lia).
    pose proof (zmax_ge 0 _ _ Hin2). lia.
Qed.

Lemma next_version_spec k r : registry_inv r → next_version k r = Z.of_nat (length (versions_of k r)) + 1.
Proof.
  intros H. unfold next_version. rewrite (nv_numbers _ (ri_versions _ H k)), zmax_numbers by lia. done.
Qed.

Lemma head_filter_None {A} (P : A → Prop) `{∀ x, Decision (P x)} l : head (filter P l) = None ↔ ∀ x, x ∈ l → ¬ P x.
Proof.
  split.
  - intros E x Hx Hp. assert (x ∈ filter P l) as Hin by (by apply list_elem_of_filter).
    destruct (filter P l); [by apply elem_of_nil in Hin|done].
  - intros Hl. destruct (filter P l) as [|x k] eqn:E; [done|]. assert (x ∈ filter P l) as Hx by (rewrite E; left).
    apply list_elem_of_filter in Hx as [Hp Hx]. by destruct (Hl x Hx).
Qed.

Lemma head_filter_Some {A} (P : A → Prop) `{∀ x, Decision (P x)} l x : head (filter P l) = Some x → x ∈ l ∧ P x.
Proof.
  intros E. assert (x ∈ filter P l) as Hx by (destruct (filter P l); [done|injection E as ->; left]).
  by apply list_elem_of_filter in Hx as [??].
Qed.

Lemma find_contract_None k hash r : find_contract k hash r = None ↔ hash ∉ tv_fingerprint <$> versions_of k r.
Proof.
  unfold find_contract. rewrite head_filter_None. split.
  - intros Hl (v & -> & Hv)%list_elem_of_fmap. by apply (Hl v).
  - intros Hn v Hv E. apply Hn. rewrite <- E. by apply list_elem_of_fmap_2.
Qed.

Lemma find_contract_Some k hash r v : find_contract k hash r = Some v → v ∈ versions_of k r ∧ tv_fingerprint v = hash.
Proof. unfold find_contract. intros E. apply head_filter_Some in E as [Hv E]. done. Qed.

(** ** Recording a table *)

(** The registry after a new contract. *)
Definition with_version (k : table_key) (columns : list column) (r : registry) : registry :=
  mkRegistry ((retire k <$> rg_versions r) ++ [mkVersion (rg_next_id r) k (next_version k r) (fingerprint columns) false])
    (<[rg_next_id r := columns]> (rg_columns r)) (rg_next_id r + 1).

Lemma versions_with k k' cs r :
  versions_of k' (with_version k cs r)
  = (retire k <$> versions_of k' r)
    ++ (if decide (k = k') then [mkVersion (rg_next_id r) k (next_version k r) (fingerprint cs) false] else []).
Proof.
  unfold versions_of at 1. cbn [rg_versions with_version]. rewrite filter_app. f_equal.
  apply (versions_retire k k' r).
Qed.

Lemma with_version_inv k cs r :
  registry_inv r → find_contract k (fingerprint cs) r = None → registry_inv (with_version k cs r).
Proof.
  intros H Hnew%find_contract_None. pose proof (ri_versions _ H k) as [Hn Hc Hr]. split.
  - intros k'. rewrite versions_with. case_decide as Hk; [|rewrite app_nil_r, retire_others by done; apply H]. subst k'.
    rewrite retire_all. rewrite (next_version_spec _ _ H). split.
    + rewrite fmap_app, <- list_fmap_compose, length_app, length_fmap. cbn [fmap list_fmap length tv_version].
      change (tv_version ∘ _) with tv_version. rewrite Hn.
      rewrite Nat2Z.inj_add. rewrite (z_range_app 1 (Z.of_nat (length (versions_of k r))) (_ + _)) by lia. f_equal.
      rewrite z_range_cons by lia. by rewrite z_range_nil by lia.
    + rewrite fmap_app, <- list_fmap_compose. change (tv_fingerprint ∘ _) with tv_fingerprint.
      apply NoDup_app. split; [done|]. split; [|apply NoDup_singleton]. intros x Hx ->%list_elem_of_singleton. done.
    + rewrite fmap_app, <- list_fmap_compose, length_app, length_fmap. cbn [length]. rewrite Nat.add_1_r. cbn [pred].
      destruct (versions_of k r) as [|v l]; [done|]. apply (f_equal (λ x, x ++ [false])). clear.
      induction (v :: l) as [|a m IH]; [done|]. cbn. by f_equal.
  - intros v Hv. apply elem_of_app in Hv as [Hv|Hv];
      [apply list_elem_of_fmap in Hv as (v' & -> & Hv)|apply list_elem_of_singleton in Hv as ->]; cbn; [|lia].
    rewrite retire_id. pose proof (ri_ids _ H v' Hv). lia.
  - intros v Hv. apply elem_of_app in Hv as [Hv|Hv];
      [apply list_elem_of_fmap in Hv as (v' & -> & Hv)|apply list_elem_of_singleton in Hv as ->]; cbn.
    + rewrite retire_id, retire_fingerprint. pose proof (ri_ids _ H v' Hv). rewrite lookup_insert_ne by lia. by apply H.
    + exists cs. by rewrite lookup_insert_eq.
Qed.

Lemma record_table_spec sys schema t cs dry r :
  registry_inv r → columns_ok cs = true →
  let k := (sys, schema, t) in
  record_table sys schema t cs dry r =
  match find_contract k (fingerprint cs) r with
  | Some v => (r, Ok (mkTableReport t (tv_version v) false))
  | None => (if dry then r else with_version k cs r,
             Ok (mkTableReport t (Z.of_nat (length (versions_of k r)) + 1) true))
  end.
Proof.
  intros H Hcs k. unfold record_table. fold k. rewrite (io_bind_run _ _ r r r) by done.
  destruct (find_contract k (fingerprint cs) r) as [v|] eqn:E; [done|].
  rewrite <- (next_version_spec k r H). destruct dry; [done|].
  rewrite (io_bind_run _ _ r (retire_table k r) tt) by done.
  pose proof (next_version_spec k r H) as Hnext. pose proof E as Hnew. apply find_contract_None in Hnew.
  rewrite (io_bind_run _ _ (retire_table k r)
    (mkRegistry ((retire k <$> rg_versions r) ++ [mkVersion (rg_next_id r) k (next_version k r) (fingerprint cs) false])
       (rg_columns r) (rg_next_id r + 1)) (rg_next_id r)).
  - unfold insert_columns. by rewrite Hcs.
  - unfold insert_version. rewrite (io_bind_run _ _ _ (retire_table k r) (retire_table k r)) by done.
    assert (existsb (λ v, (tv_version v =? next_version k r) || String.eqb (tv_fingerprint v) (fingerprint cs))
      (versions_of k (retire_table k r)) || (next_version k r <=? 0) = false) as ->; [|done].
    apply orb_false_iff. split; [|apply Z.leb_gt; lia]. rewrite versions_retire. apply not_true_iff_false.
    intros (v' & Hv & Heq)%existsb_exists. apply list_elem_of_In, list_elem_of_fmap in Hv as (v & -> & Hv).
    rewrite retire_version, retire_fingerprint in Heq. apply orb_true_iff in Heq as [Heq%Z.eqb_eq|Heq%String.eqb_eq].
    + assert (tv_version v ∈ tv_version <$> versions_of k r) as Hin by (by apply list_elem_of_fmap_2).
      rewrite (nv_numbers _ (ri_versions _ H k)) in Hin. apply elem_of_z_range in Hin. lia.
    + apply Hnew. rewrite <- Heq. by apply list_elem_of_fmap_2.
Qed.

(** ** Reading the columns *)

Lemma group_column_spec rows : ∀ g, NoDup g.*1 →
  let g' := foldl group_column g rows in
  NoDup g'.*1 ∧
  ∀ t cs, aget t g' = Some cs →
    cs = default [] (aget t g) ++ (normalized <$> filter (λ r, i_table r = t) rows) ∧ (t ∈ g.*1 ∨ t ∈ i_table <$> rows).
Proof.
  induction rows as [|r rows IH]; intros g Hnd; cbn [foldl].
  - split; [done|]. intros t cs Ht. rewrite Ht. cbn. rewrite app_nil_r. split; [done|]. left.
    apply aget_Some in Ht. by apply (list_elem_of_fmap_2 fst) in Ht.
  - destruct (IH (group_column g r)) as [H1 H2]; [by apply NoDup_aset|]. split; [done|]. intros t cs Ht.
    destruct (H2 t cs Ht) as [-> Hin]. clear H2 Ht IH. unfold group_column in Hin |- *. rewrite aget_aset, filter_cons. split.
    + destruct (String.eqb_spec t (i_table r)) as [Ht|Hne]; [subst t|].
      * rewrite decide_True by done. cbn. by rewrite <- (assoc_L (++)).
      * rewrite decide_False by congruence. done.
    + rewrite aset_fst in Hin. cbn. rewrite elem_of_cons. tauto.
Qed.

(** The keys of [information_schema.columns]. *)
Record schema_ok (rows : list info_row) : Prop := {
  so_names : NoDup ((λ r, (i_table r, column_name (i_column r))) <$> rows);
  so_ordinals : NoDup ((λ r, (i_table r, ordinal_position (i_column r))) <$> rows);
  so_positive : ∀ r, r ∈ rows → 0 < ordinal_position (i_column r) }.

Lemma NoDup_group {A} (f : column → A) (rows : list info_row) t :
  NoDup ((λ r, (i_table r, f (i_column r))) <$> rows) → (∀ r, f (normalized r) = f (i_column r)) →
  NoDup (f <$> (normalized <$> filter (λ r, i_table r = t) rows)).
Proof.
  intros Hnd Hf. induction rows as [|r rows IH]; [constructor|]. cbn [fmap list_fmap] in Hnd.
  apply NoDup_cons in Hnd as [Hr Hnd]. rewrite filter_cons. case_decide as Ht; [|by apply IH].
  cbn [fmap list_fmap]. apply NoDup_cons. split; [|by apply IH].
  intros Hin. apply list_elem_of_fmap in Hin as (c & E & Hin). apply list_elem_of_fmap in Hin as (r' & -> & Hin).
  apply list_elem_of_filter in Hin as [Hr' Hin]. apply Hr. apply list_elem_of_fmap. exists r'. rewrite !Hf in E. split; [congruence|done].
Qed.

Lemma read_columns_spec rows :
  schema_ok rows →
  NoDup (read_columns rows).*1 ∧ Forall (λ t, columns_ok t.2 = true) (read_columns rows) ∧
  ∀ t cs, aget t (read_columns rows) = Some cs →
    cs = normalized <$> filter (λ r, i_table r = t) (sort_by info_le rows) ∧ t ∈ i_table <$> rows.
Proof.
  intros [Hn Ho Hp]. destruct (group_column_spec (sort_by info_le rows) [] (NoDup_nil_2)) as [H1 H2].
  fold (read_columns rows) in *. pose proof (sort_by_perm info_le rows) as Hperm.
  assert (∀ t cs, aget t (read_columns rows) = Some cs →
    cs = normalized <$> filter (λ r, i_table r = t) (sort_by info_le rows) ∧ t ∈ i_table <$> rows) as H3.
  { intros t cs Ht. destruct (H2 t cs Ht) as [-> [Hin|Hin]]; [by apply elem_of_nil in Hin|]. split; [done|]. by rewrite <- Hperm. }
  split_and!; [done| |done]. apply Forall_forall. intros [t cs] Hin.
  destruct (H3 t cs (aget_NoDup _ _ _ H1 Hin)) as [-> _]. cbn [snd]. unfold columns_ok.
  apply andb_true_iff. split; [apply andb_true_iff; split; apply bool_decide_eq_true_2|].
  - apply NoDup_group; [by rewrite Hperm|done].
  - apply NoDup_group; [by rewrite Hperm|done].
  - apply forallb_forall. intros c Hc. apply list_elem_of_In, list_elem_of_fmap in Hc as (r & -> & Hr).
    apply list_elem_of_filter in Hr as [_ Hr]. apply Z.ltb_lt, (Hp r). by rewrite <- Hperm.
Qed.

(** ** Synchronising a system *)

Definition recorded (k : table_key) (cs : list column) (r : registry) : registry :=
  if find_contract k (fingerprint cs) r is Some _ then r else with_version k cs r.

Definition report_for (system schema : string) (r : registry) (t : string * list column) : table_report :=
  match find_contract (system, schema, t.1) (fingerprint t.2) r with
  | Some v => mkTableReport t.1 (tv_version v) false
  | None => mkTableReport t.1 (Z.of_nat (length (versions_of (system, schema, t.1) r)) + 1) true
  end.

Lemma record_table_run sys schema t cs dry r :
  registry_inv r → columns_ok cs = true →
  record_table sys schema t cs dry r =
    (if dry then r else recorded (sys, schema, t) cs r, Ok (report_for sys schema r (t, cs))).
Proof.
  intros H Hc. rewrite record_table_spec by done. unfold recorded, report_for. cbn [fst snd].
  by destruct (find_contract _ _ r), dry.
Qed.

Lemma recorded_inv k cs r : registry_inv r → registry_inv (recorded k cs r).
Proof. intros H. unfold recorded. destruct (find_contract _ _ r) eqn:E; [done|by apply with_version_inv]. Qed.

Lemma recorded_others k k' cs r : k ≠ k' → versions_of k' (recorded k cs r) = versions_of k' r.
Proof.
  intros Hne. unfold recorded. destruct (find_contract _ _ r); [done|].
  rewrite versions_with, decide_False, app_nil_r by done. by apply retire_others.
Qed.

Lemma report_for_ext sys schema r r' t :
  versions_of (sys, schema, t.1) r = versions_of (sys, schema, t.1) r' → report_for sys schema r t = report_for sys schema r' t.
Proof. intros E. unfold report_for, find_contract. by rewrite E. Qed.

Definition unchanged (p : table_report) : table_report := mkTableReport (tr_table p) (tr_version p) false.

Lemma report_recorded sys schema r t cs :
  registry_inv r →
  report_for sys schema (recorded (sys, schema, t) cs r) (t, cs) = unchanged (report_for sys schema r (t, cs)).
Proof.
  intros H. unfold recorded. destruct (find_contract _ _ r) as [v|] eqn:E.
  - unfold report_for. cbn [fst snd]. by rewrite E.
  - unfold report_for. cbn [fst snd]. rewrite E. unfold find_contract. rewrite versions_with, decide_True by done.
    rewrite filter_app. pose proof E as Hnew%find_contract_None.
    assert (filter (λ v, tv_fingerprint v = fingerprint cs) (retire (sys, schema, t) <$> versions_of (sys, schema, t) r) = []) as ->.
    { apply filter_none. intros v' Hv. apply list_elem_of_fmap in Hv as (v & -> & Hv).
      rewrite retire_fingerprint. intros E'.
      apply Hnew. rewrite <- E'. by apply list_elem_of_fmap_2. }
    rewrite filter_cons, decide_True by done. cbn. rewrite (next_version_spec _ _ H). done.
Qed.

(** What a synchronisation does to the registry *)
Definition sync_tables (system schema : string) (tables : list (string * list column)) (r : registry) : registry :=
  foldl (λ r t, recorded (system, schema, t.1) t.2 r) r tables.

Lemma sync_tables_others sys schema tables k : ∀ r,
  (∀ t, t ∈ tables.*1 → (sys, schema, t) ≠ k) → versions_of k (sync_tables sys schema tables r) = versions_of k r.
Proof.
  induction tables as [|t tables IH]; intros r Hk; [done|]. cbn [sync_tables foldl].
  etrans; [apply IH; intros; apply Hk; by right|]. apply recorded_others, Hk. left.
Qed.

Lemma sync_tables_inv sys schema tables : ∀ r, registry_inv r → registry_inv (sync_tables sys schema tables r).
Proof. induction tables as [|t tables IH]; intros r H; [done|]. by apply IH, recorded_inv. Qed.

Lemma sync_tables_report sys schema tables t cs : ∀ r,
  registry_inv r → NoDup tables.*1 → (t, cs) ∈ tables →
  report_for sys schema (sync_tables sys schema tables r) (t, cs) = unchanged (report_for sys schema r (t, cs)).
Proof.
  induction tables as [|[t' cs'] tables IH]; intros r H Hnd Hin; [by apply elem_of_nil in Hin|].
  cbn [fmap list_fmap fst] in Hnd. apply NoDup_cons in Hnd as [Ht' Hnd]. cbn [sync_tables foldl fst snd].
  apply elem_of_cons in Hin as [E|Hin].
  - injection E as -> ->. rewrite <- report_recorded by done. apply report_for_ext. cbn [fst].
    apply sync_tables_others. intros x Hx [= ->]. done.
  - assert (t ≠ t') as Hne by (intros ->; apply (list_elem_of_fmap_2 fst) in Hin; by apply Ht').
    etrans; [apply IH; [by apply recorded_inv|done..]|]. f_equal. apply report_for_ext.
    apply recorded_others. by intros [= ->].
Qed.

Lemma sync_tables_run sys schema dry tables : ∀ r,
  registry_inv r → NoDup tables.*1 → Forall (λ t, columns_ok t.2 = true) tables →
  io_map (λ t : string * list column, record_table sys schema t.1 t.2 dry) tables r
  = (if dry then r else sync_tables sys schema tables r, Ok (report_for sys schema r <$> tables)).
Proof.
  induction tables as [|[t cs] tables IH]; intros r H Hnd Hok; cbn [io_map]; [by destruct dry|].
  cbn [fmap list_fmap fst] in Hnd. apply NoDup_cons in Hnd as [Ht Hnd]. apply Forall_cons in Hok as [Hcs Hok].
  rewrite (io_bind_run _ _ _ _ _ (record_table_run sys schema t cs dry r H Hcs)).
  destruct dry; [by rewrite (io_bind_run _ _ _ _ _ (IH r H Hnd Hok))|].
  rewrite (io_bind_run _ _ _ _ _ (IH _ (recorded_inv _ _ _ H) Hnd Hok)). unfold io_ret.
  cbn [fst snd fmap list_fmap]. do 3 f_equal.
  apply list_fmap_ext. intros i [t' cs'] Hin%list_elem_of_lookup_2. apply report_for_ext, recorded_others. cbn [fst].
  intros [= ->]. apply (list_elem_of_fmap_2 fst) in Hin; by apply Ht.
Qed.

(** History is kept: versions are retired at most, their columns never change. *)
Definition history_kept (r r' : registry) : Prop :=
  ∀ v, v ∈ rg_versions r →
    (∃ v', v' ∈ rg_versions r' ∧ tv_id v' = tv_id v ∧ tv_key v' = tv_key v ∧ tv_version v' = tv_version v ∧
           tv_fingerprint v' = tv_fingerprint v) ∧
    rg_columns r' !! tv_id v = rg_columns r !! tv_id v.

Lemma recorded_keeps k cs r : registry_inv r → history_kept r (recorded k cs r).
Proof.
  intros H v Hv. unfold recorded. destruct (find_contract _ _ r); [split; [by exists v|done]|]. cbn. split.
  - exists (retire k v). rewrite retire_id, retire_key, retire_version, retire_fingerprint. split; [|done].
    apply elem_of_app. left. by apply list_elem_of_fmap_2.
  - rewrite lookup_insert_ne; [done|]. pose proof (ri_ids _ H v Hv). lia.
Qed.

#[export] Instance history_kept_refl : Reflexive history_kept.
Proof. intros r v Hv. split; [by exists v|done]. Qed.
#[export] Instance history_kept_trans : Transitive history_kept.
Proof.
  intros r1 r2 r3 H1 H2 v Hv. destruct (H1 v Hv) as [(v2 & Hv2 & E1 & E2 & E3 & E4) C1].
  destruct (H2 v2 Hv2) as [(v3 & Hv3 & F1 & F2 & F3 & F4) C2]. split; [exists v3|]; split_and?; congruence.
Qed.

Lemma sync_tables_keeps sys schema tables : ∀ r, registry_inv r → history_kept r (sync_tables sys schema tables r).
Proof.
  induction tables as [|t tables IH]; intros r H; [reflexivity|]. cbn [sync_tables foldl].
  etransitivity; [by apply recorded_keeps|]. by apply IH, recorded_inv.
Qed.

Lemma sync_tables_id sys schema tables r :
  (∀ t, t ∈ tables → is_Some (find_contract (sys, schema, t.1) (fingerprint t.2) r)) → sync_tables sys schema tables r = r.
Proof.
  induction tables as [|t tables IH]; intros Ht; [done|]. cbn [sync_tables foldl]. unfold recorded at 2.
  destruct (Ht t ltac:(left)) as [v ->]. apply IH. intros. apply Ht. by right.
Qed.

Lemma recorded_current k cs r :
  registry_inv r → find_contract k (fingerprint cs) r = None →
  let v := mkVersion (rg_next_id r) k (Z.of_nat (length (versions_of k r)) + 1) (fingerprint cs) false in
  v ∈ versions_of k (recorded k cs r) ∧ rg_columns (recorded k cs r) !! tv_id v = Some cs ∧
  current_version k (recorded k cs r) = Some v.
Proof.
  intros H E. unfold recorded. rewrite E. rewrite <- next_version_spec by done. unfold current_version.
  rewrite versions_with, decide_True by done. split_and!.
  - apply elem_of_app. right. left.
  - cbn. by rewrite lookup_insert_eq.
  - rewrite filter_app, filter_none; [by rewrite filter_cons, decide_True by done|].
    intros v' Hv. rewrite retire_all in Hv. apply list_elem_of_fmap in Hv as (v & -> & _). done.
Qed.

(** The version of a table after the synchronisation of its system *)
Lemma sync_tables_version sys schema tables t cs r :
  registry_inv r → NoDup tables.*1 → (t, cs) ∈ tables →
  let k := (sys, schema, t) in
  let p := report_for sys schema r (t, cs) in
  let r' := sync_tables sys schema tables r in
  ∃ v, v ∈ versions_of k r' ∧ tv_version v = tr_version p ∧ tv_fingerprint v = fingerprint cs ∧
    (tr_changed p = true → rg_columns r' !! tv_id v = Some cs ∧ current_version k r' = Some v).
Proof.
  intros H Hnd Hin k p r'. pose proof (sync_tables_report sys schema tables t cs r H Hnd Hin) as Hrep.
  fold p r' in Hrep. destruct (find_contract k (fingerprint cs) r) as [w|] eqn:E.
  - assert (tr_changed p = false) as Hch by (subst p; unfold report_for; cbn [fst snd]; by fold k; rewrite E).
    unfold report_for in Hrep. cbn [fst snd] in Hrep. fold k in Hrep.
    destruct (find_contract k (fingerprint cs) r') as [v|] eqn:E'; [|done].
    apply find_contract_Some in E' as [Hv Hf]. exists v. split_and!; [done|by injection Hrep|done|congruence].
  - apply list_elem_of_split in Hin as (l1 & l2 & ->). rewrite fmap_app in Hnd. cbn [fmap list_fmap fst] in Hnd.
    apply NoDup_app in Hnd as (_ & Hl1 & [Hl2 _]%NoDup_cons).
    set (r1 := sync_tables sys schema l1 r).
    assert (versions_of k r1 = versions_of k r) as E1.
    { apply sync_tables_others. intros x Hx [= ->]. apply (Hl1 t Hx). left. }
    assert (registry_inv r1) as H1 by by apply sync_tables_inv.
    assert (find_contract k (fingerprint cs) r1 = None) as F1 by (unfold find_contract in *; by rewrite E1).
    destruct (recorded_current k cs r1 H1 F1) as (Hv & Hc & Hcur). rewrite E1 in *. set (v := mkVersion _ _ _ _ _) in *.
    assert (versions_of k r' = versions_of k (recorded k cs r1)) as E2.
    { subst r'. unfold sync_tables. rewrite foldl_app. cbn [foldl fst snd]. apply sync_tables_others. intros x Hx [= ->]. done. }
    assert (history_kept (recorded k cs r1) r') as Hk.
    { subst r'. unfold sync_tables. rewrite foldl_app. cbn [foldl fst snd]. by apply sync_tables_keeps, recorded_inv. }
    exists v. unfold current_version in *. rewrite E2. split_and!; [done| |done|].
    + subst p. unfold report_for. cbn [fst snd]. fold k. by rewrite E.
    + intros _. split; [|done]. rewrite <- Hc. apply list_elem_of_filter in Hv as [_ Hv]. by apply Hk.
Qed.

(** C29: Synchronising a source with the registry, real or dry, succeeds on every schema and reports for
    each table whether its contract is new and the version it has; a dry run writes nothing and
    predicts the real one. Afterwards the registry is well formed, the reported version of every
    table carries the columns just read, no earlier version or its columns are lost, other tables
    are as they were, and a second synchronisation changes nothing and says so. *)
Theorem registry_sync rows system schema r :
  registry_inv r → SOURCE_SCHEMAS system = Ok schema → schema_ok (rows schema) →
  let tables := read_columns (rows schema) in
  ∃ r' reports,
    sync_system rows system false r = (r', Ok reports) ∧
    sync_system rows system true r = (r, Ok reports) ∧
    sync_system rows system false r' = (r', Ok (unchanged <$> reports)) ∧
    registry_inv r' ∧ history_kept r r' ∧
    (∀ k, k.1.1 ≠ system ∨ k.2 ∉ i_table <$> rows schema → versions_of k r' = versions_of k r) ∧
    Forall2 (λ t p,
      let k := (system, schema, t.1) in
      tr_table p = t.1 ∧
      (tr_changed p = true ↔ fingerprint t.2 ∉ tv_fingerprint <$> versions_of k r) ∧
      ∃ v, v ∈ versions_of k r' ∧ tv_version v = tr_version p ∧ tv_fingerprint v = fingerprint t.2 ∧
        (tr_changed p = true → rg_columns r' !! tv_id v = Some t.2 ∧ current_version k r' = Some v))
      tables reports.
Proof.
  intros H Hs Hrows tables. destruct (read_columns_spec (rows schema) Hrows) as (Hnd & Hok & Hspec). fold tables in Hnd, Hok, Hspec.
  assert (∀ dry r, registry_inv r → sync_system rows system dry r
    = (if dry then r else sync_tables system schema tables r, Ok (report_for system schema r <$> tables))) as Hrun.
  { intros dry r0 H0. unfold sync_system. rewrite Hs. by apply sync_tables_run. }
  pose proof (sync_tables_inv system schema tables r H) as H'.
  exists (sync_tables system schema tables r), (report_for system schema r <$> tables).
  rewrite !Hrun by done. split_and!; [done|done| |done|by apply sync_tables_keeps| |].
  - f_equal; [|f_equal].
    + apply sync_tables_id. intros [t cs] Hin. pose proof (sync_tables_report system schema tables t cs r H Hnd Hin) as E.
      unfold report_for at 1 in E. cbn [fst snd] in E |- *. by destruct (find_contract _ _ _).
    + rewrite <- list_fmap_compose. apply list_fmap_ext. intros i [t cs] Hin%list_elem_of_lookup_2. by apply sync_tables_report.
  - intros k Hk. apply sync_tables_others. intros t Ht <-. destruct Hk as [Hk|Hk]; [done|]. cbn [snd] in Hk.
    apply list_elem_of_fmap in Ht as ([t' cs] & -> & Hin). apply Hk.
    by apply (Hspec t' cs), aget_NoDup.
  - apply Forall2_fmap_r, Forall_Forall2_diag, Forall_forall. intros [t cs] Hin. cbn [fst snd]. split_and!.
    + unfold report_for. by destruct (find_contract _ _ _).
    + rewrite <- find_contract_None. unfold report_for. cbn [fst snd]. by destruct (find_contract _ _ _).
    + by apply sync_tables_version.
Qed.

(** Three changes of one table. *)
Definition example_column (n : Z) (name type : string) : column := mkColumn n name type false None None None.
Definition example_rows (type : string) (schema : string) : list info_row :=
  [mkInfo "work_orders" "NO" (example_column 1 "work_order_id" "text");
   mkInfo "shipments" "YES" (example_column 2 "status" type);
   mkInfo "shipments" "NO" (example_column 1 "shipment_id" "text")].

Lemma example_rows_ok type schema : schema_ok (example_rows type schema).
Proof.
  split; [apply (bool_decide_unpack _); vm_compute; done|apply (bool_decide_unpack _); vm_compute; done|].
  intros r Hr. unfold example_rows in Hr. rewrite !elem_of_cons in Hr.
  destruct Hr as [->|[->|[->|Hr]]]; [reflexivity..|by apply elem_of_nil in Hr].
Qed.

Lemma registry_sync_witness :
  ∃ r' reports,
    sync_system (example_rows "text") "ops" false empty_registry = (r', Ok reports) ∧
    sync_system (example_rows "text") "ops" false r' = (r', Ok (unchanged <$> reports)).
Proof.
  destruct (registry_sync (example_rows "text") "ops" "ops" empty_registry empty_registry_inv eq_refl
    (example_rows_ok "text" "ops")) as (r' & reports & H1 & _ & H2 & _).
  exists r', reports. exact (conj H1 H2).
Defined.

(** A contract that comes back is not recorded as current: when a table has again the columns of a
    retired version, the synchronisation reports the old version as unchanged and writes nothing,
    and the current version in the registry is still the other contract. *)
Theorem reverted_contract_not_current system schema t columns v r dry_run :
  registry_inv r → find_contract (system, schema, t) (fingerprint columns) r = Some v → tv_retired v = true →
  record_table system schema t columns dry_run r = (r, Ok (mkTableReport t (tv_version v) false)) ∧
  ∃ w, current_version (system, schema, t) r = Some w ∧ tv_fingerprint w ≠ fingerprint columns.
Proof.
  intros H E Hret. split; [unfold record_table; rewrite (io_bind_run _ _ r r r) by done; by rewrite E|].
  set (k := (system, schema, t)) in *. destruct (ri_versions _ H k) as [_ Hc Hr].
  apply find_contract_Some in E as [Hv <-].
  assert (∃ w, w ∈ versions_of k r ∧ tv_retired w = false) as (w0 & Hw0 & Hw0').
  { assert (false ∈ tv_retired <$> versions_of k r) as Hf; [|by apply list_elem_of_fmap in Hf as (w & -> & Hw); exists w].
    rewrite Hr. apply elem_of_app. right. destruct (versions_of k r); [by apply elem_of_nil in Hv|left]. }
  destruct (current_version k r) as [w|] eqn:Hcur.
  - exists w. split; [done|]. apply head_filter_Some in Hcur as [Hw Hnr]. intros Ef.
    assert (w = v) as ->; [|congruence]. apply list_elem_of_lookup in Hv as [i Hi], Hw as [j Hj].
    assert (i = j) as ->; [|congruence]. eapply (NoDup_lookup _ _ _ (tv_fingerprint v) Hc).
    + by rewrite list_lookup_fmap, Hi.
    + by rewrite list_lookup_fmap, Hj, <- Ef.
  - exfalso. by apply (proj1 (head_filter_None _ _) Hcur w0 Hw0).
Qed.

Definition example_history : registry :=
  (sync_system (example_rows "integer") "ops" false (sync_system (example_rows "text") "ops" false empty_registry).1).1.

Example example_history_versions :
  (λ v, (tv_id v, tv_version v, tv_retired v)) <$> versions_of ("ops", "ops", "shipments") example_history = [(1, 1, true); (3, 2, false)].
Proof. vm_compute. reflexivity. Qed.

Lemma reverted_contract_not_current_witness :
  ∃ w, current_version ("ops", "ops", "shipments") example_history = Some w ∧
       tv_fingerprint w ≠ fingerprint [example_column 1 "shipment_id" "text"; mkColumn 2 "status" "text" true None None None].
Proof.
  destruct (registry_sync (example_rows "text") "ops" "ops" empty_registry empty_registry_inv eq_refl
    (example_rows_ok "text" "ops")) as (r1 & p1 & E1 & _ & _ & H1 & _).
  destruct (registry_sync (example_rows "integer") "ops" "ops" r1 H1 eq_refl
    (example_rows_ok "integer" "ops")) as (r2 & p2 & E2 & _ & _ & H2 & _).
  assert (r2 = example_history) as -> by (unfold example_history; rewrite E1; cbn [fst]; by rewrite E2).
  apply (reverted_contract_not_current "ops" "ops" "shipments" [example_column 1 "shipment_id" "text"; mkColumn 2 "status" "text" true None None None]
    (default (mkVersion 0 ("", "", "") 0 "" false) (head (versions_of ("ops", "ops", "shipments") example_history))) example_history true H2);
    vm_compute; reflexivity.
Defined.
