(* ===== verification/NumPy.v ===== *)
(** * Arrays

    The NumPy functions the generator uses, on lists, by their documented meaning: [clip], [repeat],
    [diff], [cumsum], [searchsorted] on a sorted array, the stable [argsort], [bincount] with
    weights, and the formats of [numpy.char.mod]. Draws of [numpy.random] are arguments of the
    definitions that use them. *)

From stdpp Require Import prelude strings list.
From Stdlib Require Import ZArith Lia Ascii Floats.SpecFloat.
From S2P Require Import Prelude PyText PyNum.

Open Scope Z_scope.

(** [np.clip]: where the bounds cross, the upper one wins. *)
Definition np_clip (x lo hi : Z) : Z := Z.min (Z.max x lo) hi.

Lemma np_clip_bounds x lo hi : lo ≤ hi → lo ≤ np_clip x lo hi ≤ hi.
Proof. unfold np_clip. lia. Qed.

(** [np.repeat(values, counts)] *)
Fixpoint np_repeat {A} (l : list A) (counts : list Z) : list A :=
  match l, counts with
  | x :: l, n :: counts => replicate (Z.to_nat n) x ++ np_repeat l counts
  | _, _ => []
  end.

(** [np.diff] *)
Fixpoint np_diff (l : list Z) : list Z :=
  match l with
  | x :: l' => match l' with y :: _ => y - x :: np_diff l' | [] => [] end
  | [] => []
  end.

(** [np.arange(n)] *)
Definition np_arange (n : Z) : list Z := z_range 0 (n - 1).

(** [np.cumsum] of floats, after [acc] *)
Fixpoint np_cumsum (acc : f64) (l : list f64) : list f64 :=
  match l with
  | [] => []
  | x :: l => let y := SFadd f64_prec f64_emax acc x in y :: np_cumsum y l
  end.

(** The place of a value in a sorted array: the number of elements before it. *)
Fixpoint leading {A} (before : A → bool) (l : list A) : Z :=
  match l with
  | [] => 0
  | x :: l => if before x then 1 + leading before l else 0
  end.
Definition searchsorted_left {A} (ltb : A → A → bool) (l : list A) (v : A) : Z := leading (λ x, ltb x v) l.
Definition searchsorted_right {A} (leb : A → A → bool) (l : list A) (v : A) : Z := leading (λ x, leb x v) l.

Lemma leading_range {A} (f : A → bool) l : 0 ≤ leading f l ≤ Z.of_nat (length l).
Proof. induction l as [|x l IH]; cbn [leading length]; [lia|]. destruct (f x); lia. Qed.

Lemma leading_all {A} (f : A → bool) l : Forall (λ x, f x = true) l → leading f l = Z.of_nat (length l).
Proof. induction 1 as [|x l Hx _ IH]; cbn [leading length]; [done|]. rewrite Hx. lia. Qed.

Lemma leading_lookup {A} (f : A → bool) l i x : l !! i = Some x → Z.of_nat i < leading f l → f x = true.
Proof.
  revert i. induction l as [|y l IH]; intros [|i] Hi Hlt; cbn [leading] in Hlt; [done..| |].
  - injection Hi as ->. destruct (f x); [done|lia].
  - destruct (f y); [|lia]. apply (IH i); [exact Hi|lia].
Qed.

(** No element at or after the place comes before the value, if those before the value come first. *)
Lemma leading_ge {A} (f : A → bool) l n :
  (∀ i x, l !! i = Some x → (i < n)%nat → f x = true) → (n ≤ length l)%nat → Z.of_nat n ≤ leading f l.
Proof.
  revert n. induction l as [|y l IH]; intros [|n] Hf Hn; cbn [leading length] in *; try lia.
  - pose proof (leading_range f (y :: l)). cbn [leading] in *. lia.
  - rewrite (Hf 0%nat y) by (done || lia). pose proof (IH n ltac:(intros i x Hi Hin; apply (Hf (S i) x Hi); lia) ltac:(lia)). lia.
Qed.

Lemma leading_le {A} (f : A → bool) l i x : l !! i = Some x → f x = false → leading f l ≤ Z.of_nat i.
Proof.
  intros Hi Hf. destruct (decide (leading f l ≤ Z.of_nat i)) as [|Hlt]; [done|].
  assert (f x = true) by (eapply leading_lookup; [exact Hi|lia]). congruence.
Qed.

(** [np.argsort(keys, kind="stable")], as the sorted positions with their keys. *)
Definition argsort (keys : list Z) : list (Z * Z) :=
  sort_by (λ a b, a.2 <=? b.2) (enumerate_from 0 keys).

(** The element at a position; the default is not reached for positions in range. *)
Definition at_pos {A} (l : list A) (d : A) (i : Z) : A := default d (l !! Z.to_nat i).

Lemma at_pos_in {A} (l : list A) d i : 0 ≤ i < Z.of_nat (length l) → at_pos l d i ∈ l.
Proof.
  intros Hi. unfold at_pos. destruct (lookup_lt_is_Some_2 l (Z.to_nat i)) as [x Hx]; [lia|].
  rewrite Hx. by eapply list_elem_of_lookup_2.
Qed.

Lemma at_pos_lookup {A} (l : list A) d i x : l !! i = Some x → at_pos l d (Z.of_nat i) = x.
Proof. intros Hi. unfold at_pos. by rewrite Nat2Z.id, Hi. Qed.

(** [np.where(mask)[0]] *)
Definition np_where (mask : list bool) : list Z :=
  fst <$> filter (λ p, p.2 = true) (enumerate_from 0 mask).

Definition f64_add : f64 → f64 → f64 := SFadd f64_prec f64_emax.
Definition f64_sub : f64 → f64 → f64 := SFsub f64_prec f64_emax.
(** [np.maximum] of floats that are numbers *)
Definition f64_max (a b : f64) : f64 := if f64_ltb a b then b else a.
(** [int(x)] of a finite float: towards zero *)
Definition f64_trunc (x : f64) : Z :=
  match x with
  | S754_finite s m e =>
    let v := if 0 <=? e then Zpos m * 2 ^ e else Zpos m / 2 ^ (- e) in
    if s then - v else v
  | _ => 0
  end.

Lemma f64_trunc_nonneg m e : 0 ≤ f64_trunc (S754_finite false m e).
Proof.
  unfold f64_trunc. case_match; [pose proof (Z.pow_nonneg 2 e ltac:(lia)); nia|].
  apply Z.div_pos; [lia|]. apply Z.pow_pos_nonneg; lia.
Qed.

(** [np.bincount(positions, weights, minlength=n)]: the weights added up in order. *)
Definition np_bincount (n : Z) (entries : list (Z * f64)) : list f64 :=
  (λ k, foldl (λ total e, if e.1 =? k then f64_add total e.2 else total) (S754_zero false) entries) <$> np_arange n.

(** ** Repetition *)

Lemma elem_of_np_repeat {A} (l : list A) counts x : x ∈ np_repeat l counts → x ∈ l.
Proof.
  revert counts. induction l as [|y l IH]; intros [|n counts]; cbn; try done.
  - by intros ?%elem_of_nil.
  - intros [Hx|Hx]%elem_of_app; [apply elem_of_replicate in Hx as [-> _]; left|right; by eapply IH].
Qed.

(** [np.minimum] and [np.clip] of floats that are numbers *)
Definition f64_min (a b : f64) : f64 := if f64_ltb b a then b else a.
Definition f64_clip (x lo hi : f64) : f64 := f64_min (f64_max x lo) hi.

(** ** Floats without a minus sign *)

Definition f64_plus (x : f64) : bool :=
  match x with
  | S754_nan => true
  | S754_zero s | S754_infinity s | S754_finite s _ _ => negb s
  end.

Lemma round_aux_plus m e l : f64_plus (binary_round_aux f64_prec f64_emax false m e l) = true.
Proof.
  unfold binary_round_aux. destruct (shr_fexp _ _ _ _ _) as [mrs' e']. destruct (shr_fexp _ _ _ _ _) as [mrs'' e''].
  destruct (shr_m mrs''); [done| |done]. by destruct (_ <=? _).
Qed.

Lemma f64_mul_plus x y : f64_plus x = true → f64_plus y = true → f64_plus (f64_mul x y) = true.
Proof.
  unfold f64_mul, SFmul. destruct x as [[]|[]| |[] m e], y as [[]|[]| |[] m' e']; intros Hx Hy; try done. apply round_aux_plus.
Qed.

Lemma f64_div_plus x y : f64_plus x = true → f64_plus y = true → f64_plus (f64_div x y) = true.
Proof.
  unfold f64_div, SFdiv. destruct x as [[]|[]| |[] m e], y as [[]|[]| |[] m' e']; intros Hx Hy; try done.
  destruct (SFdiv_core_binary _ _ _ _ _ _) as [[mz ez] lz]. apply round_aux_plus.
Qed.

Lemma f64_of_Z_plus n : 0 ≤ n → f64_plus (f64_of_Z n) = true.
Proof.
  intros Hn. unfold f64_of_Z, binary_normalize. destruct n as [|p|p]; [done| |lia].
  unfold binary_round. destruct (shl_align _ _ _) as [mz ez]. apply round_aux_plus.
Qed.

Lemma f64_trunc_plus x : f64_plus x = true → 0 ≤ f64_trunc x.
Proof. destruct x as [[]|[]| |[] m e]; intros Hx; [reflexivity..|done|apply f64_trunc_nonneg]. Qed.

Lemma div_half_even_nonneg a b : 0 ≤ a → 0 < b → 0 ≤ div_half_even a b.
Proof. intros Ha Hb. unfold div_half_even. pose proof (Z.div_pos a b Ha Hb). repeat case_match; lia. Qed.

Lemma f64_round_plus x : f64_plus x = true → 0 ≤ f64_round x.
Proof.
  destruct x as [[]|[]| |[] m e]; intros Hx; [reflexivity..|done|]. unfold f64_round. case_match.
  - pose proof (Z.pow_nonneg 2 e ltac:(lia)). nia.
  - apply div_half_even_nonneg; [lia|]. apply Z.leb_gt in H. apply Z.pow_pos_nonneg; lia.
Qed.

(** ** Sorting by a key *)

Lemma insert_by_fmap {A B} (f : A → B) (le : A → A → bool) (le' : B → B → bool) x l :
  (∀ a b, le a b = le' (f a) (f b)) → f <$> insert_by le x l = insert_by le' (f x) (f <$> l).
Proof.
  intros Hle. induction l as [|y l IH]; [done|]. cbn. rewrite Hle. destruct (le' (f x) (f y)); [done|]. cbn. by rewrite IH.
Qed.

Lemma sort_by_fmap {A B} (f : A → B) (le : A → A → bool) (le' : B → B → bool) l :
  (∀ a b, le a b = le' (f a) (f b)) → f <$> sort_by le l = sort_by le' (f <$> l).
Proof.
  intros Hle. induction l as [|x l IH]; [done|]. cbn [sort_by fmap list_fmap]. rewrite (insert_by_fmap f le le') by done. by rewrite IH.
Qed.

Lemma argsort_keys keys : (argsort keys).*2 = sort_by Z.leb keys.
Proof. unfold argsort. rewrite (sort_by_fmap snd _ Z.leb) by done. by rewrite enumerate_from_snd. Qed.
