(* ===== verification/GenCalendar.v ===== *)
(** * The generator's calendar: [generator/generate.py], constants to exchange rates

    The window of the baseline and its dated events, the reference data, banking days and the rate
    carried forward to every day, the seasonality of the days and the sampling of a day inside a
    customer's lifetime. A day is its index in [all_days]. The draws of [numpy.random] are
    arguments; [power] is [np.power] on floats. *)

From stdpp Require Import prelude strings list sorting.
From Stdlib Require Import ZArith Lia Ascii Floats.SpecFloat.
From S2P Require Import Prelude PyText Dates PyNum NumPy.

Open Scope Z_scope.

(** ** The window and the dated events *)

Definition START : date := ymd2ord 2023 1 1.
Definition END : date := ymd2ord 2026 7 24.

Definition HOLIDAYS : list date :=
  (λ d : Z * Z * Z, ymd2ord d.1.1 d.1.2 d.2) <$>
  [(2023, 1, 2); (2023, 4, 7); (2023, 5, 29); (2023, 6, 19); (2023, 7, 4); (2023, 9, 4); (2023, 11, 23); (2023, 12, 25);
   (2024, 1, 1); (2024, 3, 29); (2024, 5, 27); (2024, 6, 19); (2024, 7, 4); (2024, 9, 2); (2024, 11, 28); (2024, 12, 25);
   (2025, 1, 1); (2025, 4, 18); (2025, 5, 26); (2025, 6, 19); (2025, 7, 4); (2025, 9, 1); (2025, 11, 27); (2025, 12, 25);
   (2026, 1, 1); (2026, 4, 3); (2026, 5, 25); (2026, 6, 19); (2026, 7, 3)].

Definition EV_AURORA_LAUNCH : date := ymd2ord 2023 6 1.
Definition EV_PRICE_RISE : date := ymd2ord 2024 2 1.
Definition EV_CRM_MIGRATION : date := ymd2ord 2024 7 1.
Definition EV_SUPPLY_SQUEEZE_A : date := ymd2ord 2024 7 15.
Definition EV_SUPPLY_SQUEEZE_B : date := ymd2ord 2024 10 31.
Definition EV_DISCOUNT_POLICY : date := ymd2ord 2025 1 6.
Definition EV_CARRIER_SWITCH : date := ymd2ord 2025 9 1.
Definition EV_EMEA_COMPETITOR : date := ymd2ord 2025 11 3.
Definition EV_APAC_SUPPORT_REORG : date := ymd2ord 2026 3 2.
Definition EV_JPY_REGRESSION_A : date := ymd2ord 2026 6 15.
Definition EV_JPY_REGRESSION_B : date := ymd2ord 2026 6 23.
Definition EV_APAC_OUTAGE : date := ymd2ord 2026 6 17.
(** [datetime(2026, 6, 11, 2, 0, 0)]; a timestamp counts the seconds of its ordinal. *)
Definition day_seconds : Z := 86400.
Definition EV_BULK_REPRICE : Z := ymd2ord 2026 6 11 * day_seconds + 2 * 3600.

(** ** Reference data *)

Record company := mkCompany { co_code : string; co_name : string; co_currency : string; co_country : string }.
Definition COMPANIES : list company :=
  [mkCompany "US01" "Northwind Systems Inc." "USD" "United States";
   mkCompany "CA01" "Northwind Systems Canada ULC" "CAD" "Canada";
   mkCompany "GB01" "Northwind Systems UK Ltd." "GBP" "United Kingdom";
   mkCompany "DE01" "Northwind Systems GmbH" "EUR" "Germany";
   mkCompany "JP01" "Northwind Systems KK" "JPY" "Japan"].
Definition COMPANY_CCY : list (string * string) := (λ c, (co_code c, co_currency c)) <$> COMPANIES.

Definition REGIONS : list string := ["NA-WEST"; "NA-EAST"; "CANADA"; "EMEA"; "UKI"; "APAC"].
Definition REGION_COMPANY : list (string * string) :=
  [("NA-WEST", "US01"); ("NA-EAST", "US01"); ("CANADA", "CA01"); ("EMEA", "DE01"); ("UKI", "GB01"); ("APAC", "JP01")].
Definition REGION_CCY : list (string * string) :=
  [("NA-WEST", "USD"); ("NA-EAST", "USD"); ("CANADA", "CAD"); ("EMEA", "EUR"); ("UKI", "GBP"); ("APAC", "JPY")].
Definition SEGMENTS : list string := ["Enterprise"; "Mid-Market"; "SMB"; "Public Sector"].
Definition CATEGORIES : list string := ["Hardware"; "Software License"; "Support Plan"; "Professional Services"; "Consumables"].
Definition LOSS_REASONS : list string := ["Price"; "Competitor"; "No Decision"; "Timing"; "Feature Gap"; "Budget Cut"].
Definition CURRENCIES : list string := ["USD"; "EUR"; "GBP"; "CAD"; "JPY"].
Definition MINOR_UNITS : list (string * Z) := [("USD", 2); ("EUR", 2); ("GBP", 2); ("CAD", 2); ("JPY", 0)].

(** Code and region. *)
Definition WAREHOUSES : list (string * string) :=
  [("WH-SEA", "NA-WEST"); ("WH-DFW", "NA-WEST"); ("WH-CMH", "NA-EAST"); ("WH-EWR", "NA-EAST"); ("WH-YYZ", "CANADA");
   ("WH-FRA", "EMEA"); ("WH-LHR", "UKI"); ("WH-NRT", "APAC")].
(** Code, cost index and published rate of punctual deliveries. *)
Definition CARRIERS : list (string * f64 * f64) :=
  [("PREMIER", f64_literal 100 (-2), f64_literal 951 (-3)); ("VALUEX", f64_literal 74 (-2), f64_literal 868 (-3));
   ("AIRLINK", f64_literal 235 (-2), f64_literal 972 (-3)); ("REGIONAL", f64_literal 88 (-2), f64_literal 912 (-3));
   ("OCEANIC", f64_literal 31 (-2), f64_literal 804 (-3))].
(** Name, days and price factor. *)
Definition SERVICE_LEVELS : list (string * Z * f64) :=
  [("STANDARD", 5, f64_literal 100 (-2)); ("EXPEDITED", 2, f64_literal 185 (-2)); ("ECONOMY", 9, f64_literal 68 (-2))].
Definition CASE_PRIORITIES : list string := ["P1"; "P2"; "P3"; "P4"].

(** [mapping[k]], for the dictionaries above *)
Definition dict_get (mapping : list (string * string)) (k : string) : string := default "" (aget k mapping).

(** [map_by], which looks a key up by its place among the sorted keys. *)
Definition map_by (mapping : list (string * string)) (k : string) : string :=
  let ks := sort_by str_le (mapping.*1) in
  at_pos (dict_get mapping <$> ks) "" (searchsorted_left String.ltb ks k).

(** ** Days and banking days *)

Definition all_days : list date := z_range START END.
Definition n_days : Z := END - START + 1.
(** [all_days[i]] *)
Definition day_at (i : Z) : date := START + i.

(** [pd.DatetimeIndex(...).dayofweek] and [month], [day] *)
Definition dayofweek (d : date) : Z := isoweekday d - 1.
Definition month_of (d : date) : Z := (ord2ymd d).1.2.
Definition dom_of (d : date) : Z := (ord2ymd d).2.

Definition banking_mask (d : date) : bool := (dayofweek d <? 5) && negb (bool_decide (d ∈ HOLIDAYS)).
Definition bank_days : list date := filter (λ d, banking_mask d = true) all_days.

(** The rate of every day is that of the last banking day: [bank_pos] and [carry]. *)
Definition carry_forward (days bank : list date) : list Z :=
  let n := Z.of_nat (length days) in
  let bank_pos := searchsorted_left Z.ltb days <$> bank in
  let carry := np_repeat (np_arange (Z.of_nat (length bank))) (np_diff (bank_pos ++ [n])) in
  take (length days) (replicate (Z.to_nat (at_pos bank_pos 0 0)) 0 ++ carry).

Definition carry : list Z := carry_forward all_days bank_days.

(** [fx_daily[ccy]], from the rates of the banking days. *)
Definition fx_daily (rates : string → list f64) (ccy : string) (i : Z) : f64 :=
  if String.eqb ccy "USD" then f64_of_Z 1 else at_pos (rates ccy) (f64_of_Z 0) (at_pos carry 0 i).

(** ** Seasonality *)

Section Seasonality.
Context (power : f64 → f64 → f64).

Definition growth (i : Z) : f64 := power (f64_literal 118 (-2)) (f64_div (f64_of_Z i) (f64_literal 36525 (-2))).
Definition weekday_factor (d : date) : f64 :=
  let dow := dayofweek d in
  if dow <=? 3 then f64_literal 100 (-2) else if dow =? 4 then f64_literal 83 (-2)
  else if dow =? 5 then f64_literal 16 (-2) else if dow =? 6 then f64_literal 11 (-2) else f64_literal 10 (-1).
Definition factor_where (b : bool) (hundredths : Z) : f64 := if b then f64_literal hundredths (-2) else f64_of_Z 1.

Definition day_weight (i : Z) (noise : f64) : f64 :=
  let d := day_at i in let m := month_of d in let dom := dom_of d in
  let quarter_end := factor_where ((m mod 3 =? 0) && (16 <=? dom)) 155 in
  let december := factor_where ((m =? 12) && (dom <=? 22)) 122 in
  let january := factor_where ((m =? 1) && (dom <=? 12)) 72 in
  let summer := factor_where ((m =? 7) || (m =? 8)) 87 in
  let holiday_dip := factor_where (bool_decide (d ∈ HOLIDAYS)) 22 in
  f64_mul (f64_mul (f64_mul (f64_mul (f64_mul (f64_mul (f64_mul (growth i) (weekday_factor d)) quarter_end) december)
    january) summer) holiday_dip) noise.

(** [day_cdf], from the noise of each day. *)
Definition day_cdf (noise : list f64) : list f64 :=
  let weights := (λ p, day_weight p.1 p.2) <$> enumerate_from 0 noise in
  let cdf := S754_zero false :: np_cumsum (S754_zero false) weights in
  (λ x, f64_div x (List.last cdf (S754_zero false))) <$> cdf.
End Seasonality.

(** A day in proportion to its weight: [np.clip(np.searchsorted(day_cdf, u) - 1, 0, n_days - 1)] *)
Definition cdf_day (cdf : list f64) (u : f64) : Z :=
  np_clip (searchsorted_left f64_ltb cdf u - 1) 0 (n_days - 1).

(** [u] between the ends of a lifetime, for a draw [r] in [0, 1). *)
Definition cdf_lo (cdf : list f64) (acq_off : Z) : f64 := at_pos cdf (S754_zero false) acq_off.
Definition cdf_hi (cdf : list f64) (active_end : Z) : f64 := at_pos cdf (S754_zero false) (Z.min (active_end + 1) n_days).
Definition lifetime_u (cdf : list f64) (acq_off active_end : Z) (r : f64) : f64 :=
  let lo := cdf_lo cdf acq_off in
  f64_add lo (f64_mul r (f64_max (f64_sub (cdf_hi cdf active_end) lo) (f64_literal 1 (-12)))).
Definition lifetime_day (cdf : list f64) (acq_off active_end : Z) (r : f64) : Z :=
  cdf_day cdf (lifetime_u cdf acq_off active_end r).

(** ** The carried rate *)

Lemma searchsorted_z_range a b d : a ≤ d ≤ b + 1 → searchsorted_left Z.ltb (z_range a b) d = d - a.
Proof.
  intros Hd. unfold searchsorted_left. remember (Z.to_nat (d - a)) as n eqn:Hn. revert a Hd Hn.
  induction n as [|n IH]; intros a Hd Hn.
  - assert (d = a) as -> by lia. rewrite Z.sub_diag. destruct (decide (a ≤ b)).
    + rewrite z_range_cons by lia. cbn [leading]. by rewrite Z.ltb_irrefl.
    + by rewrite z_range_nil by lia.
  - rewrite z_range_cons by lia. cbn [leading]. rewrite (proj2 (Z.ltb_lt a d)) by lia. rewrite IH by lia. lia.
Qed.

(** Positions repeated up to the next one. *)
Lemma repeat_diff ps : ∀ p k n x,
  StronglySorted Z.lt (p :: ps) → Forall (λ q, q < n) (p :: ps) → p + Z.of_nat x < n →
  ∃ j q, np_repeat (z_range k (k + Z.of_nat (length ps))) (np_diff ((p :: ps) ++ [n])) !! x = Some (k + Z.of_nat j) ∧
    (p :: ps) !! j = Some q ∧ q ≤ p + Z.of_nat x ∧ ∀ q', (p :: ps) !! S j = Some q' → p + Z.of_nat x < q'.
Proof.
  induction ps as [|q ps IH]; intros p k n x Hs Hn Hx.
  - exists 0%nat, p. cbn [length app np_diff]. rewrite Z.add_0_r, z_range_cons, z_range_nil by lia. cbn [np_repeat].
    rewrite app_nil_r, lookup_replicate_2 by lia. split_and!; [f_equal; lia|done|lia|done].
  - apply StronglySorted_inv in Hs as [Hs Hp]. apply Forall_cons in Hn as [Hpn Hn].
    assert (p < q) as Hpq by (by apply Forall_cons in Hp as [? _]).
    rewrite z_range_cons by lia. change ((p :: q :: ps) ++ [n]) with (p :: q :: (ps ++ [n])). cbn [np_diff np_repeat].
    destruct (decide (p + Z.of_nat x < q)) as [Hlt|Hge].
    + exists 0%nat, p. rewrite lookup_app_l by (rewrite length_replicate; lia). rewrite lookup_replicate_2 by lia.
      split_and!; [f_equal; lia|done|lia|]. by intros q' [= <-].
    + rewrite lookup_app_r by (rewrite length_replicate; lia). rewrite length_replicate.
      destruct (IH q (k + 1) n (x - Z.to_nat (q - p))%nat Hs Hn ltac:(lia)) as (j & r & H1 & H2 & H3 & H4).
      exists (S j), r. split_and!; [|done|lia|].
      * replace (k + Z.of_nat (length (q :: ps))) with (k + 1 + Z.of_nat (length ps)) by (cbn [length]; lia).
        etrans; [exact H1|]. f_equal. lia.
      * intros q' Hq'. pose proof (H4 q' Hq'). lia.
Qed.

Lemma filter_sorted {A} (R : A → A → Prop) (P : A → Prop) `{∀ x, Decision (P x)} l :
  StronglySorted R l → StronglySorted R (filter P l).
Proof.
  induction 1 as [|x l Hl IH Hx]; [constructor|]. rewrite filter_cons. case_decide; [|done]. constructor; [done|].
  apply Forall_forall. intros y Hy. apply list_elem_of_filter in Hy as [_ Hy]. by eapply Forall_forall in Hx.
Qed.

Lemma z_range_sorted a b : StronglySorted Z.lt (z_range a b).
Proof.
  remember (Z.to_nat (b - a + 1)) as n eqn:Hn. revert a Hn. induction n as [|n IH]; intros a Hn.
  - rewrite z_range_nil by lia. constructor.
  - rewrite z_range_cons by lia. constructor; [apply IH; lia|]. apply Forall_forall. intros x Hx%elem_of_z_range. lia.
Qed.

(** The last banking day up to a day, or the first of all where there is none. *)
Definition last_bank_day (bank : list date) (d : date) (j : nat) : Prop :=
  ∃ e, bank !! j = Some e ∧
    ((e ≤ d ∧ ∀ e', e' ∈ bank → e' ≤ d → e' ≤ e) ∨ (j = 0%nat ∧ ∀ e', e' ∈ bank → d < e')).

Lemma sorted_next (bank : list Z) d j e :
  StronglySorted Z.lt bank → bank !! j = Some e → (∀ e', bank !! S j = Some e' → d < e') →
  ∀ e', e' ∈ bank → e' ≤ d → e' ≤ e.
Proof.
  intros Hs Hj Hnext e' (i & Hi)%list_elem_of_lookup Hd.
  assert (∀ i1 i2 x1 x2, (i1 < i2)%nat → bank !! i1 = Some x1 → bank !! i2 = Some x2 → x1 < x2) as Hmono.
  { clear -Hs. induction Hs as [|x l Hl IH Hx]; intros i1 i2 x1 x2 Hlt H1 H2; [done|].
    destruct i2 as [|i2]; [lia|]. cbn in H2. destruct i1 as [|i1].
    - injection H1 as <-. apply list_elem_of_lookup_2 in H2. by eapply Forall_forall in Hx.
    - apply (IH i1 i2 x1 x2); [lia|done|done]. }
  destruct (decide (i ≤ j)%nat) as [Hle|Hgt].
  - destruct (decide (i = j)) as [->|]; [assert (e' = e) by congruence; lia|]. pose proof (Hmono i j e' e ltac:(lia) Hi Hj). lia.
  - destruct (bank !! S j) as [x|] eqn:Hx.
    + pose proof (Hnext x eq_refl). destruct (decide (i = S j)) as [->|]; [assert (e' = x) by congruence; lia|].
      pose proof (Hmono (S j) i x e' ltac:(lia) Hx Hi). lia.
    + apply lookup_ge_None_1 in Hx. apply lookup_lt_Some in Hi. lia.
Qed.

Lemma carry_forward_spec a b (P : Z → bool) i :
  let days := z_range a b in let bank := filter (λ d, P d = true) days in
  bank ≠ [] → 0 ≤ i ≤ b - a →
  ∃ j, carry_forward days bank !! Z.to_nat i = Some (Z.of_nat j) ∧ last_bank_day bank (a + i) j.
Proof.
  intros days bank Hne Hi. unfold carry_forward.
  assert (∀ d, d ∈ bank → a ≤ d ≤ b) as Hin.
  { intros d Hd. apply list_elem_of_filter in Hd as [_ Hd]. by apply elem_of_z_range in Hd. }
  assert (Z.of_nat (length days) = b - a + 1) as Hlen by (unfold days, z_range; rewrite length_fmap, length_seq; lia).
  assert (searchsorted_left Z.ltb days <$> bank = (λ d, d - a) <$> bank) as ->.
  { apply list_fmap_ext. intros k d Hd%list_elem_of_lookup_2. pose proof (Hin d Hd). apply searchsorted_z_range. lia. }
  assert (StronglySorted Z.lt bank) as Hs by apply filter_sorted, z_range_sorted.
  destruct bank as [|d0 bank0] eqn:Hbank; [done|]. set (ps := (λ d, d - a) <$> bank0).
  change ((λ d, d - a) <$> d0 :: bank0) with (d0 - a :: ps). change (at_pos (d0 - a :: ps) 0 0) with (d0 - a).
  pose proof (Hin d0 ltac:(left)). rewrite lookup_take_lt by lia.
  destruct (decide (i < d0 - a)) as [Hlt|Hge].
  - exists 0%nat. rewrite lookup_app_l by (rewrite length_replicate; lia).
    rewrite lookup_replicate_2 by lia. split; [done|]. exists d0. split; [done|]. right. split; [done|].
    intros e' He'. apply StronglySorted_inv in Hs as [_ Hs]. apply elem_of_cons in He' as [->|He']; [lia|].
    eapply Forall_forall in Hs; [|exact He']. lia.
  - rewrite lookup_app_r by (rewrite length_replicate; lia). rewrite length_replicate.
    destruct (repeat_diff ps (d0 - a) 0 (b - a + 1) (Z.to_nat i - Z.to_nat (d0 - a))) as (j & q & H1 & H2 & H3 & H4).
    + change (d0 - a :: ps) with ((λ d, d - a) <$> d0 :: bank0). clear -Hs.
      induction Hs as [|x l Hl IH Hx]; cbn [fmap list_fmap]; constructor; [done|]. apply Forall_fmap.
      eapply Forall_impl; [exact Hx|]. intros y. cbn. lia.
    + change (d0 - a :: ps) with ((λ d, d - a) <$> d0 :: bank0). apply Forall_fmap, Forall_forall.
      intros d Hd. pose proof (Hin d Hd). cbn. lia.
    + lia.
    + change (d0 - a :: ps) with ((λ d, d - a) <$> d0 :: bank0) in H2, H4.
      rewrite list_lookup_fmap_Some in H2. destruct H2 as (e & -> & He). exists j. split.
      * unfold np_arange. rewrite Hlen. replace (Z.of_nat (length (d0 :: bank0)) - 1) with (0 + Z.of_nat (length ps))
          by (unfold ps; rewrite length_fmap; cbn [length]; lia). exact H1.
      * exists e. split; [done|]. left. split; [lia|]. apply (sorted_next _ _ j); [done|done|].
        intros e' He'. assert (a + i - a < e' - a); [|lia].
        pose proof (H4 (e' - a) ltac:(by rewrite list_lookup_fmap, He')). lia.
Qed.

(** ** The lookup by sorted keys *)

Lemma leading_exact {A} (f : A → bool) l (j : nat) x :
  (∀ i y, l !! i = Some y → (i < j)%nat → f y = true) → l !! j = Some x → f x = false → leading f l = Z.of_nat j.
Proof.
  intros Hf Hj Hx. apply Z.le_antisymm; [by eapply leading_le|]. apply leading_ge; [done|].
  apply Nat.lt_le_incl. by eapply lookup_lt_Some.
Qed.

Lemma str_le_ne_lt a b : str_le a b = true → a ≠ b → String.ltb a b = true.
Proof.
  unfold String.leb, String.ltb. destruct (String.compare a b) eqn:E; [|done|done].
  by apply String.compare_eq_iff in E as ->.
Qed.

Lemma map_by_spec mapping k :
  NoDup mapping.*1 → k ∈ mapping.*1 → map_by mapping k = dict_get mapping k.
Proof.
  intros Hnd Hk. unfold map_by. set (ks := sort_by str_le mapping.*1).
  assert (k ∈ ks) as [j Hj]%list_elem_of_lookup by (by apply elem_of_sort_by).
  assert (NoDup ks) as Hks by (by apply NoDup_sort_by).
  pose proof (sort_by_sorted str_le str_le_total str_le_trans mapping.*1) as Hs. fold ks in Hs.
  unfold searchsorted_left. rewrite (leading_exact _ _ j k).
  - apply at_pos_lookup. by rewrite list_lookup_fmap, Hj.
  - intros i y Hi Hij. assert (str_le y k = true) as Hle.
    { clear -Hs Hi Hj Hij. revert i j Hi Hj Hij. induction Hs as [|x l Hl IH Hx]; intros i j Hi Hj Hij; [done|].
      destruct j as [|j]; [lia|]. cbn in Hj. destruct i as [|i].
      - injection Hi as <-. apply list_elem_of_lookup_2 in Hj. by eapply Forall_forall in Hx.
      - apply (IH i j); [done|done|lia]. }
    apply str_le_ne_lt; [done|]. intros ->. pose proof (NoDup_lookup _ _ _ _ Hks Hi Hj). lia.
  - done.
  - unfold String.ltb. by rewrite string_compare_refl.
Qed.

(** ** Days inside a lifetime *)

(** A float that is a non-negative number. *)
Definition f64_nonneg (x : f64) : bool :=
  match x with S754_zero false | S754_finite false _ _ => true | _ => false end.

Lemma f64_le_lt_trans x y z :
  f64_nonneg x = true → f64_nonneg y = true → f64_nonneg z = true →
  f64_leb x y = true → f64_ltb y z = true → f64_ltb x z = true.
Proof.
  unfold f64_leb, f64_ltb, SFleb, SFltb.
  destruct x as [[]|?| |[] mx ex], y as [[]|?| |[] my ey], z as [[]|?| |[] mz ez]; try done; cbn; intros _ _ _.
  destruct (Z.compare_spec ex ey); destruct (Z.compare_spec ey ez); try done; intros Hxy Hyz; subst.
  - rewrite Z.compare_refl. change (Pos.compare_cont Eq) with Pos.compare in *.
    destruct (Pos.compare_spec mx my); destruct (Pos.compare_spec my mz); try done; subst;
      by rewrite (proj2 (Pos.compare_lt_iff _ _)) by lia.
  - by rewrite (proj2 (Z.compare_lt_iff _ _)) by lia.
  - by rewrite (proj2 (Z.compare_lt_iff _ _)) by lia.
  - by rewrite (proj2 (Z.compare_lt_iff _ _)) by lia.
Qed.

Lemma f64_lt_not_le x y : f64_nonneg x = true → f64_nonneg y = true → f64_leb y x = true → f64_ltb x y = false.
Proof.
  unfold f64_leb, f64_ltb, SFleb, SFltb. destruct x as [[]|?| |[] mx ex], y as [[]|?| |[] my ey]; try done; cbn; intros _ _.
  destruct (Z.compare_spec ey ex); destruct (Z.compare_spec ex ey); try done; subst; try lia.
  change (Pos.compare_cont Eq) with Pos.compare. destruct (Pos.compare_spec my mx); destruct (Pos.compare_spec mx my); try done; lia.
Qed.

(** A distribution function over the days: numbers from 0 that never fall. *)
Record cdf_ok (cdf : list f64) : Prop := {
  cdf_length : length cdf = S (Z.to_nat n_days);
  cdf_numbers : Forall (λ x, f64_nonneg x = true) cdf;
  cdf_sorted : StronglySorted (λ x y, f64_leb x y = true) cdf }.

Lemma sorted_lookup {A} (R : A → A → Prop) l i j x y :
  StronglySorted R l → (i < j)%nat → l !! i = Some x → l !! j = Some y → R x y.
Proof.
  intros Hs. revert i j. induction Hs as [|z l Hl IH Hz]; intros i j Hij Hi Hj; [done|].
  destruct j as [|j]; [lia|]. cbn in Hj. destruct i as [|i].
  - injection Hi as <-. apply list_elem_of_lookup_2 in Hj. by eapply Forall_forall in Hz.
  - apply (IH i j); [lia|done|done].
Qed.

Lemma n_days_value : n_days = 1301.
Proof. vm_compute. reflexivity. Qed.

(** A day drawn for a customer lies in the customer's lifetime: when the draw falls strictly after
    the start of the lifetime in the cumulated weights, and not after its end, [searchsorted] places
    it on a day from the acquisition to the last active day. *)
Theorem drawn_day_in_lifetime cdf acq_off active_end r :
  cdf_ok cdf → 0 ≤ acq_off ≤ active_end → active_end < n_days →
  let u := lifetime_u cdf acq_off active_end r in
  f64_nonneg u = true → f64_ltb (cdf_lo cdf acq_off) u = true → f64_leb u (cdf_hi cdf active_end) = true →
  acq_off ≤ lifetime_day cdf acq_off active_end r ≤ active_end.
Proof.
  intros [Hlen Hnum Hs] Ha He u Hu Hlo Hhi. unfold lifetime_day, cdf_day. fold u. rewrite n_days_value in *.
  assert (∀ i, 0 ≤ i ≤ 1301 → ∃ x, cdf !! Z.to_nat i = Some x ∧ at_pos cdf (S754_zero false) i = x ∧ f64_nonneg x = true) as Hat.
  { intros i Hi. destruct (lookup_lt_is_Some_2 cdf (Z.to_nat i)) as [x Hx]; [lia|]. exists x. split; [done|].
    unfold at_pos. rewrite Hx. split; [done|]. by apply (Forall_lookup_1 _ _ _ _ Hnum Hx). }
  unfold cdf_lo in Hlo. unfold cdf_hi in Hhi. rewrite n_days_value, Z.min_l in Hhi by lia.
  destruct (Hat acq_off ltac:(lia)) as (lo & Hl & Al & Nl). destruct (Hat (active_end + 1) ltac:(lia)) as (hi & Hh & Ah & Nh).
  rewrite Al in Hlo. rewrite Ah in Hhi.
  assert (acq_off + 1 ≤ searchsorted_left f64_ltb cdf u) as H1.
  { replace (acq_off + 1) with (Z.of_nat (S (Z.to_nat acq_off))) by lia. apply leading_ge; [|lia].
    intros i x Hi Hlt. destruct (decide (i = Z.to_nat acq_off)) as [->|Hne]; [assert (x = lo) as -> by congruence; exact Hlo|].
    eapply f64_le_lt_trans; [|exact Nl|exact Hu| |exact Hlo]; [by apply (Forall_lookup_1 _ _ _ _ Hnum Hi)|].
    apply (sorted_lookup _ cdf i (Z.to_nat acq_off) x lo Hs); [lia|done|done]. }
  assert (searchsorted_left f64_ltb cdf u ≤ active_end + 1) as H2.
  { replace (active_end + 1) with (Z.of_nat (Z.to_nat (active_end + 1))) by lia. eapply leading_le; [exact Hh|].
    by apply f64_lt_not_le. }
  unfold np_clip. lia.
Qed.

Lemma f64_le_trans x y z :
  f64_nonneg x = true → f64_nonneg y = true → f64_nonneg z = true →
  f64_leb x y = true → f64_leb y z = true → f64_leb x z = true.
Proof.
  unfold f64_leb, SFleb.
  destruct x as [[]|?| |[] mx ex], y as [[]|?| |[] my ey], z as [[]|?| |[] mz ez]; try done; cbn; intros _ _ _.
  destruct (Z.compare_spec ex ey); destruct (Z.compare_spec ey ez); try done; intros Hxy Hyz; subst.
  - rewrite Z.compare_refl. change (Pos.compare_cont Eq) with Pos.compare in *.
    destruct (Pos.compare_spec mx my); destruct (Pos.compare_spec my mz); try done;
      (destruct (Pos.compare_spec mx mz); [done|done|lia]).
  - by rewrite (proj2 (Z.compare_lt_iff _ _)) by lia.
  - by rewrite (proj2 (Z.compare_lt_iff _ _)) by lia.
  - by rewrite (proj2 (Z.compare_lt_iff _ _)) by lia.
Qed.

(** A check of [cdf_sorted] on neighbours *)
Fixpoint rising (x : f64) (l : list f64) : bool :=
  match l with [] => true | y :: l => f64_nonneg y && f64_leb x y && rising y l end.

Lemma rising_sorted l : ∀ x, f64_nonneg x = true → rising x l = true →
  Forall (λ y, f64_nonneg y = true) l ∧ Forall (λ y, f64_leb x y = true) l ∧ StronglySorted (λ a b, f64_leb a b = true) l.
Proof.
  induction l as [|y l IH]; intros x Hx; cbn [rising]; [by repeat constructor|].
  intros [[Hy Hxy]%andb_true_iff H]%andb_true_iff. destruct (IH y Hy H) as (H1 & H2 & H3).
  split_and!; [by constructor| |by constructor]. constructor; [done|]. apply Forall_forall. intros z Hz.
  apply (f64_le_trans x y z Hx Hy); [exact (proj1 (Forall_forall _ _) H1 z Hz)|done|exact (proj1 (Forall_forall _ _) H2 z Hz)].
Qed.

Lemma rising_ok x l : f64_nonneg x && rising x l = true → length (x :: l) = S (Z.to_nat n_days) → cdf_ok (x :: l).
Proof.
  intros [Hx Hl]%andb_true_iff Hlen. destruct (rising_sorted l x Hx Hl) as (H1 & H2 & H3).
  split; [done|by constructor|by constructor].
Qed.

(** The distribution without growth and noise. *)
Definition example_cdf : list f64 := day_cdf (λ _ _, f64_of_Z 1) (replicate (Z.to_nat n_days) (f64_of_Z 1)).

Lemma example_cdf_ok : cdf_ok example_cdf.
Proof.
  assert (match example_cdf with x :: l => f64_nonneg x && rising x l | [] => false end = true) as H by by vm_compute.
  assert (length example_cdf = S (Z.to_nat n_days)) as Hlen by by vm_compute.
  destruct example_cdf as [|x l]; [done|]. by apply rising_ok.
Qed.

Lemma drawn_day_in_lifetime_witness :
  400 ≤ lifetime_day example_cdf 400 403 (f64_ratio 1 3) ≤ 403.
Proof. apply (drawn_day_in_lifetime example_cdf 400 403 (f64_ratio 1 3) example_cdf_ok); vm_compute; done. Defined.

(** The daily rate the generator uses for a currency is the rate of the last banking day up to that
    day, for every day of the window; the days before the first banking day use its rate. *)
Theorem fx_carried_forward rates ccy i :
  ccy ≠ "USD" → 0 ≤ i < n_days →
  ∃ j, last_bank_day bank_days (day_at i) j ∧ fx_daily rates ccy i = at_pos (rates ccy) (f64_of_Z 0) (Z.of_nat j).
Proof.
  intros Hc Hi. unfold fx_daily. destruct (String.eqb_spec ccy "USD") as [|_]; [done|].
  destruct (carry_forward_spec START END banking_mask i) as (j & Hj & Hlast).
  - intros E. assert (ymd2ord 2023 1 3 ∈ (filter (λ d, banking_mask d = true) (z_range START END))) as Hin; [|rewrite E in Hin; by apply elem_of_nil in Hin].
    apply list_elem_of_filter. split; [by vm_compute|]. apply elem_of_z_range. by vm_compute.
  - unfold n_days in Hi. lia.
  - exists j. split; [exact Hlast|]. f_equal. unfold at_pos. fold all_days in Hj. fold bank_days in Hj. fold carry in Hj. by rewrite Hj.
Qed.

(** The window opens on a Sunday before a holiday; the first rates are those of the third day. *)
Example fx_first_days : take 5 carry = [0; 0; 0; 1; 2] ∧ bank_days !! 0%nat = Some (START + 2).
Proof. vm_compute. done. Qed.

Lemma fx_carried_forward_witness :
  ∃ j, last_bank_day bank_days (ymd2ord 2026 7 3) j ∧
       fx_daily (λ _, f64_of_Z <$> z_range 1 1000) "EUR" (ymd2ord 2026 7 3 - START) = at_pos (f64_of_Z <$> z_range 1 1000) (f64_of_Z 0) (Z.of_nat j).
Proof.
  apply (fx_carried_forward (λ _, f64_of_Z <$> z_range 1 1000) "EUR" (ymd2ord 2026 7 3 - START)); [done|by vm_compute].
Defined.
