(* ===== verification/GenCustomers.v ===== *)
(** * The generated people: [generator/generate.py], sales reps to the order scaffold

    Sales representatives, campaigns, customers with their lifetime, and the slots of the orders
    (customer and day) with what is drawn for each order before its lines. A record [*_draw] holds
    what [numpy.random] returns for one row, in the range its call asks for ([*_draw_ok]); floats
    that only feed a draw (rates, health, quotas) are inside it. *)

From stdpp Require Import prelude strings list sorting.
From Stdlib Require Import ZArith Lia Ascii Floats.SpecFloat.
From S2P Require Import Prelude PyText Dates PyNum NumPy GenCalendar.

Open Scope Z_scope.

(** ** Formats *)

Definition clock_text (s : Z) : string :=
  zpad 2 (s / 3600) +:+ ":" +:+ zpad 2 (s mod 3600 / 60) +:+ ":" +:+ zpad 2 (s mod 60).
(** [np.datetime_as_string(..., unit="s")] *)
Definition datetime_as_string (t : Z) : string := isoformat (t / day_seconds) +:+ "T" +:+ clock_text (t mod day_seconds).
Definition d2s (d : date) : string := isoformat d.
Definition ts2s (t : Z) : string := replace_char "T" " " (datetime_as_string t).

(** The timestamp of a second of a day. *)
Definition at_second (i : Z) (second : Z) : Z := day_at i * day_seconds + second.

Definition in_bounds (x lo hi : Z) : Prop := lo ≤ x < hi.

(** [COMPANY], [FIRST] and [LAST] name parts *)
Definition CO_A : list string :=
  ["Blue"; "Iron"; "Summit"; "Cedar"; "Harbor"; "Vantage"; "Granite"; "Willow"; "Crescent"; "Pioneer"; "Northgate";
   "Silverline"; "Redstone"; "Copper"; "Lakeshore"; "Brightwater"; "Ridgeway"; "Foxglove"; "Cardinal"; "Meridian";
   "Sandpiper"; "Thornbury"; "Aspen"; "Kingsley"; "Marbleton"].
Definition CO_B : list string :=
  ["Industries"; "Logistics"; "Group"; "Holdings"; "Partners"; "Systems"; "Works"; "Labs"; "Manufacturing"; "Distribution";
   "Technologies"; "Solutions"; "Health"; "Energy"; "Retail Group"; "Foods"; "Aerospace"].
Definition CO_C : list string := ["Inc."; "LLC"; "Ltd."; "GmbH"; "K.K."; "PLC"; "Corp."; "S.A."; "ULC"; "Co."].
Definition FIRST : list string :=
  ["Amara"; "Jonas"; "Priya"; "Diego"; "Mei"; "Tomas"; "Nadia"; "Rowan"; "Ines"; "Kofi"; "Yuki"; "Liam"; "Farah"; "Oscar";
   "Anaya"; "Petra"; "Emeka"; "Sanne"; "Rafael"; "Leila"; "Bjorn"; "Chiara"; "Hassan"; "Noor"; "Devon"; "Marisol";
   "Aditya"; "Greta"; "Malik"; "Sofia"].
Definition LAST : list string :=
  ["Okonkwo"; "Lindqvist"; "Raman"; "Herrera"; "Zhao"; "Novak"; "Haddad"; "Whitfield"; "Costa"; "Mensah"; "Tanaka"; "Byrne";
   "Nasser"; "Lindgren"; "Iyer"; "Kowalski"; "Adeyemi"; "Visser"; "Moreau"; "Rahimi"; "Aaltonen"; "Ferrari"; "Baptiste";
   "Sorensen"; "Quinn"; "Delgado"; "Bhatt"; "Muller"].
Definition CAMPAIGN_TYPES : list string :=
  ["Email Nurture"; "Paid Search"; "Field Event"; "Webinar"; "Content Syndication"; "Partner Co-Marketing"].

(** [l[i % len(l)]] *)
Definition pick_mod (l : list string) (i : Z) : string := at_pos l "" (i mod Z.of_nat (length l)).

(** ** Sales representatives *)

Record rep_draw := mkRepDraw {
  rd_hire : Z;          (* (rng.beta(1.1, 1.5) * n_days).astype(int) *)
  rd_first_day : bool;  (* rng.random() < 0.45 *)
  rd_leaves : bool;     (* rng.random() < 0.22 *)
  rd_tenure : Z;        (* rng.integers(200, 900) *)
  rd_region : string }.
Definition rep_draw_ok (d : rep_draw) : Prop := 0 ≤ rd_hire d ∧ in_bounds (rd_tenure d) 200 900 ∧ rd_region d ∈ REGIONS.

Record sales_rep := mkRep {
  rep_id : string; rep_name : string; rep_region : string; rep_hire : date; rep_departure : option date; rep_manager : string }.

Definition make_rep (n_rep : Z) (i : Z) (d : rep_draw) : sales_rep :=
  let hire := if rd_first_day d then day_at 0 else day_at (np_clip (rd_hire d) 0 (n_days - 1)) in
  let left_ := if rd_leaves d then Some (hire + rd_tenure d) else None in
  let left_ := match left_ with Some l => if END <? l then None else Some l | None => None end in
  mkRep ("REP-" +:+ zpad 4 (i + 1)) (pick_mod FIRST i +:+ " " +:+ pick_mod LAST (i * 5)) (rd_region d) hire left_
    ("MGR-" +:+ zpad 3 (i mod Z.max 3 (n_rep / 8) + 1)).
Definition sales_reps (draws : list rep_draw) : list sales_rep :=
  (λ p, make_rep (Z.of_nat (length draws)) p.1 p.2) <$> enumerate_from 0 draws.

(** ** Campaigns *)

Record campaign_draw := mkCampaignDraw {
  pd_start : Z;   (* rng.integers(0, n_days - 30), the draws sorted *)
  pd_len : Z;     (* rng.integers(14, 120) *)
  pd_region : string; pd_segment : string }.
Definition campaign_draw_ok (d : campaign_draw) : Prop :=
  in_bounds (pd_start d) 0 (n_days - 30) ∧ in_bounds (pd_len d) 14 120.

Record campaign := mkCampaign {
  camp_id : string; camp_name : string; camp_type : string; camp_region : string; camp_segment : string;
  camp_start : date; camp_end : date; camp_owner : string }.

Definition make_campaign (i : Z) (d : campaign_draw) : campaign :=
  let type := pick_mod CAMPAIGN_TYPES i in
  mkCampaign ("CMP-" +:+ zpad 4 (i + 1)) (type +:+ " " +:+ str (take 7 (chars (isoformat (day_at (pd_start d)))))) type
    (pd_region d) (pd_segment d) (day_at (pd_start d)) (day_at (np_clip (pd_start d + pd_len d) 0 (n_days - 1)))
    (pick_mod FIRST (i * 3) +:+ " " +:+ pick_mod LAST (i * 11)).
Definition campaigns (draws : list campaign_draw) : list campaign :=
  (λ p, make_campaign p.1 p.2) <$> enumerate_from 0 draws.

(** ** Customers *)

Record customer_draw := mkCustomerDraw {
  cd_acq : Z;         (* (rng.beta(1.35, 1.9) * n_days).astype(int) *)
  cd_book : bool;     (* rng.random() < 0.30 *)
  cd_segment : string;
  cd_region : string;
  cd_life : Z;        (* life_days.astype(int) *)
  cd_emea : Z;        (* (rng.random() * 260).astype(int) *)
  cd_apac : Z;        (* (rng.random() * 190).astype(int) *)
  cd_variant : Z;     (* rng.integers(0, 5) *)
  cd_second : Z;      (* rng.integers(8 * 3600, 19 * 3600) *)
  cd_industry : string;
  cd_enterprise : Z; cd_mid_market : Z; cd_smb : Z; cd_public : Z;   (* employees, by segment *)
  cd_terms : Z;
  cd_updated : Z }.   (* rng.integers(0, 300 * 86400) *)

Record customer_draw_ok (d : customer_draw) : Prop := {
  cdo_acq : 0 ≤ cd_acq d;
  cdo_segment : cd_segment d ∈ SEGMENTS;
  cdo_region : cd_region d ∈ REGIONS;
  cdo_life : 0 ≤ cd_life d;
  cdo_variant : in_bounds (cd_variant d) 0 5;
  cdo_second : in_bounds (cd_second d) (8 * 3600) (19 * 3600);
  cdo_employees : in_bounds (cd_enterprise d) 5000 90000 ∧ in_bounds (cd_mid_market d) 300 5000 ∧
                  in_bounds (cd_smb d) 5 300 ∧ in_bounds (cd_public d) 150 30000;
  cdo_terms : cd_terms d ∈ [15; 30; 45; 60; 90];
  cdo_updated : in_bounds (cd_updated d) 0 (300 * day_seconds) }.

Definition acq_off (d : customer_draw) : Z := if cd_book d then 0 else np_clip (cd_acq d) 0 (n_days - 1).

Definition churn_off (d : customer_draw) : Z :=
  let off := acq_off d + cd_life d in
  let off := if String.eqb (cd_region d) "EMEA" && (EV_EMEA_COMPETITOR - START <? off) then off - cd_emea d else off in
  let off := if String.eqb (cd_region d) "APAC" && (EV_APAC_SUPPORT_REORG - START <? off) then off - cd_apac d else off in
  Z.max off (acq_off d + 20).
Definition active_end (d : customer_draw) : Z := Z.min (churn_off d) (n_days - 1).
Definition churned (d : customer_draw) : bool := churn_off d <? n_days - 1.

Definition canonical_acct (i : Z) : string := "ACC-" +:+ zpad 6 (i + 1).

(** [acct_ops]: numbers keyed by hand before the migration. *)
Definition acct_ops (i : Z) (d : customer_draw) : string :=
  let c := canonical_acct i in
  if day_at (acq_off d) <? EV_CRM_MIGRATION
  then at_pos [replace_char "-" " " c; lower c; "ACC-" +:+ str_of_Z (i + 1); " " +:+ c; c +:+ " "] "" (cd_variant d)
  else c.

Definition cust_created (d : customer_draw) : Z := at_second (acq_off d) (cd_second d).

Definition customer_name (i : Z) : string :=
  pick_mod CO_A i +:+ (if i mod 9 =? 0 then pick_mod CO_A (i * 7) else "") +:+ " "
  +:+ pick_mod CO_B (i * 3) +:+ " " +:+ pick_mod CO_C (i * 5).

Definition customer_country (region : string) : string :=
  map_by [("NA-WEST", "United States"); ("NA-EAST", "United States"); ("CANADA", "Canada"); ("EMEA", "Germany");
          ("UKI", "United Kingdom"); ("APAC", "Japan")] region.

Definition employee_count (d : customer_draw) : Z :=
  if String.eqb (cd_segment d) "Enterprise" then cd_enterprise d
  else if String.eqb (cd_segment d) "Mid-Market" then cd_mid_market d
  else if String.eqb (cd_segment d) "SMB" then cd_smb d else cd_public d.

Record customer := mkCustomer {
  customer_id : Z; account_number : string; c_name : string; segment : string; industry : string; region : string;
  company_code : string; country : string; employees : Z; payment_terms_days : Z; is_active : bool;
  c_created_at : Z; c_updated_at : Z }.

Definition make_customer (i : Z) (d : customer_draw) : customer :=
  mkCustomer (i + 1) (acct_ops i d) (customer_name i) (cd_segment d) (cd_industry d) (cd_region d)
    (dict_get REGION_COMPANY (cd_region d)) (customer_country (cd_region d)) (employee_count d) (cd_terms d)
    (negb (churned d)) (cust_created d) (cust_created d + cd_updated d).
Definition customers (draws : list customer_draw) : list customer :=
  (λ p, make_customer p.1 p.2) <$> enumerate_from 0 draws.

(** ** The order scaffold *)

(** The customer (from 0) and the day of each order, in the order of the days. [counts] are the
    Poisson draws per customer, [us] those of [rng.random] per order. *)
Definition order_slots (cdf : list f64) (cust : list customer_draw) (counts : list Z) (us : list f64) : list (Z * Z) :=
  let cust_of_order := np_repeat (enumerate_from 0 cust) counts in
  let o_day := zip_with (λ c r, lifetime_day cdf (acq_off c.2) (active_end c.2) r) cust_of_order us in
  (λ p : Z * Z, (at_pos (cust_of_order.*1) 0 p.1, p.2)) <$> argsort o_day.

Record order_draw := mkOrderDraw {
  od_cross : bool;      (* rng.random() < 0.17 *)
  od_status : string;
  od_pending : bool;    (* rng.random() < 0.55 *)
  od_channel : string;
  od_second : Z;        (* rng.integers(7 * 3600, 21 * 3600) *)
  od_updated : Z;       (* rng.integers(0, 72 * 3600) *)
  od_opp : bool;        (* rng.random() < 0.94 *)
  od_requested : Z;     (* rng.integers(3, 25) *)
  od_po : option Z }.   (* rng.random() < 0.72, rng.integers(1, 10 ** 9) *)

Record order_draw_ok (d : order_draw) : Prop := {
  odo_status : od_status d ∈ ["INVOICED"; "SHIPPED"; "PENDING"; "CANCELLED"];
  odo_channel : od_channel d ∈ ["DIRECT"; "PARTNER"; "ECOMM"];
  odo_second : in_bounds (od_second d) (7 * 3600) (21 * 3600);
  odo_updated : in_bounds (od_updated d) 0 (72 * 3600);
  odo_requested : in_bounds (od_requested d) 3 25 }.

(** An order before its opportunity and its lines. *)
Record scaffold := mkScaffold {
  o_id : Z; o_cust : Z; o_day : Z; o_region : string; o_seg : string; o_ccy : string; o_status : string; o_channel : string;
  o_created : Z; o_updated : Z; has_opp : bool; o_requested : date; o_po : option string }.

Definition make_scaffold (cust : list customer_draw) (default_customer : customer_draw) (i : Z) (slot : Z * Z) (d : order_draw)
    : scaffold :=
  let c := at_pos cust default_customer slot.1 in
  let o_date := day_at slot.2 in
  let ccy := if od_cross d then "USD" else map_by REGION_CCY (cd_region c) in
  let status := if (n_days - 12 <? slot.2) && od_pending d then "PENDING" else od_status d in
  let created := at_second slot.2 (od_second d) in
  let apac_out := String.eqb (cd_region c) "APAC" && (o_date =? EV_APAC_OUTAGE) in
  let created := if apac_out then created + 26 * 3600 else created in
  mkScaffold (i + 1) slot.1 slot.2 (cd_region c) (cd_segment c) ccy status (od_channel d) created (created + od_updated d)
    (negb (String.eqb (od_channel d) "ECOMM") && od_opp d) (o_date + od_requested d)
    ((λ n, "PO-" +:+ zpad 9 n) <$> od_po d).

Definition scaffolds (cust : list customer_draw) (default_customer : customer_draw) (slots : list (Z * Z))
    (draws : list order_draw) : list scaffold :=
  (λ p, make_scaffold cust default_customer p.1 p.2.1 p.2.2) <$> enumerate_from 0 (zip slots draws).

(** ** Account numbers are distinct *)

(** The digits of an account number, as a number. *)
Definition digits_of (s : string) : option Z := digits_value 0 (filter (λ c, is_decimal c = true) (chars s)).

Lemma lower_decimal c : is_decimal c = true → lower_char c = c.
Proof.
  intros Hc. unfold lower_char. unfold is_decimal, in_range in *. apply andb_true_iff in Hc as [H1 H2]. apply Z.leb_le in H1, H2.
  destruct ((65 <=? code c) && (code c <=? 90)) eqn:E1; [apply andb_true_iff in E1 as [?%Z.leb_le ?%Z.leb_le]; lia|].
  destruct ((192 <=? code c) && (code c <=? 222)) eqn:E2; [apply andb_true_iff in E2 as [?%Z.leb_le ?%Z.leb_le]; lia|]. done.
Qed.

Lemma filter_decimal l : Forall (λ c, is_decimal c = true) l → filter (λ c, is_decimal c = true) l = l.
Proof. intros H. apply filter_all. intros c Hc. by eapply Forall_forall in H. Qed.

Lemma str_of_Z_decimal n : 0 ≤ n → Forall (λ c, is_decimal c = true) (chars (str_of_Z n)) ∧ digits_value 0 (chars (str_of_Z n)) = Some n.
Proof.
  intros Hn. unfold str_of_Z. rewrite (proj2 (Z.ltb_ge n 0)) by lia. rewrite chars_str. destruct (dec_digits_spec n Hn) as (? & ? & _). done.
Qed.

Lemma canonical_digits i : 0 ≤ i → digits_of (canonical_acct i) = Some (i + 1).
Proof.
  intros Hi. unfold digits_of, canonical_acct. rewrite chars_app, filter_app. cbn.
  rewrite filter_decimal by (apply zpad_decimal; lia). apply zpad_value. lia.
Qed.

Lemma acct_ops_digits i d : 0 ≤ i → in_bounds (cd_variant d) 0 5 → digits_of (acct_ops i d) = Some (i + 1).
Proof.
  intros Hi Hv. pose proof (canonical_digits i Hi) as Hc. unfold acct_ops. destruct (_ <? _); [|done].
  pose proof (zpad_decimal 6 (i + 1) ltac:(lia)) as Hz. pose proof (zpad_value 6 (i + 1) ltac:(lia)) as Hz'.
  unfold in_bounds in Hv. assert (cd_variant d = 0 ∨ cd_variant d = 1 ∨ cd_variant d = 2 ∨ cd_variant d = 3 ∨ cd_variant d = 4)
    as [->|[->|[->|[->| ->]]]] by lia;
    cbv [at_pos lookup list_lookup default from_option id Z.to_nat Pos.to_nat Pos.iter_op Init.Nat.add];
    unfold canonical_acct in *; set (z := zpad 6 (i + 1)) in *; clearbody z.
  - unfold digits_of, replace_char. rewrite chars_str, chars_app, bind_app, filter_app. cbn [chars].
    assert ((chars z ≫= λ x, if bool_decide (x = "-"%char) then chars " " else [x]) = chars z) as ->.
    { clear -Hz. induction Hz as [|c l Hc _ IH]; [done|]. rewrite bind_cons, IH, bool_decide_false; [done|]. by intros ->. }
    cbn. by rewrite (filter_decimal _ Hz).
  - unfold digits_of, lower. rewrite chars_str, chars_app, fmap_app, filter_app. cbn.
    assert (lower_char <$> chars z = chars z) as ->.
    { clear -Hz. induction Hz as [|c l Hc _ IH]; [done|]. cbn. rewrite IH. by rewrite lower_decimal. }
    by rewrite (filter_decimal _ Hz).
  - unfold digits_of. rewrite chars_app, filter_app. cbn. destruct (str_of_Z_decimal (i + 1)) as [Hd Hd']; [lia|].
    by rewrite filter_decimal.
  - unfold digits_of in *. rewrite chars_app, filter_app. cbn [chars String.list_ascii_of_string]. exact Hc.
  - unfold digits_of in *. rewrite chars_app, filter_app. change (filter _ (chars " ")) with (@nil ascii). by rewrite app_nil_r.
Qed.

(** ** Lifetimes and slots *)

Lemma acq_off_range d : 0 ≤ acq_off d < n_days.
Proof. unfold acq_off. rewrite n_days_value. destruct (cd_book d); [lia|]. pose proof (np_clip_bounds (cd_acq d) 0 (1301 - 1)). lia. Qed.

Lemma active_end_range d : acq_off d ≤ active_end d < n_days.
Proof. pose proof (acq_off_range d). unfold active_end, churn_off. rewrite n_days_value in *. lia. Qed.

Lemma cdf_day_range cdf u : 0 ≤ cdf_day cdf u < n_days.
Proof. unfold cdf_day. pose proof (np_clip_bounds (searchsorted_left f64_ltb cdf u - 1) 0 (n_days - 1)). rewrite n_days_value in *. lia. Qed.

Lemma elem_of_enumerate_lookup {A} n (l : list A) k x :
  (k, x) ∈ enumerate_from n l → n ≤ k ∧ l !! Z.to_nat (k - n) = Some x.
Proof.
  revert n. induction l as [|y l IH]; intros n; cbn; [by intros ?%elem_of_nil|].
  intros [[= -> ->]|H]%elem_of_cons; [split; [lia|by rewrite Z.sub_diag]|].
  apply IH in H as [Hk Hl]. split; [lia|]. replace (Z.to_nat (k - n)) with (S (Z.to_nat (k - (n + 1)))) by lia. done.
Qed.

(** The rows a table numbers from [n]. *)
Lemma elem_of_numbered {A B} (f : Z * A → B) n (l : list A) y :
  y ∈ f <$> enumerate_from n l → ∃ i x, n ≤ i ∧ l !! Z.to_nat (i - n) = Some x ∧ y = f (i, x).
Proof.
  intros ([i x] & -> & H)%list_elem_of_fmap. apply elem_of_enumerate_lookup in H as [Hi Hx]. eauto.
Qed.

Lemma NoDup_numbered {A B C} (f : Z * A → B) (key : B → C) (num : C → Z) n (l : list A) :
  (∀ i x, n ≤ i < n + Z.of_nat (length l) → x ∈ l → num (key (f (i, x))) = i) → NoDup (key <$> (f <$> enumerate_from n l)).
Proof.
  revert n. induction l as [|x l IH]; intros n Hf; [constructor|]. cbn [enumerate_from fmap list_fmap]. constructor.
  - intros (y & E & (i & z & Hi & Hz & ->)%elem_of_numbered)%list_elem_of_fmap.
    pose proof (lookup_lt_Some _ _ _ Hz) as Hlt. cbn [length] in Hf.
    pose proof (Hf n x ltac:(lia) ltac:(left)) as H1.
    pose proof (Hf i z ltac:(lia) ltac:(right; by eapply list_elem_of_lookup_2)) as H2. rewrite E in H1. lia.
  - apply IH. intros i z Hi Hz. apply Hf; [cbn [length]; lia|by right].
Qed.

Lemma elem_of_argsort keys p : p ∈ argsort keys → 0 ≤ p.1 ∧ keys !! Z.to_nat p.1 = Some p.2.
Proof.
  unfold argsort. rewrite elem_of_sort_by. destruct p as [i k]. intros [Hi Hk]%elem_of_enumerate_lookup.
  cbn [fst snd]. split; [lia|]. by rewrite Z.sub_0_r in Hk.
Qed.

Lemma order_slots_spec cdf cust counts us s :
  s ∈ order_slots cdf cust counts us →
  ∃ d r, 0 ≤ s.1 ∧ cust !! Z.to_nat s.1 = Some d ∧ r ∈ us ∧ s.2 = lifetime_day cdf (acq_off d) (active_end d) r.
Proof.
  unfold order_slots. intros ([i day] & -> & Hin)%list_elem_of_fmap. apply elem_of_argsort in Hin as [Hi Hday]. cbn [fst snd] in *.
  rewrite lookup_zip_with_Some in Hday. destruct Hday as ([c d] & r & -> & Hc & Hr).
  exists d, r. unfold at_pos. rewrite list_lookup_fmap, Hc. cbn [fmap option_fmap option_map default id from_option fst snd].
  apply list_elem_of_lookup_2, elem_of_np_repeat, elem_of_enumerate_lookup in Hc as [Hc0 Hc]. rewrite Z.sub_0_r in Hc.
  split_and!; [lia|done|by eapply list_elem_of_lookup_2|done].
Qed.

Lemma sorted_fmap {A B} (f : A → B) (R : A → A → Prop) (S : B → B → Prop) l :
  (∀ x y, R x y → S (f x) (f y)) → StronglySorted R l → StronglySorted S (f <$> l).
Proof.
  intros HRS. induction 1 as [|x l Hl IH Hx]; cbn; constructor; [done|].
  apply Forall_fmap. eapply Forall_impl; [exact Hx|]. intros y. apply HRS.
Qed.

(** The orders come in the order of their days. *)
Lemma order_slots_sorted cdf cust counts us : StronglySorted Z.le (order_slots cdf cust counts us).*2.
Proof.
  unfold order_slots. rewrite <- list_fmap_compose. set (f := λ p : Z * Z, _).
  apply (sorted_fmap (snd ∘ f) (λ a b : Z * Z, (a.2 <=? b.2) = true)).
  - intros x y Hxy. by apply Z.leb_le.
  - apply sort_by_sorted.
    + intros x y. destruct (Z.leb_spec x.2 y.2); [by left|right]. apply Z.leb_le. lia.
    + intros x y z. rewrite !Z.leb_le. lia.
Qed.

Lemma scaffolds_spec cust dc slots draws o :
  o ∈ scaffolds cust dc slots draws →
  ∃ i slot d, 0 ≤ i ∧ slot ∈ slots ∧ d ∈ draws ∧ o = make_scaffold cust dc i slot d.
Proof.
  intros (i & [slot d] & Hi & Hl & ->)%elem_of_numbered. apply list_elem_of_lookup_2 in Hl.
  exists i, slot, d. split_and!; [lia|..|done].
  - by eapply elem_of_zip_l.
  - by eapply elem_of_zip_r.
Qed.

Lemma scaffold_ids cust dc slots draws : NoDup (o_id <$> scaffolds cust dc slots draws).
Proof. apply (NoDup_numbered _ o_id (λ z, z - 1)). intros i x _ _. cbn. lia. Qed.
