(* ===== verification/GenCrm.v ===== *)
(** * The generated CRM: [generator/generate.py], accounts and opportunities

    The two CRM objects of the baseline and the empty history, as the parquet files the simulator and
    FakeForce read. [of_float] is how a float64 column reaches Python and [np_round] NumPy's
    rounding; both only pass through. The last part composes the files with the simulator's first
    day. *)

From stdpp Require Import prelude gmap strings list.
From Stdlib Require Import ZArith Lia Ascii Floats.SpecFloat.
From S2P Require Import Prelude PyText Dates PyNum PyRandom Policy Events Crm CrmStore CrmFacts CrmDay CrmCycle NumPy GenCalendar GenCustomers.

Open Scope Z_scope.

(** [np.char.add(np.char.replace(ts2s(t), " ", "T"), ".000+0000")] *)
Definition crm_time (t : Z) : string := replace_char " " "T" (ts2s t) +:+ ".000+0000".

Definition crm_acct_id (i : Z) : string := "001" +:+ zpad 15 (i + 1).
Definition crm_opp_id (i : Z) : string := "006" +:+ zpad 15 (i + 1).

(** [np.datetime64(END).astype("datetime64[s]")] *)
Definition end_midnight : Z := END * day_seconds.

(** ** Draws *)

Record account_draw := mkAccountDraw {
  ad_modified : Z;   (* rng.integers(0, 900 * 86400) *)
  ad_owner : Z;      (* rng.integers(0, n_rep) *)
  ad_type : string;
  ad_revenue : f64 }.
Definition account_draw_ok (n_rep : Z) (d : account_draw) : Prop :=
  in_bounds (ad_modified d) 0 (900 * day_seconds) ∧ in_bounds (ad_owner d) 0 n_rep.

Record opp_draw := mkOppDraw {
  pp_age : Z;           (* np.clip(rng.gamma(4.0, cycle / 4.0), 5, 500).astype(int) *)
  pp_rep : Z;           (* rng.integers(0, n_rep) *)
  pp_stage : string;    (* of an open opportunity *)
  pp_discount : f64;    (* rng.gamma(2.0, 4.2) * rep_discount_bias *)
  pp_amount : f64;
  pp_lead : string;
  pp_campaign : Z;      (* rng.integers(0, n_camp) *)
  pp_loss : string;
  pp_competitor : bool; (* rng.random() < 0.45 *)
  pp_second : Z;        (* rng.integers(8 * 3600, 18 * 3600) *)
  pp_modified : Z;      (* rng.integers(0, 30 * 86400) *)
  pp_name : string }.

Definition OPEN_STAGES : list string := ["Prospecting"; "Qualification"; "Proposal"; "Negotiation"].

Record opp_draw_ok (n_rep n_camp : Z) (d : opp_draw) : Prop := {
  ppo_age : 5 ≤ pp_age d ≤ 500;
  ppo_rep : in_bounds (pp_rep d) 0 n_rep;
  ppo_stage : pp_stage d ∈ OPEN_STAGES;
  ppo_campaign : in_bounds (pp_campaign d) 0 n_camp;
  ppo_loss : pp_loss d ∈ LOSS_REASONS;
  ppo_second : in_bounds (pp_second d) (8 * 3600) (18 * 3600);
  ppo_modified : in_bounds (pp_modified d) 0 (30 * day_seconds) }.

(** Everything drawn before the files are written. *)
Record crm_draws := mkCrmDraws {
  g_reps : list rep_draw;
  g_campaigns : list campaign_draw;
  g_customers : list customer_draw;
  g_accounts : list account_draw;    (* one per customer *)
  g_cdf : list f64;
  g_counts : list Z;                 (* the orders of each customer *)
  g_orders_u : list f64;
  g_orders : list order_draw;
  g_lost_u : list f64;               (* rng.random(n_lost + n_open) *)
  g_lost_cust : list Z;              (* rng.integers(0, n_cust, n_lost + n_open) *)
  g_opps : list opp_draw;
  g_deleted : list Z }.

Section Files.
Context (of_float : f64 → pyval) (np_round : f64 → Z → f64) (g : crm_draws).

Definition no_customer : customer_draw := mkCustomerDraw 0 true "" "" 0 0 0 0 0 "" 0 0 0 0 0 0.
Definition reps : list sales_rep := sales_reps (g_reps g).
Definition rep_at (i : Z) : string := at_pos (rep_id <$> reps) "" i.
Definition slots : list (Z * Z) := order_slots (g_cdf g) (g_customers g) (g_counts g) (g_orders_u g).
Definition orders : list scaffold := scaffolds (g_customers g) no_customer slots (g_orders g).

(** ** Accounts *)

Definition ACCOUNT_COLUMNS : list string :=
  ["Id"; "Name"; "AccountNumber"; "Industry"; "Type"; "BillingCountry"; "AnnualRevenue"; "NumberOfEmployees"; "OwnerId";
   "CreatedById"; "LastModifiedById"; "CreatedDate"; "LastModifiedDate"; "SystemModstamp"; "IsDeleted"].

Definition crm_mod (c : customer_draw) (a : account_draw) : Z := Z.min (cust_created c + ad_modified a) end_midnight.

Definition account_row (i : Z) (c : customer_draw) (a : account_draw) : crm_row :=
  let owner := PStr (rep_at (ad_owner a)) in
  let modified := PStr (crm_time (crm_mod c a)) in
  list_to_map
    [("Id", PStr (crm_acct_id i)); ("Name", PStr (customer_name i)); ("AccountNumber", PStr (canonical_acct i));
     ("Industry", PStr (cd_industry c)); ("Type", PStr (ad_type a)); ("BillingCountry", PStr (customer_country (cd_region c)));
     ("AnnualRevenue", of_float (ad_revenue a)); ("NumberOfEmployees", PInt (employee_count c)); ("OwnerId", owner);
     ("CreatedById", owner); ("LastModifiedById", owner); ("CreatedDate", PStr (crm_time (cust_created c)));
     ("LastModifiedDate", modified); ("SystemModstamp", modified); ("IsDeleted", PBool false)].

Definition accounts : part :=
  mkPart ACCOUNT_COLUMNS
    ((λ p, account_row p.1 p.2.1 p.2.2) <$> enumerate_from 0 (zip (g_customers g) (g_accounts g))).

(** ** Opportunities *)

(** The orders that come from an opportunity, and the customer and closing day of every opportunity:
    those of the orders won, then those lost or open. *)
Definition won : list scaffold := filter (λ o, has_opp o = true) orders.
Definition n_won : Z := Z.of_nat (length won).
Definition n_lost : Z := f64_trunc (f64_mul (f64_of_Z n_won) (f64_literal 105 (-2))).
Definition n_open : Z := f64_trunc (f64_mul (f64_of_Z n_won) (f64_literal 22 (-2))).
Definition opp_slots : list (Z * Z) :=
  ((λ o, (o_cust o, o_day o)) <$> won) ++ zip_with (λ u c, (c, cdf_day (g_cdf g) u)) (g_lost_u g) (g_lost_cust g).

Definition stage_of (i : Z) (d : opp_draw) : string :=
  if i <? n_won then "Closed Won" else if i <? n_won + n_lost then "Closed Lost" else pp_stage d.

Definition emea_late (region : string) (close : Z) : bool :=
  String.eqb region "EMEA" && (EV_EMEA_COMPETITOR <=? day_at close).
Definition discount_of (region : string) (close : Z) (d : opp_draw) : f64 :=
  let ceiling := if EV_DISCOUNT_POLICY <=? day_at close then f64_of_Z 32 else f64_of_Z 20 in
  let disc := f64_clip (pp_discount d) (f64_of_Z 0) ceiling in
  let disc := if emea_late region close then f64_clip (f64_mul disc (f64_literal 135 (-2))) (f64_of_Z 0) ceiling else disc in
  np_round disc 1.

Definition loss_reason (stage region : string) (close : Z) (d : opp_draw) : option string :=
  if String.eqb stage "Closed Lost"
  then Some (if emea_late region close && pp_competitor d then "Competitor" else pp_loss d) else None.

Definition probability (stage : string) : Z :=
  if String.eqb stage "Closed Won" then 100 else if String.eqb stage "Closed Lost" then 0
  else if String.eqb stage "Negotiation" then 75 else if String.eqb stage "Proposal" then 50
  else if String.eqb stage "Qualification" then 25 else 10.

Definition opp_create_day (close : Z) (d : opp_draw) : Z := np_clip (close - pp_age d) 0 (n_days - 1).
Definition opp_created_ts (close : Z) (d : opp_draw) : Z := at_second (opp_create_day close d) (pp_second d).
Definition opp_mod_ts (close : Z) (d : opp_draw) : Z := Z.min (at_second close (pp_modified d)) end_midnight.

Definition text_or_null (s : option string) : pyval := match s with Some s => PStr s | None => PNone end.

Definition OPPORTUNITY_COLUMNS : list string :=
  ["Id"; "AccountId"; "Name"; "StageName"; "Amount"; "CurrencyIsoCode"; "CloseDate"; "Probability"; "LeadSource"; "CampaignId";
   "DiscountPercent"; "LossReason"; "SalesCycleDays"; "OwnerId"; "CreatedById"; "LastModifiedById"; "CreatedDate";
   "LastModifiedDate"; "SystemModstamp"; "IsDeleted"].

Definition opportunity_row (i : Z) (slot : Z * Z) (d : opp_draw) : crm_row :=
  let c := at_pos (g_customers g) no_customer slot.1 in
  let stage := stage_of i d in
  let owner := PStr (rep_at (pp_rep d)) in
  let modified := PStr (crm_time (opp_mod_ts slot.2 d)) in
  let campaign := if String.eqb (pp_lead d) "Marketing Campaign"
                  then Some (at_pos (camp_id <$> campaigns (g_campaigns g)) "" (pp_campaign d)) else None in
  table_row OPPORTUNITY_COLUMNS (list_to_map
    [("Id", PStr (crm_opp_id i)); ("AccountId", PStr (crm_acct_id slot.1));
     ("Name", PStr (customer_name slot.1 +:+ " - " +:+ pp_name d)); ("StageName", PStr stage);
     ("Amount", of_float (pp_amount d)); ("CurrencyIsoCode", PStr (map_by REGION_CCY (cd_region c)));
     ("CloseDate", PStr (d2s (day_at slot.2))); ("Probability", PInt (probability stage)); ("LeadSource", PStr (pp_lead d));
     ("CampaignId", text_or_null campaign); ("DiscountPercent", of_float (discount_of (cd_region c) slot.2 d));
     ("LossReason", text_or_null (loss_reason stage (cd_region c) slot.2 d));
     ("SalesCycleDays", PInt (slot.2 - opp_create_day slot.2 d)); ("OwnerId", owner); ("CreatedById", owner);
     ("LastModifiedById", owner); ("CreatedDate", PStr (crm_time (opp_created_ts slot.2 d)));
     ("LastModifiedDate", modified); ("SystemModstamp", modified); ("IsDeleted", PBool (bool_decide (i ∈ g_deleted g)))]).

Definition opportunities : part :=
  mkPart OPPORTUNITY_COLUMNS
    ((λ p, opportunity_row p.1 p.2.1 p.2.2) <$> enumerate_from 0 (zip opp_slots (g_opps g))).

Definition crm_files (object : string) : part :=
  if String.eqb object "accounts" then accounts else if String.eqb object "opportunities" then opportunities
  else mkPart OPPORTUNITY_HISTORY_SCHEMA [].
End Files.

(** ** Times *)

Lemma replace_char_app c r a b : replace_char c r (a +:+ b) = replace_char c r a +:+ replace_char c r b.
Proof. unfold replace_char. by rewrite chars_app, bind_app, str_app. Qed.

Lemma replace_char_none c r s : c ∉ chars s → replace_char c r s = s.
Proof.
  intros Hc. unfold replace_char. rewrite <- (str_chars s) at 2. f_equal. clear -Hc.
  induction (chars s) as [|x l IH]; [done|]. rewrite bind_cons, IH by set_solver.
  rewrite bool_decide_false; [done|]. set_solver.
Qed.

Lemma decimal_not_in c k n : is_decimal c = false → 0 ≤ n → c ∉ chars (zpad k n).
Proof. intros Hc Hn Hin. pose proof (zpad_decimal k n Hn) as H. eapply Forall_forall in H; [|exact Hin]. congruence. Qed.

Lemma isoformat_not_in c d : is_decimal c = false → c ≠ "-"%char → 1 ≤ d ≤ date_max → c ∉ chars (isoformat d).
Proof.
  intros Hc Hd Hr. unfold isoformat. pose proof (ord2ymd_spec d) as Hs. pose proof (ord2ymd_year_range d Hr) as Hy.
  destruct (ord2ymd d) as [[y m] e]. destruct Hs as (_ & Hm & He & _). cbn [fst] in Hy.
  rewrite !chars_app. change (chars "-") with ["-"%char]. rewrite !elem_of_app, !list_elem_of_singleton.
  intros [H|[H|[H|[H|H]]]]; [by apply decimal_not_in in H; [..|lia]|done|by apply decimal_not_in in H; [..|lia]|done|by apply decimal_not_in in H; [..|lia]].
Qed.

Lemma clock_not_in c s : is_decimal c = false → c ≠ ":"%char → 0 ≤ s < day_seconds → c ∉ chars (clock_text s).
Proof.
  intros Hc Hd Hs. unfold clock_text. rewrite !chars_app. change (chars ":") with [":"%char]. rewrite !elem_of_app, !list_elem_of_singleton.
  pose proof (Z.div_pos s 3600 ltac:(lia) ltac:(lia)). pose proof (Z.mod_pos_bound s 3600 ltac:(lia)).
  pose proof (Z.div_pos (s mod 3600) 60 ltac:(lia) ltac:(lia)). pose proof (Z.mod_pos_bound s 60 ltac:(lia)).
  intros [H3|[H3|[H3|[H3|H3]]]]; [by apply decimal_not_in in H3; [..|lia]|done|by apply decimal_not_in in H3; [..|lia]|done|by apply decimal_not_in in H3; [..|lia]].
Qed.

Lemma crm_time_eq t :
  1 ≤ t / day_seconds ≤ date_max →
  crm_time t = isoformat (t / day_seconds) +:+ "T" +:+ clock_text (t mod day_seconds) +:+ ".000+0000".
Proof.
  intros Ht. pose proof (Z.mod_pos_bound t day_seconds ltac:(done)) as Hm.
  unfold crm_time, ts2s, datetime_as_string. rewrite !replace_char_app.
  rewrite !(replace_char_none "T" " " (isoformat _)) by (by apply isoformat_not_in).
  rewrite !(replace_char_none "T" " " (clock_text _)) by (by apply clock_not_in).
  rewrite !(replace_char_none " " "T" (isoformat _)) by (by apply isoformat_not_in).
  rewrite !(replace_char_none " " "T" (clock_text _)) by (by apply clock_not_in).
  change (replace_char " " "T" (replace_char "T" " " "T")) with "T". by rewrite <- !string_app_assoc.
Qed.

(** Every stamp of the files is before the first simulated day. *)
Lemma crm_time_before t : day_seconds ≤ t ≤ end_midnight → str_lt (crm_time t) (_timestamp (END + 1)).
Proof.
  intros Ht. assert (1 ≤ t / day_seconds ≤ END) as Hd.
  { unfold end_midnight in Ht. split; [apply Z.div_le_lower_bound|apply Z.div_le_upper_bound]; unfold day_seconds in *; lia. }
  assert (END = 739821) as HE by by vm_compute. assert (date_max = 3652059) as HD by done.
  rewrite crm_time_eq by lia. apply isoformat_compare; lia.
Qed.

(** ** The files are a seed *)

Record crm_draws_ok (g : crm_draws) : Prop := {
  go_customers : Forall customer_draw_ok (g_customers g);
  go_accounts : length (g_accounts g) = length (g_customers g) ∧
                Forall (account_draw_ok (Z.of_nat (length (g_reps g)))) (g_accounts g);
  go_lost : Forall (λ c, in_bounds c 0 (Z.of_nat (length (g_customers g)))) (g_lost_cust g);
  go_orders : Forall order_draw_ok (g_orders g);
  go_opps : length (g_opps g) = length (opp_slots g) ∧
            Forall (opp_draw_ok (Z.of_nat (length (g_reps g))) (Z.of_nat (length (g_campaigns g)))) (g_opps g);
  go_numbers : Z.of_nat (length (g_customers g)) + 1 < 2 ^ 63 ∧ Z.of_nat (length (g_opps g)) + 1 < 2 ^ 63 }.

Lemma at_second_range i s : 0 ≤ i < n_days → 0 ≤ s → START * day_seconds ≤ at_second i s.
Proof. unfold at_second, day_at, day_seconds. lia. Qed.

Lemma cust_created_after d : customer_draw_ok d → START * day_seconds ≤ cust_created d.
Proof. intros H. apply at_second_range; [apply acq_off_range|]. destruct (cdo_second _ H). lia. Qed.

Lemma capped_stamp t : START * day_seconds ≤ t → str_lt (crm_time (Z.min t end_midnight)) (_timestamp (END + 1)).
Proof.
  intros Ht. apply crm_time_before. assert (START * day_seconds = 63808214400) as HS by (by vm_compute).
  assert (end_midnight = 63920534400) as HE by (by vm_compute). rewrite HS in Ht. rewrite HE. unfold day_seconds. lia.
Qed.

(** A slot is a customer and a day of the window. *)
Definition slot_ok (g : crm_draws) (slot : Z * Z) : Prop :=
  in_bounds slot.1 0 (Z.of_nat (length (g_customers g))) ∧ 0 ≤ slot.2 < n_days.

Lemma order_slot_ok g slot : slot ∈ slots g → slot_ok g slot.
Proof.
  intros (d & r & H0 & Hd & _ & E)%order_slots_spec. apply lookup_lt_Some in Hd. split; [unfold in_bounds; lia|].
  rewrite E. apply cdf_day_range.
Qed.

Lemma opp_slot_ok g slot : crm_draws_ok g → slot ∈ opp_slots g → slot_ok g slot.
Proof.
  intros Hg [H|H]%elem_of_app.
  - apply list_elem_of_fmap in H as (o & -> & [_ Ho]%list_elem_of_filter). cbn [fst snd].
    apply scaffolds_spec in Ho as (i & s & d & _ & Hs & _ & ->). by apply order_slot_ok in Hs.
  - apply list_elem_of_lookup in H as [k Hk]. rewrite lookup_zip_with_Some in Hk. destruct Hk as (u & c & -> & _ & Hc).
    split; [|apply cdf_day_range]. by apply (Forall_lookup_1 _ _ _ _ (go_lost _ Hg) Hc).
Qed.

Section Seed.
Context (of_float : f64 → pyval) (np_round : f64 → Z → f64) (g : crm_draws) (Hg : crm_draws_ok g).
Context (try_cast : string → option Z) (cast_numbers : ∀ n, 0 ≤ n < 2 ^ 63 → try_cast (pad_int 15 n) = Some n).

Lemma account_rows r :
  r ∈ pt_rows (accounts of_float g) →
  ∃ i c a, 0 ≤ i < Z.of_nat (length (g_customers g)) ∧ c ∈ g_customers g ∧ a ∈ g_accounts g ∧ r = account_row of_float g i c a.
Proof.
  intros (i & [c a] & Hi & Hl & ->)%elem_of_numbered. pose proof (lookup_lt_Some _ _ _ Hl) as Hlt.
  apply list_elem_of_lookup_2 in Hl. rewrite length_zip in Hlt. exists i, c, a. split_and!; [lia|lia| | |done].
  - by eapply elem_of_zip_l.
  - by eapply elem_of_zip_r.
Qed.

Lemma opportunity_rows r :
  r ∈ pt_rows (opportunities of_float np_round g) →
  ∃ i slot d, 0 ≤ i < Z.of_nat (length (g_opps g)) ∧ slot_ok g slot ∧ d ∈ g_opps g ∧ r = opportunity_row of_float np_round g i slot d.
Proof.
  intros (i & [slot d] & Hi & Hl & ->)%elem_of_numbered. pose proof (lookup_lt_Some _ _ _ Hl) as Hlt.
  apply list_elem_of_lookup_2 in Hl. rewrite length_zip in Hlt. exists i, slot, d. split_and!; [lia|lia| | |done].
  - apply opp_slot_ok; [done|]. by eapply elem_of_zip_l.
  - by eapply elem_of_zip_r.
Qed.

Lemma stamped_row t prefix i (r : crm_row) :
  String.length prefix = 3%nat → 0 ≤ i → i + 1 < 2 ^ 63 → r !! "Id" = Some (PStr (prefix +:+ zpad 15 (i + 1))) →
  r !! "LastModifiedDate" = Some (PStr t) → r !! "SystemModstamp" = Some (PStr t) →
  stamped try_cast t r ∧ id_number try_cast r = Some (i + 1).
Proof.
  intros Hp Hi Hlt Hid Hm Hs.
  assert (id_number try_cast r = Some (i + 1)) as Hn.
  { unfold id_number. rewrite Hid. pose proof (str_drop_app prefix (zpad 15 (i + 1))) as Hd. rewrite Hp in Hd. rewrite Hd.
    rewrite <- (cast_numbers (i + 1)) by lia. unfold pad_int. by rewrite (proj2 (Z.ltb_ge (i + 1) 0)) by lia. }
  split; [split|done].
  - eauto.
  - intros n E. rewrite Hn in E. injection E as <-. lia.
  - intros c Hc. repeat (apply elem_of_cons in Hc as [->|Hc]; [done|]). by apply elem_of_nil in Hc.
Qed.

Lemma account_stamped i c a :
  0 ≤ i < Z.of_nat (length (g_customers g)) →
  stamped try_cast (crm_time (crm_mod c a)) (account_row of_float g i c a) ∧
  id_number try_cast (account_row of_float g i c a) = Some (i + 1).
Proof.
  intros Hi. destruct (go_numbers _ Hg) as [Hn _]. unfold account_row.
  apply (stamped_row _ "001"); try done; try lia; by rewrite lookup_list_to_map.
Qed.

Lemma opportunity_stamped i slot d :
  0 ≤ i < Z.of_nat (length (g_opps g)) →
  stamped try_cast (crm_time (opp_mod_ts slot.2 d)) (opportunity_row of_float np_round g i slot d) ∧
  id_number try_cast (opportunity_row of_float np_round g i slot d) = Some (i + 1).
Proof.
  intros Hi. destruct (go_numbers _ Hg) as [_ Hn]. unfold opportunity_row.
  apply (stamped_row _ "006"); try done; try lia.
  all: apply table_row_lookup; [by apply (bool_decide_unpack _)|by rewrite lookup_list_to_map|done].
Qed.

Lemma NoDup_id_numbers (rows : list crm_row) : NoDup (id_number try_cast <$> rows) → NoDup (row_id <$> rows).
Proof.
  set (f := λ v : option pyval, match v with Some (PStr id) => try_cast (str_drop 3 id) | _ => None end).
  assert (id_number try_cast <$> rows = f <$> (row_id <$> rows)) as -> by (by rewrite <- list_fmap_compose).
  apply NoDup_fmap_1.
Qed.

Abbreviation files := (crm_files of_float np_round g).

Lemma accounts_ok : base_ok files try_cast END "accounts".
Proof.
  change (files "accounts") with (accounts of_float g). split; change (files "accounts") with (accounts of_float g).
  - intros c Hc Hor. destruct Hor as [?|Hne]; [done|]. cbn in Hc. cbn [pt_schema accounts]. unfold ACCOUNT_COLUMNS. set_solver.
  - apply NoDup_id_numbers.
    apply (NoDup_numbered (λ p, account_row of_float g p.1 p.2.1 p.2.2) (id_number try_cast) (λ n, default 0 n - 1)).
    intros i [c a] Hi Hin. cbn [fst snd]. rewrite length_zip in Hi.
    destruct (account_stamped i c a) as [_ ->]; [lia|]. cbn. lia.
  - intros r (i & c & a & Hi & Hc & Ha & ->)%account_rows. exists (crm_time (crm_mod c a)).
    split; [by apply account_stamped|]. apply capped_stamp.
    pose proof (cust_created_after c (proj1 (Forall_forall _ _) (go_customers _ Hg) c Hc)).
    destruct (proj1 (Forall_forall _ _) (proj2 (go_accounts _ Hg)) a Ha) as [[? _] _]. lia.
Qed.

Lemma opportunities_ok : base_ok files try_cast END "opportunities".
Proof.
  change (files "opportunities") with (opportunities of_float np_round g).
  split; change (files "opportunities") with (opportunities of_float np_round g).
  - intros c Hc _. cbn in Hc. cbn [pt_schema opportunities]. unfold OPPORTUNITY_COLUMNS. set_solver.
  - apply NoDup_id_numbers.
    apply (NoDup_numbered (λ p, opportunity_row of_float np_round g p.1 p.2.1 p.2.2) (id_number try_cast) (λ n, default 0 n - 1)).
    intros i [slot d] Hi Hin. cbn [fst snd]. rewrite length_zip in Hi.
    destruct (opportunity_stamped i slot d) as [_ ->]; [lia|]. cbn. lia.
  - intros r (i & slot & d & Hi & Hs & Hd & ->)%opportunity_rows. exists (crm_time (opp_mod_ts slot.2 d)).
    split; [by apply opportunity_stamped|]. apply capped_stamp. apply at_second_range; [apply Hs|].
    by destruct (ppo_modified _ _ _ (proj1 (Forall_forall _ _) (proj2 (go_opps _ Hg)) d Hd)).
Qed.

Lemma files_inv : store_inv files try_cast END END empty_crm.
Proof.
  split; [by vm_compute| |done..]. intros o Ho.
  apply elem_of_cons in Ho as [->|[->|Ho%elem_of_nil]%elem_of_cons]; [apply accounts_ok|apply opportunities_ok|done].
Qed.

Lemma next_number_le (rows : list crm_row) n : 0 ≤ n → (∀ r k, r ∈ rows → id_number try_cast r = Some k → k ≤ n) →
  next_number try_cast rows ≤ n + 1.
Proof.
  intros Hn Hr. unfold next_number.
  assert (∀ k, k ∈ omap (id_number try_cast) rows → k ≤ n) as Hl by (intros k (r & Hin & Hk)%list_elem_of_omap; eauto).
  destruct (omap (id_number try_cast) rows) as [|x l]; [lia|].
  assert (∀ x, x ≤ n → (∀ k, k ∈ l → k ≤ n) → foldl Z.max x l ≤ n) as Hf.
  { clear. induction l as [|y l IH]; intros x Hx Hl; [done|]. cbn. apply IH; [|intros; apply Hl; by right].
    pose proof (Hl y ltac:(left)). lia. }
  pose proof (Hf x (Hl x ltac:(left)) ltac:(intros; apply Hl; by right)). lia.
Qed.
End Seed.

(** C7: The generated baseline starts the simulation. Whatever the generator draws, its CRM files and
    no deltas are a store the simulator can continue from: on the day after the window, with any
    ranking and sampling of DuckDB and any seeded generator, the snapshot is read, the day planned
    and published, and the outcome is that of a regular day; the new records are numbered after the
    generated ones. *)
Theorem generated_baseline_simulates of_float np_round g root pick (H1 : Ranking pick) try_cast hash distinct R (H2 : Random R)
    p seed volume :
  crm_draws_ok g →
  (∀ n, 0 ≤ n < 2 ^ 63 → try_cast (pad_int 15 n) = Some n) →
  let base := crm_files of_float np_round g in
  let n_accounts := Z.of_nat (length (g_customers g)) in
  let n_opportunities := Z.of_nat (length (g_opps g)) in
  proportional_daily_volume p n_accounts = Ok volume →
  n_accounts + 1 + volume ≤ 2 ^ 63 → n_opportunities + 1 + new_opportunities_of volume ≤ 2 ^ 63 →
  ∃ snap events s',
    read root base pick try_cast hash distinct p seed empty_crm = Ok snap ∧
    plan p (END + 1) seed snap = Ok events ∧
    publish root base pick (END + 1) events empty_crm = (s', Ok (day_parts root (END + 1))) ∧
    day_outcome root base pick try_cast END (END + 1) empty_crm events s'.
Proof.
  intros Hg Hcast base na no Hvol Ha Ho.
  assert (_relation root base pick "accounts" empty_crm = pt_rows (accounts of_float g)) as Ea by done.
  assert (_relation root base pick "opportunities" empty_crm = pt_rows (opportunities of_float np_round g)) as Eo by done.
  apply (crm_day_publishes root base pick H1 try_cast hash distinct R H2 p END END (END + 1) seed empty_crm volume).
  - exact Hcast.
  - by apply files_inv.
  - by vm_compute.
  - rewrite Ea. cbn [pt_rows accounts]. rewrite length_fmap, length_enumerate_from, length_zip.
    destruct (go_accounts _ Hg) as [El _]. rewrite El, Nat.min_id. exact Hvol.
  - rewrite Ea. etrans; [|exact Ha]. apply Z.add_le_mono_r, next_number_le; [unfold na; lia|].
    intros r k (i & c & a & Hi & _ & _ & ->)%account_rows.
    destruct (account_stamped of_float g Hg try_cast Hcast i c a Hi) as [_ ->]. intros [= <-]. unfold na. lia.
  - rewrite Eo. etrans; [|exact Ho]. apply Z.add_le_mono_r, next_number_le; [unfold no; lia|].
    intros r k (i & slot & d & Hi & _ & _ & ->)%opportunity_rows; [|done].
    destruct (opportunity_stamped of_float np_round g Hg try_cast Hcast i slot d Hi) as [_ ->]. intros [= <-]. unfold no. lia.
Qed.

(** ** A small baseline *)

Definition example_customers : list customer_draw :=
  [mkCustomerDraw 100 false "Enterprise" "EMEA" 2000 10 0 0 36000 "Retail" 6000 400 20 300 30 1000;
   mkCustomerDraw 1300 false "SMB" "APAC" 30 0 5 3 30000 "Energy" 6000 400 20 300 45 5000].
Definition example_draws : crm_draws :=
  mkCrmDraws [mkRepDraw 10 false false 300 "EMEA"] [mkCampaignDraw 5 30 "GLOBAL" "ALL"] example_customers
    [mkAccountDraw 4000 0 "Partner" (f64_of_Z 5000); mkAccountDraw 900 0 "Partner" (f64_of_Z 7000)]
    example_cdf [2; 1] [f64_ratio 1 2; f64_ratio 1 4; f64_ratio 1 3]
    [mkOrderDraw false "INVOICED" false "DIRECT" 30000 500 true 5 None; mkOrderDraw true "SHIPPED" false "PARTNER" 40000 500 true 5 (Some 77);
     mkOrderDraw false "PENDING" true "ECOMM" 50000 500 true 10 None]
    [f64_ratio 1 5; f64_ratio 2 5] [0; 1]
    [mkOppDraw 30 0 "Proposal" (f64_of_Z 40) (f64_of_Z 900) "Trade Show" 0 "Price" false 30000 100 "Renewal";
     mkOppDraw 30 0 "Proposal" (f64_of_Z 3) (f64_of_Z 900) "Marketing Campaign" 0 "Price" true 30000 100 "Upsell";
     mkOppDraw 60 0 "Proposal" (f64_of_Z 3) (f64_of_Z 900) "Trade Show" 0 "Price" true 30000 100 "Upsell";
     mkOppDraw 90 0 "Qualification" (f64_of_Z 3) (f64_of_Z 900) "Trade Show" 0 "Timing" true 30000 100 "Refresh"] [3].

Lemma example_draws_ok : crm_draws_ok example_draws.
Proof.
  split.
  - repeat constructor; unfold in_bounds; cbn; try lia; try set_solver.
  - split; [done|]. repeat constructor; unfold in_bounds; cbn; try lia.
  - repeat constructor; unfold in_bounds; cbn; lia.
  - repeat constructor; unfold in_bounds; cbn; try lia; try set_solver.
  - split; [by vm_compute|]. repeat constructor; unfold in_bounds; cbn; try lia; try set_solver.
  - by vm_compute.
Qed.

Example example_files :
  (λ r : crm_row, (r !! "Id", r !! "StageName", r !! "CloseDate", r !! "LossReason")) <$>
    pt_rows (opportunities (λ _, PNone) (λ x _, x) example_draws) =
  [(Some (PStr "006000000000000001"), Some (PStr "Closed Won"), Some (PStr "2024-02-09"), None);
   (Some (PStr "006000000000000002"), Some (PStr "Closed Won"), Some (PStr "2024-12-10"), None);
   (Some (PStr "006000000000000003"), Some (PStr "Closed Lost"), Some (PStr "2023-09-26"), Some (PStr "Price"));
   (Some (PStr "006000000000000004"), Some (PStr "Closed Lost"), Some (PStr "2024-06-11"), Some (PStr "Timing"))].
Proof. vm_compute. reflexivity. Qed.

Lemma generated_baseline_simulates_witness :
  let base := crm_files (λ _, PNone) (λ x _, x) example_draws in
  ∃ snap events s',
    read "crm" base rank bigint order_hash remove_dups default_policy 42 empty_crm = Ok snap ∧
    plan (R:=MT19937.state) default_policy (END + 1) 42 snap = Ok events ∧
    publish "crm" base rank (END + 1) events empty_crm = (s', Ok (day_parts "crm" (END + 1))) ∧
    day_outcome "crm" base rank bigint END (END + 1) empty_crm events s'.
Proof.
  apply (generated_baseline_simulates (λ _, PNone) (λ x _, x) example_draws "crm" rank rank_ranking bigint order_hash remove_dups
    MT19937.state mersenne_twister default_policy 42 1 example_draws_ok bigint_numbers); by vm_compute.
Defined.

(** An account acquired on the last day is stamped as modified before it was created; on the other
    days it is not. *)
Theorem account_modified_before_created c a n_rep :
  customer_draw_ok c → account_draw_ok n_rep a →
  crm_mod c a < cust_created c ↔ acq_off c = n_days - 1.
Proof.
  intros Hc [Ha _]. pose proof (acq_off_range c) as Hr. destruct (cdo_second _ Hc) as [H1 H2]. destruct Ha as [H3 _].
  unfold crm_mod, cust_created, end_midnight, at_second, day_at, day_seconds in *. unfold n_days in *. lia.
Qed.
