(* ===== verification/GenOps.v ===== *)
(** * The generated operations: [generator/generate.py], products, orders, lines, shipments, cases

    The rows of the operational baseline. [np_round] is NumPy's rounding and [float32] the
    conversion to single precision; both are applied where the code applies them and nothing is
    assumed about them. *)

From stdpp Require Import prelude gmap strings list sorting.
From Stdlib Require Import ZArith Lia Ascii Floats.SpecFloat.
From S2P Require Import Prelude PyText Dates PyNum Events NumPy GenCalendar GenCustomers GenCrm.

Open Scope Z_scope.

Definition WORDS_A : list string :=
  ["Aurora"; "Vertex"; "Halcyon"; "Meridian"; "Quarry"; "Lumen"; "Cinder"; "Pallas"; "Onyx"; "Tessera"; "Corvid"; "Beacon";
   "Slate"; "Ardent"; "Kestrel"; "Foundry"; "Alloy"; "Radian"; "Umbra"; "Talon"].
Definition WORDS_B : list string :=
  ["Core"; "Pro"; "Edge"; "Max"; "Lite"; "Node"; "Rack"; "Grid"; "Sync"; "Vault"; "Relay"; "Forge"; "Prism"; "Anchor"; "Link"].

(** ** Draws *)

Record product_draw := mkProductDraw {
  pr_cat : Z;          (* rng.choice(len(CATEGORIES)) *)
  pr_launch : Z;       (* (rng.beta(0.7, 3.2) * n_days) as an integer *)
  pr_first : bool;     (* rng.random() < 0.45 *)
  pr_aurora : bool;    (* rng.random() < 0.30 *)
  pr_disc : bool;      (* rng.random() < 0.14 *)
  pr_disc_after : Z;   (* rng.integers(300, 1000) *)
  pr_price : f64;      (* np.round(np.exp(rng.normal(6.0, 1.15)) + 29, 2) *)
  pr_margin : f64;     (* CATEGORY_MARGIN[c] * rng.normal(1.0, 0.09) *)
  pr_number : Z }.     (* rng.integers(100, 999) *)
Record product_draw_ok (d : product_draw) : Prop := {
  pro_cat : in_bounds (pr_cat d) 0 5;
  pro_after : in_bounds (pr_disc_after d) 300 1000;
  pro_price : f64_nonneg (pr_price d) = true }.

Record line_draw := mkLineDraw {
  ld_beta : f64;       (* rng.beta(1.0, 1.6) *)
  ld_qty : Z;          (* rng.poisson(...) *)
  ld_disc : f64;       (* rng.normal(0, 1.4) *)
  ld_updated : Z;      (* rng.integers(0, 48 * 3600) *)
  ld_reprice : bool }. (* rng.random() < 0.22 *)
Record line_draw_ok (d : line_draw) : Prop := {
  ldo_qty : 0 ≤ ld_qty d;
  ldo_updated : in_bounds (ld_updated d) 0 (48 * 3600) }.

Record shipment_draw := mkShipmentDraw {
  sd_wh : Z;           (* rng.choice of the region's warehouses *)
  sd_level : Z;        (* rng.choice(len(SERVICE_LEVELS)) *)
  sd_lag : Z;          (* rng.integers(0, 4) *)
  sd_squeeze : Z;      (* rng.integers(2, 9) *)
  sd_post : Z;         (* rng.choice(carrier_codes), either mix *)
  sd_pre : Z;
  sd_distance : f64;
  sd_weight : f64;
  sd_punctual : f64;   (* rng.random() *)
  sd_early : Z;        (* rng.integers(0, 2) *)
  sd_late : Z;         (* rng.integers(1, 9) *)
  sd_freight : f64;    (* rng.normal(1, 0.11) *)
  sd_packages : Z;     (* rng.poisson(1.1) *)
  sd_tracking : Z }.   (* rng.integers(1, 10 ** 12) *)
Record shipment_draw_ok (d : shipment_draw) : Prop := {
  sdo_wh : in_bounds (sd_wh d) 0 2;
  sdo_level : in_bounds (sd_level d) 0 3;
  sdo_lag : in_bounds (sd_lag d) 0 4;
  sdo_squeeze : in_bounds (sd_squeeze d) 2 9;
  sdo_carrier : in_bounds (sd_post d) 0 5 ∧ in_bounds (sd_pre d) 0 5;
  sdo_distance : f64_nonneg (sd_distance d) = true;
  sdo_delay : in_bounds (sd_early d) 0 2 ∧ in_bounds (sd_late d) 1 9;
  sdo_packages : 0 ≤ sd_packages d }.

Record case_draw := mkCaseDraw {
  ca_priority : string;
  ca_hours : f64;      (* rng.gamma(2.4, base_hours / 2.4) *)
  ca_csat : Z;         (* np.clip(np.round(...), 1, 5) *)
  ca_open : bool;      (* rng.random() < 0.045 *)
  ca_silent : bool;    (* rng.random() < 0.42 *)
  ca_second : Z;       (* rng.integers(0, 86400) *)
  ca_type : string;
  ca_channel : string;
  ca_status : string }.
Record case_draw_ok (d : case_draw) : Prop := {
  cao_priority : ca_priority d ∈ CASE_PRIORITIES;
  cao_csat : 1 ≤ ca_csat d ≤ 5;
  cao_second : in_bounds (ca_second d) 0 day_seconds;
  cao_status : ca_status d ∈ ["Resolved"; "Closed"] }.

Record ops_draws := mkOpsDraws {
  h_products : list product_draw;
  h_line_counts : list Z;             (* rng.poisson(np.maximum(basket - 1, 0.2)), per order *)
  h_lines : list line_draw;
  h_shipments : list shipment_draw;
  h_case_counts : list Z;             (* rng.poisson(case_rate), per customer *)
  h_cases_u : list f64;
  h_cases : list case_draw }.

Section Tables.
Context (np_round : f64 → Z → f64) (float32 : f64 → f64) (rates : string → list f64).
Context (g : crm_draws) (h : ops_draws).

(** [rounded] *)
Definition rounded (x : f64) (ccy : string) : f64 := np_round x (default 2 (aget ccy MINOR_UNITS)).
Definition fmt_money (x : f64) (ccy : string) : f64 := rounded x ccy.

(** ** Products *)

Definition category_of (d : product_draw) : string := at_pos CATEGORIES "" (pr_cat d).
Definition is_aurora (d : product_draw) : bool := String.eqb (category_of d) "Software License" && pr_aurora d.
Definition launch_off (d : product_draw) : Z :=
  if is_aurora d then EV_AURORA_LAUNCH - START
  else if pr_first d then 0 else np_clip (pr_launch d) 0 (n_days - 40).
Definition disc_off (d : product_draw) : Z := np_clip (launch_off d + pr_disc_after d) 0 (n_days - 1).
Definition disc_flag (d : product_draw) : bool := pr_disc d && (disc_off d <? n_days - 1).
Definition base_price (d : product_draw) : f64 := f64_clip (pr_price d) (f64_of_Z 19) (f64_of_Z 96000).
Definition unit_cost (d : product_draw) : f64 :=
  let margin := f64_clip (pr_margin d) (f64_literal 6 (-2)) (f64_literal 94 (-2)) in
  np_round (f64_mul (base_price d) (f64_sub (f64_of_Z 1) margin)) 2.

Record product := mkProduct {
  product_id : Z; sku : string; product_name : string; category : string; product_family : string; list_price_usd : f64;
  standard_cost_usd : f64; launch_date : date; is_discontinued : bool; discontinued_on : option date; p_created_at : Z; p_updated_at : Z }.

Definition make_product (i : Z) (d : product_draw) : product :=
  let launch := day_at (launch_off d) in
  let c := category_of d in
  mkProduct (i + 1) ("NW-" +:+ upper (str (take 2 (chars c))) +:+ "-" +:+ zpad 5 (i + 1))
    (pick_mod WORDS_A i +:+ " " +:+ pick_mod WORDS_B (i * 7) +:+ " " +:+ str_of_Z (pr_number d)) c
    (if is_aurora d then "Aurora" else if pr_cat d mod 2 =? 0 then "Core" else "Extended")
    (base_price d) (unit_cost d) launch (disc_flag d) (if disc_flag d then Some (day_at (disc_off d)) else None)
    (launch * day_seconds + 2 * 3600) (launch * day_seconds + 2 * 3600).
Definition products : list product := (λ p, make_product p.1 p.2) <$> enumerate_from 0 (h_products h).

(** ** Orders *)

(** [has_opp] numbers the orders that come from an opportunity. *)
Fixpoint opp_refs (k : Z) (l : list scaffold) : list (option Z) :=
  match l with
  | [] => []
  | o :: l => if has_opp o then Some k :: opp_refs (k + 1) l else None :: opp_refs k l
  end.

Definition no_opp : opp_draw := mkOppDraw 5 0 "" (f64_of_Z 0) (f64_of_Z 0) "" 0 "" false 0 0 "".
Definition opp_at (k : Z) : opp_draw := at_pos (g_opps g) no_opp k.

(** [o_discount] *)
Definition order_discount (o : scaffold) (ref : option Z) : f64 :=
  match ref with Some k => discount_of np_round (o_region o) (o_day o) (opp_at k) | None => S754_zero false end.

Record order := mkOrder {
  order_id : Z; or_customer : Z; opportunity_ref : option string; or_rep : option string; order_date : date;
  requested_delivery_date : date; currency_code : string; status : string; sales_channel : string; order_discount_pct : f64;
  po_number : option string; or_created_at : Z; or_updated_at : Z }.

Definition make_order (o : scaffold) (ref : option Z) : order :=
  mkOrder (o_id o) (o_cust o + 1) (crm_opp_id <$> ref) ((λ k, rep_at g (pp_rep (opp_at k))) <$> ref) (day_at (o_day o))
    (o_requested o) (o_ccy o) (o_status o) (o_channel o) (np_round (order_discount o ref) 1) (o_po o) (o_created o) (o_updated o).
Definition order_refs : list (scaffold * option Z) := zip (orders g) (opp_refs 0 (orders g)).
Definition order_rows : list order := (λ p, make_order p.1 p.2) <$> order_refs.

(** ** Order lines *)

Definition launches : list Z := launch_off <$> h_products h.
Definition launch_sorted : list Z := sort_by Z.leb launches.
Definition prod_by_launch : list Z := (argsort launches).*1.

(** The product of a line: one of those launched by the day of the order. *)
Definition n_avail (day : Z) : Z := Z.max (searchsorted_right Z.leb launch_sorted day) 1.
Definition line_product (day : Z) (d : line_draw) : Z :=
  at_pos prod_by_launch 0 (Z.min (f64_trunc (f64_mul (ld_beta d) (f64_of_Z (n_avail day)))) (n_avail day - 1)).

Definition no_product : product_draw := mkProductDraw 0 0 true false false 300 (f64_of_Z 19) (f64_of_Z 0) 100.
Definition product_at (k : Z) : product_draw := at_pos (h_products h) no_product k.

Definition line_price (o : scaffold) (prod : Z) : f64 :=
  let day := day_at (o_day o) in
  let price_usd := base_price (product_at prod) in
  let price_usd := if String.eqb (category_of (product_at prod)) "Hardware" && (EV_PRICE_RISE <=? day)
                   then f64_mul price_usd (f64_literal 107 (-2)) else price_usd in
  let unit_price := f64_div price_usd (fx_daily rates (o_ccy o) (o_day o)) in
  let jpy_bug := String.eqb (o_ccy o) "JPY" && (EV_JPY_REGRESSION_A <=? day) && (day <=? EV_JPY_REGRESSION_B) in
  rounded (if jpy_bug then f64_mul unit_price (f64_of_Z 100) else unit_price) (o_ccy o).
Definition line_discount (o : scaffold) (ref : option Z) (d : line_draw) : f64 :=
  np_round (f64_clip (f64_add (order_discount o ref) (ld_disc d)) (f64_of_Z 0) (f64_of_Z 45)) 2.
Definition line_quantity (d : line_draw) : Z := 1 + ld_qty d.
Definition line_amount (o : scaffold) (ref : option Z) (d : line_draw) (prod : Z) : f64 :=
  let share := f64_sub (f64_of_Z 1) (f64_div (line_discount o ref d) (f64_of_Z 100)) in
  rounded (f64_mul (f64_mul (line_price o prod) (f64_of_Z (line_quantity d))) share) (o_ccy o).
Definition line_updated (o : scaffold) (d : line_draw) : Z :=
  if (day_at (o_day o) <? EV_BULK_REPRICE / day_seconds) && ld_reprice d then EV_BULK_REPRICE else o_created o + ld_updated d.

(** A line before it is numbered. *)
Record line := mkLine {
  li_pos : Z; li_order : Z; li_product : Z; li_quantity : Z; li_price : f64; li_discount : f64; li_amount : f64; li_cost : f64;
  li_created : Z; li_updated : Z }.

Definition make_line (pos : Z) (o : scaffold) (ref : option Z) (d : line_draw) : line :=
  let prod := line_product (o_day o) d in
  mkLine pos (o_id o) (prod + 1) (line_quantity d) (line_price o prod) (line_discount o ref d) (line_amount o ref d prod)
    (unit_cost (product_at prod)) (o_created o) (line_updated o d).

(** [line_order_pos] pairs each line with the position of its order. *)
Definition all_lines : list line :=
  let rows := np_repeat (enumerate_from 0 order_refs) ((λ n, 1 + n) <$> h_line_counts h) in
  zip_with (λ (r : Z * (scaffold * option Z)) d, make_line r.1 r.2.1 r.2.2 d) rows (h_lines h).

(** [drop_duplicates(subset=["order_id", "product_id"], keep="first")] *)
Fixpoint drop_duplicates (seen : list (Z * Z)) (l : list line) : list line :=
  match l with
  | [] => []
  | x :: l => if bool_decide ((li_order x, li_product x) ∈ seen) then drop_duplicates seen l
              else x :: drop_duplicates ((li_order x, li_product x) :: seen) l
  end.
Definition kept_lines : list line := drop_duplicates [] all_lines.

Record order_line := mkOrderLine {
  order_line_id : Z; ol_order : Z; ol_product : Z; quantity : Z; unit_price : f64; discount_pct : f64; ol_amount : f64;
  unit_cost_usd : f64; ol_created_at : Z; ol_updated_at : Z }.
Definition make_order_line (ccy : string) (i : Z) (l : line) : order_line :=
  mkOrderLine i (li_order l) (li_product l) (li_quantity l) (fmt_money (li_price l) ccy)
    (float32 (np_round (li_discount l) 2)) (fmt_money (li_amount l) ccy) (float32 (li_cost l)) (li_created l) (li_updated l).

Definition no_order : scaffold := mkScaffold 0 0 0 "" "" "" "" "" 0 0 false 0 None.
Definition order_at (pos : Z) : scaffold := at_pos (orders g) no_order pos.
Definition order_lines : list order_line :=
  (λ p, make_order_line (o_ccy (order_at (li_pos p.2))) p.1 p.2) <$> enumerate_from 1 kept_lines.

(** [order_total] *)
Definition order_totals : list f64 :=
  np_bincount (Z.of_nat (length (orders g))) ((λ l, (li_pos l, li_amount l)) <$> kept_lines).

(** ** Shipments *)

Definition shipworthy (o : scaffold) : bool := String.eqb (o_status o) "SHIPPED" || String.eqb (o_status o) "INVOICED".
Definition ship_orders : list scaffold := filter (λ o, shipworthy o = true) (orders g).

(** [wh_for_region[r]] *)
Definition wh_for_region (r : string) : list string :=
  match filter (λ w : string * string, w.2 = r) WAREHOUSES with [] => WAREHOUSES.*1 | pool => pool.*1 end.
Definition shipment_warehouse (o : scaffold) (d : shipment_draw) : string :=
  pick_mod (wh_for_region (o_region o)) (sd_wh d).

Definition level_of (d : shipment_draw) : string * Z * f64 := at_pos SERVICE_LEVELS ("", 0, f64_of_Z 0) (sd_level d).
Definition in_squeeze (day : Z) : bool := (EV_SUPPLY_SQUEEZE_A <=? day_at day) && (day_at day <=? EV_SUPPLY_SQUEEZE_B).

(** The day before the shortage is taken into account, and [ship_day]. *)
Definition planned_ship_day (o : scaffold) (d : shipment_draw) : Z := Z.min (o_day o + sd_lag d) (n_days - 1).
Definition ship_day (o : scaffold) (d : shipment_draw) : Z :=
  let day := planned_ship_day o d in Z.min (day + (if in_squeeze day then sd_squeeze d else 0)) (n_days - 1).

Definition carrier_of (day : Z) (d : shipment_draw) : string * f64 * f64 :=
  at_pos CARRIERS ("", f64_of_Z 0, f64_of_Z 0) (if EV_CARRIER_SWITCH <=? day_at day then sd_post d else sd_pre d).

Definition far_away (r : string) : bool := String.eqb r "APAC" || String.eqb r "EMEA".
Definition distance_km (o : scaffold) (d : shipment_draw) : f64 :=
  if far_away (o_region o) then f64_mul (sd_distance d) (f64_literal 125 (-2)) else sd_distance d.

Definition promised_day (o : scaffold) (d : shipment_draw) : Z :=
  ship_day o d + (level_of d).1.2 + f64_trunc (f64_div (distance_km o d) (f64_of_Z 900)).

Definition punctual (o : scaffold) (d : shipment_draw) : bool :=
  let day := ship_day o d in
  let m := month_of (day_at day) in
  let winter := (m =? 1) || (m =? 2) || (m =? 12) in
  let otd := f64_mul (carrier_of day d).2 (factor_where (winter && String.eqb (o_region o) "NA-EAST") 88) in
  let otd := f64_mul otd (factor_where (m =? 12) 93) in
  let otd := f64_mul otd (factor_where (in_squeeze (planned_ship_day o d)) 94) in
  f64_ltb (sd_punctual d) (f64_clip otd (f64_literal 4 (-1)) (f64_literal 995 (-3))).

Definition delivered_day (o : scaffold) (d : shipment_draw) : Z :=
  let delay := if punctual o d then - sd_early d else sd_late d in
  np_clip (promised_day o d + delay) (ship_day o d + 1) (n_days - 1).
Definition delivered_known (o : scaffold) (d : shipment_draw) : bool := day_at (delivered_day o d) <=? END.

Definition freight_cost (o : scaffold) (d : shipment_draw) : f64 :=
  let base := f64_add (f64_add (f64_literal 64 (-1)) (f64_mul (distance_km o d) (f64_literal 135 (-4))))
                      (f64_mul (sd_weight d) (f64_literal 42 (-2))) in
  let cost := f64_mul (f64_mul base (carrier_of (ship_day o d) d).1.2) (level_of d).2 in
  let cost := f64_mul (f64_mul cost (factor_where (EV_CARRIER_SWITCH <=? day_at (ship_day o d)) 94)) (sd_freight d) in
  float32 (f64_max (np_round cost 2) (f64_of_Z 3)).

Record shipment := mkShipment {
  shipment_id : Z; sh_order : Z; warehouse_code : string; carrier_code : string; service_level : string; ship_date : date;
  promised_delivery_date : date; delivered_date : option date; package_count : Z; gross_weight_kg : f64; sh_distance : f64;
  freight_cost_usd : f64; tracking_number : string; sh_created_at : Z; sh_updated_at : Z }.

Definition make_shipment (i : Z) (o : scaffold) (d : shipment_draw) : shipment :=
  let day := ship_day o d in
  mkShipment (i + 1) (o_id o) (shipment_warehouse o d) (carrier_of day d).1.1 (level_of d).1.1 (day_at day)
    (day_at (Z.min (promised_day o d) (n_days - 1)))
    (if delivered_known o d then Some (day_at (delivered_day o d)) else None)
    (1 + sd_packages d) (float32 (sd_weight d)) (float32 (distance_km o d)) (freight_cost o d)
    ("1Z" +:+ zpad 12 (sd_tracking d)) (at_second day (8 * 3600))
    (if delivered_known o d then at_second (delivered_day o d) (17 * 3600) else at_second day (8 * 3600)).
Definition shipments : list shipment :=
  (λ p, make_shipment p.1 p.2.1 p.2.2) <$> enumerate_from 0 (zip ship_orders (h_shipments h)).

(** ** Support cases *)

(** The customer and the day of each case. *)
Definition case_slots : list (Z * Z) :=
  let case_cust := np_repeat (enumerate_from 0 (g_customers g)) (h_case_counts h) in
  zip_with (λ c r, (c.1, lifetime_day (g_cdf g) (acq_off c.2) (active_end c.2) r)) case_cust (h_cases_u h).

Definition res_hours (region : string) (day : Z) (d : case_draw) : f64 :=
  let apac_reorg := String.eqb region "APAC" && (EV_APAC_SUPPORT_REORG <=? day_at day) in
  np_round (f64_mul (ca_hours d) (factor_where apac_reorg 215)) 2.

Record support_case := mkCase {
  case_id : Z; ca_customer : Z; case_type : string; priority : string; channel : string; opened_at : Z;
  resolution_hours : option f64; case_status : string; csat_score : option Z; assigned_region : string;
  ca_created_at : Z; ca_updated_at : Z }.

Definition make_case (i : Z) (slot : Z * Z) (d : case_draw) : support_case :=
  let region := cd_region (at_pos (g_customers g) no_customer slot.1) in
  let opened := at_second slot.2 (ca_second d) in
  let hours := res_hours region slot.2 d in
  mkCase (i + 1) (slot.1 + 1) (ca_type d) (ca_priority d) (ca_channel d) opened
    (if ca_open d then None else Some (float32 hours)) (if ca_open d then "Open" else ca_status d)
    (if ca_open d || ca_silent d then None else Some (ca_csat d)) region opened
    (if ca_open d then opened else opened + f64_round (f64_mul hours (f64_of_Z 3600))).
Definition support_cases : list support_case :=
  (λ p, make_case p.1 p.2.1 p.2.2) <$> enumerate_from 0 (zip case_slots (h_cases h)).
End Tables.
