(* ===== verification/GenOpsFacts.v ===== *)
(** * What the generated operations promise: [sql/migrations/ops] over [generator/generate.py]

    The keys, references and checks of the operational schema, and the proof that every generated
    baseline satisfies them; the checks on amounts, weights and discounts are not in it. *)

From stdpp Require Import prelude gmap strings list sorting.
From Stdlib Require Import ZArith Lia Ascii Floats.SpecFloat.
From S2P Require Import Prelude PyText Dates PyNum Events CrmFacts NumPy GenCalendar GenCustomers GenCrm GenOps.

Open Scope Z_scope.

(** ** The constraints of the schema *)

Section Constraints.
Context (cs : list customer) (ps : list product) (os : list order) (ls : list order_line) (ss : list shipment) (ca : list support_case).

Record customer_checks (c : customer) : Prop := {
  cc_company : company_code c ∈ ["US01"; "CA01"; "GB01"; "DE01"; "JP01"];
  cc_segment : segment c ∈ SEGMENTS;
  cc_region : region c ∈ REGIONS;
  cc_terms : payment_terms_days c ∈ [15; 30; 45; 60; 90];
  cc_employees : 0 < employees c;
  cc_dates : c_created_at c ≤ c_updated_at c }.

Record product_checks (p : product) : Prop := {
  pc_category : category p ∈ CATEGORIES;
  pc_price : f64_ltb (f64_of_Z 0) (list_price_usd p) = true;
  pc_discontinued : match discontinued_on p with
                    | Some d => is_discontinued p = true ∧ launch_date p ≤ d
                    | None => is_discontinued p = false
                    end;
  pc_dates : p_created_at p ≤ p_updated_at p }.

Record order_checks (o : order) : Prop := {
  oc_customer : or_customer o ∈ customer_id <$> cs;
  oc_status : status o ∈ ["PENDING"; "SHIPPED"; "INVOICED"; "CANCELLED"];
  oc_channel : sales_channel o ∈ ["DIRECT"; "PARTNER"; "ECOMM"];
  oc_currency : currency_code o ∈ CURRENCIES;
  oc_requested : order_date o ≤ requested_delivery_date o;
  oc_dates : or_created_at o ≤ or_updated_at o }.

Record line_checks (l : order_line) : Prop := {
  lc_order : ol_order l ∈ order_id <$> os;
  lc_product : ol_product l ∈ product_id <$> ps;
  lc_quantity : 0 < quantity l;
  lc_dates : ol_created_at l ≤ ol_updated_at l }.

Record shipment_checks (s : shipment) : Prop := {
  sc_order : sh_order s ∈ order_id <$> os;
  sc_warehouse : warehouse_code s ∈ WAREHOUSES.*1;
  sc_carrier : carrier_code s ∈ (λ c : string * f64 * f64, c.1.1) <$> CARRIERS;
  sc_service : service_level s ∈ ["STANDARD"; "EXPEDITED"; "ECONOMY"];
  sc_promise : ship_date s ≤ promised_delivery_date s;
  sc_delivered : ∀ d, delivered_date s = Some d → ship_date s ≤ d;
  sc_packages : 0 < package_count s;
  sc_dates : sh_created_at s ≤ sh_updated_at s }.

Record case_checks (c : support_case) : Prop := {
  kc_customer : ca_customer c ∈ customer_id <$> cs;
  kc_priority : priority c ∈ CASE_PRIORITIES;
  kc_status : case_status c ∈ ["Open"; "Resolved"; "Closed"];
  kc_csat : ∀ n, csat_score c = Some n → 1 ≤ n ≤ 5;
  kc_open : case_status c ≠ "Open" ∨ resolution_hours c = None;
  kc_dates : ca_created_at c ≤ ca_updated_at c }.

Record ops_constraints : Prop := {
  pk_customers : NoDup (customer_id <$> cs);
  uq_customers : NoDup (account_number <$> cs);
  ck_customers : Forall customer_checks cs;
  pk_products : NoDup (product_id <$> ps);
  uq_products : NoDup (sku <$> ps);
  ck_products : Forall product_checks ps;
  pk_orders : NoDup (order_id <$> os);
  ck_orders : Forall order_checks os;
  pk_lines : NoDup (order_line_id <$> ls);
  uq_lines : NoDup ((λ l, (ol_order l, ol_product l)) <$> ls);
  ck_lines : Forall line_checks ls;
  pk_shipments : NoDup (shipment_id <$> ss);
  uq_shipments : NoDup (sh_order <$> ss);
  ck_shipments : Forall shipment_checks ss;
  pk_cases : NoDup (case_id <$> ca);
  ck_cases : Forall case_checks ca }.
End Constraints.

(** ** Draws in their ranges *)

Record ops_draws_ok (h : ops_draws) : Prop := {
  ho_products : Forall product_draw_ok (h_products h) ∧ h_products h ≠ [];
  ho_lines : Forall line_draw_ok (h_lines h) ∧ Forall (λ d, f64_plus (ld_beta d) = true) (h_lines h);
  ho_shipments : Forall shipment_draw_ok (h_shipments h);
  ho_cases : Forall case_draw_ok (h_cases h) ∧ Forall (λ d, f64_plus (ca_hours d) = true) (h_cases h) }.

(** NumPy's rounding keeps the sign. *)
Definition rounds_up_zero (np_round : f64 → Z → f64) : Prop := ∀ x k, f64_plus x = true → f64_plus (np_round x k) = true.

Lemma Forall_in {A} (P : A → Prop) l x : Forall P l → x ∈ l → P x.
Proof. intros H Hx. by eapply Forall_forall in H. Qed.

(** ** Customers and products *)

Lemma region_company r : r ∈ REGIONS → dict_get REGION_COMPANY r ∈ ["US01"; "CA01"; "GB01"; "DE01"; "JP01"].
Proof. intros H. unfold REGIONS in H. repeat (apply elem_of_cons in H as [->|H]; [vm_compute; set_solver|]). by apply elem_of_nil in H. Qed.

Lemma customers_constraints draws :
  Forall customer_draw_ok draws →
  NoDup (customer_id <$> customers draws) ∧ NoDup (account_number <$> customers draws) ∧ Forall customer_checks (customers draws).
Proof.
  intros Hd. split_and!.
  - apply (NoDup_numbered _ customer_id (λ n, n - 1)). intros i x Hi _. cbn. lia.
  - apply (NoDup_numbered _ account_number (λ s, default 0 (digits_of s) - 1)). intros i x Hi Hx.
    cbn [fst snd make_customer account_number]. rewrite acct_ops_digits; [cbn; lia|lia|]. by apply cdo_variant, (Forall_in _ draws).
  - apply Forall_forall. intros c (i & d & Hi & Hl & ->)%elem_of_numbered. apply list_elem_of_lookup_2 in Hl.
    destruct (Forall_in _ _ _ Hd Hl). destruct cdo_employees as (? & ? & ? & ?). unfold in_bounds in *.
    split; cbn; try done; [by apply region_company| |lia].
    unfold employee_count. repeat case_match; lia.
Qed.

Lemma clip_positive x lo hi :
  f64_nonneg x = true → f64_nonneg lo = true → f64_ltb (f64_of_Z 0) lo = true → f64_ltb (f64_of_Z 0) hi = true →
  f64_ltb (f64_of_Z 0) (f64_clip x lo hi) = true.
Proof.
  intros Hx Hl Hlo Hhi. unfold f64_clip, f64_min, f64_max.
  assert (f64_ltb (f64_of_Z 0) (if f64_ltb x lo then lo else x) = true) as H; [|by destruct (f64_ltb hi _)].
  destruct (f64_ltb x lo) eqn:E; [done|]. revert E Hlo.
  unfold f64_ltb, SFltb. destruct x as [[]|?| |[] m e], lo as [[]|?| |[] m' e']; done.
Qed.

Lemma sku_digits c i :
  0 ≤ i → in_bounds c 0 5 →
  digits_of ("NW-" +:+ upper (str (take 2 (chars (at_pos CATEGORIES "" c)))) +:+ "-" +:+ zpad 5 (i + 1)) = Some (i + 1).
Proof.
  intros Hi Hc. unfold digits_of. rewrite !chars_app, !filter_app.
  assert (filter (λ c, is_decimal c = true) (chars (upper (str (take 2 (chars (at_pos CATEGORIES "" c)))))) = []) as ->.
  { assert (at_pos CATEGORIES "" c ∈ CATEGORIES) as Hin by (apply at_pos_in; unfold in_bounds in Hc; cbn; lia).
    unfold CATEGORIES in Hin at 2. repeat (apply elem_of_cons in Hin as [->|Hin]; [vm_compute; reflexivity|]). by apply elem_of_nil in Hin. }
  rewrite (filter_decimal (chars (zpad 5 (i + 1)))) by (apply zpad_decimal; lia). apply (zpad_value 5). lia.
Qed.

Lemma products_constraints np_round h :
  ops_draws_ok h →
  NoDup (product_id <$> products np_round h) ∧ NoDup (sku <$> products np_round h) ∧ Forall product_checks (products np_round h).
Proof.
  intros Hh. destruct (ho_products _ Hh) as [Hd _]. split_and!.
  - apply (NoDup_numbered _ product_id (λ n, n - 1)). intros i x Hi _. cbn. lia.
  - apply (NoDup_numbered _ sku (λ s, default 0 (digits_of s) - 1)). intros i d Hi Hx.
    cbn [fst snd make_product sku]. unfold category_of. rewrite sku_digits; [cbn; lia|lia|]. by apply pro_cat, (Forall_in _ (h_products h)).
  - apply Forall_forall. intros p (i & d & Hi & Hl & ->)%elem_of_numbered. apply list_elem_of_lookup_2 in Hl.
    destruct (Forall_in _ _ _ Hd Hl). split; cbn; [| | |lia].
    + apply at_pos_in. unfold in_bounds in *. cbn. lia.
    + by apply clip_positive.
    + unfold disc_flag. destruct (pr_disc d); [|done]. cbn. destruct (_ <? _) eqn:E; [|done]. split; [done|].
      unfold day_at, disc_off. unfold in_bounds in *. apply Z.ltb_lt in E. unfold disc_off in E.
      assert (launch_off d < n_days).
      { unfold launch_off. rewrite n_days_value. assert (EV_AURORA_LAUNCH - START = 151) as -> by by vm_compute. repeat case_match; unfold np_clip; lia. }
      unfold np_clip in *. lia.
Qed.

(** ** Orders *)

Record scaffold_ok (g : crm_draws) (o : scaffold) : Prop := {
  so_cust : in_bounds (o_cust o) 0 (Z.of_nat (length (g_customers g)));
  so_day : 0 ≤ o_day o < n_days;
  so_region : o_region o ∈ REGIONS;
  so_status : o_status o ∈ ["PENDING"; "SHIPPED"; "INVOICED"; "CANCELLED"];
  so_channel : o_channel o ∈ ["DIRECT"; "PARTNER"; "ECOMM"];
  so_ccy : o_ccy o ∈ CURRENCIES;
  so_created : at_second (o_day o) 0 ≤ o_created o;
  so_created_late : day_at (o_day o) < EV_APAC_OUTAGE → o_created o < at_second (o_day o) (21 * 3600);
  so_updated : o_created o ≤ o_updated o;
  so_requested : day_at (o_day o) ≤ o_requested o }.

Lemma region_ccy r : r ∈ REGIONS → map_by REGION_CCY r ∈ CURRENCIES.
Proof. intros H. unfold REGIONS in H. repeat (apply elem_of_cons in H as [->|H]; [vm_compute; set_solver|]). by apply elem_of_nil in H. Qed.

Lemma order_ok g o : crm_draws_ok g → o ∈ orders g → scaffold_ok g o.
Proof.
  intros Hg (i & slot & d & Hi & Hs & Hd & ->)%scaffolds_spec. pose proof (order_slot_ok _ _ Hs) as [Hc Hday].
  destruct (Forall_in _ _ _ (go_orders _ Hg) Hd).
  assert (customer_draw_ok (at_pos (g_customers g) no_customer slot.1)) as Hcust.
  { apply (Forall_in _ _ _ (go_customers _ Hg)), at_pos_in. unfold in_bounds in Hc. lia. }
  unfold in_bounds in *. unfold make_scaffold. set (c := at_pos _ _ _) in *. destruct Hcust.
  split; cbn; try done.
  - destruct ((n_days - 12 <? slot.2) && od_pending d); [left|]. revert odo_status. clear. set_solver.
  - destruct (od_cross d); [left|by apply region_ccy].
  - case_match; unfold at_second; lia.
  - intros Hlt. rewrite (proj2 (Z.eqb_neq _ EV_APAC_OUTAGE)) by lia. rewrite andb_false_r. unfold at_second. lia.
  - case_match; lia.
  - lia.
Qed.

Lemma length_opp_refs l : ∀ k, length (opp_refs k l) = length l.
Proof. induction l as [|o l IH]; intros k; [done|]. cbn [opp_refs]. destruct (has_opp o); cbn; by rewrite IH. Qed.

Lemma order_refs_fst g : (order_refs g).*1 = orders g.
Proof. unfold order_refs. apply fst_zip. by rewrite length_opp_refs. Qed.

Lemma order_row_ids np_round g : order_id <$> order_rows np_round g = o_id <$> orders g.
Proof. rewrite <- order_refs_fst. unfold order_rows. by rewrite <- !list_fmap_compose. Qed.

Lemma order_refs_in g p : p ∈ order_refs g → p.1 ∈ orders g.
Proof. intros H. rewrite <- order_refs_fst. by apply list_elem_of_fmap_2. Qed.

Lemma customer_ids g k :
  in_bounds k 0 (Z.of_nat (length (g_customers g))) → k + 1 ∈ customer_id <$> customers (g_customers g).
Proof.
  intros Hk. unfold in_bounds in Hk. unfold customers. rewrite <- list_fmap_compose.
  destruct (lookup_lt_is_Some_2 (g_customers g) (Z.to_nat k)) as [d Hd]; [lia|].
  apply list_elem_of_fmap. exists (k, d). split; [done|]. apply list_elem_of_lookup. exists (Z.to_nat k).
  rewrite (enumerate_from_lookup 0 _ _ _ Hd). do 2 f_equal. lia.
Qed.

Lemma orders_constraints np_round g :
  crm_draws_ok g →
  NoDup (order_id <$> order_rows np_round g) ∧ Forall (order_checks (customers (g_customers g))) (order_rows np_round g).
Proof.
  intros Hg. split; [rewrite order_row_ids; apply scaffold_ids|].
  apply Forall_forall. intros r Hr. apply list_elem_of_fmap in Hr as (p & -> & Hp).
  destruct (order_ok g p.1 Hg (order_refs_in g p Hp)). split; cbn; try done. by apply customer_ids.
Qed.

(** ** Order lines *)

Lemma drop_duplicates_spec l : ∀ seen,
  let keys := (λ x, (li_order x, li_product x)) <$> drop_duplicates seen l in
  NoDup keys ∧ (∀ k, k ∈ keys → k ∉ seen) ∧ ∀ x, x ∈ drop_duplicates seen l → x ∈ l.
Proof.
  induction l as [|x l IH]; intros seen; cbn [drop_duplicates]; [split_and!; [constructor|by intros k ?%elem_of_nil..]|].
  case_bool_decide as Hx.
  - destruct (IH seen) as (H1 & H2 & H3). split_and!; [done|done|]. intros y Hy. right. by apply H3.
  - destruct (IH ((li_order x, li_product x) :: seen)) as (H1 & H2 & H3). cbn [fmap list_fmap]. split_and!.
    + constructor; [|done]. intros Hin. apply (H2 _ Hin). left.
    + intros k [->|Hk]%elem_of_cons; [done|]. intros Hs. apply (H2 _ Hk). by right.
    + intros y [->|Hy]%elem_of_cons; [left|right; by apply H3].
Qed.

Lemma elem_of_all_lines np_round rates g h x :
  x ∈ all_lines np_round rates g h →
  ∃ pos p d, p ∈ order_refs g ∧ 0 ≤ pos ∧ orders g !! Z.to_nat pos = Some p.1 ∧ d ∈ h_lines h ∧ x = make_line np_round rates g h pos p.1 p.2 d.
Proof.
  intros [k Hk]%list_elem_of_lookup. unfold all_lines in Hk. rewrite lookup_zip_with_Some in Hk.
  destruct Hk as ([pos p] & d & -> & Hr & Hd). cbn [fst snd].
  apply list_elem_of_lookup_2, elem_of_np_repeat, elem_of_enumerate_lookup in Hr as [Hpos Hr]. rewrite Z.sub_0_r in Hr.
  exists pos, p, d. split_and!; [by eapply list_elem_of_lookup_2|done| |by eapply list_elem_of_lookup_2|done].
  rewrite <- order_refs_fst, list_lookup_fmap, Hr. done.
Qed.

(** The product of a line is in the catalogue, and launched by the day of the order when any is. *)
Lemma launch_sorted_length h : length (launch_sorted h) = length (h_products h).
Proof. unfold launch_sorted, launches. by rewrite length_sort_by, length_fmap. Qed.

Lemma line_product_spec h day d :
  ops_draws_ok h → d ∈ h_lines h →
  let k := line_product h day d in
  in_bounds k 0 (Z.of_nat (length (h_products h))) ∧
  ((∃ l, l ∈ launches h ∧ l ≤ day) → launch_off (product_at h k) ≤ day).
Proof.
  intros Hh Hd k. destruct (ho_products _ Hh) as [_ Hne]. destruct (ho_lines _ Hh) as [_ Hb].
  pose proof (f64_trunc_plus _ (f64_mul_plus _ _ (Forall_in _ _ _ Hb Hd) (f64_of_Z_plus (n_avail h day) ltac:(unfold n_avail; lia)))) as Hpick.
  set (pick := Z.min (f64_trunc (f64_mul (ld_beta d) (f64_of_Z (n_avail h day)))) (n_avail h day - 1)) in *.
  assert (length (h_products h) ≠ 0%nat) as Hlen by (by destruct (h_products h)).
  assert (0 ≤ n_avail h day - 1 < Z.of_nat (length (h_products h))) as Hav.
  { unfold n_avail. pose proof (leading_range (λ x, x <=? day) (launch_sorted h)) as Hr. rewrite launch_sorted_length in Hr.
    unfold searchsorted_right. lia. }
  assert (0 ≤ pick < Z.of_nat (length (argsort (launches h)))) as Hp.
  { unfold argsort. rewrite length_sort_by, length_enumerate_from. unfold launches. rewrite length_fmap. subst pick. lia. }
  destruct (lookup_lt_is_Some_2 (argsort (launches h)) (Z.to_nat pick)) as [[j l] Hj]; [lia|].
  assert (k = j) as ->.
  { unfold k, line_product, prod_by_launch. fold pick. unfold at_pos. by rewrite list_lookup_fmap, Hj. }
  pose proof (elem_of_argsort _ _ (list_elem_of_lookup_2 _ _ _ Hj)) as [Hj0 Hjl]. cbn [fst snd] in *.
  unfold launches in Hjl. rewrite list_lookup_fmap_Some in Hjl. destruct Hjl as (pd & -> & Hpd).
  split; [apply lookup_lt_Some in Hpd; unfold in_bounds; lia|].
  intros (l' & Hl' & Hle). unfold product_at, at_pos. rewrite Hpd. cbn [default from_option id].
  assert (launch_sorted h !! Z.to_nat pick = Some (launch_off pd)) as Hs.
  { unfold launch_sorted. rewrite <- argsort_keys, list_lookup_fmap, Hj. done. }
  apply Z.leb_le. apply (leading_lookup (λ x, x <=? day) (launch_sorted h) (Z.to_nat pick)); [done|].
  assert (1 ≤ searchsorted_right Z.leb (launch_sorted h) day) as H1.
  { assert (l' ∈ launch_sorted h) as [m Hm]%list_elem_of_lookup by (by apply elem_of_sort_by).
    assert (StronglySorted (λ a b, (a <=? b) = true) (launch_sorted h)) as Hsort.
    { apply sort_by_sorted; [intros x y; rewrite !Z.leb_le; lia|intros x y z; rewrite !Z.leb_le; lia]. }
    change 1 with (Z.of_nat 1). apply leading_ge; [|apply lookup_lt_Some in Hm; lia].
    intros i x Hi Hlt. assert (i = 0%nat) as -> by lia. apply Z.leb_le.
    destruct m as [|m]; [assert (x = l') by congruence; lia|].
    assert (x <=? l' = true) as Hxl%Z.leb_le by (apply (sorted_lookup _ _ 0%nat (S m) x l' Hsort); [lia|done|done]). lia. }
  unfold searchsorted_right in *. subst pick. unfold n_avail, searchsorted_right in *. lia.
Qed.

Lemma line_updated_after g o d :
  scaffold_ok g o → line_draw_ok d → o_created o ≤ line_updated o d.
Proof.
  intros Ho [_ Hd]. unfold in_bounds in Hd. unfold line_updated. destruct ((_ <? _) && _) eqn:E; [|lia].
  apply andb_true_iff in E as [E%Z.ltb_lt _].
  assert (EV_BULK_REPRICE = 739778 * day_seconds + 7200) as HR by by vm_compute.
  assert (EV_APAC_OUTAGE = 739784) as HA by by vm_compute.
  assert (EV_BULK_REPRICE / day_seconds = 739778) as HE by by vm_compute. rewrite HE in E. rewrite HR.
  pose proof (so_created_late _ _ Ho ltac:(lia)). unfold at_second, day_seconds in *. lia.
Qed.

Lemma numbered_fmap {A B C} (f : Z * A → B) (key : B → C) (k : A → C) n (l : list A) :
  (∀ i x, key (f (i, x)) = k x) → key <$> (f <$> enumerate_from n l) = k <$> l.
Proof.
  intros Hk. revert n. induction l as [|x l IH]; intros n; [done|]. cbn [enumerate_from fmap list_fmap]. by rewrite Hk, IH.
Qed.

Lemma lines_constraints np_round float32 rates g h :
  crm_draws_ok g → ops_draws_ok h →
  NoDup (order_line_id <$> order_lines np_round float32 rates g h) ∧
  NoDup ((λ l, (ol_order l, ol_product l)) <$> order_lines np_round float32 rates g h) ∧
  Forall (line_checks (products np_round h) (order_rows np_round g)) (order_lines np_round float32 rates g h).
Proof.
  intros Hg Hh. destruct (drop_duplicates_spec (all_lines np_round rates g h) []) as (H1 & _ & H3). split_and!.
  - apply (NoDup_numbered _ order_line_id (λ n, n)). intros i x Hi _. done.
  - unfold order_lines. rewrite (numbered_fmap _ _ (λ x, (li_order x, li_product x))) by done. exact H1.
  - apply Forall_forall. intros r (i & l & Hi & Hl & ->)%elem_of_numbered. apply list_elem_of_lookup_2, H3, elem_of_all_lines in Hl
      as (pos & p & d & Hp & _ & Ho & Hd & ->).
    pose proof (order_ok g p.1 Hg (order_refs_in g p Hp)) as Hok. destruct (ho_lines _ Hh) as [Hld _].
    pose proof (Forall_in _ _ _ Hld Hd) as Hdok. destruct (line_product_spec h (o_day p.1) d Hh Hd) as [Hk _].
    split; cbn.
    + rewrite order_row_ids. apply list_elem_of_fmap_2. by apply order_refs_in.
    + unfold in_bounds in Hk. unfold products. rewrite <- list_fmap_compose.
      destruct (lookup_lt_is_Some_2 (h_products h) (Z.to_nat (line_product h (o_day p.1) d))) as [pd Hpd]; [lia|].
      apply list_elem_of_fmap. exists (line_product h (o_day p.1) d, pd). split; [done|]. apply list_elem_of_lookup.
      eexists. rewrite (enumerate_from_lookup 0 _ _ _ Hpd). do 2 f_equal. lia.
    + unfold line_quantity. destruct Hdok. lia.
    + by apply (line_updated_after g).
Qed.

(** ** Shipments *)

Lemma service_levels c : in_bounds c 0 3 →
  (at_pos SERVICE_LEVELS ("", 0, f64_of_Z 0) c).1.1 ∈ ["STANDARD"; "EXPEDITED"; "ECONOMY"] ∧ 0 < (at_pos SERVICE_LEVELS ("", 0, f64_of_Z 0) c).1.2.
Proof.
  intros Hc. assert (at_pos SERVICE_LEVELS ("", 0, f64_of_Z 0) c ∈ SERVICE_LEVELS) as Hin by (apply at_pos_in; unfold in_bounds in Hc; cbn; lia).
  revert Hin. generalize (at_pos SERVICE_LEVELS ("", 0, f64_of_Z 0) c). intros s Hin. unfold SERVICE_LEVELS in Hin.
  repeat (apply elem_of_cons in Hin as [->|Hin]; [cbn; split; [set_solver|lia]|]). by apply elem_of_nil in Hin.
Qed.

Lemma warehouse_in r i : r ∈ REGIONS → 0 ≤ i → pick_mod (wh_for_region r) i ∈ WAREHOUSES.*1.
Proof.
  intros Hr Hi. unfold pick_mod.
  assert ((∀ w, w ∈ wh_for_region r → w ∈ WAREHOUSES.*1) ∧ length (wh_for_region r) ≠ 0%nat) as [Hw Hl].
  { unfold REGIONS in Hr. repeat (apply elem_of_cons in Hr as [->|Hr]; [split; [intros w Hw; vm_compute in Hw |- *; set_solver|done]|]).
    by apply elem_of_nil in Hr. }
  apply Hw, at_pos_in. apply Z.mod_pos_bound. lia.
Qed.

Lemma ship_day_range g o d : scaffold_ok g o → shipment_draw_ok d → o_day o ≤ ship_day o d < n_days.
Proof.
  intros Ho Hd. destruct (so_day _ _ Ho), (sdo_lag _ Hd), (sdo_squeeze _ Hd). unfold ship_day, planned_ship_day.
  rewrite n_days_value in *. case_match; lia.
Qed.

Lemma promised_after o d : shipment_draw_ok d → ship_day o d < promised_day o d.
Proof.
  intros Hd. unfold promised_day. destruct (service_levels _ (sdo_level _ Hd)) as [_ Hl].
  assert (f64_plus (sd_distance d) = true) as Hp by (pose proof (sdo_distance _ Hd); by destruct (sd_distance d) as [[]|?| |[] ? ?]).
  assert (0 ≤ f64_trunc (f64_div (distance_km o d) (f64_of_Z 900))); [|unfold level_of; lia].
  apply f64_trunc_plus, f64_div_plus; [|by vm_compute]. unfold distance_km. case_match; [by apply f64_mul_plus|done].
Qed.

Lemma delivered_range o d g :
  scaffold_ok g o → shipment_draw_ok d →
  ship_day o d ≤ delivered_day o d < n_days ∧ (ship_day o d < n_days - 1 → ship_day o d < delivered_day o d).
Proof. intros Ho Hd. pose proof (ship_day_range g o d Ho Hd). unfold delivered_day, np_clip. lia. Qed.

(** Every delivery falls inside the window. *)
Lemma always_delivered o d g : scaffold_ok g o → shipment_draw_ok d → delivered_known o d = true.
Proof.
  intros Ho Hd. destruct (delivered_range o d g Ho Hd) as [Hr _]. unfold delivered_known. apply Z.leb_le.
  unfold day_at, n_days in *. lia.
Qed.

Lemma carrier_in c : in_bounds c 0 5 →
  (at_pos CARRIERS ("", f64_of_Z 0, f64_of_Z 0) c).1.1 ∈ (λ c : string * f64 * f64, c.1.1) <$> CARRIERS.
Proof. intros Hc. apply (list_elem_of_fmap_2 (λ c : string * f64 * f64, c.1.1)), at_pos_in. unfold in_bounds in Hc. cbn. lia. Qed.

Lemma NoDup_fst_zip {A B C} (f : A → C) (l : list A) (k : list B) : NoDup (f <$> l) → NoDup (f <$> (zip l k).*1).
Proof.
  revert k. induction l as [|x l IH]; intros [|y k] H; cbn; try constructor.
  - apply NoDup_cons in H as [Hx _]. intros Hin. apply Hx. apply list_elem_of_fmap in Hin as (z & -> & Hz).
    apply list_elem_of_fmap in Hz as ([z' w] & -> & Hz). apply list_elem_of_fmap_2. by eapply elem_of_zip_l.
  - apply NoDup_cons in H as [_ H]. by apply IH.
Qed.

Lemma ship_order_in g o : o ∈ ship_orders g → o ∈ orders g.
Proof. by intros [_ ?]%list_elem_of_filter. Qed.

Lemma shipments_constraints np_round float32 g h :
  crm_draws_ok g → ops_draws_ok h →
  NoDup (shipment_id <$> shipments np_round float32 g h) ∧ NoDup (sh_order <$> shipments np_round float32 g h) ∧
  Forall (shipment_checks (order_rows np_round g)) (shipments np_round float32 g h) ∧
  Forall (λ s, is_Some (delivered_date s)) (shipments np_round float32 g h).
Proof.
  intros Hg Hh.
  assert (∀ s, s ∈ shipments np_round float32 g h → ∃ i o d, o ∈ orders g ∧ scaffold_ok g o ∧ shipment_draw_ok d ∧
    s = make_shipment np_round float32 i o d) as Hs.
  { intros s (i & [o d] & Hi & Hl & ->)%elem_of_numbered. apply list_elem_of_lookup_2 in Hl.
    pose proof (ship_order_in g o ltac:(by eapply elem_of_zip_l)) as Ho. exists i, o, d. split_and!; [done|by apply order_ok| |done].
    apply (Forall_in _ _ _ (ho_shipments _ Hh)). by eapply elem_of_zip_r. }
  split_and!.
  - apply (NoDup_numbered _ shipment_id (λ n, n - 1)). intros i x Hi _. cbn. lia.
  - unfold shipments. rewrite (numbered_fmap _ _ (λ x, o_id x.1)) by done.
    rewrite (list_fmap_compose (fst : scaffold * shipment_draw → scaffold) o_id). apply NoDup_fst_zip. apply (NoDup_fmap_filter o_id), scaffold_ids.
  - apply Forall_forall. intros s (i & o & d & Ho & Hok & Hd & ->)%Hs.
    destruct (ship_day_range g o d Hok Hd), (delivered_range o d g Hok Hd). pose proof (promised_after o d Hd).
    pose proof (always_delivered o d g Hok Hd) as Hdel. split; cbn; rewrite ?Hdel.
    + rewrite order_row_ids. by apply list_elem_of_fmap_2.
    + apply warehouse_in; [apply Hok|apply (sdo_wh _ Hd)].
    + destruct (sdo_carrier _ Hd). unfold carrier_of. case_match; by apply carrier_in.
    + apply (service_levels _ (sdo_level _ Hd)).
    + unfold day_at. lia.
    + intros x [= <-]. unfold day_at. lia.
    + pose proof (sdo_packages _ Hd). lia.
    + unfold at_second, day_at, day_seconds. lia.
  - apply Forall_forall. intros s (i & o & d & Ho & Hok & Hd & ->)%Hs. cbn. rewrite (always_delivered o d g) by done. by eexists.
Qed.

(** ** Support cases *)

Lemma case_slot_ok g h slot : slot ∈ case_slots g h → slot_ok g slot.
Proof.
  intros [k Hk]%list_elem_of_lookup. unfold case_slots in Hk. rewrite lookup_zip_with_Some in Hk.
  destruct Hk as ([c d] & r & -> & Hc & _). apply list_elem_of_lookup_2, elem_of_np_repeat, elem_of_enumerate_lookup in Hc as [Hc0 Hc].
  apply lookup_lt_Some in Hc. split; [unfold in_bounds; cbn; lia|apply cdf_day_range].
Qed.

Lemma cases_constraints np_round float32 g h :
  rounds_up_zero np_round → crm_draws_ok g → ops_draws_ok h →
  NoDup (case_id <$> support_cases np_round float32 g h) ∧
  Forall (case_checks (customers (g_customers g))) (support_cases np_round float32 g h).
Proof.
  intros Hr Hg Hh. destruct (ho_cases _ Hh) as [Hc Hp]. split.
  - apply (NoDup_numbered _ case_id (λ n, n - 1)). intros i x Hi _. cbn. lia.
  - apply Forall_forall. intros s (i & [slot d] & Hi & Hl & ->)%elem_of_numbered. apply list_elem_of_lookup_2 in Hl.
    pose proof (case_slot_ok g h slot ltac:(by eapply elem_of_zip_l)) as [Hslot _].
    assert (d ∈ h_cases h) as Hd by (by eapply elem_of_zip_r). pose proof (Forall_in _ _ _ Hp Hd) as Hhours.
    destruct (Forall_in _ _ _ Hc Hd) as [H1 H2 H3 H4]. split; cbn -[f64_round f64_mul f64_of_Z res_hours].
    + by apply customer_ids.
    + done.
    + destruct (ca_open d); [left|by right].
    + destruct (ca_open d || ca_silent d); [done|]. by intros n [= <-].
    + destruct (ca_open d); [by right|left]. intros E. rewrite E in H4. revert H4. clear. set_solver.
    + destruct (ca_open d); [done|].
      assert (0 ≤ f64_round (f64_mul (res_hours np_round (cd_region (at_pos (g_customers g) no_customer slot.1)) slot.2 d) (f64_of_Z 3600))); [|lia].
      apply f64_round_plus, f64_mul_plus; [|by vm_compute]. unfold res_hours. apply Hr, f64_mul_plus; [done|]. by destruct (_ && _).
Qed.


(** ** A small baseline *)

Definition example_ops : ops_draws :=
  mkOpsDraws [mkProductDraw 0 50 false true true 400 (f64_of_Z 700) (f64_literal 28 (-2)) 123;
              mkProductDraw 1 50 false true false 400 (f64_of_Z 5) (f64_literal 86 (-2)) 456]
    [1; 0; 1]
    [mkLineDraw (f64_ratio 1 10) 2 (f64_of_Z 1) 100 false; mkLineDraw (f64_ratio 2 10) 3 (f64_of_Z 1) 100 true;
     mkLineDraw (f64_ratio 9 10) 0 (f64_of_Z 0) 200 true; mkLineDraw (f64_ratio 1 10) 2 (f64_of_Z 1) 100 false;
     mkLineDraw (f64_ratio 8 10) 2 (f64_of_Z 1) 100 false]
    [mkShipmentDraw 0 0 1 3 1 2 (f64_of_Z 1200) (f64_of_Z 4) (f64_ratio 1 10) 1 5 (f64_of_Z 1) 0 777;
     mkShipmentDraw 1 2 3 3 4 0 (f64_of_Z 300) (f64_of_Z 9) (f64_ratio 99 100) 0 8 (f64_of_Z 1) 2 888]
    [1; 1] [f64_ratio 1 2; f64_ratio 1 3]
    [mkCaseDraw "P1" (f64_ratio 9 2) 4 false false 100 "Billing Dispute" "Email" "Closed";
     mkCaseDraw "P3" (f64_ratio 70 2) 2 true false 5000 "How-To" "Chat" "Resolved"].

Lemma example_ops_ok : ops_draws_ok example_ops.
Proof.
  split; [split|split| |split]; try done; repeat constructor; unfold in_bounds; cbn; try lia; try set_solver.
Qed.

Example example_tables :
  (λ s, (sh_order s, warehouse_code s, ship_date s - START, (λ d, d - START) <$> delivered_date s)) <$>
    shipments (λ x _, x) id example_draws example_ops = [(1, "WH-FRA", 405, Some 410); (2, "WH-FRA", 712, Some 729)] ∧
  (λ l, (order_line_id l, ol_order l, ol_product l, quantity l)) <$>
    order_lines (λ x _, x) id (λ _, replicate 2000 (f64_of_Z 1)) example_draws example_ops = [(1, 1, 1, 3); (2, 2, 2, 1); (3, 3, 1, 3); (4, 3, 2, 3)].
Proof. vm_compute. done. Qed.

