(* ===== verification/GenErp.v ===== *)
(** * The generated ledger: [generator/generate.py], cost centres, rates and postings

    The rows of the finance baseline: master data, exchange rates, an invoice per order that was
    shipped or invoiced, credit notes and period adjustments, with the constraints of
    [sql/migrations/erp] they satisfy. Money is float64, rounded by [np_round]. *)

From stdpp Require Import prelude gmap strings list sorting.
From Stdlib Require Import ZArith Lia Ascii Floats.SpecFloat.
From S2P Require Import Prelude PyText Dates PyNum Events NumPy GenCalendar GenCustomers GenCrm GenOps GenOpsFacts.

Open Scope Z_scope.

(** ** Master data *)

Record cost_center := mkCostCenter {
  cc_code : string; cc_name : string; cc_company : string; cc_of_region : string; cc_function : string; cc_owner : string;
  valid_from : date; valid_to : option date; cc_active : bool; cc_created_at : Z; cc_updated_at : Z }.

Definition FUNCTIONS : list string := ["Sales"; "Services"; "Support"; "Renewals"].
Definition LATER_CENTERS : list (string * date) :=
  [("Digital Sales", ymd2ord 2024 4 1); ("Partner Services", ymd2ord 2025 2 3); ("Customer Success", ymd2ord 2025 10 1)].

(** The cost centres before two of them are closed; [ages] are the draws [rng.integers(400, 2200)]. *)
Definition open_center (ccn : Z) (prefix name company region function : string) (from : date) : cost_center :=
  mkCostCenter (prefix +:+ zpad 3 ccn) name company region function ("cc" +:+ zpad 3 ccn +:+ "@northwind-systems.example")
    from None true 0 0.
Definition center_of (k : Z) (t : string * string * string) (age : Z) : cost_center :=
  let '(region, company, fn) := t in
  open_center (k + 1) ("CC-" +:+ str (take 2 (chars company))) (region +:+ " " +:+ fn) company region fn (START - age).
Definition region_functions : list (string * string * string) :=
  REGION_COMPANY ≫= λ rc, (λ fn, (rc.1, rc.2, fn)) <$> FUNCTIONS.
Definition first_centers (ages : list Z) : list cost_center :=
  (λ p, center_of p.1 p.2.1 p.2.2) <$> enumerate_from 0 (zip region_functions ages).
Definition later_centers (n : Z) : list cost_center :=
  (λ p, open_center (p.1 + 1) "CC-DE" ("EMEA " +:+ p.2.1) "DE01" "EMEA" p.2.1 p.2.2) <$> enumerate_from n LATER_CENTERS.

Definition close_center (to : date) (c : cost_center) : cost_center :=
  mkCostCenter (cc_code c) (cc_name c) (cc_company c) (cc_of_region c) (cc_function c) (cc_owner c) (valid_from c) (Some to) false
    (cc_created_at c) (cc_updated_at c).
Definition stamp_center (c : cost_center) : cost_center :=
  let created := valid_from c * day_seconds + 8 * 3600 in
  mkCostCenter (cc_code c) (cc_name c) (cc_company c) (cc_of_region c) (cc_function c) (cc_owner c) (valid_from c) (valid_to c) (cc_active c)
    created (match valid_to c with Some to => to * day_seconds + 17 * 3600 | None => created end).

Definition cost_centers (ages : list Z) : list cost_center :=
  let rows := first_centers ages in
  let rows := rows ++ later_centers (Z.of_nat (length rows)) in
  stamp_center <$> alter (close_center (ymd2ord 2025 6 30)) 9%nat (alter (close_center (ymd2ord 2024 9 30)) 1%nat rows).

(** Account, name, type and whether it takes postings. *)
Definition GL_ACCOUNTS : list (string * string * string * bool) :=
  [("4000", "Product Revenue", "REVENUE", true); ("4010", "License Revenue", "REVENUE", true);
   ("4020", "Services Revenue", "REVENUE", true); ("4030", "Support Revenue", "REVENUE", true);
   ("4090", "Revenue Adjustments", "REVENUE", true); ("1200", "Accounts Receivable", "ASSET", true);
   ("5000", "Cost of Goods Sold", "EXPENSE", true); ("9999", "Suspense", "CLEARING", false)].

(** ** Exchange rates: banking days only, no identity pair *)

Record fx_rate := mkFxRate {
  from_currency : string; to_currency : string; rate_date : date; rate_type : string; fx_rate_value : f64; source : string; loaded_at : Z }.
Definition FX_CURRENCIES : list string := ["EUR"; "GBP"; "CAD"; "JPY"].
Definition fx_rates (rates : string → list f64) : list fx_rate :=
  FX_CURRENCIES ≫= λ ccy,
    zip_with (λ d rate, mkFxRate ccy "USD" d "SPOT" rate "ECB-FEED" (d * day_seconds + 4 * 3600 + 15 * 60)) bank_days (rates ccy).

(** ** Draws *)

Record posting_draw := mkPostingDraw {
  po_centers : list Z;   (* rng.integers(0, len(pool)): the first choice, and up to six more *)
  po_gl : string;
  po_late : bool;        (* rng.random() < 0.6 *)
  po_lag : Z;            (* rng.integers(1, 6) *)
  po_rare : bool;        (* rng.random() < 0.012 *)
  po_rare_lag : Z;       (* rng.integers(10, 34) *)
  po_second : Z }.       (* rng.integers(3 * 3600, 23 * 3600) *)
Record posting_draw_ok (d : posting_draw) : Prop := {
  poo_centers : length (po_centers d) = 7%nat ∧ Forall (λ c, 0 ≤ c) (po_centers d);
  poo_gl : po_gl d ∈ ["4000"; "4010"; "4020"; "4030"];
  poo_lag : in_bounds (po_lag d) 1 6 ∧ in_bounds (po_rare_lag d) 10 34;
  poo_second : in_bounds (po_second d) (3 * 3600) (23 * 3600) }.

Record credit_draw := mkCreditDraw {
  cr_sel : Z;      (* rng.choice(n_inv, ..., replace=False) *)
  cr_after : Z;    (* rng.integers(4, 40) *)
  cr_second : Z }. (* rng.integers(6 * 3600, 21 * 3600) *)
Definition credit_draw_ok (d : credit_draw) : Prop :=
  0 ≤ cr_sel d ∧ in_bounds (cr_after d) 4 40 ∧ in_bounds (cr_second d) (6 * 3600) (21 * 3600).

Record erp_draws := mkErpDraws {
  e_ages : list Z;
  e_postings : list posting_draw;
  e_credits : list credit_draw;
  e_adjustments : list (option f64) }.  (* per period and company: nothing, or round(rng.normal(0, 55_000), places) *)

(** ** Postings *)

Record posting := mkPosting {
  posting_id : Z; document_number : string; document_type : string; po_company : string; order_ref : option Z; gl_account : string;
  cost_center_code : option string; posting_date : date; fiscal_period : string; document_currency : string; amount_doc : f64;
  company_currency : string; amount_company : f64; reverses_posting_id : option Z; posted_at : Z }.

(** [np.char.mod("%d", year) + "-" + np.char.mod("%02d", month)] *)
Definition period_text (d : date) : string := str_of_Z (year_of d) +:+ "-" +:+ zpad 2 (month_of d).
Definition document_text (company : string) (n : Z) : string := company +:+ "-" +:+ zpad 9 n.

Section Ledger.
Context (np_round : f64 → Z → f64) (rates : string → list f64) (g : crm_draws) (h : ops_draws) (e : erp_draws).

(** A cost centre that does not cover the day; a missing end never does. *)
Definition center_bad (day : date) (c : cost_center) : bool :=
  (day <? valid_from c) || match valid_to c with Some to => to <=? day | None => false end.

Definition no_center : cost_center := mkCostCenter "" "" "" "" "" "" 0 None true 0 0.
Definition center_pool (company : string) : list cost_center := filter (λ c, cc_company c = company) (cost_centers (e_ages e)).

(** The first choice, drawn again up to six times while it does not cover the day. *)
Fixpoint choose_center (pool : list cost_center) (day : date) (draws : list Z) : cost_center :=
  match draws with
  | [] => no_center
  | k :: draws =>
    let c := at_pos pool no_center (k mod Z.of_nat (length pool)) in
    match draws with [] => c | _ => if center_bad day c then choose_center pool day draws else c end
  end.

(** [p_idx]: the orders to post, with their totals *)
Definition postable : list (scaffold * f64) :=
  filter (λ p, (shipworthy p.1 && f64_ltb (f64_of_Z 0) p.2) = true) (zip (orders g) (order_totals np_round rates g h)).

Definition company_of (o : scaffold) : string := dict_get REGION_COMPANY (o_region o).
Definition amt_doc (p : scaffold * f64) : f64 := rounded np_round p.2 (o_ccy p.1).
Definition amt_comp (p : scaffold * f64) : f64 :=
  let ccy := dict_get COMPANY_CCY (company_of p.1) in
  rounded np_round (f64_div (f64_mul (amt_doc p) (fx_daily rates (o_ccy p.1) (o_day p.1))) (fx_daily rates ccy (o_day p.1))) ccy.

Definition posting_lag (day : Z) (d : posting_draw) : Z :=
  if po_rare d then po_rare_lag d else if (27 <=? dom_of (day_at day)) && po_late d then po_lag d else 0.

Definition invoice_posting (i : Z) (p : scaffold * f64) (d : posting_draw) : posting :=
  let company := company_of p.1 in let day := o_day p.1 in
  let ccy := dict_get COMPANY_CCY company in
  mkPosting (i + 1) (document_text company (i + 1)) "INV" company (Some (o_id p.1)) (po_gl d)
    (Some (cc_code (choose_center (center_pool company) (day_at day) (po_centers d)))) (day_at day) (period_text (day_at day))
    (o_ccy p.1) (fmt_money np_round (amt_doc p) (o_ccy p.1)) ccy (fmt_money np_round (amt_comp p) ccy) None
    (at_second (Z.min (day + posting_lag day d) (n_days - 1)) (po_second d)).
Definition invoices : list posting :=
  (λ p, invoice_posting p.1 p.2.1 p.2.2) <$> enumerate_from 0 (zip postable (e_postings e)).
Definition n_inv : Z := Z.of_nat (length invoices).

(** A credit note reverses one invoice, with the invoice's unrounded amounts. *)
Definition no_posting : posting := mkPosting 0 "" "" "" None "" None 0 "" "" (f64_of_Z 0) "" (f64_of_Z 0) None 0.
Definition credit_note (i : Z) (d : credit_draw) : posting :=
  let inv := at_pos invoices no_posting (cr_sel d) in
  let p := at_pos postable (no_order, f64_of_Z 0) (cr_sel d) in
  let day := Z.min (o_day p.1 + cr_after d) (n_days - 1) in
  let n := n_inv + 1 + i in
  mkPosting n (document_text (po_company inv) n) "CRN" (po_company inv) (order_ref inv) (gl_account inv) (cost_center_code inv)
    (day_at day) (period_text (day_at day)) (document_currency inv) (fmt_money np_round (SFopp (amt_doc p)) (document_currency inv))
    (company_currency inv) (fmt_money np_round (SFopp (amt_comp p)) (company_currency inv)) (Some (cr_sel d + 1))
    (at_second day (cr_second d)).
Definition credit_notes : list posting := (λ p, credit_note p.1 p.2) <$> enumerate_from 0 (e_credits e).

(** ** Adjustments *)

Definition periods_of (days : list date) : list (Z * Z) :=
  sort_by (λ a b, (a.1 <? b.1) || (a.1 =? b.1) && (a.2 <=? b.2)) (remove_dups ((λ d, (year_of d, month_of d)) <$> days)).
Definition periods : list (Z * Z) := periods_of all_days.
(** [max(d for d in all_days if ...)] *)
Definition last_day (days : list date) (ym : Z * Z) : date := zmax 0 (filter (λ d, (year_of d, month_of d) = ym) days).
Definition period_end (ym : Z * Z) : date := last_day all_days ym.

Definition adjustment (pid : Z) (ym : Z * Z) (company : string) (amt : f64) : posting :=
  let ccy := dict_get COMPANY_CCY company in let pend := period_end ym in
  let amt := if SFeqb amt (f64_of_Z 0) then f64_of_Z 1250 else amt in
  mkPosting pid (document_text company pid) "ADJ" company None "4090" None pend
    (str_of_Z ym.1 +:+ "-" +:+ zpad 2 ym.2) ccy amt ccy amt None ((pend + 2) * day_seconds + 9 * 3600 + 30 * 60).

Definition adjustment_slots : list (Z * Z * string) := periods ≫= λ ym, (λ c, (ym, c)) <$> COMPANY_CCY.*1.
(** The rows that were not skipped. *)
Definition drawn_adjustments : list (Z * Z * string * f64) :=
  omap (λ p : Z * Z * string * option f64, (λ amt, (p.1, amt)) <$> p.2) (zip adjustment_slots (e_adjustments e)).
Definition adjustments : list posting :=
  (λ p : Z * (Z * Z * string * f64), adjustment p.1 p.2.1.1 p.2.1.2 p.2.2) <$>
    enumerate_from (n_inv + Z.of_nat (length (e_credits e)) + 1) drawn_adjustments.

Definition revenue_postings : list posting := invoices ++ credit_notes ++ adjustments.
End Ledger.

(** ** The constraints of the schema *)

Record posting_checks (centers : list cost_center) (all : list posting) (p : posting) : Prop := {
  tc_company : po_company p ∈ co_code <$> COMPANIES;
  tc_currency : company_currency p = dict_get COMPANY_CCY (po_company p);
  tc_account : ∃ name type, (gl_account p, name, type, true) ∈ GL_ACCOUNTS;
  tc_center : ∀ code, cost_center_code p = Some code → ∃ c, c ∈ centers ∧ cc_code c = code ∧ cc_company c = po_company p;
  tc_type : document_type p ∈ ["INV"; "CRN"; "ADJ"];
  tc_reverses : document_type p = "CRN" ↔ is_Some (reverses_posting_id p);
  tc_reversed : ∀ n, reverses_posting_id p = Some n →
    ∃ q, q ∈ all ∧ posting_id q = n ∧ document_type q = "INV" ∧ po_company q = po_company p ∧ order_ref q = order_ref p ∧
         document_currency q = document_currency p ∧ amount_doc p = SFopp (amount_doc q) ∧ amount_company p = SFopp (amount_company q) ∧
         posting_date q ≤ posting_date p;
  tc_posted : posting_date p * day_seconds ≤ posted_at p;
  tc_period : fiscal_period p = zpad 4 (year_of (posting_date p)) +:+ "-" +:+ zpad 2 (month_of (posting_date p)) }.

Record ledger_constraints (centers : list cost_center) (all : list posting) : Prop := {
  pk_postings : NoDup (posting_id <$> all);
  uq_postings : NoDup ((λ p, (po_company p, document_number p)) <$> all);
  ck_postings : Forall (posting_checks centers all) all }.

Lemma numbered_ids {A B} (f : Z * A → B) (key : B → Z) c n (l : list A) :
  (∀ i x, key (f (i, x)) = i + c) →
  key <$> (f <$> enumerate_from n l) = z_range (n + c) (n + c + Z.of_nat (length l) - 1).
Proof.
  intros Hk. revert n. induction l as [|x l IH]; intros n; cbn [enumerate_from fmap list_fmap length].
  - by rewrite z_range_nil by lia.
  - rewrite Hk, IH, (z_range_cons (n + c)) by lia. f_equal. f_equal; lia.
Qed.

Lemma NoDup_finer {A B C} (f : A → B) (k : A → C) (l : list A) :
  NoDup (f <$> l) → (∀ x y, x ∈ l → y ∈ l → k x = k y → f x = f y) → NoDup (k <$> l).
Proof.
  induction l as [|x l IH]; intros Hf Hk; [constructor|]. cbn [fmap list_fmap] in *. apply NoDup_cons in Hf as [Hx Hf]. constructor.
  - intros (y & E & Hy)%list_elem_of_fmap. apply Hx. rewrite (Hk x y) by (done || by left || by right). by apply list_elem_of_fmap_2.
  - apply IH; [done|]. intros a b Ha Hb. apply Hk; by right.
Qed.

Lemma document_text_inj company n m : 0 ≤ n → 0 ≤ m → document_text company n = document_text company m → n = m.
Proof.
  intros Hn Hm E%(f_equal chars). unfold document_text in E. rewrite !chars_app in E. apply app_inv_head in E.
  injection E as E. by apply (zpad_inj 9), chars_inj.
Qed.

(** Years of the window have four digits. *)
Lemma window_year d : START ≤ d ≤ END → 2023 ≤ year_of d ≤ 2026.
Proof.
  intros Hd. pose proof (year_of_spec d) as Hy.
  assert (START = 738521) as HS by by vm_compute. assert (END = 739821) as HE by by vm_compute.
  pose proof (days_before_year_mono (year_of d + 1) 2023). pose proof (days_before_year_mono 2027 (year_of d)).
  change (days_before_year 2023) with 738520 in *. change (days_before_year 2027) with 739981 in *. lia.
Qed.

Lemma period_text_iso y m : 2023 ≤ y ≤ 2026 → str_of_Z y +:+ "-" +:+ m = zpad 4 y +:+ "-" +:+ m.
Proof. intros Hy. assert (y = 2023 ∨ y = 2024 ∨ y = 2025 ∨ y = 2026) as [->|[->|[->| ->]]] by lia; done. Qed.

(** ** Cost centres *)

Definition center_companies : list string := (λ t, t.1.2) <$> region_functions.

Lemma cost_center_companies ages :
  length ages = 24%nat → cc_company <$> cost_centers ages = center_companies ++ ["DE01"; "DE01"; "DE01"].
Proof. intros H. do 24 (destruct ages as [|? ages]; [done|]). destruct ages; [|done]. reflexivity. Qed.

Section Facts.
Context (np_round : f64 → Z → f64) (rates : string → list f64) (g : crm_draws) (h : ops_draws) (e : erp_draws).
Context (Hg : crm_draws_ok g) (Hages : length (e_ages e) = 24%nat).

Lemma pool_in company k :
  company ∈ (λ t : string * string, t.2) <$> REGION_COMPANY → 0 ≤ k →
  let c := at_pos (center_pool e company) no_center (k mod Z.of_nat (length (center_pool e company))) in
  c ∈ cost_centers (e_ages e) ∧ cc_company c = company.
Proof.
  intros Hc Hk c. assert (c ∈ center_pool e company) as [? ?]%list_elem_of_filter; [|done].
  apply at_pos_in, Z.mod_pos_bound.
  assert (company ∈ cc_company <$> cost_centers (e_ages e)) as Hin.
  { rewrite cost_center_companies by done. clear -Hc. revert Hc. cbn. set_solver. }
  apply list_elem_of_fmap in Hin as (x & -> & Hx).
  assert (x ∈ center_pool e (cc_company x)) as Hp by (by apply list_elem_of_filter).
  destruct (center_pool e (cc_company x)); [by apply elem_of_nil in Hp|cbn; lia].
Qed.

Lemma choose_center_in company day draws :
  company ∈ (λ t : string * string, t.2) <$> REGION_COMPANY → draws ≠ [] → Forall (λ k, 0 ≤ k) draws →
  let c := choose_center (center_pool e company) day draws in c ∈ cost_centers (e_ages e) ∧ cc_company c = company.
Proof.
  intros Hc Hne Hk. induction draws as [|k draws IH]; [done|]. apply Forall_cons in Hk as [Hk Hks]. cbn [choose_center].
  pose proof (pool_in company k Hc Hk). destruct draws as [|k' draws]; [done|]. case_match; [by apply IH|done].
Qed.

(** A posting gets a cost centre that does not cover its day exactly when no draw found one. *)
Lemma choose_center_bad pool day draws :
  draws ≠ [] →
  center_bad day (choose_center pool day draws) = true ↔
  Forall (λ k, center_bad day (at_pos pool no_center (k mod Z.of_nat (length pool))) = true) draws.
Proof.
  intros Hne. induction draws as [|k draws IH]; [done|]. rewrite Forall_cons. cbn [choose_center].
  destruct draws as [|k' draws]; [rewrite Forall_nil; tauto|].
  destruct (center_bad day (at_pos pool no_center (k mod Z.of_nat (length pool)))) eqn:E; [rewrite IH by done; tauto|].
  rewrite E. split; [done|]. intros [? _]. congruence.
Qed.

Context (He : Forall posting_draw_ok (e_postings e)).
Context (Hcr : Forall (λ d, credit_draw_ok d ∧ cr_sel d < n_inv np_round rates g h e) (e_credits e)).
Context (round_opp : ∀ x k, np_round (SFopp x) k = SFopp (np_round x k)).

Abbreviation all := (revenue_postings np_round rates g h e).
Abbreviation invs := (invoices np_round rates g h e).
Abbreviation good := (posting_checks (cost_centers (e_ages e)) all).

Lemma company_in o : scaffold_ok g o → company_of o ∈ (λ t : string * string, t.2) <$> REGION_COMPANY ∧ company_of o ∈ co_code <$> COMPANIES.
Proof.
  intros Ho. pose proof (so_region _ _ Ho) as Hr. unfold company_of. revert Hr. generalize (o_region o). intros r Hr.
  unfold REGIONS in Hr. repeat (apply elem_of_cons in Hr as [->|Hr]; [split; vm_compute; set_solver|]). by apply elem_of_nil in Hr.
Qed.

Lemma postable_ok p : p ∈ postable np_round rates g h → scaffold_ok g p.1.
Proof.
  intros [_ Hp]%list_elem_of_filter. destruct p as [o t]. apply order_ok; [done|]. by eapply elem_of_zip_l.
Qed.

Lemma period_text_checked i : 0 ≤ i < n_days →
  period_text (day_at i) = zpad 4 (year_of (day_at i)) +:+ "-" +:+ zpad 2 (month_of (day_at i)).
Proof. intros Hi. unfold period_text. apply period_text_iso, window_year. unfold day_at, n_days in *. lia. Qed.

Lemma invoice_lookup k q :
  invs !! k = Some q →
  ∃ p d, postable np_round rates g h !! k = Some p ∧ scaffold_ok g p.1 ∧ posting_draw_ok d ∧ q = invoice_posting np_round rates e (Z.of_nat k) p d.
Proof.
  unfold invoices. rewrite list_lookup_fmap_Some. intros ([i [p d]] & -> & Hk).
  pose proof (elem_of_enumerate_lookup _ _ _ _ (list_elem_of_lookup_2 _ _ _ Hk)) as [Hi Hz].
  destruct (lookup_lt_is_Some_2 (zip (postable np_round rates g h) (e_postings e)) k) as [x Hx].
  { apply lookup_lt_Some in Hk. by rewrite length_enumerate_from in Hk. }
  rewrite (enumerate_from_lookup 0 _ _ _ Hx) in Hk. injection Hk as <- ->.
  apply lookup_zip_Some in Hx as [Hp Hd]. exists p, d. split_and!; [done| | |done].
  - apply postable_ok. by eapply list_elem_of_lookup_2.
  - apply (Forall_in _ _ _ He). by eapply list_elem_of_lookup_2.
Qed.

Lemma gl_in a : a ∈ ["4000"; "4010"; "4020"; "4030"; "4090"] → ∃ name type, (a, name, type, true) ∈ GL_ACCOUNTS.
Proof.
  intros Ha. assert (a ∈ (λ t : string * string * string * bool, t.1.1.1) <$> filter (λ t, t.2 = true) GL_ACCOUNTS) as Hin.
  { revert Ha. vm_compute (_ <$> _). set_solver. }
  apply list_elem_of_fmap in Hin as ([[[a' name] type] b] & -> & H).
  apply list_elem_of_filter in H as [Hb H]. cbn in Hb. subst b. by exists name, type.
Qed.

Lemma invoice_checked k p d :
  scaffold_ok g p.1 → posting_draw_ok d → good (invoice_posting np_round rates e k p d).
Proof.
  intros Ho Hd. destruct (company_in p.1 Ho) as [Hr Hc]. destruct (poo_centers _ Hd) as [Hl Hk].
  pose proof (so_day _ _ Ho). split; cbn [invoice_posting po_company company_currency gl_account cost_center_code document_type
    reverses_posting_id posting_date posted_at fiscal_period].
  - done.
  - done.
  - apply gl_in. pose proof (poo_gl _ Hd) as Hgl. revert Hgl. clear. set_solver.
  - intros code [= <-]. destruct (choose_center_in (company_of p.1) (day_at (o_day p.1)) (po_centers d) Hr) as [Hin Hco].
    + by destruct (po_centers d).
    + done.
    + by eexists.
  - left.
  - split; [done|by intros [? ?]].
  - done.
  - unfold at_second, day_at. destruct (poo_second _ Hd), (poo_lag _ Hd) as [[] []].
    assert (0 ≤ posting_lag (o_day p.1) d) by (unfold posting_lag; repeat case_match; lia). unfold day_seconds. lia.
  - by apply period_text_checked.
Qed.

Lemma invoice_in k q : invs !! k = Some q → q ∈ all.
Proof. intros Hk. apply elem_of_app. left. exact (list_elem_of_lookup_2 _ _ _ Hk). Qed.

Lemma credit_checked i d :
  d ∈ e_credits e → good (credit_note np_round rates g h e i d).
Proof.
  intros Hd. destruct (Forall_in _ _ _ Hcr Hd) as [(H0 & [Ha _] & [Hs _]) Hsel]. unfold n_inv in Hsel.
  destruct (lookup_lt_is_Some_2 invs (Z.to_nat (cr_sel d))) as [q Hq]; [lia|].
  destruct (invoice_lookup _ _ Hq) as (p & pd & Hp & Ho & Hpd & Eq).
  pose proof (invoice_checked (Z.of_nat (Z.to_nat (cr_sel d))) p pd Ho Hpd) as Hgood. rewrite <- Eq in Hgood.
  assert (at_pos invs no_posting (cr_sel d) = q) as Ei by (unfold at_pos; by rewrite Hq).
  assert (at_pos (postable np_round rates g h) (no_order, f64_of_Z 0) (cr_sel d) = p) as Ep by (unfold at_pos; by rewrite Hp).
  unfold credit_note. rewrite Ei, Ep. pose proof (so_day _ _ Ho). destruct Hgood.
  split; cbn [po_company company_currency gl_account cost_center_code document_type reverses_posting_id posting_date posted_at
    fiscal_period order_ref document_currency amount_doc amount_company]; try done.
  - right. left.
  - intros n [= <-]. exists q. split_and!; try done; try (by eapply invoice_in).
    + rewrite Eq. cbn. lia.
    + by rewrite Eq.
    + rewrite Eq. cbn [invoice_posting document_currency amount_doc]. unfold fmt_money, rounded. by rewrite round_opp.
    + rewrite Eq. cbn [invoice_posting company_currency amount_company]. unfold fmt_money, rounded. by rewrite round_opp.
    + rewrite Eq. cbn [invoice_posting posting_date]. unfold day_at. lia.
  - unfold at_second. lia.
  - apply period_text_checked. lia.
Qed.

(** Unfold the constants of the window before the functions that compute on them. *)
#[local] Strategy 100 [periods_of last_day z_range filter zmax].

Lemma last_day_of (days : list date) ym d :
  Forall (λ d, 0 < d) days → d ∈ days → (year_of d, month_of d) = ym →
  (year_of (last_day days ym), month_of (last_day days ym)) = ym ∧ last_day days ym ∈ days.
Proof.
  intros Hpos Hd E. unfold last_day. set (l := filter (λ d, (year_of d, month_of d) = ym) days) in *.
  assert (d ∈ l) as Hl by (by apply list_elem_of_filter). pose proof (zmax_ge 0 l d Hl) as Hge.
  pose proof (Forall_in _ _ _ Hpos Hd). destruct (zmax_in 0 l) as [E0|Hin]; [cbn in *; lia|].
  by apply list_elem_of_filter in Hin.
Qed.

Lemma period_of_day (days : list date) ym : ym ∈ periods_of days → ∃ d, d ∈ days ∧ (year_of d, month_of d) = ym.
Proof. unfold periods_of. rewrite elem_of_sort_by, elem_of_remove_dups, list_elem_of_fmap. intros (d & -> & Hd). by exists d. Qed.

Lemma period_end_eq ym : period_end ym = last_day all_days ym.
Proof. reflexivity. Qed.

Lemma all_days_positive : Forall (λ d, 0 < d) all_days.
Proof. apply Forall_forall. intros x Hx%elem_of_z_range. assert (START = 738521) by by vm_compute. lia. Qed.

Lemma period_end_spec ym : ym ∈ periods → (year_of (period_end ym), month_of (period_end ym)) = ym ∧ START ≤ period_end ym ≤ END.
Proof.
  intros Hym. destruct (period_of_day all_days ym Hym) as (d & Hd & E). rewrite period_end_eq.
  destruct (last_day_of all_days ym d all_days_positive Hd E) as [H1 H2]. split; [exact H1|].
  by apply elem_of_z_range.
Qed.

#[local] Opaque periods period_end.

Lemma adjustment_checked pid ym company amt :
  ym ∈ periods → company ∈ COMPANY_CCY.*1 → good (adjustment pid ym company amt).
Proof.
  intros Hym Hc. destruct (period_end_spec ym Hym) as [E Hd]. split; cbn [adjustment po_company company_currency gl_account
    cost_center_code document_type reverses_posting_id posting_date posted_at fiscal_period]; try done.
  - apply gl_in. do 4 right. left.
  - do 2 right. left.
  - unfold day_seconds. lia.
  - rewrite <- E at 1 2. cbn [fst snd]. apply period_text_iso, window_year. done.
Qed.

Lemma drawn_adjustment x : x ∈ drawn_adjustments e → x.1.1 ∈ periods ∧ x.1.2 ∈ COMPANY_CCY.*1.
Proof.
  unfold drawn_adjustments. rewrite list_elem_of_omap. intros ([[ym c] amt] & Hin & Hx).
  destruct amt as [amt|]; [|done]. injection Hx as <-. apply elem_of_zip_l in Hin. unfold adjustment_slots in Hin.
  rewrite list_elem_of_bind in Hin. destruct Hin as (ym' & Hin & Hym).
  rewrite list_elem_of_fmap in Hin. destruct Hin as (c' & [= -> ->] & Hc). split; assumption.
Qed.

Lemma elem_of_postings p : p ∈ all ↔ p ∈ invs ∨ p ∈ credit_notes np_round rates g h e ∨ p ∈ adjustments np_round rates g h e.
Proof. unfold revenue_postings. by rewrite elem_of_app, elem_of_app. Qed.

Lemma numbered_documents p : p ∈ all → document_number p = document_text (po_company p) (posting_id p) ∧ 0 ≤ posting_id p.
Proof.
  rewrite elem_of_postings. unfold invoices, credit_notes, adjustments.
  intros [Hp|[Hp|Hp]]; apply elem_of_numbered in Hp as (i & x & Hi & _ & ->); (split; [reflexivity|]).
  - cbn [fst snd invoice_posting posting_id]. lia.
  - cbn [fst snd credit_note posting_id]. unfold n_inv. lia.
  - cbn [fst snd adjustment posting_id]. unfold n_inv in *. lia.
Qed.

Lemma ledger_ok : ledger_constraints (cost_centers (e_ages e)) all.
Proof.
  assert (NoDup (posting_id <$> all)) as Hids.
  { unfold revenue_postings, invoices, credit_notes, adjustments. rewrite !fmap_app.
    rewrite (numbered_ids _ posting_id 1) by done. rewrite (numbered_ids _ posting_id (n_inv np_round rates g h e + 1)) by (cbn; lia).
    rewrite (numbered_ids _ posting_id 0) by (cbn; lia).
    set (a := Z.of_nat (length (zip _ _))). assert (n_inv np_round rates g h e = a) as ->.
    { unfold n_inv, invoices, a. by rewrite length_fmap, length_enumerate_from. }
    set (b := Z.of_nat (length (e_credits e))). set (c := Z.of_nat (length (drawn_adjustments e))).
    replace (0 + 1 + a - 1) with a by lia. replace (0 + (a + 1) + b - 1) with (a + b) by lia.
    replace (a + b + 1 + 0 + c - 1) with (a + b + c) by lia. replace (0 + 1) with 1 by lia. replace (0 + (a + 1)) with (a + 1) by lia.
    replace (a + b + 1 + 0) with (a + b + 1) by lia.
    rewrite <- (z_range_app (a + 1) (a + b) (a + b + c)) by lia. rewrite <- (z_range_app 1 a (a + b + c)) by lia. apply NoDup_z_range. }
  split; [done| |].
  - apply (NoDup_finer posting_id); [done|]. intros p q Hp Hq E. destruct (numbered_documents p Hp) as [Dp Np].
    destruct (numbered_documents q Hq) as [Dq Nq]. injection E as Ec Ed. rewrite Dp, Dq, Ec in Ed. by apply document_text_inj in Ed.
  - apply Forall_forall. intros p. rewrite elem_of_postings. intros [Hp|[Hp|Hp]].
    + apply list_elem_of_lookup in Hp as [k Hk]. destruct (invoice_lookup _ _ Hk) as (x & d & _ & Ho & Hd & ->). by apply invoice_checked.
    + unfold credit_notes in Hp. apply elem_of_numbered in Hp as (i & d & _ & Hd & ->). apply list_elem_of_lookup_2 in Hd.
      exact (credit_checked i d Hd).
    + unfold adjustments in Hp. apply elem_of_numbered in Hp as (i & x & _ & Hx & ->).
      apply list_elem_of_lookup_2, drawn_adjustment in Hx as [Hy Hc]. exact (adjustment_checked i x.1.1 x.1.2 x.2 Hy Hc).
Qed.
End Facts.

(** Draws of the ledger in their ranges; the credited invoices exist. *)
Record erp_draws_ok (np_round : f64 → Z → f64) (rates : string → list f64) (g : crm_draws) (h : ops_draws) (e : erp_draws) : Prop := {
  eo_ages : length (e_ages e) = 24%nat;
  eo_postings : Forall posting_draw_ok (e_postings e);
  eo_credits : Forall (λ d, credit_draw_ok d ∧ cr_sel d < n_inv np_round rates g h e) (e_credits e) }.


(** ** A small ledger *)

Definition example_rates (ccy : string) : list f64 := replicate 2000 (f64_of_Z 1).
Definition example_erp : erp_draws :=
  mkErpDraws (replicate 24 500)
    [mkPostingDraw [6; 0; 1; 2; 3; 4; 5] "4010" true 3 false 12 40000; mkPostingDraw [5; 5; 5; 5; 5; 5; 5] "4000" true 3 true 12 50000]
    [mkCreditDraw 1 10 30000] [None; Some (f64_of_Z 300); None; None; None; Some (f64_of_Z 0)].

Lemma example_erp_ok : erp_draws_ok (λ x _, x) example_rates example_draws example_ops example_erp.
Proof.
  split; [done| |].
  - repeat constructor; unfold in_bounds; cbn; try lia; set_solver.
  - assert (n_inv (λ x _, x) example_rates example_draws example_ops example_erp = 2) as -> by by vm_compute.
    repeat constructor; unfold in_bounds; cbn; lia.
Qed.

(** The second invoice was posted to a centre that opened on 2025-02-03: no draw found another one. *)
Example example_ledger :
  (λ p, (posting_id p, document_number p, cost_center_code p, isoformat (posting_date p), reverses_posting_id p)) <$>
    revenue_postings (λ x _, x) example_rates example_draws example_ops example_erp =
  [(1, "DE01-000000001", Some "CC-DE013", "2024-02-09", None); (2, "DE01-000000002", Some "CC-DE026", "2024-12-10", None);
   (3, "DE01-000000003", Some "CC-DE026", "2024-12-20", Some 2); (4, "CA01-000000004", None, "2023-01-31", None);
   (5, "US01-000000005", None, "2023-02-28", None)].
Proof. vm_compute. reflexivity. Qed.


(** The adjustments of the last, partial period are posted two days after the end of the window. *)
Example last_adjustment : last periods = Some (2026, 7) ∧ period_end (2026, 7) = END ∧
  posted_at (adjustment 1 (2026, 7) "US01" (f64_of_Z 5)) / day_seconds = END + 2.
Proof. vm_compute. done. Qed.
