(* ===== verification/Files.v ===== *)
(** * Paths, directories and globbing

    The part of the file system the catalog and the compactor use: paths as lists of segments,
    inodes with size and times, the operations that change directories and the times they set,
    and [pathlib]'s [Path.glob] (Python 3.12) with [fnmatch]'s patterns. Symbolic links are not
    modelled: [resolve] only removes the segments [..]. Every operation takes a tick of the clock;
    two operations within one tick of a coarse clock are outside of the model. *)

From stdpp Require Import prelude gmap strings list sorting.
From Stdlib Require Import ZArith Lia Ascii.
From S2P Require Import Prelude PyText.

Open Scope Z_scope.

(** ** Paths *)

(** An absolute path: its segments from the root. *)
Abbreviation path := (list string).

(** [str(path)] *)
Definition path_str (p : path) : string := "/" +:+ join "/" p.

(** The segments between slashes. *)
Fixpoint split_slash (cur : list ascii) (s : list ascii) : list string :=
  match s with
  | [] => [str cur]
  | c :: s => if bool_decide (c = "/"%char) then str cur :: split_slash [] s else split_slash (cur ++ [c]) s
  end.

(** [PurePosixPath(pattern).parts], without the slash of an absolute pattern. *)
Definition parts (pattern : string) : list string :=
  filter (λ s, s ≠ "" ∧ s ≠ ".") (split_slash [] (chars pattern)).
Definition is_absolute (pattern : string) : bool := starts_with "/" pattern.

(** [Path.resolve] *)
Definition step_up (acc : path) (s : string) : path := if bool_decide (s = "..") then removelast acc else acc ++ [s].
Definition resolve (p : path) : path := foldl step_up [] p.

Definition is_prefix (p q : path) : bool := bool_decide (take (length p) q = p).

(** Python orders paths by their segments. *)
Fixpoint path_le (p q : path) : bool :=
  match p, q with
  | [], _ => true
  | _, [] => false
  | a :: p, b :: q => if bool_decide (a = b) then path_le p q else str_le a b
  end.

(** [sorted(set(paths))] *)
Definition sorted_set (l : list path) : list path := sort_by path_le (remove_dups l).

(** ** Inodes and directories *)

Record inode := mkInode { i_dir : bool; i_size : Z; i_mtime : Z; i_btime : Z }.
Record fs := mkFs { fs_nodes : gmap path inode; fs_now : Z }.

Definition lookup_path (f : fs) (p : path) : option inode := fs_nodes f !! resolve p.
Definition exists_ (f : fs) (p : path) : bool := bool_decide (is_Some (lookup_path f p)).
Definition is_file (f : fs) (p : path) : bool := match lookup_path f p with Some i => negb (i_dir i) | None => false end.
Definition is_dir (f : fs) (p : path) : bool := match lookup_path f p with Some i => i_dir i | None => false end.

(** The name of [q] in the directory [p]. *)
Definition child_name (p q : path) : option string :=
  if is_prefix p q then match drop (length p) q with [n] => Some n | _ => None end else None.
(** [os.scandir(p)], in some order. *)
Definition scandir (f : fs) (p : path) : list (string * inode) :=
  omap (λ kv, (λ n, (n, kv.2)) <$> child_name (resolve p) kv.1) (map_to_list (fs_nodes f)).

(** The operations; the code's error cases are preconditions of the steps below. *)
Definition set_mtime (t : Z) (i : inode) : inode := mkInode (i_dir i) (i_size i) t (i_btime i).
Definition parent (p : path) : path := removelast p.
Definition touch (t : Z) (p : path) (m : gmap path inode) : gmap path inode := alter (set_mtime t) p m.
Definition dir_size : Z := 4096.

Definition mkdir (p : path) (f : fs) : fs :=
  let t := fs_now f + 1 in mkFs (<[p := mkInode true dir_size t t]> (touch t (parent p) (fs_nodes f))) t.
Definition create (p : path) (size : Z) (f : fs) : fs :=
  let t := fs_now f + 1 in mkFs (<[p := mkInode false size t t]> (touch t (parent p) (fs_nodes f))) t.
Definition write (p : path) (size : Z) (f : fs) : fs :=
  let t := fs_now f + 1 in mkFs (alter (λ i, mkInode (i_dir i) size t (i_btime i)) p (fs_nodes f)) t.
Definition remove (p : path) (f : fs) : fs :=
  let t := fs_now f + 1 in mkFs (delete p (touch t (parent p) (fs_nodes f))) t.
(** [os.replace(d / src, d / dst)] *)
Definition replace (d : path) (src dst : string) (f : fs) : fs :=
  let t := fs_now f + 1 in
  match fs_nodes f !! (d ++ [src]) with
  | Some i => mkFs (<[d ++ [dst] := i]> (delete (d ++ [src]) (touch t d (fs_nodes f)))) t
  | None => f
  end.
Definition wait (dt : Z) (f : fs) : fs := mkFs (fs_nodes f) (fs_now f + dt).

(** ** [fnmatch] *)

Inductive token := TStar | TAny | TSet (negated : bool) (ranges : list (ascii * ascii)) | TChar (c : ascii).

(** The members of a set: [a-z] is a range, a hyphen first or last stands for itself. *)
Fixpoint set_ranges (l : list ascii) : list (ascii * ascii) :=
  match l with
  | [] => []
  | a :: tl =>
    match tl with
    | h :: b :: rest => if bool_decide (h = "-"%char) then (a, b) :: set_ranges rest else (a, a) :: set_ranges tl
    | _ => (a, a) :: set_ranges tl
    end
  end.

(** The text up to the closing bracket and the rest; the first character never closes. *)
Fixpoint until_bracket (l : list ascii) : option (list ascii * list ascii) :=
  match l with
  | [] => None
  | c :: l => if bool_decide (c = "]"%char) then Some ([], l) else (λ p, (c :: p.1, p.2)) <$> until_bracket l
  end.
Definition bracket (l : list ascii) : option (bool * list ascii * list ascii) :=
  let neg := match l with "!"%char :: _ => true | _ => false end in
  let l := if neg then drop 1 l else l in
  match l with
  | [] => None
  | c :: l => (λ p, (neg, c :: p.1, p.2)) <$> until_bracket l
  end.

Fixpoint tokens (fuel : nat) (l : list ascii) : list token :=
  match fuel, l with
  | S fuel, c :: l =>
    if bool_decide (c = "*"%char) then TStar :: tokens fuel l
    else if bool_decide (c = "?"%char) then TAny :: tokens fuel l
    else if bool_decide (c = "["%char) then
      match bracket l with
      | Some (neg, body, rest) => TSet neg (set_ranges body) :: tokens fuel rest
      | None => TChar c :: tokens fuel l
      end
    else TChar c :: tokens fuel l
  | _, _ => []
  end.
Definition pattern_tokens (pat : string) : list token := tokens (S (length (chars pat))) (chars pat).

Definition in_set (c : ascii) (r : ascii * ascii) : bool := in_range (code r.1) (code r.2) c.
Definition token_match (t : token) (c : ascii) : bool :=
  match t with
  | TStar | TAny => true
  | TSet neg rs => xorb neg (existsb (in_set c) rs)
  | TChar d => bool_decide (c = d)
  end.

Fixpoint tokens_match (ts : list token) (s : list ascii) : bool :=
  match ts with
  | [] => bool_decide (s = [])
  | TStar :: ts =>
    (fix star (s : list ascii) : bool := tokens_match ts s || match s with [] => false | _ :: s => star s end) s
  | t :: ts => match s with c :: s => token_match t c && tokens_match ts s | [] => false end
  end.
Definition fnmatch (pat s : string) : bool := tokens_match (pattern_tokens pat) (chars s).

(** ** [Path.glob] *)

Fixpoint has_double_star (l : list ascii) : bool :=
  match l with
  | "*"%char :: ("*"%char :: _) => true
  | _ :: l => has_double_star l
  | [] => false
  end.

(** [_RecursiveWildcardSelector._iterate_directories]: [p] and the directories below it. *)
Definition directories (f : fs) (p : path) : list path :=
  p :: omap (λ kv, if i_dir kv.2 && is_prefix (resolve p) kv.1 && negb (bool_decide (kv.1 = resolve p))
                   then Some (p ++ drop (length (resolve p)) kv.1) else None)
            (map_to_list (fs_nodes f)).

(** [_make_selector] and [_select_from] *)
Fixpoint select (f : fs) (pats : list string) (p : path) : list path :=
  match pats with
  | [] => [p]
  | pat :: rest =>
    if bool_decide (pat = "") then [p]
    else if bool_decide (pat = "**") then directories f p ≫= select f rest
    else if bool_decide (pat = "..") then select f rest (p ++ [".."])
    else
      scandir f p ≫= λ e,
        if (i_dir e.2 || bool_decide (rest = [])) && fnmatch pat e.1 then select f rest (p ++ [e.1]) else []
  end.

Definition glob (f : fs) (root : path) (pattern : string) : res (list path) :=
  if bool_decide (pattern = "") then raise ValueError "Unacceptable pattern: ''"
  else if is_absolute pattern then raise RuntimeError "Non-relative patterns are unsupported"
  else
    let pats := parts pattern ++ (if ends_with "/" pattern then [""] else []) in
    if bool_decide (pats = []) then raise IndexError "tuple index out of range"
    else if existsb (λ s, negb (String.eqb s "**") && has_double_star (chars s)) pats
    then raise ValueError "Invalid pattern: '**' can only be an entire path component"
    else Ok (if is_dir f root then select f pats root else []).

(** ** Sorted sets of paths *)

Lemma path_le_total p q : path_le p q = true ∨ path_le q p = true.
Proof.
  revert q. induction p as [|a p IH]; intros [|b q]; simpl; auto.
  do 2 case_bool_decide; subst; try done; auto using str_le_total.
Qed.

Lemma path_le_trans p q r : path_le p q = true → path_le q r = true → path_le p r = true.
Proof.
  revert q r. induction p as [|a p IH]; intros [|b q] [|c r]; simpl; try done.
  repeat case_bool_decide; subst; try done; try (by eauto using str_le_trans).
  intros H1 H2. destruct H. by apply str_le_antisym.
Qed.

Lemma path_le_antisym p q : path_le p q = true → path_le q p = true → p = q.
Proof.
  revert q. induction p as [|a p IH]; intros [|b q]; simpl; try done.
  repeat case_bool_decide; subst; try done; [intros; f_equal; by apply IH|].
  intros H1 H2. destruct H. by apply str_le_antisym.
Qed.

Lemma elem_of_sorted_set p l : p ∈ sorted_set l ↔ p ∈ l.
Proof. unfold sorted_set. rewrite elem_of_sort_by. apply elem_of_remove_dups. Qed.

(** A sorted set depends only on the elements. *)
Lemma sorted_set_ext l l' : (∀ p, p ∈ l ↔ p ∈ l') → sorted_set l = sorted_set l'.
Proof.
  intros H. apply sort_by_Permutation; [apply path_le_total|apply path_le_trans|intros; by apply path_le_antisym|].
  apply NoDup_Permutation; [apply NoDup_remove_dups..|]. intros p. by rewrite !elem_of_remove_dups.
Qed.

(** ** Literal patterns *)

Definition is_wildcard (c : ascii) : bool := bool_decide (c ∈ ["*"%char; "?"%char; "["%char]).
Definition literal (s : string) : Prop := Forall (λ c, is_wildcard c = false) (chars s).

Lemma tokens_literal fuel l :
  (length l < fuel)%nat → Forall (λ c, is_wildcard c = false) l → tokens fuel l = TChar <$> l.
Proof.
  revert l. induction fuel as [|fuel IH]; intros [|c l] Hn Hl; cbn [length] in Hn; try lia; [done|].
  apply Forall_cons in Hl as [Hc Hl]. apply bool_decide_eq_false in Hc. cbn [tokens].
  rewrite !bool_decide_eq_false_2 by (intros ->; apply Hc; set_solver). rewrite IH by (done || lia). done.
Qed.

Lemma tokens_match_chars l s : tokens_match (TChar <$> l) s = true ↔ s = l.
Proof.
  revert s. induction l as [|c l IH]; intros [|d s]; cbn [fmap list_fmap tokens_match]; try (by rewrite bool_decide_eq_true); [done|].
  rewrite andb_true_iff, IH. cbn [token_match]. rewrite bool_decide_eq_true. split; [by intros [-> ->]|by intros [= -> ->]].
Qed.

Lemma fnmatch_literal pat n : literal pat → fnmatch pat n = true ↔ n = pat.
Proof.
  intros H. unfold fnmatch, pattern_tokens. rewrite tokens_literal by (done || lia). rewrite tokens_match_chars.
  split; [apply chars_inj|by intros ->].
Qed.

Lemma fnmatch_suffix suffix n : literal suffix → fnmatch ("*" +:+ suffix) n = true ↔ ∃ l, chars n = l ++ chars suffix.
Proof.
  intros H. unfold fnmatch, pattern_tokens.
  assert (chars ("*" +:+ suffix) = "*"%char :: chars suffix) as -> by done.
  change (tokens (S (length ("*"%char :: chars suffix))) ("*"%char :: chars suffix))
    with (TStar :: tokens (S (length (chars suffix))) (chars suffix)).
  rewrite tokens_literal by (done || lia).
  generalize (chars n). cbn [tokens_match]. induction l as [|c l IH].
  - rewrite orb_false_r, tokens_match_chars. split; [intros <-; by exists []|]. intros [l E]. by destruct l, (chars suffix).
  - rewrite orb_true_iff, tokens_match_chars, IH. split.
    + intros [E|[l' ->]]; [by exists []|by exists (c :: l')].
    + intros [[|d l'] E]; [by left|]. right. injection E as _ ->. by exists l'.
Qed.

(** ** Globbing on ordinary paths *)

Definition ordinary (s : string) : Prop := s ≠ "..".

Lemma foldl_step_up acc p : Forall ordinary p → foldl step_up acc p = acc ++ p.
Proof.
  revert acc. induction p as [|s p IH]; intros acc; [by rewrite app_nil_r|]. intros [Hs Hp]%Forall_cons. cbn [foldl].
  rewrite IH by done. unfold step_up. rewrite bool_decide_eq_false_2 by done. by rewrite <- app_assoc.
Qed.

Lemma resolve_ordinary p : Forall ordinary p → resolve p = p.
Proof. intros H. by apply (foldl_step_up []). Qed.

Lemma is_prefix_spec p q : is_prefix p q = true ↔ ∃ r, q = p ++ r.
Proof.
  unfold is_prefix. rewrite bool_decide_eq_true. split.
  - intros H. exists (drop (length p) q). by rewrite <- H at 1; rewrite take_drop.
  - intros [r ->]. by rewrite take_app_length.
Qed.

Lemma child_name_spec p q n : child_name p q = Some n ↔ q = p ++ [n].
Proof.
  unfold child_name. split.
  - destruct (is_prefix p q) eqn:E; [|done]. apply is_prefix_spec in E as [r ->]. rewrite drop_app_length.
    destruct r as [|m [|? ?]]; [done| |done]. by intros [= ->].
  - intros ->. assert (is_prefix p (p ++ [n]) = true) as -> by (apply is_prefix_spec; by eexists). by rewrite drop_app_length.
Qed.

Section Glob.
Context (f : fs) (Hf : ∀ p i, fs_nodes f !! p = Some i → Forall ordinary p).

Lemma elem_of_scandir p n i : Forall ordinary p → (n, i) ∈ scandir f p ↔ fs_nodes f !! (p ++ [n]) = Some i.
Proof.
  intros Hp. unfold scandir. rewrite resolve_ordinary by done. rewrite list_elem_of_omap. split.
  - intros ([q j] & Hq & E). apply elem_of_map_to_list in Hq. cbn in E. destruct (child_name p q) as [m|] eqn:Em; [|done].
    apply child_name_spec in Em. cbn in E. by simplify_eq.
  - intros H. exists (p ++ [n], i). split; [by apply elem_of_map_to_list|]. cbn. by rewrite (proj2 (child_name_spec _ _ _) eq_refl).
Qed.

Lemma elem_of_directories p q :
  Forall ordinary p →
  q ∈ directories f p ↔ q = p ∨ ∃ r i, r ≠ [] ∧ q = p ++ r ∧ fs_nodes f !! q = Some i ∧ i_dir i = true.
Proof.
  intros Hp. unfold directories. rewrite elem_of_cons, list_elem_of_omap, resolve_ordinary by done. apply or_iff_compat_l. split.
  - intros ([q' i] & Hq & E). apply elem_of_map_to_list in Hq. cbn in E.
    destruct (i_dir i) eqn:Ei; [|done]. destruct (is_prefix p q') eqn:Ep; [|done]. apply is_prefix_spec in Ep as [r ->].
    case_bool_decide as Hr; [done|]. cbn in E. rewrite drop_app_length in E. simplify_eq.
    exists r, i. split_and!; [|done..]. intros ->. by rewrite app_nil_r in Hr.
  - intros (r & i & Hr & -> & Hi & Hd). exists (p ++ r, i). split; [by apply elem_of_map_to_list|]. cbn. rewrite Hd.
    rewrite (proj2 (is_prefix_spec p (p ++ r))) by (by eexists). rewrite bool_decide_eq_false_2, drop_app_length; [done|].
    intros E. rewrite <- (app_nil_r p) in E at 2. by apply app_inv_head in E.
Qed.

Definition plain (pat : string) : Prop := pat ≠ "" ∧ pat ≠ "**" ∧ pat ≠ "..".

(** One segment, and a last one. *)
Lemma elem_of_select pat rest p q :
  plain pat → Forall ordinary p →
  q ∈ select f (pat :: rest) p ↔
  ∃ n i, fs_nodes f !! (p ++ [n]) = Some i ∧ (i_dir i = true ∨ rest = []) ∧ fnmatch pat n = true ∧ q ∈ select f rest (p ++ [n]).
Proof.
  intros (H1 & H2 & H3) Hp. cbn [select]. rewrite !bool_decide_eq_false_2 by done. rewrite list_elem_of_bind. split.
  - intros ([n i] & Hq & Hn). apply elem_of_scandir in Hn; [|done]. cbn [fst snd] in Hq, Hn. exists n, i.
    destruct (_ && _) eqn:E; [|by apply elem_of_nil in Hq]. apply andb_true_iff in E as [E1 E2].
    apply orb_true_iff in E1. rewrite bool_decide_eq_true in E1. done.
  - intros (n & i & Hn & Hd & Hm & Hq). exists (n, i). split; [|by apply elem_of_scandir]. cbn [fst snd]. rewrite Hm, andb_true_r.
    destruct Hd as [->| ->]; [done|]. by rewrite bool_decide_eq_true_2, orb_true_r.
Qed.

Lemma elem_of_select_recursive rest p q :
  q ∈ select f ("**" :: rest) p ↔ ∃ d, d ∈ directories f p ∧ q ∈ select f rest d.
Proof.
  change (select f ("**" :: rest) p) with (directories f p ≫= select f rest). rewrite list_elem_of_bind.
  split; intros (d & ? & ?); by exists d.
Qed.

(** The pattern of the delta partitions: an object's directory, any directories, a file name. *)
Lemma elem_of_select_deltas obj pat p q :
  plain obj → plain pat → Forall ordinary p →
  q ∈ select f [obj; "**"; pat] p ↔
  ∃ d r n i, q = p ++ [d] ++ r ++ [n] ∧ fnmatch obj d = true ∧ fnmatch pat n = true ∧ fs_nodes f !! q = Some i ∧
    (∃ j, fs_nodes f !! (p ++ [d]) = Some j ∧ i_dir j = true) ∧
    (r = [] ∨ ∃ j, fs_nodes f !! (p ++ [d] ++ r) = Some j ∧ i_dir j = true).
Proof.
  intros Ho Hpat Hp. rewrite elem_of_select by done. split.
  - intros (d & j & Hj & [Hd|Hd] & Hm & Hq); [|done]. apply elem_of_select_recursive in Hq as (e & He & Hq).
    apply elem_of_directories in He; [|by eapply Hf].
    assert (∃ r, e = p ++ [d] ++ r ∧ (r = [] ∨ ∃ j, fs_nodes f !! (p ++ [d] ++ r) = Some j ∧ i_dir j = true)) as (r & -> & Hr).
    { destruct He as [->|(r & i & Hr & -> & Hi & Hi')]; [exists []; by auto|]. exists r. rewrite <- app_assoc in Hi |- *. split; [done|]. right. by eauto. }
    apply elem_of_select in Hq; [|done|destruct Hr as [->|(? & Hr & _)]; [rewrite app_nil_r|]; by eapply Hf].
    destruct Hq as (n & i & Hi & _ & Hn & Hq). cbn [select] in Hq. apply list_elem_of_singleton in Hq as ->.
    exists d, r, n, i. rewrite <- !app_assoc in Hi |- *. split_and!; try done. by eauto.
  - intros (d & r & n & i & -> & Hd & Hn & Hi & (j & Hj & Hj') & Hr). exists d, j. split_and!; [done|by left|done|].
    apply elem_of_select_recursive. exists (p ++ [d] ++ r).
    assert (Forall ordinary (p ++ [d] ++ r)) as Hord. { apply Hf in Hi. rewrite !Forall_app in *. tauto. }
    split.
    + apply elem_of_directories; [by eapply Hf|]. destruct Hr as [->|(k & Hk & Hk')]; [left; done|].
      destruct (decide (r = [])) as [->|Hne]; [by left|]. right. exists r, k. split_and!; [done|by rewrite <- app_assoc|done|done].
    + apply elem_of_select; [done|done|]. exists n, i. rewrite <- !app_assoc. split_and!; [done|by right|done|].
      cbn [select]. by apply list_elem_of_singleton.
Qed.
End Glob.

(** ** Examples *)

Example fnmatch_examples :
  fnmatch "*.parquet" "delta.parquet" = true ∧ fnmatch "*.parquet" ".delta.x1.tmp" = false ∧
  fnmatch "a[b-d!]?" "ac9" = true ∧ fnmatch "[!a-c]*" "ab" = false ∧ fnmatch "x[1" "x[1" = true.
Proof. by vm_compute. Qed.

Definition example_fs : fs :=
  create ["d"; "a"; "p=1"; "x.parquet"] 10 (mkdir ["d"; "a"; "p=1"] (mkdir ["d"; "a"] (mkdir ["d"] (mkFs ∅ 0)))).

Example glob_example :
  glob example_fs ["d"] "a/**/*.parquet" = Ok [["d"; "a"; "p=1"; "x.parquet"]] ∧
  glob example_fs ["d"] "../d/a/*" = Ok [["d"; ".."; "d"; "a"; "p=1"]] ∧
  glob example_fs ["d"] "/a" = raise RuntimeError "Non-relative patterns are unsupported".
Proof. by vm_compute. Qed.
