(* ===== verification/Sources.v ===== *)
(** * Source resolution and its caches: [fakeforce/catalog.py]

    Which files make up an object: the configured base or the compacted file that replaces it, and
    the delta partitions found by globbing; the fingerprints of the file system behind which the
    resolution and the snapshot identifier are memoised, and the cache itself as concurrent
    requests use it. A reader takes the fingerprint first and asks the cache afterwards; the file
    system moves in between. [fs_step] lists what the programs around the catalog may do to the
    files while it runs. The theorems show that the caches never go stale. *)

From stdpp Require Import prelude gmap strings list relations.
From Stdlib Require Import ZArith Lia Ascii.
From S2P Require Import Prelude PyText Sha256 PyNum Dates Events Soql Catalog Files.

Open Scope Z_scope.

(** ** Which files an object has *)

Definition COMPACTED_DIRECTORY : string := "compacted".
Definition COMPACTED_BASE_FILENAME : string := "base.parquet".
Definition _SUPPORTED_SUFFIXES : list string := [".parquet"; ".csv"; ".csv.gz"].

(** The fields of a specification the resolution reads, with parsed paths. *)
Record source_spec := mkSource { ss_sources : list path; ss_patterns : list string; ss_roots : list path }.

Definition path_of (text : string) : path := parts text.
Definition source_of (roots : list path) (s : DatasetSpec) : source_spec :=
  mkSource (path_of <$> sources s) (delta_patterns s) roots.

Definition name_of (p : path) : string := default "" (last p).
Definition supported (name : string) : bool := existsb (λ s, ends_with s name) _SUPPORTED_SUFFIXES.

Definition _expand_source (f : fs) (pattern : string) (roots : list path) : res (list path) :=
  let! matches :=
    res_map (λ root,
      let! candidates := glob f root pattern in
      res_omap (λ candidate,
        let resolved := resolve candidate in
        if is_file f candidate && existsb (λ allowed, is_prefix allowed resolved) roots then
          if supported (name_of candidate) then Ok (Some resolved)
          else raise CatalogError ("unsupported source format: " +:+ path_str candidate)
        else Ok None) candidates) roots in
  Ok (sorted_set (concat matches)).

Fixpoint literal_prefix (l : list string) : list string :=
  match l with
  | [] => []
  | s :: l => if existsb is_wildcard (chars s) then [] else s :: literal_prefix l
  end.

(** [root.joinpath] of the prefix *)
Definition delta_root (pattern : string) (root : path) : path :=
  if is_absolute pattern then literal_prefix (parts pattern) else root ++ literal_prefix (parts pattern).
Definition delta_roots (spec : source_spec) : list path :=
  sorted_set (ss_patterns spec ≫= λ pattern, delta_root pattern <$> ss_roots spec).

Definition compacted_base (f : fs) (spec : source_spec) : option path :=
  head (filter (λ c, is_file f c = true) ((λ root, root ++ [COMPACTED_DIRECTORY; COMPACTED_BASE_FILENAME]) <$> delta_roots spec)).
Definition effective_base (f : fs) (spec : source_spec) : list path :=
  match compacted_base f spec with Some c => [c] | None => ss_sources spec end.

Definition published_deltas (f : fs) (spec : source_spec) : res (list path) :=
  let! deltas := res_map (λ pattern, _expand_source f pattern (ss_roots spec)) (ss_patterns spec) in
  Ok (sort_by path_le (filter (λ p, name_of (parent p) ≠ COMPACTED_DIRECTORY) (remove_dups (concat deltas)))).

Definition _resolve_sources (f : fs) (spec : source_spec) : res (list path) :=
  let base := effective_base f spec in
  let! deltas := published_deltas f spec in
  Ok (sorted_set (base ++ deltas)).

(** ** Fingerprints *)

Definition _file_signature (f : fs) (p : path) : option (Z * Z) := (λ i, (i_size i, i_mtime i)) <$> lookup_path f p.

Definition entry_le (a b : string * Z) : bool := if bool_decide (a.1 = b.1) then a.2 <=? b.2 else str_le a.1 b.1.
Definition _directory_signature (f : fs) (d : path) : list (string * Z) :=
  if is_dir f d then sort_by entry_le ((λ e, (e.1, i_mtime e.2)) <$> scandir f d) else [].

Inductive fingerprint_entry :=
| FBase (path : string) (signature : option (Z * Z))
| FDelta (path : string) (signature : list (string * Z)).
#[export] Instance fingerprint_entry_eq_dec : EqDecision fingerprint_entry.
Proof. solve_decision. Defined.

Definition fingerprint := list fingerprint_entry.
Definition structural_fingerprint (f : fs) (spec : source_spec) : fingerprint :=
  ((λ p, FBase (path_str p) (_file_signature f p)) <$> ss_sources spec) ++
  ((λ d, FDelta (path_str d) (_directory_signature f d)) <$> delta_roots spec).

(** ** The cache *)

Section Cache.
Context {F V : Type} `{EqDecision F}.

(** [_ResolutionCache]: [None] where both fields are [_MISSING]. *)
Definition cache := option (F * V).

(** [get], under the lock: the fingerprint was computed before. *)
Definition cache_get (fingerprint : F) (compute : res V) : io cache V := λ c,
  match c with
  | Some (old, value) => if bool_decide (old = fingerprint) then (c, Ok value)
                         else match compute with Ok v => (Some (fingerprint, v), Ok v) | Err e => (c, Err e) end
  | None => match compute with Ok v => (Some (fingerprint, v), Ok v) | Err e => (c, Err e) end
  end.
Definition peek (c : cache) : option V := snd <$> c.
Definition invalidate : io cache unit := io_modify (λ _, None).
End Cache.
Arguments cache F V : clear implicits.

(** [DatasetSpec.current_sources], when nothing happens in between. *)
Definition current_sources (f : fs) (spec : source_spec) : io (cache fingerprint (list path)) (list path) :=
  cache_get (structural_fingerprint f spec) (_resolve_sources f spec).

(** ** What may happen to the files *)

Section Steps.
Context (spec : source_spec).

(** Below a delta root. *)
Definition in_area (p : path) : Prop := ∃ r q, r ∈ delta_roots spec ∧ p = r ++ q.
Definition in_partition (p : path) : Prop := ∃ r a n, r ∈ delta_roots spec ∧ p = r ++ [a; n].

Definition dir_at (f : fs) (p : path) : Prop := ∃ i, fs_nodes f !! p = Some i ∧ i_dir i = true.
Definition file_at (f : fs) (p : path) : Prop := ∃ i, fs_nodes f !! p = Some i ∧ i_dir i = false.

(** The steps of everything that runs beside FakeForce. Outside of the delta roots anything goes.
    Inside, partitions are directories directly below a delta root with files in them; a partition
    is removed only after the compacted directory was changed since the partition was made. *)
Inductive fs_step (f : fs) : fs → Prop :=
| step_wait dt : 0 ≤ dt → fs_step f (wait dt f)
| step_mkdir p n :
    fs_nodes f !! (p ++ [n]) = None → dir_at f p → ordinary n →
    ¬ in_area (p ++ [n]) ∨ p ++ [n] ∈ delta_roots spec ∨ p ∈ delta_roots spec →
    fs_step f (mkdir (p ++ [n]) f)
| step_create p n size :
    fs_nodes f !! (p ++ [n]) = None → dir_at f p → ordinary n →
    ¬ in_area (p ++ [n]) ∨ in_partition (p ++ [n]) →
    fs_step f (create (p ++ [n]) size f)
| step_write p size : file_at f p → fs_step f (write p size f)
| step_replace d x y :
    file_at f (d ++ [x]) → ¬ dir_at f (d ++ [y]) → ordinary y →
    ¬ in_area (d ++ [x]) ∧ ¬ in_area (d ++ [y]) ∨ in_partition (d ++ [x]) →
    fs_step f (replace d x y f)
| step_unlink p n : file_at f (p ++ [n]) → ¬ in_area (p ++ [n]) ∨ in_partition (p ++ [n]) → fs_step f (remove (p ++ [n]) f)
| step_rmdir p n :
    dir_at f (p ++ [n]) → (∀ m, fs_nodes f !! (p ++ [n; m]) = None) →
    ¬ in_area (p ++ [n]) ∨
      (n ≠ COMPACTED_DIRECTORY ∧ p ∈ delta_roots spec ∧
       ∃ i r j, fs_nodes f !! (p ++ [n]) = Some i ∧ r ∈ delta_roots spec ∧
                fs_nodes f !! (r ++ [COMPACTED_DIRECTORY]) = Some j ∧ i_btime i < i_mtime j) →
    fs_step f (remove (p ++ [n]) f).

(** A well-formed tree whose delta roots hold partitions only. *)
Record fs_wf (f : fs) : Prop := {
  wf_ordinary : ∀ p i, fs_nodes f !! p = Some i → Forall ordinary p;
  wf_times : ∀ p i, fs_nodes f !! p = Some i → i_btime i ≤ fs_now f ∧ i_mtime i ≤ fs_now f;
  wf_parent : ∀ p n i, fs_nodes f !! (p ++ [n]) = Some i → dir_at f p;
  wf_area : ∀ r q i, r ∈ delta_roots spec → fs_nodes f !! (r ++ q) = Some i →
    (q = [] ∨ ∃ a, q = [a]) ∧ i_dir i = true ∨ ∃ a n, q = [a; n] ∧ i_dir i = false }.
End Steps.

(** ** What a step does to a partition *)

Section Partitions.
Context (spec : source_spec).
(** No delta root lies inside another. *)
Definition roots_apart : Prop := ∀ r q, r ∈ delta_roots spec → r ++ q ∈ delta_roots spec → q = [].
Context (Hapart : roots_apart).

Definition member (f : fs) (r : path) (a n : string) : Prop := is_Some (fs_nodes f !! (r ++ [a; n])).

Inductive partition_change (f f' : fs) (r : path) (a : string) : Prop :=
| pc_same :
    fs_nodes f' !! (r ++ [a]) = fs_nodes f !! (r ++ [a]) → (∀ n, member f' r a n ↔ member f r a n) → partition_change f f' r a
| pc_touch i :
    fs_nodes f !! (r ++ [a]) = Some i → fs_nodes f' !! (r ++ [a]) = Some (set_mtime (fs_now f') i) → fs_now f < fs_now f' →
    partition_change f f' r a
| pc_new :
    fs_nodes f !! (r ++ [a]) = None → fs_nodes f' !! (r ++ [a]) = Some (mkInode true dir_size (fs_now f') (fs_now f')) →
    fs_now f < fs_now f' → partition_change f f' r a
| pc_gone i r' j :
    fs_nodes f !! (r ++ [a]) = Some i → fs_nodes f' !! (r ++ [a]) = None → a ≠ COMPACTED_DIRECTORY →
    r' ∈ delta_roots spec → fs_nodes f' !! (r' ++ [COMPACTED_DIRECTORY]) = Some j → i_btime i < i_mtime j →
    partition_change f f' r a.

Lemma snoc2 (r : path) a n : r ++ [a; n] = (r ++ [a]) ++ [n].
Proof. by rewrite <- app_assoc. Qed.

Lemma parent_snoc p n : parent (p ++ [n]) = p.
Proof. apply removelast_last. Qed.

Lemma partition_not_entry r a p : r ∈ delta_roots spec → in_partition spec p → r ++ [a] ≠ p.
Proof.
  intros Hr (r' & a' & n & Hr' & ->) E. rewrite snoc2 in E. apply app_inj_tail in E as [-> _].
  by specialize (Hapart r' [a'] Hr' Hr).
Qed.

Lemma partition_sibling d x y : in_partition spec (d ++ [x]) → in_partition spec (d ++ [y]).
Proof.
  intros (r & a & n & Hr & E). rewrite snoc2 in E. apply app_inj_tail in E as [-> _].
  exists r, a, y. by rewrite snoc2.
Qed.

Lemma entry_in_area r a : r ∈ delta_roots spec → in_area spec (r ++ [a]).
Proof. intros Hr. by exists r, [a]. Qed.

Lemma member_touch t q m r a n : is_Some (touch t q m !! (r ++ [a; n])) ↔ is_Some (m !! (r ++ [a; n])).
Proof. unfold touch. by rewrite lookup_alter_is_Some. Qed.

(** A step at [p / n] that touches [p], seen from another entry. *)
Lemma change_beside (f f' : fs) (p : path) (n : string) r a :
  (∀ q, q ≠ p ++ [n] → fs_nodes f' !! q = touch (fs_now f') p (fs_nodes f) !! q) →
  fs_now f < fs_now f' → dir_at f p → r ++ [a] ≠ p ++ [n] → partition_change f f' r a.
Proof.
  intros Hq Ht (i & Hi & _) Hne. destruct (decide (p = r ++ [a])) as [->|Hp].
  - apply (pc_touch _ _ _ _ i); [done| |done]. rewrite Hq by done. unfold touch. by rewrite lookup_alter_eq, Hi.
  - apply pc_same; [rewrite Hq by done; unfold touch; by rewrite lookup_alter_ne|].
    intros m. unfold member. rewrite Hq; [apply member_touch|]. intros E. rewrite snoc2 in E. apply app_inj_tail in E as [E _]. congruence.
Qed.

Lemma now_step f f' : fs_step spec f f' → fs_now f ≤ fs_now f'.
Proof. destruct 1; cbn; try lia. unfold replace. destruct (_ !! _); cbn; lia. Qed.

Lemma step_partition f f' r a : fs_wf spec f → fs_step spec f f' → r ∈ delta_roots spec → partition_change f f' r a.
Proof.
  intros Hwf Hs Hr.
  assert (∀ i, fs_nodes f !! (r ++ [a]) = Some i → i_dir i = true) as Hdir.
  { intros i Hi. destruct (wf_area _ _ Hwf _ _ _ Hr Hi) as [[_ ?]|(b & n & ? & _)]; [done|discriminate]. }
  destruct Hs as [dt|p n Hnone Hp Hn Hin|p n size Hnone Hp Hn Hin|p size Hp|d x y Hx Hy _ Hin|p n Hp Hin|p n Hp Hempty Hin].
  - by apply pc_same.
  - destruct (decide (r ++ [a] = p ++ [n])) as [E|E].
    + rewrite <- E in Hnone. apply pc_new; [done| |cbn; lia]. cbn. by rewrite <- E, lookup_insert_eq.
    + apply (change_beside _ _ p n); [|cbn; lia|done|done]. intros q Hq. cbn. by rewrite lookup_insert_ne, parent_snoc.
  - assert (r ++ [a] ≠ p ++ [n]) as E.
    { destruct Hin as [Hin|Hin]; [intros E; apply Hin; rewrite <- E; by apply entry_in_area|by apply partition_not_entry]. }
    apply (change_beside _ _ p n); [|cbn; lia|done|done]. intros q Hq. cbn. by rewrite lookup_insert_ne, parent_snoc.
  - destruct Hp as (i & Hi & Hf). assert (p ≠ r ++ [a]) as E. { intros ->. apply Hdir in Hi. congruence. }
    apply pc_same; [cbn; by rewrite lookup_alter_ne|]. intros n. unfold member. cbn. by rewrite lookup_alter_is_Some.
  - destruct Hx as (i & Hi & Hf). unfold replace. rewrite Hi.
    assert (r ++ [a] ≠ d ++ [x]) as Ex. { intros E. rewrite <- E in Hi. apply Hdir in Hi. congruence. }
    assert (r ++ [a] ≠ d ++ [y]) as Ey.
    { destruct Hin as [[_ Hin]|Hin]; [intros E; apply Hin; rewrite <- E; by apply entry_in_area|].
      by apply partition_not_entry, (partition_sibling _ x y). }
    assert (dir_at f d) as (j & Hj & _) by by eapply (wf_parent _ _ Hwf).
    destruct (decide (d = r ++ [a])) as [->|Hd].
    + apply (pc_touch _ _ _ _ j); [done| |cbn; lia]. cbn. rewrite lookup_insert_ne, lookup_delete_ne by done.
      unfold touch. by rewrite lookup_alter_eq, Hj.
    + apply pc_same.
      * cbn. rewrite lookup_insert_ne, lookup_delete_ne by done. unfold touch. by rewrite lookup_alter_ne.
      * intros m. unfold member. cbn. rewrite lookup_insert_ne, lookup_delete_ne; [apply member_touch|..];
          intros E; rewrite snoc2 in E; apply app_inj_tail in E as [E _]; congruence.
  - destruct Hp as (i & Hi & Hf). assert (r ++ [a] ≠ p ++ [n]) as E. { intros E. rewrite <- E in Hi. apply Hdir in Hi. congruence. }
    apply (change_beside _ _ p n); [|cbn; lia|by eapply (wf_parent _ _ Hwf)|done]. intros q Hq. cbn. by rewrite lookup_delete_ne, parent_snoc.
  - assert (dir_at f p) as Hpar by (destruct Hp as (? & Hp & _); by eapply (wf_parent _ _ Hwf)).
    destruct (decide (r ++ [a] = p ++ [n])) as [E|E].
    + destruct Hin as [Hin|(Hc & Hrp & i & r' & j & Hi & Hr' & Hj & Hlt)]; [destruct Hin; rewrite <- E; by apply entry_in_area|].
      rewrite <- E in Hi, Hp. pose proof (wf_times _ _ Hwf _ _ Hj) as Hjt. pose proof (wf_times _ _ Hwf _ _ Hi) as Hit.
      apply app_inj_tail in E as [-> ->].
      assert (r' ++ [COMPACTED_DIRECTORY] ≠ p ++ [n]) as Hne by (intros E; apply app_inj_tail in E as [_ E]; congruence).
      destruct (decide (p = r' ++ [COMPACTED_DIRECTORY])) as [->|Hp'].
      * apply (pc_gone _ _ _ _ i r' (set_mtime (fs_now f + 1) j)); cbn; try done; [by rewrite lookup_delete_eq| |lia].
        rewrite lookup_delete_ne, parent_snoc by done. unfold touch. by rewrite lookup_alter_eq, Hj.
      * apply (pc_gone _ _ _ _ i r' j); cbn; try done; [by rewrite lookup_delete_eq|].
        rewrite lookup_delete_ne, parent_snoc by done. unfold touch. by rewrite lookup_alter_ne.
    + apply (change_beside _ _ p n); [|cbn; lia|done|done]. intros q Hq. cbn. by rewrite lookup_delete_ne, parent_snoc.
Qed.

(** Where the inodes after a step come from. *)
Definition kept (f f' : fs) (q : path) (i' : inode) : Prop :=
  ∃ i, fs_nodes f !! q = Some i ∧ i_dir i' = i_dir i ∧ i_btime i' = i_btime i ∧ i_mtime i' ≤ fs_now f'.
Definition made (f f' : fs) (q : path) (i' : inode) : Prop :=
  ∃ p n, q = p ++ [n] ∧ dir_at f p ∧ ordinary n ∧ i_btime i' ≤ fs_now f' ∧ i_mtime i' ≤ fs_now f' ∧
    (¬ in_area spec q ∨ i_dir i' = true ∧ (q ∈ delta_roots spec ∨ p ∈ delta_roots spec) ∨ i_dir i' = false ∧ in_partition spec q).

Lemma kept_same f f' q i : fs_wf spec f → fs_now f ≤ fs_now f' → fs_nodes f !! q = Some i → kept f f' q i.
Proof. intros Hwf Hn Hi. exists i. pose proof (wf_times _ _ Hwf _ _ Hi). split_and!; try done. lia. Qed.

Lemma kept_touch f f' t d q i' :
  fs_wf spec f → fs_now f ≤ fs_now f' → t = fs_now f' → touch t d (fs_nodes f) !! q = Some i' → kept f f' q i'.
Proof.
  intros Hwf Hn -> Hi. unfold touch in Hi. apply lookup_alter_Some in Hi as [(-> & i & Hi & ->)|[_ Hi]].
  - exists i. by split_and!.
  - by eapply kept_same.
Qed.

Lemma step_origin f f' q i' :
  fs_wf spec f → fs_step spec f f' → fs_nodes f' !! q = Some i' → kept f f' q i' ∨ made f f' q i'.
Proof.
  intros Hwf Hs Hi'. pose proof (now_step _ _ Hs) as Hnow.
  destruct Hs as [dt|p n Hnone Hp Hn Hin|p n size Hnone Hp Hn Hin|p size Hp|d x y Hx Hy Hn Hin|p n Hp Hin|p n Hp Hempty Hin].
  - left. by eapply kept_same.
  - cbn in Hi'. rewrite parent_snoc in Hi'. apply lookup_insert_Some in Hi' as [[<- <-]|[_ Hi']]; [|left; by eapply kept_touch].
    right. exists p, n. cbn. split_and!; try done; try lia. destruct Hin; auto.
  - cbn in Hi'. rewrite parent_snoc in Hi'. apply lookup_insert_Some in Hi' as [[<- <-]|[_ Hi']]; [|left; by eapply kept_touch].
    right. exists p, n. cbn. split_and!; try done; try lia. destruct Hin; auto.
  - left. cbn in Hi'. apply lookup_alter_Some in Hi' as [(-> & i & Hi & ->)|[_ Hi]]; [|by eapply kept_same].
    exists i. by split_and!.
  - destruct Hx as (i & Hi & Hf). unfold replace in *. rewrite Hi in Hi', Hnow |- *. cbn in Hi', Hnow |- *.
    apply lookup_insert_Some in Hi' as [[<- <-]|[_ Hi']].
    + right. exists d, y. pose proof (wf_times _ _ Hwf _ _ Hi). cbn. split_and!; try done; try lia.
      * by eapply (wf_parent _ _ Hwf).
      * destruct Hin as [[_ Hin]|Hin]; [by left|]. right. right. split; [done|]. by apply (partition_sibling _ x y).
    + apply lookup_delete_Some in Hi' as [_ Hi']. left. by eapply kept_touch.
  - left. cbn in Hi'. rewrite parent_snoc in Hi'. apply lookup_delete_Some in Hi' as [_ Hi']. by eapply kept_touch.
  - left. cbn in Hi'. rewrite parent_snoc in Hi'. apply lookup_delete_Some in Hi' as [_ Hi']. by eapply kept_touch.
Qed.

Lemma dir_touch f t d q : dir_at f q → dir_at (mkFs (touch t d (fs_nodes f)) t) q.
Proof.
  intros (i & Hi & Hd). unfold dir_at, touch. cbn. destruct (decide (d = q)) as [->|Hne].
  - exists (set_mtime t i). by rewrite lookup_alter_eq, Hi.
  - exists i. by rewrite lookup_alter_ne.
Qed.

(** A directory is not removed while it has entries. *)
Lemma step_dirs f f' p :
  fs_step spec f f' → dir_at f p → dir_at f' p ∨ ∀ n, fs_nodes f' !! (p ++ [n]) = None.
Proof.
  intros Hs Hp.
  destruct Hs as [dt|d n Hnone Hd Hn Hin|d n size Hnone Hd Hn Hin|q size Hq|d x y Hx Hy Hn Hin|d n Hd Hin|d n Hd Hempty Hin].
  - by left.
  - left. pose proof (dir_touch _ (fs_now f + 1) d _ Hp) as (i & Hi & Hdir). exists i. split; [|done]. cbn in *. rewrite parent_snoc.
    destruct Hp as (j & Hj & _). rewrite lookup_insert_ne; [done|]. congruence.
  - left. pose proof (dir_touch _ (fs_now f + 1) d _ Hp) as (i & Hi & Hdir). exists i. split; [|done]. cbn in *. rewrite parent_snoc.
    destruct Hp as (j & Hj & _). rewrite lookup_insert_ne; [done|]. congruence.
  - left. destruct Hp as (i & Hi & Hd), Hq as (j & Hj & Hf). exists i. split; [|done]. cbn. rewrite lookup_alter_ne; [done|]. congruence.
  - left. pose proof (dir_touch _ (fs_now f + 1) d _ Hp) as (i & Hi & Hdir). destruct Hx as (j & Hj & Hf). exists i. split; [|done].
    unfold replace. rewrite Hj. cbn in *. destruct Hp as (k & Hk & Hkd).
    rewrite lookup_insert_ne; [rewrite lookup_delete_ne; [done|]|]; [congruence|]. intros <-. apply Hy. by exists k.
  - left. pose proof (dir_touch _ (fs_now f + 1) d _ Hp) as (i & Hi & Hdir). destruct Hd as (j & Hj & Hf), Hp as (k & Hk & Hkd).
    exists i. split; [|done]. cbn in *. rewrite parent_snoc, lookup_delete_ne; [done|]. congruence.
  - destruct (decide (d ++ [n] = p)) as [<-|Hne].
    + right. intros m. cbn. rewrite parent_snoc, <- app_assoc. apply lookup_delete_None. right. unfold touch. apply lookup_alter_None, Hempty.
    + left. pose proof (dir_touch _ (fs_now f + 1) d _ Hp) as (i & Hi & Hdir). exists i. split; [|done]. cbn in *.
      by rewrite parent_snoc, lookup_delete_ne.
Qed.

Lemma fs_wf_step f f' : fs_wf spec f → fs_step spec f f' → fs_wf spec f'.
Proof.
  intros Hwf Hs. pose proof (now_step _ _ Hs) as Hnow. split.
  - intros q i [(j & Hj & _)|(p & n & -> & (j & Hj & _) & Hn & _)]%(step_origin _ _ _ _ Hwf Hs); [by eapply (wf_ordinary _ _ Hwf)|].
    apply Forall_app. split; [by eapply (wf_ordinary _ _ Hwf)|by constructor].
  - intros q i [(j & Hj & _ & -> & ?)|(p & n & _ & _ & _ & ? & ? & _)]%(step_origin _ _ _ _ Hwf Hs); [|done].
    pose proof (wf_times _ _ Hwf _ _ Hj). lia.
  - intros p n i Hi. assert (dir_at f p) as Hp.
    { destruct (step_origin _ _ _ _ Hwf Hs Hi) as [(j & Hj & _)|(p' & n' & E & Hp & _)]; [by eapply (wf_parent _ _ Hwf)|].
      apply app_inj_tail in E as [-> _]. done. }
    destruct (step_dirs _ _ _ Hs Hp) as [|Hnone]; [done|]. by rewrite Hnone in Hi.
  - intros r q i Hr Hi. destruct (step_origin _ _ _ _ Hwf Hs Hi) as [(j & Hj & -> & _)|(p & n & E & _ & _ & _ & _ & Hin)].
    + by eapply (wf_area _ _ Hwf).
    + destruct Hin as [Hin|[(-> & [Hin|Hin])|[-> (r' & a & m & Hr' & E')]]].
      * destruct Hin. by exists r, q.
      * left. split; [|done]. left. by apply (Hapart r q).
      * left. split; [|done]. destruct (exists_last (l := q)) as (q' & x & ->).
        { intros ->. rewrite app_nil_r in E. subst r. by specialize (Hapart p [n] Hin Hr). }
        rewrite app_assoc in E. apply app_inj_tail in E as [<- ->]. apply (Hapart r q') in Hin; [|done]. subst q'. right. by exists n.
      * right. destruct (decide (r = r')) as [->|Hne]; [apply app_inv_head in E' as ->; eauto|]. exfalso.
        apply app_eq_app in E' as (k & [[-> ?]|[-> ?]]); [apply (Hapart r' k) in Hr|apply (Hapart r k) in Hr']; try done;
          subst k; by rewrite app_nil_r in Hne.
Qed.
End Partitions.

(** ** Runs of steps *)

Section Runs.
Context (spec : source_spec) (Hapart : roots_apart spec).

Lemma fs_wf_steps f f' : rtc (fs_step spec) f f' → fs_wf spec f → fs_wf spec f'.
Proof. induction 1 as [|f f1 f' Hs _ IH]; [done|]. intros Hwf. by apply IH, (fs_wf_step spec Hapart f f1). Qed.

Lemma now_steps f f' : rtc (fs_step spec) f f' → fs_now f ≤ fs_now f'.
Proof. induction 1 as [|f f1 f' Hs _ IH]; [done|]. apply now_step in Hs. lia. Qed.

(** A partition whose directory was not touched since is as it was. *)
Lemma untouched_partition f f' r a j :
  rtc (fs_step spec) f f' → fs_wf spec f → r ∈ delta_roots spec →
  fs_nodes f' !! (r ++ [a]) = Some j → i_mtime j ≤ fs_now f →
  fs_nodes f !! (r ++ [a]) = Some j ∧ ∀ n, member f' r a n ↔ member f r a n.
Proof.
  induction 1 as [f|f f1 f' Hs Hss IH]; [done|]. intros Hwf Hr Hj Ht. pose proof (now_step _ _ _ Hs) as Hnow.
  destruct IH as [Hj1 Hm]; [by eapply fs_wf_step|done|done|lia|].
  destruct (step_partition spec Hapart f f1 r a Hwf Hs Hr) as [E Hmem|i Hi Hi' Hlt|Hi Hi' Hlt|i r' k Hi Hi' _ _ _ _].
  - rewrite <- E. split; [done|]. intros n. by rewrite Hm.
  - rewrite Hi' in Hj1. simplify_eq. cbn in Ht. lia.
  - rewrite Hi' in Hj1. simplify_eq. cbn in Ht. lia.
  - congruence.
Qed.

(** A partition that was not there is younger. *)
Lemma younger_partition f f' r a j :
  rtc (fs_step spec) f f' → fs_wf spec f → r ∈ delta_roots spec →
  fs_nodes f !! (r ++ [a]) = None → fs_nodes f' !! (r ++ [a]) = Some j → fs_now f < i_btime j.
Proof.
  intros H Hwf Hr Hnone. revert f' H j. apply (rtc_ind_r (λ f', ∀ j, fs_nodes f' !! (r ++ [a]) = Some j → fs_now f < i_btime j)); [congruence|].
  intros f1 f' Hss Hs IH j Hj.
  pose proof (now_steps _ _ Hss) as Hnow.
  destruct (step_partition spec Hapart f1 f' r a (fs_wf_steps _ _ Hss Hwf) Hs Hr) as [E Hmem|i Hi Hi' Hlt|Hi Hi' Hlt|i r' k Hi Hi' _ _ _ _].
  - apply IH. congruence.
  - rewrite Hi' in Hj. simplify_eq. cbn. by apply IH.
  - rewrite Hi' in Hj. simplify_eq. cbn. lia.
  - congruence.
Qed.

(** A partition that is gone was folded into a compacted file that is younger. *)
Lemma gone_partition f f' r a i :
  rtc (fs_step spec) f f' → fs_wf spec f → r ∈ delta_roots spec → fs_nodes f !! (r ++ [a]) = Some i →
  (∃ j, fs_nodes f' !! (r ++ [a]) = Some j ∧ i_btime j = i_btime i) ∨
  ∃ r' j, r' ∈ delta_roots spec ∧ fs_nodes f' !! (r' ++ [COMPACTED_DIRECTORY]) = Some j ∧ i_btime i < i_mtime j.
Proof.
  intros H Hwf Hr Hi. revert f' H. apply rtc_ind_r; [left; by exists i|]. intros f1 f' Hss Hs IH.
  pose proof (fs_wf_steps _ _ Hss Hwf) as Hwf1.
  destruct IH as [(j & Hj & Hb)|(r' & j & Hr' & Hj & Hb)].
  - destruct (step_partition spec Hapart f1 f' r a Hwf1 Hs Hr) as [E _|k Hk Hk' _|Hk Hk' _|k r' l Hk Hk' _ Hr' Hl Hlt].
    + left. exists j. by rewrite E.
    + left. exists (set_mtime (fs_now f') k). split; [done|]. cbn. congruence.
    + congruence.
    + right. exists r', l. split_and!; [done..|]. replace k with j in Hlt by congruence. lia.
  - right. pose proof (wf_times _ _ Hwf1 _ _ Hj) as Hjt.
    destruct (step_partition spec Hapart f1 f' r' COMPACTED_DIRECTORY Hwf1 Hs Hr') as [E _|k Hk Hk' Hlt|Hk Hk' _|k r'' l Hk Hk' Hne _ _ _].
    + exists r', j. by rewrite E.
    + exists r', (set_mtime (fs_now f') k). split_and!; [done..|]. cbn. lia.
    + congruence.
    + done.
Qed.

(** When the entries of all delta roots are the same at both ends, nothing happened in between. *)
Lemma same_entries_same_members f0 f1 f2 r a n :
  rtc (fs_step spec) f0 f1 → rtc (fs_step spec) f1 f2 → fs_wf spec f0 →
  (∀ r a, r ∈ delta_roots spec → i_mtime <$> fs_nodes f0 !! (r ++ [a]) = i_mtime <$> fs_nodes f2 !! (r ++ [a])) →
  r ∈ delta_roots spec → member f1 r a n ↔ member f0 r a n.
Proof.
  intros H01 H12 Hwf0 Hsame Hr. pose proof (fs_wf_steps _ _ H01 Hwf0) as Hwf1.
  pose proof (now_steps _ _ H01) as Hn. pose proof (Hsame r a Hr) as E.
  destruct (fs_nodes f0 !! (r ++ [a])) as [i|] eqn:Ei; destruct (fs_nodes f2 !! (r ++ [a])) as [j|] eqn:Ej; try done.
  - injection E as E. pose proof (wf_times _ _ Hwf0 _ _ Ei) as Hti.
    destruct (untouched_partition f0 f2 r a j) as [_ Hm0]; [by etrans|done|done|done|lia|].
    destruct (untouched_partition f1 f2 r a j) as [_ Hm1]; [done|done|done|done|lia|].
    by rewrite <- Hm0, Hm1.
  - assert (∀ f, fs_wf spec f → fs_nodes f !! (r ++ [a]) = None → ¬ member f r a n) as Hnone.
    { intros f Hwf Hf [k Hk]. rewrite snoc2 in Hk. apply (wf_parent _ _ Hwf) in Hk as (? & ? & _). congruence. }
    destruct (fs_nodes f1 !! (r ++ [a])) as [k|] eqn:Ek; [|split; intros Hm; by apply Hnone in Hm].
    exfalso. pose proof (younger_partition f0 f1 r a k H01 Hwf0 Hr Ei Ek) as Hb.
    destruct (gone_partition f1 f2 r a k H12 Hwf1 Hr Ek) as [(? & ? & _)|(r' & j & Hr' & Hj & Hlt)]; [congruence|].
    pose proof (Hsame r' COMPACTED_DIRECTORY Hr') as E'. rewrite Hj in E'.
    destruct (fs_nodes f0 !! (r' ++ [COMPACTED_DIRECTORY])) as [i|] eqn:Ei'; [|done]. injection E' as E'.
    pose proof (wf_times _ _ Hwf0 _ _ Ei'). lia.
Qed.
End Runs.

(** ** Fingerprints and resolutions of specifications for partitions *)

(** [obj/**/*.parquet] for one directory name. *)
Definition delta_pattern (obj : string) : string := obj +:+ "/" +:+ "**" +:+ "/" +:+ "*" +:+ ".parquet".
Definition directory_name (obj : string) : Prop := literal obj ∧ plain obj ∧ obj ≠ "." ∧ "/"%char ∉ chars obj.

Lemma split_slash_app cur l s :
  "/"%char ∉ l → split_slash cur (l ++ "/"%char :: s) = str (cur ++ l) :: split_slash [] s.
Proof.
  revert cur. induction l as [|c l IH]; intros cur Hl; [by rewrite app_nil_r|]. cbn [app split_slash].
  rewrite bool_decide_eq_false_2 by (intros ->; apply Hl; by left). rewrite IH by (intros ?; apply Hl; by right).
  by rewrite <- app_assoc.
Qed.

Lemma delta_pattern_parts obj : directory_name obj → parts (delta_pattern obj) = [obj; "**"; "*.parquet"].
Proof.
  intros (_ & (H1 & _ & _) & H2 & Hs). unfold parts, delta_pattern. rewrite chars_app.
  change (chars ("/" +:+ "**" +:+ "/" +:+ "*" +:+ ".parquet")) with ("/"%char :: chars "**/*.parquet").
  rewrite split_slash_app by done. rewrite app_nil_l, str_chars. change (split_slash [] (chars "**/*.parquet")) with ["**"; "*.parquet"].
  rewrite filter_cons_True by done. by rewrite !filter_cons_True.
Qed.

Lemma prefix_slash c s : String.prefix "/" (String c s) = true → c = "/"%char.
Proof. simpl. case_match; [by subst|done]. Qed.

Lemma String_app_cons c s s' : String c s +:+ s' = String c (s +:+ s').
Proof. done. Qed.

Lemma delta_pattern_relative obj : directory_name obj → is_absolute (delta_pattern obj) = false ∧ delta_pattern obj ≠ "" ∧ ends_with "/" (delta_pattern obj) = false.
Proof.
  intros (_ & (H1 & _ & _) & H2 & Hs). unfold delta_pattern. destruct obj as [|c obj]; [done|]. split_and!; [|done|].
  - unfold is_absolute, starts_with. rewrite String_app_cons.
    apply not_true_iff_false. intros E. apply prefix_slash in E as ->. apply Hs. by left.
  - unfold ends_with. rewrite chars_app, rev_app_distr. done.
Qed.

Record spec_ok (spec : source_spec) : Prop := {
  so_roots : Forall (Forall ordinary) (ss_roots spec);
  so_patterns : Forall (λ pattern, ∃ obj, directory_name obj ∧ pattern = delta_pattern obj) (ss_patterns spec);
  so_apart : roots_apart spec }.

Lemma delta_root_pattern obj root : directory_name obj → delta_root (delta_pattern obj) root = root ++ [obj].
Proof.
  intros H. unfold delta_root. rewrite (proj1 (delta_pattern_relative obj H)), (delta_pattern_parts obj H). cbn [literal_prefix].
  assert (existsb is_wildcard (chars obj) = false) as ->; [|done].
  destruct H as [H _]. apply not_true_iff_false. intros (c & Hc & Hw)%existsb_exists.
  unfold literal in H. rewrite Forall_forall in H. apply list_elem_of_In in Hc. apply H in Hc. congruence.
Qed.

Section Resolution.
Context (spec : source_spec) (Hok : spec_ok spec).

Lemma elem_of_delta_roots r :
  r ∈ delta_roots spec ↔ ∃ root obj, root ∈ ss_roots spec ∧ delta_pattern obj ∈ ss_patterns spec ∧ directory_name obj ∧ r = root ++ [obj].
Proof.
  unfold delta_roots. rewrite elem_of_sorted_set, list_elem_of_bind. setoid_rewrite list_elem_of_fmap. split.
  - intros (pattern & (root & -> & Hroot) & Hp). destruct (proj1 (Forall_forall _ _) (so_patterns _ Hok) _ Hp) as (obj & Ho & ->).
    exists root, obj. by rewrite delta_root_pattern.
  - intros (root & obj & Hroot & Hp & Ho & ->). exists (delta_pattern obj). split; [|done]. exists root. by rewrite delta_root_pattern.
Qed.

Lemma delta_root_ordinary r : r ∈ delta_roots spec → Forall ordinary r.
Proof.
  intros (root & obj & Hroot & _ & (_ & (_ & _ & Ho) & _) & ->)%elem_of_delta_roots.
  apply Forall_app. split; [by apply (proj1 (Forall_forall _ _) (so_roots _ Hok))|by constructor].
Qed.

Context (f : fs) (Hwf : fs_wf spec f).

Lemma member_file r a n :
  r ∈ delta_roots spec → member f r a n → ∃ i, fs_nodes f !! (r ++ [a; n]) = Some i ∧ i_dir i = false ∧ Forall ordinary (r ++ [a; n]).
Proof.
  intros Hr [i Hi]. exists i. split; [done|]. split; [|by eapply (wf_ordinary _ _ Hwf)].
  destruct (wf_area _ _ Hwf _ _ _ Hr Hi) as [[[?|[? ?]] _]|(? & ? & _ & ?)]; done.
Qed.

Lemma is_file_member r a n : r ∈ delta_roots spec → Forall ordinary (r ++ [a; n]) → is_file f (r ++ [a; n]) = true ↔ member f r a n.
Proof.
  intros Hr Ho. unfold is_file, lookup_path. rewrite resolve_ordinary by done. split.
  - destruct (_ !! _) eqn:E; [|done]. by eexists.
  - intros Hm. destruct (member_file _ _ _ Hr Hm) as (i & -> & -> & _). done.
Qed.

Definition parquet (n : string) : Prop := fnmatch "*.parquet" n = true.

Lemma parquet_supported p n : parquet n → supported (name_of (p ++ [n])) = true.
Proof.
  intros H. apply (fnmatch_suffix ".parquet") in H as [l H]; [|by repeat constructor].
  assert (name_of (p ++ [n]) = n) as -> by (unfold name_of; by rewrite last_snoc).
  assert (ends_with ".parquet" n = true) as Hn.
  { unfold ends_with. rewrite H, rev_app_distr, str_app. apply prefix_app. }
  unfold supported. cbn [existsb _SUPPORTED_SUFFIXES]. by rewrite Hn.
Qed.

Lemma literal_no_star obj : literal obj → has_double_star (chars obj) = false.
Proof.
  unfold literal. induction 1 as [|c l Hc _ IH]; [done|]. apply bool_decide_eq_false in Hc.
  destruct c as [[] [] [] [] [] [] [] []]; try exact IH. destruct Hc. left.
Qed.

Lemma is_dir_root root a : Forall ordinary root → dir_at f (root ++ [a]) → is_dir f root = true.
Proof.
  intros Ho (i & Hi & _). apply (wf_parent _ _ Hwf) in Hi as (j & Hj & Hd). unfold is_dir, lookup_path.
  by rewrite resolve_ordinary, Hj.
Qed.

(** The candidates of a partition pattern that the code keeps. *)
Lemma select_partition obj root q :
  directory_name obj → root ++ [obj] ∈ delta_roots spec → Forall ordinary root →
  q ∈ select f [obj; "**"; "*.parquet"] root →
  Forall ordinary q ∧ supported (name_of q) = true ∧
  (is_file f q = true → ∃ a n, q = root ++ [obj; a; n] ∧ member f (root ++ [obj]) a n ∧ parquet n).
Proof.
  intros (Hlit & Hpl & _ & _) Hr Hroot Hq. apply (elem_of_select_deltas f (wf_ordinary _ _ Hwf)) in Hq; [|done|done|done].
  destruct Hq as (d & k & n & i & -> & Hd & Hn & Hi & _). apply (fnmatch_literal _ _ Hlit) in Hd as ->.
  pose proof (wf_ordinary _ _ Hwf _ _ Hi) as Ho. split_and!; [done| |].
  - rewrite !app_assoc. by apply parquet_supported.
  - unfold is_file, lookup_path. rewrite resolve_ordinary, Hi by done. intros Hfile.
    assert (fs_nodes f !! ((root ++ [obj]) ++ k ++ [n]) = Some i) as Hi' by (by rewrite <- !app_assoc).
    destruct (wf_area _ _ Hwf _ _ _ Hr Hi') as [[_ Hdir]|(a & m & E & _)]; [by rewrite Hdir in Hfile|].
    apply (app_inj_tail _ [a]) in E as [-> ->]. exists a, m. split_and!; [done| |done]. exists i. by rewrite <- app_assoc.
Qed.

Lemma partition_selected obj root a n :
  directory_name obj → root ++ [obj] ∈ delta_roots spec → Forall ordinary root →
  member f (root ++ [obj]) a n → parquet n → root ++ [obj; a; n] ∈ select f [obj; "**"; "*.parquet"] root.
Proof.
  intros (Hlit & Hpl & _ & _) Hr Hroot Hm Hn. destruct (member_file _ _ _ Hr Hm) as (i & Hi & Hd & Ho).
  apply (elem_of_select_deltas f (wf_ordinary _ _ Hwf)); [done|done|done|].
  exists obj, [a], n, i. rewrite <- app_assoc in Hi. split_and!; [done|by apply fnmatch_literal|done|done| |right].
  - assert (dir_at f ((root ++ [obj]) ++ [a])) as (j & Hj & _).
    { apply (wf_parent _ _ Hwf _ n i). by rewrite <- !app_assoc. }
    apply (wf_parent _ _ Hwf) in Hj as (k & Hk & Hkd). by exists k.
  - assert (dir_at f (root ++ [obj; a])) as (j & Hj & Hjd); [|by exists j].
    apply (wf_parent _ _ Hwf _ n i). by rewrite <- app_assoc.
Qed.

Lemma expand_partitions obj :
  directory_name obj → delta_pattern obj ∈ ss_patterns spec →
  ∃ l, _expand_source f (delta_pattern obj) (ss_roots spec) = Ok l ∧
    ∀ q, q ∈ l ↔ ∃ root a n, root ∈ ss_roots spec ∧ q = root ++ [obj; a; n] ∧ member f (root ++ [obj]) a n ∧ parquet n.
Proof.
  intros Ho Hpat. unfold _expand_source.
  assert (∀ root, root ∈ ss_roots spec → root ++ [obj] ∈ delta_roots spec) as Hin.
  { intros root Hroot. apply elem_of_delta_roots. by exists root, obj. }
  pose (kept root := filter (λ c, is_file f c = true) (if is_dir f root then select f [obj; "**"; "*.parquet"] root else [])).
  rewrite (res_map_pure _ kept).
  2:{ intros root Hroot. unfold glob. destruct (delta_pattern_relative obj Ho) as (-> & Hne & ->).
    rewrite bool_decide_eq_false_2 by done. rewrite (delta_pattern_parts obj Ho), app_nil_r.
    assert (existsb (λ s, negb (String.eqb s "**") && has_double_star (chars s)) [obj; "**"; "*.parquet"] = false) as ->.
    { cbn [existsb]. rewrite (literal_no_star obj) by apply Ho. by rewrite andb_false_r. }
    cbn [bool_decide decide_rel res_bind]. rewrite bool_decide_eq_false_2 by done. cbn [res_bind].
    rewrite (res_omap_pure _ (λ c, if is_file f c then Some c else None)).
    - unfold kept. f_equal. induction (if is_dir f root then _ else _) as [|c l IH]; [done|]. cbn [omap list_omap].
      rewrite filter_cons, IH. by destruct (is_file f c) eqn:Ec; case_decide.
    - intros c Hc. destruct (is_dir f root); [|by apply elem_of_nil in Hc].
      assert (Forall ordinary root) as Hrt by by apply (proj1 (Forall_forall _ _) (so_roots _ Hok)).
      destruct (select_partition obj root c Ho (Hin _ Hroot) Hrt Hc) as (Hord & Hsup & Hfile).
      destruct (is_file f c) eqn:Ec; [|done]. cbn [andb]. rewrite resolve_ordinary, Hsup by done.
      assert (existsb (λ allowed, is_prefix allowed c) (ss_roots spec) = true) as ->; [|done].
      apply existsb_exists. exists root. split; [by apply list_elem_of_In|]. apply is_prefix_spec.
      destruct (Hfile eq_refl) as (a & n & -> & _). by eexists. }
  cbn [res_bind]. eexists. split; [done|]. intros q. rewrite elem_of_sorted_set, list_elem_of_In, in_concat. setoid_rewrite <- list_elem_of_In.
  setoid_rewrite list_elem_of_fmap. split.
  - intros (x & (root & -> & Hroot) & Hq). unfold kept in Hq. apply list_elem_of_filter in Hq as [Hfile Hq].
    destruct (is_dir f root); [|by apply elem_of_nil in Hq].
    assert (Forall ordinary root) as Hrt by by apply (proj1 (Forall_forall _ _) (so_roots _ Hok)).
    destruct (select_partition obj root q Ho (Hin _ Hroot) Hrt Hq) as (_ & _ & Hm).
    destruct (Hm Hfile) as (a & n & -> & ? & ?). by exists root, a, n.
  - intros (root & a & n & Hroot & -> & Hm & Hn). exists (kept root). split; [by exists root|].
    assert (Forall ordinary root) as Hrt by by apply (proj1 (Forall_forall _ _) (so_roots _ Hok)).
    destruct (member_file _ _ _ (Hin _ Hroot) Hm) as (i & Hi & Hd & Hord).
    unfold kept. apply list_elem_of_filter. split.
    + replace (root ++ [obj; a; n]) with ((root ++ [obj]) ++ [a; n]) by by rewrite <- app_assoc.
      apply is_file_member; auto.
    + rewrite is_dir_root with (a := obj).
      * by apply partition_selected; auto.
      * done.
      * assert (dir_at f ((root ++ [obj]) ++ [a])) as (j & Hj & _); [apply (wf_parent _ _ Hwf _ n i); by rewrite <- app_assoc|].
        by apply (wf_parent _ _ Hwf) in Hj.
Qed.

(** The found partitions, before sorting. *)
Lemma expand_all :
  ∃ ls, res_map (λ pattern, _expand_source f pattern (ss_roots spec)) (ss_patterns spec) = Ok ls ∧
    ∀ q, q ∈ concat ls ↔ ∃ r a n, r ∈ delta_roots spec ∧ q = r ++ [a; n] ∧ member f r a n ∧ parquet n.
Proof.
  pose (expand pattern := match _expand_source f pattern (ss_roots spec) with Ok l => l | Err _ => [] end).
  assert (∀ pattern, pattern ∈ ss_patterns spec → ∃ obj, pattern = delta_pattern obj ∧ directory_name obj ∧
    _expand_source f pattern (ss_roots spec) = Ok (expand pattern) ∧
    ∀ q, q ∈ expand pattern ↔ ∃ root a n, root ∈ ss_roots spec ∧ q = root ++ [obj; a; n] ∧ member f (root ++ [obj]) a n ∧ parquet n) as H.
  { intros pattern Hp. destruct (proj1 (Forall_forall _ _) (so_patterns _ Hok) _ Hp) as (obj & Ho & ->).
    destruct (expand_partitions obj Ho Hp) as (l & El & Hl). exists obj. unfold expand. by rewrite El. }
  exists (expand <$> ss_patterns spec). split; [apply res_map_pure; intros p (obj & _ & _ & E & _)%H; exact E|].
  intros q. rewrite list_elem_of_In, in_concat. setoid_rewrite <- list_elem_of_In. setoid_rewrite list_elem_of_fmap. split.
  - intros (x & (pattern & -> & Hp) & Hq). destruct (H _ Hp) as (obj & -> & Ho & _ & Hiff).
    apply Hiff in Hq as (root & a & n & Hroot & -> & Hm & Hn). exists (root ++ [obj]), a, n.
    split_and!; [|by rewrite <- app_assoc|done|done]. apply elem_of_delta_roots. by exists root, obj.
  - intros (r & a & n & (root & obj & Hroot & Hp & Ho & ->)%elem_of_delta_roots & -> & Hm & Hn).
    destruct (H _ Hp) as (obj' & E & Ho' & _ & Hiff). exists (expand (delta_pattern obj)). split; [by exists (delta_pattern obj)|].
    assert (obj' = obj) as ->. { apply (f_equal parts) in E. rewrite !delta_pattern_parts in E by done. congruence. }
    apply Hiff. exists root, a, n. by rewrite <- app_assoc.
Qed.
End Resolution.

(** The resolution depends on the members of the partitions only. *)
Lemma resolution_ext spec f f' :
  spec_ok spec → fs_wf spec f → fs_wf spec f' →
  (∀ r a n, r ∈ delta_roots spec → member f r a n ↔ member f' r a n) →
  _resolve_sources f spec = _resolve_sources f' spec ∧ is_ok (_resolve_sources f spec) = true.
Proof.
  intros Hok Hwf Hwf' Hm. unfold _resolve_sources, published_deltas.
  destruct (expand_all spec Hok f Hwf) as (ls & -> & Hls). destruct (expand_all spec Hok f' Hwf') as (ls' & -> & Hls').
  cbn [res_bind]. split; [|done]. f_equal.
  assert (effective_base f spec = effective_base f' spec) as ->.
  { unfold effective_base. assert (compacted_base f spec = compacted_base f' spec) as ->; [|done]. unfold compacted_base. f_equal.
    apply filter_iff_in. intros c (r & -> & Hr)%list_elem_of_fmap.
    assert (Forall ordinary (r ++ [COMPACTED_DIRECTORY; COMPACTED_BASE_FILENAME])) as Ho.
    { apply Forall_app. split; [by apply (delta_root_ordinary spec Hok)|by repeat constructor]. }
    rewrite !(is_file_member spec) by done. by apply Hm. }
  apply sorted_set_ext. intros p. rewrite !elem_of_app, !elem_of_sort_by, !list_elem_of_filter, !elem_of_remove_dups, Hls, Hls'.
  apply or_iff_compat_l, and_iff_compat_l. split; intros (r & a & n & Hr & -> & Hp & Hn); exists r, a, n; (split_and!; [done|done|by apply Hm|done]).
Qed.

Lemma elem_of_signature spec f r a m :
  spec_ok spec → fs_wf spec f → r ∈ delta_roots spec →
  (a, m) ∈ _directory_signature f r ↔ i_mtime <$> fs_nodes f !! (r ++ [a]) = Some m.
Proof.
  intros Hok Hwf Hr. pose proof (delta_root_ordinary spec Hok r Hr) as Ho. unfold _directory_signature. rewrite fmap_Some.
  destruct (is_dir f r) eqn:Ed.
  - rewrite elem_of_sort_by, list_elem_of_fmap. split.
    + intros ([n i] & [= -> ->] & Hi). apply (elem_of_scandir f) in Hi; [|done]. by exists i.
    + intros (i & Hi & ->). exists (a, i). split; [done|]. by apply (elem_of_scandir f).
  - split; [by intros ?%elem_of_nil|]. intros (i & Hi & _). apply (wf_parent _ _ Hwf) in Hi as (j & Hj & Hd).
    unfold is_dir, lookup_path in Ed. rewrite resolve_ordinary, Hj in Ed by done. congruence.
Qed.

Lemma fingerprint_entries spec f f' :
  spec_ok spec → fs_wf spec f → fs_wf spec f' → structural_fingerprint f spec = structural_fingerprint f' spec →
  ∀ r a, r ∈ delta_roots spec → i_mtime <$> fs_nodes f !! (r ++ [a]) = i_mtime <$> fs_nodes f' !! (r ++ [a]).
Proof.
  intros Hok Hwf Hwf' E r a Hr. unfold structural_fingerprint in E. apply app_inj_1 in E as [_ E]; [|by rewrite !length_fmap].
  pose proof (fmap_eq_in _ _ _ E r Hr) as Es. cbn beta in Es. injection Es as Es.
  apply option_eq. intros m. by rewrite <- !(elem_of_signature spec _ _ _ _ Hok) by done; rewrite Es.
Qed.

(** The fingerprint moves whenever the resolution may: when it is the same at two moments, the
    resolution was the same at every moment in between. *)
Lemma fingerprint_window spec f0 f1 f2 :
  spec_ok spec → fs_wf spec f0 → rtc (fs_step spec) f0 f1 → rtc (fs_step spec) f1 f2 →
  structural_fingerprint f0 spec = structural_fingerprint f2 spec →
  _resolve_sources f1 spec = _resolve_sources f0 spec.
Proof.
  intros Hok Hwf0 H01 H12 E. pose proof (so_apart _ Hok) as Hap.
  assert (fs_wf spec f1) as Hwf1 by by eapply fs_wf_steps. assert (fs_wf spec f2) as Hwf2 by by eapply fs_wf_steps.
  apply resolution_ext; [done..|]. intros r a n Hr. apply (same_entries_same_members spec Hap f0 f1 f2 r a n H01 H12 Hwf0); [|done].
  intros r' a' Hr'. by apply (fingerprint_entries spec).
Qed.

(** ** Concurrent requests *)

(** Requests between their two steps: the fingerprint each has taken. The past states of the
    file system are kept for the statement, the latest first. *)
Record system := mkSystem {
  sy_past : list fs;
  sy_now : fs;
  sy_cache : cache fingerprint (list path);
  sy_readers : gmap nat (fingerprint * nat) }.

(** How many moments have passed. *)
Definition moment (s : system) : nat := length (sy_past s).
Definition fs_at (s : system) (k : nat) : option fs := rev (sy_now s :: sy_past s) !! k.

(** [current_sources] as two steps, with anything in between. *)
Definition read_fingerprint (spec : source_spec) (i : nat) (s : system) : system :=
  mkSystem (sy_past s) (sy_now s) (sy_cache s) (<[i := (structural_fingerprint (sy_now s) spec, moment s)]> (sy_readers s)).
Definition read_cache (spec : source_spec) (i : nat) (s : system) : system * option (nat * res (list path)) :=
  match sy_readers s !! i with
  | Some (fp, k) =>
    let '(c, v) := cache_get fp (_resolve_sources (sy_now s) spec) (sy_cache s) in
    (mkSystem (sy_past s) (sy_now s) c (delete i (sy_readers s)), Some (k, v))
  | None => (s, None)
  end.
Definition refresh (s : system) : system := mkSystem (sy_past s) (sy_now s) (invalidate (sy_cache s)).1 (sy_readers s).

Inductive sys_step (spec : source_spec) (s : system) : system → Prop :=
| sys_files f : fs_step spec (sy_now s) f → sys_step spec s (mkSystem (sy_now s :: sy_past s) f (sy_cache s) (sy_readers s))
| sys_fingerprint i : sys_step spec s (read_fingerprint spec i s)
| sys_cache i : sys_step spec s (read_cache spec i s).1
| sys_refresh : sys_step spec s (refresh s).

Definition sys_start (f : fs) : system := mkSystem [] f None ∅.

Section Linearizable.
Context (spec : source_spec) (Hok : spec_ok spec).

(** Moments are in order. *)
Fixpoint past_ok (f : fs) (past : list fs) : Prop :=
  match past with
  | [] => fs_wf spec f
  | g :: past => fs_step spec g f ∧ past_ok g past
  end.

Record sys_ok (s : system) : Prop := {
  sk_past : past_ok (sy_now s) (sy_past s);
  sk_readers : ∀ i fp k, sy_readers s !! i = Some (fp, k) → ∃ f, fs_at s k = Some f ∧ fp = structural_fingerprint f spec;
  sk_cache : ∀ fp v, sy_cache s = Some (fp, v) → ∃ k l f g, (k ≤ l)%nat ∧ fs_at s k = Some f ∧ fs_at s l = Some g ∧
    fp = structural_fingerprint f spec ∧ Ok v = _resolve_sources g spec }.

Lemma past_snoc f past : past_ok f past → ∀ k l g h,
  rev (f :: past) !! k = Some g → rev (f :: past) !! l = Some h → (k ≤ l)%nat → fs_wf spec g ∧ rtc (fs_step spec) g h.
Proof.
  revert f. induction past as [|e past IH]; intros f Hp k l g h Hk Hl Hkl.
  - cbn in Hk, Hl. destruct k; [|by destruct k]. destruct l; [|by destruct l]. cbn in Hk, Hl. simplify_eq. by split.
  - destruct Hp as [Hs Hp]. change (rev (f :: e :: past)) with (rev (e :: past) ++ [f]) in Hk, Hl.
    specialize (IH e Hp). assert (∀ m x, (rev (e :: past) ++ [f]) !! m = Some x → (m < length (rev (e :: past)))%nat ∧ rev (e :: past) !! m = Some x
      ∨ m = length (rev (e :: past)) ∧ x = f) as Hlook.
    { intros m x Hm. destruct (decide (m < length (rev (e :: past)))%nat) as [H|H]; [left; split; [done|]; by rewrite lookup_app_l in Hm|].
      right. rewrite lookup_app_r in Hm by lia. destruct (m - length (rev (e :: past)))%nat eqn:Em; [|by destruct n].
      cbn in Hm. simplify_eq. split; [lia|done]. }
    assert (rev (e :: past) !! length past = Some e) as He.
    { cbn. rewrite lookup_app_r by (rewrite length_rev; lia). by rewrite length_rev, Nat.sub_diag. }
    assert (fs_wf spec e) as Hwfe by by eapply (IH (length past) (length past) e e He He).
    destruct (Hlook _ _ Hk) as [[Hlt Hk']|[Hlt ->]], (Hlook _ _ Hl) as [[Hlt' Hl']|[Hlt' ->]].
    + by apply (IH k l).
    + rewrite length_rev in Hlt. cbn [length] in Hlt. destruct (IH k (length past) g e Hk' He) as [Hwf Hss]; [lia|]. split; [done|].
      by eapply rtc_r.
    + lia.
    + split; [|done]. by eapply (fs_wf_step spec (so_apart _ Hok)).
Qed.

Lemma fs_at_run s k l g h : sys_ok s → fs_at s k = Some g → fs_at s l = Some h → (k ≤ l)%nat → fs_wf spec g ∧ rtc (fs_step spec) g h.
Proof. intros Hs. by apply past_snoc, Hs. Qed.

Lemma fs_at_now s : fs_at s (moment s) = Some (sy_now s).
Proof.
  unfold fs_at, moment. cbn. rewrite lookup_app_r by (rewrite length_rev; lia). by rewrite length_rev, Nat.sub_diag.
Qed.

Lemma fs_at_le s k f : fs_at s k = Some f → (k ≤ moment s)%nat.
Proof. intros H%lookup_lt_Some. unfold moment. rewrite length_rev in H. cbn in H. lia. Qed.

Lemma fs_at_files s f k g : fs_at s k = Some g → fs_at (mkSystem (sy_now s :: sy_past s) f (sy_cache s) (sy_readers s)) k = Some g.
Proof.
  intros H. unfold fs_at in *. cbn [sy_past sy_now]. change (rev (f :: sy_now s :: sy_past s)) with (rev (sy_now s :: sy_past s) ++ [f]).
  by apply lookup_app_l_Some.
Qed.

Lemma sys_ok_same s c rs :
  sys_ok s →
  (∀ i fp k, rs !! i = Some (fp, k) → sy_readers s !! i = Some (fp, k) ∨ k = moment s ∧ fp = structural_fingerprint (sy_now s) spec) →
  (∀ fp v, c = Some (fp, v) → sy_cache s = Some (fp, v) ∨
     (∃ i k, sy_readers s !! i = Some (fp, k)) ∧ Ok v = _resolve_sources (sy_now s) spec) →
  sys_ok (mkSystem (sy_past s) (sy_now s) c rs).
Proof.
  intros Hs Hrs Hc. split; [apply Hs| |].
  - intros i fp k [Hi|[-> ->]]%Hrs; [by apply (sk_readers _ Hs i)|]. exists (sy_now s). split; [exact (fs_at_now s)|done].
  - intros fp v [Hv|[(i & k & Hi) Hv]]%Hc; [by apply (sk_cache _ Hs)|].
    destruct (sk_readers _ Hs _ _ _ Hi) as (f & Hf & ->). exists k, (moment s), f, (sy_now s).
    split_and!; [exact (fs_at_le _ _ _ Hf)|done|exact (fs_at_now s)|done|done].
Qed.

Lemma sys_ok_step s s' : sys_ok s → sys_step spec s s' → sys_ok s'.
Proof.
  intros Hs [f Hf|i|i|].
  - split; [split; [done|apply Hs]| |].
    + intros i fp k Hi. destruct (sk_readers _ Hs _ _ _ Hi) as (g & Hg & ->). exists g. split; [by apply fs_at_files|done].
    + intros fp v Hv. destruct (sk_cache _ Hs _ _ Hv) as (k & l & g & h & ? & ? & ? & -> & ?). exists k, l, g, h.
      split_and!; [done|by apply fs_at_files|by apply fs_at_files|done|done].
  - apply sys_ok_same; [done| |by left]. intros j fp k Hj. apply lookup_insert_Some in Hj as [[_ [= <- <-]]|[_ Hj]]; auto.
  - unfold read_cache. destruct (sy_readers s !! i) as [[fp k]|] eqn:Hi; [|done].
    destruct (cache_get fp _ _) as [c v] eqn:E. cbn. apply sys_ok_same; [done| |].
    + intros j fp' k' [_ Hj]%lookup_delete_Some. by left.
    + intros fp' v' ->. unfold cache_get in E.
      destruct (sy_cache s) as [[old value]|]; [case_bool_decide; [simplify_eq; by left|]|];
        (destruct (_resolve_sources (sy_now s) spec) as [w|] eqn:Ew; simplify_eq; try (by left); right; split; [by do 2 eexists|done]).
  - apply (sys_ok_same s None (sy_readers s)); [done|by left|done].
Qed.

Lemma sys_start_ok f s : fs_wf spec f → rtc (sys_step spec) (sys_start f) s → sys_ok s.
Proof.
  intros Hf H. assert (sys_ok (sys_start f)) as H0; [split; [done| |done]; intros i fp k Hi; cbn in Hi; by rewrite lookup_empty in Hi|].
  revert H0. induction H as [|s s1 s' Hs _ IH]; [done|]. intros H0. by apply IH, (sys_ok_step s).
Qed.

Lemma resolution_total f : fs_wf spec f → is_ok (_resolve_sources f spec) = true.
Proof. intros Hwf. by apply (resolution_ext spec f f Hok Hwf Hwf). Qed.

(** What the cache answers is the resolution at a moment of the request. *)
Lemma cache_answer s i k v :
  sys_ok s → (read_cache spec i s).2 = Some (k, v) →
  ∃ l f, (k ≤ l ≤ moment s)%nat ∧ fs_at s l = Some f ∧ v = _resolve_sources f spec ∧ is_ok v = true.
Proof.
  intros Hs H. unfold read_cache in H. destruct (sy_readers s !! i) as [[fp k']|] eqn:Hi; [|done].
  destruct (sk_readers _ Hs _ _ _ Hi) as (f & Hf & Efp). pose proof (fs_at_le _ _ _ Hf) as Hk.
  destruct (fs_at_run s _ _ _ _ Hs Hf (fs_at_now s) Hk) as [Hwf Hrun].
  assert (fs_wf spec (sy_now s)) as Hwfn by (eapply fs_wf_steps; [apply Hok|done|done]).
  assert (∀ w, w = _resolve_sources (sy_now s) spec → ∃ l f, (k' ≤ l ≤ moment s)%nat ∧ fs_at s l = Some f ∧ w = _resolve_sources f spec ∧ is_ok w = true) as Hnow.
  { intros w ->. exists (moment s), (sy_now s). split_and!; [done|done|apply fs_at_now|done|by apply resolution_total]. }
  destruct (cache_get fp _ _) as [c w] eqn:E. cbn in H. simplify_eq. unfold cache_get in E.
  destruct (sy_cache s) as [[old value]|] eqn:Ec; [|apply Hnow; destruct (_resolve_sources (sy_now s) spec); by simplify_eq].
  case_bool_decide as Eold; [|apply Hnow; destruct (_resolve_sources (sy_now s) spec); by simplify_eq].
  simplify_eq. destruct (sk_cache _ Hs _ _ Ec) as (k0 & l0 & f0 & g0 & Hkl & Hf0 & Hg0 & Efp & Hv).
  destruct (decide (k ≤ l0)%nat) as [Hkl0|Hkl0].
  - exists l0, g0. split_and!; [done|by eapply fs_at_le|done|by rewrite Hv|]. rewrite Hv.
    apply resolution_total. by apply (fs_at_run s l0 l0 g0 g0).
  - destruct (fs_at_run s k0 l0 f0 g0 Hs Hf0 Hg0 Hkl) as [Hwf0 H01].
    destruct (fs_at_run s l0 k g0 f Hs Hg0 Hf) as [_ H12]; [lia|].
    exists k, f. split_and!; [done|done|done| |done]. rewrite Hv.
    rewrite (fingerprint_window spec f0 g0 f), (fingerprint_window spec f0 f f); try done. by etrans.
Qed.
End Linearizable.


(** ** The snapshot identifier *)

Definition content := (fingerprint * list (string * option (Z * Z)))%type.

(** [_snapshot_cache] and the cache of every specification. *)
Record catalog_caches := mkCaches { cc_sources : gmap string (cache fingerprint (list path)); cc_snapshot : cache (list content) string }.

Definition source_cache (name : string) (c : catalog_caches) : cache fingerprint (list path) := default None (cc_sources c !! name).
Definition set_source_cache (name : string) (x : cache fingerprint (list path)) (c : catalog_caches) : catalog_caches :=
  mkCaches (<[name := x]> (cc_sources c)) (cc_snapshot c).

Section Snapshot.
(** The text of an Arrow schema, and the data roots. *)
Context (schema_str : schema → string) (roots : list path).

Definition content_fingerprint (f : fs) (o : DatasetSpec) : io catalog_caches content :=
  let spec := source_of roots o in
  let* paths := io_zoom (source_cache (object_name o)) (set_source_cache (object_name o)) (current_sources f spec) in
  io_ret (structural_fingerprint f spec, (λ p, (path_str p, _file_signature f p)) <$> paths).

Definition json_pair (key value : string) : string := json_str key +:+ ":" +:+ value.
Definition json_opt (s : option string) : string := from_option json_str "null" s.

(** One entry of ["sources"]; [path.stat()] raises on a missing file. *)
Definition source_json (s : string * option (Z * Z)) : res string :=
  match s.2 with
  | Some (size, modified) =>
    Ok ("{" +:+ join "," [json_pair "modified_ns" (str_of_Z modified); json_pair "path" (json_str s.1); json_pair "size" (str_of_Z size)] +:+ "}")
  | None => raise FileNotFoundError ("[Errno 2] No such file or directory: " +:+ py_repr s.1)
  end.

Definition object_json (o : DatasetSpec) (files : list (string * option (Z * Z))) : res string :=
  let! entries := res_map source_json files in
  Ok ("{" +:+ join "," [json_pair "id_field" (json_str (id_field o)); json_pair "mode" (json_str (mode o));
      json_pair "name" (json_str (object_name o)); json_pair "schema" (json_str (schema_str (spec_schema o)));
      json_pair "soft_delete_field" (json_opt (soft_delete_field o));
      json_pair "sources" ("[" +:+ join "," entries +:+ "]")] +:+ "}").

Definition digest_objects (objects : list string) : string := sha256_hex ("[" +:+ join "," objects +:+ "]").

(** [_compute_snapshot_id]: it asks the specifications again, and stats every file. *)
Definition _compute_snapshot_id (f : fs) (objects : list DatasetSpec) : io catalog_caches string :=
  let* entries := io_map (λ o, let* c := content_fingerprint f o in io_lift (object_json o c.2)) objects in
  io_ret (digest_objects entries).

(** [snapshot_id], on the objects in the order of their names. *)
Definition snapshot_id (f : fs) (objects : list DatasetSpec) : io catalog_caches string :=
  let* fingerprint := io_map (content_fingerprint f) objects in
  λ c, match cc_snapshot c with
       | Some (old, value) => if bool_decide (old = fingerprint) then (c, Ok value) else
           match _compute_snapshot_id f objects c with
           | (c, Ok v) => (mkCaches (cc_sources c) (Some (fingerprint, v)), Ok v)
           | r => r
           end
       | None =>
           match _compute_snapshot_id f objects c with
           | (c, Ok v) => (mkCaches (cc_sources c) (Some (fingerprint, v)), Ok v)
           | r => r
           end
       end.

(** [DatasetCatalog.refresh] *)
Definition catalog_refresh (objects : list DatasetSpec) (c : catalog_caches) : catalog_caches :=
  mkCaches (foldr (λ o m, <[object_name o := None]> m) (cc_sources c) objects) None.

(** Without caches. *)
Definition fresh_content (f : fs) (o : DatasetSpec) : content :=
  let spec := source_of roots o in
  (structural_fingerprint f spec,
   (λ p, (path_str p, _file_signature f p)) <$> match _resolve_sources f spec with Ok l => l | Err _ => [] end).
Definition snapshot_of (objects : list DatasetSpec) (contents : list content) : res string :=
  let! entries := res_map (λ oc, object_json oc.1 oc.2.2) (zip objects contents) in
  Ok (digest_objects entries).
Definition fresh_snapshot (f : fs) (objects : list DatasetSpec) : res string := snapshot_of objects (fresh_content f <$> objects).

(** A request or a step of the files, one at a time. *)
Context (objects : list DatasetSpec).
Definition step_all (f f' : fs) : Prop := ∀ o, o ∈ objects → fs_step (source_of roots o) f f'.

Inductive catalog_step : fs * catalog_caches → fs * catalog_caches → Prop :=
| cs_files f f' c : step_all f f' → catalog_step (f, c) (f', c)
| cs_sources f o c : o ∈ objects → catalog_step (f, c) (f, (content_fingerprint f o c).1)
| cs_snapshot f c : catalog_step (f, c) (f, (snapshot_id f objects c).1)
| cs_refresh f c : catalog_step (f, c) (f, catalog_refresh objects c).
End Snapshot.

Section SnapshotFacts.
Context (schema_str : schema → string) (roots : list path) (objects : list DatasetSpec).
Context (Hok : ∀ o, o ∈ objects → spec_ok (source_of roots o)) (Hnames : NoDup (object_name <$> objects)).

Record caches_ok (f : fs) (c : catalog_caches) : Prop := {
  ck_files : ∀ o, o ∈ objects → fs_wf (source_of roots o) f;
  ck_sources : ∀ o fp v, o ∈ objects → source_cache (object_name o) c = Some (fp, v) →
    ∃ g, fs_wf (source_of roots o) g ∧ rtc (fs_step (source_of roots o)) g f ∧
         fp = structural_fingerprint g (source_of roots o) ∧ Ok v = _resolve_sources g (source_of roots o);
  ck_snapshot : ∀ fp v, cc_snapshot c = Some (fp, v) → snapshot_of schema_str objects fp = Ok v }.

Lemma source_cache_set name name' x c :
  source_cache name' (set_source_cache name x c) = if decide (name' = name) then x else source_cache name' c.
Proof.
  unfold source_cache, set_source_cache. cbn. case_decide as E; [subst; by rewrite lookup_insert_eq|by rewrite lookup_insert_ne].
Qed.

Lemma content_fresh f o c :
  caches_ok f c → o ∈ objects →
  ∃ c', content_fingerprint roots f o c = (c', Ok (fresh_content roots f o)) ∧ caches_ok f c' ∧ cc_snapshot c' = cc_snapshot c.
Proof.
  intros Hc Ho. pose proof (ck_files _ _ Hc _ Ho) as Hwf. pose proof (Hok _ Ho) as Hso.
  pose proof (resolution_total _ Hso f Hwf) as Htot. unfold content_fingerprint, fresh_content.
  set (spec := source_of roots o) in *. set (fp := structural_fingerprint f spec).
  destruct (_resolve_sources f spec) as [l|] eqn:El; [|done].
  exists (set_source_cache (object_name o) (Some (fp, l)) c).
  assert (current_sources f spec (source_cache (object_name o) c) = (Some (fp, l), Ok l)) as E.
  { unfold current_sources, cache_get. rewrite El. fold fp. destruct (source_cache (object_name o) c) as [[old value]|] eqn:Ec; [|done].
    case_bool_decide as Eo; [subst old|done].
    destruct (ck_sources _ _ Hc _ _ _ Ho Ec) as (g & Hg & Hrun & Hfp & Hv). fold spec in Hg, Hrun, Hfp, Hv.
    rewrite <- (fingerprint_window spec g f f Hso Hg Hrun (rtc_refl _ _)) in Hv by done. rewrite El in Hv. by injection Hv as ->. }
  split_and!; [unfold io_bind, io_zoom; by rewrite E| |done].
  split; [apply Hc| |apply Hc]. intros o' fp' v' Ho' Hv'. rewrite source_cache_set in Hv'. case_decide as En; [|by apply (ck_sources _ _ Hc)].
  assert (o' = o) as ->.
  { by apply (NoDup_key_inj object_name objects). }
  simplify_eq. exists f. split_and!; [done|done|done|exact (eq_sym El)].
Qed.

Lemma contents_fresh f l c :
  caches_ok f c → l ⊆ objects →
  ∃ c', io_map (content_fingerprint roots f) l c = (c', Ok (fresh_content roots f <$> l)) ∧ caches_ok f c' ∧ cc_snapshot c' = cc_snapshot c.
Proof.
  revert c. induction l as [|o l IH]; intros c Hc Hl; [by exists c|].
  destruct (content_fresh f o c Hc) as (c1 & E1 & Hc1 & Hs1); [apply Hl; by left|].
  destruct (IH c1 Hc1) as (c2 & E2 & Hc2 & Hs2); [intros x Hx; apply Hl; by right|].
  exists c2. cbn [io_map]. rewrite (io_bind_run _ _ _ _ _ E1), (io_bind_run _ _ _ _ _ E2). split_and!; [done|done|congruence].
Qed.

Lemma objects_fresh f l c :
  caches_ok f c → l ⊆ objects →
  ∃ c', io_map (λ o, let* x := content_fingerprint roots f o in io_lift (object_json schema_str o x.2)) l c
        = (c', res_map (λ oc, object_json schema_str oc.1 oc.2.2) (zip l (fresh_content roots f <$> l))) ∧
        caches_ok f c' ∧ cc_snapshot c' = cc_snapshot c.
Proof.
  revert c. induction l as [|o l IH]; intros c Hc Hl; [by exists c|].
  destruct (content_fresh f o c Hc) as (c1 & E1 & Hc1 & Hs1); [apply Hl; by left|].
  destruct (IH c1 Hc1) as (c2 & E2 & Hc2 & Hs2); [intros x Hx; apply Hl; by right|].
  cbn [io_map fmap list_fmap zip zip_with res_map fst snd].
  destruct (object_json schema_str o (fresh_content roots f o).2) as [t|e] eqn:Ej.
  - exists c2. rewrite (io_bind_run _ _ c c1 t) by (by rewrite (io_bind_run _ _ _ _ _ E1); unfold io_lift; rewrite Ej).
    cbn [res_bind]. unfold io_bind at 1. rewrite E2. split_and!; [|done|congruence].
    by destruct (res_map _ (zip l _)).
  - exists c1. rewrite (io_bind_err _ _ c c1 e) by (by rewrite (io_bind_run _ _ _ _ _ E1); unfold io_lift; rewrite Ej). done.
Qed.

Lemma compute_fresh f c :
  caches_ok f c →
  ∃ c', _compute_snapshot_id schema_str roots f objects c = (c', fresh_snapshot schema_str roots f objects) ∧ caches_ok f c' ∧
        cc_snapshot c' = cc_snapshot c.
Proof.
  intros Hc. destruct (objects_fresh f objects c Hc) as (c' & E & Hc' & Hs); [done|]. exists c'. split_and!; [|done|done].
  unfold _compute_snapshot_id, fresh_snapshot, snapshot_of.
  destruct (res_map _ (zip objects _)); [by rewrite (io_bind_run _ _ _ _ _ E)|by rewrite (io_bind_err _ _ _ _ _ E)].
Qed.

Lemma snapshot_fresh f c :
  caches_ok f c →
  ∃ c', snapshot_id schema_str roots f objects c = (c', fresh_snapshot schema_str roots f objects) ∧ caches_ok f c'.
Proof.
  intros Hc. unfold snapshot_id. destruct (contents_fresh f objects c Hc) as (c1 & E1 & Hc1 & Hs1); [done|].
  rewrite (io_bind_run _ _ _ _ _ E1). set (F := fresh_content roots f <$> objects).
  assert (∃ c', match _compute_snapshot_id schema_str roots f objects c1 with
                | (c, Ok v) => (mkCaches (cc_sources c) (Some (F, v)), Ok v) | r => r end
              = (c', fresh_snapshot schema_str roots f objects) ∧ caches_ok f c') as (c' & Ecomp & Hc').
  { destruct (compute_fresh f c1 Hc1) as (c2 & -> & Hc2 & Hs2).
    destruct (fresh_snapshot schema_str roots f objects) as [v|] eqn:Ev; [|by exists c2].
    eexists. split; [done|]. split; [apply Hc2| |].
    - intros o fp w Ho Hw. by apply (ck_sources _ _ Hc2 o).
    - cbn. by intros fp w [= <- <-]. }
  destruct (cc_snapshot c1) as [[old value]|] eqn:Es; [|by exists c']. case_bool_decide as Eo; [|by exists c'].
  exists c1. split; [|done]. f_equal. symmetry. rewrite <- (ck_snapshot _ _ Hc1 _ _ Es). by rewrite Eo.
Qed.

Lemma caches_ok_step f c f' c' :
  caches_ok f c → catalog_step schema_str roots objects (f, c) (f', c') → caches_ok f' c'.
Proof.
  intros Hc. inversion 1 as [? ? ? Hs|? o ? Ho|? ?|? ?]; subst.
  - split; [| |apply Hc].
    + intros o Ho. apply (fs_wf_step _ (so_apart _ (Hok _ Ho)) f f'); [by apply (ck_files _ _ Hc)|by apply Hs].
    + intros o fp v Ho Hv. destruct (ck_sources _ _ Hc _ _ _ Ho Hv) as (g & Hg & Hrun & ? & ?). exists g. split_and!; try done.
      eapply rtc_r; [done|]. by apply Hs.
  - destruct (content_fresh f' o c Hc Ho) as (c1 & -> & Hc1 & _). done.
  - destruct (snapshot_fresh f' c Hc) as (c1 & -> & Hc1). done.
  - split; [apply Hc| |done]. intros o fp v Ho Hv. exfalso. unfold source_cache, catalog_refresh in Hv. cbn in Hv.
    assert (foldr (λ o m, <[object_name o := None]> m) (cc_sources c) objects !! object_name o = Some None) as E; [|by rewrite E in Hv].
    clear -Ho. induction objects as [|x l IH]; [by apply elem_of_nil in Ho|]. cbn [foldr].
    destruct (decide (object_name x = object_name o)) as [->|Hne]; [by rewrite lookup_insert_eq|].
    rewrite lookup_insert_ne by done. apply elem_of_cons in Ho as [->|Ho]; [done|by apply IH].
Qed.

(** C13: The snapshot identifier that cursors are pinned to is exact: after any files were published,
    compacted or regenerated and any requests went through the caches, reading it gives the digest of
    the names, sizes and times the files have now, computed without a cache; it fails exactly when
    that fails, on a file that is missing. The files found for each object are those of now too. *)
Theorem snapshot_id_exact f0 f c :
  (∀ o, o ∈ objects → fs_wf (source_of roots o) f0) →
  rtc (catalog_step schema_str roots objects) (f0, mkCaches ∅ None) (f, c) →
  (snapshot_id schema_str roots f objects c).2 = fresh_snapshot schema_str roots f objects ∧
  ∀ o, o ∈ objects → (content_fingerprint roots f o c).2 = Ok (fresh_content roots f o).
Proof.
  intros Hwf Hrun. assert (caches_ok f c) as Hc.
  { assert (caches_ok f0 (mkCaches ∅ None)) as H0; [split; [done| |done]; intros ? ? ? _ Hv; unfold source_cache in Hv; cbn in Hv; by rewrite lookup_empty in Hv|].
    remember (f0, mkCaches ∅ None) as x eqn:Ex. remember (f, c) as y eqn:Ey. revert f0 f c Hwf Ex Ey H0. generalize (mkCaches ∅ None) as c0.
    induction Hrun as [x|x [f1 c1] y Hs _ IH]; intros c0 f0 f c Hwf Ex Ey H0; [congruence|]. subst x.
    pose proof (caches_ok_step _ _ _ _ H0 Hs) as H1. by apply (IH c1 f1 f c (ck_files _ _ H1)). }
  split; [by destruct (snapshot_fresh f c Hc) as (c' & -> & _)|].
  intros o Ho. by destruct (content_fresh f o c Hc Ho) as (c' & -> & _).
Qed.
End SnapshotFacts.

(** ** An example run *)

Definition example_spec : source_spec := mkSource [["d"; "s.parquet"]] [delta_pattern "a"] [["d"]].
Definition empty_fs : fs := mkFs {[ [] := mkInode true dir_size 0 0 ]} 0.

Lemma empty_fs_wf spec : [] ∉ delta_roots spec → fs_wf spec empty_fs.
Proof.
  intros Hno. assert (∀ p i, fs_nodes empty_fs !! p = Some i → p = [] ∧ i = mkInode true dir_size 0 0) as H.
  { intros p i Hi. cbn [fs_nodes empty_fs] in Hi. by apply lookup_singleton_Some in Hi as [<- <-]. }
  split.
  - by intros p i [-> _]%H.
  - by intros p i [_ ->]%H.
  - intros p n i [E _]%H. by destruct p.
  - intros r q i Hr [E _]%H. apply app_nil in E as [-> _]. done.
Qed.

Lemma example_spec_ok : spec_ok example_spec.
Proof.
  split; [by repeat constructor| |].
  - apply Forall_singleton. exists "a". split; [|done]. split_and!; [by repeat constructor|done|done|].
    change (chars "a") with ["a"%char]. by intros ?%list_elem_of_singleton.
  - intros r q. change (delta_roots example_spec) with [["d"; "a"]]. rewrite !list_elem_of_singleton. intros -> E. by destruct q.
Qed.

Definition run_mkdir (p : path) (n : string) (s : system) : system :=
  mkSystem (sy_now s :: sy_past s) (mkdir (p ++ [n]) (sy_now s)) (sy_cache s) (sy_readers s).
Definition run_create (p : path) (n : string) (size : Z) (s : system) : system :=
  mkSystem (sy_now s :: sy_past s) (create (p ++ [n]) size (sy_now s)) (sy_cache s) (sy_readers s).

Definition example_before : system := run_mkdir ["d"; "a"] "p=1" (run_mkdir ["d"] "a" (run_mkdir [] "d" (sys_start empty_fs))).
Definition example_asked : system := run_create ["d"; "a"; "p=1"] "x.parquet" 10 (read_fingerprint example_spec 7 example_before).

Lemma example_run : rtc (sys_step example_spec) (sys_start empty_fs) example_asked.
Proof.
  assert (delta_roots example_spec = [["d"; "a"]]) as E by done.
  eapply rtc_l. { eapply sys_files, (step_mkdir _ _ [] "d"); [done|by eexists|done|]. left. intros (r & q & Hr & Eq). rewrite E, list_elem_of_singleton in Hr. by subst r. }
  eapply rtc_l. { eapply sys_files, (step_mkdir _ _ ["d"] "a"); [done|by eexists|done|]. right. left. rewrite E. by left. }
  eapply rtc_l. { eapply sys_files, (step_mkdir _ _ ["d"; "a"] "p=1"); [done|by eexists|done|]. right. right. rewrite E. by left. }
  eapply rtc_l; [apply (sys_fingerprint _ _ 7)|].
  apply rtc_once, sys_files, (step_create _ _ ["d"; "a"; "p=1"] "x.parquet"); [done|by eexists|done|].
  right. exists ["d"; "a"], "p=1", "x.parquet". split; [rewrite E; by left|done].
Qed.

Lemma example_start : fs_wf example_spec empty_fs.
Proof. apply empty_fs_wf. change (delta_roots example_spec) with [["d"; "a"]]. by intros ?%list_elem_of_singleton. Qed.


Definition example_object : DatasetSpec :=
  mkSpec "Account" ["/d/s.parquet"] "Id" None "read_only" [("Id", TString)] [delta_pattern "a"] (Some "Id") [] None true true [].
Definition example_seed : fs := create ["d"; "s.parquet"] 20 (mkdir ["d"] empty_fs).

Lemma snapshot_id_exact_witness :
  ∃ c, c = (snapshot_id (λ _, "Id: string") [["d"]] example_seed [example_object] (mkCaches ∅ None)).1 ∧
  (snapshot_id (λ _, "Id: string") [["d"]] example_seed [example_object] c).2 =
    fresh_snapshot (λ _, "Id: string") [["d"]] example_seed [example_object] ∧
  (content_fingerprint [["d"]] example_seed example_object c).2 = Ok (fresh_content [["d"]] example_seed example_object).
Proof.
  eexists. split; [reflexivity|].
  assert (∀ o, o ∈ [example_object] → source_of [["d"]] o = example_spec) as Hspec by (intros o ->%list_elem_of_singleton; reflexivity).
  assert (delta_roots example_spec = [["d"; "a"]]) as E by done.
  destruct (snapshot_id_exact (λ _, "Id: string") [["d"]] [example_object] ltac:(intros o Ho; rewrite Hspec by done; exact example_spec_ok)
    ltac:(repeat constructor; by intros ?%elem_of_nil) empty_fs example_seed
    (snapshot_id (λ _, "Id: string") [["d"]] example_seed [example_object] (mkCaches ∅ None)).1) as [H1 H2].
  - intros o Ho. rewrite Hspec by done. exact example_start.
  - eapply rtc_l; [apply cs_files with (f' := mkdir ["d"] empty_fs)|].
    { intros o Ho. rewrite Hspec by done. apply (step_mkdir _ _ [] "d"); [done|by eexists|done|]. left.
      intros (r & q & Hr & Eq). rewrite E, list_elem_of_singleton in Hr. by subst r. }
    eapply rtc_l; [apply cs_files with (f' := example_seed)|].
    { intros o Ho. rewrite Hspec by done. apply (step_create _ _ ["d"] "s.parquet"); [done|by eexists|done|]. left.
      intros (r & q & Hr & Eq). rewrite E, list_elem_of_singleton in Hr. by subst r. }
    apply rtc_once. apply cs_snapshot.
  - split; [exact H1|]. apply H2. by left.
Defined.

(** ** What the fingerprint does not see *)

(** The fingerprint promises to move whenever the set of files can differ. It does for partitions
    directly below a delta root, as the publisher makes them. A file in a directory deeper down
    matches the recursive pattern, and so does the file a pattern without wildcards names, but
    neither moves it. *)
Definition deeper_before : fs := mkdir ["d"; "a"; "p=1"; "q"] (sy_now example_before).
Definition deeper_after : fs := create ["d"; "a"; "p=1"; "q"; "x.parquet"] 10 deeper_before.
Definition literal_spec : source_spec := mkSource [] ["x.parquet"] [["d"]].

Theorem unnoticed_deltas :
  structural_fingerprint deeper_before example_spec = structural_fingerprint deeper_after example_spec ∧
  _resolve_sources deeper_before example_spec ≠ _resolve_sources deeper_after example_spec ∧
  structural_fingerprint (mkdir ["d"] empty_fs) literal_spec = structural_fingerprint (create ["d"; "x.parquet"] 1 (mkdir ["d"] empty_fs)) literal_spec ∧
  _resolve_sources (mkdir ["d"] empty_fs) literal_spec ≠ _resolve_sources (create ["d"; "x.parquet"] 1 (mkdir ["d"] empty_fs)) literal_spec.
Proof. split_and!; vm_compute; congruence. Qed.

(** No file outside of the allowed roots is ever a source, whatever the pattern says. *)
Lemma expand_source_contained f pattern roots l p :
  _expand_source f pattern roots = Ok l → p ∈ l → ∃ root q, root ∈ roots ∧ p = root ++ q.
Proof.
  unfold _expand_source. intros H Hp. apply res_bind_ok in H as (ls & Hls & H). simplify_eq.
  rewrite elem_of_sorted_set, list_elem_of_In, in_concat in Hp. destruct Hp as (x & Hx & Hp).
  apply res_map_Forall2 in Hls. apply list_elem_of_In, list_elem_of_lookup in Hx as [i Hx].
  destruct (Forall2_lookup_r _ _ _ _ _ Hls Hx) as (root & _ & Hr). apply res_bind_ok in Hr as (cs & _ & Hr).
  apply res_omap_ok in Hr as [Hr _]. apply list_elem_of_In, Hr in Hp as (c & _ & Hc).
  destruct (is_file f c && _) eqn:E; [|done]. destruct (supported _); [|done]. simplify_eq.
  apply andb_true_iff in E as [_ E]. apply existsb_exists in E as (allowed & Ha & Hpre). apply is_prefix_spec in Hpre as [q ->].
  exists allowed, q. split; [by apply list_elem_of_In|done].
Qed.

Example expand_escaping : _expand_source example_seed "../d/*" [["d"; "none"]; ["d"]] = Ok [["d"; "s.parquet"]] ∧
  _expand_source example_seed "../d/*" [["d"; "none"]] = Ok [].
Proof. by vm_compute. Qed.
