(* ===== verification/Compactor.v ===== *)
(** * Running a compaction: [fakeforce/compaction.py] on the files

    [Compaction] shows what merging does to the rows. This file follows the same run through the
    file system: the plan, the delta root the merged file goes to, the temporary file, the
    replacement and the removal of the partitions, with the errors on the way. Every state the
    files pass through is recorded, so that the theorem can say that a compaction takes only steps
    the catalog's caches are prepared for ([Sources.fs_step]). What DuckDB writes is given by its
    rows and bytes; access rights and free space are arguments. *)

From stdpp Require Import prelude gmap strings list relations.
From Stdlib Require Import ZArith Lia Ascii.
From S2P Require Import Prelude PyText Soql Catalog Files Sources.

Open Scope Z_scope.

(** The files, the states they were in before, the latest first, and the compactor's own catalog. *)
Record run_state := mkRun { rs_fs : fs; rs_past : list fs; rs_caches : catalog_caches }.

Record CompactionPlan := mkPlan {
  cp_object : string; cp_base : list path; cp_partitions : list path; cp_compacted_path : path }.
Record CompactionResult := mkResult {
  cr_object : string; cr_merged : Z; cr_rows : Z; cr_bytes : Z; cr_removed : Z }.

Definition is_worthwhile (p : CompactionPlan) : bool := 0 <? Z.of_nat (length (cp_partitions p)).

(** ** Operations *)

Section Compactor.
(** [os.access(p, os.W_OK)]; the free bytes of a disk and the reserve; the name [mkstemp] draws;
    DuckDB's [COPY] of the files into one: its rows and bytes, or the error it raises. *)
Context (writable : path → bool) (free : path → Z) (disk_reserve_bytes : Z) (temporary : string)
        (copy : list path → res (Z * Z)).
Context (catalog : DatasetCatalog) (roots : list path).

Fixpoint nearest_writable (fuel : nat) (f : fs) (current : path) : bool :=
  if exists_ f current then writable current
  else match fuel, current with
       | S fuel, _ :: _ => nearest_writable fuel f (parent current)
       | _, _ => false
       end.
Definition _nearest_existing_ancestor_is_writable (f : fs) (p : path) : bool := nearest_writable (length p) f p.

Definition _spec (object_name_ : string) : res DatasetSpec :=
  match get catalog object_name_ with
  | None => raise CompactionError ("object is not configured: " +:+ object_name_)
  | Some spec =>
    if bool_decide (version_field spec = None)
    then raise CompactionError (object_name spec +:+ " has no version field, so it has no newest row to keep")
    else if bool_decide (delta_patterns spec = [])
    then raise CompactionError (object_name spec +:+ " publishes no delta partitions")
    else Ok spec
  end.

Definition roots_text (l : list path) : string :=
  match l with
  | [] => "(none configured)"
  | [r] => "(PosixPath(" +:+ py_repr (path_str r) +:+ "),)"
  | _ => "(" +:+ join ", " ((λ r, "PosixPath(" +:+ py_repr (path_str r) +:+ ")") <$> l) +:+ ")"
  end.

Definition _compacted_path (f : fs) (spec : DatasetSpec) : res path :=
  let rs := delta_roots (source_of roots spec) in
  match filter (λ r, _nearest_existing_ancestor_is_writable f r = true) rs with
  | [] => raise CompactionError (object_name spec +:+ " has no writable delta root among " +:+ roots_text rs)
  | r :: _ => Ok (r ++ [COMPACTED_DIRECTORY; COMPACTED_BASE_FILENAME])
  end.

Definition plan (f : fs) (object_name_ : string) : res CompactionPlan :=
  let! spec := _spec object_name_ in
  let! partitions := published_deltas f (source_of roots spec) in
  let! compacted_path := _compacted_path f spec in
  Ok (mkPlan (object_name spec) (effective_base f (source_of roots spec)) partitions compacted_path).

(** One operation on the files. *)
Definition act (g : fs → fs) : io run_state unit :=
  io_modify (λ s, mkRun (g (rs_fs s)) (rs_fs s :: rs_past s) (rs_caches s)).

(** [path.mkdir(parents=True, exist_ok=True)] below an existing directory. *)
Fixpoint mkdirs (here : path) (rest : list string) : io run_state unit :=
  match rest with
  | [] => io_ret tt
  | n :: rest =>
    let* s := io_get in
    let p := here ++ [n] in
    if is_dir (rs_fs s) p then mkdirs p rest
    else if exists_ (rs_fs s) p then io_raise OSError ("[Errno 17] File exists: " +:+ py_repr (path_str p))
    else if writable here then act (mkdir p) ;;; mkdirs p rest
    else io_raise PermissionError ("[Errno 13] Permission denied: " +:+ py_repr (path_str p))
  end.

Definition require_disk_reserve (directory : path) : io run_state unit :=
  mkdirs [] directory ;;;
  raise_if (free directory <? disk_reserve_bytes) InsufficientDiskSpaceError
    ("insufficient free disk space in " +:+ path_str directory +:+ ": " +:+ str_of_Z (free directory) +:+ " bytes available, "
     +:+ str_of_Z disk_reserve_bytes +:+ " bytes reserved, 0 bytes requested").

(** [_write_merged]: the temporary file is made and removed by [mkstemp], written by DuckDB and
    put in place; after a failed [COPY] it is removed. *)
Definition _write_merged (partitions : list path) (destination : path) : io run_state (Z * Z) :=
  let d := parent destination in
  act (create (d ++ [temporary]) 0) ;;;
  act (remove (d ++ [temporary])) ;;;
  match copy partitions with
  | Err e => act (create (d ++ [temporary]) 0) ;;; act (remove (d ++ [temporary])) ;;; io_lift (Err e)
  | Ok (rows, written_bytes) =>
    act (create (d ++ [temporary]) written_bytes) ;;;
    act (replace d temporary (name_of destination)) ;;;
    io_ret (rows, written_bytes)
  end.

(** One iteration of [_remove]. *)
Definition remove_partition (removed : Z) (p : path) : io run_state Z :=
  let* s := io_get in
  if negb (exists_ (rs_fs s) p) then io_ret removed
  else if negb (writable (parent p)) then io_raise PermissionError ("[Errno 13] Permission denied: " +:+ py_repr (path_str p))
  else
    act (remove p) ;;;
    let* s := io_get in
    if bool_decide (scandir (rs_fs s) (parent p) = []) then
      if writable (parent (parent p)) then act (remove (parent p)) ;;; io_ret (removed + 1)
      else io_raise PermissionError ("[Errno 13] Permission denied: " +:+ py_repr (path_str (parent p)))
    else io_ret (removed + 1).
Definition _remove (partitions : list path) : io run_state Z := io_fold remove_partition partitions 0.

Definition refresh_catalog : io run_state unit :=
  io_modify (λ s, mkRun (rs_fs s) (rs_past s) (catalog_refresh ((c_objects catalog).*2) (rs_caches s))).

Definition compact (object_name_ : string) : io run_state CompactionResult :=
  let* s := io_get in
  let* p := io_lift (plan (rs_fs s) object_name_) in
  if negb (is_worthwhile p) then io_ret (mkResult (cp_object p) 0 0 0 0)
  else
    mkdirs [] (parent (cp_compacted_path p)) ;;;
    require_disk_reserve (parent (cp_compacted_path p)) ;;;
    let* written := _write_merged (cp_base p ++ cp_partitions p) (cp_compacted_path p) in
    let* removed := _remove (cp_partitions p) in
    refresh_catalog ;;;
    io_ret (mkResult (cp_object p) (Z.of_nat (length (cp_partitions p))) written.1 written.2 removed).

(** [compact_all] and the objects a dry run plans. *)
Definition compactable (name : string) : bool :=
  match get catalog name with
  | Some spec => negb (bool_decide (version_field spec = None)) && negb (bool_decide (delta_patterns spec = []))
  | None => false
  end.
Definition compact_all : io run_state (list CompactionResult) :=
  io_map compact (filter (λ name, compactable name = true) (object_names catalog)).
Definition dry_run (f : fs) : res (list CompactionPlan) :=
  res_map (plan f) (filter (λ name, compactable name = true) (object_names catalog)).
End Compactor.

(** ** A compaction and the caches *)

(** The tree at the start of a list of states is well formed. *)
Lemma past_ok_wf spec f past : roots_apart spec → past_ok spec f past → fs_wf spec f.
Proof.
  intros Hap. revert f. induction past as [|g past IH]; intros f; [done|]. intros [Hs Hp]. by apply (fs_wf_step spec Hap g f), Hs; apply IH.
Qed.

Lemma partition_inj (r r' : path) a a' n n' : r ++ [a; n] = r' ++ [a'; n'] → r = r' ∧ a = a' ∧ n = n'.
Proof.
  rewrite !snoc2. intros E. apply app_inj_tail in E as [E ->]. apply app_inj_tail in E as [-> ->]. done.
Qed.

Lemma is_Some_touch (t : Z) (d : path) (m : gmap path inode) q : is_Some (touch t d m !! q) ↔ is_Some (m !! q).
Proof. unfold touch. apply lookup_alter_is_Some. Qed.

Lemma some_mkdir p f q : is_Some (fs_nodes (mkdir p f) !! q) ↔ q = p ∨ is_Some (fs_nodes f !! q).
Proof.
  cbn. destruct (decide (q = p)) as [->|Hne]; [rewrite lookup_insert_eq; split; [by left|by eexists]|].
  rewrite lookup_insert_ne, is_Some_touch by done. tauto.
Qed.
Lemma some_create p size f q : is_Some (fs_nodes (create p size f) !! q) ↔ q = p ∨ is_Some (fs_nodes f !! q).
Proof.
  cbn. destruct (decide (q = p)) as [->|Hne]; [rewrite lookup_insert_eq; split; [by left|by eexists]|].
  rewrite lookup_insert_ne, is_Some_touch by done. tauto.
Qed.
Lemma some_remove p f q : is_Some (fs_nodes (remove p f) !! q) ↔ q ≠ p ∧ is_Some (fs_nodes f !! q).
Proof.
  cbn. destruct (decide (q = p)) as [->|Hne]; [rewrite lookup_delete_eq; split; [by intros [? ?]|by intros []]|].
  rewrite lookup_delete_ne, is_Some_touch by done. tauto.
Qed.
Lemma some_replace (d : path) x y f q :
  x ≠ y → is_Some (fs_nodes f !! (d ++ [x])) →
  is_Some (fs_nodes (replace d x y f) !! q) ↔ q = d ++ [y] ∨ q ≠ d ++ [x] ∧ is_Some (fs_nodes f !! q).
Proof.
  intros Hxy [i Hi]. unfold replace. rewrite Hi. cbn.
  destruct (decide (q = d ++ [y])) as [->|Hy]; [rewrite lookup_insert_eq; split; [by left|by eexists]|]. rewrite lookup_insert_ne by done.
  destruct (decide (q = d ++ [x])) as [->|Hx]; [rewrite lookup_delete_eq; split; [by intros [? ?]|by intros [?|[? ?]]]|].
  rewrite lookup_delete_ne, is_Some_touch by done. tauto.
Qed.

Lemma head_filter_moved `{EqDecision A} (P P' : A → Prop) `{∀ x, Decision (P x), ∀ x, Decision (P' x)} (l : list A) x :
  (∀ c, c ∈ l → c ≠ x → P' c ↔ P c) → x ∈ l → P' x → head (filter P l) = None ∨ head (filter P l) = Some x →
  head (filter P' l) = Some x.
Proof.
  induction l as [|c l IH]; intros Hl Hx HP' Hh; [by apply elem_of_nil in Hx|]. rewrite filter_cons in Hh |- *.
  destruct (decide (P' c)) as [Hc|Hc].
  - destruct (decide (c = x)) as [->|Hne]; [done|]. apply Hl in Hc; [|by left|done].
    rewrite decide_True in Hh by done. cbn in Hh. destruct Hh; congruence.
  - assert (c ≠ x) as Hne by congruence. apply IH; [intros d Hd; apply Hl; by right|by apply elem_of_cons in Hx as [->|]|done|].
    rewrite decide_False in Hh; [done|]. rewrite <- Hl; [done|by left|done].
Qed.

Section CompactionFacts.
Context (spec : source_spec) (Hok : spec_ok spec) (r0 : path) (Hr0 : r0 ∈ delta_roots spec).
Context (writable : path → bool) (free : path → Z) (reserve : Z) (temporary : string) (copy : list path → res (Z * Z)).
Context (Htmp : ordinary temporary) (Htmp' : temporary ≠ COMPACTED_BASE_FILENAME).
(** The files when the compaction began. *)
Context (f0 : fs).

Abbreviation compacted := (r0 ++ [COMPACTED_DIRECTORY]).

(** What holds throughout: the steps so far are allowed; the partitions that are left are those to
    remove; the compacted files of other roots are as they were. *)
Record running (rest : list path) (s : run_state) : Prop := {
  ru_past : past_ok spec (rs_fs s) (rs_past s);
  ru_root : dir_at (rs_fs s) [];
  ru_rest : ∀ r a n, r ∈ delta_roots spec → a ≠ COMPACTED_DIRECTORY → member (rs_fs s) r a n → parquet n → r ++ [a; n] ∈ rest;
  ru_there : ∀ p, p ∈ rest → ∃ r a n, r ∈ delta_roots spec ∧ a ≠ COMPACTED_DIRECTORY ∧ p = r ++ [a; n] ∧ member (rs_fs s) r a n;
  ru_others : ∀ r, r ∈ delta_roots spec → r ≠ r0 →
    member (rs_fs s) r COMPACTED_DIRECTORY COMPACTED_BASE_FILENAME ↔ member f0 r COMPACTED_DIRECTORY COMPACTED_BASE_FILENAME }.

Lemma running_wf rest s : running rest s → fs_wf spec (rs_fs s).
Proof. intros H. eapply past_ok_wf; [apply Hok|apply H]. Qed.

(** A step that changes at most what is directly below [r0] and its compacted directory. *)
Lemma running_act rest s g :
  running rest s → fs_step spec (rs_fs s) (g (rs_fs s)) → dir_at (g (rs_fs s)) [] →
  (∀ r a n, r ∈ delta_roots spec → a ≠ COMPACTED_DIRECTORY ∨ r ≠ r0 → member (g (rs_fs s)) r a n ↔ member (rs_fs s) r a n) →
  running rest (act g s).1.
Proof.
  intros H Hs Hd Hm. split; cbn; [by split; [|apply H]|done| | |].
  - intros r a n Hr Ha Hmem. apply (ru_rest _ _ H); [done|done|]. by apply Hm; [|left|].
  - intros p Hp. destruct (ru_there _ _ H p Hp) as (r & a & n & Hr & Ha & -> & Hmem). exists r, a, n.
    split_and!; [done|done|done|]. by apply Hm; [|left|].
  - intros r Hr Hne. rewrite Hm by auto. by apply (ru_others _ _ H).
Qed.

Lemma compacted_ordinary : Forall ordinary compacted.
Proof. apply Forall_app. split; [by apply (delta_root_ordinary spec Hok)|by repeat constructor]. Qed.

Lemma dir_at_is_dir f p : Forall ordinary p → is_dir f p = true ↔ dir_at f p.
Proof.
  intros Ho. unfold is_dir, lookup_path, dir_at. rewrite resolve_ordinary by done. split.
  - destruct (_ !! _) as [i|]; [intros Hi; by exists i|done].
  - by intros (i & -> & Hi).
Qed.

Lemma exists_lookup f p : Forall ordinary p → exists_ f p = true ↔ is_Some (fs_nodes f !! p).
Proof. intros Ho. unfold exists_, lookup_path. by rewrite resolve_ordinary, bool_decide_eq_true. Qed.

Lemma dir_at_mkdir p f q : dir_at f q → p ≠ q → dir_at (mkdir p f) q.
Proof.
  intros (i & Hi & Hd) Hne. unfold dir_at. cbn. rewrite lookup_insert_ne by done. unfold touch.
  destruct (decide (parent p = q)) as [<-|Hp]; [rewrite lookup_alter_eq, Hi; by eexists|]. rewrite lookup_alter_ne by done. by exists i.
Qed.

Lemma below_compacted r a n k : r ∈ delta_roots spec → r ++ a :: n :: k ≠ compacted.
Proof.
  intros Hr E. destruct (exists_last (l := n :: k)) as (q & x & Eq); [done|]. rewrite Eq, app_comm_cons, app_assoc in E.
  apply app_inj_tail in E as [E _]. rewrite <- E in Hr0. by apply (so_apart _ Hok r _ Hr) in Hr0.
Qed.

(** Making the compacted directory. *)
Lemma running_mkdirs here rest_path rest s s' r :
  running rest s → here ++ rest_path = compacted → dir_at (rs_fs s) here → fs_nodes (rs_fs s) !! (compacted ++ [temporary]) = None →
  mkdirs writable here rest_path s = (s', r) →
  running rest s' ∧ fs_nodes (rs_fs s') !! (compacted ++ [temporary]) = None ∧ (is_ok r = true → dir_at (rs_fs s') compacted).
Proof.
  revert here s. induction rest_path as [|n l IH]; intros here s H Hhere Hdir Htn E.
  - rewrite app_nil_r in Hhere. subst here. injection E as <- <-. by split_and!.
  - assert (Forall ordinary (here ++ [n])) as Ho.
    { pose proof compacted_ordinary as Ho. rewrite <- Hhere, !Forall_app in *. cbn in Ho. rewrite Forall_cons in Ho. rewrite Forall_singleton. tauto. }
    cbn [mkdirs] in E. rewrite (io_bind_run _ _ s s s) in E by done.
    destruct (is_dir (rs_fs s) (here ++ [n])) eqn:Ed.
    { apply (IH (here ++ [n]) s); [done|by rewrite <- app_assoc|by apply dir_at_is_dir|done|done]. }
    destruct (exists_ (rs_fs s) (here ++ [n])) eqn:Ee; [injection E as <- <-; by split_and!|].
    destruct (writable here); [|injection E as <- <-; by split_and!].
    rewrite (io_bind_run _ _ s (act (mkdir (here ++ [n])) s).1 tt) in E by done.
    assert (fs_nodes (rs_fs s) !! (here ++ [n]) = None) as Hnone.
    { apply eq_None_not_Some. intros Hx. apply (exists_lookup _ _ Ho) in Hx. congruence. }
    assert (length (here ++ [n]) ≤ length compacted)%nat as Hlen.
    { rewrite <- Hhere, !length_app. cbn. lia. }
    apply (IH (here ++ [n]) (act (mkdir (here ++ [n])) s).1); [|by rewrite <- app_assoc| | |done].
    + apply running_act; [done| | |].
      * apply step_mkdir; [done|done|by rewrite Forall_app, Forall_singleton in Ho; destruct Ho|].
        destruct (exists_last (l := n :: l)) as (l' & x & El); [done|]. rewrite El, app_assoc in Hhere.
        apply app_inj_tail in Hhere as [Hh ->]. destruct l' as [|m l'].
        -- rewrite app_nil_r in Hh. subst here. right. by right.
        -- injection El as <- El. rewrite (cons_middle n here l') in Hh. rewrite app_assoc in Hh.
           destruct l' as [|k l']; [rewrite app_nil_r in Hh; right; left; by rewrite Hh|]. left.
           intros (r' & q & Hr' & Eq). rewrite Eq, <- app_assoc in Hh. rewrite <- Hh in Hr0.
           apply (so_apart _ Hok r' _ Hr') in Hr0. by destruct q.
      * apply dir_at_mkdir; [apply H|]. by destruct here.
      * intros r1 a m Hr1 Ham. unfold member. rewrite some_mkdir. split; [|by right]. intros [Eq|]; [|done]. exfalso.
        apply (below_compacted r1 a m l Hr1). rewrite <- Hhere, (cons_middle n here l), app_assoc, <- Eq. by rewrite <- app_assoc.
    + exists (mkInode true dir_size (fs_now (rs_fs s) + 1) (fs_now (rs_fs s) + 1)). cbn. by rewrite lookup_insert_eq.
    + apply eq_None_not_Some. unfold act, io_modify. cbn [fst rs_fs]. rewrite some_mkdir. intros [Eq|[? ?]]; [|congruence].
      apply (f_equal length) in Eq. rewrite <- Eq, !length_app in Hlen. cbn in Hlen. lia.
Qed.

(** The merged file is in place: its directory was changed after every partition was made. *)
Record swapped (t : Z) (f : fs) : Prop := {
  sw_older : ∀ r a i, r ∈ delta_roots spec → fs_nodes f !! (r ++ [a]) = Some i → i_btime i ≤ t;
  sw_touched : ∃ j, fs_nodes f !! compacted = Some j ∧ t < i_mtime j;
  sw_base : member f r0 COMPACTED_DIRECTORY COMPACTED_BASE_FILENAME }.

Lemma in_compacted n : in_partition spec (compacted ++ [n]).
Proof. exists r0, COMPACTED_DIRECTORY, n. by rewrite <- app_assoc. Qed.

Lemma running_temporary rest s size :
  running rest s → dir_at (rs_fs s) compacted → fs_nodes (rs_fs s) !! (compacted ++ [temporary]) = None →
  running rest (act (create (compacted ++ [temporary]) size) s).1 ∧
  file_at (create (compacted ++ [temporary]) size (rs_fs s)) (compacted ++ [temporary]) ∧
  dir_at (create (compacted ++ [temporary]) size (rs_fs s)) compacted.
Proof.
  intros H Hd Hnone.
  assert (∀ q, dir_at (rs_fs s) q → q ≠ compacted ++ [temporary] → dir_at (create (compacted ++ [temporary]) size (rs_fs s)) q) as Hdirs.
  { intros q (i & Hi & Hdir) Hne. unfold dir_at. cbn. rewrite lookup_insert_ne by done. unfold touch.
    destruct (decide (parent (compacted ++ [temporary]) = q)) as [<-|Hp]; [rewrite lookup_alter_eq, Hi; by eexists|].
    rewrite lookup_alter_ne by done. by exists i. }
  split_and!.
  - apply running_act; [done| | |].
    + apply step_create; [done|done|done|]. right. apply in_compacted.
    + apply Hdirs; [apply H|]. by destruct r0.
    + intros r a n Hr Hne. unfold member. rewrite some_create. split; [|by right]. intros [E|]; [|done].
      rewrite <- app_assoc in E. apply partition_inj in E as (-> & -> & _). by destruct Hne.
  - exists (mkInode false size (fs_now (rs_fs s) + 1) (fs_now (rs_fs s) + 1)). split; [|done]. cbn. by rewrite lookup_insert_eq.
  - apply Hdirs; [done|]. intros E. rewrite <- (app_nil_r compacted) in E at 1. by apply app_inv_head in E.
Qed.

Lemma running_untemporary rest s :
  running rest s → dir_at (rs_fs s) compacted → file_at (rs_fs s) (compacted ++ [temporary]) →
  running rest (act (remove (compacted ++ [temporary])) s).1 ∧
  fs_nodes (remove (compacted ++ [temporary]) (rs_fs s)) !! (compacted ++ [temporary]) = None ∧
  dir_at (remove (compacted ++ [temporary]) (rs_fs s)) compacted.
Proof.
  intros H Hd Hf.
  assert (∀ q, dir_at (rs_fs s) q → q ≠ compacted ++ [temporary] → dir_at (remove (compacted ++ [temporary]) (rs_fs s)) q) as Hdirs.
  { intros q (i & Hi & Hdir) Hne. unfold dir_at. cbn. rewrite lookup_delete_ne by done. unfold touch.
    destruct (decide (parent (compacted ++ [temporary]) = q)) as [<-|Hp]; [rewrite lookup_alter_eq, Hi; by eexists|].
    rewrite lookup_alter_ne by done. by exists i. }
  split_and!.
  - apply running_act; [done| | |].
    + apply step_unlink; [done|]. right. apply in_compacted.
    + apply Hdirs; [apply H|]. by destruct r0.
    + intros r a n Hr Hne. unfold member. rewrite some_remove. split; [by intros []|]. intros Hm. split; [|done]. intros E.
      rewrite <- app_assoc in E. apply partition_inj in E as (-> & -> & _). by destruct Hne.
  - cbn. by rewrite lookup_delete_eq.
  - apply Hdirs; [done|]. intros E. rewrite <- (app_nil_r compacted) in E at 1. by apply app_inv_head in E.
Qed.

(** Putting the merged file in place. *)
Lemma running_replace rest s :
  running rest s → file_at (rs_fs s) (compacted ++ [temporary]) →
  running rest (act (replace compacted temporary COMPACTED_BASE_FILENAME) s).1 ∧
  swapped (fs_now (rs_fs s)) (replace compacted temporary COMPACTED_BASE_FILENAME (rs_fs s)).
Proof.
  intros H Hf. pose proof (running_wf _ _ H) as Hwf. pose proof Hf as (k & Hk & Hkf).
  assert (dir_at (rs_fs s) compacted) as (j & Hj & Hjd) by by apply (wf_parent _ _ Hwf) in Hk.
  assert (∀ q, q ≠ compacted ++ [COMPACTED_BASE_FILENAME] → q ≠ compacted ++ [temporary] →
    fs_nodes (replace compacted temporary COMPACTED_BASE_FILENAME (rs_fs s)) !! q = touch (fs_now (rs_fs s) + 1) compacted (fs_nodes (rs_fs s)) !! q) as Hq.
  { intros q H1 H2. unfold replace. rewrite Hk. cbn. by rewrite lookup_insert_ne, lookup_delete_ne. }
  assert (∀ r a n, r ∈ delta_roots spec → r ++ [a] ≠ compacted ++ [n]) as Hne.
  { intros r a n Hr. apply (partition_not_entry spec (so_apart _ Hok)); [done|apply in_compacted]. }
  split; [|split].
  - apply running_act; [done| | |].
    + apply step_replace; [done| |done|right; apply in_compacted]. intros (i & Hi & Hd). rewrite <- app_assoc in Hi.
      destruct (wf_area _ _ Hwf _ _ _ Hr0 Hi) as [[[?|[? ?]] _]|(? & ? & _ & ?)]; [done|done|congruence].
    + destruct (ru_root _ _ H) as (i & Hi & Hd). unfold dir_at. rewrite Hq; [|by destruct r0..]. unfold touch.
      destruct (decide (compacted = [])) as [E|E]; [by destruct r0|]. rewrite lookup_alter_ne by done. by exists i.
    + intros r a n Hr Ha. unfold member. rewrite some_replace by (done || by eexists). split.
      * intros [E|[_ ?]]; [|done]. rewrite <- app_assoc in E. apply partition_inj in E as (-> & -> & _). by destruct Ha.
      * intros Hm. right. split; [|done]. intros E. rewrite <- app_assoc in E. apply partition_inj in E as (-> & -> & _). by destruct Ha.
  - intros r a i Hr Hi. rewrite Hq in Hi by auto. unfold touch in Hi. apply lookup_alter_Some in Hi as [(_ & i' & Hi & ->)|[_ Hi]];
      apply (wf_times _ _ Hwf) in Hi as [? _]; done.
  - exists (set_mtime (fs_now (rs_fs s) + 1) j). rewrite Hq by auto. unfold touch. rewrite lookup_alter_eq, Hj. split; [done|]. cbn. lia.
  - unfold member. rewrite snoc2, some_replace by (done || by eexists). by left.
Qed.

Lemma running_write rest s files s' r :
  running rest s → dir_at (rs_fs s) compacted → fs_nodes (rs_fs s) !! (compacted ++ [temporary]) = None →
  _write_merged temporary copy files (r0 ++ [COMPACTED_DIRECTORY; COMPACTED_BASE_FILENAME]) s = (s', r) →
  running rest s' ∧ r = copy files ∧ (is_ok r = true → ∃ t, swapped t (rs_fs s') ∧ t ≤ fs_now (rs_fs s')).
Proof.
  intros H Hd Hnone E. unfold _write_merged in E.
  assert (parent (r0 ++ [COMPACTED_DIRECTORY; COMPACTED_BASE_FILENAME]) = compacted) as Hp by (rewrite snoc2; apply parent_snoc).
  assert (name_of (r0 ++ [COMPACTED_DIRECTORY; COMPACTED_BASE_FILENAME]) = COMPACTED_BASE_FILENAME) as Hn by (unfold name_of; by rewrite snoc2, last_snoc).
  rewrite Hp, Hn in E.
  destruct (running_temporary rest s 0 H Hd Hnone) as (H1 & Hf1 & Hd1).
  rewrite (io_bind_run _ _ s (act (create (compacted ++ [temporary]) 0) s).1 tt) in E by done. set (s1 := (act _ s).1) in *.
  destruct (running_untemporary rest s1 H1 Hd1 Hf1) as (H2 & Hnone2 & Hd2).
  rewrite (io_bind_run _ _ s1 (act (remove (compacted ++ [temporary])) s1).1 tt) in E by done. set (s2 := (act _ s1).1) in *.
  destruct (copy files) as [[rows bytes]|e].
  - destruct (running_temporary rest s2 bytes H2 Hd2 Hnone2) as (H3 & Hf3 & Hd3).
    rewrite (io_bind_run _ _ s2 (act (create (compacted ++ [temporary]) bytes) s2).1 tt) in E by done. set (s3 := (act _ s2).1) in *.
    destruct (running_replace rest s3 H3 Hf3) as (H4 & Hsw).
    rewrite (io_bind_run _ _ s3 (act (replace compacted temporary COMPACTED_BASE_FILENAME) s3).1 tt) in E by done.
    injection E as <- <-. split_and!; [done|done|]. intros _. eexists. split; [exact Hsw|].
    change (fs_now (rs_fs s3) ≤ fs_now (replace compacted temporary COMPACTED_BASE_FILENAME (rs_fs s3))).
    destruct Hf3 as (k & Hk & _). change (fs_nodes (rs_fs s3) !! (compacted ++ [temporary]) = Some k) in Hk.
    unfold replace. rewrite Hk. cbn [fs_now]. lia.
  - destruct (running_temporary rest s2 0 H2 Hd2 Hnone2) as (H3 & Hf3 & Hd3).
    rewrite (io_bind_run _ _ s2 (act (create (compacted ++ [temporary]) 0) s2).1 tt) in E by done. set (s3 := (act _ s2).1) in *.
    destruct (running_untemporary rest s3 H3 Hd3 Hf3) as (H4 & _).
    rewrite (io_bind_run _ _ s3 (act (remove (compacted ++ [temporary])) s3).1 tt) in E by done.
    injection E as <- <-. by split_and!.
Qed.

(** *** Removing the partitions *)

Lemma swapped_remove t p n f :
  fs_wf spec f → swapped t f → p ++ [n] ≠ compacted → p ++ [n] ≠ compacted ++ [COMPACTED_BASE_FILENAME] → t ≤ fs_now f →
  swapped t (remove (p ++ [n]) f).
Proof.
  intros Hwf [Hold (j & Hj & Hlt) Hbase] Hne Hne' Ht. split.
  - intros r a i Hr Hi. cbn in Hi. rewrite parent_snoc in Hi. apply lookup_delete_Some in Hi as [_ Hi]. unfold touch in Hi.
    apply lookup_alter_Some in Hi as [(_ & i' & Hi & ->)|[_ Hi]]; by apply Hold in Hi.
  - cbn. rewrite parent_snoc, lookup_delete_ne by done. unfold touch. destruct (decide (p = compacted)) as [->|Hp].
    + exists (set_mtime (fs_now f + 1) j). rewrite lookup_alter_eq, Hj. split; [done|]. cbn. lia.
    + exists j. by rewrite lookup_alter_ne.
  - unfold member. apply some_remove. split; [|done]. rewrite snoc2. by intros E.
Qed.

Lemma running_remove_one p rest k s s' r t :
  running (p :: rest) s → swapped t (rs_fs s) → t ≤ fs_now (rs_fs s) → p ∉ rest → remove_partition writable k p s = (s', r) →
  past_ok spec (rs_fs s') (rs_past s') ∧
  ∀ n, r = Ok n → running rest s' ∧ swapped t (rs_fs s') ∧ t ≤ fs_now (rs_fs s') ∧ n = k + 1.
Proof.
  intros H Hsw Ht Hp E. pose proof (running_wf _ _ H) as Hwf.
  destruct (ru_there _ _ H p) as (r1 & a & n & Hr & Ha & Ep & Hm); [by left|].
  pose proof (member_file spec (rs_fs s) Hwf r1 a n Hr Hm) as (i & Hi & Hif & Ho).
  unfold remove_partition in E. rewrite (io_bind_run _ _ s s s) in E by done.
  assert (exists_ (rs_fs s) p = true) as Hex by (subst p; apply exists_lookup; [done|by eexists]). rewrite Hex in E. cbn [negb] in E.
  destruct (writable (parent p)); cbn [negb] in E; [|injection E as <- <-; split; [apply H|done]].
  rewrite (io_bind_run _ _ s (act (remove p) s).1 tt) in E by done. set (s1 := (act (remove p) s).1) in *.
  assert (p = (r1 ++ [a]) ++ [n]) as Ep' by (by rewrite Ep, snoc2).
  assert (fs_step spec (rs_fs s) (remove p (rs_fs s))) as Hstep.
  { rewrite Ep'. apply step_unlink; [exists i; by rewrite <- snoc2|]. right. exists r1, a, n. by rewrite snoc2. }
  assert (dir_at (remove p (rs_fs s)) (r1 ++ [a])) as (jd & Hjd & Hjdir).
  { rewrite Ep', <- snoc2 in *. assert (dir_at (rs_fs s) (r1 ++ [a])) as (j & Hj & Hjdir) by (apply (wf_parent _ _ Hwf _ n i); by rewrite <- snoc2).
    exists (set_mtime (fs_now (rs_fs s) + 1) j). split; [|done]. cbn. rewrite snoc2, parent_snoc, lookup_delete_ne.
    - unfold touch. by rewrite lookup_alter_eq, Hj.
    - intros E'. rewrite <- (app_nil_r (r1 ++ [a])) in E' at 2. by apply app_inv_head in E'. }
  assert (running rest s1) as H1.
  { split; cbn.
    - split; [done|apply H].
    - destruct (step_dirs spec _ _ [] Hstep (ru_root _ _ H)) as [|Hnone]; [done|].
      exfalso. apply (fs_wf_step spec (so_apart _ Hok) _ _ Hwf) in Hstep as Hwf1. clear -Hwf1 Hjd Hnone.
      assert (∀ q, is_Some (fs_nodes (remove p (rs_fs s)) !! q) → q = []) as Hall.
      { intros q. induction q as [|x q IH] using rev_ind; [done|]. intros [j Hj]. apply (wf_parent _ _ Hwf1) in Hj as Hd.
        destruct Hd as (d & Hd & _). rewrite (IH (ex_intro _ d Hd)) in Hj. by rewrite Hnone in Hj. }
      specialize (Hall (r1 ++ [a]) (ex_intro _ jd Hjd)). by destruct r1.
    - intros r2 b m Hr2 Hb Hmem Hpq. unfold member in Hmem. apply some_remove in Hmem as [Hne Hmem].
      pose proof (ru_rest _ _ H r2 b m Hr2 Hb Hmem Hpq) as Hin. by apply elem_of_cons in Hin as [E1|Hin].
    - intros q Hq. destruct (ru_there _ _ H q) as (r2 & b & m & Hr2 & Hb & Eq & Hmem); [by right|]. exists r2, b, m.
      split_and!; [done..|]. unfold member. apply some_remove. split; [|done]. by intros <-; subst q.
    - intros r2 Hr2 Hne. unfold member. rewrite some_remove. rewrite <- (ru_others _ _ H r2 Hr2 Hne). split; [by intros []|]. intros Hmem.
      split; [|done]. rewrite Ep. intros E'. by apply partition_inj in E' as (_ & <- & _). }
  assert (swapped t (rs_fs s1)) as Hsw1.
  { cbn. rewrite Ep'. apply swapped_remove; try done.
    - intros E'. apply app_inj_tail in E' as [E' _]. rewrite <- E' in Hr0. by apply (so_apart _ Hok r1 _ Hr) in Hr0.
    - intros E'. apply app_inj_tail in E' as [E' _]. by apply app_inj_tail in E' as [_ ->]. }
  assert (t ≤ fs_now (rs_fs s1)) as Ht1 by (cbn; lia).
  assert (fs_nodes (rs_fs s1) !! (r1 ++ [a]) = Some jd) as Hjd1 by done. clear Hjd Hstep. clearbody s1.
  rewrite (io_bind_run _ _ s1 s1 s1) in E by done. rewrite Ep', parent_snoc in E. rewrite parent_snoc in E.
  case_bool_decide as Hempty; [|injection E as <- <-; split; [apply H1|by intros ? [= <-]]].
  destruct (writable r1); [|injection E as <- <-; split; [apply H1|done]].
  rewrite (io_bind_run _ _ s1 (act (remove (r1 ++ [a])) s1).1 tt) in E by done. injection E as <- <-.
  pose proof (running_wf _ _ H1) as Hwf1.
  assert (∀ m, fs_nodes (rs_fs s1) !! (r1 ++ [a; m]) = None) as Hnochild.
  { intros m. apply eq_None_not_Some. intros [x Hx]. rewrite snoc2 in Hx.
    apply (elem_of_scandir (rs_fs s1)) in Hx; [rewrite Hempty in Hx; by apply elem_of_nil in Hx|]. by apply (wf_ordinary _ _ Hwf1) in Hjd1. }
  assert (running rest (act (remove (r1 ++ [a])) s1).1) as H2.
  { apply running_act; [done| | |].
    - apply step_rmdir; [by exists jd|done|]. right. split_and!; [done|done|].
      destruct Hsw1 as [Hold (j & Hj & Hlt) _]. exists jd, r0, j. split_and!; [done|done|done|]. specialize (Hold _ _ _ Hr Hjd1). lia.
    - destruct (ru_root _ _ H1) as (x & Hx & Hxd). unfold dir_at. cbn. rewrite parent_snoc, lookup_delete_ne by (by destruct r1). unfold touch.
      destruct (decide (r1 = [])) as [->|Hne]; [rewrite lookup_alter_eq, Hx; by eexists|rewrite lookup_alter_ne by done; by exists x].
    - intros r2 b m Hr2 Hb. unfold member. rewrite some_remove. split; [by intros []|]. intros Hmem. split; [|done]. intros E'.
      rewrite snoc2 in E'. apply app_inj_tail in E' as [E' _]. rewrite <- E' in Hr. by apply (so_apart _ Hok r2 _ Hr2) in Hr. }
  split; [apply H2|]. intros x [= <-]. split_and!; [done| |cbn; lia|done].
  apply swapped_remove; [done|done| | |done].
  - intros E'. by apply app_inj_tail in E' as [_ ->].
  - apply (partition_not_entry spec (so_apart _ Hok)); [done|apply in_compacted].
Qed.

Lemma running_remove rest k s s' r t :
  running rest s → swapped t (rs_fs s) → t ≤ fs_now (rs_fs s) → NoDup rest → io_fold (remove_partition writable) rest k s = (s', r) →
  past_ok spec (rs_fs s') (rs_past s') ∧
  ∀ n, r = Ok n → running [] s' ∧ swapped t (rs_fs s') ∧ n = k + Z.of_nat (length rest).
Proof.
  revert k s. induction rest as [|p rest IH]; intros k s H Hsw Ht Hnd E.
  - injection E as <- <-. split; [apply H|]. intros n [= <-]. split_and!; [done|done|]. cbn. lia.
  - apply NoDup_cons in Hnd as [Hp Hnd]. cbn [io_fold] in E. unfold io_bind at 1 in E.
    destruct (remove_partition writable k p s) as [s1 [n1|e]] eqn:E1;
      destruct (running_remove_one _ _ _ _ _ _ _ H Hsw Ht Hp E1) as [Hpast H1]; [|injection E as <- <-; by split].
    destruct (H1 n1 eq_refl) as (H2 & Hsw2 & Ht2 & ->). destruct (IH _ _ H2 Hsw2 Ht2 Hnd E) as [Hpast' H3]. split; [done|].
    intros n Hn. destruct (H3 n Hn) as (? & ? & ->). split_and!; [done|done|]. cbn [length]. lia.
Qed.
End CompactionFacts.

Lemma published_spec spec f l :
  spec_ok spec → fs_wf spec f → published_deltas f spec = Ok l →
  NoDup l ∧ ∀ q, q ∈ l ↔ ∃ r a n, r ∈ delta_roots spec ∧ a ≠ COMPACTED_DIRECTORY ∧ q = r ++ [a; n] ∧ member f r a n ∧ parquet n.
Proof.
  intros Hok Hwf H. unfold published_deltas in H. destruct (expand_all spec Hok f Hwf) as (ls & E & Hls). rewrite E in H. injection H as <-.
  split; [apply NoDup_sort_by, NoDup_filter, NoDup_remove_dups|].
  intros q. rewrite elem_of_sort_by, list_elem_of_filter, elem_of_remove_dups, Hls.
  assert (∀ r a n, name_of (parent (r ++ [a; n])) = a) as Hname.
  { intros r a n. rewrite snoc2, parent_snoc. unfold name_of. by rewrite last_snoc. }
  split.
  - intros (Hne & r & a & n & Hr & -> & Hm & Hn). rewrite Hname in Hne. by exists r, a, n.
  - intros (r & a & n & Hr & Ha & -> & Hm & Hn). rewrite Hname. split; [done|]. by exists r, a, n.
Qed.

Section Outcome.
Context (spec : source_spec) (Hok : spec_ok spec) (r0 : path) (Hr0 : r0 ∈ delta_roots spec) (f : fs).

Lemma running_files parts s : running spec r0 f parts s → ∀ q, q ∈ parts → file_at (rs_fs s) q.
Proof.
  intros H q Hq. destruct (ru_there _ _ _ _ _ H q Hq) as (r & a & n & Hr & _ & -> & Hm).
  destruct (member_file spec (rs_fs s) (running_wf spec Hok r0 f _ _ H) r a n Hr Hm) as (i & Hi & Hf & _). by exists i.
Qed.

Lemma running_done s : running spec r0 f [] s → published_deltas (rs_fs s) spec = Ok [].
Proof.
  intros H. pose proof (running_wf spec Hok r0 f _ _ H) as Hwf.
  destruct (published_deltas (rs_fs s) spec) as [l|e] eqn:E.
  - destruct (published_spec spec _ _ Hok Hwf E) as [_ Hl]. destruct l as [|q l]; [done|]. exfalso.
    destruct (proj1 (Hl q)) as (r & a & n & Hr & Ha & _ & Hm & Hn); [by left|].
    by pose proof (ru_rest _ _ _ _ _ H r a n Hr Ha Hm Hn) as ?%elem_of_nil.
  - unfold published_deltas in E. by destruct (expand_all spec Hok _ Hwf) as (ls & E' & _); rewrite E' in E.
Qed.

Lemma compacted_file_ordinary r : r ∈ delta_roots spec → Forall ordinary (r ++ [COMPACTED_DIRECTORY; COMPACTED_BASE_FILENAME]).
Proof. intros Hr. apply Forall_app. split; [by apply (delta_root_ordinary spec Hok)|by repeat constructor]. Qed.

Lemma running_resolved t s :
  fs_wf spec f → running spec r0 f [] s → swapped spec r0 t (rs_fs s) →
  compacted_base f spec = None ∨ compacted_base f spec = Some (r0 ++ [COMPACTED_DIRECTORY; COMPACTED_BASE_FILENAME]) →
  _resolve_sources (rs_fs s) spec = Ok [r0 ++ [COMPACTED_DIRECTORY; COMPACTED_BASE_FILENAME]].
Proof.
  intros Hwf0 H Hsw Hbase. pose proof (running_wf spec Hok r0 f _ _ H) as Hwf. unfold _resolve_sources. rewrite running_done by done. cbn [res_bind].
  assert (effective_base (rs_fs s) spec = [r0 ++ [COMPACTED_DIRECTORY; COMPACTED_BASE_FILENAME]]) as ->; [|done].
  unfold effective_base. assert (compacted_base (rs_fs s) spec = Some (r0 ++ [COMPACTED_DIRECTORY; COMPACTED_BASE_FILENAME])) as ->; [|done].
  unfold compacted_base in *. eapply head_filter_moved; [| | |exact Hbase].
  - intros c Hc Hne. apply list_elem_of_fmap in Hc as (r & -> & Hr). rewrite !(is_file_member spec) by (done || by apply compacted_file_ordinary).
    apply (ru_others _ _ _ _ _ H); [done|]. by intros ->.
  - apply list_elem_of_fmap. by exists r0.
  - cbn beta. apply (is_file_member spec); [done|done|by apply compacted_file_ordinary|]. apply Hsw.
Qed.
End Outcome.

(** C12: A compaction run keeps to the steps the caches of running readers are exact for, whatever
    fails on the way: access rights, disk space, DuckDB. A failed merge leaves every partition in
    place. A run that succeeds has merged and removed exactly the partitions of its plan, and the
    object then consists of the compacted file alone - unless another delta root that sorts before it
    holds a compacted file too. *)
Theorem compaction_run writable free reserve temporary copy catalog roots name o f c p s' r :
  let spec := source_of roots o in
  get catalog name = Some o → spec_ok spec → fs_wf spec f → dir_at f [] →
  ordinary temporary → temporary ≠ COMPACTED_BASE_FILENAME → (∀ q, fs_nodes f !! (q ++ [temporary]) = None) →
  plan writable catalog roots f name = Ok p →
  compact writable free reserve temporary copy catalog roots name (mkRun f [] c) = (s', r) →
  past_ok spec (rs_fs s') (rs_past s') ∧
  (is_ok (copy (cp_base p ++ cp_partitions p)) = false → ∀ q, q ∈ cp_partitions p → file_at (rs_fs s') q) ∧
  ∀ result, r = Ok result → is_worthwhile p = true →
    copy (cp_base p ++ cp_partitions p) = Ok (cr_rows result, cr_bytes result) ∧
    cr_merged result = Z.of_nat (length (cp_partitions p)) ∧ cr_removed result = cr_merged result ∧
    published_deltas (rs_fs s') spec = Ok [] ∧
    (compacted_base f spec = None ∨ compacted_base f spec = Some (cp_compacted_path p) →
     _resolve_sources (rs_fs s') spec = Ok [cp_compacted_path p]).
Proof.
  intros spec Hget Hok Hwf Hroot Htmp Htmp' Hfresh Hplan E.
  pose proof Hplan as Hp. unfold plan, _spec in Hp. rewrite Hget in Hp.
  case_bool_decide; [done|]. case_bool_decide; [done|]. cbn [res_bind] in Hp. fold spec in Hp.
  destruct (published_deltas f spec) as [parts|] eqn:Epub; [|done]. cbn [res_bind] in Hp.
  unfold _compacted_path in Hp. fold spec in Hp.
  destruct (filter _ (delta_roots spec)) as [|r0 rest0] eqn:Ef; [done|]. cbn [res_bind] in Hp. injection Hp as <-.
  assert (r0 ∈ delta_roots spec) as Hr0. { eapply (proj1 (list_elem_of_filter _ _ _)). rewrite Ef. by left. }
  cbn [cp_base cp_partitions cp_compacted_path]. set (dest := r0 ++ [COMPACTED_DIRECTORY; COMPACTED_BASE_FILENAME]) in *.
  destruct (published_spec spec f parts Hok Hwf Epub) as [Hnd Hparts].
  assert (running spec r0 f parts (mkRun f [] c)) as Hstart.
  { split; cbn; [done|done| |intros q Hq; apply Hparts in Hq as (r1 & a & n & ? & ? & ? & ? & ?); by exists r1, a, n|done].
    intros r1 a n Hr1 Ha Hm Hn. apply Hparts. by exists r1, a, n. }
  unfold compact in E. rewrite (io_bind_run _ _ (mkRun f [] c) (mkRun f [] c) (mkRun f [] c)) in E by done. cbn [rs_fs] in E.
  rewrite Hplan in E. rewrite (io_bind_run _ _ (mkRun f [] c) (mkRun f [] c) (mkPlan (object_name o) (effective_base f spec) parts dest)) in E by done.
  destruct (is_worthwhile _) eqn:Ew; cbn [negb] in E; [|injection E as <- <-; split_and!; [done|intros _; by eapply running_files|done]].
  cbn [cp_base cp_partitions cp_compacted_path cp_object] in E.
  assert (parent dest = r0 ++ [COMPACTED_DIRECTORY]) as Hd by (unfold dest; by rewrite snoc2, parent_snoc). rewrite Hd in E.
  assert (fs_nodes f !! ((r0 ++ [COMPACTED_DIRECTORY]) ++ [temporary]) = None) as Htn by done.
  unfold io_bind at 1 in E. destruct (mkdirs _ _ _ _) as [s1 r1] eqn:E1.
  destruct (running_mkdirs spec Hok r0 Hr0 writable free temporary copy f [] _ parts _ _ _ Hstart eq_refl Hroot Htn E1) as (H1 & Htn1 & Hd1).
  destruct r1 as [[]|e1]; [|injection E as <- <-; split_and!; [apply H1|intros _; by eapply running_files|done]].
  specialize (Hd1 eq_refl). unfold io_bind at 1 in E. destruct (require_disk_reserve _ _ _ _ _) as [s2 r2] eqn:E2.
  assert (running spec r0 f parts s2 ∧ fs_nodes (rs_fs s2) !! ((r0 ++ [COMPACTED_DIRECTORY]) ++ [temporary]) = None ∧
    (is_ok r2 = true → dir_at (rs_fs s2) (r0 ++ [COMPACTED_DIRECTORY]))) as (H2 & Htn2 & Hd2).
  { unfold require_disk_reserve in E2. unfold io_bind in E2. destruct (mkdirs _ _ _ s1) as [s3 r3] eqn:E3.
    destruct (running_mkdirs spec Hok r0 Hr0 writable free temporary copy f [] _ parts _ _ _ H1 eq_refl (ru_root _ _ _ _ _ H1) Htn1 E3) as (H3 & Htn3 & Hd3).
    destruct r3 as [[]|e3]; [|by injection E2 as <- <-]. unfold raise_if in E2. destruct (_ <? _); injection E2 as <- <-; auto. }
  destruct r2 as [[]|e2]; [|injection E as <- <-; split_and!; [apply H2|intros _; by eapply running_files|done]].
  unfold io_bind at 1 in E. destruct (_write_merged _ _ _ _ _) as [s3 r3] eqn:E3.
  destruct (running_write spec Hok r0 Hr0 temporary copy Htmp Htmp' f parts s2 _ s3 r3 H2 (Hd2 eq_refl) Htn2 E3) as (H3 & -> & Hsw).
  destruct (copy _) as [w|e3] eqn:Ecopy; [|injection E as <- <-; split_and!; [apply H3|intros _; by eapply running_files|done]].
  destruct (Hsw eq_refl) as (t & Ht & Hnow). unfold io_bind at 1 in E. destruct (_remove _ _ _) as [s4 r4] eqn:E4.
  destruct (running_remove spec Hok r0 Hr0 writable f parts 0 s3 s4 r4 t H3 Ht Hnow Hnd E4) as (Hpast & H4).
  destruct r4 as [n|e4]; [|injection E as <- <-; by split_and!].
  destruct (H4 n eq_refl) as (H5 & Hsw5 & ->). rewrite (io_bind_run _ _ s4 (refresh_catalog catalog s4).1 tt) in E by done.
  injection E as <- <-. cbn [rs_fs rs_past refresh_catalog io_modify fst].
  split_and!; [done|done|]. intros result [= <-] _. cbn [cr_rows cr_bytes cr_merged cr_removed].
  split_and!; [by destruct w|done|done|by eapply running_done|].
  intros Hbase. by eapply running_resolved.
Qed.

(** ** Examples *)

Definition example_catalog : DatasetCatalog := mkCatalog [("Account", example_object)] [("account", example_object)].
Definition example_files : fs :=
  create ["d"; "a"; "p=1"; "x.parquet"] 10 (mkdir ["d"; "a"; "p=1"] (mkdir ["d"; "a"] (mkdir ["d"] empty_fs))).

Definition any_writable (p : path) : bool := true.
Definition one_free (p : path) : Z := 100.
Definition example_copy (l : list path) : res (Z * Z) := Ok (Z.of_nat (length l), 50).

Lemma example_files_wf : fs_wf example_spec example_files.
Proof.
  assert (delta_roots example_spec = [["d"; "a"]]) as E by done.
  apply (fs_wf_steps example_spec (so_apart _ example_spec_ok) empty_fs); [|exact example_start].
  eapply rtc_l; [apply (step_mkdir _ _ [] "d"); [done|by eexists|done|]|].
  { left. intros (r & q & Hr & Eq). rewrite E, list_elem_of_singleton in Hr. by subst r. }
  eapply rtc_l; [apply (step_mkdir _ _ ["d"] "a"); [done|by eexists|done|right; left; by left]|].
  eapply rtc_l; [apply (step_mkdir _ _ ["d"; "a"] "p=1"); [done|by eexists|done|right; right; by left]|].
  apply rtc_once, (step_create _ _ ["d"; "a"; "p=1"] "x.parquet" 10); [done|by eexists|done|].
  right. exists ["d"; "a"], "p=1", "x.parquet". by split; [left|].
Qed.

Lemma example_names :
  (map_to_list (fs_nodes example_files)).*1 = [["d"; "a"; "p=1"; "x.parquet"]; ["d"]; ["d"; "a"]; ["d"; "a"; "p=1"]; []].
Proof. vm_compute. reflexivity. Qed.

Lemma compaction_run_witness :
  ∃ s' result,
    compact any_writable one_free 10 ".base.0.tmp" example_copy example_catalog [["d"]] "Account" (mkRun example_files [] (mkCaches ∅ None)) = (s', Ok result) ∧
    cr_merged result = 1 ∧ past_ok example_spec (rs_fs s') (rs_past s') ∧ length (rs_past s') = 7%nat ∧
    published_deltas (rs_fs s') example_spec = Ok [] ∧
    _resolve_sources (rs_fs s') example_spec = Ok [["d"; "a"; "compacted"; "base.parquet"]].
Proof.
  destruct (compact any_writable one_free 10 ".base.0.tmp" example_copy example_catalog [["d"]] "Account" (mkRun example_files [] (mkCaches ∅ None)))
    as [s' r] eqn:Erun.
  assert (length (rs_past s') = 7%nat) as Hn by (change s' with (s', r).1; rewrite <- Erun; vm_compute; reflexivity).
  assert (r = Ok (mkResult "Account" 1 2 50 1)) as -> by (change r with (s', r).2; rewrite <- Erun; vm_compute; reflexivity).
  exists s', (mkResult "Account" 1 2 50 1). split; [done|]. split; [done|].
  destruct (compaction_run any_writable one_free 10 ".base.0.tmp" example_copy example_catalog [["d"]] "Account" example_object example_files
    (mkCaches ∅ None) (mkPlan "Account" [["d"; "s.parquet"]] [["d"; "a"; "p=1"; "x.parquet"]] ["d"; "a"; "compacted"; "base.parquet"])
    s' (Ok (mkResult "Account" 1 2 50 1))) as (Hpast & _ & Hdone).
  - reflexivity.
  - exact example_spec_ok.
  - exact example_files_wf.
  - exists (mkInode true dir_size 1 0). split; [vm_compute; reflexivity|done].
  - done.
  - done.
  - intros q. apply eq_None_not_Some. intros [i Hi].
    apply elem_of_map_to_list in Hi. pose proof (list_elem_of_fmap_2 fst _ _ Hi) as Hp. cbn [fst] in Hp.
    rewrite example_names in Hp. repeat (apply elem_of_cons in Hp as [Hp|Hp]; [by apply (f_equal last) in Hp; rewrite last_snoc in Hp|]).
    by apply elem_of_nil in Hp.
  - vm_compute. reflexivity.
  - exact Erun.
  - destruct (Hdone _ eq_refl eq_refl) as (_ & _ & _ & Hpub & Hres). split_and!; [exact Hpast|exact Hn|exact Hpub|].
    apply Hres. left. vm_compute. reflexivity.
Defined.

(** *** A compacted file in a read-only root *)

(** The merged file goes to the first root that can be written, the catalog reads the first one
    that exists: with a compacted file in a read-only root that sorts before, the rows of the
    partitions are merged, removed, and no longer read. *)
Definition seed_and_state : list path := [["seed"]; ["state"]].
Definition only_state (p : path) : bool := is_prefix ["state"] p.
Definition seeded_files : fs :=
  create ["state"; "a"; "p=1"; "x.parquet"] 10 (mkdir ["state"; "a"; "p=1"] (mkdir ["state"; "a"] (mkdir ["state"]
    (create ["seed"; "a"; "compacted"; "base.parquet"] 20 (mkdir ["seed"; "a"; "compacted"] (mkdir ["seed"; "a"] (mkdir ["seed"] empty_fs))))))).

Theorem merged_file_shadowed :
  _resolve_sources seeded_files (source_of seed_and_state example_object) =
    Ok [["seed"; "a"; "compacted"; "base.parquet"]; ["state"; "a"; "p=1"; "x.parquet"]] ∧
  let '(s, r) := compact only_state one_free 10 ".base.0.tmp" example_copy example_catalog seed_and_state "Account" (mkRun seeded_files [] (mkCaches ∅ None)) in
  r = Ok (mkResult "Account" 1 2 50 1) ∧
  _resolve_sources (rs_fs s) (source_of seed_and_state example_object) = Ok [["seed"; "a"; "compacted"; "base.parquet"]] ∧
  is_file (rs_fs s) ["state"; "a"; "compacted"; "base.parquet"] = true.
Proof. vm_compute. by split_and!. Qed.

(** *** A reader in between *)

(** A request resolves its files when it opens its session and reads them afterwards. When a
    compaction finishes in between, the partitions the request is about to read are gone. *)
Theorem partitions_removed_under_reader :
  let after := rs_fs (compact any_writable one_free 10 ".base.0.tmp" example_copy example_catalog [["d"]] "Account" (mkRun example_files [] (mkCaches ∅ None))).1 in
  _resolve_sources example_files example_spec = Ok [["d"; "a"; "p=1"; "x.parquet"]; ["d"; "s.parquet"]] ∧
  is_file example_files ["d"; "a"; "p=1"; "x.parquet"] = true ∧ is_file after ["d"; "a"; "p=1"; "x.parquet"] = false.
Proof. vm_compute. by split_and!. Qed.
