(* ===== verification/Settings.v ===== *)
(** * Settings from the environment: [fakeforce/config.py], [simulator/config.py]

    The configuration of FakeForce and of the simulator's DuckDB connections, read from environment
    variables, with the checks on the integers and the defaults. A [Path] is its text. *)

From stdpp Require Import prelude strings list.
From Stdlib Require Import ZArith Lia Ascii.
From S2P Require Import Prelude PyText Soql Files.

Open Scope Z_scope.

(** [str(PurePosixPath(text))] *)
Definition path_root (text : string) : string :=
  if starts_with "///" text then "/" else if starts_with "//" text then "//" else if starts_with "/" text then "/" else "".
Definition Path_ (text : string) : string :=
  match path_root text, parts text with
  | EmptyString, [] => "."
  | root, l => root +:+ join "/" l
  end.
Definition slash (p name : string) : string := Path_ (p +:+ "/" +:+ name).

(** [str.split] at one character. *)
Fixpoint split_at (c : ascii) (cur s : list ascii) : list string :=
  match s with
  | [] => [str cur]
  | x :: s => if bool_decide (x = c) then str cur :: split_at c [] s else split_at c (cur ++ [x]) s
  end.
Definition pathsep : ascii := ":".

Definition _positive_int (value name : string) : res Z :=
  match int_of_text value with
  | None => raise ValueError (name +:+ " must be an integer, got " +:+ py_repr value)
  | Some parsed =>
    if parsed <=? 0 then raise ValueError (name +:+ " must be greater than zero, got " +:+ str_of_Z parsed) else Ok parsed
  end.

Record Settings := mkSettings {
  seed_directory : string;
  catalog_path : string;
  data_roots : list string;
  state_directory : string;
  bulk_query_results_directory : string;
  memory_limit : string;
  temp_directory : string;
  max_temp_size : string;
  disk_reserve_bytes : Z;
  scan_batch_rows : Z;
  batch_readahead : Z;
  fragment_readahead : Z;
  lightweight_request_workers : Z;
  heavy_query_workers : Z;
  bulk_workers : Z;
  bulk_result_part_records : Z;
  bulk_queue_delay_ms : Z;
  bulk_job_retention_hours : Z;
  bulk_ingest_max_upload_bytes : Z;
  bulk_ingest_batch_records : Z;
  sync_query_timeout_seconds : Z }.

Lemma Path_nonempty text : Path_ text ≠ "".
Proof.
  unfold Path_. destruct (path_root text) as [|c root]; [|done]. destruct (parts text) as [|s l] eqn:E; [done|].
  assert (s ≠ "") as Hs.
  { assert (s ∈ parts text) as Hin by (rewrite E; by left). unfold parts in Hin. by apply list_elem_of_filter in Hin as [[? _] _]. }
  destruct s; [done|]. by destruct l.
Qed.

Lemma res_map_first_error {A B} (f : A → res B) l e :
  res_map f l = Err e → ∃ before x after, l = before ++ x :: after ∧ Forall (λ y, ∃ z, f y = Ok z) before ∧ f x = Err e.
Proof.
  induction l as [|x l IH]; cbn [res_map]; [done|]. destruct (f x) as [y|e'] eqn:Ex; cbn [res_bind].
  - destruct (res_map f l) as [ys|e']; [done|]. intros [= <-]. destruct (IH eq_refl) as (before & x' & after & -> & Hb & Hx).
    exists (x :: before), x', after. split_and!; [done|constructor; [by exists y|done]|done].
  - intros [= <-]. by exists [], x, l.
Qed.

Section Environment.
(** The environment, and the directory of the installation. *)
Context (env : string → option string) (ROOT : string).

Definition setting (name default_ : string) : string := default default_ (env name).
Definition positive (nd : string * string) : res Z := _positive_int (setting nd.1 nd.2) nd.1.

(** The integer settings with their defaults, in the order the code reads them. *)
Definition integer_settings : list (string * string) := [
  ("FAKEFORCE_DISK_RESERVE_BYTES", str_of_Z (5 * 1024 ^ 3));
  ("FAKEFORCE_SCAN_BATCH_ROWS", "16384");
  ("FAKEFORCE_BATCH_READAHEAD", "2");
  ("FAKEFORCE_FRAGMENT_READAHEAD", "1");
  ("FAKEFORCE_LIGHTWEIGHT_REQUEST_WORKERS", "8");
  ("FAKEFORCE_HEAVY_QUERY_WORKERS", "1");
  ("FAKEFORCE_BULK_WORKERS", "1");
  ("FAKEFORCE_BULK_RESULT_PART_RECORDS", "100000");
  ("FAKEFORCE_BULK_QUEUE_DELAY_MS", "250");
  ("FAKEFORCE_BULK_JOB_RETENTION_HOURS", "168");
  ("FAKEFORCE_BULK_INGEST_MAX_UPLOAD_BYTES", str_of_Z (1024 ^ 3));
  ("FAKEFORCE_BULK_INGEST_BATCH_RECORDS", "1000");
  ("FAKEFORCE_SYNC_QUERY_TIMEOUT_SECONDS", "120")].

(** [Settings.from_env] *)
Definition from_env : res Settings :=
  let state := Path_ (setting "FAKEFORCE_STATE_DIR" (slash ROOT "state")) in
  let seed := Path_ (setting "FAKEFORCE_SEED_DIR" (slash ROOT "seed")) in
  let roots := Path_ <$> filter (λ value, value ≠ "") (split_at pathsep [] (chars (setting "FAKEFORCE_DATA_ROOTS" seed))) in
  let! numbers := res_map positive integer_settings in
  match numbers with
  | [reserve; scan; readahead; fragments; light; heavy; bulk; part; delay; retention; upload; batch; timeout] =>
    Ok (mkSettings seed
          (Path_ (setting "FAKEFORCE_CATALOG_PATH" (slash (slash ROOT "fakeforce") "catalog.json")))
          roots state
          (Path_ (setting "FAKEFORCE_BULK_QUERY_RESULTS_DIR" (slash (slash state "bulk") "query")))
          (setting "FAKEFORCE_MEMORY_LIMIT" "4GB")
          (Path_ (setting "FAKEFORCE_TEMP_DIRECTORY" (slash state "spill")))
          (setting "FAKEFORCE_MAX_TEMP_SIZE" "100GB")
          reserve scan readahead fragments light heavy bulk part delay retention upload batch timeout)
  | _ => raise TypeError ""
  end.

(** [SimulatorDuckDBSettings] *)
Record SimulatorDuckDBSettings := mkDuckDB {
  sd_memory_limit : string; sd_temp_directory : string; sd_max_temp_size : string; sd_threads : Z }.

Definition simulator_from_env (state_directory : string) : res SimulatorDuckDBSettings :=
  let! threads := _positive_int (setting "SIMULATION_DUCKDB_THREADS" "1") "SIMULATION_DUCKDB_THREADS" in
  Ok (mkDuckDB (setting "SIMULATION_DUCKDB_MEMORY_LIMIT" "512MB")
        (Path_ (setting "SIMULATION_DUCKDB_TEMP_DIRECTORY" (slash state_directory "simulator-spill")))
        (setting "SIMULATION_DUCKDB_MAX_TEMP_SIZE" "20GB") threads).

Definition duckdb_config (s : SimulatorDuckDBSettings) : list (string * string) := [
  ("memory_limit", sd_memory_limit s);
  ("temp_directory", sd_temp_directory s);
  ("max_temp_directory_size", sd_max_temp_size s);
  ("threads", str_of_Z (sd_threads s));
  ("preserve_insertion_order", "false")].

(** ** Theorems *)

Lemma positive_ok value name z : _positive_int value name = Ok z ↔ int_of_text value = Some z ∧ 0 < z.
Proof.
  unfold _positive_int. destruct (int_of_text value) as [n|]; [|naive_solver]. destruct (Z.leb_spec n 0); [|naive_solver].
  split; [done|]. intros [[= <-] ?]. lia.
Qed.

(** The variable is unset, or set to a positive integer. *)
Definition usable (nd : string * string) : Prop :=
  ∀ value, env nd.1 = Some value → ∃ z, int_of_text value = Some z ∧ 0 < z.

Lemma positive_usable nd z : positive nd = Ok z → usable nd.
Proof. intros Hz value Hv. unfold positive, setting in Hz. rewrite Hv in Hz. apply positive_ok in Hz. by exists z. Qed.

Lemma usable_positive nd : nd ∈ integer_settings → usable nd → ∃ z, positive nd = Ok z.
Proof.
  intros Hin Hu. unfold positive, setting. destruct (env nd.1) as [value|] eqn:Ev.
  - destruct (Hu value Ev) as (z & Hz & Hpos). exists z. by apply positive_ok.
  - assert (Forall (λ nd, is_ok (_positive_int nd.2 nd.1) = true) integer_settings) as Hall by (by repeat constructor).
    rewrite Forall_forall in Hall. specialize (Hall nd Hin). cbn. destruct (_positive_int nd.2 nd.1) as [z|]; [by exists z|done].
Qed.

Lemma positive_error nd e : positive nd = Err e → exn_cls e = ValueError ∧ starts_with nd.1 (exn_msg e) = true.
Proof.
  unfold positive, _positive_int. set (v := setting nd.1 nd.2).
  destruct (int_of_text v) as [z|]; [destruct (z <=? 0)|]; intros [= <-]; (split; [done|]); cbn [exn_msg]; apply prefix_app.
Qed.

Definition integers (s : Settings) : list Z := [
  disk_reserve_bytes s; scan_batch_rows s; batch_readahead s; fragment_readahead s; lightweight_request_workers s;
  heavy_query_workers s; bulk_workers s; bulk_result_part_records s; bulk_queue_delay_ms s; bulk_job_retention_hours s;
  bulk_ingest_max_upload_bytes s; bulk_ingest_batch_records s; sync_query_timeout_seconds s].

(** FakeForce starts exactly when every integer variable that is set holds a positive integer. It
    then works with those numbers and the defaults for the others, all of them positive; otherwise it
    raises ValueError about the first variable, in the order of the settings, that does not. *)
Theorem from_env_validates :
  match from_env with
  | Ok s => Forall usable integer_settings ∧
            Forall2 (λ nd z, int_of_text (setting nd.1 nd.2) = Some z ∧ 0 < z) integer_settings (integers s) ∧
            "" ∉ data_roots s
  | Err e => exn_cls e = ValueError ∧
             ∃ before nd after, integer_settings = before ++ nd :: after ∧ Forall usable before ∧ ¬ usable nd ∧
                                starts_with nd.1 (exn_msg e) = true
  end.
Proof.
  unfold from_env. destruct (res_map positive integer_settings) as [numbers|e] eqn:E; cbn [res_bind].
  - pose proof (res_map_Forall2 _ _ _ E) as H.
    assert (Forall2 (λ nd z, int_of_text (setting nd.1 nd.2) = Some z ∧ 0 < z) integer_settings numbers) as Hn.
    { eapply Forall2_impl; [exact H|]. intros nd z Hz. by apply positive_ok in Hz. }
    assert (Forall usable integer_settings) as Hu.
    { apply Forall_forall. intros nd Hnd. apply list_elem_of_lookup in Hnd as [k Hk].
      destruct (Forall2_lookup_l _ _ _ _ _ H Hk) as (z & _ & Hz). by eapply positive_usable. }
    pose proof (Forall2_length _ _ _ H) as Hl.
    do 13 (destruct numbers as [|? numbers]; [done|]). destruct numbers; [|done]. cbn [data_roots].
    split_and!; [exact Hu|exact Hn|].
    intros (x & Hx & _)%list_elem_of_fmap. by apply (Path_nonempty x).
  - destruct (res_map_first_error _ _ _ E) as (before & nd & after & El & Hb & Hx). destruct (positive_error _ _ Hx) as [Hc Hs].
    split; [done|]. exists before, nd, after. split_and!; [done| | |done].
    + eapply Forall_impl; [exact Hb|]. intros y [z Hz]. by eapply positive_usable.
    + intros Hu. destruct (usable_positive nd) as [z Hz]; [|done|congruence]. rewrite El. set_solver.
Qed.

(** The simulator's settings fail only on their number of threads. *)
Theorem simulator_from_env_validates state_directory :
  match simulator_from_env state_directory with
  | Ok s => usable ("SIMULATION_DUCKDB_THREADS", "1") ∧ 0 < sd_threads s ∧ "" ∉ [sd_temp_directory s] ∧
            NoDup (duckdb_config s).*1
  | Err e => exn_cls e = ValueError ∧ ¬ usable ("SIMULATION_DUCKDB_THREADS", "1")
  end.
Proof.
  unfold simulator_from_env. change (_positive_int _ _) with (positive ("SIMULATION_DUCKDB_THREADS", "1")).
  destruct (positive _) as [z|e] eqn:E; cbn [res_bind].
  - split_and!; [by eapply positive_usable|unfold positive in E; apply positive_ok in E; apply E| |].
    + cbn. intros Hx%list_elem_of_singleton. symmetry in Hx. by apply Path_nonempty in Hx.
    + apply (bool_decide_eq_true_1 (NoDup _)). reflexivity.
  - split; [by apply (positive_error _ _ E)|]. intros Hu. unfold positive, setting in E.
    destruct (env _) as [value|] eqn:Ev; [|done]. destruct (Hu value Ev) as (z & Hz). apply (positive_ok value "SIMULATION_DUCKDB_THREADS" z) in Hz.
    cbn in E, Hz. by rewrite Hz in E.
Qed.
End Environment.

(** ** Examples *)

Definition compose_env (name : string) : option string :=
  if bool_decide (name = "FAKEFORCE_DATA_ROOTS") then Some "/app/seed::/app/state/simulation"
  else if bool_decide (name = "FAKEFORCE_BULK_WORKERS") then Some "2" else None.

Example compose_settings :
  data_roots <$> match from_env compose_env "/app" with Ok s => Some s | Err _ => None end = Some ["/app/seed"; "/app/state/simulation"] ∧
  bulk_workers <$> match from_env compose_env "/app" with Ok s => Some s | Err _ => None end = Some 2 ∧
  temp_directory <$> match from_env compose_env "/app" with Ok s => Some s | Err _ => None end = Some "/app/state/spill".
Proof. by vm_compute. Qed.

Example bad_number :
  from_env (λ name, if bool_decide (name = "FAKEFORCE_BULK_WORKERS") then Some "0" else None) "/app"
  = raise ValueError "FAKEFORCE_BULK_WORKERS must be greater than zero, got 0".
Proof. by vm_compute. Qed.
