(* ===== verification/Bootstrap.v ===== *)
(** * The readiness gate: [simulator/bootstrap.py]

    What the simulator checks before its first run - the CRM seed files, the tables of both databases
    and their rows - and the loop that waits for it. What the probe finds at one moment is a value;
    the loop sees a sequence of them. *)

From stdpp Require Import prelude gmap strings list sorting.
From Stdlib Require Import ZArith Lia Ascii.
From S2P Require Import Prelude PyText Soql Settings.

Open Scope Z_scope.

Definition OPS_TABLES : list string :=
  ["customers"; "products"; "warehouses"; "carriers"; "orders"; "order_lines"; "shipments"; "invoices"; "support_cases"].
Definition ERP_TABLES : list string := ["companies"; "cost_centers"; "gl_accounts"; "fx_rates"; "revenue_postings"].
Definition CRM_SEED_FILES : list string := ["crm_accounts.parquet"; "crm_opportunities.parquet"].
Definition OPS_POPULATED_TABLES : list string := filter (λ t, t ≠ "invoices") OPS_TABLES.
Definition ERP_POPULATED_TABLES : list string := ERP_TABLES.

(** ** What the probe finds *)

Inductive seed_file :=
| SeedMissing
| SeedUnreadable (message : string)
| SeedRows (n : Z).

(** The connection, the tables of the schema and whether [SELECT 1 ... LIMIT 1] finds a row. *)
Record database := mkDatabase {
  db_connection : res unit;
  db_tables : res (gset string);
  db_has_row : string → res bool }.

Record sources := mkSources { sv_seed : string → seed_file; sv_ops : database; sv_erp : database }.

Record BootstrapReport := mkReport { rp_ready : bool; rp_problems : list string }.
Definition message (r : BootstrapReport) : string := join "; " (rp_problems r).

Section Probe.
Context (seed_directory : string).

Definition seed_problem (v : sources) (filename : string) : option string :=
  let path := slash seed_directory filename in
  match sv_seed v filename with
  | SeedMissing => Some ("CRM seed file is missing: " +:+ path)
  | SeedRows n => if n <? 1 then Some ("CRM seed file has no rows: " +:+ path) else None
  | SeedUnreadable exc => Some ("CRM seed file cannot be read: " +:+ path +:+ " (" +:+ exc +:+ ")")
  end.
Definition _crm_seed_problems (v : sources) : list string := omap (seed_problem v) CRM_SEED_FILES.

Definition missing_tables (required : list string) (available : gset string) : list string :=
  sort_by str_le (filter (λ t, t ∉ available) (remove_dups required)).

Definition _database_problems (label : string) (required populated : list string) (db : database) : list string :=
  let found :=
    let! _ := db_connection db in
    let! available := db_tables db in
    let missing := missing_tables required available in
    if negb (bool_decide (missing = [])) then Ok [label +:+ " baseline tables are missing: " +:+ join ", " missing]
    else
      let! empty := res_omap (λ table, let! row := db_has_row db table in Ok (if row : bool then None else Some table)) populated in
      if negb (bool_decide (empty = [])) then Ok [label +:+ " baseline tables have no rows: " +:+ join ", " empty] else Ok [] in
  match found with
  | Ok problems => problems
  | Err exc => [label +:+ " baseline cannot be checked: " +:+ exn_msg exc]
  end.

(** [SourceBootstrapProbe.check] *)
Definition check (v : sources) : BootstrapReport :=
  let problems := _crm_seed_problems v ++
    _database_problems "Ops" OPS_TABLES OPS_POPULATED_TABLES (sv_ops v) ++
    _database_problems "ERP" ERP_TABLES ERP_POPULATED_TABLES (sv_erp v) in
  mkReport (bool_decide (problems = [])) problems.

(** ** Waiting *)

Inductive output := Emit (text : string) | Sleep (seconds : Z).

Definition waiting (retry_seconds : Z) (v : sources) : list output := [
  Emit ("Simulator is waiting for source bootstrap: " +:+ message (check v) +:+
        ". Run generator/load.py once, then it will continue automatically.");
  Sleep retry_seconds].
Definition ready_message : output := Emit "Simulator source baseline is ready.".

(** The loop from the [k]th check on, for at most [fuel] checks; [None] while it still waits. *)
Fixpoint wait_loop (retry_seconds : Z) (views : nat → sources) (fuel k : nat) : option (list output) :=
  match fuel with
  | O => None
  | S fuel =>
    if rp_ready (check (views k)) then Some [ready_message]
    else (λ l, waiting retry_seconds (views k) ++ l) <$> wait_loop retry_seconds views fuel (S k)
  end.

Definition wait_for_source_bootstrap (retry_seconds : Z) (views : nat → sources) (fuel : nat) : res (option (list output)) :=
  if retry_seconds <=? 0 then raise ValueError "SIMULATION_BOOTSTRAP_RETRY_SECONDS must be greater than zero"
  else Ok (wait_loop retry_seconds views fuel 0).

(** ** Theorems *)

(** The baseline is there: every seed file has rows, every table exists and those that are generated
    have rows. *)
Definition database_ready (required populated : list string) (db : database) : Prop :=
  db_connection db = Ok tt ∧
  (∃ tables, db_tables db = Ok tables ∧ ∀ t, t ∈ required → t ∈ tables) ∧
  ∀ t, t ∈ populated → db_has_row db t = Ok true.
Definition baseline_ready (v : sources) : Prop :=
  (∀ f, f ∈ CRM_SEED_FILES → ∃ n, sv_seed v f = SeedRows n ∧ 1 ≤ n) ∧
  database_ready OPS_TABLES OPS_POPULATED_TABLES (sv_ops v) ∧
  database_ready ERP_TABLES ERP_POPULATED_TABLES (sv_erp v).

Lemma seed_ready v : _crm_seed_problems v = [] ↔ ∀ f, f ∈ CRM_SEED_FILES → ∃ n, sv_seed v f = SeedRows n ∧ 1 ≤ n.
Proof.
  unfold _crm_seed_problems. generalize CRM_SEED_FILES as l. induction l as [|f l IH]; [by split; [intros _ f ?%elem_of_nil|]|].
  setoid_rewrite elem_of_cons. change (omap (seed_problem v) (f :: l)) with (match seed_problem v f with Some y => y :: omap (seed_problem v) l | None => omap (seed_problem v) l end). split.
  - destruct (seed_problem v f) eqn:E; [done|]. intros H f' [->|Hf]; [|by apply (proj1 IH H)].
    unfold seed_problem in E. destruct (sv_seed v f) as [| |n]; [done..|]. destruct (Z.ltb_spec n 1); [done|]. by exists n.
  - intros H. destruct (H f) as (n & E & Hn); [by left|]. unfold seed_problem at 1. rewrite E.
    destruct (Z.ltb_spec n 1); [lia|]. apply IH. intros f' Hf. apply H. by right.
Qed.

Lemma database_ready_spec label required populated db :
  _database_problems label required populated db = [] ↔ database_ready required populated db.
Proof.
  unfold _database_problems, database_ready. destruct (db_connection db) as [[]|e]; cbn [res_bind]; [|naive_solver].
  destruct (db_tables db) as [tables|e]; cbn [res_bind]; [|naive_solver].
  assert (missing_tables required tables = [] ↔ ∀ t, t ∈ required → t ∈ tables) as Hm.
  { unfold missing_tables. split.
    - intros E t Ht. destruct (decide (t ∈ tables)) as [|Hn]; [done|]. exfalso.
      assert (t ∈ ([] : list string)) as Hin; [|by apply elem_of_nil in Hin].
      rewrite <- E, elem_of_sort_by, list_elem_of_filter, elem_of_remove_dups. done.
    - intros H. destruct (sort_by _ _) as [|t l] eqn:E; [done|]. exfalso.
      assert (t ∈ t :: l) as Hin by by left. rewrite <- E, elem_of_sort_by, list_elem_of_filter, elem_of_remove_dups in Hin. naive_solver. }
  case_bool_decide as Hd; cbn [negb]; [|split; [done|intros (_ & (? & [= <-] & H) & _); by apply Hm in H]].
  set (f := λ table, let! row := db_has_row db table in Ok (if row : bool then None else Some table)).
  transitivity (∀ t, t ∈ populated → db_has_row db t = Ok true).
  - split.
    + destruct (res_omap f populated) as [empty|e] eqn:E; cbn [res_bind]; [|done]. destruct (decide (empty = [])) as [->|He]; [|by rewrite bool_decide_eq_false_2].
      intros _ t Ht.
      apply res_omap_ok in E as [E1 E2]. specialize (E2 t Ht). unfold f in E2. destruct (db_has_row db t) as [[]|] eqn:Er; [done| |done].
      exfalso. apply (elem_of_nil t), E1. exists t. unfold f. by rewrite Er.
    + intros H. rewrite (res_omap_pure f (λ _, None)).
      * cbn [res_bind]. assert (∀ l, omap (λ _ : string, @None string) l = []) as -> by (intros l; by induction l). done.
      * intros t Ht. unfold f. by rewrite H.
  - split; [|naive_solver]. intros H. split_and!; [done| |done]. exists tables. split; [done|]. by apply Hm.
Qed.

Lemma check_ready v : rp_ready (check v) = true ↔ baseline_ready v.
Proof.
  unfold check, baseline_ready. cbn [rp_ready]. rewrite bool_decide_eq_true, !app_nil, seed_ready, !database_ready_spec. done.
Qed.

Lemma wait_loop_spec retry views fuel : ∀ k,
  match wait_loop retry views fuel k with
  | Some log => ∃ n, (n < fuel)%nat ∧ baseline_ready (views (k + n)%nat) ∧ (∀ j, (j < n)%nat → ¬ baseline_ready (views (k + j)%nat)) ∧
                     log = (seq k n ≫= λ j, waiting retry (views j)) ++ [ready_message]
  | None => ∀ j, (j < fuel)%nat → ¬ baseline_ready (views (k + j)%nat)
  end.
Proof.
  induction fuel as [|fuel IH]; intros k; cbn [wait_loop]; [lia|].
  destruct (rp_ready (check (views k))) eqn:Er.
  - exists 0%nat. rewrite Nat.add_0_r. split_and!; [lia|by apply check_ready|lia|done].
  - assert (¬ baseline_ready (views k)) as Hk by (rewrite <- check_ready; congruence).
    specialize (IH (S k)). destruct (wait_loop retry views fuel (S k)) as [log|]; cbn [fmap option_fmap option_map].
    + destruct IH as (n & Hn & Hr & Hnot & ->). exists (S n). rewrite <- Nat.add_succ_comm. split_and!; [lia|done| |].
      * intros [|j] Hj; [by rewrite Nat.add_0_r|]. rewrite <- Nat.add_succ_comm. apply Hnot. lia.
      * cbn [seq mbind list_bind]. by rewrite <- app_assoc.
    + intros [|j] Hj; [by rewrite Nat.add_0_r|]. rewrite <- Nat.add_succ_comm. apply IH. lia.
Qed.

(** C32: The simulator starts with the first check that finds the baseline complete - every seed file
    with rows, every table of both databases, rows in every generated one - and with no other. Before
    it, each check reports what is missing and is followed by one pause; a database that cannot be
    asked, or a file that cannot be read, is a reason to wait, never to stop. *)
Theorem bootstrap_gate retry_seconds views fuel :
  match wait_for_source_bootstrap retry_seconds views fuel with
  | Ok (Some log) => ∃ n, (n < fuel)%nat ∧ baseline_ready (views n) ∧ (∀ j, (j < n)%nat → ¬ baseline_ready (views j)) ∧
                          log = (seq 0 n ≫= λ j, waiting retry_seconds (views j)) ++ [ready_message]
  | Ok None => ∀ j, (j < fuel)%nat → ¬ baseline_ready (views j)
  | Err e => retry_seconds ≤ 0 ∧ exn_cls e = ValueError
  end.
Proof.
  unfold wait_for_source_bootstrap. destruct (Z.leb_spec retry_seconds 0); [done|].
  exact (wait_loop_spec retry_seconds views fuel 0).
Qed.
End Probe.
