(* ===== verification/Storage.v ===== *)
(** * Durable files: [fakeforce/storage.py]

    The atomic writer and the publication of a temporary file, on a directory whose contents and
    entries reach the disk when they are synchronised and otherwise at some later time or never. A
    computation records every state it passes through; [crash_view] gives what may be found after
    losing power in one of them. System calls may fail, as [faults] says. *)

From stdpp Require Import prelude gmap strings list.
From Stdlib Require Import ZArith Lia Ascii.
From S2P Require Import Prelude PyText Soql.

Open Scope Z_scope.

(** ** A directory and what a crash leaves of it *)

(** The entries now and the earlier ones not yet known to be replaced on the disk; the contents of
    the inodes, and which of them were changed since they were last synchronised. *)
Record disk := mkDisk {
  dk_names : gmap string nat;
  dk_pending : list (gmap string nat);
  dk_data : gmap nat string;
  dk_dirty : gset nat }.

Definition current (d : disk) (n : string) : option string := dk_names d !! n ≫= λ i, dk_data d !! i.

(** After a crash the entries are those of some moment since the directory was synchronised, and an
    inode that was not synchronised holds anything. *)
Definition crash_view (d : disk) (v : string → option string) : Prop :=
  ∃ names data,
    names ∈ dk_names d :: dk_pending d ∧
    (∀ i, is_Some (data !! i) ↔ is_Some (dk_data d !! i)) ∧
    (∀ i, i ∉ dk_dirty d → data !! i = dk_data d !! i) ∧
    ∀ n, v n = names !! n ≫= λ i, (data : gmap nat string) !! i.

Definition set_names (names : gmap string nat) (d : disk) : disk := mkDisk names (dk_names d :: dk_pending d) (dk_data d) (dk_dirty d).
Definition new_inode (d : disk) : nat := fresh (dom (dk_data d) : gset nat).
Definition create (n : string) (d : disk) : disk :=
  let i := new_inode d in
  mkDisk (<[n := i]> (dk_names d)) (dk_names d :: dk_pending d) (<[i := ""]> (dk_data d)) ({[i]} ∪ dk_dirty d).
Definition append (i : nat) (text : string) (d : disk) : disk :=
  mkDisk (dk_names d) (dk_pending d) (alter (λ c, c +:+ text) i (dk_data d)) ({[i]} ∪ dk_dirty d).
Definition sync_file (i : nat) (d : disk) : disk := mkDisk (dk_names d) (dk_pending d) (dk_data d) (dk_dirty d ∖ {[i]}).
Definition rename (a b : string) (d : disk) : disk :=
  match dk_names d !! a with Some i => set_names (<[b := i]> (delete a (dk_names d))) d | None => d end.
Definition unlink (n : string) (d : disk) : disk := set_names (delete n (dk_names d)) d.
Definition sync_directory (d : disk) : disk := mkDisk (dk_names d) [] (dk_data d) (dk_dirty d).

(** Every entry has an inode. *)
Definition disk_ok (d : disk) : Prop :=
  ∀ names n i, names ∈ dk_names d :: dk_pending d → names !! n = Some i → is_Some (dk_data d !! i).

(** ** Operations *)

(** The state now and those before, the latest first. *)
Record trace := mkTrace { tr_now : disk; tr_past : list disk }.

(** What the system calls raise, and whether the file system can synchronise a directory. *)
Record faults := mkFaults {
  at_mkdir : option exn; at_open : option exn; at_flush : option exn; at_fsync : option exn; at_close : option exn;
  at_replace : option exn; at_unlink : option exn; directory_sync : bool }.

Section Storage.
Context (F : faults).

Definition act (g : disk → disk) : io trace unit := io_modify (λ t, mkTrace (g (tr_now t)) (tr_now t :: tr_past t)).
Definition call (fault : option exn) (g : disk → disk) : io trace unit :=
  match fault with Some e => io_lift (Err e) | None => act g end.

(** [with stream: ...]: leaving it closes the stream, whose error then takes precedence. *)
Definition with_stream (body : io trace unit) : io trace unit := λ t,
  match body t, at_close F with
  | (t, _), Some e => (t, Err e)
  | r, None => r
  end.

Definition _fsync_directory : io trace unit := if directory_sync F then act sync_directory else io_ret tt.

Definition publish_temp_file (temporary destination : string) : io trace unit :=
  call (at_mkdir F) id ;;;
  let* t := io_get in
  match dk_names (tr_now t) !! temporary with
  | None => io_raise FileNotFoundError ("[Errno 2] No such file or directory: " +:+ py_repr temporary)
  | Some i =>
    call (at_open F) id ;;;
    with_stream (call (at_fsync F) (sync_file i)) ;;;
    call (at_replace F) (rename temporary destination) ;;;
    _fsync_directory
  end.

(** The caller writes the chunks inside of the context and then leaves it, normally or not. *)
Definition atomic_binary_writer (temporary destination : string) (chunks : list string) (outcome : res unit) : io trace unit :=
  call (at_mkdir F) id ;;;
  let* t := io_get in
  let i := new_inode (tr_now t) in
  call (at_open F) (create temporary) ;;;
  λ t,
    match
      (with_stream (
         io_iter (λ chunk, act (append i chunk)) chunks ;;;
         io_lift outcome ;;;
         call (at_flush F) id ;;;
         call (at_fsync F) (sync_file i)) ;;;
       call (at_replace F) (rename temporary destination) ;;;
       _fsync_directory) t
    with
    | (t, Err e) => (call (at_unlink F) (unlink temporary) ;;; io_lift (Err e)) t
    | r => r
    end.
End Storage.

(** ** What a crash finds *)

Section Derived.
Context (d : disk) (i : nat) (temporary destination text : string).

(** Everything but the temporary name is as at the start, or the destination is the complete file. *)
Definition entries_derived (x : disk) (names : gmap string nat) : Prop :=
  names ∈ dk_names d :: dk_pending d ∨
  (∀ n, n ≠ temporary → names !! n = dk_names d !! n) ∨
  ((∀ n, n ≠ temporary → n ≠ destination → names !! n = dk_names d !! n) ∧
   names !! destination = Some i ∧ i ∉ dk_dirty x ∧ dk_data x !! i = Some text).

Record derived (x : disk) : Prop := {
  de_names : ∀ names, names ∈ dk_names x :: dk_pending x → entries_derived x names;
  de_data : ∀ j, j ≠ i → dk_data x !! j = dk_data d !! j;
  de_dirty : ∀ j, j ≠ i → j ∈ dk_dirty x ↔ j ∈ dk_dirty d;
  de_inode : dk_data d !! i = None ∨ dk_data x !! i = dk_data d !! i ∧ (i ∈ dk_dirty x → i ∈ dk_dirty d) }.

Lemma derived_crash x v :
  disk_ok d → temporary ≠ destination → derived x → crash_view x v →
  ∃ v0, crash_view d v0 ∧ (∀ n, n ≠ temporary → n ≠ destination → v n = v0 n) ∧
        (v destination = v0 destination ∨ v destination = Some text).
Proof.
  intros Hok Hne [Hn Hd Hdirty Hi] (names & data & Hnames & Hdom & Hclean & Hv).
  set (data0 := if decide (dk_data d !! i = None) then delete i data else data).
  assert (∀ j, is_Some (dk_data d !! j) → data0 !! j = data !! j) as Hsame.
  { intros j Hj. unfold data0. case_decide as Hnone; [|done]. rewrite lookup_delete_ne; [done|]. intros <-. by rewrite Hnone in Hj; destruct Hj. }
  assert (∀ names0, names0 ∈ dk_names d :: dk_pending d → crash_view d (λ n, names0 !! n ≫= λ j, data0 !! j)) as Hview.
  { intros names0 H0. exists names0, data0. split_and!; [done| | |done]; intros j; unfold data0; case_decide as Hnone.
    - destruct (decide (j = i)) as [->|Hj]; [by rewrite lookup_delete_eq, Hnone|]. by rewrite lookup_delete_ne, Hdom, Hd.
    - rewrite Hdom. destruct (decide (j = i)) as [->|Hj]; [by destruct Hi as [?|[-> _]]|by rewrite Hd].
    - intros Hj. destruct (decide (j = i)) as [->|Hji]; [by rewrite lookup_delete_eq, Hnone|].
      rewrite lookup_delete_ne by done. rewrite Hclean by (by rewrite Hdirty). by apply Hd.
    - intros Hj. destruct (decide (j = i)) as [->|Hji].
      + destruct Hi as [?|[Hi Hid]]; [done|]. rewrite Hclean; [done|]. by intros ?%Hid.
      + rewrite Hclean by (by rewrite Hdirty). by apply Hd. }
  assert (∀ names0 n, names0 ∈ dk_names d :: dk_pending d → names !! n = names0 !! n → v n = names0 !! n ≫= λ j, data0 !! j) as Heq.
  { intros names0 n H0 E. rewrite Hv, E. destruct (names0 !! n) as [j|] eqn:Ej; [|done]. cbn. symmetry. apply Hsame. by eapply Hok. }
  destruct (Hn names Hnames) as [H|[H|(H & Hdest & Hc & Htext)]].
  - exists (λ n, names !! n ≫= λ j, data0 !! j). split; [by apply Hview|]. split; [intros n _ _|left]; by apply Heq.
  - exists (λ n, dk_names d !! n ≫= λ j, data0 !! j). split; [apply Hview; by left|].
    split; [intros n ? _|left]; (apply Heq; [by left|by apply H]).
  - exists (λ n, dk_names d !! n ≫= λ j, data0 !! j). split; [apply Hview; by left|].
    split; [intros n ? ?; apply Heq; [by left|by apply H]|]. right. rewrite Hv, Hdest. cbn. by rewrite Hclean.
Qed.

(** Steps that keep to it. *)
Lemma derived_start : derived d.
Proof. split; [|done|done|by right]. intros names Hn. by left. Qed.

Lemma derived_sync x : derived x → derived (sync_file i x).
Proof.
  intros [Hn Hd Hdirty Hi]. split; cbn.
  - intros names H. destruct (Hn names H) as [?|[?|(? & ? & ? & ?)]]; [by left|right; by left|right; right]. cbn. split_and!; set_solver.
  - done.
  - intros j Hj. rewrite <- Hdirty by done. set_solver.
  - destruct Hi as [?|[? H]]; [by left|right]. split; [done|]. set_solver.
Qed.

Lemma derived_sync_directory x : derived x → derived (sync_directory x).
Proof. intros [Hn Hd Hdirty Hi]. split; cbn; [|done..]. intros names ->%list_elem_of_singleton. apply Hn. by left. Qed.

Lemma derived_set_names names x :
  derived x → entries_derived x names → derived (set_names names x).
Proof. intros [Hn Hd Hdirty Hi] H. split; cbn; [|done..]. intros names' [->|H']%elem_of_cons; [exact H|by apply Hn]. Qed.

(** Before the replacement the entries differ in the temporary name only, and the destination is no
    complete file yet. *)
Record writing (x : disk) : Prop := {
  wr_derived : derived x;
  wr_names : ∀ names, names ∈ dk_names x :: dk_pending x → names ∈ dk_names d :: dk_pending d ∨ ∀ n, n ≠ temporary → names !! n = dk_names d !! n;
  wr_now : ∀ n, n ≠ temporary → dk_names x !! n = dk_names d !! n }.

Lemma writing_start : writing d.
Proof. split; [apply derived_start|by left|done]. Qed.

Lemma writing_set_names names x : writing x → (∀ n, n ≠ temporary → names !! n = dk_names d !! n) → writing (set_names names x).
Proof.
  intros [H Hn _] Hnames. split; [apply derived_set_names; [done|by right; left]| |done].
  intros names' [->|?]%elem_of_cons; [by right|by apply Hn].
Qed.

Lemma writing_unlink x : writing x → writing (unlink temporary x).
Proof.
  intros H. apply writing_set_names; [done|]. intros n Hn. rewrite lookup_delete_ne by done. by apply (wr_now _ H).
Qed.

Lemma writing_sync x : writing x → writing (sync_file i x).
Proof. intros [H Hn Hnow]. split; [by apply derived_sync|done|done]. Qed.

Lemma writing_append chunk x : dk_data d !! i = None → writing x → writing (append i chunk x).
Proof.
  intros Hfresh [[Hn Hd Hdirty Hi] Hnames Hnow]. split; [|done|done]. split; cbn.
  - intros names H. destruct (Hnames names H); [by left|by right; left].
  - intros j Hj. rewrite lookup_alter_ne by done. by apply Hd.
  - intros j Hj. rewrite <- Hdirty by done. set_solver.
  - by left.
Qed.

Lemma derived_rename x :
  writing x → temporary ≠ destination → dk_names x !! temporary = Some i → i ∉ dk_dirty x → dk_data x !! i = Some text →
  derived (rename temporary destination x).
Proof.
  intros [H Hn Hnow] Hne Ht Hc Hd. unfold rename. rewrite Ht. apply derived_set_names; [done|]. right; right.
  split_and!; [|by rewrite lookup_insert_eq|done|done].
  intros n H1 H2. rewrite lookup_insert_ne, lookup_delete_ne by done. by apply Hnow.
Qed.
End Derived.

Lemma new_inode_fresh d : dk_data d !! new_inode d = None.
Proof. apply (not_elem_of_dom (D := gset nat)). unfold new_inode. apply is_fresh. Qed.

Lemma writing_create d temporary destination text : writing d (new_inode d) temporary destination text (create temporary d).
Proof.
  split; [split|..]; cbn.
  - intros names [->|H]%elem_of_cons; [right; left; intros n Hn; by rewrite lookup_insert_ne|by left].
  - intros j Hj. by rewrite lookup_insert_ne.
  - set_solver.
  - left. apply new_inode_fresh.
  - intros names [->|H]%elem_of_cons; [right; intros n Hn; by rewrite lookup_insert_ne|by left].
  - intros n Hn. by rewrite lookup_insert_ne.
Qed.

Section Runs.
Context (F : faults) (d : disk) (Hok : disk_ok d) (i : nat) (temporary destination text : string) (Hne : temporary ≠ destination).

Definition kept (t : trace) : Prop := ∀ x, x ∈ tr_now t :: tr_past t → derived d i temporary destination text x.
Abbreviation writing' := (writing d i temporary destination text).

Lemma kept_act g t : kept t → derived d i temporary destination text (g (tr_now t)) → kept (act g t).1.
Proof. intros Hk Hg x [->|Hx]%elem_of_cons; [exact Hg|by apply Hk]. Qed.

Lemma kept_crash t x v :
  kept t → x ∈ tr_now t :: tr_past t → crash_view x v →
  ∃ v0, crash_view d v0 ∧ (∀ n, n ≠ temporary → n ≠ destination → v n = v0 n) ∧
        (v destination = v0 destination ∨ v destination = Some text).
Proof. intros Hk Hx. apply (derived_crash d i temporary destination text x v Hok Hne), Hk, Hx. Qed.

Lemma current_same x n :
  derived d i temporary destination text x → dk_names x !! n = dk_names d !! n → current x n = current d n.
Proof.
  intros [_ Hd _ Hi] E. unfold current. rewrite E. destruct (dk_names d !! n) as [j|] eqn:Ej; [|done]. cbn.
  destruct (decide (j = i)) as [->|Hj]; [|by apply Hd]. destruct Hi as [Hnone|[? _]]; [|done].
  apply (Hok (dk_names d) n i) in Ej as [? ?]; [congruence|by left].
Qed.

(** What the caller finds, and what stays after it: the complete file and nothing else changed. *)
Definition published (t : trace) : Prop :=
  current (tr_now t) destination = Some text ∧ current (tr_now t) temporary = None ∧
  (∀ n, n ≠ temporary → n ≠ destination → current (tr_now t) n = current d n) ∧
  (directory_sync F = true → ∀ v, crash_view (tr_now t) v → v destination = Some text).

Lemma replace_run t t' r :
  kept t → writing' (tr_now t) → dk_names (tr_now t) !! temporary = Some i → i ∉ dk_dirty (tr_now t) → dk_data (tr_now t) !! i = Some text →
  (call (at_replace F) (rename temporary destination) ;;; _fsync_directory F) t = (t', r) →
  kept t' ∧ (r = Ok tt → published t') ∧ (is_ok r = false → t' = t).
Proof.
  intros Hk Hw Ht Hc Hd E. unfold io_bind, call in E. destruct (at_replace F) as [e|]; [injection E as <- <-; by split_and!|].
  pose proof (derived_rename d i temporary destination text _ Hw Hne Ht Hc Hd) as Hr.
  set (x := rename temporary destination (tr_now t)) in *.
  assert (dk_names x = <[destination := i]> (delete temporary (dk_names (tr_now t)))) as Hnames by (unfold x, rename; by rewrite Ht).
  assert (dk_data x = dk_data (tr_now t)) as Hdata by (unfold x, rename; by rewrite Ht).
  assert (dk_dirty x = dk_dirty (tr_now t)) as Hdirty by (unfold x, rename; by rewrite Ht).
  assert (current x destination = Some text ∧ current x temporary = None ∧
    ∀ n, n ≠ temporary → n ≠ destination → current x n = current d n) as (C1 & C2 & C3).
  { split_and!.
    - unfold current. by rewrite Hnames, lookup_insert_eq, Hdata.
    - unfold current. by rewrite Hnames, lookup_insert_ne, lookup_delete_eq.
    - intros n H1 H2. apply current_same; [done|]. rewrite Hnames, lookup_insert_ne, lookup_delete_ne by done. by apply (wr_now _ _ _ _ _ _ Hw). }
  unfold _fsync_directory in E. destruct (directory_sync F) eqn:Es; injection E as <- <-; (split; [|split; [|done]]).
  - apply (kept_act sync_directory (act (rename temporary destination) t).1); [by apply kept_act|]. by apply derived_sync_directory.
  - intros _. split_and!; [done..|]. intros _ v (names & data & ->%list_elem_of_singleton & _ & Hclean & Hv).
    rewrite Hv. cbn. fold x. rewrite Hnames, lookup_insert_eq. cbn. rewrite Hclean; cbn; fold x; [by rewrite Hdata|by rewrite Hdirty].
  - by apply (kept_act (rename temporary destination) t).
  - intros _. split_and!; [done..|]. intros Hs. congruence.
Qed.

Lemma chunks_run chunks t t' r done_ :
  dk_data d !! i = None → kept t → writing' (tr_now t) → dk_names (tr_now t) !! temporary = Some i → dk_data (tr_now t) !! i = Some done_ →
  io_iter (λ chunk, act (append i chunk)) chunks t = (t', r) →
  r = Ok tt ∧ kept t' ∧ writing' (tr_now t') ∧ dk_names (tr_now t') !! temporary = Some i ∧
  dk_data (tr_now t') !! i = Some (done_ +:+ foldr String.append "" chunks).
Proof.
  intros Hfresh. revert t done_. induction chunks as [|c chunks IH]; intros t acc Hk Hw Ht Hd E.
  - injection E as <- <-. cbn. split_and!; [done..|]. by rewrite string_app_nil_r.
  - cbn [io_iter io_fold] in E. unfold io_iter in E. cbn [io_fold] in E.
    rewrite (io_bind_run _ _ t (act (append i c) t).1 tt) in E by done.
    pose proof (writing_append d i temporary destination text c (tr_now t) Hfresh Hw) as Hw'.
    destruct (IH (act (append i c) t).1 (acc +:+ c)) as (-> & H); [|done| |..].
    + apply kept_act; [done|]. apply Hw'.
    + done.
    + cbn. by rewrite lookup_alter_eq, Hd.
    + exact E.
    + split; [done|]. cbn [foldr]. by rewrite string_app_assoc.
Qed.

Lemma call_run fault g t t' r :
  call fault g t = (t', r) → (∃ e, t' = t ∧ r = Err e ∧ fault = Some e) ∨ (t' = (act g t).1 ∧ r = Ok tt ∧ fault = None).
Proof. unfold call. destruct fault as [e|]; intros [= <- <-]; [left; by exists e|by right]. Qed.

(** A state before the replacement. *)
Definition prepared (t : trace) : Prop := kept t ∧ writing' (tr_now t).

Lemma prepared_act g t : prepared t → writing' (g (tr_now t)) → prepared (act g t).1.
Proof. intros [Hk _] Hw. split; [apply kept_act; [done|]; apply Hw|exact Hw]. Qed.

Lemma prepared_current t n : prepared t → n ≠ temporary → current (tr_now t) n = current d n.
Proof. intros [_ Hw] Hn. apply current_same; [apply Hw|]. by apply (wr_now _ _ _ _ _ _ Hw). Qed.

Lemma cleanup_run e t t' r :
  prepared t → (call (at_unlink F) (unlink temporary) ;;; io_lift (@Err unit e)) t = (t', r) →
  prepared t' ∧ is_ok r = false ∧ (at_unlink F = None → current (tr_now t') temporary = None).
Proof.
  intros Hp E. unfold io_bind in E. destruct (call (at_unlink F) (unlink temporary) t) as [t1 r1] eqn:E1.
  destruct (call_run _ _ _ _ _ E1) as [(e1 & -> & -> & Hu)|(-> & -> & _)]; injection E as <- <-.
  - split_and!; [done|done|congruence].
  - split_and!; [apply prepared_act; [done|apply writing_unlink, Hp]|done|]. intros _. unfold current. cbn. by rewrite lookup_delete_eq.
Qed.

Lemma body_run chunks outcome t t' r :
  dk_data d !! i = None → prepared t → dk_names (tr_now t) !! temporary = Some i → dk_data (tr_now t) !! i = Some "" →
  text = foldr String.append "" chunks →
  with_stream F (io_iter (λ chunk, act (append i chunk)) chunks ;;; io_lift outcome ;;; call (at_flush F) id ;;; call (at_fsync F) (sync_file i)) t = (t', r) →
  prepared t' ∧ (r = Ok tt → outcome = Ok tt ∧ dk_names (tr_now t') !! temporary = Some i ∧ i ∉ dk_dirty (tr_now t') ∧ dk_data (tr_now t') !! i = Some text).
Proof.
  intros Hfresh [Hk Hw] Ht Hd Htext E. unfold with_stream in E.
  destruct (io_iter (λ chunk, act (append i chunk)) chunks t) as [t1 r1] eqn:E1.
  destruct (chunks_run chunks t t1 r1 "" Hfresh Hk Hw Ht Hd E1) as (-> & Hk1 & Hw1 & Ht1 & Hd1). 
  assert (dk_data (tr_now t1) !! i = Some text) as Hd2 by (by rewrite Htext).
  rewrite (io_bind_run _ _ t t1 tt E1) in E. unfold io_bind at 1, io_lift in E.
  destruct outcome as [[]|e]; [|destruct (at_close F); injection E as <- <-; by split].
  unfold io_bind in E. destruct (call (at_flush F) id t1) as [t2 r2] eqn:E2.
  assert (prepared t1) as P1 by done.
  destruct (call_run _ _ _ _ _ E2) as [(e & -> & -> & _)|(-> & -> & _)]; [destruct (at_close F); injection E as <- <-; by split|].
  assert (prepared (act id t1).1) as P2 by by apply prepared_act.
  set (t2 := (act id t1).1) in *. destruct (call (at_fsync F) (sync_file i) t2) as [t3 r3] eqn:E3.
  destruct (call_run _ _ _ _ _ E3) as [(e & -> & -> & _)|(-> & -> & _)]; [destruct (at_close F); injection E as <- <-; by split|].
  assert (prepared (act (sync_file i) t2).1) as P3 by (apply prepared_act; [done|]; apply writing_sync; apply P2).
  destruct (at_close F); injection E as <- <-; (split; [exact P3|]); [done|]. intros _. split_and!; [done|done| |done]. cbn. set_solver.
Qed.
End Runs.

(** C16: Publishing a file is atomic, whatever fails. Wherever the power goes, the destination afterwards
    is what a crash before would have left or the complete new file, and nothing else changes but the
    temporary name. When it returns, the complete file is in place, there to stay if directories can
    be synchronised; when it raises, everything is as it was, and the temporary file is gone unless
    removing it failed. *)
Theorem atomic_writer_crash_safe F d temporary destination chunks outcome t r :
  disk_ok d → dk_names d !! temporary = None → temporary ≠ destination →
  atomic_binary_writer F temporary destination chunks outcome (mkTrace d []) = (t, r) →
  (∀ x v, x ∈ tr_now t :: tr_past t → crash_view x v →
    ∃ v0, crash_view d v0 ∧ (∀ n, n ≠ temporary → n ≠ destination → v n = v0 n) ∧
          (v destination = v0 destination ∨ v destination = Some (foldr String.append "" chunks))) ∧
  (r = Ok tt → outcome = Ok tt ∧ published F d temporary destination (foldr String.append "" chunks) t) ∧
  (is_ok r = false → (∀ n, n ≠ temporary → current (tr_now t) n = current d n) ∧
                     (at_unlink F = None → current (tr_now t) temporary = None)).
Proof.
  intros Hok Hfree Hne E. set (text := foldr String.append "" chunks). set (i := new_inode d).
  pose proof (derived_start d i temporary destination text) as D0.
  assert (prepared d i temporary destination text (mkTrace d [])) as P0.
  { split; [by intros x ->%list_elem_of_singleton|apply writing_start]. }
  assert (∀ t0, prepared d i temporary destination text t0 → (∀ n, n ≠ temporary → current (tr_now t0) n = current d n)) as Hcur
    by (intros t0 Hp n; by apply (prepared_current d Hok i temporary destination text)).
  assert (current d temporary = None) as Hnone by (unfold current; by rewrite Hfree).
  enough (kept d i temporary destination text t ∧ (r = Ok tt → outcome = Ok tt ∧ published F d temporary destination text t) ∧
    (is_ok r = false → prepared d i temporary destination text t ∧ (at_unlink F = None → current (tr_now t) temporary = None))) as (Hk & Hr & He).
  { split_and!; [intros x v Hx; by apply (kept_crash d Hok i temporary destination text Hne t)|done|].
    intros Hf. destruct (He Hf) as [Hp Hu]. split; [by apply Hcur|done]. }
  unfold atomic_binary_writer, io_bind at 1 in E. destruct (call (at_mkdir F) id (mkTrace d [])) as [t1 r1] eqn:E1.
  destruct (call_run _ _ _ _ _ E1) as [(e & -> & -> & _)|(-> & -> & _)]; [injection E as <- <-; by split_and!; [apply P0|..]|].
  rewrite (io_bind_run _ _ (act id (mkTrace d [])).1 _ (act id (mkTrace d [])).1) in E by done.
  assert (prepared d i temporary destination text (act id (mkTrace d [])).1) as P1 by (apply prepared_act; [done|apply writing_start]).
  set (t1 := (act id (mkTrace d [])).1) in *. change (new_inode (tr_now t1)) with i in E.
  unfold io_bind at 1 in E. destruct (call (at_open F) (create temporary) t1) as [t2 r2] eqn:E2.
  destruct (call_run _ _ _ _ _ E2) as [(e & -> & -> & _)|(-> & -> & _)]; [injection E as <- <-; by split_and!; [apply P1|..]|].
  assert (prepared d i temporary destination text (act (create temporary) t1).1) as P2 by (apply prepared_act; [done|apply writing_create]).
  set (t2 := (act (create temporary) t1).1) in *. unfold io_bind at 1 in E.
  destruct (with_stream F _ t2) as [t3 r3] eqn:E3.
  destruct (body_run F d Hok i temporary destination text Hne chunks outcome t2 t3 r3 (new_inode_fresh d) P2) as [P3 H3];
    [by cbn; rewrite lookup_insert_eq|by cbn; rewrite lookup_insert_eq|done|exact E3|].
  destruct r3 as [[]|e3].
  - destruct (H3 eq_refl) as (Ho & Ht & Hc & Hd).
    destruct ((call (at_replace F) (rename temporary destination) ;;; _fsync_directory F) t3) as [t4 r4] eqn:E4.
    destruct (replace_run F d Hok i temporary destination text Hne t3 t4 r4 (proj1 P3) (proj2 P3) Ht Hc Hd E4) as (K4 & H4 & H5).
    destruct r4 as [[]|e4]; [injection E as <- <-; split_and!; [done|by intros _; split; [|apply H4]|done]|].
    rewrite (H5 eq_refl) in E. destruct (cleanup_run F d i temporary destination text e4 t3 t r P3 E) as (P5 & Hf & Hu).
    split_and!; [apply P5|by intros ->|by intros _].
  - destruct (cleanup_run F d i temporary destination text e3 t3 t r P3 E) as (P5 & Hf & Hu).
    split_and!; [apply P5|by intros ->|by intros _].
Qed.

(** The same for a file another writer produced: its content becomes durable before its name. *)
Theorem publish_crash_safe F d temporary destination i text t r :
  disk_ok d → dk_names d !! temporary = Some i → dk_data d !! i = Some text → temporary ≠ destination →
  publish_temp_file F temporary destination (mkTrace d []) = (t, r) →
  (∀ x v, x ∈ tr_now t :: tr_past t → crash_view x v →
    ∃ v0, crash_view d v0 ∧ (∀ n, n ≠ temporary → n ≠ destination → v n = v0 n) ∧
          (v destination = v0 destination ∨ v destination = Some text)) ∧
  (r = Ok tt → published F d temporary destination text t) ∧
  (is_ok r = false → ∀ n, n ≠ temporary → current (tr_now t) n = current d n).
Proof.
  intros Hok Htmp Htext Hne E. set (P := prepared d i temporary destination text).
  assert (P (mkTrace d [])) as P0.
  { split; [intros x ->%list_elem_of_singleton; apply derived_start|apply writing_start]. }
  enough (kept d i temporary destination text t ∧ (r = Ok tt → published F d temporary destination text t) ∧ (is_ok r = false → P t)) as (Hk & Hr & He).
  { split_and!; [intros x v Hx; by apply (kept_crash d Hok i temporary destination text Hne t)|done|].
    intros Hf n. apply (prepared_current d Hok i temporary destination text t n). by apply He. }
  unfold publish_temp_file, io_bind at 1 in E. destruct (call (at_mkdir F) id (mkTrace d [])) as [t1 r1] eqn:E1.
  destruct (call_run _ _ _ _ _ E1) as [(e & -> & -> & _)|(-> & -> & _)]; [injection E as <- <-; by split_and!; [apply P0|..]|].
  rewrite (io_bind_run _ _ (act id (mkTrace d [])).1 _ (act id (mkTrace d [])).1) in E by done.
  assert (P (act id (mkTrace d [])).1) as P1 by (apply prepared_act; [done|apply writing_start]).
  set (t1 := (act id (mkTrace d [])).1) in *. change (dk_names (tr_now t1)) with (dk_names d) in E. rewrite Htmp in E. unfold io_bind at 1 in E.
  destruct (call (at_open F) id t1) as [t2 r2] eqn:E2.
  destruct (call_run _ _ _ _ _ E2) as [(e & -> & -> & _)|(-> & -> & _)]; [injection E as <- <-; by split_and!; [apply P1|..]|].
  assert (P (act id t1).1) as P2 by (apply prepared_act; [done|apply P1]). set (t2 := (act id t1).1) in *.
  unfold io_bind at 1, with_stream in E. destruct (call (at_fsync F) (sync_file i) t2) as [t3 r3] eqn:E3.
  destruct (call_run _ _ _ _ _ E3) as [(e & -> & -> & _)|(-> & -> & _)];
    [destruct (at_close F); injection E as <- <-; by split_and!; [apply P2|..]|].
  assert (P (act (sync_file i) t2).1) as P3 by (apply prepared_act; [done|]; apply writing_sync, P2).
  set (t3 := (act (sync_file i) t2).1) in *.
  destruct (at_close F); [injection E as <- <-; by split_and!; [apply P3|..]|].
  destruct (replace_run F d Hok i temporary destination text Hne t3 t r (proj1 P3) (proj2 P3) Htmp) as (K4 & H4 & H5); [cbn; set_solver|done|exact E|].
  split_and!; [done|done|]. intros Hf. by rewrite (H5 Hf).
Qed.

(** ** Examples *)

Definition no_faults : faults := mkFaults None None None None None None None true.
Definition example_disk : disk := mkDisk {[ "base.parquet" := 0%nat; "part.parquet" := 1%nat ]} [] {[ 0%nat := "old rows"; 1%nat := "new rows" ]} ∅.

Lemma example_disk_ok : disk_ok example_disk.
Proof.
  intros names n i ->%list_elem_of_singleton H. cbn [dk_names example_disk] in H. apply lookup_insert_Some in H as [[_ <-]|[_ H]]; [by eexists|].
  apply lookup_singleton_Some in H as [_ <-]. by eexists.
Qed.

Lemma atomic_writer_crash_safe_witness :
  ∃ t, atomic_binary_writer no_faults ".m.tmp" "manifest" ["a"; "b"] (Ok tt) (mkTrace example_disk []) = (t, Ok tt) ∧
  current (tr_now t) "manifest" = Some "ab" ∧ (∀ v, crash_view (tr_now t) v → v "manifest" = Some "ab").
Proof.
  set (run := atomic_binary_writer no_faults ".m.tmp" "manifest" ["a"; "b"] (Ok tt) (mkTrace example_disk [])).
  assert (run = (run.1, Ok tt)) as E by (vm_compute; reflexivity).
  exists run.1. split; [exact E|].
  destruct (atomic_writer_crash_safe no_faults example_disk ".m.tmp" "manifest" ["a"; "b"] (Ok tt) run.1 (Ok tt)
    example_disk_ok ltac:(done) ltac:(done) E) as (_ & H & _).
  destruct (H eq_refl) as (_ & H1 & _ & _ & H4). split; [exact H1|by apply H4].
Defined.

(** *** A replacement without synchronisation *)

(** What [DeltaCompactor._write_merged] and [_remove] do: the merged file is renamed into place
    without being synchronised, then the partitions are removed. A power failure after that may leave
    neither the rows of the partition nor those of the base. *)
Definition unsynced_swap : io trace unit :=
  act (create ".base.tmp") ;;;
  act (append 2 "old rows and new rows") ;;;
  act (rename ".base.tmp" "base.parquet") ;;;
  act (unlink "part.parquet").

Theorem unsynced_swap_loses :
  let t := (unsynced_swap (mkTrace example_disk [])).1 in
  current (tr_now t) "base.parquet" = Some "old rows and new rows" ∧
  ∃ v, crash_view (tr_now t) v ∧ v "base.parquet" = Some "" ∧ v "part.parquet" = None.
Proof.
  set (names := {[ "base.parquet" := 2%nat ]} : gmap string nat). set (data := {[ 0%nat := "old rows"; 1%nat := "new rows"; 2%nat := "" ]} : gmap nat string).
  split; [vm_compute; reflexivity|]. exists (λ n, names !! n ≫= λ i, data !! i). split; [|split; vm_compute; reflexivity].
  assert (dk_data (tr_now (unsynced_swap (mkTrace example_disk [])).1) = <[2%nat := "old rows and new rows"]> data) as Hdata by (vm_compute; reflexivity).
  assert (dk_dirty (tr_now (unsynced_swap (mkTrace example_disk [])).1) = {[2%nat]}) as Hdirty by (vm_compute; reflexivity).
  exists names, data. rewrite Hdata, Hdirty. split_and!; [by left| | |done]; intros i.
  - destruct (decide (2%nat = i)) as [<-|Hi]; [by split; eexists|by rewrite lookup_insert_ne].
  - intros Hi. rewrite lookup_insert_ne; [done|set_solver].
Qed.
