(* ===== verification/Deadline.v ===== *)
(** * Queries with a deadline: [fakeforce/deadline.py]

    [run_with_deadline] and its worker thread as a step relation in explicit time (milliseconds).
    The worker opens the connection, announces it, works and closes it; the caller waits for the
    result until the deadline, then at most a quarter of a second for the connection, interrupts it
    and leaves. Time passes as long as no wait of the caller has run out: the caller is assumed to be
    scheduled when it does. *)

From stdpp Require Import prelude relations strings.
From Stdlib Require Import ZArith Lia.
From S2P Require Import Prelude PyText.

Open Scope Z_scope.

Section Deadline.
(** The deadline; what [interrupt] raises on a connection that is already closed. *)
Context {V : Type} (timeout : Z) (closed_interrupt : option exn).

(** The worker; [Finished] once the future has its result and the connection is closed. *)
Inductive worker :=
| Queued
| Opening
| Opened
| Working
| Finished (outcome : res V)
| Cancelled.

(** The caller, with the time its second wait began or it left. *)
Inductive caller :=
| Waiting
| Interrupting (since : Z)
| Returned (r : res V) (at_ : Z).

(** [holder] has the connection since some time; [ready] is the event. *)
Record state := mkState {
  now : Z; wk : worker; holder : option Z; ready : bool; interrupted : bool; mn : caller }.

Definition submitted : state := mkState 0 Queued None false false Waiting.

Definition exceeded : exn := Exn QueryDeadlineExceeded "" "synchronous query exceeded its time limit".
Definition is_timeout (e : exn) : bool :=
  match exn_cls e with TimeoutError | QueryDeadlineExceeded => true | _ => false end.
Definition finished (w : worker) : option (res V) := match w with Finished o => Some o | _ => None end.

(** [executor.shutdown(cancel_futures=True)] *)
Definition cancel (w : worker) : worker := match w with Queued => Cancelled | w => w end.

Inductive worker_step : state → state → Prop :=
| w_start t h r i m : worker_step (mkState t Queued h r i m) (mkState t Opening h r i m)
| w_open_fails t h r i m e : worker_step (mkState t Opening h r i m) (mkState t (Finished (Err e)) h r i m)
| w_open t h r i m : worker_step (mkState t Opening h r i m) (mkState t Opened (Some t) r i m)
| w_ready t h r i m : worker_step (mkState t Opened h r i m) (mkState t Working h true i m)
| w_finish t h r i m o : worker_step (mkState t Working h r i m) (mkState t (Finished o) h r i m).

(** The caller's waits and what follows each. *)
Inductive caller_step : state → state → Prop :=
| c_result t h r i o :
    match o with Ok _ => True | Err e => is_timeout e = false end →
    caller_step (mkState t (Finished o) h r i Waiting) (mkState t (Finished o) h r i (Returned o t))
| c_raised t h r i e :
    is_timeout e = true →
    caller_step (mkState t (Finished (Err e)) h r i Waiting) (mkState t (Finished (Err e)) h r i (Interrupting t))
| c_deadline t w h r i :
    finished w = None → timeout ≤ t →
    caller_step (mkState t w h r i Waiting) (mkState t w h r i (Interrupting t))
| c_interrupt t w since h r i :
    r = true ∨ since + 250 ≤ t →
    caller_step (mkState t w h r i (Interrupting since))
      (match h, finished w, closed_interrupt with
       | Some _, Some _, Some e => mkState t w h r i (Returned (Err e) t)
       | Some _, _, _ => mkState t (cancel w) h r true (Returned (Err exceeded) t)
       | None, _, _ => mkState t (cancel w) h r i (Returned (Err exceeded) t)
       end).

Inductive tick : state → state → Prop :=
| tick_waiting t w h r i dt : 0 ≤ dt → t + dt ≤ timeout → tick (mkState t w h r i Waiting) (mkState (t + dt) w h r i Waiting)
| tick_interrupting t w h r i since dt :
    0 ≤ dt → t + dt ≤ since + 250 → tick (mkState t w h r i (Interrupting since)) (mkState (t + dt) w h r i (Interrupting since))
| tick_returned t w h r i v u dt : 0 ≤ dt → tick (mkState t w h r i (Returned v u)) (mkState (t + dt) w h r i (Returned v u)).

Definition own_step (s s' : state) : Prop := caller_step s s' ∨ tick s s'.
Definition step (s s' : state) : Prop := worker_step s s' ∨ own_step s s'.

(** ** Theorems *)

Definition left_with (w : worker) (h : option Z) (i : bool) (v : res V) (u : Z) : Prop :=
  u ≤ timeout + 250 ∧
  (w = Finished v ∧ u ≤ timeout ∨
   (v = Err exceeded ∧ (∀ t, h = Some t → t < u → i = true)) ∨
   (∃ e, v = Err e ∧ closed_interrupt = Some e ∧ ∃ o, w = Finished o)).

Definition good (s : state) : Prop :=
  (∀ t, holder s = Some t → t ≤ now s) ∧
  ((wk s = Opened ∨ wk s = Working) ∨ ready s = true → holder s ≠ None) ∧
  match mn s with
  | Waiting => now s ≤ timeout ∧ interrupted s = false
  | Interrupting since => since ≤ timeout ∧ since ≤ now s ≤ since + 250
  | Returned v u => u ≤ now s ∧ left_with (wk s) (holder s) (interrupted s) v u
  end.

Lemma good_start : 0 ≤ timeout → good submitted.
Proof. intros Ht. unfold good. cbn. split_and!; [done|by intros [[]|]|done|done]. Qed.

Lemma left_with_worker w w' h h' i v u :
  left_with w h i v u → finished w = None → (∀ t, h' = Some t → t < u → h = Some t) → left_with w' h' i v u.
Proof.
  intros [Hu [[-> _]|[[-> H]|(e & _ & _ & o & ->)]]] Hw Hh; [done| |done].
  split; [done|]. right; left. split; [done|]. intros t Ht Hlt. by apply (H t); [apply Hh|].
Qed.

Lemma good_worker s s' : good s → worker_step s s' → good s'.
Proof.
  intros (Hh & Hr & Hm) Hs. destruct Hs; unfold good in *; cbn in *; (split; [|split]); try naive_solver lia.
  all: destruct m as [|since|v u]; try done; destruct Hm as [Hu Hl]; (split; [done|]);
    (eapply left_with_worker; [exact Hl|done|]); try done.
  intros t' [= <-] ?. lia.
Qed.

Lemma good_own s s' : good s → own_step s s' → good s'.
Proof.
  intros (Hh & Hr & Hm) [Hs|Hs]; destruct Hs; unfold good in *; cbn in *; try naive_solver lia.
  - split_and!; [done|done|lia|]. split; [lia|]. left. split; [done|lia].
  - destruct h as [t0|], (finished w) as [o|] eqn:Ew, closed_interrupt as [e|] eqn:Ec; cbn.
    all: assert (cancel w = Opened ∨ cancel w = Working → w = Opened ∨ w = Working) as Hc by (destruct w; cbn; tauto || naive_solver).
    all: (split_and!; [done|naive_solver|lia|split; [lia|]]).
    all: try (right; left; split; [done|]; intros t' ?; by simplify_eq).
    right; right. exists e. split_and!; [done|done|]. destruct w; cbn in Ew; simplify_eq. by eexists.
  - split_and!; [intros t1 Ht1; specialize (Hh t1 Ht1); lia|done|lia|apply Hm].
  - split_and!; [intros t1 Ht1; specialize (Hh t1 Ht1); lia|done|lia..].
  - destruct Hm as [? Hm]. split_and!; [intros t1 Ht1; specialize (Hh t1 Ht1); lia|done|lia|exact Hm].
Qed.

Lemma good_step s s' : good s → step s s' → good s'.
Proof. intros Hg [Hw|Ho]; [by eapply good_worker|by eapply good_own]. Qed.

Lemma good_steps s : 0 ≤ timeout → rtc step submitted s → good s.
Proof.
  intros Ht Hs. pose proof (good_start Ht) as Hg. revert Hg. induction Hs as [|s0 s1 s' H _ IH]; [done|].
  intros Hg. apply IH. by eapply good_step.
Qed.

(** Alone, without a step of the worker, the caller leaves in time. *)
Lemma leaves_interrupting s since :
  good s → mn s = Interrupting since → ∃ s' v u, rtc own_step s s' ∧ mn s' = Returned v u.
Proof.
  intros (_ & _ & Hm) Hmn. destruct s as [t w h r i m]. cbn in Hmn. subst m. cbn in Hm.
  assert (∃ s' v u, caller_step (mkState (since + 250) w h r i (Interrupting since)) s' ∧ mn s' = Returned v u) as (s' & v & u & Hs & Hv).
  { destruct h as [t0|], (finished w) as [o|] eqn:Ew, closed_interrupt as [e|] eqn:Ec;
      (do 3 eexists; split; [apply c_interrupt; right; lia|rewrite ?Ew, ?Ec; cbn; reflexivity]). }
  exists s', v, u. split; [|done]. apply (rtc_l _ _ (mkState (since + 250) w h r i (Interrupting since))); [|apply rtc_once; by left].
  right. replace (since + 250) with (t + (since + 250 - t)) by lia. apply tick_interrupting; lia.
Qed.

Lemma leaves s : good s → ∃ s' v u, rtc own_step s s' ∧ mn s' = Returned v u.
Proof.
  intros Hg. destruct (mn s) as [|since|v u] eqn:Hmn; [|by eapply leaves_interrupting|by exists s, v, u].
  assert (∃ s', rtc own_step s s' ∧ good s' ∧ ((∃ v u, mn s' = Returned v u) ∨ ∃ since, mn s' = Interrupting since)) as (s1 & Hr & Hg1 & H).
  { destruct s as [t w h r i m]. cbn in Hmn. subst m. destruct (finished w) as [o|] eqn:Ew.
    - assert (w = Finished o) as -> by (destruct w; cbn in Ew; by simplify_eq).
      destruct (match o with Ok _ => false | Err e => is_timeout e end) eqn:Eo.
      + destruct o as [|e]; [done|].
        assert (own_step (mkState t (Finished (Err e)) h r i Waiting) (mkState t (Finished (Err e)) h r i (Interrupting t))) as Hs by (left; by apply c_raised).
        eexists. split; [by apply rtc_once|]. split; [by eapply good_own|right; by eexists].
      + assert (own_step (mkState t (Finished o) h r i Waiting) (mkState t (Finished o) h r i (Returned o t))) as Hs by (left; apply c_result; by destruct o).
        eexists. split; [by apply rtc_once|]. split; [by eapply good_own|left; by do 2 eexists].
    - pose proof Hg as (_ & _ & Hm & _). cbn in Hm.
      assert (own_step (mkState t w h r i Waiting) (mkState timeout w h r i Waiting)) as Hs1.
      { right. replace timeout with (t + (timeout - t)) at 1 by lia. apply tick_waiting; lia. }
      assert (own_step (mkState timeout w h r i Waiting) (mkState timeout w h r i (Interrupting timeout))) as Hs2 by (left; by apply c_deadline).
      eexists. split; [eapply rtc_l; [exact Hs1|]; by apply rtc_once|]. split; [|right; by eexists].
      eapply good_own; [|exact Hs2]. by eapply good_own. }
  destruct H as [(v & u & H)|(since & H)]; [by exists s1, v, u|].
  destruct (leaves_interrupting s1 since Hg1 H) as (s2 & v & u & H2 & H3). exists s2, v, u. split; [by etrans|done].
Qed.

(** C17: A query never keeps its request longer than the deadline and a quarter of a second, whatever
    the worker does: from every moment the caller gets away without the worker taking a step. Before
    the deadline it leaves with the outcome of the work, which is then over and its connection
    closed; otherwise with [QueryDeadlineExceeded], and a connection opened before that moment has
    been interrupted; or, if the work ends just before it is interrupted, with what the interruption
    of a closed connection raises. *)
Theorem deadline_respected s :
  0 ≤ timeout → rtc step submitted s →
  (∃ s' v u, rtc own_step s s' ∧ mn s' = Returned v u ∧ u ≤ timeout + 250) ∧
  ∀ v u, mn s = Returned v u →
    u ≤ timeout + 250 ∧
    (wk s = Finished v ∧ u ≤ timeout ∨
     (v = Err exceeded ∧ ∀ t, holder s = Some t → t < u → interrupted s = true) ∨
     (∃ e, v = Err e ∧ closed_interrupt = Some e ∧ ∃ o, wk s = Finished o)).
Proof.
  intros Ht Hs. pose proof (good_steps s Ht Hs) as Hg. split.
  - destruct (leaves s Hg) as (s' & v & u & Hr & Hm). exists s', v, u. split_and!; [done|done|].
    assert (good s') as (_ & _ & Hg'); [|rewrite Hm in Hg'; apply Hg'].
    clear -Hg Hr. induction Hr as [|s0 s1 s' Ho _ IH]; [done|]. apply IH. by eapply good_own.
  - intros v u Hm. destruct Hg as (_ & _ & Hg). rewrite Hm in Hg. apply Hg.
Qed.

Lemma returned_step s s' v u : step s s' → mn s = Returned v u → mn s' = Returned v u ∧ interrupted s' = interrupted s.
Proof. intros [Hs|[Hs|Hs]] Hm; destruct Hs; cbn in *; try done; by simplify_eq. Qed.

(** A connection that is not open a quarter of a second after the deadline is never interrupted: the
    caller is gone, and the work goes on without any bound. *)
Theorem late_connection_not_interrupted :
  0 ≤ timeout →
  ∃ s, rtc step submitted s ∧ mn s = Returned (Err exceeded) (timeout + 250) ∧ wk s = Working ∧
       ∀ s', rtc step s s' → interrupted s' = false.
Proof.
  intros Ht. exists (mkState (timeout + 250) Working (Some (timeout + 250)) true false (Returned (Err exceeded) (timeout + 250))).
  split; [|split; [done|split; [done|]]].
  - eapply rtc_l; [left; apply w_start|].
    eapply rtc_l; [right; right; apply (tick_waiting 0 _ _ _ _ timeout); lia|]. rewrite Z.add_0_l.
    eapply rtc_l; [right; left; by apply c_deadline|].
    eapply rtc_l; [right; right; apply (tick_interrupting _ _ _ _ _ timeout 250); lia|].
    eapply rtc_l; [right; left; apply c_interrupt; right; lia|]. cbn.
    eapply rtc_l; [left; apply w_open|]. apply rtc_once. left. apply w_ready.
  - intros s' Hr. remember (mkState (timeout + 250) Working (Some (timeout + 250)) true false (Returned (Err exceeded) (timeout + 250))) as s eqn:Es.
    assert (mn s = Returned (Err exceeded) (timeout + 250) ∧ interrupted s = false) as [Hm Hi] by by subst s.
    clear Es. induction Hr as [s|s s1 s2 Hs _ IH]; [done|]. destruct (returned_step _ _ _ _ Hs Hm) as [Hm1 Hi1]. apply IH; [done|congruence].
Qed.
End Deadline.

Lemma deadline_respected_witness :
  ∃ s : state (V := Z), rtc (step 1000 None) submitted s ∧ mn s = Returned (Ok 7) 10 ∧ wk s = Finished (Ok 7) ∧ 10 ≤ 1000 + 250.
Proof.
  set (s := mkState 10 (Finished (Ok 7)) (Some 10) true false (Returned (Ok 7) 10) : state (V := Z)).
  assert (rtc (step 1000 None) submitted s) as Hs.
  { eapply rtc_l; [left; apply w_start|].
    eapply rtc_l; [right; right; apply (tick_waiting 1000 0 _ _ _ _ 10); lia|].
    eapply rtc_l; [left; apply w_open|]. eapply rtc_l; [left; apply w_ready|]. eapply rtc_l; [left; apply (w_finish _ _ _ _ _ (Ok 7))|].
    apply rtc_once. right; left. by apply c_result. }
  exists s. split; [exact Hs|]. split; [reflexivity|].
  destruct (deadline_respected 1000 None s ltac:(lia) Hs) as [_ H]. destruct (H (Ok 7) 10 eq_refl) as [Hb [[Hw _]|[[? _]|(e & ? & _)]]]; [by split|done..].
Defined.
