(* ===== verification/Daemon.v ===== *)
(** * The daemon: [simulator/daemon.py] and the entry point of [simulator/scheduler.py]

    The loop that catches up once a day and retries after failures, in explicit time
    (microseconds), with the gate before it and the command lines around it. The runners are those
    of [Runs], one set for each attempt, so that a source may fail at one attempt and work at the
    next. The time zone is a parameter: the local date of an instant and the instant a local date
    begins. *)

From stdpp Require Import prelude gmap strings list relations.
From Stdlib Require Import ZArith Lia Ascii.
From S2P Require Import Prelude PyText Dates Policy Events SimState Settings Bootstrap Runs.

Open Scope Z_scope.

Definition second : Z := 1000000.

(** [min(retry_initial_seconds * 2**consecutive_failures, retry_max_seconds)] *)
Definition retry_delay (initial maximum failures : Z) : Z := Z.min (initial * 2 ^ failures) maximum.

(** Delays stay within their bounds and do not shrink from one failure to the next. *)
Lemma retry_delay_bounds initial maximum k :
  0 < initial ≤ maximum → 0 ≤ k →
  initial ≤ retry_delay initial maximum k ≤ maximum ∧
  retry_delay initial maximum k ≤ retry_delay initial maximum (k + 1).
Proof.
  intros Hi Hk. unfold retry_delay. rewrite Z.pow_add_r by lia.
  assert (1 ≤ 2 ^ k) by (pose proof (Z.pow_pos_nonneg 2 k); lia). nia.
Qed.

Definition _positive_seconds (value : Z) (name : string) : res Z :=
  if value <=? 0 then raise ValueError (name +:+ " must be greater than zero") else Ok value.

Definition _parse_date (value : string) : res date :=
  match fromisoformat value with Some d => Ok d | None => raise ArgumentTypeError "dates must be YYYY-MM-DD" end.

(** One pass through the loop: when it began, when the run ended and how, and the sleep after it. *)
Record attempt_log := mkAttempt { at_start : Z; at_end : Z; at_result : res (list date); at_sleep : Z }.

Record options := mkOptions {
  baseline : option string; once : bool; bootstrap_retry_seconds : Z; retry_initial_seconds : Z; retry_max_seconds : Z }.

Section Daemon.
Context {S : Type} (sim : S → sim_state) (set_sim_of : sim_state → S → S).
Context (set_sim_get : ∀ s, set_sim_of (sim s) s = s).
(** The runners at each attempt, and how long the attempt takes. *)
Context (crm_run ops_run erp_run : nat → DailySourceRun S sim) (duration : nat → Z).
(** The time zone of the policy. *)
Context (local_date : Z → date) (midnight : date → Z).
Context (seed : Z) (seed_directory : string).

Definition run_at (k : nat) (through : date) : io S (list date) :=
  run_through sim set_sim_of (crm_run k) (ops_run k) (erp_run k) through seed.

Definition seconds_until_next_midnight (now : Z) : Z := Z.max second (midnight (local_date now + 1) - now).

(** The clock, [consecutive_failures], the state and the attempts so far, the latest first. *)
Record daemon := mkDaemon { clock : Z; consecutive_failures : Z; world : S; attempts : list attempt_log }.

(** The body of the loop. *)
Definition attempt (initial maximum : Z) (k : nat) (d : daemon) : daemon :=
  let current := clock d in
  let '(s, r) := run_at k (local_date current) (world d) in
  let ended := current + duration k in
  match r with
  | Err e =>
    let delay := retry_delay initial maximum (consecutive_failures d) * second in
    mkDaemon (ended + delay) (consecutive_failures d + 1) s (mkAttempt current ended (Err e) delay :: attempts d)
  | Ok completed =>
    let delay := seconds_until_next_midnight current in
    mkDaemon (ended + delay) 0 s (mkAttempt current ended (Ok completed) delay :: attempts d)
  end.

(** The loop, cut off after [n] attempts. *)
Fixpoint loop (initial maximum : Z) (n : nat) (d : daemon) : daemon :=
  match n with
  | O => d
  | Datatypes.S n => attempt initial maximum n (loop initial maximum n d)
  end.

Definition run_forever (initial maximum : Z) (n : nat) (start : Z) (s : S) : res daemon :=
  let! _ := _positive_seconds initial "SIMULATION_RETRY_INITIAL_SECONDS" in
  let! _ := _positive_seconds maximum "SIMULATION_RETRY_MAX_SECONDS" in
  if maximum <? initial then raise ValueError "SIMULATION_RETRY_MAX_SECONDS cannot be below the initial retry delay"
  else Ok (loop initial maximum n (mkDaemon start 0 s [])).

(** [daemon.main]; [None] while the gate is closed. The baseline is ready at [start]. *)
Inductive outcome := Once (completed : list date) | Forever (d : daemon).
Definition main (o : options) (views : nat → sources) (fuel n : nat) (start : Z) : io S (option outcome) :=
  match baseline o with
  | None | Some EmptyString => io_raise SystemExit "SIMULATION_BASELINE_DATE or --baseline is required"
  | Some text =>
    let* gate := io_lift (wait_for_source_bootstrap seed_directory (bootstrap_retry_seconds o) views fuel) in
    match gate with
    | None => io_ret None
    | Some _ =>
      let* b := io_lift (_parse_date text) in
      let* _ := on_state sim set_sim_of (initialize b) in
      if once o then let* completed := run_at 0 (local_date start) in io_ret (Some (Once completed))
      else λ s, match run_forever (retry_initial_seconds o) (retry_max_seconds o) n start s with
                | Ok d => (world d, Ok (Some (Forever d)))
                | Err e => (s, Err e)
                end
    end
  end.

(** [scheduler.main]: argparse converts a string default like an argument, and exits when it cannot. *)
Definition date_argument (name : string) (value : option string) : res (option date) :=
  match value with
  | None => Ok None
  | Some text => match _parse_date text with
                 | Ok d => Ok (Some d)
                 | Err e => raise SystemExit ("argument " +:+ name +:+ ": " +:+ exn_msg e)
                 end
  end.
Definition scheduler_main (baseline_ through_ : option string) (view : sources) (now : Z) : io S string :=
  let* through := io_lift (date_argument "--through" through_) in
  let* baseline := io_lift (date_argument "--baseline" baseline_) in
  match baseline with
  | None => io_raise SystemExit "--baseline or SIMULATION_BASELINE_DATE is required for first initialization"
  | Some b =>
    let through_date := default (local_date now) through in
    let report := check seed_directory view in
    let* _ := raise_if (negb (rp_ready report)) RuntimeError ("source baseline is not ready: " +:+ message report) in
    let* _ := on_state sim set_sim_of (initialize b) in
    let* completed := run_at 0 through_date in
    io_ret ("completed " +:+ str_of_Z (Z.of_nat (length completed)) +:+ " simulation date(s) through " +:+ isoformat through_date)
  end.

(** ** Keeping up *)

Section Progress.
Context (Hlocal : ∀ t d, midnight d ≤ t ↔ d ≤ local_date t) (Hduration : ∀ k, 0 ≤ duration k).
Context (initial maximum : Z) (Hdelays : 0 < initial ≤ maximum).

Definition succeeded (a : attempt_log) : bool := is_ok (at_result a).
Definition successes (l : list attempt_log) : Z := Z.of_nat (length (filter (λ a, succeeded a = true) l)).

Lemma local_mono t t' : t ≤ t' → local_date t ≤ local_date t'.
Proof. intros H. apply Hlocal. etrans; [|exact H]. by apply Hlocal. Qed.

Lemma next_midnight t : t < midnight (local_date t + 1).
Proof. destruct (Z.lt_ge_cases t (midnight (local_date t + 1))) as [|H]; [done|]. apply Hlocal in H. lia. Qed.

(** What follows an attempt: after a failure a pause within the bounds; after a success the next
    attempt begins on a later date, late by the time the run took. *)
Definition followed_by (a : attempt_log) (next : Z) : Prop :=
  at_start a ≤ at_end a ∧ next = at_end a + at_sleep a ∧
  if succeeded a then
    local_date (at_start a) < local_date next ∧
    next = Z.max (midnight (local_date (at_start a) + 1)) (at_start a + second) + (at_end a - at_start a)
  else initial * second ≤ at_sleep a ≤ maximum * second.

Fixpoint chained (next : Z) (l : list attempt_log) : Prop :=
  match l with [] => True | a :: l => followed_by a next ∧ chained (at_start a) l end.

Record progress (b w0 start : Z) (d : daemon) (w : date) : Prop := {
  pr_inv : sim_inv b w (sim (world d));
  pr_watermark : w0 ≤ w;
  pr_failures : 0 ≤ consecutive_failures d;
  pr_chained : chained (clock d) (attempts d);
  pr_clock : local_date start + successes (attempts d) ≤ local_date (clock d);
  pr_done : Forall (λ a, succeeded a = true → local_date (at_start a) ≤ w) (attempts d);
  pr_count : 0 < successes (attempts d) → local_date start + successes (attempts d) - 1 ≤ w;
  pr_bound : w ≤ Z.max w0 (local_date (clock d)) }.

Lemma progress_attempt b w0 start k d w :
  progress b w0 start d w → ∃ w', progress b w0 start (attempt initial maximum k d) w'.
Proof.
  intros [Hinv Hw Hf Hc Hclock Hdone Hcount Hbound]. unfold attempt, run_at.
  pose proof (run_through_inv sim set_sim_of set_sim_get (crm_run k) (ops_run k) (erp_run k) b w (local_date (clock d)) seed (world d) Hinv) as Hrun.
  pose proof (Hduration k) as Hk. pose proof (next_midnight (clock d)) as Hm.
  destruct (run_through _ _ _ _ _ _ _ _) as [s [ds|e]]; destruct Hrun as (w' & Hinv' & Hww & Hr); exists w'.
  - destruct Hr as [_ ->]. set (next := clock d + duration k + seconds_until_next_midnight (clock d)).
    assert (next = Z.max (midnight (local_date (clock d) + 1)) (clock d + second) + duration k) as Hnext by (unfold next, seconds_until_next_midnight; lia).
    assert (local_date (clock d) < local_date next) as Hlt.
    { apply Z.le_succ_l, Hlocal. unfold Z.succ. lia. }
    assert (successes (mkAttempt (clock d) (clock d + duration k) (Ok ds) (seconds_until_next_midnight (clock d)) :: attempts d) = successes (attempts d) + 1) as Hs.
    { unfold successes. rewrite filter_cons_True by done. cbn [length]. lia. }
    split; cbn [clock consecutive_failures world attempts]; fold next; rewrite ?Hs.
    + done.
    + lia.
    + lia.
    + cbn [chained at_start]. split; [|done]. unfold followed_by. cbn. split_and!; [lia|done|done|lia].
    + lia.
    + constructor; [cbn; lia|]. eapply Forall_impl; [exact Hdone|]. cbn. intros a Ha Hsa. specialize (Ha Hsa). lia.
    + intros _. lia.
    + lia.
  - set (delay := retry_delay initial maximum (consecutive_failures d) * second).
    pose proof (retry_delay_bounds initial maximum (consecutive_failures d) Hdelays Hf) as [Hb _].
    assert (initial * second ≤ delay ≤ maximum * second) as Hdelay by (unfold delay, second; lia).
    assert (0 ≤ delay) as Hd0 by (unfold second in *; lia).
    assert (successes (mkAttempt (clock d) (clock d + duration k) (Err e) delay :: attempts d) = successes (attempts d)) as Hs.
    { unfold successes. by rewrite filter_cons_False. }
    pose proof (local_mono (clock d) (clock d + duration k + delay) ltac:(lia)) as Hle.
    split; cbn [clock consecutive_failures world attempts]; rewrite ?Hs.
    + done.
    + lia.
    + lia.
    + cbn [chained at_start]. split; [|done]. unfold followed_by. cbn. split_and!; [lia|done|lia..].
    + lia.
    + constructor; [done|]. eapply Forall_impl; [exact Hdone|]. cbn. intros a Ha Hsa. specialize (Ha Hsa). lia.
    + intros Hpos. specialize (Hcount Hpos). lia.
    + lia.
Qed.

Lemma progress_loop b w0 start n d w :
  progress b w0 start d w → ∃ w', progress b w0 start (loop initial maximum n d) w'.
Proof.
  intros H. induction n as [|n [w1 IH]]; cbn [loop]; [by exists w|]. by apply (progress_attempt b w0 start n _ w1).
Qed.

Lemma loop_length n d : length (attempts (loop initial maximum n d)) = (n + length (attempts d))%nat.
Proof.
  induction n as [|n IH]; cbn [loop]; [done|]. unfold attempt. destruct (run_at _ _ _) as [s [ds|e]]; cbn; by rewrite IH.
Qed.
End Progress.

(** C15: The daemon keeps up, whichever attempts fail and however long they take. The watermark never
    goes back nor past the local date. Once an attempt succeeded, every date up to the local date on
    which it began is completed, and each further success is on a later date, so that [k] successes
    complete at least [k - 1] dates beyond the one of the start. After a failure the next attempt
    waits between the initial and the maximum delay; after a success it begins at the next midnight,
    later by the time the run took. *)
Theorem daemon_keeps_up b initial maximum n start s d :
  (∀ t d, midnight d ≤ t ↔ d ≤ local_date t) → (∀ k, 0 ≤ duration k) → 1 ≤ b ≤ date_max →
  rtc sim_step (initialize b empty_sim).1 (sim s) → run_forever initial maximum n start s = Ok d →
  ∃ w0 w, last_completed_date (sim s) = (sim s, Ok w0) ∧ last_completed_date (sim (world d)) = (sim (world d), Ok w) ∧
    w0 ≤ w ≤ Z.max w0 (local_date (clock d)) ∧
    length (attempts d) = n ∧ chained initial maximum (clock d) (attempts d) ∧
    Forall (λ a, succeeded a = true → local_date (at_start a) ≤ w) (attempts d) ∧
    (0 < successes (attempts d) → local_date start + successes (attempts d) - 1 ≤ w).
Proof.
  intros Hlocal Hduration Hb Hr E. destruct (sim_reach_inv b b _ _ (initialize_inv b Hb) Hr) as (w0 & Hw & Hinv).
  assert (∀ w s, sim_inv b w s → last_completed_date s = (s, Ok w)) as Hlast.
  { intros w1 s1 H1. unfold last_completed_date, io_bind, io_get, io_lift. by rewrite (read_date_inv b w1). }
  unfold run_forever, _positive_seconds in E. destruct (Z.leb_spec initial 0); [done|]. cbn [res_bind] in E.
  destruct (Z.leb_spec maximum 0); [done|]. cbn [res_bind] in E. destruct (Z.ltb_spec maximum initial); [done|]. injection E as <-.
  assert (progress initial maximum b w0 start (mkDaemon start 0 s []) w0) as Hstart.
  { split; cbn; try done; unfold successes; cbn; lia. }
  destruct (progress_loop Hlocal Hduration initial maximum ltac:(lia) b w0 start n _ w0 Hstart) as [w [Hi ? _ Hc _ Hd Hn Hbound]].
  exists w0, w. split_and!; [by apply Hlast|by apply Hlast|done|done| |done|done|done].
  rewrite loop_length. cbn. lia.
Qed.

(** Nothing is touched before the gate opens. *)
Lemma main_waits o views fuel n start s :
  (∀ j, (j < fuel)%nat → ¬ baseline_ready (views j)) → (main o views fuel n start s).1 = s.
Proof.
  intros Hno. unfold main. destruct (baseline o) as [[|c text]|]; [done| |done].
  unfold io_bind at 1, io_lift, wait_for_source_bootstrap. destruct (bootstrap_retry_seconds o <=? 0); [done|].
  pose proof (wait_loop_spec seed_directory (bootstrap_retry_seconds o) views fuel 0) as H.
  destruct (wait_loop _ _ _ _ _) as [log|]; [|done]. destruct H as (k & Hk & Hready & _). by apply Hno in Hready.
Qed.

(** A restart finds its state as it was. *)
Lemma initialize_again b w s : sim_inv b w (sim s) → on_state sim set_sim_of (initialize b) s = (s, Ok tt).
Proof.
  intros H. unfold on_state, io_zoom, initialize, io_bind, io_get, io_ret.
  rewrite (inv_watermark _ _ _ H), (inv_baseline _ _ _ H), bool_decide_eq_true_2 by done. cbn. by rewrite set_sim_get.
Qed.
End Daemon.

(** ** Examples *)

Definition day_length : Z := 86400 * second.
Definition utc_date (t : Z) : date := t / day_length.
Definition utc_midnight (d : date) : Z := d * day_length.

Lemma utc_midnight_date t d : utc_midnight d ≤ t ↔ d ≤ utc_date t.
Proof. unfold utc_midnight, utc_date, day_length, second. split; intros H; [apply Z.div_le_lower_bound; lia|]. pose proof (Z.mul_div_le t (86400 * 1000000)). nia. Qed.

(** Finance is down at the first attempt; every run takes an hour. *)
Definition example_erp (k : nat) : DailySourceRun Runs.world w_sim :=
  match k with O => idle_daily | _ => erp_daily (λ _ _, Ok []) default_policy end.
Definition hour (k : nat) : Z := 3600 * second.
Definition example_start : Z := utc_midnight 738887 + second.

Definition example_daemon : res (daemon (S := Runs.world)) :=
  run_forever w_sim set_sim (λ _, idle_daily) (λ _, ops_daily default_policy) example_erp hour utc_date utc_midnight 42 60 3600 3 example_start witness_world.

Definition daemon_summary (r : res (daemon (S := Runs.world))) : option (list (Z * Z * bool)) :=
  match r with Ok d => Some ((λ a, (utc_date (at_start a), at_start a - utc_midnight (utc_date (at_start a)), succeeded a)) <$> attempts d) | Err _ => None end.

(** The failed attempt is repeated after an hour and a minute; the run of the next day begins an
    hour after midnight, although every date was completed before. *)
Example example_attempts : daemon_summary example_daemon =
  Some [(738888, 3600 * second, true); (738887, 3661 * second, true); (738887, second, false)].
Proof. vm_compute. reflexivity. Qed.

Lemma example_successes : match example_daemon with Ok d => Some (successes (attempts d)) | Err _ => None end = Some 2.
Proof. vm_compute. reflexivity. Qed.

Lemma daemon_keeps_up_witness :
  ∃ d w, example_daemon = Ok d ∧ last_completed_date (w_sim (world d)) = (w_sim (world d), Ok w) ∧
         738888 ≤ w ∧ length (attempts d) = 3%nat ∧ chained utc_date utc_midnight 60 3600 (clock d) (attempts d).
Proof.
  destruct example_daemon as [d|e] eqn:E; [|exfalso; revert E; vm_compute; discriminate].
  destruct (daemon_keeps_up w_sim set_sim ltac:(by intros []) (λ _, idle_daily) (λ _, ops_daily default_policy) example_erp hour utc_date utc_midnight 42
    738886 60 3600 3 example_start witness_world d utc_midnight_date) as (w0 & w & _ & Hw & _ & Hn & Hc & _ & Hcount).
  - intros k. vm_compute. discriminate.
  - vm_compute. split; discriminate.
  - reflexivity.
  - exact E.
  - exists d, w. split; [done|]. split; [exact Hw|]. split; [|split; [exact Hn|exact Hc]].
    assert (successes (attempts d) = 2) as Hs.
    { pose proof example_successes as Ha. rewrite E in Ha. by injection Ha. }
    rewrite Hs in Hcount. assert (utc_date example_start = 738887) as Hd by (vm_compute; reflexivity). rewrite Hd in Hcount. lia.
Defined.
