(* ===== verification/Artifacts.v ===== *)
(** * Directories of jobs: [fakeforce/bulk/results.py], [fakeforce/bulk/ingest.py]

    Where the artifacts of a bulk job lie and how they are deleted, on the file system of [Files]:
    whatever the job is called, nothing outside of the configured root is touched. *)

From stdpp Require Import prelude gmap strings list.
From Stdlib Require Import ZArith Lia Ascii.
From S2P Require Import Prelude PyText Files.

Open Scope Z_scope.

(** [root / text] *)
Definition joinpath (root : path) (text : string) : path := if is_absolute text then parts text else root ++ parts text.

(** [root in p.parents] *)
Definition inside (root p : path) : bool := is_prefix root p && negb (bool_decide (p = root)).

(** [shutil.rmtree(p)] *)
Definition rmtree (p : path) (f : fs) : fs :=
  let t := fs_now f + 1 in
  mkFs (touch t (parent p) (filter (λ kv, is_prefix p kv.1 = false) (fs_nodes f))) t.

Section Artifacts.
(** The configured root, resolved. *)
Context (root : path).

(** [BulkQueryResultStore.remove_job] *)
Definition remove_results (job_id : string) : io fs unit :=
  let target := resolve (joinpath root job_id) in
  if negb (inside root target) then io_raise ValueError "bulk job artifact path escapes configured root"
  else λ f, if is_dir f target then (rmtree target f, Ok tt) else (f, Ok tt).

(** [IngestUploadStore.path_for] and [remove_job] *)
Definition path_for (job_id : string) : res path :=
  let p := resolve (joinpath root job_id ++ ["input.csv"]) in
  if inside root p then Ok p else raise ValueError "bulk ingest artifact path escapes configured root".
Definition remove_upload (job_id : string) : io fs unit :=
  let* p := io_lift (path_for job_id) in
  λ f, if is_dir f (parent p) then (rmtree (parent p) f, Ok tt) else (f, Ok tt).

(** ** Theorems *)

Lemma rmtree_outside p f q : p ≠ [] → is_prefix p q = false → q ≠ parent p → fs_nodes (rmtree p f) !! q = fs_nodes f !! q.
Proof.
  intros Hp Hq Hne. cbn. unfold touch. rewrite lookup_alter_ne by done.
  destruct (fs_nodes f !! q) as [i|] eqn:E; [by apply map_lookup_filter_Some|]. apply map_lookup_filter_None. by left.
Qed.

Lemma inside_spec p : inside root p = true ↔ ∃ n r, p = root ++ n :: r.
Proof.
  unfold inside. rewrite andb_true_iff, negb_true_iff, bool_decide_eq_false, is_prefix_spec. split.
  - intros [[r ->] Hne]. destruct r as [|n r]; [by rewrite app_nil_r in Hne|by exists n, r].
  - intros (n & r & ->). split; [by exists (n :: r)|]. intros E. rewrite <- (app_nil_r root) in E at 2. by apply app_inv_head in E.
Qed.

Lemma prefix_inside p q : inside root p = true → is_prefix root q = false → is_prefix p q = false ∧ q ≠ parent p ∧ p ≠ [].
Proof.
  intros (n & r & ->)%inside_spec Hq. assert (∀ l, q ≠ root ++ l) as Hout.
  { intros l ->. assert (is_prefix root (root ++ l) = true) as E by (apply is_prefix_spec; by exists l). congruence. }
  split_and!.
  - apply not_true_iff_false. intros [l ->]%is_prefix_spec. rewrite <- app_assoc in Hout. by apply (Hout ((n :: r) ++ l)).
  - unfold parent. rewrite removelast_app by done. apply Hout.
  - by destruct root.
Qed.

(** Whatever a job is called - an absolute path, a path with [..] - deleting its results changes
    nothing outside of the root and leaves the root itself; a name that leads elsewhere is refused. *)
Theorem remove_results_confined job_id f :
  let '(f', r) := remove_results job_id f in
  (∀ q, is_prefix root q = false → fs_nodes f' !! q = fs_nodes f !! q) ∧
  (is_Some (fs_nodes f !! root) → is_Some (fs_nodes f' !! root)) ∧
  (r = Ok tt ↔ inside root (resolve (joinpath root job_id)) = true).
Proof.
  unfold remove_results. destruct (inside root (resolve (joinpath root job_id))) eqn:Hin; cbn [negb]; [|by split_and!].
  destruct (is_dir f _); [|by split_and!]. set (target := resolve (joinpath root job_id)) in *. split_and!; [| |done].
  - intros q Hq. destruct (prefix_inside target q Hin Hq) as (H1 & H2 & H3). by apply rmtree_outside.
  - intros [i Hi]. cbn. unfold touch. rewrite lookup_alter_is_Some. exists i. apply map_lookup_filter_Some. split; [done|]. cbn.
    apply inside_spec in Hin as (n & r & ->). apply not_true_iff_false. intros [l E]%is_prefix_spec.
    rewrite <- app_assoc in E. rewrite <- (app_nil_r root) in E at 1. by apply app_inv_head in E.
Qed.

(** The directory of an upload is the one named after the job. *)
Theorem remove_upload_confined job_id f :
  parts job_id = [job_id] → is_absolute job_id = false → ordinary job_id → Forall ordinary root →
  path_for job_id = Ok (root ++ [job_id; "input.csv"]) ∧
  ∀ q, is_prefix (root ++ [job_id]) q = false → q ≠ root → fs_nodes (remove_upload job_id f).1 !! q = fs_nodes f !! q.
Proof.
  intros Hparts Habs Hord Hroot.
  assert (resolve (joinpath root job_id ++ ["input.csv"]) = root ++ [job_id; "input.csv"]) as E.
  { unfold joinpath. rewrite Habs, Hparts, <- app_assoc. apply resolve_ordinary. apply Forall_app. split; [done|]. by repeat constructor. }
  assert (path_for job_id = Ok (root ++ [job_id; "input.csv"])) as Hp.
  { unfold path_for. rewrite E. assert (inside root (root ++ [job_id; "input.csv"]) = true) as -> by (apply inside_spec; by do 2 eexists). done. }
  split; [done|]. intros q Hq Hne. unfold remove_upload, io_bind, io_lift. rewrite Hp.
  assert (parent (root ++ [job_id; "input.csv"]) = root ++ [job_id]) as ->.
  { change [job_id; "input.csv"] with ([job_id] ++ ["input.csv"]). rewrite app_assoc. unfold parent. apply removelast_last. }
  destruct (is_dir f (root ++ [job_id])); [|done]. cbn [fst]. apply rmtree_outside; [by destruct root|done|].
  unfold parent. by rewrite removelast_last.
Qed.
End Artifacts.

Example escaping_job : (remove_results ["state"; "bulk"] "../../seed" (mkFs ∅ 0)).2 = raise ValueError "bulk job artifact path escapes configured root".
Proof. vm_compute. reflexivity. Qed.
