(* ===== verification/Engine.v ===== *)
(** * Sessions and mutable tables: [fakeforce/engine.py]

    [Catalog] has the SQL text of the views. This file has what the engine does with it: the session
    it opens for every use - configured, with the views that are asked for, closed in any case - as a
    log of what reaches DuckDB, and the tables of the mutable objects in the persistent database,
    statement by statement. What DuckDB answers is a parameter. *)

From stdpp Require Import prelude gmap strings list.
From Stdlib Require Import ZArith Lia Ascii.
From S2P Require Import Prelude PyText Soql Catalog Files Sources Settings.

Open Scope Z_scope.

(** ** Sessions *)

(** What reaches DuckDB. *)
Inductive call :=
| Opened (database : string)
| Executed (sql : string) (parameters : list string)
| Registered (name : string)
| Unregistered (name : string)
| Closed.

Section Session.
(** The answer to opening a database and to a statement; the free bytes beside the spill directory. *)
Context (connect : string → res unit) (execute : string → list string → res unit) (free : Z).
Context (settings : Settings) (catalog : DatasetCatalog) (roots : list path).

Definition log := list call.
Definition record (c : call) : io log unit := io_modify (λ l, l ++ [c]).
Definition exec (sql : string) (parameters : list string) : io log unit :=
  record (Executed sql parameters) ;;; io_lift (execute sql parameters).

Definition configure_connection : io log unit :=
  exec "SET memory_limit = ?" [memory_limit settings] ;;;
  exec "SET temp_directory = ?" [temp_directory settings] ;;;
  exec "SET max_temp_directory_size = ?" [max_temp_size settings] ;;;
  exec "SET threads = ?" [str_of_Z (heavy_query_workers settings)].

(** The files of an object as the SQL names them. *)
Definition view_query (f : fs) (spec : DatasetSpec) : res string :=
  let! current := _resolve_sources f (source_of roots spec) in
  _latest_version_sql spec (path_str <$> current) (path_str <$> effective_base f (source_of roots spec)).

Definition mutable_table (spec : DatasetSpec) : string := "ff_mutable_" +:+ object_name spec.

Definition _create_parquet_or_csv_view (f : fs) (spec : DatasetSpec) : io log unit :=
  let* relation := io_lift (relation_name catalog (object_name spec)) in
  let* query := io_lift (view_query f spec) in
  exec ("CREATE OR REPLACE VIEW " +:+ _quote_identifier relation +:+ " AS " +:+ query) [].

Definition _create_computed_view (spec : DatasetSpec) : io log unit :=
  raise_if (bool_decide (computed_table spec = None)) AssertionError "" ;;;
  let register_name := "__fakeforce_computed_" +:+ object_name spec in
  record (Registered register_name) ;;;
  let* relation := io_lift (relation_name catalog (object_name spec)) in
  exec ("CREATE OR REPLACE TABLE " +:+ _quote_identifier relation +:+ " AS SELECT * FROM " +:+ _quote_identifier register_name) [] ;;;
  record (Unregistered register_name).

Definition create_view (f : fs) (name : string) : io log unit :=
  match get catalog name with
  | None => io_raise KeyError ("unknown configured object: " +:+ name)
  | Some spec =>
    if String.eqb (mode spec) "read_only" then _create_parquet_or_csv_view f spec
    else if String.eqb (mode spec) "computed" then _create_computed_view spec
    else
      let* relation := io_lift (relation_name catalog (object_name spec)) in
      exec ("CREATE OR REPLACE VIEW " +:+ _quote_identifier relation +:+ " AS SELECT * FROM " +:+ _quote_identifier (mutable_table spec)) []
  end.

Definition _create_read_only_views (f : fs) (objects : option (list string)) : io log unit :=
  io_iter (create_view f) (default (object_names catalog) objects).

(** [with connection(...) as conn: body] *)
Definition connection {A} (f : fs) (mutable_database_path database_path : option string) (create_source_views : bool)
    (objects : option (list string)) (body : io log A) : io log A :=
  raise_if (free <? disk_reserve_bytes settings) InsufficientDiskSpaceError
    ("insufficient free disk space in " +:+ temp_directory settings +:+ ": " +:+ str_of_Z free +:+ " bytes available, "
     +:+ str_of_Z (disk_reserve_bytes settings) +:+ " bytes reserved, 0 bytes requested") ;;;
  let path := default (default ":memory:" mutable_database_path) database_path in
  io_lift (connect path) ;;;
  record (Opened path) ;;;
  λ l, let '(l, r) := (configure_connection ;;;
                       (if create_source_views then _create_read_only_views f objects else io_ret tt) ;;;
                       body) l in
       (l ++ [Closed], r).

(** A computation that leaves the sessions alone only adds statements to the log. *)
Definition statement (c : call) : Prop := match c with Opened _ | Closed => False | _ => True end.
Definition quiet {A} (m : io log A) : Prop := ∀ l, ∃ l', (m l).1 = l ++ l' ∧ Forall statement l'.

Lemma quiet_ret {A} (a : A) : quiet (io_ret a).
Proof. intros l. exists []. by rewrite app_nil_r. Qed.
Lemma quiet_lift {A} (r : res A) : quiet (io_lift r).
Proof. intros l. exists []. by rewrite app_nil_r. Qed.
Lemma quiet_record c : statement c → quiet (record c).
Proof. intros Hc l. exists [c]. split; [done|]. by constructor. Qed.
Lemma quiet_bind {A B} (m : io log A) (k : A → io log B) : quiet m → (∀ a, quiet (k a)) → quiet (io_bind m k).
Proof.
  intros Hm Hk l. destruct (Hm l) as (l1 & E1 & H1). unfold io_bind. destruct (m l) as [l' [a|e]]; cbn in *; subst l'; [|by exists l1].
  destruct (Hk a (l ++ l1)) as (l2 & E2 & H2). exists (l1 ++ l2). rewrite E2, app_assoc. split; [done|]. by apply Forall_app.
Qed.
Lemma quiet_iter {A} (f : A → io log unit) xs : (∀ x, quiet (f x)) → quiet (io_iter f xs).
Proof. intros Hf. unfold io_iter. generalize tt. induction xs as [|x xs IH]; intros []; cbn [io_fold]; [apply quiet_ret|apply quiet_bind; [apply Hf|done]]. Qed.
Lemma quiet_raise_if b c msg : quiet (raise_if b c msg).
Proof. destruct b; [apply quiet_lift|apply quiet_ret]. Qed.
Lemma quiet_exec sql ps : quiet (exec sql ps).
Proof. apply quiet_bind; [by apply quiet_record|intros _; apply quiet_lift]. Qed.

Lemma quiet_create_view f name : quiet (create_view f name).
Proof.
  unfold create_view. destruct (get catalog name) as [spec|]; [|apply quiet_lift].
  destruct (_ =? _)%string; [|destruct (_ =? _)%string].
  - repeat (apply quiet_bind; [apply quiet_lift|intros ?]). apply quiet_exec.
  - apply quiet_bind; [apply quiet_raise_if|intros _]. apply quiet_bind; [by apply quiet_record|intros _].
    apply quiet_bind; [apply quiet_lift|intros relation]. apply quiet_bind; [apply quiet_exec|intros _]. by apply quiet_record.
  - apply quiet_bind; [apply quiet_lift|intros relation]. apply quiet_exec.
Qed.

(** Every session the engine opens is closed, once and last, whatever fails in between: the
    configuration, a view, the resolution of its files, or the work itself. A session is opened on the
    database that is asked for, else on the persistent one, else in memory; when the disk reserve is
    short or DuckDB cannot open it, nothing was sent. *)
Theorem connection_closes {A} f mutable_database_path database_path create_source_views objects (body : io log A) l :
  quiet body →
  let '(l', r) := connection f mutable_database_path database_path create_source_views objects body l in
  let path := default (default ":memory:" mutable_database_path) database_path in
  (l' = l ∧ is_ok r = false ∧ (free < disk_reserve_bytes settings ∨ is_ok (connect path) = false)) ∨
  (∃ statements, l' = l ++ Opened path :: statements ++ [Closed] ∧ Forall statement statements).
Proof.
  intros Hbody. set (path := default (default ":memory:" mutable_database_path) database_path).
  unfold connection. fold path. unfold io_bind at 1, raise_if at 1.
  destruct (Z.ltb_spec free (disk_reserve_bytes settings)) as [Hfree|_]; [left; by split_and!; [| |left]|].
  unfold io_ret at 1. unfold io_bind at 1, io_lift at 1. destruct (connect path) as [[]|e] eqn:Ec; [|left; by split_and!; [| |right]].
  rewrite (io_bind_run _ _ l (l ++ [Opened path]) tt) by done.
  set (m := configure_connection ;;; (if create_source_views then _create_read_only_views f objects else io_ret tt) ;;; body).
  assert (quiet m) as Hq.
  { apply quiet_bind; [do 3 (apply quiet_bind; [apply quiet_exec|intros _]); apply quiet_exec|intros _].
    apply quiet_bind; [|by intros _]. destruct create_source_views; [apply quiet_iter, quiet_create_view|apply quiet_ret]. }
  destruct (Hq (l ++ [Opened path])) as (l1 & E1 & H1). destruct (m (l ++ [Opened path])) as [l' r]. cbn in E1. subst l'. right.
  exists l1. split; [|done]. by rewrite <- !app_assoc.
Qed.
End Session.

(** ** Mutable tables *)

Section Mutable.
(** A row with its value in a column ([None] for NULL, which a unique index ignores); what DuckDB reads from a reader of the given text. *)
Context {R V : Type} `{EqDecision V} (field : string → R → option V) (read : string → res (list R)).
Context (files : DatasetSpec → res (list string)) (catalog : DatasetCatalog).

(** The tables and unique indexes of the persistent database. *)
Record mutable_db := mkDb { md_tables : gmap string (list R); md_indexes : gset string }.

(** [CREATE TABLE IF NOT EXISTS ... AS SELECT * FROM ...] and [CREATE UNIQUE INDEX IF NOT EXISTS]:
    each commits on its own. *)
Definition create_table_as (table reader : string) : io mutable_db unit := λ db,
  match md_tables db !! table with
  | Some _ => (db, Ok tt)
  | None => match read reader with
            | Ok rows => (mkDb (<[table := rows]> (md_tables db)) (md_indexes db), Ok tt)
            | Err e => (db, Err e)
            end
  end.
Definition create_unique_index (index table column : string) : io mutable_db unit := λ db,
  if bool_decide (index ∈ md_indexes db) then (db, Ok tt)
  else if bool_decide (NoDup (omap (field column) (default [] (md_tables db !! table))))
  then (mkDb (md_tables db) ({[index]} ∪ md_indexes db), Ok tt)
  else (db, raise IntegrityError "Data contains duplicates on indexed column(s)").

Definition index_name (spec : DatasetSpec) : string := "ff_mutable_" +:+ object_name spec +:+ "_" +:+ id_field spec +:+ "_unique".

Definition initialize_object (name : string) : io mutable_db unit :=
  match get catalog name with
  | None => io_raise AssertionError ""
  | Some spec =>
    if negb (String.eqb (mode spec) "mutable") then io_ret tt
    else
      let* paths := io_lift (files spec) in
      let* reader := io_lift (_source_reader paths None) in
      create_table_as (mutable_table spec) reader ;;;
      create_unique_index (index_name spec) (mutable_table spec) (id_field spec)
  end.
Definition initialize_mutable_tables : io mutable_db unit := io_iter initialize_object (object_names catalog).

(** The table of an object exists, with distinct ids that stay distinct. *)
Definition table_ready (db : mutable_db) (spec : DatasetSpec) : Prop :=
  index_name spec ∈ md_indexes db ∧ ∃ rows, md_tables db !! mutable_table spec = Some rows ∧ NoDup (omap (field (id_field spec)) rows).

Definition mutable_objects : list DatasetSpec :=
  filter (λ spec, mode spec = "mutable") (omap (get catalog) (object_names catalog)).

(** Indexes stand for distinct ids, as ingestion keeps them. *)
Definition indexes_hold (db : mutable_db) : Prop :=
  ∀ spec, spec ∈ mutable_objects → index_name spec ∈ md_indexes db → table_ready db spec.

Lemma mutable_object name spec :
  name ∈ object_names catalog → get catalog name = Some spec → mode spec = "mutable" → spec ∈ mutable_objects.
Proof. intros Hn Hg Hm. apply list_elem_of_filter. split; [done|]. apply list_elem_of_omap. by exists name. Qed.

Context (Hindexes : NoDup (index_name <$> mutable_objects)).

Lemma initialize_object_spec name db :
  name ∈ object_names catalog → indexes_hold db →
  let '(db', r) := initialize_object name db in
  indexes_hold db' ∧ md_tables db ⊆ md_tables db' ∧ md_indexes db ⊆ md_indexes db' ∧
  (r = Ok tt → (∀ spec, get catalog name = Some spec → mode spec = "mutable" → table_ready db' spec) ∧
               ∀ db2, md_tables db' ⊆ md_tables db2 → md_indexes db' ⊆ md_indexes db2 → initialize_object name db2 = (db2, Ok tt)).
Proof.
  intros Hname Hold. unfold initialize_object. destruct (get catalog name) as [spec|] eqn:Eg; [|by split_and!].
  destruct (String.eqb_spec (mode spec) "mutable") as [Hm|Hm]; cbn [negb]; [|split_and!; [done..|]; by intros _; split; [intros ? [= <-]|]].
  unfold io_bind, io_lift. destruct (files spec) as [paths|e]; [|by split_and!].
  destruct (_source_reader paths None) as [reader|e]; [|by split_and!].
  assert (∃ db1 r1, create_table_as (mutable_table spec) reader db = (db1, r1) ∧ indexes_hold db1 ∧ md_tables db ⊆ md_tables db1 ∧
    md_indexes db1 = md_indexes db ∧ (r1 = Ok tt → is_Some (md_tables db1 !! mutable_table spec))) as (db1 & r1 & E1 & Hold1 & Hsub & Hidx & Hsome).
  { unfold create_table_as. destruct (md_tables db !! mutable_table spec) as [rows|] eqn:Et; [by exists db, (Ok tt)|].
    destruct (read reader) as [rows|e]; [|by exists db, (Err e)].
    exists (mkDb (<[mutable_table spec := rows]> (md_tables db)) (md_indexes db)), (Ok tt). cbn.
    assert (md_tables db ⊆ <[mutable_table spec := rows]> (md_tables db)) as Hs by by apply insert_subseteq.
    split_and!; [done| |done|done|by rewrite lookup_insert_eq; eexists].
    intros spec' Hin Hi. destruct (Hold spec' Hin Hi) as (_ & rows' & Hr & Hnd). split; [done|]. exists rows'. split; [|done]. by eapply lookup_weaken. }
  rewrite E1. destruct r1 as [[]|e]; [|rewrite Hidx; by split_and!]. destruct (Hsome eq_refl) as [rows Hrows].
  unfold create_unique_index. rewrite Hrows. cbn [default]. 
  assert (∀ db2, md_tables db1 ⊆ md_tables db2 → index_name spec ∈ md_indexes db2 →
    create_table_as (mutable_table spec) reader db2 = (db2, Ok tt)) as Hagain.
  { intros db2 Ht _. unfold create_table_as. by rewrite (lookup_weaken _ _ _ _ Hrows Ht). }
  assert (∀ db2 spec', spec' ∈ mutable_objects → md_tables db2 = md_tables db1 → table_ready db1 spec' → md_indexes db1 ⊆ md_indexes db2 → table_ready db2 spec') as Hmono.
  { intros db2 spec' _ Ht (Hi & rows' & Hr & Hnd) Hs. split; [by apply Hs|]. exists rows'. by rewrite Ht. }
  case_bool_decide as Hin.
  - split_and!; [done|done|by rewrite Hidx|]. intros _. split.
    + intros ? [= <-] _. apply Hold1; [by eapply mutable_object|done].
    + intros db2 Ht Hi. rewrite (Hagain db2 Ht) by by apply Hi. rewrite bool_decide_eq_true_2; [done|by apply Hi].
  - case_bool_decide as Hnd; [|rewrite Hidx; by split_and!].
    assert (table_ready (mkDb (md_tables db1) ({[index_name spec]} ∪ md_indexes db1)) spec) as Hready.
    { split; [cbn; set_solver|]. by exists rows. }
    split_and!; [|done|cbn; set_solver|].
    + intros spec' Hs' Hi'. cbn in Hi'. apply elem_of_union in Hi' as [Hi'%elem_of_singleton|Hi'].
      * assert (spec' = spec) as -> by (apply (NoDup_key_inj index_name mutable_objects); [done|done|by eapply mutable_object|done]). done.
      * apply Hmono; [done|done|by apply Hold1|cbn; set_solver].
    + intros _. split; [by intros ? [= <-]|]. cbn. intros db2 Ht Hi. rewrite (Hagain db2 Ht) by set_solver. rewrite bool_decide_eq_true_2; [done|set_solver].
Qed.

Lemma initialize_objects_spec names db :
  (∀ name, name ∈ names → name ∈ object_names catalog) → indexes_hold db →
  let '(db', r) := io_iter initialize_object names db in
  indexes_hold db' ∧ md_tables db ⊆ md_tables db' ∧ md_indexes db ⊆ md_indexes db' ∧
  (r = Ok tt → (∀ name spec, name ∈ names → get catalog name = Some spec → mode spec = "mutable" → table_ready db' spec) ∧
               ∀ db2, md_tables db' ⊆ md_tables db2 → md_indexes db' ⊆ md_indexes db2 → io_iter initialize_object names db2 = (db2, Ok tt)).
Proof.
  unfold io_iter. revert db. induction names as [|name names IH]; intros db Hnames Hold; cbn [io_fold].
  - unfold io_ret. split_and!; [done..|]. intros _. split; [by intros ? ? ?%elem_of_nil|done].
  - unfold io_bind. pose proof (initialize_object_spec name db ltac:(apply Hnames; by left) Hold) as H1.
    destruct (initialize_object name db) as [db1 [[]|e]]; destruct H1 as (Hold1 & Ht1 & Hi1 & Hok1); [|by split_and!].
    specialize (IH db1 ltac:(intros; apply Hnames; by right) Hold1). destruct (io_fold _ names tt db1) as [db' r].
    destruct IH as (Hold' & Ht' & Hi' & Hok'). split_and!; [done|by etrans|by etrans|]. intros ->.
    destruct (Hok1 eq_refl) as [Hr1 Ha1]. destruct (Hok' eq_refl) as [Hr' Ha']. split.
    + intros name' spec [->|Hin]%elem_of_cons Hg Hm; [|by eapply Hr'].
      destruct (Hr1 spec Hg Hm) as (Hix & rows & Hrows & Hnd). split; [by apply Hi'|]. exists rows. split; [|done]. by eapply lookup_weaken.
    + intros db2 Ht2 Hi2. rewrite (Ha1 db2) by (by etrans). by apply Ha'.
Qed.

(** Preparing the mutable tables is restart-safe. A table that exists is kept with its rows, whatever
    the source says by then; after a run that succeeds every mutable object has its table with
    distinct ids and the index that keeps them so; running again changes nothing; and a run that
    fails half-way keeps what it made. *)
Theorem mutable_tables_ready db :
  indexes_hold db →
  let '(db', r) := initialize_mutable_tables db in
  indexes_hold db' ∧ (∀ table rows, md_tables db !! table = Some rows → md_tables db' !! table = Some rows) ∧
  (r = Ok tt → (∀ spec, spec ∈ mutable_objects → table_ready db' spec) ∧ initialize_mutable_tables db' = (db', Ok tt)).
Proof.
  intros Hold. unfold initialize_mutable_tables. pose proof (initialize_objects_spec (object_names catalog) db ltac:(done) Hold) as H.
  destruct (io_iter _ _ db) as [db' r]. destruct H as (Hold' & Ht & _ & Hok). split_and!; [done|intros table rows Hrows; by eapply lookup_weaken|].
  intros E. destruct (Hok E) as [Hr Ha]. split; [|by apply Ha].
  intros spec Hs. apply list_elem_of_filter in Hs as [Hm Hs]. apply list_elem_of_omap in Hs as (name & Hn & Hg). by eapply Hr.
Qed.
End Mutable.

(** A source with a duplicate id stops the start, and every later one: the table was made before the
    index failed, and is never read again. *)
Theorem duplicate_source_wedges {R V} `{EqDecision V} (field : string → R → option V) read files catalog db name spec paths reader rows :
  get catalog name = Some spec → mode spec = "mutable" → files spec = Ok paths → _source_reader paths None = Ok reader →
  md_tables db !! mutable_table spec = None → index_name spec ∉ md_indexes db →
  read reader = Ok rows → ¬ NoDup (omap (field (id_field spec)) rows) →
  ∃ db', (initialize_object field read files catalog name db).1 = db' ∧
         is_ok (initialize_object field read files catalog name db).2 = false ∧
         ∀ read', initialize_object field read' files catalog name db' = (db', raise IntegrityError "Data contains duplicates on indexed column(s)").
Proof.
  intros Hg Hm Hf Hr Ht Hi Hrows Hdup.
  assert (∀ read' db', md_tables db' !! mutable_table spec = Some rows → index_name spec ∉ md_indexes db' →
    initialize_object field read' files catalog name db' = (db', raise IntegrityError "Data contains duplicates on indexed column(s)")) as Hfail.
  { intros read' db' Ht' Hi'. unfold initialize_object, io_bind, io_lift, create_table_as, create_unique_index. rewrite Hg, Hm, Hf. cbn [String.eqb negb].
    cbn. rewrite Hr. rewrite Ht', bool_decide_eq_false_2 by done. rewrite Ht'. cbn. by rewrite bool_decide_eq_false_2. }
  set (db1 := mkDb (<[mutable_table spec := rows]> (md_tables db)) (md_indexes db)).
  assert (initialize_object field read files catalog name db = initialize_object field read files catalog name db1) as E.
  { unfold initialize_object, io_bind, io_lift, create_table_as. rewrite Hg, Hm, Hf. cbn. rewrite Hr, Ht, Hrows. cbn. by rewrite lookup_insert_eq. }
  exists db1. rewrite E. rewrite Hfail by (done || apply lookup_insert_eq). split_and!; [done|done|].
  intros read'. by apply Hfail; [apply lookup_insert_eq|].
Qed.

(** ** Examples *)

Definition example_mutable : DatasetSpec :=
  mkSpec "Lead" ["/seed/leads.csv"] "Id" None "mutable" [("Id", TString); ("Name", TString)] [] None [] None true true [].
Definition example_objects : DatasetCatalog := mkCatalog [("Lead", example_mutable)] [("lead", example_mutable)].
Definition lead_field (column : string) (r : string * string) : option string := Some (if String.eqb column "Id" then r.1 else r.2).
Definition lead_rows (reader : string) : res (list (string * string)) := Ok [("00Q1", "Ada"); ("00Q2", "Bo")].
Definition lead_files (spec : DatasetSpec) : res (list string) := Ok ["/seed/leads.csv"].

Lemma mutable_tables_ready_witness :
  ∃ db', initialize_mutable_tables lead_field lead_rows lead_files example_objects (mkDb ∅ ∅) = (db', Ok tt) ∧
         table_ready lead_field db' example_mutable ∧
         initialize_mutable_tables lead_field lead_rows lead_files example_objects db' = (db', Ok tt).
Proof.
  set (run := initialize_mutable_tables lead_field lead_rows lead_files example_objects (mkDb ∅ ∅)).
  assert (run.2 = Ok tt) as Hok by (vm_compute; reflexivity).
  assert (NoDup (index_name <$> mutable_objects example_objects)) as Hnd by (apply (bool_decide_eq_true_1 (NoDup _)); vm_compute; reflexivity).
  assert (indexes_hold lead_field example_objects (mkDb ∅ ∅)) as Hold by (intros spec _ Hi; cbn in Hi; set_solver).
  pose proof (mutable_tables_ready lead_field lead_rows lead_files example_objects Hnd (mkDb ∅ ∅) Hold) as H. fold run in H.
  destruct run as [db' r] eqn:E. cbn in Hok. subst r. destruct H as (_ & _ & H). destruct (H eq_refl) as [Hr Ha].
  exists db'. split; [done|]. split; [apply Hr; left|exact Ha].
Defined.

Definition example_settings : Settings :=
  mkSettings "/seed" "/catalog.json" ["/seed"] "/state" "/state/bulk/query" "4GB" "/state/spill" "100GB" 1000 16384 2 1 8 1 1 100000 250 168 1000000 1000 120.

Lemma connection_closes_witness :
  ∃ l r, connection (λ _, Ok tt) (λ sql _, if String.eqb sql "SET threads = ?" then raise RuntimeError "" else Ok tt) 5000 example_settings
           example_objects [["seed"]] empty_fs (Some "/state/fakeforce.duckdb") None true None (exec (λ _ _, Ok tt) "SELECT 1" []) [] = (l, r) ∧
         is_ok r = false ∧ last l = Some Closed.
Proof.
  set (execute := λ (sql : string) (_ : list string), if String.eqb sql "SET threads = ?" then raise RuntimeError "" else Ok tt).
  assert (quiet (exec (λ _ _, Ok tt) "SELECT 1" [])) as Hq by apply quiet_exec.
  pose proof (connection_closes (λ _, Ok tt) execute 5000 example_settings example_objects [["seed"]] empty_fs (Some "/state/fakeforce.duckdb") None true None
    (exec (λ _ _, Ok tt) "SELECT 1" []) [] Hq) as H.
  set (run := connection (λ _, Ok tt) execute 5000 example_settings example_objects [["seed"]] empty_fs (Some "/state/fakeforce.duckdb") None true None
    (exec (λ _ _, Ok tt) "SELECT 1" []) []) in *.
  assert (is_ok run.2 = false) as Hf by (vm_compute; reflexivity).
  destruct run as [l r]. exists l, r. split; [done|]. split; [exact Hf|].
  destruct H as [(_ & _ & [H|H])|(statements & -> & _)]; [vm_compute in H; discriminate|done|]. cbn [app]. by rewrite app_comm_cons, last_snoc.
Defined.

(** Index names may collide: of two mutable objects, the second then has no unique index. *)
Definition colliding_objects : DatasetCatalog :=
  let a := mkSpec "A" ["/seed/a.csv"] "B_C" None "mutable" [("B_C", TString)] [] None [] None true true [] in
  let ab := mkSpec "A_B" ["/seed/ab.csv"] "C" None "mutable" [("C", TString)] [] None [] None true true [] in
  mkCatalog [("A", a); ("A_B", ab)] [("a", a); ("a_b", ab)].

Example colliding_indexes :
  let twice (reader : string) := Ok (if String.eqb reader "read_csv_auto(['/seed/ab.csv'], header = true, union_by_name = true)"
    then [("1", ""); ("1", "")] else [("1", ""); ("2", "")]) in
  (initialize_mutable_tables (λ _ r, Some r.1) twice (λ spec, Ok (sources spec)) colliding_objects (mkDb ∅ ∅)).2 = Ok tt.
Proof. vm_compute. reflexivity. Qed.
